(* ===== verification/_CoqProject ===== *)
-Q . S2P
Prelude.v
Memory.v
Vma.v
FrameAlloc.v
Paging.v
PagingProofs.v
PagingClone.v
PagingSpace.v
Heap.v
Bytes.v
Wire.v
Dns.v
NetTables.v
Nic.v
Dhcp.v
BlockDev.v
BlockCache.v
Journal.v
JournalTxn.v
Text.v
Vfs.v
Cgroup.v
CgroupProofs.v
Tmpfs.v
TmpfsProofs.v
Tcp.v
TcpProofs.v
TcpStream.v
TcpTable.v
TcpNic.v
Socket.v
SocketProofs.v
NetStack.v
DhcpStart.v
Ns.v
NsProofs.v
VfsTree.v
VfsPerm.v
VfsProofs.v
VfsTmpfs.v
Fd.v
FdProofs.v
FdMain.v
Task.v
Sched.v
Signal.v
TaskCalls.v
SchedProofs.v
SchedMain.v
SchedLife.v
