(* ===== verification/Prelude.v ===== *)
(** Zenus: a verification development for the Zenus x86_64 kernel.

    Zenus (src/) is an operating system kernel in Rust.  This development
    translates its memory management, most of its network stack up to sockets, its
    block storage layer, the virtual file system with the memory file system behind
    it, open files and pipes, namespaces, control groups, the scheduler and signals into
    executable definitions and proves what makes them correct, or exhibits where they
    are not.

    * The program's parts and where they are modelled

    Memory management, src/crates/zenus-mem/src:
    - vma.rs, the table of mapped regions of a process: Vma.v.  [VmaTable] is the
      fixed array with its count; [insert], [find], [find_exact], [remove] with its
      compaction loop, [remove_overlapping], [find_free].
    - frame_allocator.rs, physical frames: FrameAlloc.v.  [FrameAllocator] is the
      struct with its region array, per-region cursors and stack of freed frames;
      [alloc_frame], [free_frame], the counters, [reserve_region] with its in-place
      array shifts, and [plan_regions], which builds the allocator at boot.
    - paging.rs, page tables: Paging.v.  Physical memory is a map of 64-bit words;
      [Paging] is it with the frame allocator and the statics of the module.  The
      walks ([virt_to_phys_raw], [protect_page_raw], [unmap_page_raw]) are functions
      of the memory; [create_address_space], [clone_user_address_space] and
      [destroy_address_space] run in the state, the first two in a monad ([P]) whose
      failure is an allocator without frames.  PagingProofs.v has the walks,
      PagingClone.v a small logic for allocating programs ([run]) and the clone,
      PagingSpace.v the life of address spaces.
    - allocator.rs, the kernel heap: Heap.v, over the byte memory of Memory.v.
      Block headers are bytes in memory at computed addresses; [alloc_mut],
      [dealloc_mut], [free_size] and the list self-check walk them as the code does.

    Network, src/crates/zenus-net/src, bottom up:
    - ethernet.rs, ipv4.rs, icmp.rs, udp.rs: Wire.v, the parsers and builders of
      packets, over the byte strings of Bytes.v.
    - arp.rs, route.rs, firewall.rs: NetTables.v, the three lookup tables.
    - nic.rs, the receive path of rtl8139.rs, the locking of zenus-virtio's net.rs
      and of zenus-sync's spinlock.rs, and the send functions of ipv4.rs, udp.rs and
      arp.rs: Nic.v.  [Net] is the state of the interfaces, tables, cards and locks;
      a computation ([M]) returns its result and next state, or [None] when it spins
      forever on a lock the CPU already holds.  Frames handed to a card and calls of
      the handlers of TCP, sockets, DNS and DHCP are recorded in the state.
    - dns.rs: Dns.v.  dhcp.rs and dhcp_server.rs: Dhcp.v, the messages and the
      handlers; the server sends its replies in the place where the code does.
    - tcp.rs: Tcp.v.  [Tcb] is a control block; the handlers of a block
      ([tcb_receive], [poll_tcb], [queue_data], ...) are pure functions that return
      the segments to send, and the calls on the table run in a monad over the
      class [IpLayer], which is what tcp.rs uses of ipv4.rs.  TcpProofs.v has the
      class [LawfulIp] of what the proofs rely on, which lets a send hang, and the
      logic of the table over it ([spec]), TcpStream.v two ends joined by a network,
      TcpTable.v connecting through tables, TcpNic.v the instance of [IpLayer] that
      Nic.v gives, with its laws.
    - socket.rs: Socket.v.  [SockSys] is the pool with the table of connections;
      SocketProofs.v has the logic of its calls ([safe]).
    - The parts together: NetStack.v.  [Machine] is the interfaces with the state of
      DNS, DHCP client and DHCP server; its [net_poll] takes the frames of the card
      and calls the handlers ([upcall]) with the lock of the card held, as nic.rs,
      rtl8139.rs and udp.rs do.  DhcpStart.v has [dhcp_start] of dhcp.rs, which
      polls that machine.

    Storage, src/crates/zenus-fs/src:
    - devfs.rs, the table of block devices and the device files: BlockDev.v.  The
      drivers are arbitrary state-passing functions; the class [LawfulDevices] is
      what the layers above rely on, [ReliableDevices] a device without faults.  The
      RAM disk of the host tests in lib.rs is an instance of both.
    - block_cache.rs, the write-back cache: BlockCache.v.  [CacheSys] is the table
      of 512 entries together with the state of the drivers.
    - journal.rs, the redo journal: Journal.v, over the class [BlockStore], which
      the cache instantiates with its laws ([StoreLaws], [ReliableStore]); the
      proofs about whole transactions and crashes are in JournalTxn.v.

    Files and control groups, src/crates/zenus-fs/src:
    - vfs.rs: the types file systems share are in Vfs.v; paths, mounts, mount
      namespaces, resolution of paths and the operations on them in VfsTree.v, over a
      record of operations ([FileSystem], the trait) on an arbitrary state;
      permissions in VfsPerm.v.  VfsProofs.v has the lemmas, with the class
      [CreateLaws] of what creation promises; VfsTmpfs.v shows that the memory file
      system keeps it and has the theorems.  Text.v has what the code uses of Rust's
      strings: UTF-8, trimming, decimal numbers.
    - tmpfs.rs, the memory file system: Tmpfs.v.  [Tmp] is the node table; the entries
      of a directory are a list linked through indices, and the walks take a number of
      turns.  TmpfsProofs.v has a specification with lists of children ([TmpSpec]) and
      the simulation ([sim]) between the two.
    - cgroup.rs, control groups: Cgroup.v.  [CgroupTable] is the table; the calls of the
      scheduler run under its lock in a monad ([L]) whose failure is a lock taken
      twice; the file system calls encode limits as text.  CgroupProofs.v has the
      specification with maps ([CgroupSpec]) and the refinement.

    Open files, src/crates/zenus-syscall/src/syscall/fd.rs: Fd.v.  [FdSys] is the
    table of descriptors shared by all tasks, the table of pipes and the files
    behind; a call is given the calling task, and [None] is a read that waits
    forever.  FdProofs.v has the step relation of the calls, over file systems whose
    calls return ([returns]), and FdMain.v the theorems, with the memory file system
    as an instance.

    Namespaces, src/crates/zenus-ns/src: Ns.v.  The source writes the same table out
    six times; [NsTable] is that table over what a namespace holds, and the calls of
    each kind are changes of one namespace ([update_table]).  NsProofs.v has the
    refinement.

    Tasks, src/crates/zenus-sched/src:
    - task.rs, caps.rs and the dispositions of signal.rs: Task.v.
    - scheduler.rs: Sched.v.  [Sched] has the statics: the array of tasks, zombies,
      counters, the registers of each CPU the scheduler sets, and the words of kernel
      stacks, where a saved context is a frame of 20 words.  [schedule_tick] and
      [yield_now] answer how the CPU goes on ([Outcome]).  What the scheduler calls
      in other crates is the class [SchedEnv]; the theorems rely on its laws
      [EnvLaws], which say that the heap hands out memory that is not in use.
      SchedProofs.v has the invariant ([Inv]) and what each operation does to it,
      SchedMain.v sequences of calls ([exec], [reachable]) with their theorems and an
      instance of the laws, SchedLife.v the theorems about creation, end and signals.
    - signal.rs: Signal.v, frames on the stack of the user and the calls of
      scheduler.rs that build and restore them.
    - The calls kill, tgkill, rt_sigreturn and futex of
      src/crates/zenus-syscall/src/syscall.rs: TaskCalls.v.

    Prelude.v has what the files share: machine arithmetic with its wrap-around,
    page rounding, list lemmas, tactics and hint databases.

    * How the code is translated

    A machine integer is a [Z] with the width of each operation written out
    ([u64_add], [checked_add], [saturating_sub], ...).  A slice or array of bytes is
    a list of [Z]; an array of records is a list, updated by index.  A handler is a
    function from its state to its result and the next state; a table behind a lock
    is such a state, since a handler runs with the lock held.  A loop that is not
    structural takes a number of turns: the free-list walks of the heap are given
    more turns than the arena has room for blocks, the parsers one turn per byte,
    and the theorems show that this is enough ([dns_parse_total], the heap's
    refinement theorems, whose results are never out of fuel).  [dhcp_start]
    may really run forever; its loop is bounded by an argument, and the theorems
    quantify over it.

    What the code reads from outside is an argument: the frames a card receives at
    each poll, timer and clock readings, the bootloader's memory map, the address of
    the heap array.

    * What the theorems show

    - FrameAlloc.v: no frame is handed out twice, and every frame is usable memory
      off the reserved entries, each with its base rounded down to a page
      ([frame_exclusive]); the count of
      free frames is the number of allocations that succeed ([frame_count_exact]);
      reservation removes exactly the rounded range ([reserve_region_exact]).
    - PagingProofs.v: unmapping removes one page and nothing else; changing the
      protection changes no translation; after the supervisor pass no kernel entry
      is open to user mode.  PagingClone.v: a clone succeeds exactly when the frames
      it needs are there, leaves the parent alone and copies its user half
      ([clone_copies_user_half]), but gets a wrong kernel half.  PagingSpace.v:
      creation, destruction, which gives back the frames of a space without large
      pages ([destroy_returns_frames]), and two failures of their combination:
      destroying a clone frees pages its parent maps, and a space in a recycled frame is never
      destroyed.
    - Vma.v: no two regions of a reachable table overlap; insertion, removal and the
      search for a gap refine operations on a map from addresses to regions.
    - Heap.v: for alignments up to 16, live blocks are disjoint from each other and
      from the free list in every reachable heap ([heap_exclusive]); calls leave payloads alone;
      allocation is first fit and freeing merges neighbours
      ([heap_alloc_first_fit], [heap_dealloc_coalesces]).  For alignments above
      16, where this fails, the failures are theorems.
    - Wire.v, Dns.v: what is built is parsed back; parsers accept only consistent
      packets and return on every input; checksums verify.
    - NetTables.v: a packet never rebinds a cached MAC, except through eviction of a
      full cache; routing is longest prefix; the firewall is first match.
    - Nic.v: a datagram sent is the datagram delivered ([udp_delivery]); the virtio
      card deadlocks on its own lock, an echo request deadlocks the RTL8139 path,
      and that path never consults the firewall.
    - Dhcp.v: no address is leased to two clients; but the server is called with the
      lock of the card held and takes it again to answer, so that it never answers
      ([dhcp_server_never_answers]).  DhcpStart.v: a client whose card receives an offer
      and an acknowledgement binds its interface ([dhcp_client_binds]); it gives up
      discovering but never requesting; a DISCOVER it receives stops it.
    - TcpStream.v: what a receiver has read is a prefix of what was sent
      ([tcp_receiver_prefix]), and one message after another is delivered
      ([tcp_messages_delivered]); closing ends in both ends closed, and unanswered
      segments are sent a bounded number of times.  Data sent before earlier data is
      acknowledged repeats it, and a full window stalls.  TcpTable.v: a connect
      to a listener whose slot comes before the new one establishes both ends
      ([tcp_handshake]); a listener hides connections accepted before it.
      TcpNic.v: the calls that return keep the table well-formed, and they return when
      the lock of the card is free ([tcp_table_well_formed]); an answer sent while the
      card is polled does not ([tcp_answer_deadlock]).
    - NetStack.v: the same for every sequence of socket calls and polls of the whole
      machine ([socket_calls_safe]).  SocketProofs.v: a UDP socket is a queue; a stream
      socket that is not connected reaches connection 0.
    - BlockCache.v: the cache implements a store of sectors
      ([cache_refines_store]) and a flush makes it durable, except that a write
      whose slots are all dirty is lost for readers ([cache_spilled_write_lost]).
    - JournalTxn.v: transactions reach the device, replay redoes a committed one but
      leaves its entries in the header, so that the next transaction writes them again
      ([journal_replayed_entries_written_again]); no write leaves the journal area; a crash can tear a commit
      ([journal_commit_torn_by_crash], which runs the code on every prefix of the
      writes of a transaction).

    - TmpfsProofs.v: every sequence of calls answers like a tree of named nodes
      ([tmpfs_refines_spec]); what is created is found, what is written is read.  A write
      past the end of a file shows old bytes, and names over 63 bytes are lost.
    - VfsTmpfs.v: a path resolves in the mount of its longest prefix
      ([vfs_longest_mount]), a file created by path is opened by path
      ([vfs_create_open]), unmounting undoes mounting unless the path was mounted
      already ([vfs_mount_umount]), circles of links are refused and
      the two permission checks agree.  Two dots after the first name are lost
      ([vfs_dotdot_lost]) and read-only mounts can be changed
      ([vfs_read_only_not_enforced]).
    - CgroupProofs.v: the table stays well-formed and implements its specification
      ([cgroup_refines_spec]); limits written as text are read back.  A refused move
      frees a task of its limits ([cgroup_refused_move_escapes]).
    - FdMain.v: every call on descriptors and paths returns and keeps the tables
      well-formed ([fd_calls_safe]); no call changes a descriptor of another task
      ([fd_isolation]) except [dup2], which takes it ([dup2_takes_descriptor]); a pipe
      is a queue of 4096 bytes ([pipe_refines_queue]).  Which end of a pipe a close
      ends depends on the number of the descriptor, pipes are never freed, and a file
      opened for reading can be written.
    - NsProofs.v: a table of namespaces is a finite map ([ns_table_refines_map]); the
      number of a task in a namespace and the task of a number are inverse
      ([pid_numbers]).
    - SchedMain.v: after boot every sequence of calls keeps the tables of the
      scheduler in order and switches only to valid frames ([sched_calls_safe]); a
      task goes on where it was suspended ([context_restored]); a task that can run
      does run, within 127 ticks ([sched_fair]).
    - SchedLife.v: an exit is reported once to a wait ([exit_reported]); what a clone
      inherits ([clone_inherits]) and what not, among it the filter of system calls;
      signals need permission ([kill_permission]), but not with tgkill
      ([tgkill_unchecked]).  Returning from a handler restores the stack but not the
      instruction pointer ([signal_roundtrip]), a signal without handler keeps others
      back ([unhandled_blocks]), waiting for a futex does not wait
      ([futex_wait_is_yield]), and SIGCONT revives tasks that have ended
      ([continue_revives]).

    * What is not modelled

    The other system calls, the file systems on disk, the start of user programs,
    the mapping of pages (which the x86_64 crate does), translation
    caches, and everything that is device registers, assembly or console output.
    Memory orderings and true parallelism are not modelled: each handler is one step. *)

From Stdlib Require Export ZArith Lia.
From stdpp Require Export base numbers list option strings sets gmap.

Open Scope Z_scope.

Declare Scope word_scope.
Delimit Scope word_scope with word.

(** ** Machine integers

    A w-bit unsigned integer of the source is a [Z]; the operations below are
    the ones the source uses, with their wrap-around, saturation or failure
    written out. *)

Definition U64 : Z := 2 ^ 64.
Definition U64_MAX : Z := U64 - 1.

Definition is_u64 (x : Z) : Prop := 0 <= x < U64.

(** [a + b] of a release build, and [wrapping_add]. *)
Definition u64_add (a b : Z) : Z := (a + b) mod U64.
(** [a - b] of a release build, and [wrapping_sub]. *)
Definition u64_sub (a b : Z) : Z := (a - b) mod U64.
Definition saturating_add (a b : Z) : Z := Z.min (a + b) U64_MAX.
Definition saturating_sub (a b : Z) : Z := Z.max (a - b) 0.
Definition checked_add (a b : Z) : option Z :=
  if a + b <? U64 then Some (a + b) else None.
(** Bitwise complement [!x] of a 64-bit integer. *)
Definition u64_not (x : Z) : Z := Z.lxor x U64_MAX.

Infix "⊞" := u64_add (at level 50, left associativity) : word_scope.
Infix "⊟" := u64_sub (at level 50, left associativity) : word_scope.

Create HintDb zenus discriminated.
Create HintDb word discriminated.

(** Split every boolean test of the goal and hypotheses into its proposition. *)
Ltac bsplit :=
  repeat match goal with
    | H : (_ && _)%bool = true |- _ => apply andb_true_iff in H; destruct H
    | H : (_ || _)%bool = false |- _ => apply orb_false_iff in H; destruct H
    | H : (_ || _)%bool = true |- _ => apply orb_true_iff in H
    | H : (_ && _)%bool = false |- _ => apply andb_false_iff in H
    | H : negb _ = true |- _ => apply negb_true_iff in H
    | H : negb _ = false |- _ => apply negb_false_iff in H
    | H : (_ <? _) = true |- _ => apply Z.ltb_lt in H
    | H : (_ <? _) = false |- _ => apply Z.ltb_ge in H
    | H : (_ <=? _) = true |- _ => apply Z.leb_le in H
    | H : (_ <=? _) = false |- _ => apply Z.leb_gt in H
    | H : (_ =? _) = true |- _ => apply Z.eqb_eq in H
    | H : (_ =? _) = false |- _ => apply Z.eqb_neq in H
    | H : (_ <? _)%nat = true |- _ => apply Nat.ltb_lt in H
    | H : (_ <? _)%nat = false |- _ => apply Nat.ltb_ge in H
    | H : (_ <=? _)%nat = true |- _ => apply Nat.leb_le in H
    | H : (_ <=? _)%nat = false |- _ => apply Nat.leb_gt in H
    | H : (_ =? _)%nat = true |- _ => apply Nat.eqb_eq in H
    | H : (_ =? _)%nat = false |- _ => apply Nat.eqb_neq in H
    end.

(** Case analysis on the scrutinee of an [if] or a [match] of the goal. *)
Ltac case_if :=
  match goal with
  | |- context [if ?b then _ else _] =>
      let E := fresh "E" in destruct b eqn:E; bsplit
  end.

Ltac case_if_in H :=
  match type of H with
  | context [if ?b then _ else _] =>
      let E := fresh "E" in destruct b eqn:E; bsplit
  end.

(** Membership in a list built by appending and consing. *)
Ltac list_mem :=
  repeat match goal with
    | E : ?l = _ ++ _ |- _ ∈ ?l => rewrite E
    | |- _ ∈ _ ++ _ => apply elem_of_app
    | |- _ ∈ _ :: _ => apply elem_of_cons
    | H : _ ∈ _ ++ _ |- _ => apply elem_of_app in H
    | H : _ ∈ _ :: _ |- _ => apply elem_of_cons in H
    | H : _ \/ _ |- _ => destruct H
    end;
  rewrite ?elem_of_app, ?elem_of_cons; subst; tauto.

(** Arithmetic on machine words: unfold the constants and call [lia]. *)
Ltac word_lia := unfold is_u64, U64_MAX, U64 in *; lia.

(** ** Lemmas on the word operations *)

Lemma u64_add_small a b : 0 <= a + b < U64 -> u64_add a b = a + b.
Proof. intros H. unfold u64_add. apply Z.mod_small. exact H. Qed.

Lemma u64_sub_small a b : 0 <= a - b < U64 -> u64_sub a b = a - b.
Proof. intros H. unfold u64_sub. apply Z.mod_small. exact H. Qed.

Lemma u64_add_range a b : is_u64 (u64_add a b).
Proof. unfold is_u64, u64_add. apply Z.mod_pos_bound. reflexivity. Qed.

Lemma u64_sub_range a b : is_u64 (u64_sub a b).
Proof. unfold is_u64, u64_sub. apply Z.mod_pos_bound. reflexivity. Qed.

Lemma checked_add_Some a b c :
  checked_add a b = Some c <-> a + b < U64 /\ c = a + b.
Proof.
  unfold checked_add. case_if; split; intros H'; simplify_eq; try done; destruct H'; subst; try done; lia.
Qed.

Lemma checked_add_None a b : checked_add a b = None <-> U64 <= a + b.
Proof. unfold checked_add. case_if; split; intros; try done; lia. Qed.

(** Masking off the low [k] bits rounds down to a multiple of [2^k]. *)
Lemma land_not_ones (k x : Z) :
  0 <= k < 64 -> is_u64 x ->
  Z.land x (u64_not (2 ^ k - 1)) = x - x mod 2 ^ k.
Proof.
  intros Hk Hx.
  assert (Hm : x - x mod 2 ^ k = Z.ldiff x (Z.ones k)).
  { rewrite Z.ldiff_ones_r by lia.
    rewrite Z.shiftl_mul_pow2, Z.shiftr_div_pow2 by lia.
    pose proof (Z.div_mod x (2 ^ k) ltac:(lia)). lia. }
  rewrite Hm. apply Z.bits_inj'. intros i Hi.
  unfold u64_not, U64_MAX, U64.
  replace (2 ^ k - 1) with (Z.ones k) by (rewrite Z.ones_equiv; lia).
  replace (2 ^ 64 - 1) with (Z.ones 64) by reflexivity.
  rewrite Z.land_spec, Z.ldiff_spec, Z.lxor_spec.
  destruct (Z.lt_ge_cases i 64).
  - rewrite (Z.ones_spec_low 64) by lia. by destruct (Z.testbit x i), (Z.testbit (Z.ones k) i).
  - rewrite (Z.ones_spec_high 64) by lia. rewrite (Z.ones_spec_high k) by lia.
    replace (Z.testbit x i) with false; [done|].
    symmetry. destruct (Z.eq_dec x 0) as [->|]; [apply Z.bits_0|].
    apply Z.bits_above_log2; [word_lia|].
    apply Z.lt_le_trans with 64; [|done]. apply Z.log2_lt_pow2; word_lia.
Qed.

(** ** Pages *)

Definition PAGE_SIZE : Z := 4096.

(** [x & !0xFFF]: round down to a page boundary. *)
Definition page_down (x : Z) : Z := Z.land x (u64_not 0xFFF).

Definition page_aligned (x : Z) : Prop := x mod PAGE_SIZE = 0.

Lemma page_down_spec x : is_u64 x -> page_down x = x - x mod 4096.
Proof. intros. unfold page_down. apply (land_not_ones 12); [lia|done]. Qed.

(** [(x + 0xFFF) & !0xFFF]: round up to a page boundary. *)
Definition page_up (x : Z) : Z := page_down (u64_add x 0xFFF).

Lemma page_up_spec x :
  0 <= x -> x + 4095 < U64 -> page_up x = (x + 4095) - (x + 4095) mod 4096.
Proof.
  intros. unfold page_up. rewrite u64_add_small by lia. apply page_down_spec. word_lia.
Qed.

(** Linear arithmetic with page rounding: quotients and remainders by constants
    become linear constraints. *)
Ltac page_lia :=
  unfold page_aligned, PAGE_SIZE, is_u64, U64_MAX, U64 in *;
  Z.div_mod_to_equations; lia.

Lemma page_down_aligned x : is_u64 x -> page_aligned (page_down x).
Proof. intros. rewrite page_down_spec by done. page_lia. Qed.

Lemma page_down_bounds x : is_u64 x -> page_down x <= x < page_down x + 4096.
Proof. intros. rewrite page_down_spec by done. page_lia. Qed.

Lemma page_down_id x : is_u64 x -> page_aligned x -> page_down x = x.
Proof. intros. rewrite page_down_spec by done. page_lia. Qed.

Lemma page_up_aligned x : 0 <= x -> x + 4095 < U64 -> page_aligned (page_up x).
Proof. intros. rewrite page_up_spec by done. page_lia. Qed.

Lemma page_up_bounds x : 0 <= x -> x + 4095 < U64 -> x <= page_up x < x + 4096.
Proof. intros. rewrite page_up_spec by done. page_lia. Qed.

Lemma page_up_least x y :
  0 <= x -> x + 4095 < U64 -> page_aligned y -> x <= y -> page_up x <= y.
Proof. intros. rewrite page_up_spec by done. page_lia. Qed.

(** ** Lists *)

(** First index, counting from [i], whose element satisfies [p]. *)
Fixpoint find_index_from {A} (i : nat) (p : A -> bool) (l : list A) : option nat :=
  match l with
  | [] => None
  | x :: l => if p x then Some i else find_index_from (S i) p l
  end.

Definition find_index {A} (p : A -> bool) (l : list A) : option nat :=
  find_index_from 0 p l.

Lemma find_index_from_Some {A} (p : A -> bool) (l : list A) i k :
  find_index_from i p l = Some k <->
  (i <= k)%nat /\ (exists x, l !! (k - i)%nat = Some x /\ p x = true) /\
  (forall j x, (j < k - i)%nat -> l !! j = Some x -> p x = false).
Proof.
  revert i. induction l as [|a l IH]; intros i; simpl.
  - split; [done|]. intros (_ & (x & Hx & _) & _). by rewrite lookup_nil in Hx.
  - destruct (p a) eqn:Hp; [|rewrite IH]; split.
    + intros [= ->]. rewrite Nat.sub_diag. split; [lia|]. split; [by exists a|]. lia.
    + intros (Hle & _ & Hlt). destruct (decide (i = k)) as [->|]; [done|].
      specialize (Hlt 0%nat a ltac:(lia) eq_refl). congruence.
    + intros (Hle & (x & Hx & Hpx) & Hlt). split; [lia|].
      replace (k - i)%nat with (S (k - S i)) by lia. split; [by exists x|].
      intros [|j] y Hj Hy; simpl in Hy; [congruence|]. apply (Hlt j y); [lia|done].
    + intros (Hle & (x & Hx & Hpx) & Hlt).
      destruct (decide (i = k)) as [->|Hne].
      { rewrite Nat.sub_diag in Hx. simpl in Hx. congruence. }
      replace (k - i)%nat with (S (k - S i)) in Hx, Hlt by lia. split; [lia|].
      split; [by exists x|]. intros j y Hj Hy. apply (Hlt (S j) y); [lia|done].
Qed.

Lemma find_index_Some {A} (p : A -> bool) (l : list A) k :
  find_index p l = Some k <->
  (exists x, l !! k = Some x /\ p x = true) /\
  (forall j x, (j < k)%nat -> l !! j = Some x -> p x = false).
Proof.
  unfold find_index. rewrite find_index_from_Some, Nat.sub_0_r.
  split; intros H; [tauto|]. split; [lia|tauto].
Qed.

Lemma find_index_from_None {A} (p : A -> bool) (l : list A) i :
  find_index_from i p l = None <-> Forall (fun x => p x = false) l.
Proof.
  revert i. induction l as [|a l IH]; intros i; simpl; [by split|].
  destruct (p a) eqn:Hp; rewrite Forall_cons; [|rewrite IH].
  - split; [done|]. intros [? _]. congruence.
  - split; [by intros|by intros [_ ?]].
Qed.

Lemma find_index_None {A} (p : A -> bool) (l : list A) :
  find_index p l = None <-> Forall (fun x => p x = false) l.
Proof. apply find_index_from_None. Qed.

(** [R] holds between every two elements at different positions. *)
Fixpoint pairwise {A} (R : A -> A -> Prop) (l : list A) : Prop :=
  match l with
  | [] => True
  | x :: l => Forall (R x) l /\ pairwise R l
  end.

Section pairwise.
Context {A : Type} (R : A -> A -> Prop).

Lemma pairwise_app l1 l2 :
  pairwise R (l1 ++ l2) <->
  pairwise R l1 /\ pairwise R l2 /\ Forall (fun x => Forall (R x) l2) l1.
Proof.
  induction l1 as [|x l1 IH]; simpl.
  - split; [intros; split_and!; [done..|constructor]|tauto].
  - rewrite Forall_app, Forall_cons, IH. tauto.
Qed.

Lemma pairwise_sublist l1 l2 : sublist l1 l2 -> pairwise R l2 -> pairwise R l1.
Proof.
  induction 1 as [|x l1 l2 Hs IH|x l1 l2 Hs IH]; simpl; [done| |tauto].
  intros [Hx Hl]. split; [|auto].
  rewrite Forall_forall in Hx |- *. intros y Hy. apply Hx. by eapply elem_of_sublist.
Qed.

Lemma pairwise_snoc l x :
  pairwise R l -> Forall (fun y => R y x) l -> pairwise R (l ++ [x]).
Proof.
  intros Hl Hx. apply pairwise_app. split_and!; [done|by repeat constructor|].
  eapply Forall_impl; [exact Hx|]. intros y Hy. by repeat constructor.
Qed.

Lemma pairwise_lookup `{!Symmetric R} l i j x y :
  pairwise R l -> i <> j -> l !! i = Some x -> l !! j = Some y -> R x y.
Proof.
  revert i j. induction l as [|a l IH]; [done|].
  intros [|i] [|j] [Ha Hl] Hne Hi Hj; simplify_eq/=; [| |eapply (IH i j); eauto].
  - rewrite Forall_forall in Ha. apply Ha. by eapply list_elem_of_lookup_2.
  - symmetry. rewrite Forall_forall in Ha. apply Ha. by eapply list_elem_of_lookup_2.
Qed.

End pairwise.

(** A boolean [List.filter] keeps a sublist. *)
Lemma filter_sublist {A} (p : A -> bool) l : sublist (List.filter p l) l.
Proof.
  induction l as [|x l IH]; simpl; [done|].
  destruct (p x); [by apply sublist_skip|by apply sublist_cons].
Qed.

Lemma elem_of_filter_b {A} (p : A -> bool) x l :
  x ∈ List.filter p l <-> x ∈ l /\ p x = true.
Proof. rewrite !list_elem_of_In. apply List.filter_In. Qed.

Lemma Forall_sublist {A} (P : A -> Prop) l1 l2 : sublist l1 l2 -> Forall P l2 -> Forall P l1.
Proof.
  intros Hs. rewrite !Forall_forall. intros H x Hx. apply H. by eapply elem_of_sublist.
Qed.

Lemma filter_all_true {A} (p : A -> bool) l :
  Forall (fun x => p x = true) l -> List.filter p l = l.
Proof. induction 1 as [|x l Hx Hl IH]; simpl; [done|]. by rewrite Hx, IH. Qed.

(** Overwriting an entry of an all-[p] list with a non-[p] entry and filtering
    is deleting that entry. *)
Lemma filter_insert_false {A} (p : A -> bool) l i x :
  Forall (fun y => p y = true) l -> (i < length l)%nat -> p x = false ->
  List.filter p (<[i := x]> l) = delete i l.
Proof.
  revert i. induction l as [|a l IH]; intros [|i] Hl Hi Hx; simpl in *; try lia.
  - rewrite Hx. inversion Hl; subst. by apply filter_all_true.
  - inversion Hl as [|? ? Ha Hl']; subst. rewrite Ha. f_equal. apply IH; [done|lia|done].
Qed.

(** Deleting an entry that the filter drops does not change the filtered list. *)
Lemma filter_delete_false {A} (p : A -> bool) l i x :
  l !! i = Some x -> p x = false -> List.filter p (delete i l) = List.filter p l.
Proof.
  revert i. induction l as [|a l IH]; intros [|i] Hi Hx; simplify_eq/=.
  - by rewrite Hx.
  - destruct (p a); [f_equal|]; by apply IH.
Qed.

Lemma length_filter_delete {A} (p : A -> bool) l i x :
  l !! i = Some x -> p x = true ->
  S (length (List.filter p (delete i l))) = length (List.filter p l).
Proof.
  revert i. induction l as [|a l IH]; intros [|i] Hi Hx; simplify_eq/=.
  - by rewrite Hx.
  - destruct (p a); simpl; [f_equal|]; by apply IH.
Qed.

(** Arrays as lists: splitting at an index that is in range. *)
Lemma drop_lookup_total {A} `{Inhabited A} (l : list A) i :
  (i < length l)%nat -> drop i l = l !!! i :: drop (S i) l.
Proof.
  intros H'. destruct (lookup_lt_is_Some_2 l i H') as [x Hx].
  rewrite (list_lookup_total_correct _ _ _ Hx). by apply drop_S.
Qed.

Lemma take_S_lookup_total {A} `{Inhabited A} (l : list A) n :
  (n < length l)%nat -> take (S n) l = take n l ++ [l !!! n].
Proof.
  intros H'. destruct (lookup_lt_is_Some_2 l n H') as [x Hx].
  rewrite (list_lookup_total_correct _ _ _ Hx). by apply take_S_r.
Qed.

(** If the live prefix of an array is [l1 ++ x :: l2], the array reads [x] at
    [length l1]. *)
Lemma lookup_total_prefix {A} `{Inhabited A} (a l1 l2 : list A) x n :
  take n a = l1 ++ x :: l2 -> a !!! length l1 = x.
Proof.
  intros Ht. apply list_lookup_total_correct.
  assert (Hl : take n a !! length l1 = Some x) by (rewrite Ht; by apply list_lookup_middle).
  by apply lookup_take_Some in Hl as [? _].
Qed.

Lemma insert_prefix {A} (a l1 l2 : list A) x y n :
  take n a = l1 ++ x :: l2 -> take n (<[length l1 := y]> a) = l1 ++ y :: l2.
Proof.
  intros Ht.
  assert (Hl : take n a !! length l1 = Some x) by (rewrite Ht; by apply list_lookup_middle).
  apply lookup_take_Some in Hl as [_ Hlt].
  rewrite take_insert_lt by lia. rewrite Ht.
  replace (length l1) with (length l1 + 0)%nat by lia. rewrite insert_app_r. done.
Qed.
