(* ===== verification/Memory.v ===== *)
(** Byte-addressed memory.

    The kernel writes its data structures through raw pointers: heap block
    headers into a static byte array, page table entries through the physical
    map, ring descriptors through DMA buffers.  This file gives the memory those
    components share: a finite map from byte addresses to bytes, zero where
    nothing was written, with little-endian loads and stores of [n] bytes and
    the frame lemmas a store satisfies. *)

From S2P Require Import Prelude.

Notation Mem := (gmap Z Z).

Definition load8 (m : Mem) (a : Z) : Z := default 0 (m !! a).
Definition store8 (m : Mem) (a v : Z) : Mem := <[a := v mod 256]> m.

Fixpoint load_le (n : nat) (m : Mem) (a : Z) : Z :=
  match n with
  | O => 0
  | S n => load8 m a + 256 * load_le n m (a + 1)
  end.

Fixpoint store_le (n : nat) (m : Mem) (a v : Z) : Mem :=
  match n with
  | O => m
  | S n => store_le n (store8 m a v) (a + 1) (v / 256)
  end.

Definition load64 : Mem -> Z -> Z := load_le 8.
Definition store64 : Mem -> Z -> Z -> Mem := store_le 8.

#[global] Arguments load64 : simpl never.
#[global] Arguments store64 : simpl never.

(** [agree m m' a n]: the two memories have the same bytes in [[a, a+n)]. *)
Definition agree (m m' : Mem) (a n : Z) : Prop :=
  forall i, a <= i < a + n -> load8 m' i = load8 m i.

Section lemmas.
Implicit Types (m : Mem) (a v : Z).

Lemma load8_store8_eq m a v : load8 (store8 m a v) a = v mod 256.
Proof. unfold load8, store8. by rewrite lookup_insert_eq. Qed.

Lemma load8_store8_ne m a b v : a <> b -> load8 (store8 m a v) b = load8 m b.
Proof. intros. unfold load8, store8. by rewrite lookup_insert_ne. Qed.

Lemma load8_store_le_out n m a v i :
  i < a \/ a + Z.of_nat n <= i -> load8 (store_le n m a v) i = load8 m i.
Proof.
  revert m a v. induction n as [|n IH]; intros m a v Hi; cbn [store_le]; [done|].
  rewrite IH by lia. apply load8_store8_ne. lia.
Qed.

Lemma load_le_agree n m m' a :
  agree m m' a (Z.of_nat n) -> load_le n m' a = load_le n m a.
Proof.
  revert a. induction n as [|n IH]; intros a H; cbn [load_le]; [done|].
  rewrite (H a) by lia. rewrite (IH (a + 1)); [done|]. intros i Hi. apply H. lia.
Qed.

Lemma load_store_le_eq n m a v :
  0 <= v < 256 ^ Z.of_nat n -> load_le n (store_le n m a v) a = v.
Proof.
  revert m a v. induction n as [|n IH]; intros m a v Hv; cbn [load_le store_le].
  - change (256 ^ Z.of_nat 0) with 1 in Hv. lia.
  - rewrite load8_store_le_out by lia. rewrite load8_store8_eq.
    rewrite IH.
    + pose proof (Z.div_mod v 256 ltac:(lia)). lia.
    + rewrite Nat2Z.inj_succ, Z.pow_succ_r in Hv by lia.
      split; [apply Z.div_pos; lia|]. apply Z.div_lt_upper_bound; lia.
Qed.

Lemma load64_store64_eq m a v : is_u64 v -> load64 (store64 m a v) a = v.
Proof. intros [??]. apply load_store_le_eq. split; [done|]. exact H0. Qed.

Lemma load64_store64_ne m a b v :
  b + 8 <= a \/ a + 8 <= b -> load64 (store64 m a v) b = load64 m b.
Proof.
  intros H. apply load_le_agree. intros i Hi. apply load8_store_le_out. lia.
Qed.

Lemma agree_refl m a n : agree m m a n.
Proof. by intros i Hi. Qed.

Lemma agree_trans m1 m2 m3 a n : agree m1 m2 a n -> agree m2 m3 a n -> agree m1 m3 a n.
Proof. intros H1 H2 i Hi. rewrite H2 by done. by apply H1. Qed.

Lemma agree_sub m m' a n b k :
  agree m m' a n -> a <= b -> b + k <= a + n -> agree m m' b k.
Proof. intros H ?? i Hi. apply H. lia. Qed.

Lemma agree_store64 m a v b n :
  b + n <= a \/ a + 8 <= b -> agree m (store64 m a v) b n.
Proof. intros H i Hi. apply load8_store_le_out. lia. Qed.

Lemma agree_store8 m a v b n :
  b + n <= a \/ a < b -> agree m (store8 m a v) b n.
Proof. intros H i Hi. apply load8_store8_ne. lia. Qed.

Lemma load64_agree m m' a : agree m m' a 8 -> load64 m' a = load64 m a.
Proof. intros H. apply load_le_agree, H. Qed.

Lemma load8_range m a : map_Forall (fun _ b => 0 <= b < 256) m -> 0 <= load8 m a < 256.
Proof.
  intros H. unfold load8. destruct (m !! a) eqn:E; simpl; [by apply (H a)|lia].
Qed.

End lemmas.

#[export] Hint Resolve agree_refl agree_store64 agree_store8 : zenus.
