(* ===== verification/Vma.v ===== *)
(** Virtual memory areas: the per-process table of mapped regions that
    [mmap], [munmap] and [mprotect] consult (crates/zenus-mem/src/vma.rs).

    [VmaRegion] and [VmaTable] are the source's structs: a table is a fixed
    array of [MAX_VMAS] slots of which the first [count] are live.  The
    operations follow the source loop by loop; [remove] keeps the in-place
    compaction with its two cursors, [find_free] the bounded search.

    The theorems: the invariant [wf] (live slots valid, non-empty, below the
    user ceiling and pairwise disjoint) is preserved by every operation; the
    table refines a partial map from addresses to regions; [find_free] returns
    exactly the lowest page-aligned gap at or above the hint. *)

From S2P Require Import Prelude.

Open Scope Z_scope.

(** ** Data *)

Definition MAX_VMAS : nat := 64.
Definition MAX_MAPPING_SIZE : Z := 0x7F0000000000.

Definition PROT_READ : Z := 0x1.
Definition PROT_WRITE : Z := 0x2.
Definition PROT_EXEC : Z := 0x4.

Definition PAGE_USER : Z := Z.shiftl 1 2.
Definition PAGE_WRITABLE : Z := Z.shiftl 1 1.
Definition PAGE_NO_EXECUTE : Z := Z.shiftl 1 63.

Record VmaRegion := mkVmaRegion {
  start : Z;
  end_ : Z;
  prot : Z;
  flags : Z;
  file_offset : Z;
  inode : Z;
  valid : bool;
}.

Module VmaRegion.

Definition new_region : VmaRegion :=
  {| start := 0; end_ := 0; prot := 0; flags := 0;
     file_offset := 0; inode := 0; valid := false |}.

Definition contains (r : VmaRegion) (addr : Z) : bool :=
  valid r && (start r <=? addr) && (addr <? end_ r).

Definition page_aligned_start (r : VmaRegion) : Z := page_down (start r).

Definition page_aligned_end (r : VmaRegion) : Z :=
  page_down (saturating_add (end_ r) 0xFFF).

Definition to_page_flags (r : VmaRegion) : Z :=
  let flags := PAGE_USER in
  let flags :=
    if negb (Z.land (prot r) PROT_WRITE =? 0) then Z.lor flags PAGE_WRITABLE else flags in
  if Z.land (prot r) PROT_EXEC =? 0 then Z.lor flags PAGE_NO_EXECUTE else flags.

End VmaRegion.

#[export] Instance VmaRegion_inhabited : Inhabited VmaRegion := populate VmaRegion.new_region.
#[export] Instance VmaRegion_eq_dec : EqDecision VmaRegion.
Proof. solve_decision. Defined.

Record VmaTable := mkVmaTable {
  regions : list VmaRegion;
  count : nat;
  mmap_base : Z;
}.

(** ** Operations *)

Module VmaTable.

Definition new : VmaTable :=
  {| regions := replicate MAX_VMAS VmaRegion.new_region;
     count := 0;
     mmap_base := 0x200000000000 |}.

(** The half-open overlap test of [insert]: [start < r.end && end > r.start]. *)
Definition overlaps (start' end' : Z) (r : VmaRegion) : bool :=
  valid r && (start' <? end_ r) && (start r <? end').

Definition insert (t : VmaTable) (start' end' prot' flags' : Z) : VmaTable * option nat :=
  if end' <=? start' then (t, None)
  else if MAX_MAPPING_SIZE <? end' then (t, None)
  else if existsb (overlaps start' end') (take (count t) (regions t)) then (t, None)
  else if (MAX_VMAS <=? count t)%nat then (t, None)
  else
    let idx := count t in
    ({| regions :=
          <[idx := {| start := start'; end_ := end'; prot := prot'; flags := flags';
                      file_offset := 0; inode := 0; valid := true |}]> (regions t);
        count := S (count t);
        mmap_base := mmap_base t |},
     Some idx).

Definition find (t : VmaTable) (addr : Z) : option nat :=
  find_index (fun r => VmaRegion.contains r addr) (take (count t) (regions t)).

Definition find_exact (t : VmaTable) (start' end' : Z) : option nat :=
  find_index (fun r => valid r && (start r =? start') && (end_ r =? end'))
    (take (count t) (regions t)).

(** The compaction loop of [remove], [n] iterations from [read]. *)
Fixpoint compact (n : nat) (read write : nat) (regs : list VmaRegion)
  : list VmaRegion * nat :=
  match n with
  | O => (regs, write)
  | S n =>
      if valid (regs !!! read) then
        let regs := if (write =? read)%nat then regs else <[write := regs !!! read]> regs in
        compact n (S read) (S write) regs
      else compact n (S read) write regs
  end.

Definition invalidate (r : VmaRegion) : VmaRegion :=
  {| start := start r; end_ := end_ r; prot := prot r; flags := flags r;
     file_offset := file_offset r; inode := inode r; valid := false |}.

Definition remove (t : VmaTable) (idx : nat) : VmaTable * bool :=
  if (count t <=? idx)%nat then (t, false)
  else
    let regs := <[idx := invalidate (regions t !!! idx)]> (regions t) in
    let '(regs, write) := compact (count t) 0 0 regs in
    ({| regions := regs; count := write; mmap_base := mmap_base t |}, true).

(** The hit test of [remove_overlapping]: [r.start < end && r.end > start]. *)
Definition touches (start' end' : Z) (r : VmaRegion) : bool :=
  valid r && (start r <? end') && (start' <? end_ r).

(** [guard] counts the passes left; the source allows [MAX_VMAS + 1] of them. *)
Fixpoint remove_overlapping_loop (guard : nat) (start' end' : Z) (t : VmaTable)
    (removed : nat) : VmaTable * nat :=
  match guard with
  | O => (t, removed)
  | S guard =>
      match find_index (touches start' end') (take (count t) (regions t)) with
      | Some idx =>
          remove_overlapping_loop guard start' end' (fst (remove t idx)) (S removed)
      | None => (t, removed)
      end
  end.

Definition remove_overlapping (t : VmaTable) (start' end' : Z) : VmaTable * nat :=
  remove_overlapping_loop (S MAX_VMAS) start' end' t 0.

(** The inner scan of [find_free]: the end of the first region that overlaps. *)
Definition find_bump (regs : list VmaRegion) (candidate size : Z) : option Z :=
  match List.find
          (fun r => valid r && (candidate <? end_ r)
                    && (start r <? saturating_add candidate size)) regs with
  | Some r => Some (end_ r)
  | None => None
  end.

Fixpoint find_free_loop (n : nat) (regs : list VmaRegion) (size candidate : Z) : option Z :=
  match n with
  | O => None
  | S n =>
      match checked_add candidate size with
      | Some e =>
          if e <=? MAX_MAPPING_SIZE then
            match find_bump regs candidate size with
            | None => Some candidate
            | Some next =>
                let aligned := page_down next in
                if aligned <=? candidate then None
                else find_free_loop n regs size aligned
            end
          else None
      | None => None
      end
  end.

Definition find_free (t : VmaTable) (size hint : Z) : option Z :=
  if (size =? 0) || (MAX_MAPPING_SIZE <? size) then None
  else find_free_loop (S MAX_VMAS) (take (count t) (regions t)) size (page_down hint).

End VmaTable.

(** ** Invariant *)

Module VmaProofs.
Import VmaTable.

Definition live (t : VmaTable) : list VmaRegion := take (count t) (regions t).

Definition region_ok (r : VmaRegion) : Prop :=
  valid r = true /\ 0 <= start r /\ start r < end_ r /\ end_ r <= MAX_MAPPING_SIZE.

Definition disjoint (r s : VmaRegion) : Prop := end_ r <= start s \/ end_ s <= start r.

#[export] Instance disjoint_symmetric : Symmetric disjoint.
Proof. unfold disjoint. intros r s ?. tauto. Qed.

Record wf (t : VmaTable) : Prop := {
  wf_length : length (regions t) = MAX_VMAS;
  wf_count : (count t <= MAX_VMAS)%nat;
  wf_live : Forall region_ok (live t);
  wf_disjoint : pairwise disjoint (live t);
}.

Lemma vma_length_live t : wf t -> length (live t) = count t.
Proof. intros [Hl Hc _ _]. unfold live. rewrite length_take. lia. Qed.

Lemma wf_valid t : wf t -> Forall (fun r => valid r = true) (live t).
Proof. intros H. eapply Forall_impl; [apply wf_live, H|]. by intros r [? _]. Qed.

(** A table whose live part is a sublist of a well-formed one's is well-formed. *)
Lemma wf_sublist t t' :
  wf t -> length (regions t') = MAX_VMAS -> (count t' <= MAX_VMAS)%nat ->
  sublist (live t') (live t) -> wf t'.
Proof.
  intros Hwf Hl Hc Hs. split; [done|done| |].
  - eapply Forall_sublist; [exact Hs|apply Hwf].
  - eapply pairwise_sublist; [exact Hs|apply Hwf].
Qed.

(** ** The compaction loop *)

Lemma compact_spec n : forall read write regs regs' write',
  (write <= read)%nat -> (read + n <= length regs)%nat ->
  compact n read write regs = (regs', write') ->
  take write' regs' = take write regs ++ List.filter valid (take n (drop read regs)) /\
  length regs' = length regs /\ (write' <= write + n)%nat.
Proof.
  induction n as [|n IH]; intros read write regs regs' write' Hw Hr Hc; simpl in Hc.
  { simplify_eq. rewrite take_0, app_nil_r. split_and!; [done..|lia]. }
  rewrite (drop_lookup_total regs read) by lia. simpl.
  destruct (valid (regs !!! read)) eqn:Hv.
  2:{ apply IH in Hc; [|lia..]. destruct Hc as (-> & -> & ?). split_and!; [done..|lia]. }
  destruct (Nat.eqb_spec write read) as [->|Hne].
  - apply IH in Hc; [|lia..]. destruct Hc as (-> & -> & ?).
    rewrite take_S_lookup_total by lia. rewrite <- app_assoc. split_and!; [done..|lia].
  - apply IH in Hc; [|lia|rewrite length_insert; lia].
    destruct Hc as (-> & Hlen & ?). rewrite length_insert in Hlen.
    rewrite take_S_lookup_total by (rewrite length_insert; lia).
    rewrite list_lookup_total_insert_eq by lia.
    rewrite take_insert_ge by lia. rewrite drop_insert_lt by lia.
    rewrite <- app_assoc. split_and!; [done..|lia].
Qed.

Lemma remove_spec t idx t' b :
  wf t -> remove t idx = (t', b) ->
  wf t' /\ mmap_base t' = mmap_base t /\
  if b then (idx < count t)%nat /\ live t' = delete idx (live t)
  else t' = t /\ (count t <= idx)%nat.
Proof.
  intros Hwf. pose proof (wf_length t Hwf) as HL. pose proof (wf_count t Hwf) as HC.
  unfold remove. destruct (Nat.leb_spec (count t) idx) as [Hge|Hlt].
  { intros [= <- <-]. tauto. }
  destruct (compact _ _ _ _) as [regs' w] eqn:Hc. intros [= <- <-].
  apply compact_spec in Hc; [|lia|rewrite length_insert; lia].
  destruct Hc as (Htake & Hlen & Hw). rewrite length_insert in Hlen.
  rewrite drop_0, take_0, take_insert_lt in Htake by lia. simpl in Htake.
  fold (live t) in Htake.
  rewrite filter_insert_false in Htake;
    [|by apply wf_valid|by rewrite (vma_length_live t Hwf)|done].
  assert (Hlive : take w regs' = delete idx (live t)) by exact Htake.
  split; [|split; [done|split; [lia|exact Hlive]]].
  apply (wf_sublist t); simpl; [done|lia|lia|].
  unfold live at 1; simpl. rewrite Hlive. apply sublist_delete.
Qed.

(** ** [remove_overlapping] *)

Lemma remove_overlapping_loop_spec a b guard : forall t n,
  wf t -> (length (List.filter (touches a b) (live t)) < guard)%nat ->
  let '(t', n') := remove_overlapping_loop guard a b t n in
  wf t' /\ live t' = List.filter (fun r => negb (touches a b r)) (live t) /\
  n' = (n + length (List.filter (touches a b) (live t)))%nat.
Proof.
  induction guard as [|guard IH]; intros t n Hwf Hg; [lia|].
  simpl. fold (live t). destruct (find_index _ (live t)) as [idx|] eqn:Hf.
  - apply find_index_Some in Hf. destruct Hf as [(x & Hx & Hpx) _].
    destruct (remove t idx) as [t1 b1] eqn:Hr. simpl.
    destruct (remove_spec t idx t1 b1 Hwf Hr) as (Hwf1 & _ & Hb).
    apply lookup_lt_Some in Hx as Hlt. rewrite (vma_length_live t Hwf) in Hlt.
    destruct b1; [|lia]. destruct Hb as [_ Hlive].
    pose proof (length_filter_delete _ _ _ _ Hx Hpx) as HS.
    specialize (IH t1 (S n) Hwf1). rewrite Hlive in IH.
    destruct (remove_overlapping_loop _ _ _ _ _) as [t' n'].
    destruct IH as (? & Hl' & Hn'); [lia|]. split_and!; [done| |lia].
    rewrite Hl'. apply (filter_delete_false _ _ _ x Hx). by rewrite Hpx.
  - apply find_index_None in Hf. split_and!; [done| |].
    + symmetry. apply filter_all_true. eapply Forall_impl; [exact Hf|].
      intros r Hr. simpl. by rewrite Hr.
    + enough (List.filter (touches a b) (live t) = []) as -> by (simpl; lia).
      clear -Hf. induction Hf as [|r l Hr _ IHl]; simpl; [done|]. by rewrite Hr.
Qed.

Lemma remove_overlapping_spec t a b :
  wf t ->
  let '(t', n) := remove_overlapping t a b in
  wf t' /\ live t' = List.filter (fun r => negb (touches a b r)) (live t) /\
  n = length (List.filter (touches a b) (live t)).
Proof.
  intros Hwf. apply (remove_overlapping_loop_spec a b (S MAX_VMAS) t 0 Hwf).
  pose proof (sublist_length _ _ (filter_sublist (touches a b) (live t))).
  rewrite (vma_length_live t Hwf) in H. pose proof (wf_count t Hwf). lia.
Qed.

(** ** [insert] *)

Lemma overlaps_false_disjoint a b r :
  valid r = true -> overlaps a b r = false -> end_ r <= a \/ b <= start r.
Proof.
  intros Hv. unfold overlaps. rewrite Hv. simpl. intros H. bsplit. destruct H; bsplit; lia.
Qed.

Definition new_mapping (a b p f : Z) : VmaRegion :=
  {| start := a; end_ := b; prot := p; flags := f;
     file_offset := 0; inode := 0; valid := true |}.

(** The exact conditions under which [insert] accepts a range. *)
Definition can_insert (t : VmaTable) (a b : Z) : Prop :=
  a < b /\ b <= MAX_MAPPING_SIZE /\ (count t < MAX_VMAS)%nat /\
  Forall (fun r => end_ r <= a \/ b <= start r) (live t).

Lemma insert_accepts t a b p f :
  wf t -> can_insert t a b ->
  exists t', insert t a b p f = (t', Some (count t)) /\
             live t' = live t ++ [new_mapping a b p f] /\
             length (regions t') = MAX_VMAS /\ count t' = S (count t).
Proof.
  intros Hwf (Hab & Hb & Hc & Hd). unfold insert.
  rewrite (proj2 (Z.leb_gt _ _)), (proj2 (Z.ltb_ge _ _)) by lia.
  replace (existsb _ _) with false.
  2:{ symmetry. apply not_true_is_false. intros He. apply existsb_exists in He.
      destruct He as (r & Hr & Ho). apply list_elem_of_In in Hr.
      rewrite Forall_forall in Hd. specialize (Hd r Hr).
      unfold overlaps in Ho. bsplit. lia. }
  rewrite (proj2 (Nat.leb_gt _ _)) by lia. eexists. split; [reflexivity|].
  pose proof (wf_length t Hwf). split_and!; simpl; [|by rewrite length_insert|done].
  unfold live; simpl. erewrite take_S_r.
  - by rewrite take_insert_ge by lia.
  - apply list_lookup_insert_eq. lia.
Qed.

Lemma insert_refuses t a b p f :
  wf t -> ~ can_insert t a b -> insert t a b p f = (t, None).
Proof.
  intros Hwf Hn. unfold insert. repeat (case_if; [done|]).
  exfalso. apply Hn. split; [lia|]. split; [lia|].
  split; [done|]. rewrite Forall_forall. intros r Hr.
  apply overlaps_false_disjoint.
  - pose proof (wf_valid t Hwf) as Hv. rewrite Forall_forall in Hv. by apply Hv.
  - destruct (overlaps a b r) eqn:Ho; [|done].
    apply not_true_iff_false in E1. exfalso. apply E1. apply existsb_exists.
    exists r. split; [by apply list_elem_of_In|done].
Qed.

#[export] Instance can_insert_dec t a b : Decision (can_insert t a b).
Proof. apply _. Defined.

Lemma insert_wf t a b p f t' o :
  wf t -> 0 <= a -> insert t a b p f = (t', o) -> wf t'.
Proof.
  intros Hwf Ha Hi. destruct (decide (can_insert t a b)) as [Hc|Hc].
  2:{ rewrite (insert_refuses _ _ _ _ _ Hwf Hc) in Hi. by simplify_eq. }
  destruct (insert_accepts t a b p f Hwf Hc) as (t1 & He & Hl & HL & HC).
  rewrite He in Hi. simplify_eq. destruct Hc as (Hab & Hb & Hcnt & Hd).
  split; [done|lia| |]; rewrite Hl.
  - apply Forall_app. split; [apply Hwf|]. constructor; [|constructor].
    unfold region_ok; simpl. split_and!; [done|lia..].
  - apply pairwise_snoc; [apply Hwf|]. exact Hd.
Qed.

(** ** Lookup: the table as a partial map from addresses to regions *)

(** The region [find] answers for an address. *)
Definition owner (t : VmaTable) (addr : Z) : option VmaRegion :=
  match find t addr with Some i => live t !! i | None => None end.

Definition covers (addr : Z) (r : VmaRegion) : Prop := start r <= addr < end_ r.

Lemma contains_covers r addr :
  valid r = true -> VmaRegion.contains r addr = true <-> covers addr r.
Proof.
  intros Hv. unfold VmaRegion.contains, covers. rewrite Hv. simpl.
  rewrite andb_true_iff, Z.leb_le, Z.ltb_lt. tauto.
Qed.

Lemma find_Some_spec t addr i :
  wf t -> find t addr = Some i <-> exists r, live t !! i = Some r /\ covers addr r.
Proof.
  intros Hwf. pose proof (wf_valid t Hwf) as Hv. rewrite Forall_forall in Hv.
  unfold find. fold (live t). rewrite find_index_Some. split.
  - intros [(r & Hr & Hc) _]. exists r. split; [done|].
    apply contains_covers; [|done]. apply Hv. by eapply list_elem_of_lookup_2.
  - intros (r & Hr & Hc). split.
    { exists r. split; [done|]. apply contains_covers; [|done].
      apply Hv. by eapply list_elem_of_lookup_2. }
    intros j s Hj Hs. apply not_true_iff_false. intros Hcs.
    apply contains_covers in Hcs; [|apply Hv; by eapply list_elem_of_lookup_2].
    pose proof (pairwise_lookup disjoint (live t) j i s r (wf_disjoint t Hwf)
                  ltac:(lia) Hs Hr) as Hd.
    unfold disjoint, covers in *. lia.
Qed.

Lemma owner_Some t addr r :
  wf t -> owner t addr = Some r <-> r ∈ live t /\ covers addr r.
Proof.
  intros Hwf. unfold owner. split.
  - destruct (find t addr) as [i|] eqn:Hf; [|done]. intros Hi.
    apply find_Some_spec in Hf; [|done]. destruct Hf as (r' & Hr' & Hc).
    rewrite Hi in Hr'. simplify_eq. split; [by eapply list_elem_of_lookup_2|done].
  - intros [Hr Hc]. apply list_elem_of_lookup in Hr. destruct Hr as [i Hi].
    by rewrite (proj2 (find_Some_spec t addr i Hwf) (ex_intro _ r (conj Hi Hc))).
Qed.

(** The table is determined by the regions it owns: equal membership of the
    live parts gives equal owners. *)
Lemma owner_ext t t' addr :
  wf t -> wf t' ->
  (forall r, covers addr r -> r ∈ live t <-> r ∈ live t') -> owner t addr = owner t' addr.
Proof.
  intros Hwf Hwf' Hm. destruct (owner t addr) as [r|] eqn:Ho.
  - apply owner_Some in Ho; [|done]. symmetry. apply owner_Some; [done|].
    split; [|tauto]. apply Hm; tauto.
  - destruct (owner t' addr) as [r|] eqn:Ho'; [|done].
    apply owner_Some in Ho'; [|done]. rewrite <- Ho. apply owner_Some; [done|].
    split; [|tauto]. apply Hm; tauto.
Qed.

(** ** [find_free] *)

(** [[c, c+size)] meets no region of [regs]. *)
Definition gap (regs : list VmaRegion) (size c : Z) : Prop :=
  Forall (fun r => end_ r <= c \/ c + size <= start r) regs.

Lemma find_bump_None regs c size :
  Forall region_ok regs -> 0 <= c -> c + size < U64 ->
  find_bump regs c size = None <-> gap regs size c.
Proof.
  intros Hok Hc Hs. unfold find_bump, gap.
  assert (Hsat : saturating_add c size = c + size) by (unfold saturating_add; word_lia).
  rewrite Hsat. induction Hok as [|r l Hr Hl IH]; simpl; [by split|].
  destruct Hr as (Hv & _). rewrite Hv, Forall_cons, <- IH. simpl.
  case_if; bsplit; [split; [done|lia]|].
  destruct E; bsplit; (split; [intros Hx; split; [lia|exact Hx]|by intros [_ Hx]]).
Qed.

Lemma find_bump_Some regs c size next :
  Forall region_ok regs -> 0 <= c -> c + size < U64 ->
  find_bump regs c size = Some next ->
  exists r, r ∈ regs /\ next = end_ r /\ c < end_ r /\ start r < c + size.
Proof.
  intros Hok Hc Hs. unfold find_bump.
  assert (Hsat : saturating_add c size = c + size) by (unfold saturating_add; word_lia).
  rewrite Hsat. destruct (List.find _ regs) as [r|] eqn:Hf; [|done]. intros [= <-].
  apply List.find_some in Hf. destruct Hf as [Hin Hp]. bsplit.
  exists r. split; [by apply list_elem_of_In|]. split; [done|lia].
Qed.

(** The number of regions the search has still to get past. *)
Definition above (regs : list VmaRegion) (c : Z) : nat :=
  length (List.filter (fun r => c <? end_ r) regs).

Lemma above_mono regs c c' : c <= c' -> (above regs c' <= above regs c)%nat.
Proof.
  intros Hc. unfold above. induction regs as [|r l IH]; simpl; [done|].
  destruct (Z.ltb_spec c' (end_ r)), (Z.ltb_spec c (end_ r)); simpl; lia.
Qed.

Lemma above_lt regs c r : r ∈ regs -> c < end_ r -> (above regs (end_ r) < above regs c)%nat.
Proof.
  intros Hin Hc. induction regs as [|s l IH]; [by apply not_elem_of_nil in Hin|].
  apply elem_of_cons in Hin. unfold above in *. simpl.
  pose proof (above_mono l c (end_ r) ltac:(lia)) as Hm. unfold above in Hm.
  destruct Hin as [->|Hin].
  - rewrite Z.ltb_irrefl, (proj2 (Z.ltb_lt _ _) Hc). simpl. lia.
  - specialize (IH Hin). destruct (Z.ltb_spec (end_ r) (end_ s)), (Z.ltb_spec c (end_ s)); simpl; lia.
Qed.

Lemma find_free_loop_sound n regs size : forall c a,
  Forall region_ok regs -> 0 < size -> 0 <= c -> page_aligned c ->
  find_free_loop n regs size c = Some a ->
  page_aligned a /\ c <= a /\ a + size <= MAX_MAPPING_SIZE /\ gap regs size a /\
  (forall a', c <= a' < a -> ~ gap regs size a').
Proof.
  induction n as [|n IH]; intros c a Hok Hsz Hc Hal Hf; simpl in Hf; [done|].
  destruct (checked_add c size) as [e|] eqn:Hca; [|done].
  apply checked_add_Some in Hca. destruct Hca as [Hlt ->]. case_if_in Hf; [|done].
  destruct (find_bump regs c size) as [next|] eqn:Hb.
  2:{ simplify_eq. apply find_bump_None in Hb; [|done..]. split_and!; [done..|lia]. }
  apply find_bump_Some in Hb; [|done..]. destruct Hb as (r & Hr & -> & H1 & H2).
  assert (Hrok : region_ok r) by (rewrite Forall_forall in Hok; by apply Hok).
  destruct Hrok as (_ & Hr0 & Hr1 & Hr2).
  rewrite page_down_spec in Hf by (unfold MAX_MAPPING_SIZE in *; word_lia).
  case_if_in Hf; [done|]. apply IH in Hf; [|try done; page_lia..].
  destruct Hf as (Ha1 & Ha2 & Ha3 & Ha4 & Ha5). split_and!; [done|lia|done|done|].
  intros a' Ha'. destruct (Z.lt_ge_cases a' (end_ r - end_ r mod 4096)) as [Hlt'|Hge];
    [|apply Ha5; lia].
  unfold gap. rewrite Forall_forall. intros Hg. specialize (Hg r Hr). page_lia.
Qed.

(** With page-aligned regions the bounded search misses no gap. *)
Lemma find_free_loop_complete n regs size : forall c,
  Forall region_ok regs -> Forall (fun r => page_aligned (end_ r)) regs ->
  0 < size -> 0 <= c -> (above regs c < n)%nat ->
  find_free_loop n regs size c = None ->
  forall a, c <= a -> a + size <= MAX_MAPPING_SIZE -> ~ gap regs size a.
Proof.
  induction n as [|n IH]; intros c Hok Hal Hsz Hc Hn Hf a Ha Hmax; [lia|].
  simpl in Hf. destruct (checked_add c size) as [e|] eqn:Hca.
  2:{ apply checked_add_None in Hca. unfold MAX_MAPPING_SIZE in *. word_lia. }
  apply checked_add_Some in Hca. destruct Hca as [Hlt ->]. case_if_in Hf; [|lia].
  destruct (find_bump regs c size) as [next|] eqn:Hb; [|done].
  apply find_bump_Some in Hb; [|done..]. destruct Hb as (r & Hr & -> & H1 & H2).
  rewrite Forall_forall in Hok, Hal. pose proof (Hok r Hr) as (_ & Hr0 & Hr1 & Hr2).
  pose proof (Hal r Hr) as Hra. unfold page_aligned, PAGE_SIZE in Hra.
  rewrite page_down_spec, Hra, Z.sub_0_r in Hf by (unfold MAX_MAPPING_SIZE in *; word_lia).
  case_if_in Hf; [lia|].
  destruct (Z.lt_ge_cases a (end_ r)) as [Hlt'|Hge].
  { unfold gap. rewrite Forall_forall. intros Hg. specialize (Hg r Hr). lia. }
  revert a Ha Hmax Hge. pose proof (above_lt regs c r Hr H1).
  intros a _ Hmax Hge.
  apply (IH (end_ r)); try done; [by rewrite Forall_forall..|lia|lia].
Qed.

(** ** Reachable tables *)

(** Every call that changes a table, with 64-bit arguments. *)
Inductive step : VmaTable -> VmaTable -> Prop :=
| step_insert t a b p f : is_u64 a -> is_u64 b -> step t (fst (insert t a b p f))
| step_remove t i : step t (fst (remove t i))
| step_remove_overlapping t a b : step t (fst (remove_overlapping t a b)).

Inductive reachable : VmaTable -> Prop :=
| reachable_new : reachable VmaTable.new
| reachable_step t t' : reachable t -> step t t' -> reachable t'.

Lemma new_wf : wf VmaTable.new.
Proof. split; [done|by apply Nat.leb_le|constructor|done]. Qed.

Lemma step_wf t t' : wf t -> step t t' -> wf t'.
Proof.
  intros Hwf Hs. destruct Hs as [t a b p f Ha Hb|t i|t a b].
  - destruct (insert t a b p f) as [t' o] eqn:Hi. eapply insert_wf; eauto. apply Ha.
  - destruct (remove t i) as [t' o] eqn:Hi. by eapply remove_spec.
  - pose proof (remove_overlapping_spec t a b Hwf).
    destruct (remove_overlapping t a b). tauto.
Qed.

Lemma reachable_is_wf t : reachable t -> wf t.
Proof. induction 1; eauto using new_wf, step_wf. Qed.

(** ** Properties *)

(** C3: whatever sequence of [insert], [remove] and [remove_overlapping] calls
    is made on a fresh table, no two live VMAs overlap: an address belongs to
    at most one live region, so [find] and [munmap] are never ambiguous, and
    every live region is valid, non-empty and below the user ceiling. *)
Theorem vma_no_overlap_reachable (t : VmaTable) (i j : nat) (r s : VmaRegion) (addr : Z) :
  reachable t -> live t !! i = Some r -> live t !! j = Some s ->
  covers addr r -> covers addr s ->
  i = j /\ valid r = true /\ start r < end_ r <= MAX_MAPPING_SIZE.
Proof.
  intros Hr Hi Hj Hcr Hcs. apply reachable_is_wf in Hr.
  pose proof (wf_live t Hr) as Hl. rewrite Forall_forall in Hl.
  destruct (Hl r) as (Hv & _ & H1 & H2); [by eapply list_elem_of_lookup_2|].
  split; [|done]. destruct (decide (i = j)) as [|Hne]; [done|].
  pose proof (pairwise_lookup disjoint _ _ _ _ _ (wf_disjoint t Hr) Hne Hi Hj).
  unfold disjoint, covers in *. lia.
Qed.

(** [insert] on a well-formed table, every branch. It accepts exactly the
    non-empty ranges below the ceiling that touch no live region while a slot is
    left, and then the owner of every address in the range is the new region and
    all other addresses keep their owner; otherwise the table is unchanged and
    the answer is [None]. *)
Theorem vma_insert_refines_map (t : VmaTable) (a b p f : Z) :
  wf t -> 0 <= a ->
  (can_insert t a b ->
     let t' := fst (insert t a b p f) in
     snd (insert t a b p f) = Some (count t) /\ wf t' /\
     forall addr, owner t' addr =
       if decide (a <= addr < b) then Some (new_mapping a b p f) else owner t addr) /\
  (~ can_insert t a b -> insert t a b p f = (t, None)).
Proof.
  intros Hwf Ha. split; [|by apply insert_refuses]. intros Hc.
  destruct (insert_accepts t a b p f Hwf Hc) as (t1 & He & Hl & _ & _).
  pose proof (insert_wf t a b p f t1 _ Hwf Ha He) as Hwf1.
  rewrite He. simpl. split_and!; [done..|]. intros addr. case_decide as Hd.
  - apply owner_Some; [done|]. rewrite Hl. split; [|exact Hd].
    apply elem_of_app. right. by apply list_elem_of_singleton.
  - apply owner_ext; [done..|]. intros r Hr. rewrite Hl, elem_of_app.
    split; [|tauto]. intros [|Hs]; [done|]. apply list_elem_of_singleton in Hs.
    subst r. destruct Hd. exact Hr.
Qed.

(** [remove_overlapping] drops every VMA the range touches and no other:
    an address owned by a touched region has no owner afterwards, all other
    addresses keep theirs, and the count returned is the number of regions
    dropped. The source's bound of [MAX_VMAS + 1] passes is never what stops it. *)
Theorem vma_remove_overlapping_exact (t : VmaTable) (a b : Z) :
  wf t ->
  let t' := fst (remove_overlapping t a b) in
  wf t' /\
  snd (remove_overlapping t a b) = (count t - count t')%nat /\
  (forall r, r ∈ live t' -> end_ r <= a \/ b <= start r) /\
  forall addr, owner t' addr =
    match owner t addr with
    | Some r => if (start r <? b) && (a <? end_ r) then None else Some r
    | None => None
    end.
Proof.
  intros Hwf. pose proof (remove_overlapping_spec t a b Hwf) as H.
  destruct (remove_overlapping t a b) as [t' n]. destruct H as (Hwf' & Hl & Hn).
  assert (Ht : forall r, r ∈ live t -> touches a b r = (start r <? b) && (a <? end_ r)).
  { intros r Hr. unfold touches. pose proof (wf_valid t Hwf) as Hv.
    rewrite Forall_forall in Hv. by rewrite (Hv r Hr). }
  simpl. split; [done|]. split_and!.
  - rewrite <- (vma_length_live t Hwf), <- (vma_length_live t' Hwf'), Hl, Hn.
    pose proof (List.filter_length (touches a b) (live t)). lia.
  - intros r Hr. rewrite Hl in Hr. apply elem_of_filter_b in Hr. destruct Hr as [Hr Hf].
    rewrite (Ht r Hr) in Hf. bsplit. destruct Hf; bsplit; lia.
  - intros addr. destruct (owner t addr) as [r|] eqn:Ho.
    + apply owner_Some in Ho; [|done]. destruct Ho as [Hr Hc]. rewrite <- (Ht r Hr).
      destruct (touches a b r) eqn:E.
      * destruct (owner t' addr) as [s|] eqn:Hs; [|done]. exfalso.
        apply owner_Some in Hs; [|done]. destruct Hs as [Hs Hcs].
        rewrite Hl in Hs. apply elem_of_filter_b in Hs. destruct Hs as [Hs Hts].
        assert (owner t addr = Some s) as H1 by (by apply owner_Some).
        assert (owner t addr = Some r) as H2 by (by apply owner_Some).
        rewrite H1 in H2. simplify_eq. by rewrite E in Hts.
      * apply owner_Some; [done|]. split; [|done]. rewrite Hl.
        apply elem_of_filter_b. by rewrite E.
    + destruct (owner t' addr) as [s|] eqn:Hs; [|done]. exfalso.
      apply owner_Some in Hs; [|done]. destruct Hs as [Hs Hcs].
      rewrite Hl in Hs. apply elem_of_filter_b in Hs. destruct Hs as [Hs _].
      assert (owner t addr = Some s) by (by apply owner_Some). congruence.
Qed.

(** when every live region ends on a page boundary, [find_free] returns
    [Some a] exactly for the lowest address at or above the page of the hint
    whose [size] bytes meet no region and stay below the ceiling, and [None]
    exactly when there is none; the answer is page aligned. The bound on the
    number of passes is never what makes it fail. *)
Theorem vma_find_free_lowest_gap (t : VmaTable) (size hint : Z) :
  wf t -> Forall (fun r => page_aligned (end_ r)) (live t) ->
  0 < size <= MAX_MAPPING_SIZE -> is_u64 hint ->
  match find_free t size hint with
  | Some a =>
      page_aligned a /\ page_down hint <= a /\ a + size <= MAX_MAPPING_SIZE /\
      gap (live t) size a /\
      forall a', page_down hint <= a' < a -> ~ gap (live t) size a'
  | None =>
      forall a, page_down hint <= a -> a + size <= MAX_MAPPING_SIZE -> ~ gap (live t) size a
  end.
Proof.
  intros Hwf Hal Hsz Hh. unfold find_free. fold (live t).
  rewrite (proj2 (Z.eqb_neq _ _)), (proj2 (Z.ltb_ge _ _)) by lia. simpl orb. cbv iota.
  pose proof (page_down_bounds hint Hh). pose proof (page_down_aligned hint Hh) as Hpa.
  assert (0 <= page_down hint) by (rewrite page_down_spec by done; page_lia).
  destruct (find_free_loop _ _ _ _) as [a|] eqn:Hf.
  - apply find_free_loop_sound in Hf; [done|apply Hwf|lia|done..].
  - intros a. apply (find_free_loop_complete (S MAX_VMAS)); try done; [apply Hwf|lia|].
    unfold above. pose proof (sublist_length _ _ (filter_sublist (fun r => page_down hint <? end_ r) (live t))).
    rewrite (vma_length_live t Hwf) in *. pose proof (wf_count t Hwf). lia.
Qed.

(** the address [find_free] answers is accepted by [insert] (the two calls
    of [mmap]) as long as a slot is left, with no assumption on alignment. *)
Theorem vma_find_free_then_insert (t : VmaTable) (size hint a p f : Z) :
  wf t -> is_u64 hint -> (count t < MAX_VMAS)%nat -> 0 <= size ->
  find_free t size hint = Some a ->
  snd (insert t a (a + size) p f) = Some (count t).
Proof.
  intros Hwf Hh Hc Hs0 Hf. unfold find_free in Hf. case_if_in Hf; [done|].
  pose proof (page_down_bounds hint Hh). pose proof (page_down_aligned hint Hh).
  assert (0 <= page_down hint) by (rewrite page_down_spec by done; page_lia).
  apply find_free_loop_sound in Hf; [|apply Hwf|lia|done..].
  destruct Hf as (_ & Ha & Hmax & Hg & _).
  destruct (insert_accepts t a (a + size) p f Hwf) as (t' & -> & _); [|done].
  split_and!; [lia|done|done|exact Hg].
Qed.

(** ** Witnesses: a table with two regions *)

Definition demo : VmaTable :=
  fst (insert (fst (insert VmaTable.new 0x1000 0x3000 PROT_READ 2)) 0x5000 0x7000 PROT_READ 2).

Lemma vma_demo_reachable : reachable demo.
Proof.
  unfold demo. eapply reachable_step; [|apply step_insert; word_lia].
  eapply reachable_step; [|apply step_insert; word_lia]. constructor.
Qed.

Lemma vma_demo_wf : wf demo.
Proof. apply reachable_is_wf, vma_demo_reachable. Qed.

Lemma vma_demo_live :
  live demo = [new_mapping 0x1000 0x3000 PROT_READ 2; new_mapping 0x5000 0x7000 PROT_READ 2].
Proof. reflexivity. Qed.

Lemma vma_no_overlap_reachable_witness :
  reachable demo /\ covers 0x1000 (new_mapping 0x1000 0x3000 PROT_READ 2) /\
  0%nat = 0%nat /\ valid (new_mapping 0x1000 0x3000 PROT_READ 2) = true /\
  0x1000 < 0x3000 <= MAX_MAPPING_SIZE.
Proof.
  split; [exact vma_demo_reachable|]. split; [unfold covers; simpl; lia|].
  apply (vma_no_overlap_reachable demo 0 0 (new_mapping 0x1000 0x3000 PROT_READ 2)
           (new_mapping 0x1000 0x3000 PROT_READ 2) 0x1000);
    [exact vma_demo_reachable|reflexivity|reflexivity|unfold covers; simpl; lia..].
Defined.

Lemma vma_insert_refines_map_witness :
  can_insert demo 0x3000 0x5000 /\
  snd (insert demo 0x3000 0x5000 PROT_READ 2) = Some 2%nat /\
  insert demo 0x2000 0x4000 PROT_READ 2 = (demo, None).
Proof.
  assert (H : can_insert demo 0x3000 0x5000).
  { split_and!; [lia|unfold MAX_MAPPING_SIZE; lia|unfold MAX_VMAS; simpl; lia|].
    rewrite vma_demo_live. repeat constructor; simpl; lia. }
  split; [exact H|]. split.
  - apply (vma_insert_refines_map demo 0x3000 0x5000 PROT_READ 2 vma_demo_wf ltac:(lia)). exact H.
  - apply (vma_insert_refines_map demo 0x2000 0x4000 PROT_READ 2 vma_demo_wf ltac:(lia)).
    intros (_ & _ & _ & Hd). rewrite vma_demo_live in Hd.
    apply Forall_inv in Hd. simpl in Hd. lia.
Defined.

Lemma vma_remove_overlapping_exact_witness :
  wf demo /\ snd (remove_overlapping demo 0x2000 0x4000) = 1%nat /\
  owner (fst (remove_overlapping demo 0x2000 0x4000)) 0x1000 = None.
Proof.
  split; [exact vma_demo_wf|].
  destruct (vma_remove_overlapping_exact demo 0x2000 0x4000 vma_demo_wf) as (_ & H1 & _ & H2).
  split; [rewrite H1; reflexivity|]. rewrite H2. reflexivity.
Defined.

Lemma vma_find_free_lowest_gap_witness :
  wf demo /\ Forall (fun r => page_aligned (end_ r)) (live demo) /\
  find_free demo 0x3000 0x1000 = Some 0x7000 /\
  (forall a', 0x1000 <= a' < 0x7000 -> ~ gap (live demo) 0x3000 a').
Proof.
  assert (Hal : Forall (fun r => page_aligned (end_ r)) (live demo))
    by (rewrite vma_demo_live; repeat constructor).
  split; [exact vma_demo_wf|]. split; [exact Hal|]. split; [reflexivity|].
  pose proof (vma_find_free_lowest_gap demo 0x3000 0x1000 vma_demo_wf Hal
                ltac:(unfold MAX_MAPPING_SIZE; lia) ltac:(word_lia)) as H.
  replace (find_free demo 0x3000 0x1000) with (Some 0x7000) in H by reflexivity.
  replace (page_down 0x1000) with 0x1000 in H by reflexivity. apply H.
Defined.

Lemma vma_find_free_then_insert_witness :
  find_free demo 0x3000 0x1000 = Some 0x7000 /\
  snd (insert demo 0x7000 0xA000 PROT_READ 2) = Some 2%nat.
Proof.
  split; [reflexivity|].
  apply (vma_find_free_then_insert demo 0x3000 0x1000 0x7000 PROT_READ 2 vma_demo_wf);
    [word_lia|unfold MAX_VMAS; simpl; lia|lia|reflexivity].
Defined.

End VmaProofs.
