(* ===== verification/FrameAlloc.v ===== *)
(** The physical frame allocator (crates/zenus-mem/src/frame_allocator.rs).

    [FrameAllocator] is the source's struct.  The two fixed arrays [regions] and
    [low_cursor] are lists of [MAX_REGIONS] entries of which the first
    [region_count] are live (stale entries past it are kept, as the source keeps
    them); [free_stack] is the live part of the source's array, top first, so
    [free_count] is its length.  Additions are the 64-bit ones of the source.

    [reserve_region] is the source's in-place loop over the two arrays, with its
    two inner shifting loops; it is proved equal to a structural function on the
    live entries.  [alloc_frame] is the recycled stack, then the high (bump) pass,
    then the low pass with its per-region cursors. *)

From S2P Require Import Prelude.

Open Scope Z_scope.

(** ** Data *)

Definition FREE_STACK_SIZE : Z := 16384.
Definition MAX_REGIONS : nat := 64.
Definition PAGE_SIZE_U64 : Z := 4096.
Definition BOOT_STACK_RESERVE : Z := 512 * 1024.

(** An entry of the bootloader's memory map. *)
Record MemoryRegion := mkMemoryRegion { m_base : Z; m_length : Z; kind : Z }.

Definition is_usable (e : MemoryRegion) : bool := kind e =? 0.

Record MemRegion := mkMemRegion { base : Z; len : Z }.

#[export] Instance MemRegion_inhabited : Inhabited MemRegion := populate (mkMemRegion 0 0).
#[export] Instance MemRegion_eq_dec : EqDecision MemRegion.
Proof. solve_decision. Defined.

Record FrameAllocator := mkFrameAllocator {
  regions : list MemRegion;
  region_count : nat;
  next_free : Z;
  floor : Z;
  low_cursor : list Z;
  free_stack : list Z;
  total_memory : Z;
  used_memory : Z;
}.

Record AllocPlanInput := mkAllocPlanInput {
  memory_map : list MemoryRegion;
  kernel_image_base : Z;
  kernel_image_end : Z;
  boot_stack_phys : Z;
}.

(** ** Operations *)

Definition free_count (fa : FrameAllocator) : nat := length (free_stack fa).

Definition reset (fa : FrameAllocator) : FrameAllocator :=
  {| regions := replicate MAX_REGIONS (mkMemRegion 0 0);
     region_count := 0;
     next_free := 0;
     floor := 0;
     low_cursor := replicate MAX_REGIONS 0;
     free_stack := [];
     total_memory := 0;
     used_memory := 0 |}.

(** The first pass of [alloc_frame]: the first region whose next page fits. *)
Fixpoint high_scan (regs : list MemRegion) (next : Z) : option Z :=
  match regs with
  | [] => None
  | reg :: regs =>
      let start := Z.max (base reg) next in
      let start_aligned := Z.land (u64_add start 0xFFF) (u64_not 0xFFF) in
      let end' := u64_add (base reg) (len reg) in
      if u64_add start_aligned PAGE_SIZE_U64 <=? end' then Some start_aligned
      else high_scan regs next
  end.

(** [(x + PAGE_SIZE_U64 - 1) & !(PAGE_SIZE_U64 - 1)] *)
Definition round_up (x : Z) : Z :=
  Z.land (u64_sub (u64_add x PAGE_SIZE_U64) 1) (u64_not (PAGE_SIZE_U64 - 1)).

(** The second pass of [alloc_frame], from region [i] on: the index of the first
    region with a page left below [floor], and that page. *)
Fixpoint low_scan (i : nat) (regs : list MemRegion) (cursors : list Z) (fl : Z)
  : option (nat * Z) :=
  match regs, cursors with
  | reg :: regs, c :: cursors =>
      let cursor := Z.max c (round_up (base reg)) in
      let end' := u64_add (base reg) (len reg) in
      if (u64_add cursor PAGE_SIZE_U64 <=? end') && (cursor <? fl) then Some (i, cursor)
      else low_scan (S i) regs cursors fl
  | _, _ => None
  end.

(** The fields a served frame writes; [used_memory += PAGE_SIZE] in every case. *)
Definition book (fa : FrameAllocator) (next : Z) (curs stack : list Z) : FrameAllocator :=
  {| regions := regions fa; region_count := region_count fa;
     next_free := next; floor := floor fa; low_cursor := curs; free_stack := stack;
     total_memory := total_memory fa;
     used_memory := u64_add (used_memory fa) PAGE_SIZE |}.

Definition alloc_frame (fa : FrameAllocator) : FrameAllocator * option Z :=
  match free_stack fa with
  | addr :: rest => (book fa (next_free fa) (low_cursor fa) rest, Some addr)
  | [] =>
      match high_scan (take (region_count fa) (regions fa)) (next_free fa) with
      | Some start_aligned =>
          (book fa (u64_add start_aligned PAGE_SIZE) (low_cursor fa) [], Some start_aligned)
      | None =>
          match low_scan 0 (take (region_count fa) (regions fa)) (low_cursor fa) (floor fa) with
          | Some (reg_idx, cursor) =>
              (book fa (next_free fa) (<[reg_idx := u64_add cursor PAGE_SIZE]> (low_cursor fa)) [],
               Some cursor)
          | None => (fa, None)
          end
      end
  end.

Definition free_frame (fa : FrameAllocator) (a : Z) : FrameAllocator :=
  if (a =? 0) || negb (Z.land a (PAGE_SIZE_U64 - 1) =? 0) then fa
  else if existsb (Z.eqb a) (free_stack fa) then fa
  else if Z.of_nat (free_count fa) <? FREE_STACK_SIZE then
    {| regions := regions fa; region_count := region_count fa;
       next_free := next_free fa; floor := floor fa; low_cursor := low_cursor fa;
       free_stack := a :: free_stack fa; total_memory := total_memory fa;
       used_memory := saturating_sub (used_memory fa) PAGE_SIZE_U64 |}
  else fa.

Definition clear_free_stack (fa : FrameAllocator) : FrameAllocator :=
  {| regions := regions fa; region_count := region_count fa;
     next_free := next_free fa; floor := floor fa; low_cursor := low_cursor fa;
     free_stack := []; total_memory := total_memory fa; used_memory := used_memory fa |}.

Fixpoint high_pass_loop (regs : list MemRegion) (cursor : Z) (total : Z) : Z :=
  match regs with
  | [] => total
  | reg :: regs =>
      let start := round_up (Z.max (base reg) cursor) in
      let end' := u64_add (base reg) (len reg) in
      if u64_add start PAGE_SIZE_U64 <=? end' then
        let pages := (end' - start) / PAGE_SIZE_U64 in
        high_pass_loop regs (start + pages * PAGE_SIZE_U64) (total + pages)
      else high_pass_loop regs cursor total
  end.

Definition high_pass_frames (fa : FrameAllocator) : Z :=
  high_pass_loop (take (region_count fa) (regions fa)) (next_free fa) 0.

Fixpoint low_pass_loop (regs : list MemRegion) (cursors : list Z) (fl : Z) (total : Z) : Z :=
  match regs, cursors with
  | reg :: regs, c :: cursors =>
      let cursor := Z.max c (round_up (base reg)) in
      let end' := u64_add (base reg) (len reg) in
      let limit := Z.min end' fl in
      if limit <? PAGE_SIZE_U64 then low_pass_loop regs cursors fl total
      else
        let last := Z.land (limit - PAGE_SIZE_U64) (u64_not (PAGE_SIZE_U64 - 1)) in
        if cursor <=? last then
          low_pass_loop regs cursors fl (total + ((last - cursor) / PAGE_SIZE_U64 + 1))
        else low_pass_loop regs cursors fl total
  | _, _ => total
  end.

Definition low_pass_frames (fa : FrameAllocator) : Z :=
  low_pass_loop (take (region_count fa) (regions fa)) (low_cursor fa) (floor fa) 0.

Definition free_frames_count (fa : FrameAllocator) : Z :=
  Z.of_nat (free_count fa) + high_pass_frames fa + low_pass_frames fa.

(** [for j in i..i+n { a[j] = a[j + 1] }] *)
Fixpoint shift_left {A} `{Inhabited A} (n j : nat) (a : list A) : list A :=
  match n with
  | O => a
  | S n => shift_left n (S j) (<[j := a !!! S j]> a)
  end.

(** [n] rounds of [a[j] = a[j - 1]; j -= 1]. *)
Fixpoint shift_right {A} `{Inhabited A} (n j : nat) (a : list A) : list A :=
  match n with
  | O => a
  | S n => shift_right n (j - 1) (<[j := a !!! (j - 1)%nat]> a)
  end.

(** The [while] loop of [reserve_region]; [rbase, rend) is the rounded range. *)
Fixpoint reserve_loop (fuel i : nat) (rbase rend : Z)
    (regs : list MemRegion) (curs : list Z) (cnt : nat)
  : list MemRegion * list Z * nat :=
  match fuel with
  | O => (regs, curs, cnt)
  | S fuel =>
      if (cnt <=? i)%nat then (regs, curs, cnt)
      else
        let r := regs !!! i in
        let r_end := u64_add (base r) (len r) in
        if (rend <=? base r) || (r_end <=? rbase) then
          reserve_loop fuel (S i) rbase rend regs curs cnt
        else if (rbase <=? base r) && (r_end <=? rend) then
          reserve_loop fuel i rbase rend
            (shift_left (cnt - 1 - i) i regs) (shift_left (cnt - 1 - i) i curs) (cnt - 1)
        else if rbase <=? base r then
          reserve_loop fuel (S i) rbase rend
            (<[i := mkMemRegion rend (r_end - rend)]> regs) curs cnt
        else if r_end <=? rend then
          reserve_loop fuel (S i) rbase rend
            (<[i := mkMemRegion (base r) (rbase - base r)]> regs) curs cnt
        else
          let regs := <[i := mkMemRegion (base r) (rbase - base r)]> regs in
          if (cnt <? MAX_REGIONS)%nat then
            let carried := Z.max (curs !!! i) rend in
            let regs := shift_right (cnt - S i) cnt regs in
            let curs := shift_right (cnt - S i) cnt curs in
            reserve_loop fuel (S i) rbase rend
              (<[S i := mkMemRegion rend (r_end - rend)]> regs)
              (<[S i := carried]> curs) (S cnt)
          else reserve_loop fuel (S i) rbase rend regs curs cnt
  end.

(** [base & !(PAGE_SIZE_U64 - 1)] *)
Definition reserve_base (b : Z) : Z := Z.land b (u64_not (PAGE_SIZE_U64 - 1)).

(** [(base.saturating_add(length) + PAGE_SIZE_U64 - 1) & !(PAGE_SIZE_U64 - 1)]
    where [base] is already rounded down. *)
Definition reserve_end (b l : Z) : Z := round_up (saturating_add (reserve_base b) l).

Definition reserve_region (fa : FrameAllocator) (b l : Z) : FrameAllocator :=
  if l =? 0 then fa
  else
    let rbase := reserve_base b in
    let rend := reserve_end b l in
    let '(regs, curs, cnt) :=
      reserve_loop (2 * MAX_REGIONS + 1) 0 rbase rend
        (regions fa) (low_cursor fa) (region_count fa) in
    {| regions := regs; region_count := cnt;
       next_free :=
         if (rbase <=? next_free fa) && (next_free fa <? rend) then rend else next_free fa;
       floor := floor fa; low_cursor := curs; free_stack := free_stack fa;
       total_memory := total_memory fa; used_memory := used_memory fa |}.

(** Step 1 of [plan_regions]: the usable entries become regions. *)
Definition add_usable (fa : FrameAllocator) (e : MemoryRegion) : FrameAllocator :=
  if is_usable e && (0 <? m_length e) then
    let idx := region_count fa in
    if (idx <? MAX_REGIONS)%nat then
      {| regions := <[idx := mkMemRegion (m_base e) (m_length e)]> (regions fa);
         region_count := S idx;
         next_free := next_free fa; floor := floor fa; low_cursor := low_cursor fa;
         free_stack := free_stack fa; total_memory := total_memory fa;
         used_memory := used_memory fa |}
    else fa
  else fa.

(** Step 2: every other entry is reserved. *)
Definition reserve_entry (fa : FrameAllocator) (e : MemoryRegion) : FrameAllocator :=
  if negb (kind e =? 0) && (0 <? m_length e) then reserve_region fa (m_base e) (m_length e)
  else fa.

(** Step 3: the kernel image. *)
Definition reserve_image (fa : FrameAllocator) (input : AllocPlanInput) : FrameAllocator :=
  if kernel_image_base input <? kernel_image_end input then
    reserve_region fa (kernel_image_base input)
      (kernel_image_end input - kernel_image_base input)
  else fa.

(** [(boot_stack_phys.saturating_sub(BOOT_STACK_RESERVE)) & !PAGE_SIZE_U64] *)
Definition boot_stack_base (phys : Z) : Z :=
  Z.land (saturating_sub phys BOOT_STACK_RESERVE) (u64_not PAGE_SIZE_U64).

(** Step 4: the boot stack. *)
Definition reserve_stack (fa : FrameAllocator) (input : AllocPlanInput) : FrameAllocator :=
  if negb (boot_stack_phys input =? 0) then
    reserve_region fa (boot_stack_base (boot_stack_phys input))
      (BOOT_STACK_RESERVE + PAGE_SIZE_U64)
  else fa.

(** [total += r.length] over the whole array. *)
Definition sum_regions (regs : list MemRegion) : Z :=
  fold_left (fun total r => u64_add total (len r)) regs 0.

(** Where the bump pointer starts. *)
Definition seed_next_free (fa : FrameAllocator) (map : list MemoryRegion) : Z :=
  if (0 <? region_count fa)%nat then
    let b := base (regions fa !!! 0%nat) in
    let e := u64_add b (len (regions fa !!! 0%nat)) in
    let start := if (b <? 0x1000000) && (0x1000000 <? e) then 0x1000000 else b in
    fold_left
      (fun start entry =>
         if kind entry =? 6 then
           let candidate := u64_add (m_base entry) (m_length entry) in
           if start <? candidate then candidate else start
         else start) map start
  else 0.

(** The four reservation steps, in the source's order. *)
Definition plan_reservations (fa : FrameAllocator) (input : AllocPlanInput) : FrameAllocator :=
  let fa := fold_left add_usable (memory_map input) (reset fa) in
  let fa := fold_left reserve_entry (memory_map input) fa in
  let fa := reserve_image fa input in
  reserve_stack fa input.

Definition plan_regions (fa : FrameAllocator) (input : AllocPlanInput) : FrameAllocator :=
  let fa := plan_reservations fa input in
  let seed := seed_next_free fa (memory_map input) in
  {| regions := regions fa; region_count := region_count fa;
     next_free := seed; floor := seed; low_cursor := low_cursor fa;
     free_stack := free_stack fa; total_memory := sum_regions (regions fa);
     used_memory := used_memory fa |}.

(** [FrameAllocator::new]: a plan with no kernel image and no boot stack. *)
Definition new (map : list MemoryRegion) : FrameAllocator :=
  plan_regions
    {| regions := replicate MAX_REGIONS (mkMemRegion 0 0); region_count := 0;
       next_free := 0; floor := 0; low_cursor := replicate MAX_REGIONS 0;
       free_stack := []; total_memory := 0; used_memory := 0 |}
    {| memory_map := map; kernel_image_base := 0; kernel_image_end := 0;
       boot_stack_phys := 0 |}.

(** ** The inner loops of [reserve_region] *)

Module FrameProofs.

Section shifts.
Context {A : Type} `{!Inhabited A}.

Lemma length_shift_left n : forall j (a : list A), length (shift_left n j a) = length a.
Proof. induction n as [|n IH]; intros j a; simpl; [done|]. by rewrite IH, length_insert. Qed.

Lemma length_shift_right n : forall j (a : list A), length (shift_right n j a) = length a.
Proof. induction n as [|n IH]; intros j a; simpl; [done|]. by rewrite IH, length_insert. Qed.

Lemma shift_left_take n : forall j (a : list A),
  (j + n < length a)%nat ->
  take (j + n) (shift_left n j a) = take j a ++ take n (drop (S j) a).
Proof.
  induction n as [|n IH]; intros j a Hl; simpl.
  - by rewrite Nat.add_0_r, take_0, app_nil_r.
  - replace (j + S n)%nat with (S j + n)%nat by lia.
    rewrite IH by (rewrite length_insert; lia).
    rewrite take_S_lookup_total by (rewrite length_insert; lia).
    rewrite list_lookup_total_insert_eq by lia. rewrite take_insert_ge by lia.
    rewrite drop_insert_lt by lia. rewrite <- app_assoc. simpl. f_equal.
    rewrite (drop_lookup_total a (S j)) by lia. done.
Qed.

(** Removing the entry after the prefix [l1] of the live part. *)
Lemma shift_left_prefix (a l1 l2 : list A) x n :
  take n a = l1 ++ x :: l2 -> n = (length l1 + S (length l2))%nat -> (n <= length a)%nat ->
  take (n - 1) (shift_left (n - 1 - length l1) (length l1) a) = l1 ++ l2.
Proof.
  intros Ht -> Hn.
  replace (length l1 + S (length l2) - 1)%nat with (length l1 + length l2)%nat by lia.
  replace (length l1 + length l2 - length l1)%nat with (length l2) by lia.
  rewrite shift_left_take by lia.
  assert (H1 : take (length l1) a = l1).
  { apply (f_equal (take (length l1))) in Ht.
    rewrite take_take, take_app_length in Ht. rewrite <- Ht at 2. f_equal. lia. }
  assert (H2 : take (length l2) (drop (S (length l1)) a) = l2).
  { apply (f_equal (drop (S (length l1)))) in Ht.
    rewrite drop_app_ge in Ht by lia.
    replace (S (length l1) - length l1)%nat with 1%nat in Ht by lia. simpl in Ht.
    rewrite <- Ht at 2. rewrite take_drop_commute. f_equal. f_equal. lia. }
  by rewrite H1, H2.
Qed.

Lemma shift_right_lookup n : forall j (a : list A) k,
  (n <= j)%nat -> (j < length a)%nat ->
  shift_right n j a !! k = if decide (j - n < k <= j)%nat then a !! (k - 1)%nat else a !! k.
Proof.
  induction n as [|n IH]; intros j a k Hn Hj; simpl.
  - rewrite decide_False by lia. done.
  - rewrite IH by (rewrite ?length_insert; lia).
    destruct (lookup_lt_is_Some_2 a (j - 1)%nat ltac:(lia)) as [y Hy].
    rewrite (list_lookup_total_correct _ _ _ Hy).
    destruct (decide (k = j)) as [->|Hk].
    + rewrite decide_False by lia. rewrite decide_True by lia.
      by rewrite list_lookup_insert_eq by lia.
    + destruct (decide (j - 1 - n < k <= j - 1)%nat) as [Hd|Hd].
      * rewrite list_lookup_insert_ne by lia. by rewrite decide_True by lia.
      * rewrite list_lookup_insert_ne by lia. by rewrite decide_False by lia.
Qed.

(** Inserting an entry after [l1 ++ [x]] of the live part. *)
Lemma shift_right_prefix (a l1 l2 : list A) x y n :
  take n a = l1 ++ x :: l2 -> n = (length l1 + S (length l2))%nat -> (n < length a)%nat ->
  take (S n) (<[S (length l1) := y]> (shift_right (n - S (length l1)) n a)) = l1 ++ x :: y :: l2.
Proof.
  intros Ht -> Hn. apply list_eq. intros k.
  assert (Hlk : forall m, (m < length l1 + S (length l2))%nat -> a !! m = (l1 ++ x :: l2) !! m).
  { intros m Hm. rewrite <- Ht. symmetry. by apply lookup_take_lt. }
  destruct (decide (k < S (length l1 + S (length l2)))%nat) as [Hk|Hk].
  2:{ rewrite lookup_take_ge by lia. symmetry. apply lookup_ge_None_2.
      rewrite length_app. simpl. lia. }
  rewrite lookup_take_lt by lia.
  destruct (decide (k = S (length l1))) as [->|Hne].
  - rewrite list_lookup_insert_eq by (rewrite length_shift_right; lia).
    rewrite lookup_app_r by lia. replace (S (length l1) - length l1)%nat with 1%nat by lia. done.
  - rewrite list_lookup_insert_ne by lia. rewrite shift_right_lookup by lia.
    destruct (decide (k <= length l1)%nat) as [Hle|Hgt].
    + rewrite decide_False by lia. rewrite Hlk by lia.
      destruct (decide (k = length l1)) as [->|].
      * by rewrite !list_lookup_middle.
      * by rewrite !lookup_app_l by lia.
    + rewrite decide_True by lia. rewrite Hlk by lia.
      rewrite !lookup_app_r by lia.
      replace (k - length l1)%nat with (S (S (k - length l1 - 2))) by lia.
      replace (k - 1 - length l1)%nat with (S (k - length l1 - 2)) by lia. done.
Qed.

End shifts.

(** ** Well-formed allocators *)

(** Physical addresses have at most 52 bits; [PhysAddr::new] refuses others. *)
Definition PHYS_MAX : Z := 2 ^ 52.

Definition live (fa : FrameAllocator) : list MemRegion := take (region_count fa) (regions fa).
Definition cursors (fa : FrameAllocator) : list Z := take (region_count fa) (low_cursor fa).

Definition region_ok (r : MemRegion) : Prop := 0 <= base r /\ 0 <= len r /\ base r + len r <= PHYS_MAX.
Definition cursor_ok (c : Z) : Prop := 0 <= c <= PHYS_MAX /\ page_aligned c.

Definition disjoint (r s : MemRegion) : Prop :=
  base r + len r <= base s \/ base s + len s <= base r.

#[export] Instance disjoint_symmetric : Symmetric disjoint.
Proof. unfold disjoint. intros r s ?. tauto. Qed.

Ltac plia := unfold PHYS_MAX, PAGE_SIZE_U64, page_aligned, PAGE_SIZE, is_u64, U64_MAX, U64 in *;
  Z.div_mod_to_equations; lia.

Lemma end_small r : region_ok r -> u64_add (base r) (len r) = base r + len r.
Proof. intros (? & ? & ?). apply u64_add_small. plia. Qed.

Lemma round_up_spec x : 0 <= x -> x + 4096 < U64 ->
  round_up x = (x + 4095) - (x + 4095) mod 4096.
Proof.
  intros Hx Hx'. unfold round_up, PAGE_SIZE_U64. rewrite u64_add_small by plia.
  rewrite u64_sub_small by plia. rewrite <- page_up_spec by plia.
  unfold page_up, page_down. rewrite u64_add_small by plia. f_equal. lia.
Qed.

Lemma mask_up_spec x : 0 <= x <= PHYS_MAX ->
  Z.land (u64_add x 0xFFF) (u64_not 0xFFF) = (x + 4095) - (x + 4095) mod 4096.
Proof. intros Hx. apply (page_up_spec x); plia. Qed.

(** ** [reserve_region] as a function on the live entries *)

Fixpoint reserve_list (cnt : nat) (b e : Z) (l : list (MemRegion * Z)) : list (MemRegion * Z) :=
  match l with
  | [] => []
  | (r, c) :: l =>
      let r_end := base r + len r in
      if (e <=? base r) || (r_end <=? b) then (r, c) :: reserve_list cnt b e l
      else if (b <=? base r) && (r_end <=? e) then reserve_list (cnt - 1) b e l
      else if b <=? base r then (mkMemRegion e (r_end - e), c) :: reserve_list cnt b e l
      else if r_end <=? e then (mkMemRegion (base r) (b - base r), c) :: reserve_list cnt b e l
      else if (cnt <? MAX_REGIONS)%nat then
        (mkMemRegion (base r) (b - base r), c) :: (mkMemRegion e (r_end - e), Z.max c e)
          :: reserve_list (S cnt) b e l
      else (mkMemRegion (base r) (b - base r), c) :: reserve_list cnt b e l
  end.

(** The in-place loop computes [reserve_list] on the entries from [i] on. *)
Lemma reserve_loop_spec (b e : Z) : forall (R2 R1 : list MemRegion) (C1 C2 : list Z)
    fuel regs curs cnt regs' curs' cnt',
  Forall region_ok R2 ->
  length R1 = length C1 -> length R2 = length C2 ->
  length regs = MAX_REGIONS -> length curs = MAX_REGIONS -> (cnt <= MAX_REGIONS)%nat ->
  cnt = (length R1 + length R2)%nat ->
  take cnt regs = R1 ++ R2 -> take cnt curs = C1 ++ C2 ->
  (2 * length R2 < fuel)%nat ->
  reserve_loop fuel (length R1) b e regs curs cnt = (regs', curs', cnt') ->
  length regs' = MAX_REGIONS /\ length curs' = MAX_REGIONS /\ (cnt' <= MAX_REGIONS)%nat /\
  zip (take cnt' regs') (take cnt' curs') = zip R1 C1 ++ reserve_list cnt b e (zip R2 C2).
Proof.
  induction R2 as [|r R2 IH]; intros R1 C1 C2 fuel regs curs cnt regs' curs' cnt'
    Hok Hl1 Hl2 HLr HLc Hle Hcnt Hr Hc Hfuel Hloop;
    (destruct fuel as [|fuel]; [simpl in Hfuel; lia|]); simpl in Hloop.
  { rewrite (proj2 (Nat.leb_le _ _)) in Hloop by (simpl in *; lia). simplify_eq.
    destruct C2; [|done]. split_and!; [done..|]. rewrite Hr, Hc. simpl. by rewrite !app_nil_r. }
  destruct C2 as [|c C2]; [done|]. simpl in Hl2, Hfuel, Hcnt. injection Hl2 as Hl2.
  apply Forall_cons in Hok as [Hrok Hok].
  rewrite (proj2 (Nat.leb_gt _ _)) in Hloop by lia.
  rewrite (lookup_total_prefix regs R1 R2 r cnt Hr) in Hloop.
  rewrite (end_small r Hrok) in Hloop. simpl.
  (* skipping to the next entry after replacing the current region *)
  assert (Hnext : forall r1,
    reserve_loop fuel (S (length R1)) b e (<[length R1 := r1]> regs) curs cnt = (regs', curs', cnt') ->
    length regs' = MAX_REGIONS /\ length curs' = MAX_REGIONS /\ (cnt' <= MAX_REGIONS)%nat /\
    zip (take cnt' regs') (take cnt' curs')
      = zip R1 C1 ++ (r1, c) :: reserve_list cnt b e (zip R2 C2)).
  { intros r1 Hl. apply (insert_prefix regs R1 R2 r r1 cnt) in Hr as Hr1.
    replace (S (length R1)) with (length (R1 ++ [r1])) in Hl by (rewrite length_app; simpl; lia).
    apply (IH _ (C1 ++ [c]) C2) in Hl; try done; rewrite ?length_app, ?length_insert;
      simpl; try lia; [|by rewrite <- app_assoc..].
    destruct Hl as (-> & -> & ? & ->). rewrite zip_with_app by done. by rewrite <- app_assoc. }
  destruct ((e <=? base r) || (base r + len r <=? b)) eqn:E1.
  { apply Hnext. rewrite list_insert_id; [done|].
    assert (Hx : take cnt regs !! length R1 = Some r) by (rewrite Hr; by apply list_lookup_middle).
    by apply lookup_take_Some in Hx as [? _]. }
  destruct ((b <=? base r) && (base r + len r <=? e)) eqn:E2.
  { pose proof (shift_left_prefix regs R1 R2 r cnt Hr ltac:(lia) ltac:(lia)) as Hr'.
    pose proof (shift_left_prefix curs C1 C2 c cnt Hc ltac:(lia) ltac:(lia)) as Hc'.
    rewrite <- Hl1 in Hc'.
    apply (IH _ C1 C2) in Hloop; try done; rewrite ?length_shift_left; try done; lia. }
  destruct (b <=? base r) eqn:E3; [by apply Hnext|].
  destruct (base r + len r <=? e) eqn:E4; [by apply Hnext|].
  destruct (Nat.ltb_spec cnt MAX_REGIONS) as [Hlt|Hge]; [|by apply Hnext].
  destruct fuel as [|fuel]; [lia|].
  set (r1 := mkMemRegion (base r) (b - base r)) in *.
  set (r2 := mkMemRegion e (base r + len r - e)) in *.
  apply (insert_prefix regs R1 R2 r r1 cnt) in Hr as Hr1.
  pose proof (shift_right_prefix _ R1 R2 r1 r2 cnt Hr1 ltac:(lia)
                ltac:(rewrite length_insert; lia)) as Hr2.
  pose proof (shift_right_prefix curs C1 C2 c (Z.max c e) cnt Hc ltac:(lia) ltac:(lia)) as Hc2.
  rewrite Hl1 in Hloop at 5 6. rewrite (lookup_total_prefix curs C1 C2 c cnt Hc) in Hloop.
  rewrite <- Hl1 in Hloop. rewrite <- Hl1 in Hc2.
  remember (<[S (length R1) := r2]> _) as regs2 eqn:Eregs2.
  remember (<[S (length R1) := Z.max c e]> _) as curs2 eqn:Ecurs2.
  assert (length regs2 = MAX_REGIONS)
    by (subst regs2; by rewrite length_insert, length_shift_right, length_insert).
  assert (length curs2 = MAX_REGIONS)
    by (subst curs2; by rewrite length_insert, length_shift_right).
  simpl in Hloop. rewrite (proj2 (Nat.leb_gt _ _)) in Hloop by lia.
  assert (Hlook : regs2 !!! S (length R1) = r2).
  { pose proof (lookup_total_prefix regs2 (R1 ++ [r1]) R2 r2 (S cnt)) as H'.
    rewrite length_app in H'. simpl in H'. rewrite Nat.add_1_r in H'. apply H'.
    by rewrite <- app_assoc. }
  rewrite Hlook in Hloop. unfold r2 in Hloop at 1. simpl in Hloop.
  rewrite (proj2 (Z.leb_le _ _)) in Hloop by lia. simpl in Hloop.
  replace (S (S (length R1))) with (length (R1 ++ [r1; r2])) in Hloop
    by (rewrite length_app; simpl; lia).
  apply (IH _ (C1 ++ [c; Z.max c e]) C2) in Hloop; try done;
    rewrite ?length_app; simpl; try lia; [|by rewrite <- app_assoc..].
  destruct Hloop as (-> & -> & ? & ->). rewrite zip_with_app by done. by rewrite <- app_assoc.
Qed.

(** ** What a reservation does to the pages of the regions *)

(** [p] is a page the region can serve. *)
Definition page_in (r : MemRegion) (p : Z) : Prop :=
  page_aligned p /\ base r <= p /\ p + 4096 <= base r + len r.

Definition entry_ok (x : MemRegion * Z) : Prop := region_ok x.1 /\ cursor_ok x.2.

Definition within (r' r : MemRegion) : Prop :=
  base r <= base r' /\ base r' + len r' <= base r + len r.

Section reserve_list.
Context (b e : Z) (Hbe : b <= e) (Hb : 0 <= b)
        (Hbp : page_aligned b) (Hep : page_aligned e).

(** Every entry left comes from an entry of before, lies outside the range, and
    its cursor has not moved back. *)
Lemma reserve_list_from l : forall cnt r' c',
  (r', c') ∈ reserve_list cnt b e l ->
  exists r c, (r, c) ∈ l /\ within r' r /\ c <= c' /\
    (base r' + len r' <= b \/ e <= base r') /\
    (region_ok r -> region_ok r' /\ (cursor_ok c -> cursor_ok c')).
Proof.
  induction l as [|[r c] l IH]; intros cnt r' c'; simpl; [by intros ?%not_elem_of_nil|].
  assert (Hkeep : forall cnt', (r', c') ∈ reserve_list cnt' b e l ->
    exists r0 c0, (r0, c0) ∈ (r, c) :: l /\ within r' r0 /\ c0 <= c' /\
    (base r' + len r' <= b \/ e <= base r') /\
    (region_ok r0 -> region_ok r' /\ (cursor_ok c0 -> cursor_ok c'))).
  { intros cnt' H. apply IH in H as (r0 & c0 & ? & ?). exists r0, c0.
    split; [by apply elem_of_cons; right|done]. }
  assert (Hhere : forall r1 c1, (r', c') = (r1, c1) -> within r1 r -> c <= c1 ->
    (base r1 + len r1 <= b \/ e <= base r1) ->
    (region_ok r -> region_ok r1 /\ (cursor_ok c -> cursor_ok c1)) ->
    exists r0 c0, (r0, c0) ∈ (r, c) :: l /\ within r' r0 /\ c0 <= c' /\
    (base r' + len r' <= b \/ e <= base r') /\
    (region_ok r0 -> region_ok r' /\ (cursor_ok c0 -> cursor_ok c'))).
  { intros r1 c1 [= -> ->] ????. exists r, c. split; [by apply elem_of_cons; left|done]. }
  repeat case_if; rewrite ?elem_of_cons; unfold within, region_ok, cursor_ok in *;
    intros Hel; destruct_or? Hel; try (by eapply Hkeep);
    (eapply Hhere; [done|simpl; lia..|]); simpl; intros Hrok;
    (split; [lia|]); try done.
  intros [? ?]. split; [lia|].
  destruct (Z.max_spec c e) as [[_ ->]|[_ ->]]; done.
Qed.

Lemma reserve_list_disjoint l : forall cnt,
  pairwise disjoint l.*1 -> Forall (fun x => region_ok x.1) l ->
  pairwise disjoint (reserve_list cnt b e l).*1.
Proof.
  induction l as [|[r c] l IH]; intros cnt Hd Hok; [done|]. simpl in Hd.
  destruct Hd as [Hr Hd]. apply Forall_cons in Hok as [Hrok Hok]. simpl in Hrok.
  assert (Hsub : forall cnt' r1, within r1 r ->
    Forall (disjoint r1) (reserve_list cnt' b e l).*1).
  { intros cnt' r1 Hw. rewrite Forall_fmap, Forall_forall. intros [r' c'] H. simpl.
    apply reserve_list_from in H as (r0 & c0 & Hin & Hw' & _).
    rewrite Forall_fmap, Forall_forall in Hr. specialize (Hr _ Hin). simpl in Hr.
    unfold within, disjoint in *. lia. }
  unfold region_ok in Hrok. simpl.
  repeat case_if; simpl; try (by apply IH);
    (split; [|first [by apply IH|split; [|by apply IH]]]);
    try (apply Hsub; unfold within; simpl; lia).
  constructor; [unfold disjoint; simpl; lia|]. apply Hsub. unfold within; simpl; lia.
Qed.

(** No page outside the range is lost while the table has a slot for the tail
    of the one region that can contain the whole range. *)
Lemma reserve_list_keeps l : forall cnt r c p,
  pairwise disjoint l.*1 -> Forall (fun x => region_ok x.1) l ->
  ((cnt < MAX_REGIONS)%nat \/
   Forall (fun x => ~ (base x.1 < b /\ e < base x.1 + len x.1)) l) -> b < e ->
  (r, c) ∈ l -> page_in r p -> p + 4096 <= b \/ e <= p ->
  exists r' c', (r', c') ∈ reserve_list cnt b e l /\ page_in r' p /\ (c <= p -> c' <= p).
Proof.
  induction l as [|[r0 c0] l IH]; intros cnt r c p Hd Hok Hcnt Hlt Hin Hp Hout;
    [by apply not_elem_of_nil in Hin|].
  simpl in Hd. destruct Hd as [Hr Hd]. apply Forall_cons in Hok as [Hrok Hok].
  assert (Hcnt' : forall cnt', (cnt' <= cnt)%nat -> (cnt' < MAX_REGIONS)%nat \/
    Forall (fun x => ~ (base x.1 < b /\ e < base x.1 + len x.1)) l).
  { intros cnt' ?. destruct Hcnt as [|Hf]; [left; lia|right; by apply Forall_inv_tail in Hf]. }
  assert (Hsplit : base r0 < b -> e < base r0 + len r0 ->
    Forall (fun x => ~ (base x.1 < b /\ e < base x.1 + len x.1)) l).
  { intros H1 H2. rewrite Forall_forall. intros x Hx [? ?].
    rewrite Forall_fmap, Forall_forall in Hr. specialize (Hr x Hx).
    unfold disjoint in Hr; simpl in Hr. lia. }
  apply elem_of_cons in Hin as [[= -> ->]|Hin].
  - destruct Hp as (Hpa & Hp1 & Hp2). unfold page_in. simpl in *.
    repeat case_if; try lia;
      try (by (eexists _, _; split; [by apply elem_of_cons; left|];
               simpl; split_and!; [done|lia..]));
      try (by (eexists _, _; split; [apply elem_of_cons; right; by apply elem_of_cons; left|];
               simpl; split_and!; [done|lia..])).
    + destruct Hout; eexists _, _.
      * split; [by apply elem_of_cons; left|]. simpl. split_and!; [done|lia..].
      * split; [apply elem_of_cons; right; by apply elem_of_cons; left|].
        simpl. split_and!; [done|lia..].
    + destruct Hcnt as [|Hf]; [lia|]. apply Forall_inv in Hf. simpl in Hf. lia.
  - assert (Hgo : forall cnt', (cnt' < MAX_REGIONS)%nat \/
      Forall (fun x => ~ (base x.1 < b /\ e < base x.1 + len x.1)) l ->
      exists r' c', (r', c') ∈ reserve_list cnt' b e l /\ page_in r' p /\ (c <= p -> c' <= p))
      by (intros cnt' ?; by apply (IH cnt' r c p)).
    simpl. repeat case_if;
      match goal with
      | |- context [reserve_list ?n b e l] =>
          destruct (Hgo n) as (r' & c' & Hr' & Hp');
            [first [apply Hcnt'; lia|right; apply Hsplit; lia]|]
      end; exists r', c'; rewrite ?elem_of_cons; auto.
Qed.

End reserve_list.

Definition entries (fa : FrameAllocator) : list (MemRegion * Z) := zip (live fa) (cursors fa).

(** The layout part of the invariant. *)
Record layout (fa : FrameAllocator) : Prop := {
  lay_regions : length (regions fa) = MAX_REGIONS;
  lay_cursors : length (low_cursor fa) = MAX_REGIONS;
  lay_count : (region_count fa <= MAX_REGIONS)%nat;
  lay_ok : Forall region_ok (live fa);
  lay_disjoint : pairwise disjoint (live fa);
  lay_cursor_ok : Forall cursor_ok (cursors fa);
}.

Lemma layout_ext fa fa' :
  regions fa' = regions fa -> region_count fa' = region_count fa ->
  low_cursor fa' = low_cursor fa -> layout fa -> layout fa'.
Proof.
  intros Hr Hc Hl []. unfold live, cursors in *. split; unfold live, cursors;
    rewrite ?Hr, ?Hc, ?Hl; done.
Qed.

Lemma frame_length_live fa : layout fa -> length (live fa) = region_count fa.
Proof. intros []. unfold live. rewrite length_take. lia. Qed.

Lemma length_cursors fa : layout fa -> length (cursors fa) = region_count fa.
Proof. intros []. unfold cursors. rewrite length_take. lia. Qed.

Lemma entries_fst fa : layout fa -> (entries fa).*1 = live fa.
Proof. intros. apply fst_zip. rewrite frame_length_live, length_cursors by done. lia. Qed.

Lemma entries_snd fa : layout fa -> (entries fa).*2 = cursors fa.
Proof. intros. apply snd_zip. rewrite frame_length_live, length_cursors by done. lia. Qed.

Lemma elem_of_entries_live fa r c : (r, c) ∈ entries fa -> r ∈ live fa.
Proof. apply elem_of_zip_l. Qed.

Lemma live_entries fa r : layout fa -> r ∈ live fa -> exists c, (r, c) ∈ entries fa.
Proof.
  intros Hl Hr. rewrite <- entries_fst in Hr by done.
  apply list_elem_of_fmap in Hr as ([r' c] & -> & Hin). by exists c.
Qed.

Lemma entries_region_ok fa : layout fa -> Forall (fun x => region_ok x.1) (entries fa).
Proof.
  intros Hl. apply (proj1 (Forall_fmap fst region_ok (entries fa))).
  rewrite entries_fst by done. apply Hl.
Qed.

Lemma entries_cursor_ok fa : layout fa -> Forall (fun x => cursor_ok x.2) (entries fa).
Proof.
  intros Hl. apply (proj1 (Forall_fmap snd cursor_ok (entries fa))).
  rewrite entries_snd by done. apply Hl.
Qed.

(** A reservation inside the physical range, or one entirely above it. *)
Definition reservation_ok (b l : Z) : Prop :=
  is_u64 b /\ 0 < l /\
  (b + l <= PHYS_MAX - 4096 \/ PHYS_MAX + 4096 <= b /\ b + l + 8192 <= U64).

Lemma reserve_base_spec b : is_u64 b -> reserve_base b = b - b mod 4096.
Proof. intros Hb. apply (land_not_ones 12); [lia|done]. Qed.

Lemma reserve_end_spec b l : reservation_ok b l ->
  reserve_end b l = (reserve_base b + l + 4095) - (reserve_base b + l + 4095) mod 4096.
Proof.
  intros (Hb & Hl & Hbl). unfold reserve_end. rewrite (reserve_base_spec b Hb).
  unfold saturating_add. rewrite Z.min_l by plia. rewrite round_up_spec by plia. f_equal.
Qed.

Lemma reserve_range b l : reservation_ok b l ->
  0 <= reserve_base b /\ reserve_base b < reserve_end b l /\
  (reserve_end b l <= PHYS_MAX \/ PHYS_MAX < reserve_base b) /\
  page_aligned (reserve_base b) /\ page_aligned (reserve_end b l) /\
  reserve_base b <= b /\ reserve_base b + l <= reserve_end b l.
Proof.
  intros H. rewrite (reserve_end_spec b l H). destruct H as (Hb & Hl & Hbl).
  rewrite (reserve_base_spec b Hb). split_and!; plia.
Qed.

Lemma reserve_region_entries fa b l :
  layout fa -> reservation_ok b l ->
  layout (reserve_region fa b l) /\
  entries (reserve_region fa b l)
    = reserve_list (region_count fa) (reserve_base b) (reserve_end b l) (entries fa).
Proof.
  intros Hl Hr. destruct (reserve_range b l Hr) as (H0 & Hlt & Hmax & Hpb & Hpe & _).
  unfold reserve_region. rewrite (proj2 (Z.eqb_neq l 0)) by (destruct Hr; lia).
  destruct (reserve_loop _ _ _ _ _ _ _) as [[regs curs] cnt] eqn:Hloop.
  pose proof (frame_length_live fa Hl) as HL. pose proof (length_cursors fa Hl) as HC.
  destruct Hl as [Hlr Hlc Hcnt Hok Hd Hcok].
  apply (reserve_loop_spec _ _ (live fa) [] [] (cursors fa)) in Hloop;
    try done; simpl; try (rewrite ?HL, ?HC; unfold MAX_REGIONS in *; lia).
  destruct Hloop as (Hlr' & Hlc' & Hcnt' & Hz). simpl in Hz.
  assert (Hent : zip (take cnt regs) (take cnt curs)
                 = reserve_list (region_count fa) (reserve_base b) (reserve_end b l) (entries fa))
    by exact Hz.
  assert (Hlay : layout fa) by done.
  assert (Hf : (zip (take cnt regs) (take cnt curs)).*1 = take cnt regs)
    by (apply fst_zip; rewrite !length_take; lia).
  assert (Hs : (zip (take cnt regs) (take cnt curs)).*2 = take cnt curs)
    by (apply snd_zip; rewrite !length_take; lia).
  split; [|exact Hent].
  split; simpl; [done|done|done|..]; unfold live, cursors; simpl.
  - rewrite <- Hf, Hent, Forall_fmap, Forall_forall. intros [r' c'] Hin.
    apply reserve_list_from in Hin as (r & c & Hin & _ & _ & _ & Hrok); try done; try lia.
    apply Hrok. by apply (proj1 (Forall_forall _ _) (entries_region_ok fa Hlay) (r, c)).
  - rewrite <- Hf, Hent. apply reserve_list_disjoint; try done; try lia.
    + by rewrite entries_fst.
    + by apply entries_region_ok.
  - rewrite <- Hs, Hent, Forall_fmap, Forall_forall. intros [r' c'] Hin.
    apply reserve_list_from in Hin as (r & c & Hin & _ & _ & _ & Hcok'); try done; try lia.
    apply Hcok'; [by apply (proj1 (Forall_forall _ _) (entries_region_ok fa Hlay) (r, c))|].
    by apply (proj1 (Forall_forall _ _) (entries_cursor_ok fa Hlay) (r, c)).
Qed.

(** ** The ownership invariant *)

(** A page one of the two passes may still serve. *)
Definition future (fa : FrameAllocator) (p : Z) : Prop :=
  page_aligned p /\
  (next_free fa <= p \/
   p < floor fa /\ exists r c, (r, c) ∈ entries fa /\ page_in r p /\ c <= p).

Definition frame_ok (U : Z -> Prop) (fa : FrameAllocator) (p : Z) : Prop :=
  page_aligned p /\ 0 <= p < PHYS_MAX /\ U p /\ ~ future fa p.

(** [owned] is the set of frames handed out and not yet returned, [U] the pages
    the allocator may hand out at all. *)
Record inv (U : Z -> Prop) (fa : FrameAllocator) (owned : gset Z) : Prop := {
  inv_layout : layout fa;
  inv_floor : 0 <= floor fa <= next_free fa;
  inv_next : next_free fa <= PHYS_MAX;
  inv_usable : forall r p, r ∈ live fa -> page_in r p -> U p;
  inv_nodup : NoDup (free_stack fa);
  inv_stack : forall p, p ∈ free_stack fa -> frame_ok U fa p /\ p ∉ owned;
  inv_owned : forall p, p ∈ owned -> frame_ok U fa p;
}.

Lemma frame_ok_mono U fa fa' p :
  (forall q, future fa' q -> future fa q) -> frame_ok U fa p -> frame_ok U fa' p.
Proof. intros Hf (Ha & Hr & Hu & Hn). do 3 (split; [done|]). intros H. by apply Hn, Hf. Qed.

(** A step that only narrows what the passes can serve keeps the invariant. *)
Lemma inv_narrow U fa fa' owned :
  inv U fa owned -> layout fa' -> 0 <= floor fa' <= next_free fa' ->
  next_free fa' <= PHYS_MAX -> free_stack fa' = free_stack fa ->
  (forall r p, r ∈ live fa' -> page_in r p -> U p) ->
  (forall q, future fa' q -> future fa q) -> inv U fa' owned.
Proof.
  intros Hi Hl Hfl Hn Hs Hu Hfut. destruct Hi. split; try done; rewrite ?Hs; try done.
  - intros p Hp. split; [|by apply inv_stack0]. eapply frame_ok_mono; [done|by apply inv_stack0].
  - intros p Hp. eapply frame_ok_mono; [done|by apply inv_owned0].
Qed.

(** Handing out a page the passes could serve. *)
Lemma inv_serve U fa fa' owned p :
  inv U fa owned -> layout fa' -> 0 <= floor fa' <= next_free fa' ->
  next_free fa' <= PHYS_MAX -> free_stack fa' = free_stack fa -> live fa' = live fa ->
  (forall q, future fa' q -> future fa q /\ q <> p) -> future fa p ->
  (exists r, r ∈ live fa /\ page_in r p) ->
  p ∉ owned /\ inv U fa' ({[p]} ∪ owned).
Proof.
  intros Hi Hl Hfl Hn Hs Hlive Hfut Hp (r & Hr & Hpr).
  assert (Hno : p ∉ owned) by (intros H; by apply (inv_owned _ _ _ Hi) in H as (_ & _ & _ & ?)).
  split; [done|].
  assert (Hi' : inv U fa' owned).
  { eapply inv_narrow; eauto; [|intros q Hq; by apply Hfut]. rewrite Hlive. apply Hi. }
  destruct Hi'. split; try done.
  - intros q Hq. split; [by apply inv_stack0|]. apply not_elem_of_union. split; [|by apply inv_stack0].
    apply not_elem_of_singleton. intros ->. rewrite Hs in Hq.
    by apply (inv_stack _ _ _ Hi) in Hq as [(_ & _ & _ & ?) _].
  - intros q [->%elem_of_singleton|Hq]%elem_of_union; [|by apply inv_owned0].
    pose proof (proj1 (Forall_forall _ _) (lay_ok fa (inv_layout _ _ _ Hi)) r Hr) as (Hr0 & Hr1 & Hr2).
    destruct Hpr as (Hpa & Hp1 & Hp2). split_and!; [done|lia|lia| |].
    + eapply (inv_usable _ _ _ Hi); [done|by split].
    + intros Hf. by apply Hfut in Hf as [_ ?].
Qed.

(** ** The two passes *)

Lemma high_scan_Some regs next p :
  Forall region_ok regs -> 0 <= next <= PHYS_MAX -> high_scan regs next = Some p ->
  next <= p /\ exists r, r ∈ regs /\ page_in r p.
Proof.
  intros Hok Hn. induction Hok as [|r l Hr Hl IH]; simpl; [done|].
  destruct Hr as (Hr0 & Hr1 & Hr2). rewrite mask_up_spec by lia.
  rewrite (end_small r) by done. rewrite u64_add_small by plia.
  case_if; [intros [= <-]|intros H].
  - split; [plia|]. exists r. split; [by apply elem_of_cons; left|].
    split_and!; plia.
  - destruct (IH H) as (? & r' & ? & ?). split; [done|]. exists r'.
    split; [by apply elem_of_cons; right|done].
Qed.

Lemma low_scan_Some regs : forall i curs fl k p,
  Forall region_ok regs -> Forall (fun c => cursor_ok c) (take (length regs) curs) ->
  low_scan i regs curs fl = Some (k, p) ->
  exists r c, (i <= k)%nat /\ regs !! (k - i)%nat = Some r /\ curs !! (k - i)%nat = Some c /\
    page_in r p /\ c <= p /\ p < fl.
Proof.
  induction regs as [|r l IH]; intros i [|c curs] fl k p Hok Hc; simpl; try done.
  simpl in Hc. apply Forall_cons in Hok as [Hr Hok]. apply Forall_cons in Hc as [[Hc0 Hca] Hc].
  pose proof Hr as (Hr0 & Hr1 & Hr2). rewrite (end_small r) by done.
  rewrite round_up_spec by plia. rewrite u64_add_small by plia.
  case_if; [intros [= <- <-]|intros H].
  - exists r, c. rewrite Nat.sub_diag. split_and!; try done; [|lia].
    split_and!; [|plia..]. destruct (Z.max_spec c (base r + 4095 - (base r + 4095) mod 4096))
      as [[_ ->]|[_ ->]]; [plia|done].
  - apply IH in H as (r' & c' & Hle & H1 & H2 & H3); [|done..].
    exists r', c'. replace (k - i)%nat with (S (k - S i)) by lia. split_and!; [lia|done|done|tauto..].
Qed.

Lemma recycled_inv U fa owned p rest :
  inv U fa owned -> free_stack fa = p :: rest ->
  p ∉ owned /\ inv U (book fa (next_free fa) (low_cursor fa) rest) ({[p]} ∪ owned).
Proof.
  intros Hi Hs. destruct (inv_stack _ _ _ Hi p) as [Hok Hno].
  { rewrite Hs. by apply elem_of_cons; left. }
  split; [done|]. pose proof (inv_nodup _ _ _ Hi) as Hnd. rewrite Hs in Hnd.
  apply NoDup_cons in Hnd as [Hp Hnd]. destruct Hi.
  split; try done; simpl; [by apply (layout_ext fa)| |].
  - intros q Hq. destruct (inv_stack0 q) as [? ?]; [rewrite Hs; by apply elem_of_cons; right|].
    split; [done|]. apply not_elem_of_union. split; [|done].
    apply not_elem_of_singleton. by intros ->.
  - intros q [->%elem_of_singleton|Hq]%elem_of_union; [done|by apply inv_owned0].
Qed.

Lemma high_pass_inv U fa owned p :
  inv U fa owned -> free_stack fa = [] -> high_scan (live fa) (next_free fa) = Some p ->
  p ∉ owned /\ inv U (book fa (u64_add p PAGE_SIZE) (low_cursor fa) []) ({[p]} ∪ owned).
Proof.
  intros Hi Hs Hh. pose proof (inv_layout _ _ _ Hi) as Hl.
  pose proof (inv_floor _ _ _ Hi) as Hfl. pose proof (inv_next _ _ _ Hi) as Hn.
  apply high_scan_Some in Hh as (Hnp & r & Hr & Hpr); [|apply Hl|lia].
  pose proof (proj1 (Forall_forall _ _) (lay_ok fa Hl) r Hr) as (Hr0 & Hr1 & Hr2).
  pose proof Hpr as (Hpa & Hp1 & Hp2).
  assert (Hadd : u64_add p PAGE_SIZE = p + 4096) by (apply u64_add_small; plia).
  apply (inv_serve U fa); try done; simpl; rewrite ?Hadd; try lia;
    [by apply (layout_ext fa)| |split; [done|by left]|by exists r].
  intros q [Hq [Hq1|Hq1]]; simpl in Hq1; (split; [split; [done|]|lia]); [left; lia|by right].
Qed.

(** Moving one cursor past [p] leaves only pages that were there before, without [p]. *)
Lemma low_cursor_future fa k r c p q curs' :
  layout fa -> live fa !! k = Some r -> cursors fa !! k = Some c -> page_in r p -> c <= p ->
  curs' = <[k := p + 4096]> (cursors fa) ->
  (exists r' c', (r', c') ∈ zip (live fa) curs' /\ page_in r' q /\ c' <= q) ->
  (exists r' c', (r', c') ∈ entries fa /\ page_in r' q /\ c' <= q) /\ q <> p.
Proof.
  intros Hl Hr Hc Hpr Hcp -> (r' & c' & Hin & Hpr' & Hcq).
  apply list_elem_of_lookup in Hin as [m Hm]. rewrite lookup_zip_with in Hm.
  destruct (live fa !! m) as [r''|] eqn:Hrm; [|done]. simpl in Hm.
  destruct (decide (m = k)) as [->|Hmk].
  - rewrite list_lookup_insert_eq in Hm by (by eapply lookup_lt_Some).
    simpl in Hm. simplify_eq. split; [|lia]. eexists _, c. split.
    { apply (list_elem_of_lookup_2 _ k). unfold entries. by rewrite lookup_zip_with, Hr, Hc. }
    split; [done|lia].
  - rewrite list_lookup_insert_ne in Hm by done.
    destruct (cursors fa !! m) as [cm|] eqn:Hcm; [|done]. simpl in Hm. simplify_eq. split.
    + exists r', c'. split; [|done]. apply (list_elem_of_lookup_2 _ m).
      unfold entries. by rewrite lookup_zip_with, Hrm, Hcm.
    + intros ->. pose proof (pairwise_lookup disjoint _ _ _ _ _ (lay_disjoint fa Hl) Hmk Hrm Hr) as Hd.
      destruct Hpr' as (_ & ? & ?), Hpr as (_ & ? & ?). unfold disjoint in Hd. lia.
Qed.

Lemma low_pass_inv U fa owned k p :
  inv U fa owned -> free_stack fa = [] -> low_scan 0 (live fa) (low_cursor fa) (floor fa) = Some (k, p) ->
  p ∉ owned /\
  inv U (book fa (next_free fa) (<[k := u64_add p PAGE_SIZE]> (low_cursor fa)) []) ({[p]} ∪ owned).
Proof.
  intros Hi Hs Hlow. pose proof (inv_layout _ _ _ Hi) as Hl.
  pose proof (inv_floor _ _ _ Hi) as Hfl. pose proof (inv_next _ _ _ Hi) as Hn.
  apply low_scan_Some in Hlow as (r & c & _ & Hr & Hc & Hpr & Hcp & Hpf); [|apply Hl|].
  2:{ rewrite (frame_length_live fa Hl). apply Hl. }
  rewrite Nat.sub_0_r in Hr, Hc.
  pose proof (lookup_lt_Some _ _ _ Hr) as Hk. rewrite (frame_length_live fa Hl) in Hk.
  assert (Hcur : cursors fa !! k = Some c) by (unfold cursors; by rewrite lookup_take_lt).
  pose proof (list_elem_of_lookup_2 _ _ _ Hr) as Hrin.
  pose proof (proj1 (Forall_forall _ _) (lay_ok fa Hl) r Hrin) as (Hr0 & Hr1 & Hr2).
  pose proof Hpr as (Hpa & Hp1 & Hp2).
  assert (Hadd : u64_add p PAGE_SIZE = p + 4096) by (apply u64_add_small; plia).
  assert (Hcurs' : take (region_count fa) (<[k := p + 4096]> (low_cursor fa))
                   = <[k := p + 4096]> (cursors fa)) by (by apply take_insert_lt).
  apply (inv_serve U fa); try done; simpl; rewrite ?Hadd; try lia; [| | |by exists r].
  - destruct Hl. split; simpl; try done; [by rewrite length_insert|].
    unfold cursors; simpl. rewrite Hcurs'. apply Forall_insert; [done|]. split; plia.
  - intros q [Hq Hq1]. destruct Hq1 as [Hq1|[Hq1 Hex]]; simpl in Hq1.
    { split; [split; [done|by left]|lia]. }
    destruct (low_cursor_future fa k r c p q _ Hl Hr Hcur Hpr Hcp Hcurs' Hex) as [? ?].
    split; [split; [done|by right]|done].
  - split; [done|]. right. split; [done|]. exists r, c. split; [|done].
    apply (list_elem_of_lookup_2 _ k). unfold entries. by rewrite lookup_zip_with, Hr, Hcur.
Qed.

Lemma alloc_frame_inv U fa owned fa' p :
  inv U fa owned -> alloc_frame fa = (fa', Some p) ->
  p ∉ owned /\ page_aligned p /\ 0 <= p < PHYS_MAX /\ U p /\ inv U fa' ({[p]} ∪ owned).
Proof.
  intros Hi Ha.
  enough (p ∉ owned /\ inv U fa' ({[p]} ∪ owned)) as [Hno Hi'].
  { split; [done|]. destruct (inv_owned _ _ _ Hi' p) as (? & ? & ? & _); [|done].
    apply elem_of_union. left. by apply elem_of_singleton. }
  unfold alloc_frame in Ha. fold (live fa) in Ha. destruct (free_stack fa) as [|a rest] eqn:Hs.
  - destruct (high_scan _ _) as [s|] eqn:Hh; [simplify_eq; by apply high_pass_inv|].
    destruct (low_scan _ _ _ _) as [[k c']|] eqn:Hlow; [|done].
    simplify_eq. by apply low_pass_inv.
  - simplify_eq. by apply recycled_inv.
Qed.

Lemma alloc_frame_None fa fa' : alloc_frame fa = (fa', None) -> fa' = fa.
Proof.
  unfold alloc_frame. destruct (free_stack fa); [|done].
  destruct (high_scan _ _); [done|]. destruct (low_scan _ _ _ _) as [[]|]; [done|].
  by intros [= <-].
Qed.

(** ** Returning frames, reservations *)

Lemma free_frame_inv U fa owned p :
  inv U fa owned -> p ∈ owned -> inv U (free_frame fa p) (owned ∖ {[p]}).
Proof.
  intros Hi Hp. destruct (inv_owned _ _ _ Hi p Hp) as (Hpa & Hp0 & Hu & Hnf).
  assert (Hsame : inv U fa (owned ∖ {[p]})).
  { destruct Hi. split; try done;
      [|intros q [Hq _]%elem_of_difference; by apply inv_owned0].
    intros q Hq. destruct (inv_stack0 q Hq) as [? Hno]. split; [done|].
    by intros [? _]%elem_of_difference. }
  unfold free_frame. case_if; [done|]. case_if; [done|]. case_if; [|done].
  destruct Hsame. split; try done; simpl; [by apply (layout_ext fa)| |].
  - constructor; [|done]. intros Hin.
    assert (existsb (Z.eqb p) (free_stack fa) = true); [|congruence].
    apply existsb_exists. exists p. split; [by apply list_elem_of_In|apply Z.eqb_refl].
  - intros q Hq. apply elem_of_cons in Hq as [->|Hq]; [|by apply inv_stack0].
    split; [exact (conj Hpa (conj Hp0 (conj Hu Hnf)))|]. intros [_ Hne]%elem_of_difference. by apply Hne, elem_of_singleton.
Qed.

Lemma clear_free_stack_inv U fa owned :
  inv U fa owned -> inv U (clear_free_stack fa) owned.
Proof.
  intros []. split; try done; simpl; [by apply (layout_ext fa)|constructor|].
  by intros p ?%not_elem_of_nil.
Qed.

Lemma page_in_within r' r p : within r' r -> page_in r' p -> page_in r p.
Proof. intros [? ?] (? & ? & ?). split_and!; [done|lia..]. Qed.

Lemma reserve_region_from fa b l r' c' :
  layout fa -> reservation_ok b l -> (r', c') ∈ entries (reserve_region fa b l) ->
  exists r c, (r, c) ∈ entries fa /\ within r' r /\ c <= c' /\
    (base r' + len r' <= reserve_base b \/ reserve_end b l <= base r').
Proof.
  intros Hl Hr Hin. destruct (reserve_region_entries fa b l Hl Hr) as [_ He].
  rewrite He in Hin. destruct (reserve_range b l Hr) as (? & ? & ? & ? & ? & _).
  apply reserve_list_from in Hin as (r & c & ? & ? & ? & ? & _); try done; try lia.
  by exists r, c.
Qed.

Lemma reserve_region_inv U fa owned b l :
  inv U fa owned -> reservation_ok b l -> inv U (reserve_region fa b l) owned.
Proof.
  intros Hi Hr. pose proof (inv_layout _ _ _ Hi) as Hl.
  destruct (reserve_region_entries fa b l Hl Hr) as [Hl' _].
  pose proof (reserve_region_from fa b l) as Hfrom.
  destruct (reserve_range b l Hr) as (H0 & Hlt & Hmax & _).
  pose proof (inv_floor _ _ _ Hi) as Hfl. pose proof (inv_next _ _ _ Hi) as Hn.
  assert (Hnf : next_free fa <= next_free (reserve_region fa b l) <= PHYS_MAX /\
                floor (reserve_region fa b l) = floor fa /\
                free_stack (reserve_region fa b l) = free_stack fa).
  { unfold reserve_region. case_if; [done|]. destruct (reserve_loop _ _ _ _ _ _ _) as [[? ?] ?].
    simpl. split_and!; [| |done..]; case_if; lia. }
  destruct Hnf as (Hnf & Hfl' & Hst'). apply (inv_narrow U fa); try done; try lia.
  - intros r' p Hr' Hp. destruct (live_entries _ r' Hl' Hr') as [c' Hin].
    destruct (Hfrom r' c' Hl Hr Hin) as (r & c & Hin' & Hw & _).
    eapply (inv_usable _ _ _ Hi); [by eapply elem_of_entries_live|by eapply page_in_within].
  - intros q [Hq Hq']. split; [done|]. destruct Hq' as [Hq'|(Hq' & r' & c' & Hin & Hp & Hc)].
    + left. lia.
    + right. split; [by rewrite <- Hfl'|]. destruct (Hfrom r' c' Hl Hr Hin) as (r & c & ? & ? & ? & _).
      exists r, c. split_and!; [done|by eapply page_in_within|lia].
Qed.

(** ** Counting the frames left *)

Lemma high_pass_loop_total regs : forall c t,
  high_pass_loop regs c t = t + high_pass_loop regs c 0.
Proof.
  induction regs as [|r l IH]; intros c t; simpl; [lia|].
  case_if; [|apply IH]. rewrite IH. symmetry. rewrite IH. lia.
Qed.

Lemma low_pass_loop_total regs : forall curs fl t,
  low_pass_loop regs curs fl t = t + low_pass_loop regs curs fl 0.
Proof.
  induction regs as [|r l IH]; intros [|c curs] fl t; simpl; [lia..|].
  case_if; [apply IH|]. case_if; [|apply IH]. rewrite IH. symmetry. rewrite IH. lia.
Qed.

(** Serving one page of the high pass lowers its count by one; a pass that serves
    nothing counts zero. *)
Lemma high_pass_step regs next :
  Forall region_ok regs -> 0 <= next <= PHYS_MAX ->
  match high_scan regs next with
  | Some p => high_pass_loop regs next 0 = 1 + high_pass_loop regs (p + 4096) 0
  | None => high_pass_loop regs next 0 = 0
  end.
Proof.
  intros Hok Hn. induction Hok as [|r l Hr Hl IH]; simpl; [done|].
  destruct Hr as (Hr0 & Hr1 & Hr2). rewrite mask_up_spec by lia.
  rewrite (end_small r) by done. rewrite round_up_spec by plia.
  rewrite !u64_add_small by plia.
  set (s := Z.max (base r) next + 4095 - (Z.max (base r) next + 4095) mod 4096).
  assert (Hs : Z.max (base r) next <= s < Z.max (base r) next + 4096 /\ s mod 4096 = 0)
    by (subst s; plia).
  clearbody s. unfold PAGE_SIZE_U64. destruct (Z.leb_spec (s + 4096) (base r + len r)) as [Hf|Hf].
  - rewrite round_up_spec by plia.
    replace (Z.max (base r) (s + 4096) + 4095 - (Z.max (base r) (s + 4096) + 4095) mod 4096)
      with (s + 4096) by plia.
    rewrite u64_add_small by plia. rewrite high_pass_loop_total. case_if.
    + rewrite (high_pass_loop_total l _ (0 + (base r + len r - (s + 4096)) / 4096)).
      replace ((base r + len r - (s + 4096)) / 4096) with ((base r + len r - s) / 4096 - 1) by plia.
      replace (s + 4096 + ((base r + len r - s) / 4096 - 1) * 4096)
        with (s + (base r + len r - s) / 4096 * 4096) by lia. lia.
    + replace ((base r + len r - s) / 4096) with 1 by plia.
      replace (s + 1 * 4096) with (s + 4096) by lia. lia.
  - destruct (high_scan l next) as [p|] eqn:Hp; [|done].
    apply high_scan_Some in Hp as (Hnp & r' & Hr' & Hpa & Hp1 & Hp2); [|done..].
    pose proof (proj1 (Forall_forall _ _) Hl r' Hr') as (? & ? & ?).
    rewrite IH. rewrite round_up_spec by plia. rewrite u64_add_small by plia.
    case_if; [|done]. plia.
Qed.

Lemma low_pass_step fl regs : forall i curs,
  Forall region_ok regs -> Forall cursor_ok (take (length regs) curs) ->
  page_aligned fl -> 0 <= fl <= PHYS_MAX ->
  match low_scan i regs curs fl with
  | Some (k, p) =>
      low_pass_loop regs curs fl 0 = 1 + low_pass_loop regs (<[(k - i)%nat := p + 4096]> curs) fl 0
  | None => low_pass_loop regs curs fl 0 = 0
  end.
Proof.
  intros i curs Hok Hc Hfl Hfl'. revert i curs Hc.
  induction Hok as [|r l Hr Hl IH]; intros i [|c curs] Hc; simpl; [done..|].
  simpl in Hc. apply Forall_cons in Hc as [[Hc0 Hca] Hc].
  pose proof Hr as (Hr0 & Hr1 & Hr2). rewrite (end_small r) by done.
  rewrite round_up_spec by plia.
  set (s := Z.max c (base r + 4095 - (base r + 4095) mod 4096)).
  assert (Hs : c <= s /\ base r <= s /\ s <= PHYS_MAX + 4096 /\ s mod 4096 = 0).
  { split_and!; [subst s; plia..|]. subst s.
    destruct (Z.max_spec c (base r + 4095 - (base r + 4095) mod 4096)) as [[_ ->]|[_ ->]]; plia. }
  unfold PAGE_SIZE_U64. rewrite u64_add_small by plia.
  assert (Hmask : 4096 <= Z.min (base r + len r) fl ->
    Z.land (Z.min (base r + len r) fl - 4096) (u64_not (4096 - 1))
    = (Z.min (base r + len r) fl - 4096) - (Z.min (base r + len r) fl - 4096) mod 4096)
    by (intros; apply (land_not_ones 12); [lia|plia]).
  destruct ((s + 4096 <=? base r + len r) && (s <? fl)) eqn:E.
  - rewrite Nat.sub_diag. simpl. bsplit.
    rewrite ?(end_small r), ?round_up_spec by (done || plia).
    rewrite (proj2 (Z.ltb_ge _ _)) by plia. rewrite Hmask by plia.
    rewrite (proj2 (Z.leb_le _ _)) by plia. rewrite low_pass_loop_total.
    replace (Z.max (s + 4096) (base r + 4095 - (base r + 4095) mod 4096)) with (s + 4096)
      by (subst s; lia).
    case_if; [rewrite (low_pass_loop_total l curs fl (0 + _))|]; plia.
  - assert (Hskip : forall curs',
      (if Z.min (base r + len r) fl <? 4096 then low_pass_loop l curs' fl 0
       else if s <=? Z.land (Z.min (base r + len r) fl - 4096) (u64_not (4096 - 1))
            then low_pass_loop l curs' fl (0 + ((Z.land (Z.min (base r + len r) fl - 4096)
                                                  (u64_not (4096 - 1)) - s) / 4096 + 1))
            else low_pass_loop l curs' fl 0) = low_pass_loop l curs' fl 0).
    { intros curs'. case_if; [done|]. rewrite Hmask by lia. case_if; [|done].
      exfalso. bsplit. destruct E; bsplit; plia. }
    rewrite Hskip. specialize (IH (S i) curs Hc).
    destruct (low_scan (S i) l curs fl) as [[k p]|] eqn:Hlow; [|done].
    apply low_scan_Some in Hlow as (r' & c' & Hle & _); [|done..].
    replace (k - i)%nat with (S (k - S i)) by lia. simpl.
    rewrite ?(end_small r), ?round_up_spec by (done || plia). fold s. unfold PAGE_SIZE_U64.
    by rewrite Hskip.
Qed.

Lemma high_pass_loop_nonneg regs : forall c, Forall region_ok regs -> 0 <= c <= PHYS_MAX ->
  0 <= high_pass_loop regs c 0.
Proof.
  intros c Hok. revert c. induction Hok as [|r l Hr Hl IH]; intros c Hc; simpl; [done|].
  destruct Hr as (Hr0 & Hr1 & Hr2). rewrite (end_small r), round_up_spec by (done || plia).
  rewrite u64_add_small by plia. case_if; [|by apply IH].
  rewrite high_pass_loop_total. unfold PAGE_SIZE_U64 in *.
  enough (0 <= high_pass_loop l (Z.max (base r) c + 4095 - (Z.max (base r) c + 4095) mod 4096
     + (base r + len r - (Z.max (base r) c + 4095 - (Z.max (base r) c + 4095) mod 4096)) / 4096 * 4096) 0)
    by plia.
  apply IH. plia.
Qed.

Lemma low_pass_loop_nonneg regs : forall curs fl,
  0 <= low_pass_loop regs curs fl 0.
Proof.
  induction regs as [|r l IH]; intros [|c curs] fl; simpl; [done..|].
  case_if; [apply IH|]. case_if; [|apply IH]. rewrite low_pass_loop_total.
  specialize (IH curs fl). unfold PAGE_SIZE_U64 in *.
  pose proof (Z.div_pos (Z.land (Z.min (u64_add (base r) (len r)) fl - 4096) (u64_not (4096 - 1))
    - Z.max c (round_up (base r))) 4096). lia.
Qed.

Lemma free_frames_count_step U fa owned :
  inv U fa owned -> page_aligned (floor fa) ->
  match alloc_frame fa with
  | (fa', Some p) => free_frames_count fa = 1 + free_frames_count fa' /\ floor fa' = floor fa
  | (_, None) => free_frames_count fa = 0
  end.
Proof.
  intros Hi Hfa. pose proof (inv_layout _ _ _ Hi) as Hl.
  pose proof (inv_floor _ _ _ Hi) as Hfl. pose proof (inv_next _ _ _ Hi) as Hn.
  unfold alloc_frame, free_frames_count, free_count, high_pass_frames, low_pass_frames.
  fold (live fa). destruct (free_stack fa) as [|a rest] eqn:Hs; [|simpl; fold (live fa); split; [lia|done]].
  pose proof (high_pass_step (live fa) (next_free fa) (lay_ok fa Hl) ltac:(lia)) as Hh.
  destruct (high_scan (live fa) (next_free fa)) as [p|] eqn:Hp.
  { apply high_scan_Some in Hp as (Hnp & r & Hr & Hpa & Hp1 & Hp2); [|apply Hl|lia].
    pose proof (proj1 (Forall_forall _ _) (lay_ok fa Hl) r Hr) as (? & ? & ?).
    simpl. fold (live fa). rewrite u64_add_small by plia. unfold PAGE_SIZE. lia. }
  assert (Hcur : Forall cursor_ok (take (length (live fa)) (low_cursor fa)))
    by (rewrite (frame_length_live fa Hl); apply Hl).
  pose proof (low_pass_step (floor fa) (live fa) 0 (low_cursor fa) (lay_ok fa Hl) Hcur Hfa ltac:(lia)) as Hlow.
  destruct (low_scan _ _ _ _) as [[k p]|] eqn:Hls; [|simpl; lia].
  apply low_scan_Some in Hls as (r & c & _ & Hr & Hc & (Hpa & Hp1 & Hp2) & _); [|apply Hl|done].
  pose proof (proj1 (Forall_forall _ _) (lay_ok fa Hl) r (list_elem_of_lookup_2 _ _ _ Hr)) as (? & ? & ?).
  simpl. fold (live fa). rewrite u64_add_small by plia. rewrite Nat.sub_0_r in Hlow.
  unfold PAGE_SIZE. rewrite Hh, Hlow. split; [lia|done].
Qed.

Lemma free_frames_count_nonneg U fa owned : inv U fa owned -> 0 <= free_frames_count fa.
Proof.
  intros Hi. pose proof (inv_floor _ _ _ Hi). pose proof (inv_next _ _ _ Hi).
  unfold free_frames_count.
  pose proof (high_pass_loop_nonneg (live fa) (next_free fa) (lay_ok fa (inv_layout _ _ _ Hi)) ltac:(lia)).
  pose proof (low_pass_loop_nonneg (live fa) (low_cursor fa) (floor fa)).
  unfold high_pass_frames, low_pass_frames, live in *. lia.
Qed.

(** [n] calls of [alloc_frame] in a row: the frames served, [None] if one fails. *)
Fixpoint alloc_many (n : nat) (fa : FrameAllocator) : option (FrameAllocator * list Z) :=
  match n with
  | O => Some (fa, [])
  | S n =>
      match alloc_frame fa with
      | (fa', Some p) =>
          match alloc_many n fa' with
          | Some (fa'', ps) => Some (fa'', p :: ps)
          | None => None
          end
      | (_, None) => None
      end
  end.

Lemma alloc_many_spec U n : forall fa owned,
  inv U fa owned -> page_aligned (floor fa) ->
  match alloc_many n fa with
  | Some (fa', ps) =>
      Z.of_nat n <= free_frames_count fa /\ length ps = n /\ NoDup ps /\
      Forall (fun p => p ∉ owned) ps /\
      free_frames_count fa' = free_frames_count fa - Z.of_nat n
  | None => free_frames_count fa < Z.of_nat n
  end.
Proof.
  induction n as [|n IH]; intros fa owned Hi Hfl; cbn [alloc_many].
  { pose proof (free_frames_count_nonneg U fa owned Hi). split_and!; [lia|done|constructor..|lia]. }
  pose proof (free_frames_count_step U fa owned Hi Hfl) as Hstep.
  destruct (alloc_frame fa) as [fa' [p|]] eqn:Ha; [|lia].
  destruct Hstep as [Hc Hf]. destruct (alloc_frame_inv U fa owned fa' p Hi Ha) as (Hp & _ & _ & _ & Hi').
  specialize (IH fa' _ Hi' ltac:(by rewrite Hf)).
  destruct (alloc_many n fa') as [[fa'' ps]|]; [|lia].
  destruct IH as (H1 & H2 & H3 & H4 & H5). split_and!; [lia|by simpl; rewrite H2| | |lia].
  - constructor; [|done]. intros Hin. rewrite Forall_forall in H4. apply (H4 p Hin).
    apply elem_of_union. left. by apply elem_of_singleton.
  - constructor; [done|]. eapply Forall_impl; [exact H4|]. intros q Hq Ho. apply Hq.
    apply elem_of_union. by right.
Qed.

(** ** Planning *)

Definition usable_region (e : MemoryRegion) : bool := is_usable e && (0 <? m_length e).

Definition regions_of (map : list MemoryRegion) : list MemRegion :=
  (fun e => mkMemRegion (m_base e) (m_length e)) <$> List.filter usable_region map.

Definition entry_range_ok (e : MemoryRegion) : Prop :=
  0 <= m_base e /\ 0 <= m_length e /\ m_base e + m_length e <= PHYS_MAX - 4096.

(** What the bootloader promises of its map: 52-bit addresses, usable entries disjoint. *)
Definition map_ok (map : list MemoryRegion) : Prop :=
  Forall entry_range_ok map /\
  pairwise disjoint (regions_of map).

Definition input_ok (input : AllocPlanInput) : Prop :=
  map_ok (memory_map input) /\
  (kernel_image_base input < kernel_image_end input ->
   reservation_ok (kernel_image_base input) (kernel_image_end input - kernel_image_base input)) /\
  0 <= boot_stack_phys input <= PHYS_MAX - 0x100000.

Lemma add_usable_fold l : forall fa,
  layout fa -> Forall cursor_ok (low_cursor fa) ->
  Forall entry_range_ok l ->
  pairwise disjoint (live fa ++ regions_of l) ->
  let fa' := fold_left add_usable l fa in
  layout fa' /\ free_stack fa' = free_stack fa /\ sublist (live fa') (live fa ++ regions_of l).
Proof.
  induction l as [|e l IH]; intros fa Hl Hcur Hok Hd; simpl.
  { unfold regions_of. simpl. by rewrite app_nil_r. }
  apply Forall_cons in Hok as [He Hok].
  unfold regions_of in *. simpl in *. unfold add_usable at 2 4 6. fold (usable_region e).
  destruct (usable_region e) eqn:Hu; [|by apply IH].
  simpl in *. set (r := mkMemRegion (m_base e) (m_length e)) in *.
  destruct (Nat.ltb_spec (region_count fa) MAX_REGIONS) as [Hlt|Hge].
  2:{ destruct (IH fa) as (? & ? & Hs); try done.
      - apply (pairwise_sublist _ _ _) with (2 := Hd). apply sublist_app; [done|]. by apply sublist_cons.
      - split_and!; [done..|]. etrans; [exact Hs|]. apply sublist_app; [done|]. by apply sublist_cons. }
  set (fa1 := mkFrameAllocator _ _ _ _ _ _ _ _).
  assert (Hlive : live fa1 = live fa ++ [r]).
  { unfold live, fa1; simpl. erewrite take_S_r; [by rewrite take_insert_ge by lia|].
    apply list_lookup_insert_eq. rewrite (lay_regions fa Hl). done. }
  destruct (IH fa1) as (H1 & H2 & H3); try done.
  - destruct Hl. split; unfold fa1; simpl; try done; try lia; [by rewrite length_insert|..].
    + change (Forall region_ok (live fa1)). rewrite Hlive. apply Forall_app. split; [done|].
      constructor; [|constructor]. unfold entry_range_ok in He. unfold r, region_ok; simpl. plia.
    + change (pairwise disjoint (live fa1)). rewrite Hlive.
      apply (pairwise_sublist _ _ _) with (2 := Hd). apply sublist_app; [done|].
      apply sublist_skip. apply sublist_nil_l.
    + unfold cursors; simpl. by apply Forall_take.
  - rewrite Hlive, <- app_assoc. done.
  - split_and!; [done..|]. rewrite Hlive, <- app_assoc in H3. done.
Qed.

Definition pages (fa : FrameAllocator) (p : Z) : Prop := exists r, r ∈ live fa /\ page_in r p.

(** [p] does not meet the rounded range of a reservation. *)
Definition avoids (b l p : Z) : Prop := p + 4096 <= reserve_base b \/ reserve_end b l <= p.

Lemma reserve_region_pages fa b l p :
  layout fa -> reservation_ok b l -> pages (reserve_region fa b l) p -> pages fa p /\ avoids b l p.
Proof.
  intros Hl Hr (r' & Hr' & Hp).
  destruct (reserve_region_entries fa b l Hl Hr) as [Hl' _].
  destruct (live_entries _ r' Hl' Hr') as [c' Hin].
  destruct (reserve_region_from fa b l r' c' Hl Hr Hin) as (r & c & Hin' & Hw & _ & Ho). split.
  - exists r. split; [by eapply elem_of_entries_live|by eapply page_in_within].
  - destruct Hp as (_ & ? & ?). unfold avoids. lia.
Qed.

Lemma reset_layout fa : layout (reset fa).
Proof.
  split; try done; simpl; [unfold MAX_REGIONS; lia|constructor..].
Qed.

Lemma reserve_region_keeps fa b l : free_stack (reserve_region fa b l) = free_stack fa.
Proof.
  unfold reserve_region. case_if; [done|]. by destruct (reserve_loop _ _ _ _ _ _ _) as [[? ?] ?].
Qed.

Definition reserved_entry (e : MemoryRegion) : Prop := kind e <> 0 /\ 0 < m_length e.

Lemma reserve_entry_fold map : forall fa,
  layout fa -> Forall entry_range_ok map ->
  let fa' := fold_left reserve_entry map fa in
  layout fa' /\ free_stack fa' = free_stack fa /\
  forall p, pages fa' p -> pages fa p /\
    Forall (fun e => reserved_entry e -> avoids (m_base e) (m_length e) p) map.
Proof.
  induction map as [|e map IH]; intros fa Hl Hok; simpl.
  { split_and!; [done..|]. intros p Hp. split; [done|constructor]. }
  apply Forall_cons in Hok as [(He0 & He1 & He2) Hok]. unfold reserve_entry at 2 4 6.
  destruct (negb (kind e =? 0) && (0 <? m_length e)) eqn:E; bsplit.
  - assert (Hr : reservation_ok (m_base e) (m_length e)) by (split_and!; [plia..|left; lia]).
    destruct (reserve_region_entries fa _ _ Hl Hr) as [Hl1 _].
    destruct (IH _ Hl1 Hok) as (H1 & H2 & H3). split_and!; [done| |].
    + by rewrite H2, reserve_region_keeps.
    + intros p Hp. destruct (H3 p Hp) as [Hp1 Hf].
      destruct (reserve_region_pages _ _ _ _ Hl Hr Hp1). split; [done|]. by constructor.
  - destruct (IH fa Hl Hok) as (H1 & H2 & H3). split_and!; [done..|].
    intros p Hp. destruct (H3 p Hp) as [Hp1 Hf]. split; [done|]. constructor; [|done].
    intros [? ?]. exfalso. destruct E; bsplit; lia.
Qed.

Lemma boot_stack_base_spec x : is_u64 x ->
  Z.land x (u64_not PAGE_SIZE_U64) = x - 4096 * ((x / 4096) mod 2).
Proof.
  intros Hx. unfold PAGE_SIZE_U64.
  assert (Hld : Z.land x (u64_not 4096) = Z.ldiff x (2 ^ 12)).
  { apply Z.bits_inj'. intros i Hi. unfold u64_not, U64_MAX, U64.
    replace (2 ^ 64 - 1) with (Z.ones 64) by reflexivity. change 4096 with (2 ^ 12).
    rewrite Z.land_spec, Z.ldiff_spec, Z.lxor_spec.
    destruct (Z.lt_ge_cases i 64).
    - rewrite (Z.ones_spec_low 64) by lia. by destruct (Z.testbit x i), (Z.testbit (2 ^ 12) i).
    - rewrite (Z.ones_spec_high 64) by lia. rewrite (Z.pow2_bits_false 12) by lia.
      replace (Z.testbit x i) with false; [done|]. symmetry.
      rewrite <- (Z.mod_small x (2 ^ 64)) by plia. apply Z.mod_pow2_bits_high. lia. }
  assert (Hsum : Z.ldiff x (2 ^ 12) + Z.land x (2 ^ 12) = x).
  { rewrite Z.add_nocarry_lxor.
    - rewrite Z.lxor_lor; [apply Z.lor_ldiff_and|].
      apply Z.bits_inj'. intros i Hi. rewrite !Z.land_spec, Z.ldiff_spec, Z.bits_0.
      by destruct (Z.testbit x i), (Z.testbit (2 ^ 12) i).
    - apply Z.bits_inj'. intros i Hi. rewrite !Z.land_spec, Z.ldiff_spec, Z.bits_0.
      by destruct (Z.testbit x i), (Z.testbit (2 ^ 12) i). }
  assert (Hand : Z.land x (2 ^ 12) = 4096 * ((x / 4096) mod 2)).
  { change 4096 with (2 ^ 12) at 2.
    rewrite <- (Z.shiftr_div_pow2 x 12) by lia. rewrite <- Z.bit0_mod, Z.shiftr_spec by lia.
    rewrite Z.add_0_l. apply Z.bits_inj'. intros i Hi. rewrite Z.land_spec, Z.pow2_bits_eqb by lia.
    destruct (Z.eqb_spec 12 i) as [<-|Hne].
    - destruct (Z.testbit x 12); reflexivity.
    - rewrite andb_false_r. destruct (Z.testbit x 12); simpl Z.b2z.
      + change (4096 * 1) with (2 ^ 12). by rewrite Z.pow2_bits_false.
      + by rewrite Z.mul_0_r, Z.bits_0. }
  lia.
Qed.

Lemma boot_stack_reservation_ok phys :
  0 <= phys <= PHYS_MAX - 0x100000 ->
  reservation_ok (boot_stack_base phys) (BOOT_STACK_RESERVE + PAGE_SIZE_U64).
Proof.
  intros Hp. unfold boot_stack_base, saturating_sub, BOOT_STACK_RESERVE.
  rewrite boot_stack_base_spec by plia.
  split_and!; [plia..|left; plia].
Qed.

(** What the plan leaves: pages of usable entries that meet nothing reserved. *)
Definition planned (input : AllocPlanInput) (p : Z) : Prop :=
  (exists r, r ∈ regions_of (memory_map input) /\ page_in r p) /\
  Forall (fun e => reserved_entry e -> avoids (m_base e) (m_length e) p) (memory_map input) /\
  (kernel_image_base input < kernel_image_end input ->
   avoids (kernel_image_base input) (kernel_image_end input - kernel_image_base input) p) /\
  (boot_stack_phys input <> 0 ->
   avoids (boot_stack_base (boot_stack_phys input)) (BOOT_STACK_RESERVE + PAGE_SIZE_U64) p).

Lemma plan_reservations_spec fa input :
  input_ok input ->
  let fa' := plan_reservations fa input in
  layout fa' /\ free_stack fa' = [] /\ forall p, pages fa' p -> planned input p.
Proof.
  intros ([Hmap Hdis] & Himg & Hstk). unfold plan_reservations.
  destruct (add_usable_fold (memory_map input) (reset fa)) as (H1 & H2 & H3);
    [apply reset_layout| |done|done|].
  { apply (Forall_replicate cursor_ok MAX_REGIONS). split; [unfold PHYS_MAX; lia|done]. }
  set (fa1 := fold_left add_usable (memory_map input) (reset fa)) in *.
  destruct (reserve_entry_fold (memory_map input) fa1 H1 Hmap) as (H4 & H5 & H6).
  set (fa2 := fold_left reserve_entry (memory_map input) fa1) in *.
  assert (H7 : layout (reserve_image fa2 input) /\
               free_stack (reserve_image fa2 input) = free_stack fa2 /\
               forall p, pages (reserve_image fa2 input) p -> pages fa2 p /\
                 (kernel_image_base input < kernel_image_end input ->
                  avoids (kernel_image_base input)
                    (kernel_image_end input - kernel_image_base input) p)).
  { unfold reserve_image. case_if.
    - destruct (reserve_region_entries fa2 _ _ H4 (Himg E)). split_and!; [done| |].
      + apply reserve_region_keeps.
      + intros p Hp. by destruct (reserve_region_pages _ _ _ _ H4 (Himg E) Hp).
    - split_and!; [done..|]. intros p Hp. split; [done|lia]. }
  destruct H7 as (H8 & H9 & H10). set (fa3 := reserve_image fa2 input) in *.
  pose proof (boot_stack_reservation_ok _ Hstk) as Hsr.
  assert (Hpl : forall p, pages fa3 p -> pages fa1 p /\
     Forall (fun e => reserved_entry e -> avoids (m_base e) (m_length e) p) (memory_map input) /\
     (kernel_image_base input < kernel_image_end input ->
      avoids (kernel_image_base input) (kernel_image_end input - kernel_image_base input) p)).
  { intros p Hp. destruct (H10 p Hp) as [Hp2 ?]. by destruct (H6 p Hp2). }
  assert (Hreg : forall p, pages fa1 p -> exists r, r ∈ regions_of (memory_map input) /\ page_in r p).
  { intros p (r & Hr & Hp). exists r. split; [|done]. by eapply elem_of_sublist in H3. }
  simpl. unfold reserve_stack. case_if; bsplit.
  - destruct (reserve_region_entries fa3 _ _ H8 Hsr). split; [done|]. split.
    { by rewrite reserve_region_keeps, H9, H5, H2. }
    intros p Hp. destruct (reserve_region_pages _ _ _ _ H8 Hsr Hp) as [Hp3 ?].
    destruct (Hpl p Hp3) as (? & ? & ?). split; [by apply Hreg|done].
  - split; [done|]. split; [by rewrite H9, H5, H2|].
    intros p Hp. destruct (Hpl p Hp) as (? & ? & ?). split; [by apply Hreg|done].
Qed.

Lemma seed_next_free_range fa map :
  layout fa -> Forall entry_range_ok map -> 0 <= seed_next_free fa map <= PHYS_MAX.
Proof.
  intros Hl Hmap. unfold seed_next_free. case_if; [|unfold PHYS_MAX; lia].
  assert (Hr : region_ok (regions fa !!! 0%nat)).
  { pose proof (lay_ok fa Hl) as Hok. rewrite Forall_lookup in Hok. apply (Hok 0%nat).
    unfold live. rewrite lookup_take_lt by done. apply list_lookup_lookup_total_lt.
    rewrite (lay_regions fa Hl). unfold MAX_REGIONS. lia. }
  destruct Hr as (Hr0 & Hr1 & Hr2). rewrite u64_add_small by plia.
  match goal with |- context [fold_left _ map ?s] =>
    assert (Hs : 0 <= s <= PHYS_MAX) by (case_if; plia); generalize dependent s end.
  induction Hmap as [|e map He Hmap IH]; intros s Hs; simpl; [done|].
  apply IH. destruct He as (? & ? & ?). case_if; [|done]. rewrite u64_add_small by plia.
  case_if; plia.
Qed.

Lemma plan_regions_inv fa input :
  input_ok input -> inv (planned input) (plan_regions fa input) ∅.
Proof.
  intros Hin. destruct (plan_reservations_spec fa input Hin) as (Hl & Hs & Hp).
  destruct Hin as ([Hmap _] & _).
  pose proof (seed_next_free_range _ _ Hl Hmap) as Hseed.
  unfold plan_regions. split; simpl; try lia; try done.
  - by apply (layout_ext (plan_reservations fa input)).
  - intros r p Hr Hpr. apply Hp. by exists r.
  - rewrite Hs. constructor.
  - rewrite Hs. by intros p ?%not_elem_of_nil.
Qed.

(** ** Sequences of calls *)

(** The allocator with the set of frames its clients hold: a client returns only
    frames it holds. *)
Inductive step : FrameAllocator * gset Z -> FrameAllocator * gset Z -> Prop :=
| step_alloc fa owned fa' p :
    alloc_frame fa = (fa', Some p) -> step (fa, owned) (fa', {[p]} ∪ owned)
| step_alloc_fails fa owned fa' :
    alloc_frame fa = (fa', None) -> step (fa, owned) (fa', owned)
| step_free fa owned p :
    p ∈ owned -> step (fa, owned) (free_frame fa p, owned ∖ {[p]})
| step_clear fa owned : step (fa, owned) (clear_free_stack fa, owned)
| step_reserve fa owned b l :
    reservation_ok b l -> step (fa, owned) (reserve_region fa b l, owned).

Inductive reachable (input : AllocPlanInput) : FrameAllocator * gset Z -> Prop :=
| reachable_plan fa : reachable input (plan_regions fa input, ∅)
| reachable_step s s' : reachable input s -> step s s' -> reachable input s'.

Lemma step_inv U s s' : step s s' -> inv U s.1 s.2 -> inv U s'.1 s'.2.
Proof.
  intros Hs Hi. destruct Hs as [fa owned fa' p Ha|fa owned fa' Ha|fa owned p Hp|fa owned|fa owned b l Hr];
    simpl in *.
  - by eapply alloc_frame_inv.
  - apply alloc_frame_None in Ha. by subst.
  - by apply free_frame_inv.
  - by apply clear_free_stack_inv.
  - by apply reserve_region_inv.
Qed.

Lemma reachable_inv input s :
  input_ok input -> reachable input s -> inv (planned input) s.1 s.2.
Proof.
  intros Hin. induction 1 as [fa|s s' _ IH Hs]; [by apply plan_regions_inv|].
  by eapply step_inv.
Qed.

Lemma reserve_region_keeps_page fa b l p :
  layout fa -> reservation_ok b l -> (region_count fa < MAX_REGIONS)%nat ->
  pages fa p -> avoids b l p -> pages (reserve_region fa b l) p.
Proof.
  intros Hl Hr Hc (r & Hrin & Hp) Ha.
  destruct (reserve_region_entries fa b l Hl Hr) as [_ He].
  destruct (reserve_range b l Hr) as (? & ? & ? & ? & ? & _).
  destruct (live_entries fa r Hl Hrin) as [c Hin].
  destruct (reserve_list_keeps (reserve_base b) (reserve_end b l) (entries fa) (region_count fa) r c p)
    as (r' & c' & Hin' & Hp' & _); try done.
  - rewrite entries_fst by done. apply Hl.
  - by apply entries_region_ok.
  - by left.
  - rewrite <- He in Hin'. exists r'. split; [by eapply elem_of_entries_live|done].
Qed.

Lemma reserve_list_above b e l : forall cnt,
  Forall (fun x => base x.1 + len x.1 <= b) l -> reserve_list cnt b e l = l.
Proof.
  induction l as [|[r c] l IH]; intros cnt Hl; simpl; [done|].
  apply Forall_cons in Hl as [Hr Hl]. simpl in Hr.
  rewrite (proj2 (Z.leb_le (base r + len r) b)) by done. rewrite orb_true_r. by rewrite IH.
Qed.

(** ** Properties *)

(** C1: exclusive ownership of physical frames. From any planned allocator and
    after any sequence of allocations, returns of held frames, reservations and
    stack clears, a frame handed out is held by nobody, is page aligned and a
    valid 52-bit address, lies inside a usable entry of the bootloader's map,
    and meets no non-usable entry, taken as the range of its length that starts
    with the page of its base: the entry itself when its base is page aligned. *)
Theorem frame_exclusive (input : AllocPlanInput) (fa fa' : FrameAllocator)
    (owned : gset Z) (p : Z) :
  input_ok input -> reachable input (fa, owned) -> alloc_frame fa = (fa', Some p) ->
  p ∉ owned /\ page_aligned p /\ 0 <= p < PHYS_MAX /\
  (exists e, e ∈ memory_map input /\ is_usable e = true /\
             m_base e <= p /\ p + 4096 <= m_base e + m_length e) /\
  (forall e, e ∈ memory_map input -> reserved_entry e ->
             let b := m_base e - m_base e mod 4096 in p + 4096 <= b \/ b + m_length e <= p).
Proof.
  intros Hin Hr Ha. pose proof (reachable_inv _ _ Hin Hr) as Hi. simpl in Hi.
  destruct (alloc_frame_inv _ _ _ _ _ Hi Ha) as (Hno & Hpa & Hrg & Hu & _).
  do 3 (split; [done|]). destruct Hu as ((r & Hreg & Hpr) & Hav & _). split.
  - unfold regions_of in Hreg. apply list_elem_of_fmap in Hreg as (e & -> & He).
    apply elem_of_filter_b in He as [He Hue]. unfold usable_region in Hue. bsplit.
    exists e. destruct Hpr as (_ & ? & ?). by split_and!.
  - intros e He Hre. cbv zeta. rewrite Forall_forall in Hav. specialize (Hav e He Hre).
    destruct Hin as ([Hmap _] & _). rewrite Forall_forall in Hmap.
    destruct (Hmap e He) as (? & ? & ?). destruct Hre as [_ ?].
    assert (Hrv : reservation_ok (m_base e) (m_length e)) by (split_and!; [plia..|left; lia]).
    destruct (reserve_range _ _ Hrv) as (_ & _ & _ & _ & _ & _ & ?).
    unfold avoids in Hav. rewrite reserve_base_spec in * by plia. plia.
Qed.

(** [free_frames_count] is exact. In a reachable state with a page-aligned
    floor, [n] allocations in a row all succeed if and only if [n] is at most the
    count; the frames served are then pairwise distinct and held by nobody, and
    the count drops by [n]. *)
Theorem frame_count_exact (input : AllocPlanInput) (fa : FrameAllocator)
    (owned : gset Z) (n : nat) :
  input_ok input -> reachable input (fa, owned) -> page_aligned (floor fa) ->
  match alloc_many n fa with
  | Some (fa', ps) =>
      Z.of_nat n <= free_frames_count fa /\ length ps = n /\ NoDup ps /\
      Forall (fun p => p ∉ owned) ps /\
      free_frames_count fa' = free_frames_count fa - Z.of_nat n
  | None => free_frames_count fa < Z.of_nat n
  end.
Proof.
  intros Hin Hr Hf. apply (alloc_many_spec (planned input)); [|done].
  apply (reachable_inv _ _ Hin Hr).
Qed.

(** [reserve_region] removes exactly the pages of the rounded range. The
    in-place loop over the two arrays computes the structural function
    [reserve_list] on the live entries, and while a slot is left for a split, a
    page is still served by some region if and only if it was before and does not
    meet the range. *)
Theorem reserve_region_exact (fa : FrameAllocator) (b l : Z) :
  layout fa -> reservation_ok b l ->
  layout (reserve_region fa b l) /\
  entries (reserve_region fa b l)
    = reserve_list (region_count fa) (reserve_base b) (reserve_end b l) (entries fa) /\
  ((region_count fa < MAX_REGIONS)%nat ->
   forall p, pages (reserve_region fa b l) p <-> pages fa p /\ avoids b l p).
Proof.
  intros Hl Hr. destruct (reserve_region_entries fa b l Hl Hr). split; [done|]. split; [done|].
  intros Hc p. split; [by apply reserve_region_pages|].
  intros [? ?]. by apply reserve_region_keeps_page.
Qed.

(** returning frames, every branch. A held frame that fits on the stack comes
    back from the very next allocation with the allocator and its accounting
    restored; an address that is zero, misaligned or already on the stack (a
    double free) changes nothing, and so does any address when the stack is full. *)
Theorem free_frame_branches (fa : FrameAllocator) (a : Z) :
  PAGE_SIZE <= used_memory fa < U64 -> 0 <= a ->
  (a <> 0 -> page_aligned a -> a ∉ free_stack fa -> Z.of_nat (free_count fa) < FREE_STACK_SIZE ->
     alloc_frame (free_frame fa a) = (fa, Some a) /\
     used_memory (free_frame fa a) = used_memory fa - PAGE_SIZE) /\
  (a = 0 \/ ~ page_aligned a \/ a ∈ free_stack fa \/ FREE_STACK_SIZE <= Z.of_nat (free_count fa) ->
     free_frame fa a = fa).
Proof.
  intros Hu Ha.
  assert (Hmask : Z.land a (PAGE_SIZE_U64 - 1) = a mod 4096) by (apply (Z.land_ones a 12); lia).
  assert (Hex : existsb (Z.eqb a) (free_stack fa) = true <-> a ∈ free_stack fa).
  { rewrite existsb_exists, list_elem_of_In. split.
    - intros (x & Hx & Hax). bsplit. by subst.
    - intros H. exists a. by rewrite Z.eqb_refl. }
  unfold free_frame. rewrite Hmask. unfold page_aligned, PAGE_SIZE in *. split.
  - intros Hnz Hal Hni Hlt. rewrite Hal.
    rewrite (proj2 (Z.eqb_neq a 0) Hnz). simpl (negb _). cbv [orb].
    rewrite (not_true_is_false _ (fun H => Hni (proj1 Hex H))).
    rewrite (proj2 (Z.ltb_lt _ _) Hlt). unfold alloc_frame, book; simpl.
    unfold saturating_sub, PAGE_SIZE_U64. rewrite Z.max_l by lia.
    split; [|lia]. rewrite u64_add_small by (unfold PAGE_SIZE; word_lia).
    destruct fa; simpl. repeat f_equal. unfold PAGE_SIZE. lia.
  - intros H. case_if; [done|]. bsplit. case_if; [done|]. case_if; [|done].
    exfalso. destruct H as [?|[?|[Hs%Hex|?]]]; [lia|lia|congruence|lia].
Qed.

(** the rounding of [reserve_region] goes the wrong way at the end of the
    range. The length is added to the base already rounded down, so an unaligned
    reservation of whole pages ends short of the range asked for, by the offset of
    its base: bytes of the range stay allocatable. *)
Theorem reserve_unaligned_undercovers (b l : Z) :
  reservation_ok b l -> page_aligned l -> ~ page_aligned b ->
  reserve_end b l = reserve_base b + l /\ reserve_end b l < b + l.
Proof.
  intros Hr Hl Hb. rewrite (reserve_end_spec b l Hr). destruct Hr as (Hbr & ? & ?).
  rewrite (reserve_base_spec b Hbr). plia.
Qed.

(** the boot stack reservation of [plan_regions] covers the page the stack
    pointer is in exactly when that page has an even number: the mask
    [!PAGE_SIZE_U64] clears only bit 12 of the base, which moves the whole range
    one page down for odd pages. *)
Theorem boot_stack_page_reserved_iff (phys : Z) :
  BOOT_STACK_RESERVE <= phys <= PHYS_MAX - 0x100000 ->
  (~ avoids (boot_stack_base phys) (BOOT_STACK_RESERVE + PAGE_SIZE_U64) (phys - phys mod 4096))
  <-> (phys / 4096) mod 2 = 0.
Proof.
  intros Hp. assert (Hr : reservation_ok (boot_stack_base phys) (BOOT_STACK_RESERVE + PAGE_SIZE_U64)).
  { apply boot_stack_reservation_ok. unfold BOOT_STACK_RESERVE in *. lia. }
  unfold avoids. rewrite (reserve_end_spec _ _ Hr). destruct Hr as (Hb & _ & _).
  rewrite (reserve_base_spec _ Hb). clear Hb.
  unfold boot_stack_base, saturating_sub, BOOT_STACK_RESERVE, PAGE_SIZE_U64 in *.
  rewrite Z.max_l by lia. rewrite boot_stack_base_spec by plia. plia.
Qed.

(** a reservation above the physical range, such as the kernel image at its
    link address, leaves every region and the bump pointer as they were: it
    protects nothing. *)
Theorem reserve_above_memory_noop (U : Z -> Prop) (fa : FrameAllocator) (owned : gset Z) (b l : Z) :
  inv U fa owned -> PHYS_MAX + 4096 <= b -> 0 < l -> b + l + 8192 <= U64 ->
  live (reserve_region fa b l) = live fa /\ next_free (reserve_region fa b l) = next_free fa.
Proof.
  intros Hi Hb Hl Hmax. pose proof (inv_layout _ _ _ Hi) as Hlay.
  assert (Hr : reservation_ok b l) by (split_and!; [plia..|right; lia]).
  destruct (reserve_region_entries fa b l Hlay Hr) as [Hlay' He].
  destruct (reserve_range b l Hr) as (H0 & Hlt & _ & _ & _ & Hle & _).
  assert (Hbase : PHYS_MAX < reserve_base b) by (rewrite reserve_base_spec by plia; plia).
  split.
  - rewrite <- (entries_fst _ Hlay'), He, reserve_list_above; [by apply entries_fst|].
    eapply Forall_impl; [by apply entries_region_ok|]. intros x (? & ? & ?). lia.
  - unfold reserve_region. case_if; [done|]. destruct (reserve_loop _ _ _ _ _ _ _) as [[? ?] ?].
    simpl. pose proof (inv_next _ _ _ Hi). case_if; lia.
Qed.

(** [total_memory] counts regions that are gone. With one usable entry
    entirely covered by a reserved one the plan keeps no region and can serve
    nothing, yet reports all of it as total memory. *)
Theorem plan_total_memory_counts_stale :
  let fa := new [mkMemoryRegion 0x1000 0x4000 0; mkMemoryRegion 0x1000 0x4000 1] in
  region_count fa = 0%nat /\ total_memory fa = 0x4000 /\
  free_frames_count fa = 0 /\ alloc_frame fa = (fa, None).
Proof. vm_compute. done. Qed.

(** ** Witnesses: one usable entry of 4 MiB with a reserved page inside *)

Definition demo_input : AllocPlanInput :=
  {| memory_map := [mkMemoryRegion 0x100000 0x400000 0; mkMemoryRegion 0x200000 0x1000 1];
     kernel_image_base := 0; kernel_image_end := 0; boot_stack_phys := 0 |}.

Definition demo_fa : FrameAllocator := plan_regions (new []) demo_input.

Lemma demo_input_ok : input_ok demo_input.
Proof.
  split_and!; simpl; try (unfold PHYS_MAX; lia). split; simpl; [|by repeat constructor].
  repeat constructor; simpl; unfold PHYS_MAX; lia.
Qed.

Lemma frame_demo_reachable : reachable demo_input (demo_fa, ∅).
Proof. constructor. Qed.

Lemma frame_demo_inv : inv (planned demo_input) demo_fa ∅.
Proof. apply (reachable_inv _ _ demo_input_ok frame_demo_reachable). Qed.

Lemma demo_reservation : reservation_ok 0x180800 0x1000.
Proof. split_and!; [word_lia..|left; unfold PHYS_MAX; lia]. Qed.

Lemma frame_exclusive_witness :
  input_ok demo_input /\ alloc_frame demo_fa = (fst (alloc_frame demo_fa), Some 0x100000) /\
  0x100000 ∉ (∅ : gset Z) /\
  (0x100000 + 4096 <= 0x200000 \/ 0x200000 + 0x1000 <= 0x100000).
Proof.
  assert (Ha : alloc_frame demo_fa = (fst (alloc_frame demo_fa), Some 0x100000))
    by (vm_compute; reflexivity).
  split; [exact demo_input_ok|]. split; [exact Ha|].
  destruct (frame_exclusive demo_input demo_fa _ ∅ 0x100000 demo_input_ok frame_demo_reachable Ha)
    as (H1 & _ & _ & _ & H2).
  split; [exact H1|]. apply (H2 (mkMemoryRegion 0x200000 0x1000 1)).
  - apply elem_of_cons. right. apply elem_of_cons. by left.
  - split; simpl; lia.
Defined.

Lemma frame_count_exact_witness :
  page_aligned (floor demo_fa) /\ free_frames_count demo_fa = 1023 /\
  match alloc_many 2 demo_fa with
  | Some (fa', ps) => NoDup ps /\ free_frames_count fa' = 1023 - 2
  | None => False
  end.
Proof.
  assert (Hf : page_aligned (floor demo_fa)) by (vm_compute; reflexivity).
  assert (Hc : free_frames_count demo_fa = 1023) by (vm_compute; reflexivity).
  split; [exact Hf|]. split; [exact Hc|].
  pose proof (frame_count_exact demo_input demo_fa ∅ 2 demo_input_ok frame_demo_reachable Hf) as H.
  rewrite Hc in H. destruct (alloc_many 2 demo_fa) as [[fa' ps]|]; [|lia].
  destruct H as (_ & _ & H3 & _ & H5). split; [exact H3|]. exact H5.
Defined.

Lemma reserve_region_exact_witness :
  layout demo_fa /\ reservation_ok 0x180800 0x1000 /\
  ~ pages (reserve_region demo_fa 0x180800 0x1000) 0x180000.
Proof.
  pose proof (inv_layout _ _ _ frame_demo_inv) as Hl.
  split; [exact Hl|]. split; [exact demo_reservation|].
  destruct (reserve_region_exact demo_fa 0x180800 0x1000 Hl demo_reservation) as (_ & _ & H).
  intros Hp. apply H in Hp; [|vm_compute; lia]. destruct Hp as [_ Ha].
  unfold avoids in Ha. vm_compute in Ha. destruct Ha as [Ha|Ha]; by apply Ha.
Defined.

Lemma free_frame_branches_witness :
  let fa := fst (alloc_frame demo_fa) in
  alloc_frame (free_frame fa 0x100000) = (fa, Some 0x100000) /\ free_frame fa 0x100001 = fa.
Proof.
  intros fa. assert (Hu : PAGE_SIZE <= used_memory fa < U64) by (vm_compute; split; congruence).
  split.
  - apply (free_frame_branches fa 0x100000 Hu); [lia|lia|reflexivity|apply not_elem_of_nil|reflexivity].
  - apply (free_frame_branches fa 0x100001 Hu); [lia|]. right. left. vm_compute. congruence.
Defined.

Lemma reserve_unaligned_undercovers_witness :
  reservation_ok 0x180800 0x1000 /\ reserve_end 0x180800 0x1000 < 0x180800 + 0x1000.
Proof.
  split; [exact demo_reservation|].
  apply (reserve_unaligned_undercovers 0x180800 0x1000 demo_reservation);
    [reflexivity|vm_compute; congruence].
Defined.

Lemma boot_stack_page_reserved_iff_witness :
  (0x181000 / 4096) mod 2 = 1 /\
  ~ ~ avoids (boot_stack_base 0x181000) (BOOT_STACK_RESERVE + PAGE_SIZE_U64) 0x181000.
Proof.
  split; [reflexivity|]. intros H.
  apply (boot_stack_page_reserved_iff 0x181000) in H; [vm_compute in H; congruence|].
  unfold BOOT_STACK_RESERVE, PHYS_MAX. lia.
Defined.

Lemma reserve_above_memory_noop_witness :
  live (reserve_region demo_fa 0xffffffff80000000 0x200000) = live demo_fa.
Proof.
  apply (reserve_above_memory_noop _ demo_fa ∅ 0xffffffff80000000 0x200000 frame_demo_inv);
    unfold PHYS_MAX, U64; lia.
Defined.

End FrameProofs.
