(* ===== verification/Paging.v ===== *)
(** Page tables: [crates/zenus-mem/src/paging.rs].

    A page table is a page of physical memory with 512 entries of 64 bits.  The
    kernel reaches physical memory through the direct map at [HHDM_OFFSET], so a
    pointer [(phys + hhdm) as *mut u64] is the physical address here.  Physical
    memory is a map from the addresses of aligned 64-bit words to their values;
    the frames come from the allocator of FrameAlloc.v.  Translation caches are
    not modelled: every [invlpg] and CR3 write takes effect at once.

    The file has the raw table walks (translate, protect, unmap), the creation,
    cloning and destruction of address spaces; PagingProofs.v has the theorems. *)

From S2P Require Import Prelude FrameAlloc.

Notation PMem := (gmap Z Z).

Definition rd (m : PMem) (a : Z) : Z := default 0 (m !! a).

Definition ADDR_MASK : Z := 0x000FFFFFFFFFF000.

(** [*table.add(idx)] *)
Definition word (table : Z) (idx : nat) : Z := table + 8 * Z.of_nat idx.

Definition present (e : Z) : bool := negb (Z.land e 1 =? 0).
Definition writable (e : Z) : bool := negb (Z.land e 2 =? 0).
Definition huge (e : Z) : bool := negb (Z.land e 0x80 =? 0).

(** [entry & 0x000FFFFFFFFFF000] *)
Definition frame_of_entry (e : Z) : Z := Z.land e ADDR_MASK.

(** [cr3 & !0xFFF] *)
Definition cr3_table (cr3 : Z) : Z := Z.land cr3 (u64_not 0xFFF).

Definition index_at (virt shift : Z) : nat := Z.to_nat (Z.land (Z.shiftr virt shift) 0x1FF).

Definition LEVELS : list (nat * Z) := [(4%nat, 39); (3%nat, 30); (2%nat, 21); (1%nat, 12)].

(** ** Walks *)

Fixpoint translate_loop (m : PMem) (levels : list (nat * Z)) (table virt : Z) : option Z :=
  match levels with
  | [] => None
  | (level, shift) :: levels =>
      let entry := rd m (word table (index_at virt shift)) in
      if negb (present entry) then None
      else if huge entry && (1 <? level)%nat then
        let page_bits := Z.land entry 0x000FFFFFFFFFFFFF in
        let huge_mask := u64_not (Z.shiftl 1 shift - 1) in
        Some (Z.lor (Z.land page_bits huge_mask) (Z.land virt (u64_not huge_mask)))
      else
        let next := frame_of_entry entry in
        if (level =? 1)%nat then Some (Z.lor next (Z.land virt 0xFFF))
        else translate_loop m levels next virt
  end.

Definition virt_to_phys_raw (m : PMem) (cr3_raw virt : Z) : option Z :=
  translate_loop m LEVELS (cr3_table cr3_raw) virt.

(** The leaf entry as [protect_page_raw] rewrites it: bit 1 is writable, bit 63 is
    no-execute. *)
Definition protect_entry (entry : Z) (w x : bool) : Z :=
  let e := Z.land (Z.land entry (u64_not (Z.shiftl 1 1))) (u64_not (Z.shiftl 1 63)) in
  let e := if w then Z.lor e (Z.shiftl 1 1) else e in
  if negb x then Z.lor e (Z.shiftl 1 63) else e.

Fixpoint protect_loop (m : PMem) (levels : list (nat * Z)) (table virt : Z) (w x : bool) : bool * PMem :=
  match levels with
  | [] => (false, m)
  | (level, shift) :: levels =>
      let a := word table (index_at virt shift) in
      let entry := rd m a in
      if negb (present entry) then (false, m)
      else if (level =? 1)%nat then (true, <[a := protect_entry entry w x]> m)
      else protect_loop m levels (frame_of_entry entry) virt w x
  end.

Definition protect_page_raw (m : PMem) (cr3_raw virt : Z) (w x : bool) : bool * PMem :=
  protect_loop m LEVELS (cr3_table cr3_raw) virt w x.

Definition split_indices (virt : Z) : list nat :=
  [index_at virt 39; index_at virt 30; index_at virt 21; index_at virt 12].

(** The loop of both unmaps; the result is the cleared leaf entry. *)
Fixpoint unmap_loop (m : PMem) (level : nat) (idxs : list nat) (table : Z) : option Z * PMem :=
  match idxs with
  | [] => (None, m)
  | idx :: idxs =>
      let a := word table idx in
      let entry := rd m a in
      if negb (present entry) then (None, m)
      else if (level =? 3)%nat then (Some entry, <[a := 0]> m)
      else unmap_loop m (S level) idxs (frame_of_entry entry)
  end.

Definition unmap_page_raw_keep_frame (m : PMem) (cr3_raw virt : Z) : bool * PMem :=
  match unmap_loop m 0 (split_indices virt) (cr3_table cr3_raw) with
  | (Some _, m) => (true, m)
  | (None, m) => (false, m)
  end.

(** ** The state of the module *)

Definition MAX_FREED_CR3 : nat := 64.

Record Paging := {
  pmem : PMem;
  frames : FrameAllocator;
  HHDM_OFFSET : Z;
  LEVEL4_PHYS : Z;
  KERNEL_CR3 : Z;
  cr3 : Z;
  FREED_CR3_COUNT : Z;
  FREED_CR3_LIST : list Z;
}.

Definition with_mem (f : PMem -> PMem) (s : Paging) : Paging :=
  {| pmem := f (pmem s); frames := frames s; HHDM_OFFSET := HHDM_OFFSET s; LEVEL4_PHYS := LEVEL4_PHYS s;
     KERNEL_CR3 := KERNEL_CR3 s; cr3 := cr3 s; FREED_CR3_COUNT := FREED_CR3_COUNT s;
     FREED_CR3_LIST := FREED_CR3_LIST s |}.

Definition with_frames (fa : FrameAllocator) (s : Paging) : Paging :=
  {| pmem := pmem s; frames := fa; HHDM_OFFSET := HHDM_OFFSET s; LEVEL4_PHYS := LEVEL4_PHYS s;
     KERNEL_CR3 := KERNEL_CR3 s; cr3 := cr3 s; FREED_CR3_COUNT := FREED_CR3_COUNT s;
     FREED_CR3_LIST := FREED_CR3_LIST s |}.

Definition unmap_page_raw (cr3_raw virt : Z) (s : Paging) : bool * Paging :=
  match unmap_loop (pmem s) 0 (split_indices virt) (cr3_table cr3_raw) with
  | (Some entry, m) =>
      (true, with_frames (free_frame (frames s) (frame_of_entry entry)) (with_mem (fun _ => m) s))
  | (None, m) => (false, with_mem (fun _ => m) s)
  end.

(** Code that may run out of frames: [None] is the early return of [alloc_frame()?],
    which keeps what was done so far. *)
Definition P (A : Type) : Type := Paging -> option A * Paging.

#[global] Instance P_ret : MRet P := fun A a s => (Some a, s).
#[global] Instance P_bind : MBind P := fun A B k c s =>
  match c s with
  | (Some a, s) => k a s
  | (None, s) => (None, s)
  end.

Definition alloc : P Z := fun s =>
  let '(fa, r) := alloc_frame (frames s) in (r, with_frames fa s).

Definition get {A} (f : Paging -> A) : P A := fun s => (Some (f s), s).
Definition load (a : Z) : P Z := fun s => (Some (rd (pmem s) a), s).
Definition store (a v : Z) : P unit := fun s => (Some tt, with_mem <[a := v]> s).

Fixpoint for_each (idxs : list nat) (body : nat -> P unit) : P unit :=
  match idxs with
  | [] => mret tt
  | i :: idxs => body i ≫= fun _ => for_each idxs body
  end.

(** [write_bytes(dst, 0, n)] on words and [copy_nonoverlapping(src, dst, n)]. *)
Definition zero_words (dst : Z) (n : nat) : P unit :=
  for_each (seq 0 n) (fun i => store (word dst i) 0).

Definition copy_words (src dst : Z) (n : nat) : P unit :=
  for_each (seq 0 n) (fun i => load (word src i) ≫= fun v => store (word dst i) v).

(** ** Address spaces *)

Definition create_address_space : P Z :=
  get LEVEL4_PHYS ≫= fun cr3_phys =>
  alloc ≫= fun new_frame =>
  copy_words cr3_phys new_frame 512 ≫= fun _ =>
  zero_words new_frame 256 ≫= fun _ =>
  get cr3 ≫= fun flags =>
  mret (Z.lor new_frame (Z.land flags 0x18)).

(** One entry of a last-level table: a writable page is copied to a new frame, any
    other page is shared. *)
Definition clone_leaf (src dst : Z) (idx : nat) : P unit :=
  load (word src idx) ≫= fun entry =>
  if negb (present entry) then mret tt
  else if writable entry then
    alloc ≫= fun new_frame =>
    copy_words (frame_of_entry entry) new_frame 512 ≫= fun _ =>
    store (word dst idx) (Z.lor (cr3_table new_frame) (Z.land entry 0xFFF))
  else store (word dst idx) entry.

(** One entry of an upper-level table: a zeroed table is filled by [clone_child] and
    linked in with the flags of the source entry. *)
Definition clone_link (clone_child : Z -> Z -> P unit) (src dst : Z) (idx : nat) : P unit :=
  load (word src idx) ≫= fun entry =>
  if negb (present entry) then mret tt
  else
    alloc ≫= fun f =>
    let new := cr3_table f in
    zero_words new 512 ≫= fun _ =>
    clone_child (frame_of_entry entry) new ≫= fun _ =>
    store (word dst idx)
      (Z.lor (Z.lor (cr3_table new) (Z.land (Z.land (Z.land entry 0xFFF) 0xFFF) (u64_not 1))) 1).

Definition clone_pt (src dst : Z) : P unit := for_each (seq 0 512) (clone_leaf src dst).
Definition clone_pd (src dst : Z) : P unit := for_each (seq 0 512) (clone_link clone_pt src dst).
Definition clone_pdpt (src dst : Z) : P unit := for_each (seq 0 512) (clone_link clone_pd src dst).
Definition clone_pml4 (src dst : Z) : P unit := for_each (seq 0 256) (clone_link clone_pdpt src dst).

Definition clone_user_address_space (source_cr3_raw : Z) : P Z :=
  alloc ≫= fun f =>
  let source := cr3_table source_cr3_raw in
  let new_cr3_phys := cr3_table f in
  get KERNEL_CR3 ≫= fun kernel_cr3 =>
  zero_words new_cr3_phys 256 ≫= fun _ =>
  copy_words (cr3_table kernel_cr3) (word new_cr3_phys 256) 256 ≫= fun _ =>
  clone_pml4 source new_cr3_phys ≫= fun _ =>
  mret (Z.lor new_cr3_phys (Z.land source_cr3_raw 0x18)).

(** ** Destruction *)

Definition is_already_freed (s : Paging) (cr3_phys : Z) : bool :=
  existsb (Z.eqb cr3_phys) (take (Z.to_nat (Z.min (FREED_CR3_COUNT s) 64)) (FREED_CR3_LIST s)).

Definition mark_freed (cr3_phys : Z) (s : Paging) : Paging :=
  {| pmem := pmem s; frames := frames s; HHDM_OFFSET := HHDM_OFFSET s; LEVEL4_PHYS := LEVEL4_PHYS s;
     KERNEL_CR3 := KERNEL_CR3 s; cr3 := cr3 s;
     FREED_CR3_COUNT := u64_add (FREED_CR3_COUNT s) 1;
     FREED_CR3_LIST :=
       if FREED_CR3_COUNT s <? 64 then <[Z.to_nat (FREED_CR3_COUNT s) := cr3_phys]> (FREED_CR3_LIST s)
       else FREED_CR3_LIST s |}.

Definition set_cr3 (v : Z) (s : Paging) : Paging :=
  {| pmem := pmem s; frames := frames s; HHDM_OFFSET := HHDM_OFFSET s; LEVEL4_PHYS := LEVEL4_PHYS s;
     KERNEL_CR3 := KERNEL_CR3 s; cr3 := v; FREED_CR3_COUNT := FREED_CR3_COUNT s;
     FREED_CR3_LIST := FREED_CR3_LIST s |}.

(** [for off in (0..size).step_by(4096) { free_frame(base + off) }] *)
Definition free_range (base : Z) (n : nat) (fa : FrameAllocator) : FrameAllocator :=
  foldl (fun fa i => free_frame fa (u64_add base (4096 * Z.of_nat i))) fa (seq 0 n).

Definition free_pt_entry (m : PMem) (pt : Z) (fa : FrameAllocator) (idx : nat) : FrameAllocator :=
  let e := rd m (word pt idx) in
  if negb (present e) then fa else free_frame fa (frame_of_entry e).

Definition free_pd_entry (m : PMem) (pd : Z) (fa : FrameAllocator) (idx : nat) : FrameAllocator :=
  let e := rd m (word pd idx) in
  if negb (present e) then fa
  else if huge e then free_frame fa (frame_of_entry e)
  else free_frame (foldl (free_pt_entry m (frame_of_entry e)) fa (seq 0 512)) (frame_of_entry e).

Definition free_pdpt_entry (m : PMem) (pdpt : Z) (fa : FrameAllocator) (idx : nat) : FrameAllocator :=
  let e := rd m (word pdpt idx) in
  if negb (present e) then fa
  else if huge e then free_range (frame_of_entry e) 512 fa
  else free_frame (foldl (free_pd_entry m (frame_of_entry e)) fa (seq 0 512)) (frame_of_entry e).

Definition free_pml4_entry (m : PMem) (pml4 : Z) (fa : FrameAllocator) (idx : nat) : FrameAllocator :=
  let e := rd m (word pml4 idx) in
  if negb (present e) then fa
  else if huge e then free_range (frame_of_entry e) (Z.to_nat 262144) fa
  else free_frame (foldl (free_pdpt_entry m (frame_of_entry e)) fa (seq 0 512)) (frame_of_entry e).

Definition destroy_address_space (cr3_raw : Z) (s : Paging) : Paging :=
  let current := cr3_table (cr3 s) in
  let cr3_phys := cr3_table cr3_raw in
  let kernel := cr3_table (KERNEL_CR3 s) in
  if cr3_phys =? kernel then s
  else if cr3_phys =? 0 then s
  else if is_already_freed s cr3_phys then s
  else
    let s := mark_freed cr3_phys s in
    let s := if cr3_phys =? current then set_cr3 kernel s else s in
    let fa := foldl (free_pml4_entry (pmem s) cr3_phys) (frames s) (seq 0 256) in
    with_frames (free_frame fa cr3_phys) s.

(** ** The kernel's own tables *)

Definition US_BIT : Z := Z.shiftl 1 2.

(** One level of [ensure_kernel_pages_supervisor]: clear the bit in every present
    entry and go on below the entries that point to a table. *)
Definition strip_entry (below : PMem -> Z -> PMem) (table : Z) (m : PMem) (idx : nat) : PMem :=
  let a := word table idx in
  let e := rd m a in
  if negb (present e) then m
  else
    let m := <[a := Z.land e (u64_not US_BIT)]> m in
    if huge e then m else below m (frame_of_entry e).

Definition strip_leaf (table : Z) (m : PMem) (idx : nat) : PMem :=
  let a := word table idx in
  let e := rd m a in
  if negb (present e) then m else <[a := Z.land e (u64_not US_BIT)]> m.

Definition strip_pt (m : PMem) (table : Z) : PMem := foldl (strip_leaf table) m (seq 0 512).
Definition strip_pd (m : PMem) (table : Z) : PMem := foldl (strip_entry strip_pt table) m (seq 0 512).
Definition strip_pdpt (m : PMem) (table : Z) : PMem := foldl (strip_entry strip_pd table) m (seq 0 512).
Definition strip_pml4 (m : PMem) (table : Z) : PMem := foldl (strip_entry strip_pdpt table) m (seq 0 512).

Definition ensure_kernel_pages_supervisor (s : Paging) : Paging :=
  if HHDM_OFFSET s =? 0 then s
  else if cr3_table (KERNEL_CR3 s) =? 0 then s
  else with_mem (fun m => strip_pml4 m (cr3_table (KERNEL_CR3 s))) s.
