(* ===== verification/PagingProofs.v ===== *)
(** Theorems about the page tables of Paging.v. *)

From S2P Require Import Prelude FrameAlloc Paging.

(** ** Entries and words *)

Lemma frame_of_entry_spec e : frame_of_entry e = (e / 4096) mod 2 ^ 40 * 4096.
Proof.
  unfold frame_of_entry, ADDR_MASK.
  change 0x000FFFFFFFFFF000 with (Z.shiftl (Z.ones 40) 12).
  apply Z.bits_inj'. intros n Hn. rewrite Z.land_spec, Z.shiftl_spec by lia.
  change 4096 with (2 ^ 12). rewrite Z.mul_pow2_bits by lia.
  destruct (Z.ltb_spec n 12).
  - rewrite (Z.testbit_neg_r _ (n - 12)), andb_false_r by lia. by rewrite Z.testbit_neg_r by lia.
  - rewrite Z.testbit_ones_nonneg by lia. destruct (Z.ltb_spec (n - 12) 40).
    + rewrite Z.mod_pow2_bits_low, Z.div_pow2_bits by lia. rewrite andb_true_r. f_equal. lia.
    + rewrite Z.mod_pow2_bits_high, andb_false_r by lia. done.
Qed.

Lemma frame_of_entry_aligned e : page_aligned (frame_of_entry e).
Proof. rewrite frame_of_entry_spec. unfold page_aligned, PAGE_SIZE. apply Z_mod_mult. Qed.

Lemma cr3_table_aligned c : is_u64 c -> page_aligned (cr3_table c).
Proof. apply page_down_aligned. Qed.

Lemma index_lt virt shift : (index_at virt shift < 512)%nat.
Proof.
  unfold index_at. change 0x1FF with (Z.ones 9). rewrite Z.land_ones by lia.
  pose proof (Z.mod_pos_bound (Z.shiftr virt shift) (2 ^ 9) ltac:(lia)). lia.
Qed.

Lemma word_inj t t' i i' :
  page_aligned t -> page_aligned t' -> (i < 512)%nat -> (i' < 512)%nat ->
  word t i = word t' i' -> t = t' /\ i = i'.
Proof.
  unfold page_aligned, word, PAGE_SIZE. intros Ht Ht' Hi Hi' E.
  assert (t = t') as -> by (Z.div_mod_to_equations; lia). split; [done|lia].
Qed.

Lemma rd_insert_eq m a v : rd (<[a := v]> m) a = v.
Proof. unfold rd. by rewrite lookup_insert_eq. Qed.

Lemma rd_insert_ne m a b v : a <> b -> rd (<[a := v]> m) b = rd m b.
Proof. intros. unfold rd. by rewrite lookup_insert_ne. Qed.

(** ** What a walk depends on *)

(** Two entries that send a walk the same way. *)
Definition same_route (e e' : Z) : Prop :=
  present e' = present e /\ huge e' = huge e /\
  Z.land e' 0x000FFFFFFFFFF000 = Z.land e 0x000FFFFFFFFFF000.

#[global] Instance same_route_equiv : Equivalence same_route.
Proof.
  split.
  - intros e. done.
  - intros e e' (H1 & H2 & H3). done.
  - intros e e' e'' (H1 & H2 & H3) (K1 & K2 & K3). split_and!; congruence.
Qed.

Definition same_routes (m m' : PMem) : Prop := forall a, same_route (rd m a) (rd m' a).

(** The bits of an entry that a walk reads. *)
Definition route_bit (n : Z) : bool := (n =? 0) || (n =? 7) || (12 <=? n) && (n <? 52).

Lemma land_bit_eq e e' k :
  Z.testbit e' k = Z.testbit e k -> 0 <= k -> Z.land e' (2 ^ k) = Z.land e (2 ^ k).
Proof.
  intros E Hk. apply Z.bits_inj'. intros n Hn. rewrite !Z.land_spec, Z.pow2_bits_eqb by lia.
  destruct (Z.eqb_spec k n); [subst; by rewrite E|by rewrite !andb_false_r].
Qed.

Lemma same_route_bits e e' :
  (forall n, route_bit n = true -> Z.testbit e' n = Z.testbit e n) -> same_route e e'.
Proof.
  intros H. split_and!.
  - unfold present. change 1 with (2 ^ 0). by rewrite (land_bit_eq e e' 0) by (lia || by apply H).
  - unfold huge. change 0x80 with (2 ^ 7). by rewrite (land_bit_eq e e' 7) by (lia || by apply H).
  - change 0x000FFFFFFFFFF000 with (Z.shiftl (Z.ones 40) 12).
    apply Z.bits_inj'. intros n Hn. rewrite !Z.land_spec, Z.shiftl_spec by lia.
    destruct (Z.ltb_spec n 12); [by rewrite (Z.testbit_neg_r _ (n - 12)), !andb_false_r by lia|].
    rewrite Z.testbit_ones_nonneg by lia. destruct (Z.ltb_spec (n - 12) 40); [|by rewrite !andb_false_r].
    rewrite H; [done|]. unfold route_bit. rewrite (proj2 (Z.leb_le 12 n)), (proj2 (Z.ltb_lt n 52)) by lia.
    by rewrite orb_true_r.
Qed.

Lemma u64_not_testbit x n : is_u64 x -> 0 <= n -> Z.testbit (u64_not x) n = (n <? 64) && negb (Z.testbit x n).
Proof.
  intros Hx Hn. unfold u64_not. rewrite Z.lxor_spec.
  change U64_MAX with (Z.ones 64). rewrite Z.testbit_ones_nonneg by lia.
  destruct (Z.ltb_spec n 64); [by rewrite xorb_true_r|].
  rewrite xorb_false_r. apply (Z.bits_above_log2 x n); [apply Hx|].
  destruct (Z.eq_dec x 0) as [->|]; [simpl; lia|].
  apply Z.log2_lt_pow2; [unfold is_u64 in Hx; lia|].
  apply Z.lt_le_trans with (2 ^ 64); [apply Hx|]. by apply Z.pow_le_mono_r.
Qed.

Lemma huge_base e shift :
  12 <= shift <= 39 ->
  Z.land (Z.land e 0x000FFFFFFFFFFFFF) (u64_not (Z.shiftl 1 shift - 1)) =
  Z.land (frame_of_entry e) (u64_not (Z.shiftl 1 shift - 1)).
Proof.
  intros Hs. rewrite Z.shiftl_1_l. replace (2 ^ shift - 1) with (Z.ones shift) by (rewrite Z.ones_equiv; lia).
  assert (is_u64 (Z.ones shift)) as Hu.
  { rewrite Z.ones_equiv. pose proof (Z.pow_pos_nonneg 2 shift ltac:(lia) ltac:(lia)).
    pose proof (Z.pow_lt_mono_r 2 shift 64 ltac:(lia) ltac:(lia) ltac:(lia)). unfold is_u64, U64. lia. }
  unfold frame_of_entry, ADDR_MASK. change 0x000FFFFFFFFFFFFF with (Z.ones 52).
  change 0x000FFFFFFFFFF000 with (Z.shiftl (Z.ones 40) 12).
  apply Z.bits_inj'. intros n Hn.
  rewrite !Z.land_spec, u64_not_testbit, Z.shiftl_spec by (done || lia).
  rewrite (Z.testbit_ones_nonneg shift), (Z.testbit_ones_nonneg 52) by lia.
  destruct (Z.ltb_spec n shift) as [Hlt|Hge].
  - by rewrite !andb_false_r.
  - rewrite (Z.testbit_ones_nonneg 40 (n - 12)) by lia.
    destruct (Z.ltb_spec n 52), (Z.ltb_spec (n - 12) 40); try lia; done.
Qed.

Lemma translate_loop_routes m m' virt levels : forall table,
  same_routes m m' -> Forall (fun l => 12 <= l.2 <= 39) levels ->
  translate_loop m' levels table virt = translate_loop m levels table virt.
Proof.
  induction levels as [|[level shift] levels IH]; intros table H Hl; [done|].
  apply Forall_cons in Hl as [Hs Hl]. simpl in Hs. cbn [translate_loop].
  destruct (H (word table (index_at virt shift))) as (Hp & Hh & Hf).
  fold ADDR_MASK in Hf. rewrite Hp, Hh, !huge_base by done. unfold frame_of_entry. rewrite Hf.
  by rewrite IH.
Qed.

Lemma LEVELS_shifts : Forall (fun l => 12 <= l.2 <= 39) LEVELS.
Proof. repeat (apply Forall_cons; split; [simpl; lia|]). by apply Forall_nil. Qed.

Lemma translate_routes m m' c virt :
  same_routes m m' -> virt_to_phys_raw m' c virt = virt_to_phys_raw m c virt.
Proof. intros H. apply translate_loop_routes; [done|apply LEVELS_shifts]. Qed.

Lemma same_routes_insert m a e' : same_route (rd m a) e' -> same_routes m (<[a := e']> m).
Proof.
  intros H b. destruct (decide (a = b)) as [<-|]; [by rewrite rd_insert_eq|by rewrite rd_insert_ne].
Qed.

(** ** Changing the protection of a page *)

Lemma shiftl1_u64 n : 0 <= n < 64 -> is_u64 (Z.shiftl 1 n).
Proof.
  intros. rewrite Z.shiftl_1_l. pose proof (Z.pow_pos_nonneg 2 n ltac:(lia) ltac:(lia)).
  pose proof (Z.pow_lt_mono_r 2 n 64 ltac:(lia) ltac:(lia) ltac:(lia)). unfold is_u64, U64. lia.
Qed.

Lemma testbit_shiftl1 k n : 0 <= k -> Z.testbit (Z.shiftl 1 k) n = (k =? n).
Proof. intros. by rewrite Z.shiftl_1_l, Z.pow2_bits_eqb. Qed.

Lemma protect_entry_bits e w x n :
  is_u64 e -> 0 <= n ->
  Z.testbit (protect_entry e w x) n =
  if n =? 1 then w else if n =? 63 then negb x else Z.testbit e n.
Proof.
  intros He Hn. assert (Z.testbit e n = (n <? 64) && Z.testbit e n) as He'.
  { destruct (Z.ltb_spec n 64); [done|]. simpl.
    destruct (Z.eq_dec e 0) as [->|]; [by apply Z.bits_0|].
    apply Z.bits_above_log2; [apply He|].
    apply Z.log2_lt_pow2; [unfold is_u64 in He; lia|].
    apply Z.lt_le_trans with (2 ^ 64); [apply He|]. by apply Z.pow_le_mono_r. }
  unfold protect_entry.
  assert (Z.testbit (Z.land (Z.land e (u64_not (Z.shiftl 1 1))) (u64_not (Z.shiftl 1 63))) n =
    Z.testbit e n && negb (n =? 1) && negb (n =? 63)) as H0.
  { rewrite !Z.land_spec, !u64_not_testbit, !testbit_shiftl1 by (lia || by apply shiftl1_u64).
    rewrite (Z.eqb_sym 1 n), (Z.eqb_sym 63 n).
    rewrite He'. by destruct (n <? 64), (Z.testbit e n), (n =? 1), (n =? 63). }
  assert (forall y, Z.testbit (Z.lor y (Z.shiftl 1 1)) n = Z.testbit y n || (n =? 1)) as L1.
  { intros y. rewrite Z.lor_spec, testbit_shiftl1 by lia. by rewrite Z.eqb_sym. }
  assert (forall y, Z.testbit (Z.lor y (Z.shiftl 1 63)) n = Z.testbit y n || (n =? 63)) as L2.
  { intros y. rewrite Z.lor_spec, testbit_shiftl1 by lia. by rewrite Z.eqb_sym. }
  destruct w, x; simpl; rewrite ?L2, ?L1, H0;
    destruct (Z.eqb_spec n 1), (Z.eqb_spec n 63), (Z.testbit e n); try lia; done.
Qed.

Lemma protect_same_route e w x : is_u64 e -> same_route e (protect_entry e w x).
Proof.
  intros He. apply same_route_bits. intros n Hn. unfold route_bit in Hn. bsplit.
  assert (n = 0 \/ n = 7 \/ 12 <= n < 52) as Hn' by (destruct Hn as [[Hn|Hn]%orb_true_iff|Hn]; bsplit; lia).
  rewrite protect_entry_bits by (done || lia).
  rewrite (proj2 (Z.eqb_neq n 1)), (proj2 (Z.eqb_neq n 63)) by lia. done.
Qed.

(** Words of memory are 64 bits wide. *)
Definition mem_u64 (m : PMem) : Prop := forall a, is_u64 (rd m a).

Lemma protect_loop_spec w x virt levels : forall m table m',
  protect_loop m levels table virt w x = (true, m') ->
  exists a, present (rd m a) = true /\ m' = <[a := protect_entry (rd m a) w x]> m.
Proof.
  induction levels as [|[level shift] levels IH]; intros m table m'; cbn [protect_loop]; [done|].
  destruct (present _) eqn:Hp; simpl; [|done].
  destruct (level =? 1)%nat; [|by apply IH]. intros [= <-]. by eexists.
Qed.

(** [protect_page_raw] rewrites one present entry: bit 1 becomes the writable
    flag, bit 63 the no-execute flag, every other bit stays, and no address of any
    address space translates differently. *)
Theorem protect_changes_only_flags m m' c virt w x :
  mem_u64 m -> protect_page_raw m c virt w x = (true, m') ->
  (exists a, present (rd m a) = true /\ m' = <[a := protect_entry (rd m a) w x]> m /\
     forall n, 0 <= n -> Z.testbit (rd m' a) n =
       if n =? 1 then w else if n =? 63 then negb x else Z.testbit (rd m a) n) /\
  forall c' v, virt_to_phys_raw m' c' v = virt_to_phys_raw m c' v.
Proof.
  intros Hm Hp. destruct (protect_loop_spec _ _ _ _ _ _ _ Hp) as (a & Ha & ->). split.
  - exists a. split_and!; [done|done|]. intros n Hn. rewrite rd_insert_eq. by apply protect_entry_bits.
  - intros c' v. by apply translate_routes, same_routes_insert, protect_same_route.
Qed.

(** The words a walk reads, up to the first entry that is not present or maps a
    large page. *)
Fixpoint route (m : PMem) (levels : list (nat * Z)) (table virt : Z) : list Z :=
  match levels with
  | [] => []
  | (level, shift) :: levels =>
      let a := word table (index_at virt shift) in
      a :: if present (rd m a) && negb (huge (rd m a) && (1 <? level)%nat)
           then route m levels (frame_of_entry (rd m a)) virt else []
  end.

(** ** Unmapping *)

Module Unmap.

(** The table that a list of indices leads to, through entries that point to tables. *)
Fixpoint descend (m : PMem) (idxs : list nat) (table : Z) : option Z :=
  match idxs with
  | [] => Some table
  | i :: idxs =>
      let e := rd m (word table i) in
      if present e && negb (huge e) then descend m idxs (frame_of_entry e) else None
  end.

(** No table of the address space is linked in at two places. *)
Definition tree (m : PMem) (root : Z) : Prop :=
  forall p q t, (length p <= 3)%nat -> (length q <= 3)%nat -> Forall (fun i => i < 512)%nat p ->
    Forall (fun i => i < 512)%nat q -> descend m p root = Some t -> descend m q root = Some t -> p = q.

Definition indices (levels : list (nat * Z)) (virt : Z) : list nat := map (fun l => index_at virt l.2) levels.

(** Only the last level is level 1. *)
Fixpoint upper (levels : list (nat * Z)) : Prop :=
  match levels with
  | [] => True
  | (l, _) :: levels => (levels = [] \/ 1 < l)%nat /\ upper levels
  end.

Lemma indices_split virt : indices LEVELS virt = split_indices virt.
Proof. done. Qed.

Lemma indices_lt levels virt : Forall (fun i => i < 512)%nat (indices levels virt).
Proof. apply Forall_forall. intros i (l & -> & _)%list_elem_of_fmap. apply index_lt. Qed.

Lemma split_lt virt : Forall (fun i => i < 512)%nat (split_indices virt).
Proof. apply (indices_lt LEVELS). Qed.

Lemma LEVELS_upper : upper LEVELS.
Proof. cbn. split_and!; auto; right; lia. Qed.

Lemma descend_aligned m idxs : forall table t,
  page_aligned table -> descend m idxs table = Some t -> page_aligned t.
Proof.
  induction idxs as [|i idxs IH]; intros table t Ha Hd; [by injection Hd as <-|]. cbn in Hd.
  destruct (_ && _); [|done]. eapply IH, Hd. apply frame_of_entry_aligned.
Qed.

(** Each word a walk reads is an entry of the table that a prefix of its indices
    leads to. *)
Lemma route_descend m levels virt : forall table a,
  upper levels -> a ∈ route m levels table virt ->
  exists k i t, indices levels virt !! k = Some i /\ descend m (take k (indices levels virt)) table = Some t /\ a = word t i.
Proof.
  induction levels as [|[level shift] levels IH]; intros table a Hu Ha; [by apply not_elem_of_nil in Ha|].
  cbn [route] in Ha. set (e := rd m (word table (index_at virt shift))) in *.
  apply elem_of_cons in Ha as [->|Ha]; [by exists 0%nat, (index_at virt shift), table|].
  destruct Hu as [Hl Hu]. destruct (present e && _) eqn:E; [|by apply not_elem_of_nil in Ha]. bsplit.
  destruct Hl as [->|Hl]; [by apply not_elem_of_nil in Ha|]. apply Nat.ltb_lt in Hl.
  destruct H0 as [Hh|Hl']; [|congruence].
  destruct (IH _ _ Hu Ha) as (k & i & t & Hi & Hd & ->). exists (S k), i, t. split_and!; [done| |done].
  cbn. fold e. by rewrite H, Hh.
Qed.

Lemma translate_same m m' levels virt : forall table,
  (forall a, a ∈ route m levels table virt -> rd m' a = rd m a) ->
  translate_loop m' levels table virt = translate_loop m levels table virt.
Proof.
  induction levels as [|[level shift] levels IH]; intros table H; [done|]. cbn [translate_loop route] in *.
  rewrite (H (word table (index_at virt shift))) by left.
  destruct (present _) eqn:Hp; simpl; [|done]. destruct (huge _ && _) eqn:Hh; [done|].
  destruct (level =? 1)%nat; [done|]. apply IH. intros a Ha. apply H. by right.
Qed.

Lemma translate_same_below m m' level shift levels virt table table' :
  rd m' (word table' (index_at virt shift)) = rd m (word table (index_at virt shift)) ->
  (forall a, a ∈ tail (route m ((level, shift) :: levels) table virt) -> rd m' a = rd m a) ->
  translate_loop m' ((level, shift) :: levels) table' virt = translate_loop m ((level, shift) :: levels) table virt.
Proof.
  intros He H. cbn [translate_loop route tail] in *. rewrite He.
  destruct (present _) eqn:Hp; simpl; [|done]. destruct (huge _ && _) eqn:Hh; [done|].
  destruct (level =? 1)%nat; [done|]. by apply translate_same.
Qed.

Lemma descend_same m m' idxs : forall table,
  (forall k i t, idxs !! k = Some i -> descend m (take k idxs) table = Some t -> rd m' (word t i) = rd m (word t i)) ->
  descend m' idxs table = descend m idxs table.
Proof.
  induction idxs as [|i idxs IH]; intros table H; [done|]. cbn. rewrite (H 0%nat i table) by done.
  destruct (present _ && _) eqn:E; [|done]. apply IH. intros k j t Hk Hd. apply (H (S k) j t Hk).
  cbn. by rewrite E.
Qed.

(** With a last-level table, the translation is the one entry of that table. *)
Lemma translate_leaf m table virt pt :
  descend m (take 3 (split_indices virt)) table = Some pt ->
  translate_loop m LEVELS table virt =
    let e := rd m (word pt (index_at virt 12)) in
    if present e then Some (Z.lor (frame_of_entry e) (Z.land virt 0xFFF)) else None.
Proof.
  cbn. intros Hd. repeat (destruct (present _); [|done]; destruct (huge _); [done|]; cbn in *).
  injection Hd as ->. destruct (present _); [|done]. by rewrite andb_false_r.
Qed.

Lemma unmap_leaf m table virt pt :
  descend m (take 3 (split_indices virt)) table = Some pt ->
  unmap_loop m 0 (split_indices virt) table =
    let a := word pt (index_at virt 12) in
    if present (rd m a) then (Some (rd m a), <[a := 0]> m) else (None, m).
Proof.
  cbn. intros Hd. repeat (destruct (present _); [|done]; destruct (huge _); [done|]; cbn in *).
  injection Hd as ->. by destruct (present _).
Qed.

(** The leaf entry of [virt] is on no other walk of the address space. *)
Lemma leaf_private m root virt pt v k i t :
  tree m root -> page_aligned root -> descend m (take 3 (split_indices virt)) root = Some pt ->
  split_indices v !! k = Some i -> descend m (take k (split_indices v)) root = Some t ->
  word pt (index_at virt 12) = word t i -> split_indices v = split_indices virt /\ k = 3%nat.
Proof.
  intros Ht Ha Hd Hk Hdk Hw. pose proof (lookup_lt_Some _ _ _ Hk) as Hlk. cbn [split_indices length] in Hlk.
  destruct (word_inj pt t (index_at virt 12) i) as [-> <-]; [by eapply descend_aligned..| | |done|].
  { apply index_lt. } { exact (Forall_lookup_1 _ _ _ _ (split_lt v) Hk). }
  assert (take k (split_indices v) = take 3 (split_indices virt)) as Hp.
  { eapply Ht; [..|done|done]; [rewrite length_take; cbn; lia|done|apply Forall_take, split_lt..]. }
  assert (k = 3%nat) as ->. { apply (f_equal length) in Hp. rewrite length_take in Hp. cbn in Hp. lia. }
  split; [|done]. unfold split_indices in *. cbn in Hk, Hp. simplify_eq. congruence.
Qed.

(** C11: For a page reached through four levels of tables in an address space whose
    tables form a tree, [unmap_page_raw_keep_frame] answers whether the page was mapped, and
    afterwards the addresses of that page have no translation while every other
    address translates as before. *)
Theorem unmap_removes_one_page m m' c virt r pt :
  is_u64 c -> tree m (cr3_table c) -> descend m (take 3 (split_indices virt)) (cr3_table c) = Some pt ->
  unmap_page_raw_keep_frame m c virt = (r, m') ->
  (r = true <-> virt_to_phys_raw m c virt <> None) /\
  forall v, virt_to_phys_raw m' c v =
    if decide (split_indices v = split_indices virt) then None else virt_to_phys_raw m c v.
Proof.
  intros Hc Ht Hd Hu. pose proof (cr3_table_aligned c Hc) as Ha. set (root := cr3_table c) in *.
  unfold virt_to_phys_raw in *. fold root. unfold unmap_page_raw_keep_frame in Hu. fold root in Hu.
  rewrite (unmap_leaf _ _ _ _ Hd) in Hu. rewrite (translate_leaf _ _ _ _ Hd). cbn zeta in *.
  set (a := word pt (index_at virt 12)) in *.
  assert (forall v, split_indices v = split_indices virt -> descend m (take 3 (split_indices v)) root = Some pt /\
            index_at v 12 = index_at virt 12) as Hsame.
  { intros v Hv. rewrite Hv. split; [done|]. by injection Hv. }
  destruct (present (rd m a)) eqn:Hp; injection Hu as <- <-.
  - split; [done|]. intros v. destruct (decide _) as [Hv|Hv].
    + destruct (Hsame v Hv) as [Hdv Hi]. rewrite (translate_leaf _ _ _ pt).
      * cbn zeta. rewrite Hi. fold a. by rewrite rd_insert_eq.
      * rewrite <-Hdv. apply descend_same. intros k i t Hk Hdk. apply rd_insert_ne. intros Hw.
        apply lookup_take_Some in Hk as [Hk Hk3].
        rewrite take_take, Nat.min_l in Hdk by lia.
        destruct (leaf_private m root virt pt v k i t) as [_ ->]; try done. lia.
    + apply translate_same. intros b Hb. apply rd_insert_ne. intros <-.
      apply route_descend in Hb as (k & i & t & Hk & Hdk & Hw); [|apply LEVELS_upper].
      by destruct (leaf_private m root virt pt v k i t).
  - split; [done|]. intros v. destruct (decide _) as [Hv|Hv]; [|done].
    destruct (Hsame v Hv) as [Hdv Hi]. rewrite (translate_leaf _ _ _ pt Hdv). cbn zeta. rewrite Hi. fold a. by rewrite Hp.
Qed.

End Unmap.

(** ** Supervisor pages *)

Module Supervisor.

Definition strip (e : Z) : Z := Z.land e (u64_not US_BIT).

Lemma strip_bits e n : 0 <= n < 64 -> Z.testbit (strip e) n = Z.testbit e n && negb (n =? 2).
Proof.
  intros Hn. unfold strip, US_BIT. rewrite Z.land_spec, u64_not_testbit by (lia || by apply shiftl1_u64).
  rewrite testbit_shiftl1, (Z.eqb_sym 2 n) by lia. by rewrite (proj2 (Z.ltb_lt n 64)) by lia.
Qed.

Lemma strip_route e : same_route e (strip e).
Proof.
  apply same_route_bits. intros n Hn. unfold route_bit in Hn. bsplit.
  assert (n = 0 \/ n = 7 \/ 12 <= n < 52) as Hn' by (destruct Hn as [[Hn|Hn]%orb_true_iff|Hn]; bsplit; lia).
  rewrite strip_bits by lia. rewrite (proj2 (Z.eqb_neq n 2)) by lia. by rewrite andb_true_r.
Qed.

(** [m'] is [m] with the bit cleared in some words. *)
Definition stripped (m m' : PMem) : Prop :=
  forall a, same_route (rd m a) (rd m' a) /\ (Z.testbit (rd m a) 2 = false -> Z.testbit (rd m' a) 2 = false).

#[global] Instance stripped_preorder : PreOrder stripped.
Proof.
  split.
  - intros m a. by split.
  - intros m1 m2 m3 H1 H2 a. destruct (H1 a) as [R1 B1], (H2 a) as [R2 B2].
    split; [by etransitivity|auto].
Qed.

Lemma stripped_insert m a : stripped m (<[a := strip (rd m a)]> m).
Proof.
  intros b. destruct (decide (a = b)) as [<-|Hne].
  - rewrite rd_insert_eq. split; [apply strip_route|]. intros _. rewrite strip_bits by lia. apply andb_false_r.
  - by rewrite rd_insert_ne.
Qed.

(** No present entry below [table] has the user bit. *)
Definition supervisor (m : PMem) (levels : list (nat * Z)) (table : Z) : Prop :=
  forall virt a, a ∈ route m levels table virt -> present (rd m a) = true -> Z.testbit (rd m a) 2 = false.

Lemma route_stripped m m' levels virt : forall table,
  stripped m m' -> route m' levels table virt = route m levels table virt.
Proof.
  induction levels as [|[level shift] levels IH]; intros table H; [done|]. cbn [route].
  destruct (H (word table (index_at virt shift))) as [(Hp & Hh & Hf) _].
  rewrite Hp, Hh. unfold frame_of_entry, ADDR_MASK. rewrite Hf. by rewrite IH.
Qed.

Lemma supervisor_stripped m m' levels table :
  stripped m m' -> supervisor m levels table -> supervisor m' levels table.
Proof.
  intros H Hs virt a Ha Hp. rewrite (route_stripped m m') in Ha by done.
  destruct (H a) as [(Hpa & _) Hb]. apply Hb, (Hs virt a Ha). by rewrite <-Hpa.
Qed.

(** Entry [idx] of [table] and everything below it is done. *)
Definition entry_done (levels : list (nat * Z)) (table : Z) (m : PMem) (idx : nat) : Prop :=
  let e := rd m (word table idx) in
  present e = true -> Z.testbit e 2 = false /\ (huge e = false -> supervisor m levels (frame_of_entry e)).

Lemma entry_done_stripped levels table m m' idx :
  stripped m m' -> entry_done levels table m idx -> entry_done levels table m' idx.
Proof.
  intros H Hd Hp. destruct (H (word table idx)) as [(Hpr & Hh & Hf) Hb].
  rewrite Hpr in Hp. destruct (Hd Hp) as [H2 Hs]. split; [auto|]. rewrite Hh. intros Hnh.
  unfold frame_of_entry, ADDR_MASK. rewrite Hf. by apply (supervisor_stripped m), Hs.
Qed.

(** A pass over the entries of a table, when each step finishes its entry. *)
Lemma strip_fold (step : PMem -> nat -> PMem) levels table idxs : forall m,
  (forall m i, stripped m (step m i) /\ entry_done levels table (step m i) i) ->
  stripped m (foldl step m idxs) /\ forall i, i ∈ idxs -> entry_done levels table (foldl step m idxs) i.
Proof.
  induction idxs as [|i idxs IH]; intros m Hs; simpl.
  { split; [done|]. intros i Hi. by apply not_elem_of_nil in Hi. }
  destruct (Hs m i) as [S1 D1], (IH (step m i) Hs) as [S2 D2]. split; [by etransitivity|].
  intros k [->|Hk]%elem_of_cons; [|by apply D2]. by apply (entry_done_stripped _ _ (step m i)).
Qed.

Lemma supervisor_table level shift levels table m :
  (1 < level)%nat \/ levels = [] -> (forall i, (i < 512)%nat -> entry_done levels table m i) ->
  supervisor m ((level, shift) :: levels) table.
Proof.
  intros Hl Hd virt a Ha Hp. cbn [route] in Ha. set (i := index_at virt shift) in *.
  specialize (Hd i (index_lt virt shift)). apply elem_of_cons in Ha as [->|Ha]; [by apply Hd|].
  destruct (present (rd m (word table i)) && _) eqn:E; [|by apply not_elem_of_nil in Ha]. bsplit.
  destruct (Hd H) as [_ Hs]. destruct Hl as [Hl| ->]; [|by apply not_elem_of_nil in Ha].
  apply Nat.ltb_lt in Hl. destruct H0 as [H0|H0]; [|congruence]. by apply (Hs H0 virt).
Qed.

Lemma strip_entry_spec below levels table m i :
  (forall m t, stripped m (below m t) /\ supervisor (below m t) levels t) ->
  stripped m (strip_entry below table m i) /\ entry_done levels table (strip_entry below table m i) i.
Proof.
  intros Hb. unfold strip_entry. set (a := word table i). fold (strip (rd m a)).
  destruct (present (rd m a)) eqn:Hp; simpl; [|split; [done|intros Hc; unfold a in Hp; congruence]].
  set (m1 := <[a := strip (rd m a)]> m).
  assert (stripped m m1) as S1 by apply stripped_insert.
  assert (Z.testbit (rd m1 a) 2 = false) as B1.
  { unfold m1. rewrite rd_insert_eq, strip_bits by lia. apply andb_false_r. }
  destruct (S1 a) as [(Hp1 & Hh1 & Hf1) _].
  destruct (huge (rd m a)) eqn:Hh.
  - split; [done|]. intros _. split; [done|]. intros Hc. fold a in Hc. congruence.
  - destruct (Hb m1 (frame_of_entry (rd m a))) as [S2 D2]. split; [by etransitivity|].
    intros _. fold a. destruct (S2 a) as [(_ & _ & Hf2) B2]. split; [auto|]. intros _.
    assert (frame_of_entry (rd (below m1 (frame_of_entry (rd m a))) a) = frame_of_entry (rd m a)) as ->; [|done].
    unfold frame_of_entry, ADDR_MASK in *. congruence.
Qed.

Lemma strip_level below level shift levels m t :
  (1 < level)%nat -> (forall m t, stripped m (below m t) /\ supervisor (below m t) levels t) ->
  let m' := foldl (strip_entry below t) m (seq 0 512) in
  stripped m m' /\ supervisor m' ((level, shift) :: levels) t.
Proof.
  intros Hl Hb. destruct (strip_fold (strip_entry below t) levels t (seq 0 512) m) as [S D].
  { intros m1 i. by apply strip_entry_spec. }
  split; [done|]. apply supervisor_table; [by left|]. intros i Hi. apply D, elem_of_seq. lia.
Qed.

Lemma strip_pt_spec m t : stripped m (strip_pt m t) /\ supervisor (strip_pt m t) [(1%nat, 12)] t.
Proof.
  destruct (strip_fold (strip_leaf t) [] t (seq 0 512) m) as [S D].
  { intros m1 i. unfold strip_leaf. set (a := word t i). fold (strip (rd m1 a)).
    destruct (present (rd m1 a)) eqn:Hp; simpl; [|split; [done|intros Hc; unfold a in Hp; congruence]].
    split; [apply stripped_insert|]. intros _. fold a. rewrite rd_insert_eq. split.
    - rewrite strip_bits by lia. apply andb_false_r.
    - intros _ virt b Hb. by apply not_elem_of_nil in Hb. }
  split; [done|]. apply supervisor_table; [by right|]. intros i Hi. apply D, elem_of_seq. lia.
Qed.

Lemma strip_pml4_spec m t : stripped m (strip_pml4 m t) /\ supervisor (strip_pml4 m t) LEVELS t.
Proof.
  refine (strip_level strip_pdpt 4 39 _ m t _ _); [lia|]. intros m2 t2.
  refine (strip_level strip_pd 3 30 _ m2 t2 _ _); [lia|]. intros m3 t3.
  refine (strip_level strip_pt 2 21 _ m3 t3 _ _); [lia|]. apply strip_pt_spec.
Qed.

(** C23: After [ensure_kernel_pages_supervisor] no walk of the kernel's address space
    meets a present entry with the user bit, at any level, and every address of
    every address space translates as before. *)
Theorem kernel_pages_supervisor s :
  HHDM_OFFSET s <> 0 -> cr3_table (KERNEL_CR3 s) <> 0 ->
  let s' := ensure_kernel_pages_supervisor s in
  supervisor (pmem s') LEVELS (cr3_table (KERNEL_CR3 s)) /\
  forall c v, virt_to_phys_raw (pmem s') c v = virt_to_phys_raw (pmem s) c v.
Proof.
  intros Hh Hc. unfold ensure_kernel_pages_supervisor.
  rewrite (proj2 (Z.eqb_neq _ _) Hh), (proj2 (Z.eqb_neq _ _) Hc). cbn [with_mem pmem].
  destruct (strip_pml4_spec (pmem s) (cr3_table (KERNEL_CR3 s))) as [S D]. split; [done|].
  intros c v. apply translate_routes. intros a. apply S.
Qed.

End Supervisor.

(** ** Witnesses: a kernel table, and a user space with a writable and a read-only page *)

Module PagingDemo.

Definition demo_frames : list Z := [0x100000; 0x101000; 0x102000; 0x103000; 0x104000; 0x105000; 0x106000; 0x107000].

Definition demo_mem : PMem := list_to_map [
  (word 0x100000 1, 0x3000003); (word 0x100000 256, 0x107007);
  (word 0x101000 0, 0x102007); (word 0x102000 0, 0x103007); (word 0x103000 0, 0x104007);
  (word 0x104000 0, 0x8000000000105007); (word 0x104000 1, 0x106005);
  (word 0x105000 0, 0x1122334455667788); (word 0x106000 3, 42)].

(** Eight frames are in use. *)
Definition demo_alloc : FrameAllocator :=
  match FrameProofs.alloc_many 8 FrameProofs.demo_fa with
  | Some (fa, _) => fa
  | None => FrameProofs.demo_fa
  end.

Definition demo_paging : Paging :=
  {| pmem := demo_mem; frames := demo_alloc; HHDM_OFFSET := 0xFFFF800000000000; LEVEL4_PHYS := 0x100000;
     KERNEL_CR3 := 0x100000; cr3 := 0x100000; FREED_CR3_COUNT := 0; FREED_CR3_LIST := replicate 64 0 |}.

Definition demo_cr3 : Z := 0x101000.

Lemma demo_mem_u64 : mem_u64 demo_mem.
Proof.
  assert (map_Forall (fun _ v => is_u64 v) demo_mem) as H.
  { apply map_Forall_to_list. unfold demo_mem. apply (bool_decide_unpack _). vm_compute. exact I. }
  intros a. unfold rd. destruct (demo_mem !! a) as [v|] eqn:E; [exact (H a v E)|]. unfold is_u64, U64. cbn. lia.
Qed.

(** Every path of at most [n] indices with the table it leads to. *)
Fixpoint paths (m : PMem) (n : nat) (table : Z) : list (list nat * Z) :=
  ([], table) ::
  match n with
  | O => []
  | S n => flat_map (fun i => let e := rd m (word table i) in
      if present e && negb (huge e) then map (fun x => (i :: x.1, x.2)) (paths m n (frame_of_entry e)) else []) (seq 0 512)
  end.

Lemma paths_complete m p : forall n table t,
  (length p <= n)%nat -> Forall (fun i => i < 512)%nat p -> Unmap.descend m p table = Some t -> (p, t) ∈ paths m n table.
Proof.
  induction p as [|i p IH]; intros n table t Hl Hf Hd; [injection Hd as ->; destruct n; by left|].
  destruct n as [|n]; [cbn in Hl; lia|]. cbn [Unmap.descend] in Hd. apply Forall_cons in Hf as [Hi Hf].
  cbn [paths]. right. apply list_elem_of_In, in_flat_map. exists i. split; [apply in_seq; lia|]. cbn zeta.
  destruct (_ && _); [|done]. apply in_map_iff. exists (p, t). split; [done|].
  apply list_elem_of_In, IH; [cbn in Hl; lia|done|done].
Qed.

Lemma tree_paths m root : NoDup (map snd (paths m 3 root)) -> Unmap.tree m root.
Proof.
  intros Hd p q t Hp Hq Hfp Hfq Ep Eq.
  apply (paths_complete m p 3) in Ep; [|done..]. apply (paths_complete m q 3) in Eq; [|done..].
  apply list_elem_of_lookup in Ep as [k Hk], Eq as [l Hl].
  assert (k = l) as -> by (eapply (NoDup_lookup _ k l t Hd); rewrite list_lookup_fmap; [by rewrite Hk|by rewrite Hl]).
  congruence.
Qed.

Lemma demo_tree : Unmap.tree demo_mem (cr3_table demo_cr3).
Proof.
  apply tree_paths. assert (map snd (paths demo_mem 3 (cr3_table demo_cr3)) = [0x101000; 0x102000; 0x103000; 0x104000]) as ->
    by (vm_compute; reflexivity).
  apply (bool_decide_unpack _). vm_compute. exact I.
Qed.

Lemma protect_changes_only_flags_witness :
  exists m', protect_page_raw demo_mem demo_cr3 0 false false = (true, m') /\
    virt_to_phys_raw m' demo_cr3 0x1008 = Some 0x106008 /\ rd m' (word 0x104000 0) = 0x8000000000105005.
Proof.
  exists (<[word 0x104000 0 := 0x8000000000105005]> demo_mem).
  assert (protect_page_raw demo_mem demo_cr3 0 false false =
    (true, <[word 0x104000 0 := 0x8000000000105005]> demo_mem)) as E by (vm_compute; reflexivity).
  destruct (protect_changes_only_flags demo_mem _ demo_cr3 0 false false demo_mem_u64 E) as [_ H].
  split; [exact E|]. rewrite H. split; vm_compute; reflexivity.
Defined.

Lemma unmap_removes_one_page_witness :
  exists m', unmap_page_raw_keep_frame demo_mem demo_cr3 0x10 = (true, m') /\
    virt_to_phys_raw m' demo_cr3 0x20 = None /\ virt_to_phys_raw m' demo_cr3 0x1008 = Some 0x106008.
Proof.
  exists (<[word 0x104000 0 := 0]> demo_mem).
  assert (unmap_page_raw_keep_frame demo_mem demo_cr3 0x10 = (true, <[word 0x104000 0 := 0]> demo_mem)) as E
    by (vm_compute; reflexivity).
  assert (is_u64 demo_cr3) as Hc by (unfold is_u64, demo_cr3, U64; lia).
  destruct (Unmap.unmap_removes_one_page demo_mem (<[word 0x104000 0 := 0]> demo_mem) demo_cr3 0x10 true 0x104000 Hc demo_tree) as [_ H];
    [vm_compute; reflexivity|exact E|].
  split; [exact E|]. rewrite !H. split; vm_compute; reflexivity.
Defined.

Lemma kernel_pages_supervisor_witness :
  HHDM_OFFSET demo_paging <> 0 /\
  virt_to_phys_raw (pmem (ensure_kernel_pages_supervisor demo_paging)) demo_cr3 0x1008 = Some 0x106008.
Proof.
  split; [vm_compute; discriminate|].
  destruct (Supervisor.kernel_pages_supervisor demo_paging) as [_ H]; [vm_compute; discriminate..|].
  rewrite H. vm_compute. reflexivity.
Defined.

End PagingDemo.
