(* ===== verification/PagingClone.v ===== *)
(** [clone_user_address_space] of Paging.v makes a copy.

    Programs that allocate are reasoned about by [run]: the frames owned so far and
    the pages written are explicit, and the number of frames needed is exact, so a
    program returns a result if and only if the allocator has that many left. *)

From S2P Require Import Prelude FrameAlloc Paging PagingProofs.

(** ** Pages and entries *)

Definition page_of (a : Z) : Z := a - a mod 4096.

Lemma page_of_word t i : page_aligned t -> (i < 512)%nat -> page_of (word t i) = t.
Proof. unfold page_of, word, page_aligned, PAGE_SIZE. intros. Z.div_mod_to_equations; lia. Qed.

Definition good_frame (f : Z) : Prop := page_aligned f /\ 0 <= f < FrameProofs.PHYS_MAX.

Lemma cr3_table_frame f : good_frame f -> cr3_table f = f.
Proof.
  intros [Ha Hr]. unfold FrameProofs.PHYS_MAX in Hr. apply page_down_id; [|done]. unfold is_u64, U64. lia.
Qed.

Lemma frame_of_entry_frame f x : good_frame f -> 0 <= x < 4096 -> frame_of_entry (Z.lor f x) = f.
Proof.
  intros [Ha Hr] Hx. unfold FrameProofs.PHYS_MAX, page_aligned, PAGE_SIZE in *.
  unfold frame_of_entry. rewrite Z.land_lor_distr_l. fold (frame_of_entry f) (frame_of_entry x).
  rewrite !frame_of_entry_spec, (Z.div_small x 4096), Z.lor_0_r by lia. Z.div_mod_to_equations; lia.
Qed.

Lemma frame_low_bit f n : good_frame f -> 0 <= n < 12 -> Z.testbit f n = false.
Proof.
  intros [Ha _] Hn. unfold page_aligned, PAGE_SIZE in Ha.
  rewrite (Z.div_mod f 4096), Ha, Z.add_0_r, Z.mul_comm by lia. change 4096 with (2 ^ 12).
  apply Z.mul_pow2_bits_low. lia.
Qed.

(** The entry that links a copy in: the frame of the copy, the low flags of the
    original. *)
Definition with_flags (f e : Z) : Z := Z.lor f (Z.land e 0xFFF).

Lemma with_flags_bit f e n : good_frame f -> 0 <= n < 12 -> Z.testbit (with_flags f e) n = Z.testbit e n.
Proof.
  intros Hf Hn. unfold with_flags. change 0xFFF with (Z.ones 12).
  rewrite Z.lor_spec, Z.land_spec, frame_low_bit, Z.testbit_ones_nonneg by (done || lia).
  rewrite (proj2 (Z.ltb_lt n 12)) by lia. apply andb_true_r.
Qed.

Lemma land_low e : 0 <= Z.land e 0xFFF < 4096.
Proof. change 0xFFF with (Z.ones 12). rewrite Z.land_ones by lia. apply Z.mod_pos_bound. lia. Qed.

Lemma with_flags_frame f e : good_frame f -> frame_of_entry (with_flags f e) = f.
Proof. intros Hf. apply frame_of_entry_frame; [done|apply land_low]. Qed.

Lemma flag_bit e k : 0 <= k -> negb (Z.land e (Z.shiftl 1 k) =? 0) = Z.testbit e k.
Proof.
  intros Hk. destruct (Z.testbit e k) eqn:E.
  - apply negb_true_iff, Z.eqb_neq. intros H. apply (f_equal (fun x => Z.testbit x k)) in H.
    rewrite Z.land_spec, testbit_shiftl1, Z.eqb_refl, E, Z.bits_0 in H by lia. done.
  - apply negb_false_iff, Z.eqb_eq, Z.bits_inj'. intros n Hn.
    rewrite Z.land_spec, testbit_shiftl1, Z.bits_0 by lia. destruct (Z.eqb_spec k n) as [<-|]; [by rewrite E|apply andb_false_r].
Qed.

Lemma present_bit e : present e = Z.testbit e 0.
Proof. apply (flag_bit e 0). lia. Qed.

Lemma writable_bit e : writable e = Z.testbit e 1.
Proof. apply (flag_bit e 1). lia. Qed.

Lemma huge_bit e : huge e = Z.testbit e 7.
Proof. apply (flag_bit e 7). lia. Qed.

Lemma with_flags_present f e : good_frame f -> present (with_flags f e) = present e.
Proof. intros. rewrite !present_bit. by apply with_flags_bit. Qed.

Lemma with_flags_huge f e : good_frame f -> huge (with_flags f e) = huge e.
Proof. intros. rewrite !huge_bit. by apply with_flags_bit. Qed.

(** A copy loses every flag above bit 51, the no-execute bit 63 among them. *)
Lemma with_flags_high f e n : good_frame f -> 52 <= n -> Z.testbit (with_flags f e) n = false.
Proof.
  intros [_ Hr] Hn. unfold FrameProofs.PHYS_MAX in Hr.
  pose proof (land_low e). unfold with_flags. rewrite Z.lor_spec.
  assert (forall x, 0 <= x < 2 ^ 52 -> Z.testbit x n = false) as Hx; [|rewrite !Hx; [done|lia|lia]].
  intros x Hx. destruct (decide (x = 0)) as [->|]; [apply Z.bits_0|].
  apply Z.bits_above_log2; [lia|]. apply Z.log2_lt_pow2; [lia|].
  assert (2 ^ 52 <= 2 ^ n) by (apply Z.pow_le_mono_r; lia). lia.
Qed.

(** What [clone_link] writes. *)
Lemma link_with_flags f e :
  good_frame f -> present e = true ->
  Z.lor (Z.lor (cr3_table f) (Z.land (Z.land (Z.land e 0xFFF) 0xFFF) (u64_not 1))) 1 = with_flags f e.
Proof.
  intros Hf Hp. rewrite cr3_table_frame by done. rewrite present_bit in Hp. unfold with_flags.
  rewrite <-Z.lor_assoc. f_equal. apply Z.bits_inj'. intros n Hn. change 0xFFF with (Z.ones 12).
  rewrite Z.lor_spec, !Z.land_spec, Z.testbit_ones_nonneg, u64_not_testbit by (lia || done).
  change 1 with (Z.shiftl 1 0) at 1 2. rewrite testbit_shiftl1 by lia.
  destruct (Z.eqb_spec 0 n) as [<-|].
  - by rewrite Hp.
  - destruct (Z.ltb_spec n 12); [|by rewrite !andb_false_r].
    rewrite (proj2 (Z.ltb_lt n 64)) by lia. by rewrite !andb_true_r, orb_false_r.
Qed.

(** ** Programs that allocate *)

Section run.
Context (U : Z -> Prop).

Definition owns (O : gset Z) (s : Paging) : Prop :=
  FrameProofs.inv U (frames s) O /\ page_aligned (floor (frames s)).

Definition free (s : Paging) : Z := free_frames_count (frames s).

(** Memory is unchanged on the pages of [O] that are not in [W]. *)
Definition keeps (O W : gset Z) (m m' : PMem) : Prop :=
  forall a, page_of a ∈ O -> page_of a ∉ W -> rd m' a = rd m a.

(** From [s], where the pages of [O] are in use, [c] needs exactly [n] frames; it
    writes no page of [O] outside [W], and a result satisfies [Q]. *)
Definition run {A} (W : gset Z) (n : Z) (O : gset Z) (s : Paging) (c : P A)
    (Q : A -> gset Z -> Paging -> Prop) : Prop :=
  owns O s -> exists O', O ⊆ O' /\ owns O' (c s).2 /\ keeps O W (pmem s) (pmem (c s).2) /\
  match (c s).1 with
  | Some x => free (c s).2 = free s - n /\ Q x O' (c s).2
  | None => free s < n
  end.

Lemma keeps_trans O O1 W W1 m m1 m2 :
  O ⊆ O1 -> (forall p, p ∈ W1 -> p ∈ W \/ p ∉ O) -> keeps O W m m1 -> keeps O1 W1 m1 m2 -> keeps O W m m2.
Proof.
  intros HO HW H1 H2 a Ha Hw. rewrite (H2 a), (H1 a); [done..|set_solver|]. intros Hc.
  destruct (HW _ Hc); done.
Qed.

(** The rest may also write the pages allocated so far. *)
Lemma run_bind {A B} W n1 n2 O s (c : P A) (k : A -> P B) Q1 Q :
  run W n1 O s c Q1 -> 0 <= n2 ->
  (forall x O1 s1, O ⊆ O1 -> owns O1 s1 -> keeps O W (pmem s) (pmem s1) -> Q1 x O1 s1 ->
    exists W1, (forall p, p ∈ W1 -> p ∈ W \/ p ∉ O) /\ run W1 n2 O1 s1 (k x) Q) ->
  run W (n1 + n2) O s (c ≫= k) Q.
Proof.
  intros Hc Hn Hk Ho. unfold mbind, P_bind. destruct (Hc Ho) as (O1 & HO & Ho1 & Hke & Hm).
  destruct (c s) as [[x|] s1]; cbn in Ho1, Hke, Hm.
  - destruct Hm as [Hf Hq]. destruct (Hk x O1 s1 HO Ho1 Hke Hq) as (W1 & HW & Hr).
    destruct (Hr Ho1) as (O2 & HO2 & Ho2 & Hke2 & Hm2).
    exists O2. split_and!; [by etransitivity|done|by eapply keeps_trans|].
    destruct (k x s1).1; [|lia]. destruct Hm2. split; [lia|done].
  - exists O1. split_and!; [done..|]. cbn. lia.
Qed.

Lemma run_seq {A B} W n1 n2 O s (c : P A) (k : A -> P B) Q1 Q :
  run W n1 O s c Q1 -> 0 <= n2 ->
  (forall x O1 s1, O ⊆ O1 -> owns O1 s1 -> keeps O W (pmem s) (pmem s1) -> Q1 x O1 s1 -> run W n2 O1 s1 (k x) Q) ->
  run W (n1 + n2) O s (c ≫= k) Q.
Proof.
  intros Hc Hn Hk. refine (run_bind W n1 n2 O s c k Q1 Q Hc Hn _).
  intros x O1 s1 HO Ho Hke HQ. exists W. split; [by left|by apply Hk].
Qed.

Lemma run_imp {A} W n n' O s (c : P A) (Q Q' : A -> gset Z -> Paging -> Prop) :
  n = n' -> run W n O s c Q ->
  (forall x O' s', O ⊆ O' -> owns O' s' -> keeps O W (pmem s) (pmem s') -> Q x O' s' -> Q' x O' s') ->
  run W n' O s c Q'.
Proof.
  intros <- Hr HQ Ho. destruct (Hr Ho) as (O' & HO & Ho' & Hke & Hm). exists O'. split_and!; [done..|].
  destruct (c s).1; [|done]. destruct Hm. split; [done|]. by apply HQ.
Qed.

Lemma run_weaken {A} W W' n O s (c : P A) Q : W ⊆ W' -> run W n O s c Q -> run W' n O s c Q.
Proof.
  intros HW Hr Ho. destruct (Hr Ho) as (O' & HO & Ho' & Hke & Hm). exists O'. split_and!; [done..| |done].
  intros a Ha Hw. apply Hke; [done|]. intros Hc. apply Hw, HW, Hc.
Qed.

Lemma run_ret {A} W O s (x : A) Q : Q x O s -> run W 0 O s (mret x) Q.
Proof. intros HQ Ho. exists O. cbn. split_and!; [done|done|by intros a|lia|done]. Qed.

Lemma run_alloc W O s :
  run W 1 O s alloc (fun p O1 s1 => p ∉ O /\ good_frame p /\ O1 = {[p]} ∪ O /\ pmem s1 = pmem s /\
    KERNEL_CR3 s1 = KERNEL_CR3 s /\ cr3 s1 = cr3 s).
Proof.
  intros [Hi Hf]. pose proof (FrameProofs.free_frames_count_step U _ _ Hi Hf) as Hst.
  unfold run, alloc, free, owns. destruct (alloc_frame (frames s)) as [fa [p|]] eqn:E; cbn.
  - destruct Hst as [Hc Hfl]. apply (FrameProofs.alloc_frame_inv U) with (owned := O) in E as (Hno & Ha & Hr & _ & Hi'); [|done].
    exists ({[p]} ∪ O). split_and!; [set_solver|done|by rewrite Hfl|by intros a|lia|done..].
  - apply FrameProofs.alloc_frame_None in E as ->. exists O. split_and!; [done..|by intros a|lia].
Qed.

(** A program that only writes memory. *)
Lemma run_mem {A} W O s (c : P A) x m' (Q : A -> gset Z -> Paging -> Prop) :
  c s = (Some x, with_mem (fun _ => m') s) -> keeps O W (pmem s) m' ->
  Q x O (with_mem (fun _ => m') s) -> run W 0 O s c Q.
Proof. intros Hc Hk HQ Ho. rewrite Hc. exists O. cbn. split_and!; [done|done|done|unfold free; cbn; lia|done]. Qed.

Lemma run_get {A B} W n O s (f : Paging -> A) (k : A -> P B) Q :
  run W n O s (k (f s)) Q -> run W n O s (get f ≫= k) Q.
Proof. done. Qed.

Lemma run_load {B} W n O s a (k : Z -> P B) Q :
  run W n O s (k (rd (pmem s) a)) Q -> run W n O s (load a ≫= k) Q.
Proof. done. Qed.

Lemma run_store W O s a v (Q : unit -> gset Z -> Paging -> Prop) :
  page_of a ∈ W -> Q tt O (with_mem <[a := v]> s) -> run W 0 O s (store a v) Q.
Proof.
  intros Ha HQ. apply (run_mem _ _ _ _ tt (<[a := v]> (pmem s))); [done| |done].
  intros b _ Hb. apply rd_insert_ne. by intros ->.
Qed.

Definition total_need (need : nat -> Z) (idxs : list nat) : Z := foldr (fun i t => need i + t) 0 idxs.

Lemma total_need_nonneg need idxs : (forall i, 0 <= need i) -> 0 <= total_need need idxs.
Proof. unfold total_need. intros H. induction idxs as [|i idxs IH]; cbn; [lia|]. specialize (H i). lia. Qed.

Lemma run_for_each W need (I : list nat -> gset Z -> Paging -> Prop) O s (body : nat -> P unit) idxs :
  (forall i, 0 <= need i) -> I [] O s ->
  (forall pre i post O1 s1, idxs = pre ++ i :: post -> O ⊆ O1 -> owns O1 s1 ->
    keeps O W (pmem s) (pmem s1) -> I pre O1 s1 ->
    run W (need i) O1 s1 (body i) (fun _ => I (pre ++ [i]))) ->
  run W (total_need need idxs) O s (for_each idxs body) (fun _ => I idxs).
Proof.
  intros Hn HI Hb.
  enough (forall post pre O1 s1, idxs = pre ++ post -> O ⊆ O1 -> keeps O W (pmem s) (pmem s1) -> I pre O1 s1 ->
    run W (total_need need post) O1 s1 (for_each post body) (fun _ => I idxs)) as H.
  { apply (H idxs []); [done..|by intros a|done]. }
  induction post as [|i post IH]; intros pre O1 s1 E HO Hk Hpre; cbn [for_each total_need foldr].
  { apply run_ret. by rewrite E, app_nil_r. }
  refine (run_seq W _ _ O1 s1 _ _ (fun _ => I (pre ++ [i])) _ _ _ _); [|by apply total_need_nonneg|].
  { intros Ho. by apply (Hb pre i post O1 s1 E HO Ho Hk Hpre). }
  intros _ O2 s2 HO2 Ho2 Hk2 HI2. apply (IH (pre ++ [i])); [by rewrite <-app_assoc|by etransitivity| |done].
  eapply keeps_trans; [exact HO|by left|exact Hk|exact Hk2].
Qed.

End run.

(** ** Filling a page *)

Lemma word_eq t i j : word t i = word t j -> i = j.
Proof. unfold word. lia. Qed.

Lemma fold_write (g : PMem -> nat -> Z) dst idxs : forall m,
  NoDup idxs -> (forall m i j v, i ∈ idxs -> j ∈ idxs -> g (<[word dst j := v]> m) i = g m i) ->
  let m' := foldl (fun m i => <[word dst i := g m i]> m) m idxs in
  (forall i, i ∈ idxs -> rd m' (word dst i) = g m i) /\
  (forall a, (forall i, i ∈ idxs -> a <> word dst i) -> rd m' a = rd m a).
Proof.
  induction idxs as [|k idxs IH]; intros m Hd Hg; cbn.
  { split; [|done]. intros i Hi. by apply not_elem_of_nil in Hi. }
  apply NoDup_cons in Hd as [Hk Hd]. destruct (IH (<[word dst k := g m k]> m) Hd) as [H1 H2].
  { intros m1 i j v Hi Hj. apply Hg; by right. }
  split.
  - intros i [->|Hi]%elem_of_cons.
    + rewrite H2, rd_insert_eq; [done|]. intros i Hi E%word_eq. by subst.
    + rewrite H1 by done. by apply Hg; [right|left].
  - intros a Ha. rewrite H2, rd_insert_ne; [done| |]; [intros E; by apply (Ha k); [left|]|].
    intros i Hi. apply Ha. by right.
Qed.

Lemma for_each_write (g : PMem -> nat -> Z) dst (body : nat -> P unit) idxs : forall s,
  (forall i s, body i s = (Some tt, with_mem (fun _ => <[word dst i := g (pmem s) i]> (pmem s)) s)) ->
  for_each idxs body s =
    (Some tt, with_mem (fun _ => foldl (fun m i => <[word dst i := g m i]> m) (pmem s) idxs) s).
Proof.
  intros s Hb. revert s. induction idxs as [|i idxs IH]; intros s; [by destruct s|]. cbn [for_each foldl].
  unfold mbind, P_bind. rewrite Hb, IH. by destruct s.
Qed.

Lemma zero_words_spec dst n s :
  exists m', zero_words dst n s = (Some tt, with_mem (fun _ => m') s) /\
    (forall i, (i < n)%nat -> rd m' (word dst i) = 0) /\
    (forall a, (forall i, (i < n)%nat -> a <> word dst i) -> rd m' a = rd (pmem s) a).
Proof.
  destruct (fold_write (fun _ _ => 0) dst (seq 0 n) (pmem s)) as [H1 H2]; [apply NoDup_seq|done|].
  eexists. split; [by apply (for_each_write (fun _ _ => 0))|]. split.
  - intros i Hi. apply H1, elem_of_seq. lia.
  - intros a Ha. apply H2. intros i Hi%elem_of_seq. apply Ha. lia.
Qed.

Lemma copy_words_spec src dst n s :
  (forall i j, (i < n)%nat -> (j < n)%nat -> word src i <> word dst j) ->
  exists m', copy_words src dst n s = (Some tt, with_mem (fun _ => m') s) /\
    (forall i, (i < n)%nat -> rd m' (word dst i) = rd (pmem s) (word src i)) /\
    (forall a, (forall i, (i < n)%nat -> a <> word dst i) -> rd m' a = rd (pmem s) a).
Proof.
  intros Hd. destruct (fold_write (fun m i => rd m (word src i)) dst (seq 0 n) (pmem s)) as [H1 H2]; [apply NoDup_seq| |].
  { intros m i j v Hi%elem_of_seq Hj%elem_of_seq. apply rd_insert_ne. intros E. apply (Hd i j); [lia..|done]. }
  eexists. split; [by apply (for_each_write (fun m i => rd m (word src i)))|]. split.
  - intros i Hi. apply H1, elem_of_seq. lia.
  - intros a Ha. apply H2. intros i Hi%elem_of_seq. apply Ha. lia.
Qed.

Lemma other_page dst n a : page_aligned dst -> (n <= 512)%nat -> page_of a <> dst ->
  forall i, (i < n)%nat -> a <> word dst i.
Proof. intros Ha Hn Hp i Hi ->. rewrite page_of_word in Hp by (done || lia). done. Qed.

Lemma words_disjoint p q n i j : page_aligned p -> page_aligned q -> p <> q -> (n <= 512)%nat ->
  (i < n)%nat -> (j < n)%nat -> word p i <> word q j.
Proof. intros Hp Hq Hn Hle Hi Hj E. apply Hn. by apply (word_inj p q i j); [..|lia|lia|]. Qed.

Section fill.
Context (U : Z -> Prop).

Lemma run_zero W O s dst n :
  page_aligned dst -> (n <= 512)%nat -> dst ∈ W ->
  run U W 0 O s (zero_words dst n) (fun _ O1 s1 => O1 = O /\ KERNEL_CR3 s1 = KERNEL_CR3 s /\
    (forall i, (i < n)%nat -> rd (pmem s1) (word dst i) = 0) /\
    (forall a, (forall i, (i < n)%nat -> a <> word dst i) -> rd (pmem s1) a = rd (pmem s) a)).
Proof.
  intros Ha Hn Hw. destruct (zero_words_spec dst n s) as (m' & E & H1 & H2).
  apply (run_mem U W O s _ tt m' _ E); [|done]. intros a _ Hp. apply H2, other_page; [done..|].
  intros <-. by apply Hp.
Qed.

Lemma run_copy W O s src dst d k n :
  d = word dst k -> page_aligned dst -> page_aligned src -> src <> dst -> (k + n <= 512)%nat -> dst ∈ W ->
  run U W 0 O s (copy_words src d n) (fun _ O1 s1 => O1 = O /\
    (forall i, (i < n)%nat -> rd (pmem s1) (word dst (k + i)) = rd (pmem s) (word src i)) /\
    (forall a, (forall i, (i < n)%nat -> a <> word dst (k + i)) -> rd (pmem s1) a = rd (pmem s) a)).
Proof.
  intros -> Ha Hs Hne Hn Hw.
  assert (forall i, word (word dst k) i = word dst (k + i)) as Hw2 by (intros i; unfold word; lia).
  destruct (copy_words_spec src (word dst k) n s) as (m' & E & H1 & H2).
  { intros i j Hi Hj. rewrite Hw2. apply (words_disjoint src dst 512); done || lia. }
  apply (run_mem U W O s _ tt m' _ E).
  - intros a _ Hp. apply H2. intros i Hi ->. rewrite Hw2, page_of_word in Hp by (done || lia). done.
  - split_and!; [done| |].
    + intros i Hi. rewrite <-Hw2. by apply H1.
    + intros a Hf. apply H2. intros i Hi. rewrite Hw2. by apply Hf.
Qed.

End fill.

(** ** The copy of a table *)

Section levels.
Context (U : Z -> Prop) (O0 : gset Z) (m0 : PMem).

(** The pages in use at the start have not changed. *)
Definition frozen (m : PMem) : Prop := forall a, page_of a ∈ O0 -> rd m a = rd m0 a.

(** An entry [n] levels above the last: the tables below it are pages in use, no
    large pages, and so are the writable pages it leads to. *)
Fixpoint wf_entry (n : nat) (e : Z) : Prop :=
  present e = true ->
  match n with
  | O => writable e = true -> frame_of_entry e ∈ O0
  | S n => huge e = false /\ frame_of_entry e ∈ O0 /\
      forall i, (i < 512)%nat -> wf_entry n (rd m0 (word (frame_of_entry e) i))
  end.

(** The frames the copy of an entry needs. *)
Fixpoint need (n : nat) (e : Z) : Z :=
  if present e then
    match n with
    | O => if writable e then 1 else 0
    | S n => 1 + total_need (fun i => need n (rd m0 (word (frame_of_entry e) i))) (seq 0 512)
    end
  else 0.

(** [e'] is a copy of [e]: new tables in the frames [N] all the way down, a new page
    with the same contents for a writable page, the same entry for any other. *)
Fixpoint copied (n : nat) (e : Z) (N : gset Z) (m' : PMem) (e' : Z) : Prop :=
  if present e then
    match n with
    | O =>
        if writable e then
          exists f, f ∈ N /\ good_frame f /\ e' = with_flags f e /\
            forall i, (i < 512)%nat -> rd m' (word f i) = rd m0 (word (frame_of_entry e) i)
        else e' = e
    | S n =>
        exists f, f ∈ N /\ good_frame f /\ e' = with_flags f e /\
          forall i, (i < 512)%nat -> copied n (rd m0 (word (frame_of_entry e) i)) N m' (rd m' (word f i))
    end
  else e' = 0.

Lemma need_nonneg n : forall e, 0 <= need n e.
Proof using Type.
  induction n as [|n IH]; intros e; cbn [need]; destruct (present e); try lia.
  - destruct (writable e); lia.
  - pose proof (total_need_nonneg (fun i => need n (rd m0 (word (frame_of_entry e) i))) (seq 0 512)
      (fun i => IH _)). lia.
Qed.

Lemma copied_mono n N N' m1 m2 : forall e e',
  N ⊆ N' -> (forall a, page_of a ∈ N -> rd m2 a = rd m1 a) -> copied n e N m1 e' -> copied n e N' m2 e'.
Proof using Type.
  clear U O0.
  induction n as [|n IH]; intros e e' HN Hm Hc; cbn [copied] in *; destruct (present e); try done.
  - destruct (writable e); [|done]. destruct Hc as (f & Hf & Hg & He & Hi). exists f. split_and!; [set_solver|done..|].
    intros i Hlt. rewrite Hm, Hi; [done..|]. rewrite page_of_word; [done|apply Hg|done].
  - destruct Hc as (f & Hf & Hg & He & Hi). exists f. split_and!; [set_solver|done..|].
    intros i Hlt. rewrite Hm; [by apply IH, Hi|]. rewrite page_of_word; [done|apply Hg|done].
Qed.

(** [src] is a table in use and [dst] a new one. *)
Definition tables (src dst : Z) (O : gset Z) (m : PMem) : Prop :=
  O0 ⊆ O /\ frozen m /\ src ∈ O0 /\ page_aligned src /\ dst ∈ O /\ dst ∉ O0 /\ good_frame dst.

Lemma tables_src src dst O m i :
  tables src dst O m -> (i < 512)%nat -> rd m (word src i) = rd m0 (word src i).
Proof using Type. intros (_ & Hf & Hs & Ha & _) Hi. apply Hf. by rewrite page_of_word. Qed.

Lemma tables_step src dst O O' m m' :
  tables src dst O m -> O ⊆ O' -> keeps O {[dst]} m m' -> tables src dst O' m'.
Proof using Type.
  clear U.
  intros (HO & Hf & Hs & Ha & Hd & Hd0 & Hg) HO' Hk. split_and!; [set_solver| |done..|set_solver|done|done].
  intros a Hp. rewrite Hk, Hf; [done..|set_solver|]. intros E%elem_of_singleton. by rewrite E in Hp.
Qed.

(** [body] copies entry [i] of a table; [n] levels are below the entry. *)
Definition clones_entry (n : nat) (body : Z -> Z -> nat -> P unit) : Prop :=
  forall src dst i O s, (i < 512)%nat -> tables src dst O (pmem s) ->
    wf_entry n (rd m0 (word src i)) -> rd (pmem s) (word dst i) = 0 ->
    run U {[dst]} (need n (rd m0 (word src i))) O s (body src dst i) (fun _ O' s' =>
      copied n (rd m0 (word src i)) (O' ∖ O) (pmem s') (rd (pmem s') (word dst i)) /\
      forall j, (j < 512)%nat -> j <> i -> rd (pmem s') (word dst j) = rd (pmem s) (word dst j)).

(** [f] copies the first [cnt] entries of a table. *)
Definition clones_table (n cnt : nat) (f : Z -> Z -> P unit) : Prop :=
  forall src dst O s, tables src dst O (pmem s) ->
    (forall i, (i < cnt)%nat -> wf_entry n (rd m0 (word src i)) /\ rd (pmem s) (word dst i) = 0) ->
    run U {[dst]} (total_need (fun i => need n (rd m0 (word src i))) (seq 0 cnt)) O s (f src dst) (fun _ O' s' =>
      (forall i, (i < cnt)%nat ->
        copied n (rd m0 (word src i)) (O' ∖ O) (pmem s') (rd (pmem s') (word dst i))) /\
      forall j, (cnt <= j < 512)%nat -> rd (pmem s') (word dst j) = rd (pmem s) (word dst j)).

Lemma clones_loop n cnt body :
  (cnt <= 512)%nat -> clones_entry n body ->
  clones_table n cnt (fun src dst => for_each (seq 0 cnt) (body src dst)).
Proof.
  intros Hcnt Hb src dst O s Ht Hw.
  set (I := fun (pre : list nat) (O1 : gset Z) (s1 : Paging) =>
    (forall i, i ∈ pre -> copied n (rd m0 (word src i)) (O1 ∖ O) (pmem s1) (rd (pmem s1) (word dst i))) /\
    forall j, (j < 512)%nat -> j ∉ pre -> rd (pmem s1) (word dst j) = rd (pmem s) (word dst j)).
  refine (run_imp U _ _ _ O s _ (fun _ => I (seq 0 cnt)) _ eq_refl _ _).
  2:{ intros _ O' s' _ _ _ [H1 H2]. split.
      - intros i Hi. apply H1, elem_of_seq. lia.
      - intros j Hj. apply H2; [lia|]. rewrite elem_of_seq. lia. }
  apply run_for_each; [intros i; apply need_nonneg|split; [intros i Hi; by apply not_elem_of_nil in Hi|done]|].
  intros pre i post O1 s1 E HO Ho1 Hk [H1 H2].
  assert (i < cnt)%nat as Hi. { enough (i ∈ seq 0 cnt) as ?%elem_of_seq by lia. rewrite E. set_solver. }
  assert (i ∉ pre) as Hni. { pose proof (NoDup_seq 0 cnt) as Hd. rewrite E in Hd. apply NoDup_app in Hd. set_solver. }
  destruct (Hw i Hi) as [Hwi Hzi].
  eapply run_imp; [done|apply Hb; [lia|by eapply tables_step|done|by rewrite H2 by (done || lia)]|].
  intros _ O2 s2 HO2 _ Hk2 [Hc Hs]. split.
  - intros j [Hj| ->%list_elem_of_singleton]%elem_of_app.
    + assert (j < 512)%nat as Hj'. { enough (j ∈ seq 0 cnt) as ?%elem_of_seq by lia. rewrite E. set_solver. }
      rewrite Hs by (done || congruence). eapply copied_mono; [| |by apply H1]; [set_solver|].
      intros a Ha. apply Hk2; [set_solver|]. destruct Ht as (_ & _ & _ & _ & Hd & _). set_solver.
    + eapply copied_mono; [| |done]; [set_solver|done].
  - intros j Hj Hn. rewrite Hs, H2; [done|done|set_solver|done|set_solver].
Qed.

Lemma clone_leaf_spec : clones_entry 0 clone_leaf.
Proof.
  intros src dst i O s Hi Ht Hw Hz. unfold clone_leaf. apply run_load.
  rewrite (tables_src src dst O _ i Ht Hi). set (e := rd m0 (word src i)) in *. cbn [wf_entry need copied] in *.
  pose proof Ht as (HO & Hf & Hs & Ha & Hd & Hd0 & Hg).
  assert (page_of (word dst i) = dst) as Hpd by (apply page_of_word; [apply Hg|done]).
  destruct (present e); cbn [negb]; [|by apply run_ret].
  destruct (writable e).
  2:{ apply run_store; [by apply elem_of_singleton|]. cbn. rewrite rd_insert_eq. split; [done|].
      intros j Hj Hne. apply rd_insert_ne. by intros ->%word_eq. }
  refine (run_bind U _ 1 0 O s _ _ _ _ (run_alloc U _ O s) ltac:(lia) _).
  intros f O1 s1 HO1 _ _ (Hfo & Hgf & -> & Hm & _). exists ({[dst; f]}). split; [clear -Hfo; set_solver|].
  assert (f <> dst) as Hfd by (intros ->; done).
  assert (page_aligned (frame_of_entry e)) as Hae by apply frame_of_entry_aligned.
  assert (frame_of_entry e ∈ O0) as He by (by apply Hw).
  refine (run_seq U _ 0 0 _ s1 _ _ _ _ (run_copy U _ _ s1 _ f f 0 512 _ _ _ _ _ _) ltac:(lia) _);
    [unfold word; lia|apply Hgf|done|intros E; apply Hfo, HO; by rewrite <-E|lia|clear; set_solver|].
  cbn [Nat.add]. intros _ O2 s2 _ _ _ (-> & Hc & Hk). apply run_store; [rewrite Hpd; clear; set_solver|].
  rewrite cr3_table_frame by done. cbn [pmem with_mem]. rewrite rd_insert_eq. split.
  - exists f. split_and!; [clear -Hfo; set_solver|done..|]. intros j Hj.
    rewrite rd_insert_ne by (apply (words_disjoint dst f 512); [apply Hg|apply Hgf|done..]).
    rewrite Hc, Hm by done. apply Hf. by rewrite page_of_word.
  - intros j Hj Hne. rewrite rd_insert_ne by (by intros ->%word_eq). rewrite Hk, Hm; [done|].
    intros k Hlt. apply (words_disjoint dst f 512); [apply Hg|apply Hgf|done..].
Qed.

Lemma clone_link_spec n child : clones_table n 512 child -> clones_entry (S n) (clone_link child).
Proof.
  intros Hch src dst i O s Hi Ht Hw Hz. unfold clone_link. apply run_load.
  rewrite (tables_src src dst O _ i Ht Hi). set (e := rd m0 (word src i)) in *. cbn [wf_entry need copied] in *.
  pose proof Ht as (HO & Hf & Hs & Ha & Hd & Hd0 & Hg).
  assert (page_of (word dst i) = dst) as Hpd by (apply page_of_word; [apply Hg|done]).
  destruct (present e) eqn:Hp; cbn [negb]; [|by apply run_ret]. destruct (Hw eq_refl) as (_ & He & Hwe).
  remember (total_need _ _) as below eqn:Eb.
  assert (0 <= below) as Hb by (rewrite Eb; apply total_need_nonneg; intros; apply need_nonneg).
  refine (run_bind U _ 1 _ O s _ _ _ _ (run_alloc U _ O s) Hb _).
  intros f O1 s1 HO1 _ _ (Hfo & Hgf & -> & Hm & _). exists ({[dst; f]}). split; [clear -Hfo; set_solver|].
  assert (f <> dst) as Hfd by (intros ->; done).
  cbn zeta. rewrite (cr3_table_frame f Hgf). rewrite <-(Z.add_0_l below).
  refine (run_seq U _ 0 _ _ s1 _ _ _ _ (run_zero U _ _ s1 f 512 _ _ _) Hb _); [apply Hgf|lia|clear; set_solver|].
  intros _ O2 s2 _ _ _ (-> & _ & Hzero & Hk2). rewrite Hm in Hk2.
  assert (forall a, page_of a <> f -> rd (pmem s2) a = rd (pmem s) a) as Hs2.
  { intros a Hpa. apply Hk2, other_page; [apply Hgf|done..]. }
  assert (tables (frame_of_entry e) f ({[f]} ∪ O) (pmem s2)) as Ht2.
  { split_and!; [clear -HO; set_solver| |done|apply frame_of_entry_aligned|clear; set_solver|clear -HO Hfo; set_solver|apply Hgf..].
    intros a Hpa. rewrite Hs2, Hf; [done..|]. intros E. apply Hfo, HO. by rewrite <-E. }
  rewrite <-(Z.add_0_r below).
  refine (run_seq U _ _ 0 _ s2 _ _ _ _ (run_weaken U {[f]} _ _ _ s2 _ _ _
    (run_imp U _ _ _ _ s2 _ _ (fun _ O3 s3 => keeps ({[f]} ∪ O) {[f]} (pmem s2) (pmem s3) /\ _) (eq_sym Eb)
      (Hch (frame_of_entry e) f ({[f]} ∪ O) s2 Ht2 _) _)) ltac:(lia) _); [clear; set_solver|by auto|by eauto|].
  intros _ O3 s3 HO3 _ _ (Hk3 & Hc3 & _).
  assert (forall a, page_of a ∈ O -> rd (pmem s3) a = rd (pmem s) a) as Hs3.
  { intros a Hpa. rewrite Hk3, Hs2; [done| | |]; clear -Hpa Hfo; set_solver. }
  apply run_store; [rewrite Hpd; clear; set_solver|]. cbn [pmem with_mem].
  rewrite link_with_flags, rd_insert_eq by done. split.
  - exists f. split_and!; [clear -HO3 Hfo; set_solver|done..|]. intros j Hj.
    assert (forall a, page_of a <> dst -> rd (<[word dst i := with_flags f e]> (pmem s3)) a = rd (pmem s3) a) as Hkd.
    { intros a Hne. apply rd_insert_ne. intros <-. done. }
    rewrite Hkd by (rewrite page_of_word; [done|apply Hgf|done]).
    eapply copied_mono; [| |by apply Hc3]; [clear; set_solver|]. intros a Hpa. apply Hkd. clear -Hpa Hd. set_solver.
  - intros j Hj Hne. rewrite rd_insert_ne by (by intros ->%word_eq). apply Hs3. rewrite page_of_word; [done|apply Hg|done].
Qed.

Lemma clone_pml4_spec : clones_table 3 256 clone_pml4.
Proof.
  apply clones_loop; [lia|]. apply clone_link_spec, clones_loop; [lia|]. apply clone_link_spec, clones_loop; [lia|].
  apply clone_link_spec, clones_loop; [lia|]. apply clone_leaf_spec.
Qed.

End levels.

(** ** The copy of an address space *)

(** The page entry that an upper-level entry leads to. *)
Fixpoint leaf_from (m : PMem) (shifts : list Z) (e virt : Z) : option Z :=
  if present e then
    match shifts with
    | [] => Some e
    | shift :: shifts => leaf_from m shifts (rd m (word (frame_of_entry e) (index_at virt shift))) virt
    end
  else None.

Definition page_entry (m : PMem) (c virt : Z) : option Z :=
  leaf_from m [30; 21; 12] (rd m (word (cr3_table c) (index_at virt 39))) virt.

(** The walk meets no large page. *)
Fixpoint small (m : PMem) (shifts : list Z) (e virt : Z) : Prop :=
  present e = true ->
  match shifts with
  | [] => True
  | shift :: shifts => huge e = false /\
      small m shifts (rd m (word (frame_of_entry e) (index_at virt shift))) virt
  end.

Lemma translate_page_entry m c virt :
  small m [30; 21; 12] (rd m (word (cr3_table c) (index_at virt 39))) virt ->
  virt_to_phys_raw m c virt = (fun e => Z.lor (frame_of_entry e) (Z.land virt 0xFFF)) <$> page_entry m c virt.
Proof.
  unfold virt_to_phys_raw, page_entry. cbn. intros H.
  do 3 (destruct (present _); [|done]; destruct (H eq_refl) as [-> H']; clear H; rename H' into H; cbn).
  destruct (present _); [|done]. by rewrite andb_false_r.
Qed.

Section copy.
Context (O : gset Z) (m : PMem).

Lemma wf_small shifts virt : forall e, wf_entry O m (length shifts) e -> small m shifts e virt.
Proof.
  induction shifts as [|sh shifts IH]; intros e Hw Hp; [done|]. cbn in Hw. destruct (Hw Hp) as (Hh & _ & He).
  split; [done|]. apply IH, He, index_lt.
Qed.

Lemma copied_small shifts virt N m' : forall e e',
  wf_entry O m (length shifts) e -> copied m (length shifts) e N m' e' -> small m' shifts e' virt.
Proof.
  induction shifts as [|sh shifts IH]; intros e e' Hw Hc Hp; [done|]. cbn in Hw, Hc.
  destruct (present e) eqn:Hpe; [|by subst]. destruct Hc as (f & _ & Hg & -> & Hi), (Hw eq_refl) as (Hh & _ & He).
  rewrite with_flags_huge, with_flags_frame by done. split; [done|].
  eapply IH; [apply He|apply Hi]; apply index_lt.
Qed.

Lemma copied_leaf shifts virt N m' : forall e e',
  copied m (length shifts) e N m' e' ->
  match leaf_from m shifts e virt with
  | Some l => present l = true /\ exists l', leaf_from m' shifts e' virt = Some l' /\ copied m 0 l N m' l'
  | None => leaf_from m' shifts e' virt = None
  end.
Proof.
  induction shifts as [|sh shifts IH]; intros e e' Hc; cbn [leaf_from length] in *.
  - pose proof Hc as Hc'. cbn in Hc'. destruct (present e) eqn:Hp; [|by subst]. split; [done|]. exists e'. split; [|done].
    destruct (writable e); [|subst; by rewrite Hp]. destruct Hc' as (f & _ & Hg & -> & _).
    by rewrite with_flags_present, Hp.
  - cbn [copied] in Hc. destruct (present e) eqn:Hp; [|by subst]. destruct Hc as (f & _ & Hg & -> & Hi).
    rewrite with_flags_present, Hp, with_flags_frame by done. apply IH, Hi, index_lt.
Qed.

End copy.

Lemma cr3_table_flags f x : good_frame f -> 0 <= x < 4096 -> cr3_table (Z.lor f x) = f.
Proof.
  intros Hf Hx. unfold cr3_table. rewrite Z.land_lor_distr_l. fold (cr3_table f) (page_down x).
  rewrite cr3_table_frame, page_down_spec, Z.mod_small by (done || unfold is_u64, U64; lia).
  by rewrite Z.sub_diag, Z.lor_0_r.
Qed.

Lemma pcid_flags_low c : 0 <= Z.land c 0x18 < 4096.
Proof.
  change 0x18 with (Z.land 0xFFF 0x18). rewrite Z.land_assoc. pose proof (land_low c).
  split; [apply Z.land_nonneg; lia|]. apply (Z.le_lt_trans _ (Z.land c 0xFFF)); [|lia].
  apply Z.ldiff_le; [lia|]. rewrite Z.ldiff_land. apply Z.bits_inj'. intros n Hn.
  rewrite !Z.land_spec, Z.lnot_spec, Z.bits_0, !Z.land_spec by lia. destruct (Z.testbit c n), (Z.testbit 0xFFF n), (Z.testbit 0x18 n); done.
Qed.

Module Clone.

(** An address space whose user half can be cloned: its tables and writable pages
    are among the frames [O], and it has no large pages. *)
Definition user_space (O : gset Z) (m : PMem) (c : Z) : Prop :=
  is_u64 c /\ cr3_table c ∈ O /\ forall i, (i < 256)%nat -> wf_entry O m 3 (rd m (word (cr3_table c) i)).

(** The frames a clone takes: the top table and what the entries need. *)
Definition clone_cost (m : PMem) (c : Z) : Z :=
  1 + total_need (fun i => need m 3 (rd m (word (cr3_table c) i))) (seq 0 256).

Lemma clone_run U O s c :
  user_space O (pmem s) c -> is_u64 (KERNEL_CR3 s) -> cr3_table (KERNEL_CR3 s) ∈ O ->
  run U ∅ (clone_cost (pmem s) c) O s (clone_user_address_space c) (fun c' O' s' => exists f,
    c' = Z.lor f (Z.land c 0x18) /\ f ∈ O' ∖ O /\ good_frame f /\
    (forall i, (i < 256)%nat -> copied (pmem s) 3 (rd (pmem s) (word (cr3_table c) i)) (O' ∖ O) (pmem s') (rd (pmem s') (word f i))) /\
    forall i, (i < 256)%nat -> rd (pmem s') (word f (256 + i)) = rd (pmem s) (word (cr3_table (KERNEL_CR3 s)) i)).
Proof.
  intros (Hc & Hsrc & Hw) Hku HkO. unfold clone_user_address_space, clone_cost.
  set (src := cr3_table c) in *. set (ker := cr3_table (KERNEL_CR3 s)) in *.
  remember (total_need _ _) as below eqn:Eb.
  assert (0 <= below) as Hb by (rewrite Eb; apply total_need_nonneg; intros; apply need_nonneg).
  refine (run_bind U _ 1 _ O s _ _ _ _ (run_alloc U _ O s) Hb _).
  intros f O1 s1 HO1 _ _ (Hfo & Hg & -> & Hm & Hk1 & _). exists {[f]}. split; [clear -Hfo; set_solver|].
  cbn zeta. rewrite (cr3_table_frame f Hg). apply run_get. rewrite Hk1. fold ker. rewrite <-(Z.add_0_l below).
  refine (run_seq U _ 0 _ _ s1 _ _ _ _ (run_zero U _ _ s1 f 256 _ _ _) Hb _); [apply Hg|lia|clear; set_solver|].
  intros _ O2 s2 _ _ _ (-> & _ & Hz & Hk2). rewrite Hm in Hk2. rewrite <-(Z.add_0_l below).
  refine (run_seq U _ 0 _ _ s2 _ _ _ _ (run_copy U _ _ s2 ker f (word f 256) 256 256 _ _ _ _ _ _) Hb _);
    [done|apply Hg|by apply cr3_table_aligned|intros E; apply Hfo; by rewrite <-E|lia|clear; set_solver|].
  intros _ O3 s3 _ _ _ (-> & Hcp & Hk3).
  assert (forall a, page_of a <> f -> rd (pmem s3) a = rd (pmem s) a) as Hs3.
  { intros a Ha. rewrite Hk3, Hk2; [done| |].
    - apply other_page; [apply Hg|lia|done].
    - intros i Hi. apply (other_page f 512); [apply Hg|lia|done|lia]. }
  assert (tables O (pmem s) src f ({[f]} ∪ O) (pmem s3)) as Ht.
  { split_and!; [clear; set_solver| |done|by apply cr3_table_aligned|clear; set_solver|done|apply Hg..].
    intros a Ha. apply Hs3. intros E. apply Hfo. by rewrite <-E. }
  rewrite <-(Z.add_0_r below).
  refine (run_seq U _ _ 0 _ s3 _ _ _ _ (run_imp U _ _ _ _ s3 _ _ _ (eq_sym Eb) (clone_pml4_spec U O (pmem s) src f _ s3 Ht _)
    (fun _ _ _ _ _ _ H => H)) ltac:(lia) _).
  - intros i Hi. split; [by apply Hw|]. rewrite Hk3; [by apply Hz|]. intros j Hj E%word_eq. lia.
  - intros _ O4 s4 HO4 _ _ [Hc4 Hk4]. apply run_ret. exists f. split_and!; [done|clear -HO4 Hfo; set_solver|apply Hg..| |].
    + intros i Hi. eapply copied_mono; [| |by apply Hc4]; [clear; set_solver|done].
    + intros i Hi. rewrite Hk4, Hcp by lia. rewrite Hk2; [done|]. apply (other_page f 256); [apply Hg|lia|].
      rewrite page_of_word; [|by apply cr3_table_aligned|lia]. intros E. apply Hfo. by rewrite <-E.
Qed.

(** What a clone promises for one user address: the same translation result; a
    writable page is a page of its own with the parent's contents, any other page
    is shared. *)
Definition cloned_page (O : gset Z) (m m' : PMem) (c c' virt : Z) : Prop :=
  match page_entry m c virt with
  | None => virt_to_phys_raw m c virt = None /\ virt_to_phys_raw m' c' virt = None
  | Some e =>
      virt_to_phys_raw m c virt = Some (Z.lor (frame_of_entry e) (Z.land virt 0xFFF)) /\
      exists e', page_entry m' c' virt = Some e' /\
        virt_to_phys_raw m' c' virt = Some (Z.lor (frame_of_entry e') (Z.land virt 0xFFF)) /\
        if writable e then
          writable e' = true /\ frame_of_entry e' ∉ O /\
          forall i, (i < 512)%nat -> rd m' (word (frame_of_entry e') i) = rd m (word (frame_of_entry e) i)
        else e' = e
  end.

Lemma copied_page O N m m' c c' virt :
  N ## O -> wf_entry O m 3 (rd m (word (cr3_table c) (index_at virt 39))) ->
  copied m 3 (rd m (word (cr3_table c) (index_at virt 39))) N m' (rd m' (word (cr3_table c') (index_at virt 39))) ->
  cloned_page O m m' c c' virt.
Proof.
  intros HN Hw Hc. unfold cloned_page.
  rewrite (translate_page_entry m c), (translate_page_entry m' c').
  2:{ by apply (copied_small O m [30; 21; 12] virt N) in Hc. }
  2:{ by apply (wf_small O m [30; 21; 12]). }
  pose proof (copied_leaf m [30; 21; 12] virt N m' _ _ Hc) as Hl. fold (page_entry m c virt) (page_entry m' c' virt) in Hl.
  destruct (page_entry m c virt) as [e|]; [|by rewrite Hl]. destruct Hl as [Hp (e' & -> & He)]. split; [done|].
  exists e'. split_and!; [done..|]. cbn [copied] in He. rewrite Hp in He.
  destruct (writable e) eqn:Hwr; [|done]. destruct He as (f & Hf & Hg & -> & Hi).
  rewrite with_flags_frame by done. split_and!; [|clear -HN Hf; set_solver|done].
  rewrite writable_bit, with_flags_bit, <-writable_bit by (done || lia). done.
Qed.

(** C7: [clone_user_address_space] copies the user half and nothing else. It returns an
    address space if and only if the allocator has the frames the copy takes; then no
    page in use before has changed, the new top table is a new frame, and every user
    address of the child translates like the parent's, with writable pages in new
    frames with equal contents and other pages shared. *)
Theorem clone_copies_user_half U O s c :
  owns U O s -> user_space O (pmem s) c -> is_u64 (KERNEL_CR3 s) -> cr3_table (KERNEL_CR3 s) ∈ O ->
  match clone_user_address_space c s with
  | (Some c', s') =>
      free s' = free s - clone_cost (pmem s) c /\
      (exists O', owns U O' s' /\ {[cr3_table c']} ∪ O ⊆ O' /\ cr3_table c' ∉ O) /\
      (forall a, page_of a ∈ O -> rd (pmem s') a = rd (pmem s) a) /\
      forall virt, (index_at virt 39 < 256)%nat -> cloned_page O (pmem s) (pmem s') c c' virt
  | (None, s') => free s < clone_cost (pmem s) c
  end.
Proof.
  intros Ho Hu Hk HkO. destruct (clone_run U O s c Hu Hk HkO Ho) as (O' & HO & Ho' & Hke & Hm).
  destruct (clone_user_address_space c s) as [[c'|] s']; cbn in *; [|done].
  destruct Hm as (Hf & f & -> & Hfo & Hg & Hc & _). split; [done|].
  pose proof (cr3_table_flags f (Z.land c 0x18) Hg (pcid_flags_low c)) as Hcr. split_and!.
  - exists O'. rewrite Hcr. split; [done|]. clear -HO Hfo. set_solver.
  - intros a Ha. by apply Hke.
  - intros virt Hv. apply (copied_page O (O' ∖ O)); [clear; set_solver|by apply Hu|]. rewrite Hcr. by apply Hc.
Qed.

(** The upper half of a clone is wrong: entry [256 + i] of the new top table is
    entry [i] of the kernel's table, the lower half where the comment asks for entries
    256 to 511. *)
Theorem clone_kernel_half_misplaced U O s c c' s' :
  owns U O s -> user_space O (pmem s) c -> is_u64 (KERNEL_CR3 s) -> cr3_table (KERNEL_CR3 s) ∈ O ->
  clone_user_address_space c s = (Some c', s') ->
  forall i, (i < 256)%nat ->
    rd (pmem s') (word (cr3_table c') (256 + i)) = rd (pmem s) (word (cr3_table (KERNEL_CR3 s)) i).
Proof.
  intros Ho Hu Hk HkO E. destruct (clone_run U O s c Hu Hk HkO Ho) as (O' & HO & Ho' & Hke & Hm).
  rewrite E in *. cbn in *. destruct Hm as (_ & f & -> & _ & Hg & _ & Hkh).
  by rewrite (cr3_table_flags f (Z.land c 0x18) Hg (pcid_flags_low c)).
Qed.

(** *** Witnesses *)

Import PagingDemo.

Lemma alloc_many_inv U n : forall fa O fa' ps,
  FrameProofs.inv U fa O -> FrameProofs.alloc_many n fa = Some (fa', ps) -> FrameProofs.inv U fa' (list_to_set ps ∪ O).
Proof.
  induction n as [|n IH]; intros fa O fa' ps Hi E; cbn [FrameProofs.alloc_many] in E.
  { injection E as <- <-. cbn. by rewrite union_empty_l_L. }
  destruct (alloc_frame fa) as [fa1 [p|]] eqn:Ea; [|done].
  destruct (FrameProofs.alloc_many n fa1) as [[fa2 qs]|] eqn:Eq; [|done]. injection E as <- <-.
  destruct (FrameProofs.alloc_frame_inv U fa O fa1 p Hi Ea) as (_ & _ & _ & _ & Hi1).
  apply (IH _ _ _ _ Hi1) in Eq. cbn [list_to_set]. by rewrite (union_comm_L {[p]}), <-union_assoc_L.
Qed.

Definition demo_owned : gset Z := list_to_set demo_frames ∪ ∅.

Lemma demo_owns : owns (FrameProofs.planned FrameProofs.demo_input) demo_owned demo_paging.
Proof.
  assert (FrameProofs.alloc_many 8 FrameProofs.demo_fa = Some (demo_alloc, demo_frames)) as E by (vm_compute; reflexivity).
  split; [|vm_compute; reflexivity]. exact (alloc_many_inv _ 8 _ _ _ _ FrameProofs.frame_demo_inv E).
Qed.

Fixpoint wf_entry_b (O : gset Z) (m : PMem) (n : nat) (e : Z) : bool :=
  if present e then
    match n with
    | O => negb (writable e) || bool_decide (frame_of_entry e ∈ O)
    | S n => negb (huge e) && bool_decide (frame_of_entry e ∈ O) &&
        forallb (fun i => wf_entry_b O m n (rd m (word (frame_of_entry e) i))) (seq 0 512)
    end
  else true.

Lemma wf_entry_b_sound O m n : forall e, wf_entry_b O m n e = true -> wf_entry O m n e.
Proof.
  induction n as [|n IH]; intros e Hb Hp; cbn [wf_entry_b] in Hb; rewrite Hp in Hb.
  - intros Hw. rewrite Hw in Hb. by apply bool_decide_eq_true in Hb.
  - apply andb_true_iff in Hb as [[Hh Ho]%andb_true_iff Hf]. split; [by apply negb_true_iff|].
    split; [by apply bool_decide_eq_true in Ho|]. intros i Hi. apply IH.
    rewrite forallb_forall in Hf. apply Hf, in_seq. lia.
Qed.

Lemma demo_user_space : user_space demo_owned demo_mem demo_cr3.
Proof.
  split; [unfold is_u64, demo_cr3, U64; lia|].
  split; [apply (bool_decide_unpack _); vm_compute; exact I|].
  assert (forallb (fun i => wf_entry_b demo_owned demo_mem 3 (rd demo_mem (word (cr3_table demo_cr3) i))) (seq 0 256) = true) as H
    by (vm_compute; reflexivity).
  intros i Hi. apply wf_entry_b_sound. rewrite forallb_forall in H. apply H, in_seq. lia.
Qed.

Lemma demo_kernel : is_u64 (KERNEL_CR3 demo_paging) /\ cr3_table (KERNEL_CR3 demo_paging) ∈ demo_owned.
Proof. split; [unfold is_u64, U64; cbn; lia|]. apply (bool_decide_unpack _). vm_compute. exact I. Qed.

Lemma demo_clone : (clone_user_address_space demo_cr3 demo_paging).1 = Some 0x108000.
Proof. vm_compute. reflexivity. Qed.

Lemma clone_copies_user_half_witness :
  exists s', clone_user_address_space demo_cr3 demo_paging = (Some 0x108000, s') /\
    free s' = free demo_paging - 5 /\ cloned_page demo_owned demo_mem (pmem s') demo_cr3 0x108000 0x1008.
Proof.
  pose proof (clone_copies_user_half _ _ _ _ demo_owns demo_user_space (proj1 demo_kernel) (proj2 demo_kernel)) as H.
  pose proof demo_clone as E. destruct (clone_user_address_space demo_cr3 demo_paging) as [r s']. cbn [fst] in E. subst r.
  destruct H as (Hf & _ & _ & Hc). exists s'. split; [reflexivity|]. split.
  - assert (clone_cost (pmem demo_paging) demo_cr3 = 5) as E by (vm_compute; reflexivity). rewrite E in Hf. exact Hf.
  - apply Hc. apply (bool_decide_unpack _). vm_compute. exact I.
Defined.

Lemma clone_kernel_half_misplaced_witness :
  exists s', clone_user_address_space demo_cr3 demo_paging = (Some 0x108000, s') /\
    rd (pmem s') (word 0x108000 257) = 0x3000003 /\ rd demo_mem (word 0x100000 257) = 0.
Proof.
  pose proof demo_clone as E. destruct (clone_user_address_space demo_cr3 demo_paging) as [r s'] eqn:Er. cbn [fst] in E. subst r.
  exists s'. split; [reflexivity|]. split; [|vm_compute; reflexivity].
  refine (eq_trans (clone_kernel_half_misplaced _ _ _ _ _ _ demo_owns demo_user_space (proj1 demo_kernel) (proj2 demo_kernel) Er 1 _) _).
  - lia.
  - vm_compute. reflexivity.
Defined.

End Clone.
