(* ===== verification/PagingSpace.v ===== *)
(** Address spaces over their life: [create_address_space], [destroy_address_space]
    and what they do to each other and to clones (Paging.v, PagingClone.v). *)

From S2P Require Import Prelude FrameAlloc Paging PagingProofs PagingClone.

(** ** What allocating programs leave alone *)

Definition registers (s : Paging) : Z * Z * Z * Z * Z * list Z :=
  (HHDM_OFFSET s, LEVEL4_PHYS s, KERNEL_CR3 s, cr3 s, FREED_CR3_COUNT s, FREED_CR3_LIST s).

Definition steady {A} (c : P A) : Prop := forall s, registers (c s).2 = registers s.

Create HintDb steady.

Lemma steady_ret {A} (x : A) : steady (mret x).
Proof. done. Qed.

Lemma steady_bind {A B} (c : P A) (k : A -> P B) : steady c -> (forall x, steady (k x)) -> steady (c ≫= k).
Proof.
  intros Hc Hk s. unfold mbind, P_bind. specialize (Hc s). destruct (c s) as [[x|] s1]; cbn in *; [|done].
  by rewrite Hk.
Qed.

Lemma steady_alloc : steady alloc.
Proof. intros s. unfold alloc. by destruct (alloc_frame (frames s)). Qed.

Lemma steady_get {A} (f : Paging -> A) : steady (get f).
Proof. done. Qed.

Lemma steady_load a : steady (load a).
Proof. done. Qed.

Lemma steady_store a v : steady (store a v).
Proof. done. Qed.

Lemma steady_if {A} (b : bool) (c d : P A) : steady c -> steady d -> steady (if b then c else d).
Proof. by destruct b. Qed.

#[export] Hint Resolve steady_ret steady_bind steady_alloc steady_get steady_load steady_store steady_if : steady.

Lemma steady_for_each idxs body : (forall i, steady (body i)) -> steady (for_each idxs body).
Proof. intros Hb. induction idxs as [|i idxs IH]; cbn [for_each]; auto with steady. Qed.

#[export] Hint Resolve steady_for_each : steady.

Lemma steady_zero dst n : steady (zero_words dst n).
Proof. unfold zero_words. auto with steady. Qed.

Lemma steady_copy src dst n : steady (copy_words src dst n).
Proof. unfold copy_words. auto with steady. Qed.

#[export] Hint Resolve steady_zero steady_copy : steady.

Lemma steady_link child src dst i : (forall s d, steady (child s d)) -> steady (clone_link child src dst i).
Proof. intros H. unfold clone_link. auto 10 with steady. Qed.

#[export] Hint Resolve steady_link : steady.

Lemma steady_clone c : steady (clone_user_address_space c).
Proof.
  unfold clone_user_address_space, clone_pml4, clone_pdpt, clone_pd, clone_pt, clone_leaf. auto 20 with steady.
Qed.

Lemma steady_create : steady create_address_space.
Proof. unfold create_address_space. auto 10 with steady. Qed.

(** ** Creation *)

Module Create.

Lemma create_run U O s :
  page_aligned (LEVEL4_PHYS s) -> LEVEL4_PHYS s ∈ O ->
  run U ∅ 1 O s create_address_space (fun c O' s' => exists f,
    c = Z.lor f (Z.land (cr3 s') 0x18) /\ f ∉ O /\ good_frame f /\ O' = {[f]} ∪ O /\
    (forall i, (i < 256)%nat -> rd (pmem s') (word f i) = 0) /\
    forall i, (256 <= i < 512)%nat -> rd (pmem s') (word f i) = rd (pmem s) (word (LEVEL4_PHYS s) i)).
Proof.
  intros Ha HO. unfold create_address_space. apply run_get. change 1 with (1 + 0).
  refine (run_bind U _ 1 0 O s _ _ _ _ (run_alloc U _ O s) ltac:(lia) _).
  intros f O1 s1 HO1 _ _ (Hfo & Hg & -> & Hm & _). exists {[f]}. split; [clear -Hfo; set_solver|].
  refine (run_seq U _ 0 0 _ s1 _ _ _ _ (run_copy U _ _ s1 (LEVEL4_PHYS s) f f 0 512 _ _ _ _ _ _) ltac:(lia) _);
    [unfold word; lia|apply Hg|done|intros E; apply Hfo; by rewrite <-E|lia|clear; set_solver|].
  cbn [Nat.add]. rewrite Hm. intros _ O2 s2 _ _ _ (-> & Hcp & _).
  refine (run_seq U _ 0 0 _ s2 _ _ _ _ (run_zero U _ _ s2 f 256 _ _ _) ltac:(lia) _); [apply Hg|lia|clear; set_solver|].
  intros _ O3 s3 _ _ _ (-> & _ & Hz & Hk). apply run_get, run_ret. exists f. do 5 (split; [done|]).
  intros i Hi. rewrite Hk; [apply Hcp; lia|]. intros j Hj E%word_eq. lia.
Qed.

(** [create_address_space] fails only when no frame is left. Otherwise it takes one
    frame and changes no page in use; no user address of the new space has a
    translation, and every upper-half address translates as in the kernel's tables. *)
Theorem create_shares_kernel_half U O s :
  owns U O s -> page_aligned (LEVEL4_PHYS s) ->
  (forall virt a, (256 <= index_at virt 39)%nat -> a ∈ route (pmem s) LEVELS (LEVEL4_PHYS s) virt -> page_of a ∈ O) ->
  match create_address_space s with
  | (Some c, s') =>
      free s' = free s - 1 /\ owns U ({[cr3_table c]} ∪ O) s' /\ cr3_table c ∉ O /\
      (forall a, page_of a ∈ O -> rd (pmem s') a = rd (pmem s) a) /\
      forall virt, virt_to_phys_raw (pmem s') c virt =
        if (index_at virt 39 <? 256)%nat then None else translate_loop (pmem s) LEVELS (LEVEL4_PHYS s) virt
  | (None, s') => free s = 0
  end.
Proof.
  intros Ho Ha Hr.
  assert (LEVEL4_PHYS s ∈ O) as HO.
  { rewrite <-(page_of_word (LEVEL4_PHYS s) 256) by (done || lia). apply (Hr (Z.shiftl 256 39)); [by vm_compute|]. by left. }
  destruct (create_run U O s Ha HO Ho) as (O' & _ & Ho' & Hke & Hm).
  destruct (create_address_space s) as [[c|] s']; cbn in Ho', Hke, Hm.
  2:{ pose proof (FrameProofs.free_frames_count_nonneg U (frames s) O (proj1 Ho)). unfold free in *. lia. }
  destruct Hm as (Hf & f & -> & Hfo & Hg & -> & Hz & Hu).
  rewrite (cr3_table_flags f _ Hg (pcid_flags_low _)). do 3 (split; [done|]).
  split; [by intros a Hp; apply Hke|].
  intros virt. unfold virt_to_phys_raw. rewrite (cr3_table_flags f _ Hg (pcid_flags_low _)).
  pose proof (index_lt virt 39) as Hi. destruct (Nat.ltb_spec (index_at virt 39) 256) as [Hlt|Hge].
  { cbn [translate_loop LEVELS]. by rewrite Hz. }
  apply Unmap.translate_same_below; [by apply Hu|]. intros a Hin. apply Hke; [|set_solver].
  apply (Hr virt); [done|]. unfold LEVELS. cbn [route tail] in *. by right.
Qed.

End Create.

(** ** Destruction *)

Module Destroy.

Definition range (base : Z) (n : nat) : list Z := map (fun i => u64_add base (4096 * Z.of_nat i)) (seq 0 n).

(** The frames handed to [free_frame] for a large-page entry [n] levels above the last. *)
Definition huge_freed (n : nat) (base : Z) : list Z :=
  match n with
  | 3%nat => range base (Z.to_nat 262144)
  | 2%nat => range base 512
  | _ => [base]
  end.

(** The frames the code frees below an entry, in order: pages and tables, a table
    after what it leads to. *)
Fixpoint entry_freed (m : PMem) (n : nat) (e : Z) : list Z :=
  if present e then
    match n with
    | O => [frame_of_entry e]
    | S n' =>
        if huge e then huge_freed n (frame_of_entry e)
        else flat_map (fun i => entry_freed m n' (rd m (word (frame_of_entry e) i))) (seq 0 512) ++ [frame_of_entry e]
    end
  else [].

Definition space_freed (m : PMem) (c : Z) : list Z :=
  flat_map (fun i => entry_freed m 3 (rd m (word (cr3_table c) i))) (seq 0 256) ++ [cr3_table c].

Lemma foldl_flat {A} (step : FrameAllocator -> A -> FrameAllocator) (fs : A -> list Z) l : forall fa,
  (forall fa i, step fa i = foldl free_frame fa (fs i)) ->
  foldl step fa l = foldl free_frame fa (flat_map fs l).
Proof. intros fa Hs. revert fa. induction l as [|i l IH]; intros fa; [done|]. cbn. by rewrite foldl_app, Hs, IH. Qed.

Lemma free_range_list base n fa : free_range base n fa = foldl free_frame fa (range base n).
Proof.
  unfold free_range, range. generalize (seq 0 n). intros l. revert fa. induction l as [|i l IH]; intros fa; [done|].
  cbn [foldl map]. by rewrite IH.
Qed.

Lemma entry_freed_S m n e :
  entry_freed m (S n) e =
    if present e then
      if huge e then huge_freed (S n) (frame_of_entry e)
      else flat_map (fun i => entry_freed m n (rd m (word (frame_of_entry e) i))) (seq 0 512) ++ [frame_of_entry e]
    else [].
Proof. done. Qed.

(** One level of the walk. *)
Lemma free_table m n step table fa idxs :
  (forall fa i, step fa i = foldl free_frame fa (entry_freed m n (rd m (word table i)))) ->
  free_frame (foldl step fa idxs) table =
    foldl free_frame fa (flat_map (fun i => entry_freed m n (rd m (word table i))) idxs ++ [table]).
Proof. intros Hs. rewrite foldl_app. cbn [foldl]. f_equal. by apply foldl_flat. Qed.

Lemma free_pt_frames m pt fa i : free_pt_entry m pt fa i = foldl free_frame fa (entry_freed m 0 (rd m (word pt i))).
Proof. unfold free_pt_entry. cbn [entry_freed]. by destruct (present _). Qed.

Lemma free_pd_frames m pd fa i : free_pd_entry m pd fa i = foldl free_frame fa (entry_freed m 1 (rd m (word pd i))).
Proof.
  unfold free_pd_entry. rewrite entry_freed_S. destruct (present _); cbn [negb]; [|done]. destruct (huge _); [done|].
  apply free_table, free_pt_frames.
Qed.

Lemma free_pdpt_frames m t fa i : free_pdpt_entry m t fa i = foldl free_frame fa (entry_freed m 2 (rd m (word t i))).
Proof.
  unfold free_pdpt_entry. rewrite entry_freed_S. destruct (present _); cbn [negb]; [|done].
  destruct (huge _); [apply free_range_list|]. apply free_table, free_pd_frames.
Qed.

Lemma free_pml4_frames m t fa i : free_pml4_entry m t fa i = foldl free_frame fa (entry_freed m 3 (rd m (word t i))).
Proof.
  unfold free_pml4_entry. rewrite entry_freed_S. destruct (present _); cbn [negb]; [|done].
  destruct (huge _); [apply free_range_list|]. apply free_table, free_pdpt_frames.
Qed.

(** The guards of [destroy_address_space]. *)
Definition destroyable (s : Paging) (c : Z) : Prop :=
  cr3_table c <> cr3_table (KERNEL_CR3 s) /\ cr3_table c <> 0 /\ is_already_freed s (cr3_table c) = false.

Lemma destroy_frames s c :
  destroyable s c ->
  let s' := destroy_address_space c s in
  frames s' = foldl free_frame (frames s) (space_freed (pmem s) c) /\ pmem s' = pmem s /\
  KERNEL_CR3 s' = KERNEL_CR3 s /\ LEVEL4_PHYS s' = LEVEL4_PHYS s /\
  FREED_CR3_COUNT s' = u64_add (FREED_CR3_COUNT s) 1 /\
  FREED_CR3_LIST s' = FREED_CR3_LIST (mark_freed (cr3_table c) s).
Proof.
  intros (Hk & H0 & Hf). unfold destroy_address_space.
  rewrite (proj2 (Z.eqb_neq _ _) Hk), (proj2 (Z.eqb_neq _ _) H0), Hf. cbn zeta.
  set (s1 := if _ =? _ then _ else _).
  assert (s1 = set_cr3 (cr3 s1) (mark_freed (cr3_table c) s)) as ->.
  { unfold s1. by destruct (_ =? _). }
  cbn [with_frames frames pmem KERNEL_CR3 LEVEL4_PHYS FREED_CR3_COUNT FREED_CR3_LIST set_cr3 mark_freed].
  split_and!; [|done..]. unfold space_freed. rewrite foldl_app. cbn [foldl]. f_equal.
  apply foldl_flat. apply free_pml4_frames.
Qed.

(** *** Freeing a list of frames *)

Definition room (fa : FrameAllocator) : Prop := Z.of_nat (free_count fa) < FREE_STACK_SIZE.

Lemma free_frame_push fa p :
  page_aligned p -> p <> 0 -> p ∉ free_stack fa -> room fa ->
  free_stack (free_frame fa p) = p :: free_stack fa /\
  free_frames_count (free_frame fa p) = free_frames_count fa + 1.
Proof.
  intros Ha Hp Hn Hr. unfold free_frame.
  replace (Z.land p (PAGE_SIZE_U64 - 1)) with 0 by (symmetry; etransitivity; [apply (Z.land_ones p 12); lia|exact Ha]).
  rewrite (proj2 (Z.eqb_neq p 0) Hp), (proj2 (Z.ltb_lt _ _) Hr). cbn [orb negb Z.eqb].
  rewrite (not_true_is_false (existsb _ _)).
  - split; [done|]. unfold free_frames_count, free_count, high_pass_frames, low_pass_frames. cbn [free_stack length regions region_count next_free low_cursor floor]. lia.
  - intros (x & Hx & E)%existsb_exists. apply Hn. bsplit. subst. by apply list_elem_of_In.
Qed.

Lemma free_frame_stack fa p : free_stack fa ⊆ free_stack (free_frame fa p) /\
  (free_count fa <= free_count (free_frame fa p))%nat /\ floor (free_frame fa p) = floor fa.
Proof.
  unfold free_frame, free_count. destruct (_ || _); [done|]. destruct (existsb _ _); [done|].
  destruct (_ <? _); [|done]. cbn. split_and!; [set_solver|lia|done].
Qed.

Lemma free_all_stack ps : forall fa, free_stack fa ⊆ free_stack (foldl free_frame fa ps) /\
  (free_count fa <= free_count (foldl free_frame fa ps))%nat /\ floor (foldl free_frame fa ps) = floor fa.
Proof.
  induction ps as [|p ps IH]; intros fa; [done|]. cbn [foldl].
  destruct (IH (free_frame fa p)) as (H1 & H2 & H3), (free_frame_stack fa p) as (K1 & K2 & K3).
  split_and!; [by etransitivity|lia|congruence].
Qed.

Lemma free_all_room ps fa : room (foldl free_frame fa ps) -> room fa.
Proof. unfold room. destruct (free_all_stack ps fa) as (_ & H & _). lia. Qed.

(** While the stack does not fill up, every frame freed ends on it. *)
Lemma free_all_in ps p : forall fa,
  p ∈ ps -> page_aligned p -> p <> 0 -> room (foldl free_frame fa ps) -> p ∈ free_stack (foldl free_frame fa ps).
Proof.
  induction ps as [|q ps IH]; intros fa Hp Ha H0 Hr; [by apply not_elem_of_nil in Hp|]. cbn [foldl] in *.
  apply elem_of_cons in Hp as [->|Hp]; [|by apply IH].
  apply (free_all_stack ps). apply free_all_room in Hr.
  destruct (decide (q ∈ free_stack fa)) as [Hin|Hn]; [by apply free_frame_stack|].
  assert (room fa) as Hf by (unfold room in *; destruct (free_frame_stack fa q) as (_ & H & _); lia).
  destruct (free_frame_push fa q Ha H0 Hn Hf) as [-> _]. by left.
Qed.

Lemma free_all_inv U ps : forall fa O,
  FrameProofs.inv U fa O -> NoDup ps -> (forall p, p ∈ ps -> p ∈ O) ->
  FrameProofs.inv U (foldl free_frame fa ps) (O ∖ list_to_set ps) /\
  (Forall (fun p => p <> 0) ps -> Z.of_nat (free_count fa + length ps) <= FREE_STACK_SIZE ->
    free_frames_count (foldl free_frame fa ps) = free_frames_count fa + Z.of_nat (length ps)).
Proof.
  induction ps as [|p ps IH]; intros fa O Hi Hd Hin; cbn [foldl list_to_set length].
  { split; [|lia]. by rewrite difference_empty_L. }
  apply NoDup_cons in Hd as [Hp Hd]. assert (p ∈ O) as HpO by (apply Hin; by left).
  destruct (IH (free_frame fa p) (O ∖ {[p]})) as [H1 H2]; [by apply FrameProofs.free_frame_inv|done| |].
  { intros q Hq. apply elem_of_difference. split; [apply Hin; by right|]. intros ->%elem_of_singleton. done. }
  split; [by rewrite <-difference_difference_l_L|]. intros [H0 H0']%Forall_cons Hr.
  destruct (free_frame_push fa p) as [Hs Hc];
    [apply (FrameProofs.inv_owned _ _ _ Hi p HpO)|done| |unfold room; lia|].
  { intros Hst. by apply (FrameProofs.inv_stack _ _ _ Hi p Hst). }
  rewrite H2, Hc; [lia|done|]. unfold free_count in *. rewrite Hs. cbn. lia.
Qed.

(** The frames an entry [n] levels above the last takes up: its table with what that leads to, or a page.  A page
    of [n] levels above the last has [512 ^ n] frames. *)
Fixpoint entry_frames (m : PMem) (n : nat) (e : Z) : list Z :=
  if present e then
    match n with
    | O => [frame_of_entry e]
    | S n' =>
        if huge e then range (frame_of_entry e) (Z.to_nat (512 ^ Z.of_nat n))
        else flat_map (fun i => entry_frames m n' (rd m (word (frame_of_entry e) i))) (seq 0 512) ++ [frame_of_entry e]
    end
  else [].

(** The frames of an address space: everything its user half takes up, and its top table. *)
Definition space_frames (m : PMem) (c : Z) : list Z :=
  flat_map (fun i => entry_frames m 3 (rd m (word (cr3_table c) i))) (seq 0 256) ++ [cr3_table c].

(** No large page below the entry, and none in the user half. *)
Fixpoint no_large (m : PMem) (n : nat) (e : Z) : bool :=
  match n with
  | O => true
  | S n' =>
      if present e then negb (huge e) && forallb (fun i => no_large m n' (rd m (word (frame_of_entry e) i))) (seq 0 512)
      else true
  end.
Definition small_pages (m : PMem) (c : Z) : bool := forallb (fun i => no_large m 3 (rd m (word (cr3_table c) i))) (seq 0 256).

Lemma flat_map_same {A B} (f g : A -> list B) l : (forall x, In x l -> f x = g x) -> flat_map f l = flat_map g l.
Proof. induction l as [|x l IH]; intros H; [done|]. cbn. rewrite H by by left. f_equal. apply IH. intros y Hy. apply H. by right. Qed.

Lemma freed_small m n : forall e, no_large m n e = true -> entry_freed m n e = entry_frames m n e.
Proof.
  induction n as [|n IH]; intros e; cbn [no_large entry_freed entry_frames]; [done|]. destruct (present e); [|done].
  intros [Hh Hf]%andb_true_iff. apply negb_true_iff in Hh as ->.
  apply (f_equal (fun l => l ++ [frame_of_entry e])), flat_map_same. intros i Hi. apply IH.
  rewrite forallb_forall in Hf. by apply Hf.
Qed.

Lemma space_freed_small m c : small_pages m c = true -> space_freed m c = space_frames m c.
Proof.
  intros Hs. unfold space_freed, space_frames. apply (f_equal (fun l => l ++ [cr3_table c])), flat_map_same. intros i Hi. apply freed_small.
  unfold small_pages in Hs. rewrite forallb_forall in Hs. by apply Hs.
Qed.

(** C24: [destroy_address_space] gives back the frames of an address space.  The space is not the kernel's, its top table is
    not on the list of freed ones, it has no large pages, and the frames of its user half and its top table are
    distinct and in use.  Then the allocator afterwards treats these frames and no others as
    free, memory is unchanged, and, as long as the free stack holds them all, that many more
    frames can be allocated. *)
Theorem destroy_returns_frames U O s c :
  owns U O s -> destroyable s c -> small_pages (pmem s) c = true -> NoDup (space_frames (pmem s) c) ->
  (forall p, p ∈ space_frames (pmem s) c -> p ∈ O) ->
  let s' := destroy_address_space c s in
  owns U (O ∖ list_to_set (space_frames (pmem s) c)) s' /\ pmem s' = pmem s /\
  (0 ∉ space_frames (pmem s) c ->
   Z.of_nat (free_count (frames s) + length (space_frames (pmem s) c)) <= FREE_STACK_SIZE ->
   free s' = free s + Z.of_nat (length (space_frames (pmem s) c))).
Proof.
  intros [Hi Hfl] Hds Hsm Hd Hin. destruct (destroy_frames s c Hds) as (Hf & Hm & _). rewrite space_freed_small in Hf by done.
  destruct (free_all_inv U (space_frames (pmem s) c) (frames s) O Hi Hd Hin) as [Hi' Hc]. cbn zeta.
  unfold owns, free. rewrite Hf, Hm. split_and!; [done| |done|].
  - destruct (free_all_stack (space_frames (pmem s) c) (frames s)) as (_ & _ & ->). done.
  - intros H0 Hr. apply Hc; [|done]. apply Forall_forall. intros p Hp ->. done.
Qed.

End Destroy.

(** ** Clones and new spaces after a destruction *)

Module Lifecycle.
Import Destroy.

Lemma page_entry_freed m shifts virt : forall e l,
  small m shifts e virt -> leaf_from m shifts e virt = Some l -> frame_of_entry l ∈ entry_freed m (length shifts) e.
Proof.
  induction shifts as [|sh shifts IH]; intros e l Hs Hl; cbn [leaf_from] in Hl.
  - cbn. destruct (present e); [|done]. injection Hl as ->. by left.
  - cbn [length]. rewrite entry_freed_S. cbn [small] in Hs. destruct (present e); [|done].
    destruct (Hs eq_refl) as [-> Hs']. apply elem_of_app. left. apply list_elem_of_In, in_flat_map.
    exists (index_at virt sh). split; [apply in_seq; pose proof (index_lt virt sh); lia|]. apply list_elem_of_In. by apply IH.
Qed.

Lemma space_freed_page m c virt e :
  (index_at virt 39 < 256)%nat -> small m [30; 21; 12] (rd m (word (cr3_table c) (index_at virt 39))) virt ->
  page_entry m c virt = Some e -> frame_of_entry e ∈ space_freed m c.
Proof.
  intros Hi Hs He. unfold space_freed. apply elem_of_app. left. apply list_elem_of_In, in_flat_map.
  exists (index_at virt 39). split; [apply in_seq; lia|]. apply list_elem_of_In. by apply (page_entry_freed m [30; 21; 12] virt).
Qed.

Lemma freed_registers s s' c : registers s' = registers s -> destroyable s c -> destroyable s' c.
Proof. unfold destroyable, is_already_freed. intros [= _ _ -> _ -> ->]. done. Qed.

Lemma leaf_same O m m' virt shifts : forall e,
  (forall a, page_of a ∈ O -> rd m' a = rd m a) -> wf_entry O m (length shifts) e ->
  leaf_from m' shifts e virt = leaf_from m shifts e virt /\ small m' shifts e virt.
Proof.
  induction shifts as [|sh shifts IH]; intros e Hm Hw; cbn [leaf_from small length wf_entry] in *; [done|].
  destruct (present e) eqn:Hp; [|done]. destruct (Hw eq_refl) as (Hh & Hf & Hi).
  rewrite Hm by (rewrite page_of_word; [done|apply frame_of_entry_aligned|apply index_lt]).
  destruct (IH (rd m (word (frame_of_entry e) (index_at virt sh))) Hm) as [H1 H2]; [apply Hi, index_lt|done].
Qed.

(** C10: Destroying a clone frees the pages it shares with its parent. After
    [clone_user_address_space] and [destroy_address_space] of the clone, the frame of every
    read-only user page of the parent is on the allocator's free stack, next in line
    to be given away, while the parent still maps it. *)
Theorem destroyed_clone_frees_shared_page U O s c c' s1 virt e :
  owns U O s -> Clone.user_space O (pmem s) c -> is_u64 (KERNEL_CR3 s) -> cr3_table (KERNEL_CR3 s) ∈ O ->
  clone_user_address_space c s = (Some c', s1) -> cr3_table c' <> 0 ->
  is_already_freed s (cr3_table c') = false ->
  (index_at virt 39 < 256)%nat -> page_entry (pmem s) c virt = Some e -> writable e = false -> frame_of_entry e <> 0 ->
  let s2 := destroy_address_space c' s1 in
  room (frames s2) ->
  frame_of_entry e ∈ free_stack (frames s2) /\
  virt_to_phys_raw (pmem s2) c virt = Some (Z.lor (frame_of_entry e) (Z.land virt 0xFFF)).
Proof.
  intros Ho Hu Hk HkO E Hc0 Hnf Hv He Hw Hf0.
  destruct (Clone.clone_run U O s c Hu Hk HkO Ho) as (O' & HO & Ho' & Hke & Hm).
  pose proof (steady_clone c s) as Hreg. rewrite E in *. cbn in Ho', Hke, Hm, Hreg.
  destruct Hm as (_ & f & -> & Hfo & Hg & Hcp & _).
  set (c' := Z.lor f (Z.land c 0x18)) in *.
  assert (cr3_table c' = f) as Hcr by exact (cr3_table_flags f _ Hg (pcid_flags_low c)).
  assert (destroyable s1 c') as Hds.
  { apply (freed_registers s); [done|]. split_and!; [|done|done]. rewrite Hcr. intros ->. set_solver. }
  destruct (destroy_frames s1 c' Hds) as (Hfr & Hpm & _). cbn zeta. rewrite Hfr, Hpm. intros Hroom.
  destruct Hu as (Huc & HcO & Hwf). specialize (Hcp _ Hv). specialize (Hwf _ Hv). split.
  - apply free_all_in; [|apply frame_of_entry_aligned|done|done].
    pose proof (copied_leaf (pmem s) [30; 21; 12] virt _ _ _ _ Hcp) as Hl.
    fold (page_entry (pmem s) c virt) in Hl. rewrite He in Hl. destruct Hl as (Hp & e' & He' & Hce).
    cbn in Hce. rewrite Hp, Hw in Hce. subst e'. apply (space_freed_page (pmem s1) c' virt); [done|..].
    + rewrite Hcr. eapply (copied_small O (pmem s) [30; 21; 12]); [exact Hwf|exact Hcp].
    + unfold page_entry. by rewrite Hcr.
  - assert (forall a, page_of a ∈ O -> rd (pmem s1) a = rd (pmem s) a) as Hsame by (intros a Ha; by apply Hke).
    assert (rd (pmem s1) (word (cr3_table c) (index_at virt 39)) = rd (pmem s) (word (cr3_table c) (index_at virt 39))) as Htop.
    { apply Hsame. rewrite page_of_word; [done|by apply cr3_table_aligned|lia]. }
    destruct (leaf_same O (pmem s) (pmem s1) virt [30; 21; 12] _ Hsame Hwf) as [Hlf Hsm].
    rewrite translate_page_entry by (by rewrite Htop). unfold page_entry in *. by rewrite Htop, Hlf, He.
Qed.

(** The record of freed top tables still has room. *)
Definition recording (s : Paging) : Prop :=
  0 <= FREED_CR3_COUNT s < 64 /\ length (FREED_CR3_LIST s) = MAX_FREED_CR3.

Lemma destroy_recorded s c :
  recording s -> destroyable s c -> is_already_freed (destroy_address_space c s) (cr3_table c) = true.
Proof.
  intros [Hc Hl] Hd. destruct (destroy_frames s c Hd) as (_ & _ & _ & _ & Hcnt & Hlist).
  unfold is_already_freed. rewrite Hcnt, Hlist, u64_add_small by (unfold is_u64, U64; lia).
  apply existsb_exists. exists (cr3_table c). split; [|apply Z.eqb_refl]. apply list_elem_of_In.
  unfold mark_freed. cbn [FREED_CR3_LIST]. rewrite (proj2 (Z.ltb_lt _ _)) by lia.
  apply (list_elem_of_lookup_2 _ (Z.to_nat (FREED_CR3_COUNT s))).
  rewrite lookup_take_lt by lia. apply list_lookup_insert_eq. rewrite Hl. unfold MAX_FREED_CR3. lia.
Qed.

Lemma destroy_freed_noop s c : is_already_freed s (cr3_table c) = true -> destroy_address_space c s = s.
Proof. intros Hf. unfold destroy_address_space. rewrite Hf. destruct (cr3_table c =? _); [done|]. by destruct (cr3_table c =? 0). Qed.

(** A second [destroy_address_space] of the same address space changes nothing while
    fewer than 64 spaces have been destroyed since boot. *)
Theorem destroy_twice_is_once s c :
  recording s -> destroy_address_space c (destroy_address_space c s) = destroy_address_space c s.
Proof.
  intros Hr. destruct (Z.eq_dec (cr3_table c) (cr3_table (KERNEL_CR3 s))) as [Hk|Hk];
    [|destruct (Z.eq_dec (cr3_table c) 0) as [H0|H0]; [|destruct (is_already_freed s (cr3_table c)) eqn:Hf]].
  - assert (destroy_address_space c s = s) as Hn by (unfold destroy_address_space; by rewrite (proj2 (Z.eqb_eq _ _) Hk)).
    by rewrite !Hn.
  - assert (destroy_address_space c s = s) as Hn.
    { unfold destroy_address_space. rewrite (proj2 (Z.eqb_eq _ _) H0). by destruct (_ =? _). }
    by rewrite !Hn.
  - by rewrite !(destroy_freed_noop s c Hf).
  - apply destroy_freed_noop, destroy_recorded; [done|]. by split_and!.
Qed.

Lemma copy_words_mem src dst n s : exists m', copy_words src dst n s = (Some tt, with_mem (fun _ => m') s).
Proof. eexists. by apply (for_each_write (fun m i => rd m (word src i))). Qed.

Lemma P_bind_Some {A B} (c : P A) (k : A -> P B) s x s' : c s = (Some x, s') -> (c ≫= k) s = k x s'.
Proof. intros E. unfold mbind, P_bind. by rewrite E. Qed.

Lemma P_bind_None {A B} (c : P A) (k : A -> P B) s s' : c s = (None, s') -> (c ≫= k) s = (None, s').
Proof. intros E. unfold mbind, P_bind. by rewrite E. Qed.

(** What [create_address_space] does to the allocator. *)
Lemma create_alloc s c s' :
  create_address_space s = (Some c, s') ->
  exists f, alloc_frame (frames s) = (frames s', Some f) /\ c = Z.lor f (Z.land (cr3 s') 0x18).
Proof.
  unfold create_address_space. rewrite (P_bind_Some (get LEVEL4_PHYS) _ s _ s eq_refl).
  destruct (alloc_frame (frames s)) as [fa [f|]] eqn:Ea.
  2:{ rewrite (P_bind_None alloc _ s (with_frames fa s)) by (unfold alloc; by rewrite Ea). done. }
  rewrite (P_bind_Some alloc _ s f (with_frames fa s)) by (unfold alloc; by rewrite Ea).
  destruct (copy_words_mem (LEVEL4_PHYS s) f 512 (with_frames fa s)) as [m1 E1].
  rewrite (P_bind_Some _ _ _ _ _ E1). clear E1.
  destruct (zero_words_spec f 256 (with_mem (fun _ => m1) (with_frames fa s))) as (m2 & E2 & _).
  rewrite (P_bind_Some _ _ _ _ _ E2). clear E2. intros E.
  rewrite (P_bind_Some (get cr3) _ _ _ _ eq_refl) in E. injection E as <- <-. by exists f.
Qed.

Lemma empty_space_freed m c :
  (forall i, (i < 256)%nat -> rd m (word (cr3_table c) i) = 0) -> space_freed m c = [cr3_table c].
Proof.
  intros Hz. unfold space_freed. enough (forall l, Forall (fun i => i < 256)%nat l ->
    flat_map (fun i => entry_freed m 3 (rd m (word (cr3_table c) i))) l = []) as ->; [done| |].
  - apply Forall_forall. intros i Hi%elem_of_seq. lia.
  - induction 1 as [|i l Hi _ IH]; [done|]. cbn [flat_map]. by rewrite Hz, IH.
Qed.

(** The double-free guard leaks address spaces. The free stack hands the top table of
    a destroyed space to the next one created; that space is then still on record
    as freed, and [destroy_address_space] never returns any of its frames. *)
Theorem recycled_space_never_destroyed U O s c s1 c2 s3 :
  owns U O s -> page_aligned (LEVEL4_PHYS s) -> LEVEL4_PHYS s ∈ O -> recording s ->
  create_address_space s = (Some c, s1) -> room (frames s1) -> destroyable s1 c ->
  create_address_space (destroy_address_space c s1) = (Some c2, s3) ->
  cr3_table c2 = cr3_table c /\
  forall s4, registers s4 = registers s3 -> destroy_address_space c2 s4 = s4.
Proof.
  intros Ho Ha HO Hrec E1 Hroom Hds E2.
  destruct (Create.create_run U O s Ha HO Ho) as (O' & _ & [Hi1 _] & _ & Hm).
  pose proof (steady_create s) as Hreg1. pose proof (steady_create (destroy_address_space c s1)) as Hreg2.
  rewrite E1, E2 in *. cbn in Hi1, Hm, Hreg1, Hreg2. destruct Hm as (_ & f & -> & Hfo & Hg & -> & Hz & _).
  set (c := Z.lor f (Z.land (cr3 s1) 0x18)) in *.
  assert (cr3_table c = f) as Hcr by exact (cr3_table_flags f _ Hg (pcid_flags_low _)).
  destruct (destroy_frames s1 c Hds) as (Hfr & _).
  rewrite empty_space_freed in Hfr by (by rewrite Hcr). cbn [foldl] in Hfr. rewrite Hcr in Hfr.
  destruct (create_alloc _ _ _ E2) as (f2 & Hal & ->). rewrite Hfr in Hal.
  destruct (free_frame_push (frames s1) f) as [Hst _]; [apply Hg|rewrite <-Hcr; apply Hds| |done|].
  { intros Hin. apply (FrameProofs.inv_stack _ _ _ Hi1 f Hin). set_solver. }
  unfold alloc_frame in Hal. rewrite Hst in Hal. injection Hal as _ <-.
  rewrite Hcr, (cr3_table_flags f _ Hg (pcid_flags_low _)). split; [done|]. intros s4 Hreg4.
  apply destroy_freed_noop. rewrite (cr3_table_flags f _ Hg (pcid_flags_low _)), <-Hcr.
  assert (recording s1) as Hrec1 by (unfold recording in *; by injection Hreg1 as _ _ _ _ -> ->).
  rewrite <-(destroy_recorded s1 c Hrec1 Hds). rewrite Hreg2 in Hreg4.
  unfold is_already_freed. by injection Hreg4 as _ _ _ _ -> ->.
Qed.

End Lifecycle.

(** ** Witnesses *)

Module SpaceDemo.
Import PagingDemo Clone Destroy Lifecycle.

Lemma route_wf O m virt levels : forall table a,
  Unmap.upper levels -> page_aligned table -> table ∈ O ->
  match levels with
  | [] => True
  | (_, shift) :: levels => wf_entry O m (length levels) (rd m (word table (index_at virt shift)))
  end ->
  a ∈ route m levels table virt -> page_of a ∈ O.
Proof.
  induction levels as [|[level shift] levels IH]; intros table a Hu Ha Ht Hw Hr; [by apply not_elem_of_nil in Hr|].
  cbn [route] in Hr. apply elem_of_cons in Hr as [->|Hr]; [by rewrite page_of_word by (done || apply index_lt)|].
  destruct (present _ && _) eqn:E; [|by apply not_elem_of_nil in Hr]. bsplit. destruct Hu as [_ Hu].
  destruct levels as [|[l2 sh2] levels]; [by apply not_elem_of_nil in Hr|].
  cbn [length wf_entry] in Hw. destruct (Hw H) as (_ & Hf & Hi).
  apply (IH (frame_of_entry (rd m (word table (index_at virt shift))))); [done|apply frame_of_entry_aligned|done|apply Hi, index_lt|done].
Qed.

Lemma demo_kernel_routes virt a :
  (256 <= index_at virt 39)%nat -> a ∈ route demo_mem LEVELS 0x100000 virt -> page_of a ∈ demo_owned.
Proof.
  assert (forallb (fun i => wf_entry_b demo_owned demo_mem 3 (rd demo_mem (word 0x100000 i))) (seq 256 256) = true) as H
    by (vm_compute; reflexivity).
  intros Hi. apply route_wf; [apply Unmap.LEVELS_upper|vm_compute; reflexivity| |].
  { apply (bool_decide_unpack _). vm_compute. exact I. }
  apply wf_entry_b_sound. rewrite forallb_forall in H. apply H, in_seq. pose proof (index_lt virt 39). lia.
Qed.

Lemma create_shares_kernel_half_witness :
  exists s', create_address_space demo_paging = (Some 0x108000, s') /\ free s' = free demo_paging - 1 /\
    virt_to_phys_raw (pmem s') 0x108000 0x1008 = None.
Proof.
  pose proof (Create.create_shares_kernel_half _ _ demo_paging demo_owns eq_refl demo_kernel_routes) as H.
  assert ((create_address_space demo_paging).1 = Some 0x108000) as E by (vm_compute; reflexivity).
  destruct (create_address_space demo_paging) as [r s']. cbn [fst] in E. subst r.
  destruct H as (Hf & _ & _ & _ & Hv). exists s'. split; [reflexivity|]. split; [exact Hf|].
  rewrite Hv. reflexivity.
Defined.

Lemma demo_destroyable : destroyable demo_paging demo_cr3.
Proof. split_and!; vm_compute; discriminate || reflexivity. Qed.

Lemma destroy_returns_frames_witness :
  destroyable demo_paging demo_cr3 /\
  free (destroy_address_space demo_cr3 demo_paging) = free demo_paging + 6.
Proof.
  split; [exact demo_destroyable|].
  assert (small_pages (pmem demo_paging) demo_cr3 = true) as Hsm by (vm_compute; reflexivity).
  assert (space_frames (pmem demo_paging) demo_cr3 = [0x105000; 0x106000; 0x104000; 0x103000; 0x102000; 0x101000]) as E
    by (vm_compute; reflexivity).
  destruct (destroy_returns_frames _ demo_owned demo_paging demo_cr3 demo_owns demo_destroyable Hsm) as (_ & _ & H).
  - rewrite E. apply (bool_decide_unpack _). vm_compute. exact I.
  - rewrite E. intros p Hp. assert (Forall (fun p => p ∈ demo_owned) [0x105000; 0x106000; 0x104000; 0x103000; 0x102000; 0x101000]) as Hf.
    { apply (bool_decide_unpack _). vm_compute. exact I. }
    rewrite Forall_forall in Hf. apply Hf, Hp.
  - rewrite E in H. apply H; [|vm_compute; discriminate]. apply (bool_decide_unpack _). vm_compute. exact I.
Defined.

Lemma demo_recording : recording demo_paging.
Proof. split_and!; vm_compute; discriminate || reflexivity. Qed.

Lemma destroy_twice_is_once_witness :
  recording demo_paging /\
  destroy_address_space demo_cr3 (destroy_address_space demo_cr3 demo_paging) = destroy_address_space demo_cr3 demo_paging.
Proof. split; [exact demo_recording|]. exact (destroy_twice_is_once demo_paging demo_cr3 demo_recording). Defined.

Lemma destroyed_clone_frees_shared_page_witness :
  exists s1, clone_user_address_space demo_cr3 demo_paging = (Some 0x108000, s1) /\
    0x106000 ∈ free_stack (frames (destroy_address_space 0x108000 s1)) /\
    virt_to_phys_raw (pmem (destroy_address_space 0x108000 s1)) demo_cr3 0x1008 = Some 0x106008.
Proof.
  pose proof demo_clone as E.
  assert (room (frames (destroy_address_space 0x108000 (clone_user_address_space demo_cr3 demo_paging).2))) as Hr
    by (vm_compute; reflexivity).
  destruct (clone_user_address_space demo_cr3 demo_paging) as [r s1] eqn:Er. cbn [fst snd] in E, Hr. subst r.
  exists s1. split; [reflexivity|].
  exact (destroyed_clone_frees_shared_page _ demo_owned demo_paging demo_cr3 0x108000 s1 0x1008 0x106005 demo_owns
    demo_user_space (proj1 demo_kernel) (proj2 demo_kernel) Er ltac:(vm_compute; discriminate)
    ltac:(vm_compute; reflexivity) ltac:(apply (bool_decide_unpack _); vm_compute; exact I)
    ltac:(vm_compute; reflexivity) ltac:(vm_compute; reflexivity) ltac:(vm_compute; discriminate) Hr).
Defined.

Lemma recycled_space_never_destroyed_witness :
  exists s1 s3, create_address_space demo_paging = (Some 0x108000, s1) /\
    create_address_space (destroy_address_space 0x108000 s1) = (Some 0x108000, s3) /\
    destroy_address_space 0x108000 s3 = s3.
Proof.
  assert ((create_address_space demo_paging).1 = Some 0x108000) as E1 by (vm_compute; reflexivity).
  set (s1 := (create_address_space demo_paging).2).
  assert (room (frames s1) /\ destroyable s1 0x108000) as [Hr Hd].
  { split; [vm_compute; reflexivity|]. split; [vm_compute; discriminate|]. split; [vm_compute; discriminate|vm_compute; reflexivity]. }
  assert ((create_address_space (destroy_address_space 0x108000 s1)).1 = Some 0x108000) as E3 by (vm_compute; reflexivity).
  assert (create_address_space demo_paging = (Some 0x108000, s1)) as E1'.
  { unfold s1. destruct (create_address_space demo_paging) as [r s]. cbn [fst snd] in *. subst r. reflexivity. }
  clearbody s1. destruct (create_address_space (destroy_address_space 0x108000 s1)) as [r s3] eqn:E3'. cbn [fst] in E3. subst r.
  exists s1, s3. split; [exact E1'|]. split; [exact E3'|].
  assert (LEVEL4_PHYS demo_paging ∈ demo_owned) as Ho by (apply (bool_decide_unpack _); vm_compute; exact I).
  destruct (recycled_space_never_destroyed _ demo_owned demo_paging 0x108000 s1 0x108000 s3 demo_owns eq_refl Ho
    demo_recording E1' Hr Hd E3') as [_ H]. apply H. reflexivity.
Defined.

End SpaceDemo.
