(* ===== verification/Heap.v ===== *)
(** The kernel heap: src/crates/zenus-mem/src/allocator.rs.

    A free-list allocator over one static byte array.  Block headers live in the
    array itself, immediately below their payload, so the model keeps them in
    the byte memory of [Memory] and reads them back from there; nothing stops a
    header from being overwritten except the proofs below.  The address the
    linker gives the array is a parameter.  A chain walk is a loop over a list
    the memory holds, so the walks carry fuel and answer [None] when it runs out;
    the theorems show that [WALK_FUEL] is enough in every reachable state. *)

From S2P Require Import Prelude Memory.

Open Scope word_scope.

Definition HEAP_SIZE : Z := 1024 * 1024 * 8.
Definition HEADER_SIZE : Z := 32.
Definition MIN_BLOCK : Z := 32.
Definition MAGIC_FREE : Z := 0x46524545424C4F43.
Definition MAGIC_USED : Z := 0x55534544424C4F43.
Definition CANARY_VALUE : Z := 0xDEADBEEFCAFEBABE.

(** Every block is at least a header long, so no chain is longer than this. *)
Definition WALK_FUEL : nat := Z.to_nat (HEAP_SIZE / HEADER_SIZE + 1).

Record BlockHeader := { magic : Z; size : Z; next : Z; canary : Z }.

Record Layout := { l_size : Z; l_align : Z }.

Record Heap := {
  mem : Mem;
  free_head : Z;
  initialized : bool;
  fault_reported : bool;
  split_trace : list Z;
}.

(** What [debug_check_free_list] can find wrong with a block. *)
Inductive Fault :=
| ChainTooLong
| OutsideArena
| PastArena
| NotAscending
| BadMagic
| Misaligned.

Module FreeList.

Definition read_header (m : Mem) (a : Z) : BlockHeader :=
  {| magic := load64 m a; size := load64 m (a + 8);
     next := load64 m (a + 16); canary := load64 m (a + 24) |}.

Definition write_header (m : Mem) (a : Z) (h : BlockHeader) : Mem :=
  store64 (store64 (store64 (store64 m a (magic h)) (a + 8) (size h))
    (a + 16) (next h)) (a + 24) (canary h).

#[global] Arguments read_header : simpl never.
#[global] Arguments write_header : simpl never.

Definition set_magic (m : Mem) (a v : Z) : Mem := store64 m a v.
Definition set_size (m : Mem) (a v : Z) : Mem := store64 m (a + 8) v.
Definition set_next (m : Mem) (a v : Z) : Mem := store64 m (a + 16) v.

#[global] Arguments set_magic : simpl never.
#[global] Arguments set_size : simpl never.
#[global] Arguments set_next : simpl never.

Definition with_mem (m : Mem) (h : Heap) : Heap :=
  {| mem := m; free_head := free_head h; initialized := initialized h;
     fault_reported := fault_reported h; split_trace := split_trace h |}.
Definition with_head (a : Z) (h : Heap) : Heap :=
  {| mem := mem h; free_head := a; initialized := initialized h;
     fault_reported := fault_reported h; split_trace := split_trace h |}.
Definition with_fault (h : Heap) : Heap :=
  {| mem := mem h; free_head := free_head h; initialized := initialized h;
     fault_reported := true; split_trace := split_trace h |}.
Definition with_trace (t : list Z) (h : Heap) : Heap :=
  {| mem := mem h; free_head := free_head h; initialized := initialized h;
     fault_reported := fault_reported h; split_trace := t |}.

Definition new : Heap :=
  {| mem := ∅; free_head := 0; initialized := false; fault_reported := false;
     split_trace := replicate 6 0 |}.

(** [(x + align - 1) & !(align - 1)]. *)
Definition align_up (x align : Z) : Z :=
  Z.land (x ⊞ align ⊟ 1) (u64_not (align ⊟ 1)).

Section Arena.
(** The address of the static array [HEAP]. *)
Variable heap_start : Z.

Definition ensure_initialized (h : Heap) : Heap :=
  if initialized h then h
  else
    {| mem := write_header (mem h) heap_start
         {| magic := MAGIC_FREE; size := HEAP_SIZE - HEADER_SIZE; next := 0;
            canary := CANARY_VALUE |};
       free_head := heap_start; initialized := true;
       fault_reported := fault_reported h; split_trace := split_trace h |}.

(** One block of the chain, tested in the order of the source. *)
Definition check_block (m : Mem) (cur prev : Z) : option Fault :=
  let arena_lo := heap_start in
  let arena_hi := heap_start ⊞ HEAP_SIZE in
  let b := read_header m cur in
  if (cur <? arena_lo) ||
     match checked_add cur HEADER_SIZE with
     | None => true
     | Some e => arena_hi <? e
     end
  then Some OutsideArena
  else if match checked_add cur HEADER_SIZE ≫= (fun e => checked_add e (size b)) with
          | Some end_ => negb (end_ <=? arena_hi)
          | None => true
          end
  then Some PastArena
  else if cur <=? prev then Some NotAscending
  else if negb (magic b =? MAGIC_FREE) || negb (canary b =? CANARY_VALUE)
  then Some BadMagic
  else if negb (cur mod 8 =? 0) then Some Misaligned
  else None.

(** [k] counts down from the 4096 blocks the source is willing to walk. *)
Fixpoint check_loop (k : nat) (m : Mem) (cur prev n : Z) : option (Z * Z * Fault) :=
  if cur =? 0 then None
  else
    match k with
    | O => Some (n, cur, ChainTooLong)
    | S k =>
        match check_block m cur prev with
        | Some f => Some (n, cur, f)
        | None => check_loop k m (next (read_header m cur)) cur (n + 1)
        end
    end.

Definition check_free_list (h : Heap) : option (Z * Z * Fault) :=
  check_loop 4096 (mem h) (free_head h) 0 0.

(** [report_list_fault] records that it ran; the rest of it is console output. *)
Definition debug_check_free_list (h : Heap) : Heap :=
  match check_free_list h with
  | None => h
  | Some _ => with_fault h
  end.

Definition record_split_trace (prev curr aligned_data sz block_size region_end : Z)
    (h : Heap) : Heap :=
  with_trace [curr; block_size; region_end; prev; aligned_data; sz] h.

(** Store [v] where the chain points at the current block: the head, or the
    [next] field of the block before it. *)
Definition link (prev v : Z) (h : Heap) : Heap :=
  if prev =? 0 then with_head v h
  else with_mem (set_next (mem h) prev v) h.

(** The body of the loop for a block the request fits in: carve the block and
    answer the payload address. *)
Definition carve (sz align prev curr : Z) (h : Heap) : Heap * Z :=
  let block := read_header (mem h) curr in
  let region_end := curr ⊞ HEADER_SIZE ⊞ size block in
  let used_hdr := align_up curr align in
  let aligned_data := used_hdr ⊞ HEADER_SIZE in
  let leftover := align_up (aligned_data ⊞ sz) align in
  let h1 :=
    if region_end <? leftover ⊞ HEADER_SIZE ⊞ MIN_BLOCK then
      link prev (next block) h
    else
      let leftover_size := region_end ⊟ leftover ⊟ HEADER_SIZE in
      let h' := with_mem (write_header (mem h) leftover
                  {| magic := MAGIC_FREE; size := leftover_size;
                     next := next block; canary := CANARY_VALUE |}) h in
      link prev leftover h' in
  let extent := align_up sz align in
  let h2 := with_mem (write_header (mem h1) used_hdr
              {| magic := MAGIC_USED; size := extent; next := 0;
                 canary := CANARY_VALUE |}) h1 in
  (record_split_trace prev curr aligned_data sz (size block) region_end h2,
   aligned_data).

Fixpoint alloc_loop (fuel : nat) (sz align prev curr : Z) (h : Heap) : option (Heap * Z) :=
  match fuel with
  | O => None
  | S fuel =>
      if curr =? 0 then Some (h, 0)
      else
        let block := read_header (mem h) curr in
        let region_end := curr ⊞ HEADER_SIZE ⊞ size block in
        let aligned_data := align_up curr align ⊞ HEADER_SIZE in
        if region_end <? aligned_data ⊞ sz then
          alloc_loop fuel sz align curr (next block) h
        else Some (carve sz align prev curr h)
  end.

Definition alloc_mut (l : Layout) (h : Heap) : option (Heap * Z) :=
  let h := debug_check_free_list (ensure_initialized h) in
  let sz := Z.max (l_size l) 1 in
  let align := Z.max (l_align l) 16 in
  alloc_loop WALK_FUEL sz align 0 (free_head h) h.

(** The insertion point: the last block at or below [block_start] and the first
    one above it. *)
Fixpoint walk (fuel : nat) (m : Mem) (block_start prev curr : Z) : option (Z * Z) :=
  match fuel with
  | O => None
  | S fuel =>
      if curr =? 0 then Some (prev, curr)
      else if block_start <? curr then Some (prev, curr)
      else walk fuel m block_start curr (next (read_header m curr))
  end.

(** The four ways a freed block joins the list. *)
Definition coalesce (block prev curr : Z) (h : Heap) : Heap :=
  let m := mem h in
  let block_size := size (read_header m block) in
  let block_end := block ⊞ HEADER_SIZE ⊞ block_size in
  let prev_end := if negb (prev =? 0)
                  then prev ⊞ HEADER_SIZE ⊞ size (read_header m prev) else 0 in
  let coalesce_prev := negb (prev =? 0) && (prev_end =? block) in
  let coalesce_next := negb (curr =? 0) && (block_end =? curr) in
  if coalesce_prev && coalesce_next then
    let n := read_header m curr in
    let m := set_size m prev
      (size (read_header m prev) ⊞ (HEADER_SIZE ⊞ block_size ⊞ HEADER_SIZE ⊞ size n)) in
    with_mem (set_next m prev (next n)) h
  else if coalesce_prev then
    with_mem (set_size m prev (size (read_header m prev) ⊞ (HEADER_SIZE ⊞ block_size))) h
  else if coalesce_next then
    let n := read_header m curr in
    let m := set_size m block (block_size ⊞ (HEADER_SIZE ⊞ size n)) in
    link prev block (with_mem (set_next m block (next n)) h)
  else
    link prev block (with_mem (set_next m block curr) h).

Definition dealloc_mut (ptr : Z) (h : Heap) : option Heap :=
  let h := debug_check_free_list (ensure_initialized h) in
  if ptr =? 0 then Some h
  else
    let block := ptr ⊟ HEADER_SIZE in
    let b := read_header (mem h) block in
    if magic b =? MAGIC_FREE then Some h
    else if negb (magic b =? MAGIC_USED) || negb (canary b =? CANARY_VALUE) then Some h
    else
      let h := with_mem (set_magic (mem h) block MAGIC_FREE) h in
      '(prev, curr) ← walk WALK_FUEL (mem h) block 0 (free_head h);
      Some (coalesce block prev curr h).

Fixpoint free_size_loop (fuel : nat) (m : Mem) (curr total : Z) : option Z :=
  match fuel with
  | O => None
  | S fuel =>
      if curr =? 0 then Some total
      else
        let block := read_header m curr in
        let total := if magic block =? MAGIC_FREE then total ⊞ size block else total in
        free_size_loop fuel m (next block) total
  end.

Definition free_size (h : Heap) : option (Heap * Z) :=
  let h := ensure_initialized h in
  t ← free_size_loop WALK_FUEL (mem h) (free_head h) 0;
  Some (h, t).

End Arena.

End FreeList.

Module HeapProofs.
Import FreeList.

(** The fuel is a large numeral; no proof needs to see it in unary. *)
#[local] Opaque WALK_FUEL.

(** ** The abstract heap

    A block is an address and a payload size.  The free list is a list of
    blocks; a live allocation is a block and the size the caller asked for. *)

Notation Blk := (Z * Z)%type.
Notation Live := (Blk * Z)%type.

Definition bend (b : Blk) : Z := b.1 + HEADER_SIZE + b.2.
Definition payload (b : Blk) : Z := b.1 + HEADER_SIZE.
Definition up16 (x : Z) : Z := (x + 15) / 16 * 16.

(** [x] ends strictly before [y]: consecutive free blocks never touch. *)
Definition before (x y : Blk) : Prop := bend x < y.1.
Definition apart (x y : Blk) : Prop := bend x <= y.1 \/ bend y <= x.1.

Definition head_or (d : Z) (fl : list Blk) : Z :=
  match fl with [] => d | b :: _ => b.1 end.
Definition last_addr (fl : list Blk) : Z :=
  match last fl with None => 0 | Some b => b.1 end.

Definition free_header (s nx : Z) : BlockHeader :=
  {| magic := MAGIC_FREE; size := s; next := nx; canary := CANARY_VALUE |}.
Definition used_header (s : Z) : BlockHeader :=
  {| magic := MAGIC_USED; size := s; next := 0; canary := CANARY_VALUE |}.

(** The memory holds the blocks of [fl] as a chain that ends in [d]. *)
Fixpoint linked (m : Mem) (fl : list Blk) (d : Z) : Prop :=
  match fl with
  | [] => True
  | b :: r => read_header m b.1 = free_header b.2 (head_or d r) /\ linked m r d
  end.

(** First fit: the blocks passed over, the block taken and the rest. *)
Fixpoint first_fit (sz : Z) (pre fl : list Blk) : option (list Blk * Blk * list Blk) :=
  match fl with
  | [] => None
  | b :: r => if b.2 <? sz then first_fit sz (pre ++ [b]) r else Some (pre, b, r)
  end.

(** What is left of a block after [sz] bytes were carved from its start. *)
Definition remainder (b : Blk) (sz : Z) : list Blk :=
  if b.2 <? up16 sz + 64 then []
  else [(payload b + up16 sz, b.2 - up16 sz - HEADER_SIZE)].

Definition join_prev (l1 : list Blk) (b : Blk) : list Blk * Blk :=
  match last l1 with
  | Some p => if bend p =? b.1 then (removelast l1, (p.1, p.2 + HEADER_SIZE + b.2))
              else (l1, b)
  | None => (l1, b)
  end.

Definition join_next (b : Blk) (l2 : list Blk) : list Blk :=
  match l2 with
  | n :: r => if bend b =? n.1 then (b.1, b.2 + HEADER_SIZE + n.2) :: r else b :: l2
  | [] => [b]
  end.

(** Return [b] to a free list cut at its address. *)
Definition join (l1 : list Blk) (b : Blk) (l2 : list Blk) : list Blk :=
  let '(l1', b') := join_prev l1 b in l1' ++ join_next b' l2.

Fixpoint cut (a : Z) (pre fl : list Blk) : list Blk * list Blk :=
  match fl with
  | [] => (pre, [])
  | b :: r => if a <? b.1 then (pre, fl) else cut a (pre ++ [b]) r
  end.

(** The bytes of a block list. *)
Definition covers (fl : list Blk) (x : Z) : Prop :=
  Exists (fun b => b.1 <= x < bend b) fl.

Section Invariant.
Variable hs : Z.

(** What the code relies on about the array: it is aligned for a header, not at
    address zero, and does not end at the top of the address space. *)
Definition arena_ok : Prop :=
  0 < hs /\ hs mod 16 = 0 /\ hs + HEAP_SIZE + 0x2000 < U64.

Definition blk_ok (b : Blk) : Prop :=
  hs <= b.1 /\ b.1 mod 16 = 0 /\ 16 <= b.2 /\ b.2 mod 16 = 0 /\ bend b <= hs + HEAP_SIZE.

(** A request the wrap-around of the address arithmetic cannot reach. *)
Definition layout_ok (l : Layout) : Prop :=
  0 <= l_size l /\ l_align l <= 16 /\ hs + HEAP_SIZE + l_size l + 0x1000 < U64.

Record heap_inv (h : Heap) (fl : list Blk) (live : list Live) : Prop := {
  hi_init : initialized h = true;
  hi_head : free_head h = head_or 0 fl;
  hi_linked : linked (mem h) fl 0;
  hi_free_ok : Forall blk_ok fl;
  hi_live_ok : Forall (fun u => blk_ok u.1 /\ 1 <= u.2 <= u.1.2) live;
  hi_before : pairwise before fl;
  hi_live_apart : pairwise (fun u v => apart u.1 v.1) live;
  hi_free_live : forall f u, f ∈ fl -> u ∈ live -> apart f u.1;
  hi_used : Forall (fun u => read_header (mem h) u.1.1 = used_header u.1.2) live;
}.

End Invariant.

(** ** Headers in memory *)

Lemma read_header_agree m m' a :
  agree m m' a 32 -> read_header m' a = read_header m a.
Proof.
  intros H. unfold read_header.
  f_equal; apply load64_agree; apply (agree_sub _ _ _ _ _ _ H); lia.
Qed.

Definition header_u64 (h : BlockHeader) : Prop :=
  is_u64 (magic h) /\ is_u64 (size h) /\ is_u64 (next h) /\ is_u64 (canary h).

Lemma read_write_header m a h :
  header_u64 h -> read_header (write_header m a h) a = h.
Proof.
  intros (?&?&?&?). destruct h as [mg sz nx cn]. unfold read_header, write_header; simpl in *.
  f_equal; repeat first [rewrite load64_store64_eq by done | rewrite load64_store64_ne by lia]; done.
Qed.

Lemma agree_write_header m a h b n :
  b + n <= a \/ a + 32 <= b -> agree m (write_header m a h) b n.
Proof.
  intros H. unfold write_header.
  repeat (eapply agree_trans; [|apply agree_store64; lia]). apply agree_refl.
Qed.

Lemma read_set_next m a v :
  is_u64 v ->
  read_header (set_next m a v) a =
  {| magic := magic (read_header m a); size := size (read_header m a);
     next := v; canary := canary (read_header m a) |}.
Proof.
  intros. unfold read_header, set_next; simpl.
  f_equal; first [by rewrite load64_store64_eq | by rewrite load64_store64_ne by lia].
Qed.

Lemma read_set_size m a v :
  is_u64 v ->
  read_header (set_size m a v) a =
  {| magic := magic (read_header m a); size := v;
     next := next (read_header m a); canary := canary (read_header m a) |}.
Proof.
  intros. unfold read_header, set_size; simpl.
  f_equal; first [by rewrite load64_store64_eq | by rewrite load64_store64_ne by lia].
Qed.

Lemma read_set_magic m a v :
  is_u64 v ->
  read_header (set_magic m a v) a =
  {| magic := v; size := size (read_header m a);
     next := next (read_header m a); canary := canary (read_header m a) |}.
Proof.
  intros. unfold read_header, set_magic; simpl.
  f_equal; first [by rewrite load64_store64_eq | by rewrite load64_store64_ne by lia].
Qed.

(** ** Chains *)

Lemma linked_app m l1 l2 d :
  linked m (l1 ++ l2) d <-> linked m l1 (head_or d l2) /\ linked m l2 d.
Proof.
  induction l1 as [|b l1 IH]; simpl; [tauto|].
  rewrite IH. destruct l1; simpl; tauto.
Qed.

Lemma head_or_app d l1 l2 : head_or d (l1 ++ l2) = head_or (head_or d l2) l1.
Proof. by destruct l1. Qed.

Lemma last_addr_snoc l b : last_addr (l ++ [b]) = b.1.
Proof. unfold last_addr. by rewrite last_snoc. Qed.

(** A chain survives a store that misses its headers. *)
Lemma linked_agree m m' fl d :
  Forall (fun b => agree m m' b.1 32) fl -> linked m fl d -> linked m' fl d.
Proof.
  induction fl as [|b r IH]; simpl; [done|].
  intros [Hb Hr]%Forall_cons [H1 H2]. split; [|auto].
  by rewrite (read_header_agree _ _ _ Hb).
Qed.

(** The range [[a, a+n)] misses the headers of [fl]. *)
Definition clear (a n : Z) (fl : list Blk) : Prop :=
  Forall (fun b => a + n <= b.1 \/ b.1 + 32 <= a) fl.

Lemma link_spec l1 d v h :
  free_head h = head_or d l1 -> linked (mem h) l1 d ->
  Forall (fun b => 0 < b.1 /\ 0 <= b.2) l1 -> pairwise before l1 -> is_u64 v ->
  let h' := link (last_addr l1) v h in
  free_head h' = head_or v l1 /\ linked (mem h') l1 v /\
  initialized h' = initialized h /\
  (forall a n, clear a n l1 -> agree (mem h) (mem h') a n).
Proof.
  intros Hh Hl Hpos Hs Hv.
  destruct l1 as [|p l1 _] using rev_ind; simpl.
  { split_and!; eauto with zenus. }
  rewrite last_addr_snoc. apply Forall_app in Hpos as [Hpos [Hp _]%Forall_cons].
  apply pairwise_app in Hs as (_ & _ & Hs).
  apply linked_app in Hl as [Hl1 [Hlp _]]. unfold link.
  destruct (Z.eqb_spec p.1 0) as [|Hp0]; [lia|]; simpl.
  assert (Hframe : forall a n, clear a n (l1 ++ [p]) -> agree (mem h) (set_next (mem h) p.1 v) a n).
  { intros a n Hc. apply Forall_app in Hc as [_ [Hc _]%Forall_cons].
    apply agree_store64. lia. }
  split_and!; [rewrite Hh; by destruct l1| |done|exact Hframe].
  apply linked_app. split.
  - eapply linked_agree; [|exact Hl1].
    eapply Forall_impl; [apply Forall_and; split; [exact Hs|exact Hpos]|].
    intros b [Hb Hb']. apply Forall_inv in Hb. apply agree_store64.
    unfold before, bend, HEADER_SIZE in Hb. lia.
  - simpl. split; [|done]. rewrite read_set_next by done. by rewrite Hlp.
Qed.

(** ** Alignment *)

Lemma align_up_16 x : 0 <= x -> x + 16 < U64 -> align_up x 16 = up16 x.
Proof.
  intros. unfold align_up.
  change (16 ⊟ 1) with 15. rewrite u64_add_small by word_lia.
  rewrite u64_sub_small by word_lia. change 15 with (2 ^ 4 - 1).
  rewrite land_not_ones by word_lia. unfold up16. change (2 ^ 4) with 16.
  Z.div_mod_to_equations. lia.
Qed.

Lemma up16_id x : x mod 16 = 0 -> up16 x = x.
Proof. intros. unfold up16. Z.div_mod_to_equations. lia. Qed.

Lemma up16_bounds x : x <= up16 x < x + 16 /\ up16 x mod 16 = 0.
Proof. unfold up16. rewrite Z.mod_mul by lia. split; [|done]. Z.div_mod_to_equations. lia. Qed.

Lemma up16_shift a x : a mod 16 = 0 -> up16 (a + x) = a + up16 x.
Proof. intros. unfold up16. Z.div_mod_to_equations. lia. Qed.

Ltac blk_lia :=
  unfold arena_ok, blk_ok, before, apart, bend, payload, HEADER_SIZE, MIN_BLOCK, HEAP_SIZE, is_u64,
    U64_MAX, U64 in *; simpl in *; lia.

Section Operations.
Variable hs : Z.
Hypothesis Harena : arena_ok hs.

(** ** Allocation *)

Lemma first_fit_Some sz pre fl p b r :
  first_fit sz pre fl = Some (p, b, r) ->
  exists q, p = pre ++ q /\ fl = q ++ b :: r /\ Forall (fun x => x.2 < sz) q /\ sz <= b.2.
Proof.
  revert pre. induction fl as [|x fl IH]; intros pre; simpl; [done|].
  case_if; intros H.
  - apply IH in H as (q & -> & -> & ? & ?). exists (x :: q).
    rewrite <- app_assoc. split_and!; try done. by constructor.
  - simplify_eq. exists []. rewrite app_nil_r. split_and!; try done; constructor.
Qed.

Lemma first_fit_None sz pre fl :
  first_fit sz pre fl = None <-> Forall (fun x => x.2 < sz) fl.
Proof.
  revert pre. induction fl as [|x fl IH]; intros pre; simpl; [done|].
  rewrite Forall_cons. case_if; [rewrite IH; naive_solver|split; [done|lia]].
Qed.

(** The test of the loop, with the rounding and the wrap-around evaluated. *)
Lemma fits_test a s sz :
  blk_ok hs (a, s) -> 0 <= sz -> hs + HEAP_SIZE + sz + 0x1000 < U64 ->
  (a ⊞ HEADER_SIZE ⊞ s <? align_up a 16 ⊞ HEADER_SIZE ⊞ sz) = (s <? sz).
Proof.
  intros Hb ??. rewrite align_up_16, up16_id by blk_lia.
  rewrite !(u64_add_small a), !u64_add_small by blk_lia.
  destruct (Z.ltb_spec s sz); [apply Z.ltb_lt | apply Z.ltb_ge]; lia.
Qed.

Lemma alloc_loop_spec fuel sz h l1 l2 :
  linked (mem h) l2 0 -> Forall (blk_ok hs) l2 ->
  0 <= sz -> hs + HEAP_SIZE + sz + 0x1000 < U64 -> (length l2 < fuel)%nat ->
  alloc_loop fuel sz 16 (last_addr l1) (head_or 0 l2) h =
  match first_fit sz l1 l2 with
  | None => Some (h, 0)
  | Some (pre, b, _) => Some (carve sz 16 (last_addr pre) b.1 h)
  end.
Proof.
  intros Hl Hok Hsz Hb. revert l1 fuel Hl Hok.
  induction l2 as [|[a s] l2 IH]; intros l1 [|fuel] Hl Hok Hf; simpl in Hf; try lia; [done|].
  apply Forall_cons in Hok as [Ha Hok]. destruct Hl as [Hr Hl]. cbn [alloc_loop head_or fst].
  destruct (Z.eqb_spec a 0) as [->|_]; [blk_lia|]. cbn [fst] in Hr. rewrite Hr. cbn [size next free_header].
  cbn [first_fit snd]. rewrite (fits_test a s sz) by done.
  destruct (s <? sz); [|done].
  rewrite <- (IH (l1 ++ [(a, s)]) fuel) by (done || lia). by rewrite last_addr_snoc.
Qed.

(** The order facts a list cut at one of its blocks gives. *)
Lemma pairwise_cut pre (b : Blk) post :
  pairwise before (pre ++ b :: post) <->
  pairwise before pre /\ pairwise before post /\
  Forall (fun x => before x b) pre /\ Forall (before b) post /\
  Forall (fun x => Forall (before x) post) pre.
Proof.
  rewrite pairwise_app. simpl. split.
  - intros (H1 & [H2 H3] & H4). split_and!; try done.
    + eapply Forall_impl; [exact H4|]. intros x Hx. by apply Forall_inv in Hx.
    + eapply Forall_impl; [exact H4|]. intros x Hx. by apply Forall_inv_tail in Hx.
  - intros (H1 & H2 & H3 & H4 & H5). split_and!; try done.
    apply Forall_forall. intros x Hx. constructor; [by eapply Forall_forall in H3|].
    by eapply Forall_forall in H5.
Qed.

Lemma clear_pre (pre : list Blk) b c n :
  Forall (blk_ok hs) pre -> Forall (fun x => before x b) pre -> b.1 <= c -> clear c n pre.
Proof.
  intros Hok Hb Hc. apply Forall_forall. intros x Hx.
  eapply Forall_forall in Hok, Hb; [|done..]. blk_lia.
Qed.

Lemma clear_post (post : list Blk) b c n :
  Forall (before b) post -> c + n <= bend b -> clear c n post.
Proof. intros Hb Hc. eapply Forall_impl; [exact Hb|]. intros x Hx. left. blk_lia. Qed.

(** The extent of a block misses the headers of the blocks it is apart from. *)
Lemma clear_apart v (l : list Blk) :
  blk_ok hs v -> (forall x, x ∈ l -> blk_ok hs x /\ apart x v) -> clear v.1 (32 + v.2) l.
Proof.
  intros Hv Hl. apply Forall_forall. intros x Hx. destruct (Hl x Hx) as [Hx1 Hx2]. blk_lia.
Qed.

(** Unlinking or replacing a block in the middle of the chain, the block [b]
    itself left as it is. *)
Lemma relink_spec pre b post rest h :
  free_head h = head_or b.1 pre -> linked (mem h) pre b.1 ->
  linked (mem h) (rest ++ post) 0 ->
  Forall (blk_ok hs) (pre ++ b :: post) -> pairwise before (pre ++ b :: post) ->
  Forall (fun x => b.1 <= x.1 /\ bend x <= bend b /\ 0 <= x.2) rest ->
  let h' := link (last_addr pre) (head_or 0 (rest ++ post)) h in
  free_head h' = head_or 0 (pre ++ rest ++ post) /\ linked (mem h') (pre ++ rest ++ post) 0 /\
  initialized h' = initialized h /\
  (forall a n, clear a n pre -> agree (mem h) (mem h') a n).
Proof.
  intros Hh Hl1 Hl2 Hok Hs Hrest h'.
  apply Forall_app in Hok as [Hok1 [Hokb Hok2]%Forall_cons].
  apply pairwise_cut in Hs as (Hs1 & Hs2 & Hb1 & Hb2 & Hb3).
  destruct (link_spec pre b.1 (head_or 0 (rest ++ post)) h) as (E1 & E2 & E3 & E4); try done.
  { eapply Forall_impl; [exact Hok1|]. intros x Hx. blk_lia. }
  { destruct rest as [|r rest], post as [|q post]; simpl.
    - blk_lia.
    - apply Forall_inv in Hok2. blk_lia.
    - apply Forall_inv in Hrest. blk_lia.
    - apply Forall_inv in Hrest. blk_lia. }
  fold h' in E1, E2, E3, E4. split_and!; try done.
  { by rewrite E1, (head_or_app 0 pre). }
  apply linked_app. split; [done|]. eapply linked_agree; [|exact Hl2].
  apply Forall_app; split; apply Forall_forall; intros x Hx; apply E4;
    eapply clear_pre; try done.
  - eapply Forall_forall in Hrest; [|done]. lia.
  - eapply Forall_forall in Hb2; [|done]. blk_lia.
Qed.

(** [carve] with the address arithmetic evaluated. *)
Lemma carve_eq sz prev a s nx h :
  blk_ok hs (a, s) -> 1 <= sz <= s -> read_header (mem h) a = free_header s nx ->
  let u := up16 sz in
  let h1 :=
    if s <? u + 64 then link prev nx h
    else link prev (a + 32 + u)
           (with_mem (write_header (mem h) (a + 32 + u) (free_header (s - u - 32) nx)) h) in
  carve sz 16 prev a h =
  (record_split_trace prev a (a + 32) sz s (a + 32 + s)
     (with_mem (write_header (mem h1) a (used_header u)) h1), a + 32).
Proof.
  intros Hb Hsz Hr u h1. pose proof (up16_bounds sz) as [Hu Hu'].
  assert (Hus : u <= s).
  { unfold u. destruct Hb as (_ & _ & _ & Hm & _). cbn [snd] in Hm.
    unfold up16. Z.div_mod_to_equations. lia. }
  unfold carve. rewrite Hr. cbn [size next free_header].
  rewrite !(align_up_16 a), (up16_id a) by blk_lia.
  rewrite !(u64_add_small a) by blk_lia. unfold HEADER_SIZE.
  rewrite !(u64_add_small (a + 32)) by blk_lia.
  rewrite !(align_up_16 sz), (align_up_16 (a + 32 + sz)) by blk_lia.
  rewrite (up16_shift (a + 32)) by (destruct Hb as (_ & Hm & _); cbn [fst] in Hm; Z.div_mod_to_equations; lia).
  fold u. rewrite (u64_add_small (a + 32 + u)) by blk_lia.
  rewrite (u64_add_small (a + 32 + u + 32)) by blk_lia.
  replace (a + 32 + s <? a + 32 + u + 32 + MIN_BLOCK) with (s <? u + 64)
    by (unfold MIN_BLOCK; destruct (Z.ltb_spec s (u + 64)), (Z.ltb_spec (a + 32 + s) (a + 32 + u + 32 + 32)); lia).
  unfold h1. destruct (Z.ltb_spec s (u + 64)); [done|].
  rewrite (u64_sub_small (a + 32 + s)) by blk_lia. rewrite u64_sub_small by blk_lia.
  by replace (a + 32 + s - (a + 32 + u) - 32) with (s - u - 32) by lia.
Qed.

(** The state between the relinking and the write of the used header. *)
Lemma carve_relinked sz pre a s post h live :
  heap_inv hs h (pre ++ (a, s) :: post) live -> 1 <= sz <= s ->
  let u := up16 sz in
  let h1 :=
    if s <? u + 64 then link (last_addr pre) (head_or 0 post) h
    else link (last_addr pre) (a + 32 + u)
           (with_mem (write_header (mem h) (a + 32 + u)
              (free_header (s - u - 32) (head_or 0 post))) h) in
  let fl := pre ++ remainder (a, s) sz ++ post in
  free_head h1 = head_or 0 fl /\ linked (mem h1) fl 0 /\ initialized h1 = true /\
  (forall b n, clear b n pre -> b + n <= a + 32 \/ a + 32 + s <= b ->
    agree (mem h) (mem h1) b n).
Proof.
  intros Hi Hsz u h1 fl. destruct Hi as [Hin Hh Hl Hok _ Hs _ _ _].
  pose proof (up16_bounds sz) as [Hu Hu'].
  apply linked_app in Hl as Hl'. destruct Hl' as [Hl1 Hl2]. cbn [head_or fst] in Hl1.
  destruct Hl2 as [Hr Hl2].
  assert (Hhead : free_head h = head_or a pre) by (by rewrite Hh, head_or_app).
  pose proof Hok as Hok'. apply Forall_app in Hok' as [Hok1 [Hokb Hok2]%Forall_cons].
  pose proof Hs as Hs'. apply pairwise_cut in Hs' as (_ & _ & Hb1 & Hb2 & _).
  unfold fl, remainder, h1. cbn [snd]. fold u.
  destruct (Z.ltb_spec s (u + 64)) as [Hlt|Hge].
  { destruct (relink_spec pre (a, s) post [] h) as (E1 & E2 & E3 & E4); try done.
    split_and!; [done|done|exact (eq_trans E3 Hin)|]. intros. by apply E4. }
  set (l := a + 32 + u). set (m' := write_header _ l _).
  assert (Hm : forall b n, b + n <= l \/ l + 32 <= b -> agree (mem h) m' b n)
    by (intros; by apply agree_write_header).
  destruct (relink_spec pre (a, s) post [(l, s - u - 32)] (with_mem m' h))
    as (E1 & E2 & E3 & E4); try done.
  - eapply linked_agree; [|exact Hl1]. apply Forall_forall. intros x Hx.
    eapply Forall_forall in Hb1; [|done]. eapply Forall_forall in Hok1; [|done].
    apply Hm. unfold l. blk_lia.
  - simpl. split.
    + apply read_write_header. split_and!; simpl; [done|unfold u; blk_lia| |done].
      destruct post as [|q ?]; simpl; [done|]. apply Forall_inv in Hok2. blk_lia.
    + eapply linked_agree; [|exact Hl2]. apply Forall_forall. intros x Hx.
      eapply Forall_forall in Hb2; [|done]. apply Hm. unfold l. blk_lia.
  - repeat constructor; unfold l; blk_lia.
  - unfold payload. cbn [fst]. fold l. split_and!; [done|done|exact (eq_trans E3 Hin)|].
    intros b n Hc Hd. eapply agree_trans; [apply Hm; unfold l; lia|by apply E4].
Qed.

Lemma remainder_ok b sz :
  blk_ok hs b -> 1 <= sz <= b.2 ->
  Forall (fun x => blk_ok hs x /\ b.1 + 32 + up16 sz <= x.1 /\ bend x = bend b) (remainder b sz).
Proof.
  intros Hb Hsz. unfold remainder. pose proof (up16_bounds sz) as [Hu Hu'].
  destruct (Z.ltb_spec b.2 (up16 sz + 64)); constructor; [|constructor].
  destruct b as [a s], Hb as (? & ? & ? & ? & ?). unfold blk_ok, bend, payload, HEADER_SIZE in *; simpl in *.
  split_and!; try (Z.div_mod_to_equations; lia).
Qed.

(** A sorted list stays sorted when a block is replaced by blocks inside it. *)
Lemma pairwise_replace pre (b : Blk) rest post :
  pairwise before (pre ++ b :: post) -> pairwise before rest ->
  Forall (fun x => b.1 <= x.1 /\ bend x <= bend b) rest ->
  pairwise before (pre ++ rest ++ post).
Proof.
  intros (Hs1 & Hs2 & Hb1 & Hb2 & Hb3)%pairwise_cut Hr Hin.
  apply pairwise_app. split_and!; [done| |].
  - apply pairwise_app. split_and!; [done|done|].
    eapply Forall_impl; [exact Hin|]. intros x Hx. eapply Forall_impl; [exact Hb2|].
    intros y Hy. unfold before in *. lia.
  - apply Forall_forall. intros x Hx. eapply Forall_forall in Hb1, Hb3; [|done..].
    apply Forall_app. split; [|done]. eapply Forall_impl; [exact Hin|].
    intros y Hy. unfold before in *. lia.
Qed.

(** The blocks of the list after a carve, against the carved block. *)
Lemma carved_apart sz pre a s post f :
  Forall (blk_ok hs) (pre ++ (a, s) :: post) -> pairwise before (pre ++ (a, s) :: post) ->
  1 <= sz <= s -> f ∈ pre ++ remainder (a, s) sz ++ post ->
  apart f (a, up16 sz) /\ blk_ok hs f /\ (f ∈ pre ++ (a, s) :: post \/ a <= f.1 /\ bend f = a + 32 + s).
Proof.
  intros Hok Hs Hsz Hf.
  apply Forall_app in Hok as [Hok1 [Hokb Hok2]%Forall_cons].
  apply pairwise_cut in Hs as (_ & _ & Hb1 & Hb2 & _).
  pose proof (up16_bounds sz) as [Hup Hup'].
  assert (Hus : up16 sz <= s).
  { destruct Hokb as (_ & _ & _ & Hm & _). cbn [snd] in Hm. Z.div_mod_to_equations. lia. }
  apply elem_of_app in Hf as [Hf|[Hf|Hf]%elem_of_app].
  - eapply Forall_forall in Hb1; [|done]. eapply Forall_forall in Hok1; [|done].
    split_and!; [blk_lia|done|list_mem].
  - eapply Forall_forall in Hf; [|by apply remainder_ok]. destruct Hf as (? & ? & ?).
    split_and!; [blk_lia|done|blk_lia].
  - eapply Forall_forall in Hb2; [|done]. eapply Forall_forall in Hok2; [|done].
    split_and!; [blk_lia|done|list_mem].
Qed.

(** No byte of a live block, header or payload, differs between two states. *)
Definition undisturbed (h h' : Heap) (live : list Live) : Prop :=
  Forall (fun u => agree (mem h) (mem h') u.1.1 (32 + u.1.2)) live.

Lemma undisturbed_used h h' live :
  undisturbed h h' live -> Forall (fun u => 0 <= u.1.2) live ->
  Forall (fun u => read_header (mem h) u.1.1 = used_header u.1.2) live ->
  Forall (fun u => read_header (mem h') u.1.1 = used_header u.1.2) live.
Proof.
  intros H1 H0 H2. apply Forall_forall. intros u Hu. eapply Forall_forall in H0, H1, H2; [|done..].
  rewrite <- H2. apply read_header_agree. eapply agree_sub; [exact H1|lia..].
Qed.

(** Carving the first block that fits turns it into a live block and leaves a
    well-formed heap behind. *)
Lemma carve_inv sz pre a s post h live :
  heap_inv hs h (pre ++ (a, s) :: post) live -> 1 <= sz <= s ->
  exists h', carve sz 16 (last_addr pre) a h = (h', a + 32) /\
    heap_inv hs h' (pre ++ remainder (a, s) sz ++ post) (((a, up16 sz), sz) :: live) /\
    undisturbed h h' live.
Proof.
  intros Hi Hsz. pose proof (carve_relinked _ _ _ _ _ _ _ Hi Hsz) as (E1 & E2 & E3 & E4).
  destruct Hi as [Hin Hh Hl Hok Hlo Hs Hla Hfl Hu].
  apply linked_app in Hl as Hl'. destruct Hl' as [_ [Hr _]].
  pose proof (carved_apart sz pre a s post) as Hc.
  assert (Hokb : blk_ok hs (a, s)) by (apply Forall_app in Hok as [_ Hx]; by apply Forall_inv in Hx).
  pose proof (remainder_ok (a, s) sz Hokb Hsz) as Hrem.
  pose proof (up16_bounds sz) as [Hup Hup'].
  assert (Hus : up16 sz <= s).
  { destruct Hokb as (_ & _ & _ & Hm & _). cbn [snd] in Hm. Z.div_mod_to_equations. lia. }
  assert (Hsub : forall u, u ∈ live -> apart (a, s) u.1) by (intros; apply Hfl; [list_mem|done]).
  rewrite (carve_eq sz (last_addr pre) a s (head_or 0 post)) by done.
  set (h1 := if s <? up16 sz + 64 then _ else _) in *.
  set (h2 := record_split_trace _ _ _ _ _ _ _).
  assert (Hund : undisturbed h h2 live).
  { apply Forall_forall. intros u Hux. specialize (Hsub u Hux) as Hap.
    eapply Forall_forall in Hlo; [|done].
    eapply agree_trans; [|apply agree_write_header; blk_lia].
    apply E4; [|blk_lia]. apply clear_apart; [apply Hlo|]. intros f Hf.
    assert (Hff : f ∈ pre ++ (a, s) :: post) by list_mem.
    split; [by eapply Forall_forall in Hok|by apply Hfl]. }
  exists h2. split_and!; [done| |done]. constructor; cbn.
  - done.
  - done.
  - eapply linked_agree; [|exact E2]. apply Forall_forall. intros x Hx. apply agree_write_header.
    destruct (Hc x Hok Hs Hsz Hx) as (? & ? & _). blk_lia.
  - apply Forall_forall. intros x Hx. by destruct (Hc x Hok Hs Hsz Hx) as (_ & ? & _).
  - assert (16 <= up16 sz) by (Z.div_mod_to_equations; lia).
    constructor; [|done]. cbn. split; [|lia]. split_and!; cbn; blk_lia.
  - apply (pairwise_replace pre (a, s)); [done| |].
    + unfold remainder. case_if; simpl; auto.
    + eapply Forall_impl; [exact Hrem|]. intros x (? & ? & ?). blk_lia.
  - split; [|done]. apply Forall_forall. intros u Hux. specialize (Hsub u Hux). blk_lia.
  - intros f u Hf Hux. destruct (Hc f Hok Hs Hsz Hf) as (? & ? & Hf').
    apply elem_of_cons in Hux as [->|Hux]; [done|].
    destruct Hf' as [Hf'|?]; [by apply Hfl|]. specialize (Hsub u Hux). blk_lia.
  - constructor; cbn.
    + apply read_write_header. split_and!; cbn; [done|blk_lia|done|done].
    + apply (undisturbed_used h h2 live); try done.
      eapply Forall_impl; [exact Hlo|]. intros u [? ?]. blk_lia.
Qed.

(** ** The walks terminate and the self check passes *)

Definition free_bytes (fl : list Blk) : Z := foldr (fun b t => b.2 + t) 0 fl.

Lemma free_bytes_cons b fl : free_bytes (b :: fl) = b.2 + free_bytes fl.
Proof. done. Qed.

Lemma free_bytes_nonneg fl : Forall (blk_ok hs) fl -> 0 <= free_bytes fl.
Proof.
  induction 1 as [|b fl Hb _ IH]; [done|]. rewrite free_bytes_cons. destruct Hb as (_ & _ & ? & _). lia.
Qed.

Lemma length_fits lo fl :
  Forall (fun b => lo <= b.1 /\ 0 <= b.2 /\ bend b <= hs + HEAP_SIZE) fl -> pairwise before fl ->
  lo <= hs + HEAP_SIZE -> lo + free_bytes fl + 32 * Z.of_nat (length fl) <= hs + HEAP_SIZE.
Proof.
  revert lo. induction fl as [|b fl IH]; intros lo Hok Hs Hlo; [cbn; lia|].
  apply Forall_cons in Hok as [Hb Hok]. destruct Hs as [Hb1 Hs].
  specialize (IH (bend b)). ospecialize (IH _ Hs _).
  - apply Forall_forall. intros x Hx. eapply Forall_forall in Hok, Hb1; [|done..]. blk_lia.
  - lia.
  - rewrite free_bytes_cons. cbn [length]. unfold bend, HEADER_SIZE in *. lia.
Qed.

Lemma heap_inv_fits h fl live :
  heap_inv hs h fl live -> free_bytes fl + 32 * Z.of_nat (length fl) <= HEAP_SIZE.
Proof.
  intros Hi. assert (H : hs + free_bytes fl + 32 * Z.of_nat (length fl) <= hs + HEAP_SIZE); [|lia].
  apply length_fits; [|apply Hi|unfold HEAP_SIZE; lia].
  eapply Forall_impl; [apply Hi|]. intros b Hb. blk_lia.
Qed.

Lemma walk_fuel_enough h fl live : heap_inv hs h fl live -> (length fl < WALK_FUEL)%nat.
Proof.
  intros Hi. pose proof (heap_inv_fits _ _ _ Hi) as H.
  pose proof (free_bytes_nonneg fl (hi_free_ok _ _ _ _ Hi)).
  with_strategy transparent [WALK_FUEL] unfold WALK_FUEL. change (HEAP_SIZE / HEADER_SIZE + 1) with 262145.
  unfold HEAP_SIZE in H. lia.
Qed.

Lemma check_block_ok m b prev d :
  blk_ok hs b -> prev < b.1 -> read_header m b.1 = free_header b.2 d ->
  check_block hs m b.1 prev = None.
Proof.
  intros Hb Hp Hr. unfold check_block. rewrite Hr. cbn [size magic canary free_header].
  rewrite u64_add_small by blk_lia.
  assert (E : checked_add b.1 HEADER_SIZE = Some (b.1 + HEADER_SIZE))
    by (apply checked_add_Some; split; [blk_lia|done]).
  rewrite E. cbn [option_bind mbind].
  assert (E' : checked_add (b.1 + HEADER_SIZE) b.2 = Some (bend b))
    by (apply checked_add_Some; split; [blk_lia|done]).
  rewrite E'.
  destruct (Z.ltb_spec b.1 hs); [blk_lia|]. cbn [orb].
  destruct (Z.ltb_spec (hs + HEAP_SIZE) (b.1 + HEADER_SIZE)); [blk_lia|].
  destruct (Z.leb_spec (bend b) (hs + HEAP_SIZE)); [|blk_lia]. cbn [negb].
  destruct (Z.leb_spec b.1 prev); [lia|].
  destruct (Z.eqb_spec (b.1 mod 8) 0); [done|].
  destruct Hb as (_ & ? & _). Z.div_mod_to_equations. lia.
Qed.

Lemma check_loop_spec k m fl prev n :
  linked m fl 0 -> Forall (blk_ok hs) fl -> pairwise before fl ->
  Forall (fun b => prev < b.1) fl ->
  check_loop hs k m (head_or 0 fl) prev n = None <-> (length fl <= k)%nat.
Proof.
  revert k prev n. induction fl as [|b fl IH]; intros k prev n Hl Hok Hs Hp.
  { destruct k; simpl; split; (done || lia). }
  destruct Hl as [Hr Hl], Hs as [Hb Hs]. apply Forall_cons in Hok as [Hokb Hok].
  apply Forall_inv in Hp. cbn [head_or].
  destruct k as [|k]; cbn [check_loop]; (destruct (Z.eqb_spec b.1 0); [blk_lia|]).
  { simpl. split; [done|lia]. }
  rewrite (check_block_ok _ _ _ _ Hokb Hp Hr), Hr. cbn [next free_header length].
  rewrite IH; [lia|done..|]. eapply Forall_impl; [exact Hb|]. intros x Hx. blk_lia.
Qed.

(** ** Entering an operation *)

Definition rep (h : Heap) (fl : list Blk) (live : list Live) : Prop :=
  heap_inv hs (ensure_initialized hs h) fl live.

Lemma heap_inv_ext h h' fl live :
  mem h' = mem h -> free_head h' = free_head h -> initialized h' = initialized h ->
  heap_inv hs h fl live -> heap_inv hs h' fl live.
Proof. intros E1 E2 E3 []. constructor; rewrite ?E1, ?E2, ?E3; done. Qed.

Lemma heap_inv_rep h fl live : heap_inv hs h fl live -> rep h fl live.
Proof. intros Hi. unfold rep, ensure_initialized. by rewrite (hi_init _ _ _ _ Hi). Qed.

Lemma enter_inv h fl live :
  rep h fl live -> heap_inv hs (debug_check_free_list hs (ensure_initialized hs h)) fl live.
Proof.
  intros Hi. unfold debug_check_free_list. destruct (check_free_list _ _) as [[[]]|]; [|done].
  by eapply heap_inv_ext; [..|exact Hi].
Qed.

Lemma enter_mem h :
  mem (debug_check_free_list hs (ensure_initialized hs h)) = mem (ensure_initialized hs h).
Proof. unfold debug_check_free_list. by destruct (check_free_list _ _) as [[[]]|]. Qed.

Lemma new_rep : rep new [(hs, HEAP_SIZE - HEADER_SIZE)] [].
Proof.
  constructor; simpl; try done.
  - split; [|done]. apply read_write_header. split_and!; simpl; done.
  - constructor; [|done]. destruct Harena as (? & ? & ?). split_and!; simpl; try blk_lia. done.
  - intros f u Hf Hu. by apply elem_of_nil in Hu.
Qed.

Lemma alloc_mut_spec l h fl live :
  rep h fl live -> layout_ok hs l ->
  let sz := Z.max (l_size l) 1 in
  match first_fit sz [] fl with
  | None => exists h', alloc_mut hs l h = Some (h', 0) /\ heap_inv hs h' fl live /\
        mem h' = mem (ensure_initialized hs h)
  | Some (pre, b, post) =>
      exists h', alloc_mut hs l h = Some (h', payload b) /\
        heap_inv hs h' (pre ++ remainder b sz ++ post) (((b.1, up16 sz), sz) :: live) /\
        undisturbed (ensure_initialized hs h) h' live
  end.
Proof.
  intros Hrep (Hl1 & Hl2 & Hl3) sz. apply enter_inv in Hrep as Hi.
  unfold alloc_mut. set (h0 := debug_check_free_list _ _) in *.
  rewrite (Z.max_r (l_align l) 16) by lia. rewrite (hi_head _ _ _ _ Hi).
  rewrite (alloc_loop_spec _ sz h0 [] fl); try apply Hi; [|lia|unfold sz; blk_lia|by eapply walk_fuel_enough].
  destruct (first_fit sz [] fl) as [[[pre [a s]] post]|] eqn:E; [|exists h0; by rewrite <- (enter_mem h)].
  apply first_fit_Some in E as (q & -> & -> & _ & Hs). cbn [app snd] in *.
  destruct (carve_inv sz q a s post h0 live Hi ltac:(lia)) as (h' & E & Hi' & Hund).
  exists h'. cbn [fst]. rewrite E. unfold undisturbed in *. by rewrite <- (enter_mem h).
Qed.

(** ** Deallocation *)

Lemma cut_spec a pre fl :
  pairwise before fl -> Forall (blk_ok hs) fl ->
  exists l1, cut a pre fl = (pre ++ l1, drop (length l1) fl) /\ fl = l1 ++ drop (length l1) fl /\
    Forall (fun x => x.1 <= a) l1 /\ Forall (fun x => a < x.1) (drop (length l1) fl).
Proof.
  revert pre. induction fl as [|b fl IH]; intros pre Hs Hok; simpl.
  { exists []. by rewrite app_nil_r. }
  destruct Hs as [Hb Hs]. apply Forall_cons in Hok as [Hokb Hok].
  destruct (Z.ltb_spec a b.1) as [Hlt|Hge].
  - exists []. rewrite app_nil_r. split_and!; try done. constructor; [done|].
    eapply Forall_impl; [exact Hb|]. intros x Hx. blk_lia.
  - destruct (IH (pre ++ [b]) Hs Hok) as (l1 & E & E' & H1 & H2).
    exists (b :: l1). rewrite E, <- app_assoc. simpl. split_and!; try done; [by f_equal|by constructor].
Qed.

Lemma walk_spec fuel m a l1 l2 :
  linked m l2 0 -> Forall (blk_ok hs) l2 -> (length l2 < fuel)%nat ->
  walk fuel m a (last_addr l1) (head_or 0 l2) =
  Some (last_addr (cut a l1 l2).1, head_or 0 (cut a l1 l2).2).
Proof.
  revert l1 fuel. induction l2 as [|b l2 IH]; intros l1 [|fuel] Hl Hok Hf; simpl in Hf; try lia; [done|].
  destruct Hl as [Hr Hl]. apply Forall_cons in Hok as [Hokb Hok]. cbn [walk head_or cut].
  destruct (Z.eqb_spec b.1 0); [blk_lia|].
  destruct (a <? b.1); [done|]. rewrite Hr. cbn [next free_header].
  rewrite <- (IH (l1 ++ [b]) fuel) by (done || lia). by rewrite last_addr_snoc.
Qed.

Lemma walk_from_head fuel m a fl l1 l2 :
  cut a [] fl = (l1, l2) -> linked m fl 0 -> Forall (blk_ok hs) fl -> (length fl < fuel)%nat ->
  walk fuel m a 0 (head_or 0 fl) = Some (last_addr l1, head_or 0 l2).
Proof.
  intros Ec Hl Hok Hf. pose proof (walk_spec fuel m a [] fl Hl Hok Hf) as Hw. by rewrite Ec in Hw.
Qed.

(** Rewriting the header of the last block of a chain. *)
Lemma extend_prev l1 p s' d d' r m m' :
  linked m (l1 ++ [p]) d -> Forall (blk_ok hs) (l1 ++ [p]) -> pairwise before (l1 ++ [p]) ->
  read_header m' p.1 = free_header s' d' -> d' = head_or 0 r -> linked m r 0 ->
  (forall a n, a + n <= p.1 \/ p.1 + 32 <= a -> agree m m' a n) ->
  Forall (before p) r -> linked m' (l1 ++ (p.1, s') :: r) 0.
Proof.
  intros Hl Hok Hs Hp -> Hr Hag Hb. apply linked_app in Hl as [Hl _]. cbn [head_or] in Hl.
  apply Forall_app in Hok as [Hok1 Hokp%Forall_inv].
  apply pairwise_app in Hs as (_ & _ & Hs).
  apply linked_app. cbn [head_or fst]. split.
  - eapply linked_agree; [|exact Hl]. apply Forall_forall. intros x Hx.
    eapply Forall_forall in Hs; [|done]. apply Forall_inv in Hs.
    eapply Forall_forall in Hok1; [|done]. apply Hag. blk_lia.
  - split; [done|]. eapply linked_agree; [|exact Hr]. eapply Forall_impl; [exact Hb|].
    intros x Hx. apply Hag. blk_lia.
Qed.

(** Putting a block, whose header is already filled in, between [l1] and [r]. *)
Lemma insert_block l1 b r h d :
  free_head h = head_or d l1 -> linked (mem h) l1 d -> linked (mem h) (b :: r) 0 ->
  Forall (blk_ok hs) (l1 ++ b :: r) -> pairwise before l1 ->
  Forall (fun x => bend x <= b.1) l1 -> Forall (fun x => b.1 < x.1) r ->
  let h' := link (last_addr l1) b.1 h in
  free_head h' = head_or 0 (l1 ++ b :: r) /\ linked (mem h') (l1 ++ b :: r) 0 /\
  initialized h' = initialized h /\
  (forall a n, clear a n l1 -> agree (mem h) (mem h') a n).
Proof.
  intros Hh Hl1 Hl2 Hok Hs1 Hb1 Hb2 h'.
  apply Forall_app in Hok as [Hok1 [Hokb Hok2]%Forall_cons].
  destruct (link_spec l1 d b.1 h) as (E1 & E2 & E3 & E4); try done.
  { eapply Forall_impl; [exact Hok1|]. intros x Hx. blk_lia. }
  { blk_lia. }
  fold h' in E1, E2, E3, E4. split_and!; try done.
  { by rewrite head_or_app. }
  apply linked_app. split; [done|]. eapply linked_agree; [|exact Hl2].
  assert (Hc : forall c, b.1 <= c -> agree (mem h) (mem h') c 32).
  { intros c Hc. apply E4. apply Forall_forall. intros x Hx.
    eapply Forall_forall in Hb1; [|done]. eapply Forall_forall in Hok1; [|done]. blk_lia. }
  constructor; [apply Hc; lia|]. eapply Forall_impl; [exact Hb2|]. intros x Hx. apply Hc. blk_lia.
Qed.

(** A block about to be returned between two parts of the free list. *)
Record cut_ok (l1 : list Blk) (b : Blk) (l2 : list Blk) : Prop := {
  co_ok : Forall (blk_ok hs) (l1 ++ b :: l2);
  co_s1 : pairwise before l1;
  co_s2 : pairwise before l2;
  co_12 : Forall (fun x => Forall (before x) l2) l1;
  co_1b : Forall (fun x => bend x <= b.1) l1;
  co_b2 : Forall (fun x => bend b <= x.1) l2;
}.

Definition touches_prev (l1 : list Blk) (b : Blk) : bool :=
  match last l1 with Some p => bend p =? b.1 | None => false end.
Definition touches_next (b : Blk) (l2 : list Blk) : bool :=
  match l2 with n :: _ => bend b =? n.1 | [] => false end.

Lemma touches_prev_true l1 b :
  touches_prev l1 b = true ->
  exists l p, l1 = l ++ [p] /\ bend p = b.1 /\ join_prev l1 b = (l, (p.1, p.2 + 32 + b.2)).
Proof.
  unfold touches_prev, join_prev. destruct l1 as [|p l _] using rev_ind; [done|].
  rewrite last_snoc. intros E. rewrite E. bsplit.
  exists l, p. by rewrite removelast_last.
Qed.

Lemma touches_prev_false l1 b : touches_prev l1 b = false -> join_prev l1 b = (l1, b).
Proof. unfold touches_prev, join_prev. destruct (last l1); [|done]. by intros ->. Qed.

(** [coalesce] with its tests and sums evaluated. *)
Lemma coalesce_eq l1 b l2 h nb :
  cut_ok l1 b l2 -> linked (mem h) l1 (head_or 0 l2) -> linked (mem h) l2 0 ->
  read_header (mem h) b.1 = free_header b.2 nb ->
  let m := mem h in
  let cp := touches_prev l1 b in
  let cn := touches_next b l2 in
  let prev := last_addr l1 in
  let psize := size (read_header m prev) in
  let nx := head_or 0 (tail l2) in
  let nsize := match l2 with n :: _ => n.2 | [] => 0 end in
  coalesce b.1 prev (head_or 0 l2) h =
  if cp && cn then
    with_mem (set_next (set_size m prev (psize + (32 + b.2 + 32 + nsize))) prev nx) h
  else if cp then with_mem (set_size m prev (psize + (32 + b.2))) h
  else if cn then link prev b.1
    (with_mem (set_next (set_size m b.1 (b.2 + (32 + nsize))) b.1 nx) h)
  else link prev b.1 (with_mem (set_next m b.1 (head_or 0 l2)) h).
Proof.
  intros Hc Hl1 Hl2 Hb m cp cn prev psize nx nsize.
  destruct Hc as [Hok _ _ _ H1b Hb2].
  apply Forall_app in Hok as [Hok1 [Hokb Hok2]%Forall_cons].
  change (read_header m b.1 = free_header b.2 nb) in Hb.
  unfold coalesce. fold m prev. rewrite Hb. cbn [size free_header].
  assert (Ecp : (negb (prev =? 0) &&
    ((if negb (prev =? 0) then prev ⊞ HEADER_SIZE ⊞ size (read_header m prev) else 0) =? b.1))%bool = cp
    /\ (cp = true -> psize + (32 + b.2) + 32 + nsize < U64 /\ 0 <= psize)).
  { unfold cp, psize, prev, touches_prev, last_addr.
    destruct l1 as [|p l _] using rev_ind; [done|]. rewrite last_snoc.
    apply Forall_app in Hok1 as [_ Hokp%Forall_inv]. apply linked_app in Hl1 as [_ [Hp _]].
    unfold m. rewrite Hp. cbn [size free_header].
    destruct (Z.eqb_spec p.1 0) as [|_]; [blk_lia|]. cbn [negb andb].
    rewrite (u64_add_small p.1), u64_add_small by blk_lia. split; [done|]. intros E%Z.eqb_eq.
    destruct l2 as [|n r]; simpl in nsize; subst nsize; [blk_lia|].
    apply Forall_inv in Hok2. apply Forall_inv in Hb2. blk_lia. }
  destruct Ecp as [Ecp Hps]. rewrite Ecp. clear Ecp.
  rewrite (u64_add_small b.1), (u64_add_small (b.1 + HEADER_SIZE)) by blk_lia.
  assert (Ecn : (negb (head_or 0 l2 =? 0) && (b.1 + HEADER_SIZE + b.2 =? head_or 0 l2))%bool = cn).
  { unfold cn, touches_next. destruct l2 as [|n r]; [done|]. cbn [head_or].
    apply Forall_inv in Hok2. destruct (Z.eqb_spec n.1 0) as [|_]; [blk_lia|]. done. }
  rewrite Ecn. clear Ecn.
  assert (Hn : cn = true -> size (read_header m (head_or 0 l2)) = nsize /\
      next (read_header m (head_or 0 l2)) = nx /\ 0 <= nsize /\ 0 <= b.2 /\ b.2 + 64 + nsize < U64).
  { unfold cn, touches_next, nsize, nx. destruct l2 as [|n r]; [done|]. intros _.
    destruct Hl2 as [Hn _]. cbn [head_or tail]. unfold m. rewrite Hn. cbn [size next free_header].
    apply Forall_inv in Hok2. split_and!; try done; blk_lia. }
  unfold HEADER_SIZE. assert (0 <= b.2 /\ b.2 + 32 < U64) by blk_lia.
  assert (0 <= nsize) by (unfold nsize; destruct l2 as [|n ?]; [done|apply Forall_inv in Hok2; blk_lia]).
  destruct cp; [specialize (Hps eq_refl)|]; (destruct cn; [destruct (Hn eq_refl) as (-> & -> & ?)|]);
    cbn [andb]; fold psize; rewrite ?(u64_add_small 32 b.2), ?(u64_add_small (32 + b.2) 32) by word_lia;
    rewrite ?u64_add_small by (rewrite ?u64_add_small by word_lia; word_lia); done.
Qed.

Lemma touches_next_true b l2 :
  touches_next b l2 = true -> exists n r, l2 = n :: r /\ bend b = n.1.
Proof. unfold touches_next. destruct l2 as [|n r]; [done|]. intros E%Z.eqb_eq. by exists n, r. Qed.

Lemma join_next_true b n r : bend b = n.1 -> join_next b (n :: r) = (b.1, b.2 + 32 + n.2) :: r.
Proof. intros E. unfold join_next. by rewrite (proj2 (Z.eqb_eq _ _) E). Qed.

Lemma join_next_false b l2 : touches_next b l2 = false -> join_next b l2 = b :: l2.
Proof. unfold touches_next, join_next. destruct l2; [done|]. by intros ->. Qed.

(** What a coalescing step leaves in memory. *)
Definition chain_post (h h' : Heap) (fl off : list Blk) : Prop :=
  free_head h' = head_or 0 fl /\ linked (mem h') fl 0 /\ initialized h' = initialized h /\
  (forall a n, clear a n off -> agree (mem h) (mem h') a n).

(** The block grows its predecessor, which takes over the tail [r]. *)
Lemma coalesce_into_prev l p b r s' m' h d :
  free_head h = head_or 0 (l ++ [p] ++ r) ->
  linked (mem h) (l ++ [p]) d ->
  Forall (blk_ok hs) (l ++ [p]) -> pairwise before (l ++ [p]) ->
  read_header m' p.1 = free_header s' (head_or 0 r) -> linked (mem h) r 0 ->
  (forall a n, a + n <= p.1 \/ p.1 + 32 <= a -> agree (mem h) m' a n) ->
  Forall (before p) r ->
  chain_post h (with_mem m' h) (l ++ (p.1, s') :: r) ((l ++ [p]) ++ [b]).
Proof.
  intros Hh Hl Hok Hs Hp Hr Hag Hb.
  split_and!; try done.
  - simpl. rewrite Hh, !head_or_app. done.
  - by eapply extend_prev.
  - intros a n Hc. apply Hag. apply Forall_app in Hc as [Hc _].
    apply Forall_app in Hc as [_ Hc%Forall_inv]. lia.
Qed.

(** The block goes onto the list with its own, filled-in header. *)
Lemma coalesce_alone l1 b b' r m' h d :
  free_head h = head_or d l1 -> linked (mem h) l1 d ->
  b'.1 = b.1 -> blk_ok hs b' -> Forall (blk_ok hs) (l1 ++ r) -> pairwise before l1 ->
  Forall (fun x => bend x <= b.1) l1 -> Forall (fun x => bend b <= x.1) r -> 0 <= b.2 ->
  read_header m' b.1 = free_header b'.2 (head_or 0 r) -> linked (mem h) r 0 ->
  (forall a n, a + n <= b.1 \/ b.1 + 32 <= a -> agree (mem h) m' a n) ->
  chain_post h (link (last_addr l1) b.1 (with_mem m' h)) (l1 ++ b' :: r) (l1 ++ [b]).
Proof.
  intros Hh Hl Eb Hokb Hok Hs1 H1b Hb2 Hb0 Hhd Hr Hag. apply Forall_app in Hok as [Hok1 Hok2].
  destruct (insert_block l1 b' r (with_mem m' h) d) as (E1 & E2 & E3 & E4); cbn; try done.
  - eapply linked_agree; [|exact Hl]. apply Forall_forall. intros x Hx.
    eapply Forall_forall in H1b, Hok1; [|done..]. apply Hag. blk_lia.
  - rewrite Eb. split; [done|]. eapply linked_agree; [|exact Hr].
    eapply Forall_impl; [exact Hb2|]. intros x Hx. apply Hag. blk_lia.
  - apply Forall_app; split; [done|]. by constructor.
  - by rewrite Eb.
  - rewrite Eb. eapply Forall_impl; [exact Hb2|]. intros x Hx. blk_lia.
  - rewrite Eb in E1, E2, E3, E4. split_and!; try done.
    intros a n Hc. apply Forall_app in Hc as [Hc Hcb%Forall_inv].
    eapply agree_trans; [apply Hag; lia|]. by apply E4.
Qed.

(** Two adjacent blocks merge into a well-formed one. *)
Lemma blk_ok_merge b n :
  blk_ok hs b -> blk_ok hs n -> bend b = n.1 -> blk_ok hs (b.1, b.2 + 32 + n.2).
Proof.
  intros (?&?&?&?&?) (?&?&?&?&?) ?. split_and!; cbn; try blk_lia.
  Z.div_mod_to_equations. lia.
Qed.

Lemma agree_set_size m a v b n : b + n <= a \/ a + 32 <= b -> agree m (set_size m a v) b n.
Proof. intros. apply agree_store64. lia. Qed.

Lemma agree_set_next m a v b n : b + n <= a \/ a + 32 <= b -> agree m (set_next m a v) b n.
Proof. intros. apply agree_store64. lia. Qed.

Lemma head_or_u64 l : Forall (blk_ok hs) l -> is_u64 (head_or 0 l).
Proof. intros H. destruct l; simpl; [done|]. apply Forall_inv in H. blk_lia. Qed.

Lemma coalesce_spec l1 b l2 h nb :
  cut_ok l1 b l2 -> free_head h = head_or 0 (l1 ++ l2) -> linked (mem h) (l1 ++ l2) 0 ->
  read_header (mem h) b.1 = free_header b.2 nb ->
  chain_post h (coalesce b.1 (last_addr l1) (head_or 0 l2) h) (join l1 b l2) (l1 ++ [b]).
Proof.
  intros Hc Hh Hl Hb. pose proof Hl as Hl'. apply linked_app in Hl' as [Hl1 Hl2].
  rewrite (coalesce_eq l1 b l2 h nb) by done.
  destruct Hc as [Hok Hs1 Hs2 H12 H1b Hb2]. rewrite head_or_app in Hh.
  apply Forall_app in Hok as [Hok1 [Hokb Hok2]%Forall_cons].
  pose proof (head_or_u64 (tail l2)) as Hnx. pose proof (head_or_u64 l2 Hok2) as Hh2. unfold join.
  destruct (touches_prev l1 b) eqn:Ep.
  - apply touches_prev_true in Ep as (l & p & -> & Hpb & ->).
    apply Forall_app in Hok1 as Hokp. destruct Hokp as [_ Hokp%Forall_inv].
    assert (Hps : read_header (mem h) (last_addr (l ++ [p])) = free_header p.2 (head_or 0 l2)).
    { rewrite last_addr_snoc. by apply linked_app in Hl1 as [_ [? _]]. }
    assert (Hp2 : Forall (before p) l2) by (apply Forall_app in H12 as [_ H12%Forall_inv]; done).
    rewrite Hps. rewrite last_addr_snoc in *. cbn [size free_header].
    destruct (touches_next b l2) eqn:En; cbn [andb].
    + apply touches_next_true in En as (n & r & -> & Hbn).
      rewrite join_next_true by blk_lia. cbn [fst snd tail].
      apply Forall_cons in Hok2 as [Hokn Hok2]. destruct Hl2 as [_ Hl2].
      apply (coalesce_into_prev _ _ _ _ _ _ _ n.1); try done.
      * by rewrite !head_or_app, Hh, head_or_app.
      * rewrite read_set_next, read_set_size, Hps by (auto || blk_lia). cbn. unfold free_header.
        f_equal. lia.
      * intros a k Hak. eapply agree_trans; [by apply agree_set_size|by apply agree_set_next].
      * by apply Forall_inv_tail in Hp2.
    + rewrite join_next_false.
      2:{ unfold touches_next in *. destruct l2; [done|]. rewrite <- En. f_equal. blk_lia. }
      apply (coalesce_into_prev _ _ _ _ _ _ _ (head_or 0 l2)); try done.
      * by rewrite !head_or_app, Hh, head_or_app.
      * rewrite read_set_size, Hps by blk_lia. cbn. unfold free_header. f_equal. lia.
      * intros a k Hak. by apply agree_set_size.
  - apply touches_prev_false in Ep as ->. cbn [andb].
    destruct (touches_next b l2) eqn:En.
    + apply touches_next_true in En as (n & r & -> & Hbn). rewrite join_next_true by done.
      apply Forall_cons in Hok2 as [Hokn Hok2]. destruct Hl2 as [_ Hl2]. cbn [tail].
      apply (coalesce_alone _ _ _ _ _ _ n.1); cbn; try done.
      * by apply blk_ok_merge.
      * by apply Forall_app.
      * by apply Forall_inv_tail in Hb2.
      * blk_lia.
      * rewrite read_set_next, read_set_size, Hb by (auto || blk_lia). cbn. unfold free_header. f_equal. lia.
      * intros a k Hak. eapply agree_trans; [by apply agree_set_size|by apply agree_set_next].
    + rewrite join_next_false by done.
      apply (coalesce_alone _ _ _ _ _ _ (head_or 0 l2)); try done.
      * by apply Forall_app.
      * blk_lia.
      * rewrite read_set_next, Hb by done. done.
      * intros a k Hak. by apply agree_set_next.
Qed.

Lemma covers_app l1 l2 x : covers (l1 ++ l2) x <-> covers l1 x \/ covers l2 x.
Proof. apply Exists_app. Qed.

Lemma covers_cons b l x : covers (b :: l) x <-> b.1 <= x < bend b \/ covers l x.
Proof. apply Exists_cons. Qed.

Lemma covers_nil x : covers [] x <-> False.
Proof. apply Exists_nil. Qed.

Lemma apart_covers f u :
  blk_ok hs f -> blk_ok hs u ->
  (forall x, covers [f] x -> ~ covers [u] x) <-> apart f u.
Proof.
  intros Hf Hu. split.
  - intros H. destruct (decide (bend f <= u.1 \/ bend u <= f.1)) as [|Hn]; [done|].
    exfalso. apply (H (Z.max f.1 u.1)); rewrite covers_cons, covers_nil; left; blk_lia.
  - intros Ha x. rewrite !covers_cons, !covers_nil. blk_lia.
Qed.

Lemma covers_merge b n x :
  blk_ok hs b -> blk_ok hs n -> bend b = n.1 ->
  b.1 <= x < bend (b.1, b.2 + 32 + n.2) <-> b.1 <= x < bend b \/ n.1 <= x < bend n.
Proof. intros. blk_lia. Qed.

Lemma pairwise_before_last (l : list Blk) p b :
  pairwise before (l ++ [p]) -> blk_ok hs p -> bend p <= b.1 -> Forall (fun x => before x b) l.
Proof.
  intros Hs Hp Hb. apply pairwise_app in Hs as (_ & _ & Hs).
  eapply Forall_impl; [exact Hs|]. intros x Hx%Forall_inv. blk_lia.
Qed.

Lemma join_prev_ok l1 b l2 l1' b' :
  cut_ok l1 b l2 -> join_prev l1 b = (l1', b') ->
  cut_ok l1' b' l2 /\ Forall (fun x => before x b') l1' /\ bend b' = bend b /\
  (forall x, covers (l1 ++ [b]) x <-> covers (l1' ++ [b']) x).
Proof.
  intros Hc E. destruct (touches_prev l1 b) eqn:Ep.
  - apply touches_prev_true in Ep as (l & p & -> & Hpb & E'). rewrite E in E'. simplify_eq.
    destruct Hc as [Hok Hs1 Hs2 H12 H1b Hb2]. rewrite <- app_assoc in Hok.
    apply Forall_app in Hok as [Hok1 [Hokp [Hokb Hok2]%Forall_cons]%Forall_cons].
    assert (Hbl : Forall (fun x => before x (p.1, p.2 + 32 + b.2)) l).
    { apply pairwise_app in Hs1 as (_ & _ & Hs). eapply Forall_impl; [exact Hs|].
      intros x Hx%Forall_inv. blk_lia. }
    split_and!; [|done|blk_lia|].
    + apply Forall_app in H12 as [H12 _]. apply pairwise_app in Hs1 as (Hs1 & _ & _).
      constructor; try done.
      * apply Forall_app. split; [done|]. constructor; [|done]. by apply blk_ok_merge.
      * eapply Forall_impl; [exact Hbl|]. intros x Hx. blk_lia.
      * eapply Forall_impl; [exact Hb2|]. intros x Hx. blk_lia.
    + intros x. rewrite <- app_assoc, !covers_app, !covers_cons, !covers_nil. cbn [fst].
      rewrite covers_merge by done. tauto.
  - rewrite (touches_prev_false _ _ Ep) in E. simplify_eq. split_and!; try done.
    destruct Hc as [Hok Hs1 _ _ H1b _].
    destruct l1' as [|p l _] using rev_ind; [done|].
    unfold touches_prev in Ep. rewrite last_snoc in Ep. bsplit.
    rewrite <- app_assoc in Hok.
    apply Forall_app in Hok as [Hok1 [Hokp _]%Forall_cons]. apply Forall_app in H1b as [_ H1b%Forall_inv].
    apply Forall_app. split; [by apply (pairwise_before_last _ p)|]. constructor; [|done]. blk_lia.
Qed.

Lemma join_next_ok l1 b l2 :
  cut_ok l1 b l2 -> Forall (fun x => before x b) l1 ->
  Forall (blk_ok hs) (l1 ++ join_next b l2) /\ pairwise before (l1 ++ join_next b l2) /\
  (forall x, covers (l1 ++ join_next b l2) x <-> covers (l1 ++ b :: l2) x).
Proof.
  intros [Hok Hs1 Hs2 H12 _ Hb2] H1b. destruct (touches_next b l2) eqn:En.
  - apply touches_next_true in En as (n & r & -> & Hbn). rewrite join_next_true by done.
    apply Forall_app in Hok as [Hok1 [Hokb [Hokn Hok2]%Forall_cons]%Forall_cons].
    destruct Hs2 as [Hnr Hs2]. split_and!.
    + apply Forall_app. split; [done|]. constructor; [|done]. by apply blk_ok_merge.
    + apply pairwise_cut. split_and!; try done.
      * eapply Forall_impl; [exact Hnr|]. intros x Hx. blk_lia.
      * eapply Forall_impl; [exact H12|]. intros x Hx. by apply Forall_inv_tail in Hx.
    + intros x. rewrite !covers_app, !covers_cons. cbn [fst]. rewrite covers_merge by done. tauto.
  - rewrite join_next_false by done. split_and!; try done.
    apply pairwise_cut. split_and!; try done.
    destruct l2 as [|n r]; [done|]. unfold touches_next in En. bsplit.
    apply Forall_cons in Hb2 as [Hbn Hbr]. destruct Hs2 as [Hnr _].
    apply Forall_app in Hok as [_ [_ [Hokn _]%Forall_cons]%Forall_cons].
    constructor; [blk_lia|]. eapply Forall_impl; [exact Hnr|]. intros x Hx. blk_lia.
Qed.

Lemma join_ok l1 b l2 :
  cut_ok l1 b l2 ->
  Forall (blk_ok hs) (join l1 b l2) /\ pairwise before (join l1 b l2) /\
  (forall x, covers (join l1 b l2) x <-> covers (l1 ++ b :: l2) x).
Proof.
  intros Hc. unfold join. destruct (join_prev l1 b) as [l1' b'] eqn:E.
  destruct (join_prev_ok _ _ _ _ _ Hc E) as (Hc' & H1b & Hbe & Hcov).
  destruct (join_next_ok _ _ _ Hc' H1b) as (H1 & H2 & H3). split_and!; try done.
  intros x. rewrite H3. specialize (Hcov x).
  rewrite !covers_app, !covers_cons, ?covers_nil in *. tauto.
Qed.

(** A live block fits between the two parts of the free list cut at its address. *)
Lemma live_cut_ok h fl live u l1 l2 :
  heap_inv hs h fl live -> u ∈ live -> cut u.1.1 [] fl = (l1, l2) ->
  fl = l1 ++ l2 /\ cut_ok l1 u.1 l2.
Proof.
  intros [_ _ _ Hok Hlo Hs _ Hfl _] Hu Ec.
  destruct (cut_spec u.1.1 [] fl Hs Hok) as (l & E & Efl & H1 & H2).
  rewrite Ec in E. simpl in E. injection E as -> ->. split; [done|].
  eapply Forall_forall in Hlo; [|exact Hu]. destruct Hlo as [Hub _].
  rewrite Efl in Hok, Hs, Hfl. apply Forall_app in Hok as [Hok1 Hok2].
  apply pairwise_app in Hs as (Hs1 & Hs2 & H12). constructor; try done.
  - apply Forall_app. split; [done|]. by constructor.
  - apply Forall_forall. intros x Hx. specialize (Hfl x u ltac:(list_mem) Hu).
    eapply Forall_forall in H1, Hok1; [|done..]. blk_lia.
  - apply Forall_forall. intros x Hx. specialize (Hfl x u ltac:(list_mem) Hu).
    eapply Forall_forall in H2, Hok2; [|done..]. blk_lia.
Qed.

Lemma pairwise_middle {A} (R : A -> A -> Prop) `{!Symmetric R} (l1 l2 : list A) x y :
  pairwise R (l1 ++ x :: l2) -> y ∈ l1 ++ l2 -> R x y.
Proof.
  rewrite pairwise_app. intros (_ & [Hx _] & H12) [Hy|Hy]%elem_of_app.
  - eapply Forall_forall in H12; [|done]. apply Forall_inv in H12. by symmetry.
  - by eapply Forall_forall in Hx.
Qed.

#[local] Instance apart_sym : Symmetric apart.
Proof. intros u v. unfold apart. tauto. Qed.

#[local] Instance live_apart_sym : Symmetric (fun u v : Live => apart u.1 v.1).
Proof. intros u v Huv. by symmetry. Qed.

(** A block that stays clear of every block of [l1 ++ b :: l2] stays clear of
    every block of the joined list. *)
Lemma join_apart l1 b l2 f u :
  cut_ok l1 b l2 -> blk_ok hs u -> (forall g, g ∈ l1 ++ b :: l2 -> apart g u) ->
  f ∈ join l1 b l2 -> apart f u.
Proof.
  intros Hc Hu Hg Hf. destruct (join_ok _ _ _ Hc) as (Hok & _ & Hcov).
  eapply Forall_forall in Hok; [|exact Hf]. apply (apart_covers f u Hok Hu). intros x Hfx Hux.
  assert (Hx : covers (join l1 b l2) x).
  { apply Exists_exists. exists f. split; [done|].
    rewrite covers_cons, covers_nil in Hfx. tauto. }
  apply Hcov, Exists_exists in Hx as (g & Hgin & Hgx).
  specialize (Hg g Hgin). rewrite covers_cons, covers_nil in Hux. blk_lia.
Qed.

(** Marking a live block free leaves the chain and the other blocks alone. *)
Lemma mark_free h fl live u :
  heap_inv hs h fl live -> u ∈ live ->
  let m1 := set_magic (mem h) u.1.1 MAGIC_FREE in
  linked m1 fl 0 /\ read_header m1 u.1.1 = free_header u.1.2 0 /\
  (forall b : Blk, apart b u.1 -> 16 <= b.2 -> agree (mem h) m1 b.1 (32 + b.2)).
Proof.
  intros [_ _ Hl Hok Hlo _ _ Hfl Hu] Hux m1.
  eapply Forall_forall in Hlo as [Hub _]; [|exact Hux].
  assert (Hm1 : forall b : Blk, apart b u.1 -> 16 <= b.2 -> agree (mem h) m1 b.1 (32 + b.2))
    by (intros; apply agree_store64; blk_lia).
  split_and!; [| |done].
  - eapply linked_agree; [|exact Hl]. apply Forall_forall. intros x Hx.
    specialize (Hfl x u Hx Hux). eapply Forall_forall in Hok; [|done].
    apply (agree_sub _ _ _ _ _ _ (Hm1 x Hfl ltac:(blk_lia))); blk_lia.
  - unfold m1. rewrite read_set_magic by done. eapply Forall_forall in Hu; [|exact Hux].
    by rewrite Hu.
Qed.

(** [dealloc_mut] on a live block, with its guards and its walk evaluated. *)
Lemma dealloc_mut_eq h fl live u l1 l2 :
  rep h fl live -> u ∈ live -> cut u.1.1 [] fl = (l1, l2) ->
  let h0 := debug_check_free_list hs (ensure_initialized hs h) in
  dealloc_mut hs (payload u.1) h =
  Some (coalesce u.1.1 (last_addr l1) (head_or 0 l2)
    (with_mem (set_magic (mem h0) u.1.1 MAGIC_FREE) h0)).
Proof.
  intros Hrep Hux Ec h0. apply enter_inv in Hrep as Hi. fold h0 in Hi.
  unfold dealloc_mut. fold h0. clearbody h0.
  pose proof (mark_free _ _ _ _ Hi Hux) as (Hm1 & _ & _).
  pose proof (hi_live_ok _ _ _ _ Hi) as Hlo. eapply Forall_forall in Hlo as [Hub _]; [|exact Hux].
  pose proof (hi_used _ _ _ _ Hi) as Hr. eapply Forall_forall in Hr; [|exact Hux].
  unfold payload. destruct (Z.eqb_spec (u.1.1 + HEADER_SIZE) 0); [blk_lia|].
  rewrite u64_sub_small by blk_lia.
  replace (u.1.1 + HEADER_SIZE - HEADER_SIZE) with u.1.1 by lia.
  rewrite Hr. cbn [magic canary used_header].
  change (MAGIC_USED =? MAGIC_FREE) with false. rewrite !Z.eqb_refl. cbn [negb orb].
  cbn [mem with_mem free_head]. rewrite (hi_head _ _ _ _ Hi).
  rewrite (walk_from_head _ _ _ fl l1 l2); [done|done|done|apply Hi|by eapply walk_fuel_enough].
Qed.

(** The heap after a live block [u] has been marked free ([m1]) and its joined
    list linked ([h']). *)
Lemma returned_inv h m1 h' fl la u lb l1 l2 :
  heap_inv hs h fl (la ++ u :: lb) -> cut u.1.1 [] fl = (l1, l2) ->
  (forall b : Blk, apart b u.1 -> 16 <= b.2 -> agree (mem h) m1 b.1 (32 + b.2)) ->
  free_head h' = head_or 0 (join l1 u.1 l2) -> linked (mem h') (join l1 u.1 l2) 0 ->
  initialized h' = true ->
  (forall a n, clear a n (l1 ++ [u.1]) -> agree m1 (mem h') a n) ->
  heap_inv hs h' (join l1 u.1 l2) (la ++ lb) /\ undisturbed h h' (la ++ lb).
Proof.
  intros Hi Ec Hm1 C1 C2 C3 C4. assert (Hux : u ∈ la ++ u :: lb) by list_mem.
  destruct (live_cut_ok _ _ _ u _ _ Hi Hux Ec) as [Efl Hc].
  destruct Hi as [Hin Hh Hl Hok Hlo Hs Hla Hfl Hu].
  assert (Hub : blk_ok hs u.1) by (by eapply Forall_forall in Hlo as [? _]).
  destruct (join_ok _ _ _ Hc) as (J1 & J2 & J3).
  assert (Hap : forall v, v ∈ la ++ lb -> (v ∈ la ++ u :: lb) /\ apart u.1 v.1 /\ blk_ok hs v.1).
  { intros v Hv. assert (Hv' : v ∈ la ++ u :: lb) by list_mem. split_and!; [done| |].
    - by apply (pairwise_middle _ la lb u v Hla).
    - by eapply Forall_forall in Hlo as [? _]. }
  assert (Hund : undisturbed h h' (la ++ lb)).
  { apply Forall_forall. intros v Hv. destruct (Hap v Hv) as (Hv' & Ha & Hvo).
    eapply agree_trans; [apply Hm1; [by symmetry|apply Hvo]|]. apply C4, clear_apart; [done|].
    intros x [Hx|Hx%list_elem_of_singleton]%elem_of_app; [|by subst].
    assert (Hxf : x ∈ fl) by (rewrite Efl; apply elem_of_app; by left).
    split; [by eapply Forall_forall in Hok|by apply Hfl]. }
  split; [|done]. constructor; try done.
  - apply Forall_forall. intros v Hv. eapply Forall_forall in Hlo; [exact Hlo|]. by apply Hap.
  - apply (pairwise_sublist _ _ (la ++ u :: lb)); [|done]. apply sublist_app; [done|].
    by apply sublist_cons.
  - intros f v Hf Hv. destruct (Hap v Hv) as (Hv' & Ha & Hvo).
    apply (join_apart l1 u.1 l2); try done. intros g Hg.
    apply elem_of_app in Hg as [Hg|[->|Hg]%elem_of_cons]; [|done|]; apply Hfl; list_mem.
  - apply (undisturbed_used h); [done| |].
    + apply Forall_forall. intros v Hv. destruct (Hap v Hv) as (_ & _ & Hvo). blk_lia.
    + apply Forall_forall. intros v Hv. by eapply Forall_forall in Hu; [|by apply Hap].
Qed.

Lemma dealloc_mut_spec h fl la u lb l1 l2 :
  rep h fl (la ++ u :: lb) -> cut u.1.1 [] fl = (l1, l2) ->
  exists h', dealloc_mut hs (payload u.1) h = Some h' /\
    heap_inv hs h' (join l1 u.1 l2) (la ++ lb) /\
    undisturbed (ensure_initialized hs h) h' (la ++ lb).
Proof.
  intros Hrep Ec. assert (Hux : u ∈ la ++ u :: lb) by list_mem.
  rewrite (dealloc_mut_eq h fl (la ++ u :: lb) u l1 l2) by done.
  apply enter_inv in Hrep as Hi. unfold undisturbed. rewrite <- (enter_mem h).
  generalize dependent (debug_check_free_list hs (ensure_initialized hs h)). clear Hrep h.
  intros h Hi. eexists. split; [done|].
  pose proof (mark_free _ _ _ _ Hi Hux) as (Hm1f & Hm1h & Hm1). revert Hm1f Hm1h Hm1.
  generalize (set_magic (mem h) u.1.1 MAGIC_FREE). intros m1 Hm1f Hm1h Hm1.
  destruct (live_cut_ok _ _ _ u _ _ Hi Hux Ec) as [Efl Hc]. rewrite Efl in Hm1f.
  destruct (coalesce_spec l1 u.1 l2 (with_mem m1 h) 0 Hc) as (C1 & C2 & C3 & C4); try done.
  { rewrite <- Efl. apply Hi. }
  apply (returned_inv h m1 _ fl); try done. rewrite C3. apply Hi.
Qed.

(** ** Runs of the allocator

    The callers' view: the payload pointers they hold and the sizes they asked
    for.  Between calls they write their own payloads, and nothing else. *)

Inductive hstep : Heap * list (Z * Z) -> Heap * list (Z * Z) -> Prop :=
| hs_alloc h own l h' p :
    layout_ok hs l -> alloc_mut hs l h = Some (h', p) ->
    hstep (h, own) (h', if p =? 0 then own else (p, Z.max (l_size l) 1) :: own)
| hs_dealloc h own1 p n own2 h' :
    dealloc_mut hs p h = Some h' -> hstep (h, own1 ++ (p, n) :: own2) (h', own1 ++ own2)
| hs_dealloc_null h own h' :
    dealloc_mut hs 0 h = Some h' -> hstep (h, own) (h', own)
| hs_free_size h own h' t :
    free_size hs h = Some (h', t) -> hstep (h, own) (h', own)
| hs_write h own p n a v :
    (p, n) ∈ own -> p <= a < p + n ->
    hstep (h, own) (with_mem (store8 (mem h) a v) h, own).

Inductive hreachable : Heap * list (Z * Z) -> Prop :=
| hr_new : hreachable (new, [])
| hr_step s s' : hreachable s -> hstep s s' -> hreachable s'.

Definition handle (u : Live) : Z * Z := (payload u.1, u.2).

Definition run_inv (s : Heap * list (Z * Z)) : Prop :=
  exists fl live, rep s.1 fl live /\ s.2 = handle <$> live /\
    (initialized s.1 = false -> live = []).

Lemma rep_live_initialized h fl live :
  (initialized h = false -> live = []) -> rep h fl live -> live <> [] ->
  ensure_initialized hs h = h.
Proof.
  intros Hi _ Hl. unfold ensure_initialized. destruct (initialized h); [done|]. by rewrite Hi in Hl.
Qed.

Lemma fmap_middle {A B} (f : A -> B) l x k1 k2 :
  k1 ++ x :: k2 = f <$> l ->
  exists l1 y l2, l = l1 ++ y :: l2 /\ k1 = f <$> l1 /\ x = f y /\ k2 = f <$> l2.
Proof.
  intros (l1 & l' & -> & E & ->)%symmetry%fmap_app_inv.
  destruct l' as [|y l2]; [done|]. simpl in E. injection E as -> ->. by exists l1, y, l2.
Qed.

Lemma dealloc_null h fl live :
  rep h fl live ->
  exists h', dealloc_mut hs 0 h = Some h' /\ heap_inv hs h' fl live /\
    mem h' = mem (ensure_initialized hs h).
Proof.
  intros Hr. exists (debug_check_free_list hs (ensure_initialized hs h)).
  split_and!; [done|by apply enter_inv|apply enter_mem].
Qed.

(** A byte written inside a payload touches no header. *)
Lemma write_payload_inv h fl live u a v :
  heap_inv hs h fl live -> u ∈ live -> payload u.1 <= a < payload u.1 + u.2 ->
  heap_inv hs (with_mem (store8 (mem h) a v) h) fl live.
Proof.
  intros [Hin Hh Hl Hok Hlo Hs Hla Hfl Hu] Hux Ha.
  eapply Forall_forall in Hlo as Huo; [|exact Hux]. destruct Huo as [Huo Hn].
  constructor; try done; cbn.
  - eapply linked_agree; [|exact Hl]. apply Forall_forall. intros x Hx.
    specialize (Hfl x u Hx Hux). eapply Forall_forall in Hok; [|done]. apply agree_store8. blk_lia.
  - apply Forall_forall. intros w Hw. eapply Forall_forall in Hu; [|exact Hw]. rewrite <- Hu.
    apply read_header_agree, agree_store8. eapply Forall_forall in Hlo; [|exact Hw].
    apply list_elem_of_lookup in Hux as [i Hi], Hw as [j Hj].
    destruct (decide (i = j)) as [->|Hne]; [simplify_eq; blk_lia|].
    assert (apart u.1 w.1) by apply (pairwise_lookup _ _ _ _ _ _ Hla Hne Hi Hj). blk_lia.
Qed.

Lemma hstep_inv s s' : hstep s s' -> run_inv s -> run_inv s'.
Proof.
  assert (Hdone : forall h fl live own, heap_inv hs h fl live -> own = handle <$> live ->
      run_inv (h, own)).
  { intros h fl live own Hi ->. exists fl, live. split_and!; [by apply heap_inv_rep|done|].
    cbn. intros E. by rewrite (hi_init _ _ _ _ Hi) in E. }
  intros Hst (fl & live & Hrep & Hown & Hnew).
  destruct Hst as [h own l h' p Hlay Hal|h own1 p n own2 h' Hd|h own h' Hd|h own h' t Hf|h own p n a v Hpn Ha];
    cbn in Hrep, Hown, Hnew.
  - pose proof (alloc_mut_spec _ _ _ _ Hrep Hlay) as Hs. cbn zeta in Hs.
    destruct (first_fit _ [] fl) as [[[pre b] post]|]; destruct Hs as (h'' & E & Hi & _);
      rewrite E in Hal; injection Hal as <- <-; subst own.
    + assert (payload b <> 0).
      { pose proof (hi_live_ok _ _ _ _ Hi) as [[Hb _] _]%Forall_cons. blk_lia. }
      destruct (Z.eqb_spec (payload b) 0); [done|]. by eapply Hdone.
    + by eapply Hdone.
  - apply fmap_middle in Hown as (la & u & lb & -> & -> & E & ->). injection E as -> ->.
    destruct (cut u.1.1 [] fl) as [l1 l2] eqn:Ec.
    destruct (dealloc_mut_spec _ _ _ _ _ _ _ Hrep Ec) as (h'' & E' & Hi & _).
    rewrite E' in Hd. injection Hd as <-. eapply Hdone; [exact Hi|]. by rewrite fmap_app.
  - destruct (dealloc_null _ _ _ Hrep) as (h'' & E' & Hi & _). rewrite E' in Hd.
    injection Hd as <-. by eapply Hdone.
  - unfold free_size in Hf. destruct (free_size_loop _ _ _ _); [|done].
    injection Hf as <- <-. by eapply Hdone.
  - rewrite Hown in Hpn. apply list_elem_of_fmap in Hpn as (u & E & Hu). injection E as -> ->.
    assert (Hi : heap_inv hs h fl live).
    { unfold rep in Hrep. rewrite (rep_live_initialized h fl live) in Hrep; try done.
      intros ->. by apply elem_of_nil in Hu. }
    eapply Hdone; [by eapply write_payload_inv|done].
Qed.

Lemma hreachable_inv s : hreachable s -> run_inv s.
Proof.
  induction 1 as [|s s' _ IH Hst]; [|by eapply hstep_inv].
  exists [(hs, HEAP_SIZE - HEADER_SIZE)], []. split_and!; [apply new_rep|done|done].
Qed.

(** ** Headers and double frees *)

Lemma link_magic prev v h a :
  prev = 0 \/ prev + 24 <= a -> load64 (mem (link prev v h)) a = load64 (mem h) a.
Proof.
  intros Hp. unfold link. destruct (Z.eqb_spec prev 0); [done|]. cbn.
  apply load64_store64_ne. lia.
Qed.

Lemma coalesce_keeps_magic block prev curr h :
  prev = 0 \/ prev + 24 <= block ->
  load64 (mem (coalesce block prev curr h)) block = load64 (mem h) block.
Proof.
  intros Hp. unfold coalesce. destruct (Z.eqb_spec prev 0) as [->|Hn]; cbn [negb andb].
  - destruct (_ && _); rewrite link_magic by auto; cbn; unfold set_next, set_size;
      rewrite !load64_store64_ne by lia; done.
  - destruct (_ =? block); cbn [andb]; destruct (_ && _); rewrite ?link_magic by lia; cbn;
      unfold set_next, set_size; rewrite !load64_store64_ne by lia; done.
Qed.

Lemma last_addr_below l b :
  Forall (blk_ok hs) l -> Forall (fun x => bend x <= b) l -> last_addr l = 0 \/ last_addr l + 24 <= b.
Proof.
  destruct l as [|p l _] using rev_ind; [by left|]. rewrite last_addr_snoc.
  intros [_ Hok%Forall_inv]%Forall_app [_ Hb%Forall_inv]%Forall_app. right. blk_lia.
Qed.

(** The header a dealloc leaves behind is marked free, merged or not. *)
Lemma dealloc_leaves_free h fl live u h' :
  rep h fl live -> u ∈ live -> dealloc_mut hs (payload u.1) h = Some h' ->
  magic (read_header (mem h') u.1.1) = MAGIC_FREE.
Proof.
  intros Hrep Hux. destruct (cut u.1.1 [] fl) as [l1 l2] eqn:Ec.
  rewrite (dealloc_mut_eq h fl live u l1 l2) by done. apply enter_inv in Hrep as Hi.
  set (h0 := debug_check_free_list _ _) in *. clearbody h0.
  destruct (live_cut_ok _ _ _ u _ _ Hi Hux Ec) as [_ [Hok _ _ _ H1b _]].
  apply Forall_app in Hok as [Hok1 _]. intros E. simplify_eq.
  unfold read_header. cbn [magic]. rewrite coalesce_keeps_magic by by apply last_addr_below.
  cbn. by apply load64_store64_eq.
Qed.

Lemma cut_block pre (b : Blk) rest :
  Forall (fun x => before x b) pre -> Forall (fun x => b.1 < x.1) rest ->
  Forall (blk_ok hs) pre -> forall acc, cut b.1 acc (pre ++ rest) = (acc ++ pre, rest).
Proof.
  intros Hpre Hrest Hok. induction pre as [|x pre IH]; intros acc; simpl.
  - rewrite app_nil_r. destruct rest as [|y rest]; [done|]. apply Forall_inv in Hrest. simpl.
    by destruct (Z.ltb_spec b.1 y.1); [|lia].
  - apply Forall_cons in Hpre as [Hx Hpre]. apply Forall_cons in Hok as [Hxo Hok].
    destruct (Z.ltb_spec b.1 x.1); [blk_lia|]. rewrite IH by done. by rewrite <- app_assoc.
Qed.

(** What freeing a freshly carved block leaves of the block it came from: all of
    it after a split, only the rounded request otherwise. *)
Definition recovered (b : Blk) (sz : Z) : Blk :=
  if b.2 <? up16 sz + 64 then (b.1, up16 sz) else b.

Lemma join_carved pre b post sz :
  Forall (blk_ok hs) (pre ++ b :: post) -> pairwise before (pre ++ b :: post) -> 1 <= sz <= b.2 ->
  join pre (b.1, up16 sz) (remainder b sz ++ post) = pre ++ recovered b sz :: post.
Proof.
  intros Hok Hs Hsz. apply Forall_app in Hok as [Hok1 [Hokb Hok2]%Forall_cons].
  apply pairwise_cut in Hs as (_ & _ & Hb1 & Hb2 & _). pose proof (up16_bounds sz) as [Hup Hup'].
  unfold join. rewrite touches_prev_false.
  - unfold remainder, recovered. destruct (Z.ltb_spec b.2 (up16 sz + 64)) as [Hlt|Hge].
    + rewrite join_next_false; [done|]. destruct post as [|n r]; [done|]. apply Forall_inv in Hb2.
      apply Z.eqb_neq. destruct Hokb as (_ & _ & _ & Hm & _).
      assert (up16 sz <= b.2) by (Z.div_mod_to_equations; lia). blk_lia.
    + cbn [app]. rewrite join_next_true by (unfold bend, payload; cbn; lia).
      cbn. unfold HEADER_SIZE. destruct b; cbn. do 3 f_equal. lia.
  - unfold touches_prev. destruct pre as [|p pre _] using rev_ind; [done|]. rewrite last_snoc.
    apply Forall_app in Hb1 as [_ Hb1%Forall_inv]. apply Z.eqb_neq. blk_lia.
Qed.

Lemma free_size_loop_spec fuel m fl t :
  linked m fl 0 -> Forall (blk_ok hs) fl -> (length fl < fuel)%nat ->
  0 <= t -> t + free_bytes fl < U64 ->
  free_size_loop fuel m (head_or 0 fl) t = Some (t + free_bytes fl).
Proof.
  revert fuel t. induction fl as [|b fl IH]; intros [|fuel] t Hl Hok Hf Ht Hb; simpl in Hf; try lia.
  { simpl. f_equal. lia. }
  destruct Hl as [Hr Hl]. apply Forall_cons in Hok as [Hokb Hok]. cbn [free_size_loop head_or].
  destruct (Z.eqb_spec b.1 0); [blk_lia|]. rewrite Hr. cbn [magic size next free_header].
  rewrite Z.eqb_refl. rewrite free_bytes_cons in *.
  assert (0 <= free_bytes fl) by by apply free_bytes_nonneg.
  destruct Hokb as (_ & _ & ? & _). rewrite u64_add_small by lia.
  rewrite IH; [|done|done|lia..]. f_equal. lia.
Qed.

End Operations.


(** ** Properties *)

(** C2: In every state the allocator reaches, through any sequence of
    allocations with an alignment of at most 16 and a size that does not wrap the
    sums of addresses, frees, statistics calls and writes of the callers to their own payloads, the payloads the callers hold
    are pairwise disjoint, 16-byte aligned and inside the arena, no block of the
    free list that is linked through memory, with its header, overlaps one of
    them, and the next allocation returns. *)
Theorem heap_exclusive hs h own :
  arena_ok hs -> hreachable hs (h, own) ->
  (forall i j p n q k, own !! i = Some (p, n) -> own !! j = Some (q, k) -> i <> j ->
     p + n <= q \/ q + k <= p) /\
  (forall p n, (p, n) ∈ own -> p mod 16 = 0 /\ hs + HEADER_SIZE <= p /\ 1 <= n /\ p + n <= hs + HEAP_SIZE) /\
  (exists fl, free_head (ensure_initialized hs h) = head_or 0 fl /\ linked (mem (ensure_initialized hs h)) fl 0 /\
     forall b p n, b ∈ fl -> (p, n) ∈ own -> b.1 + HEADER_SIZE + b.2 <= p \/ p + n <= b.1) /\
  (forall l, layout_ok hs l -> exists h' p, alloc_mut hs l h = Some (h', p)).
Proof.
  intros Ha Hr. apply hreachable_inv in Hr as (fl & live & Hrep & Hown & _); [|done].
  cbn in Hrep, Hown. subst own. pose proof Hrep as [_ Hhead Hlink _ Hlo _ Hla Hfl _]. split_and!.
  - intros i j p n q k Hi Hj Hne. rewrite list_lookup_fmap in Hi, Hj.
    apply fmap_Some in Hi as (u & Hi & Eu), Hj as (w & Hj & Ew). injection Eu as -> ->. injection Ew as -> ->.
    assert (Hap : apart u.1 w.1) by apply (pairwise_lookup _ _ _ _ _ _ Hla Hne Hi Hj).
    eapply Forall_lookup_1 in Hi, Hj; [|exact Hlo..]. blk_lia.
  - intros p n (u & Eu & Hu)%list_elem_of_fmap. injection Eu as -> ->.
    eapply Forall_forall in Hlo; [|exact Hu]. destruct Hlo as [(H1 & H2 & H3 & H4 & H5) Hn].
    unfold payload, bend, HEADER_SIZE in *. split_and!; try lia. Z.div_mod_to_equations. lia.
  - exists fl. split; [done|]. split; [done|]. intros b p n Hb (u & Eu & Hu)%list_elem_of_fmap. injection Eu as -> ->.
    pose proof (Hfl b u Hb Hu) as Hap. eapply Forall_forall in Hlo; [|exact Hu]. blk_lia.
  - intros l Hl. pose proof (alloc_mut_spec hs Ha _ _ _ _ Hrep Hl) as Hs. cbn zeta in Hs.
    destruct (first_fit _ _ _) as [[[pre b] post]|]; destruct Hs as (h' & E & _); eauto.
Qed.

(** No call disturbs a payload it was not given: an allocation changes no
    byte of any payload a caller holds, and a free changes no byte of any other
    payload. *)
Theorem heap_calls_preserve_payloads hs h own p n :
  arena_ok hs -> hreachable hs (h, own) -> (p, n) ∈ own ->
  (forall l h' q, layout_ok hs l -> alloc_mut hs l h = Some (h', q) -> agree (mem h) (mem h') p n) /\
  (forall own1 q k own2 h', own = own1 ++ (q, k) :: own2 -> (p, n) ∈ own1 ++ own2 ->
     dealloc_mut hs q h = Some h' -> agree (mem h) (mem h') p n).
Proof.
  intros Ha Hr Hpn. apply hreachable_inv in Hr as (fl & live & Hrep & Hown & Hnew); [|done].
  cbn in Hrep, Hown, Hnew. subst own.
  assert (Hini : ensure_initialized hs h = h).
  { apply (rep_live_initialized hs h fl live); try done. intros ->. by apply elem_of_nil in Hpn. }
  assert (Hsub : forall h' live', undisturbed h h' live' -> (p, n) ∈ handle <$> live' ->
      Forall (fun u => blk_ok hs u.1 /\ 1 <= u.2 <= u.1.2) live' -> agree (mem h) (mem h') p n).
  { intros h' live' Hund (u & Eu & Hu)%list_elem_of_fmap Hlo. injection Eu as -> ->.
    eapply Forall_forall in Hund, Hlo; [|exact Hu..].
    eapply agree_sub; [exact Hund|blk_lia..]. }
  pose proof (hi_live_ok _ _ _ _ Hrep) as Hlo. split.
  - intros l h' q Hl E. pose proof (alloc_mut_spec hs Ha _ _ _ _ Hrep Hl) as Hs. cbn zeta in Hs.
    rewrite Hini in Hs. destruct (first_fit _ _ _) as [[[pre b] post]|]; destruct Hs as (h'' & E' & _ & Hm);
      rewrite E in E'; injection E' as <- _.
    + by apply (Hsub h' live).
    + rewrite Hm. apply agree_refl.
  - intros own1 q k own2 h' E Hp Hd. symmetry in E. apply fmap_middle in E as (la & u & lb & -> & -> & Eu & ->).
    injection Eu as -> ->. destruct (cut u.1.1 [] fl) as [l1 l2] eqn:Ec.
    destruct (dealloc_mut_spec hs Ha _ _ _ _ _ _ _ Hrep Ec) as (h'' & E' & _ & Hund).
    rewrite Hd in E'. injection E' as <-. rewrite Hini in Hund. rewrite <- fmap_app in Hp.
    apply (Hsub h' (la ++ lb)); try done.
    apply Forall_app in Hlo as [H1 H2%Forall_inv_tail]. by apply Forall_app.
Qed.

(** [alloc_mut] is first fit and total: it walks the blocks of the free list
    in address order and answers null exactly when none has room; otherwise it
    takes the first block with room, hands out its payload, and the free list
    keeps the blocks around it and what is left of the block when that is at
    least a header and [MIN_BLOCK] bytes. *)
Theorem heap_alloc_first_fit hs h fl live l :
  arena_ok hs -> rep hs h fl live -> layout_ok hs l ->
  let sz := Z.max (l_size l) 1 in
  (Forall (fun b => b.2 < sz) fl /\
     exists h', alloc_mut hs l h = Some (h', 0) /\ rep hs h' fl live) \/
  (exists pre b post h', fl = pre ++ b :: post /\ Forall (fun x => x.2 < sz) pre /\ sz <= b.2 /\
     alloc_mut hs l h = Some (h', payload b) /\
     rep hs h' (pre ++ remainder b sz ++ post) (((b.1, up16 sz), sz) :: live)).
Proof.
  intros Ha Hrep Hl sz. pose proof (alloc_mut_spec hs Ha _ _ _ _ Hrep Hl) as Hs. cbn zeta in Hs.
  fold sz in Hs. destruct (first_fit sz [] fl) as [[[pre b] post]|] eqn:E.
  - right. apply first_fit_Some in E as (q & -> & -> & H1 & H2). destruct Hs as (h' & E & Hi & _).
    exists q, b, post, h'. split_and!; try done. by apply heap_inv_rep.
  - left. apply first_fit_None in E. destruct Hs as (h' & E' & Hi & _). split; [done|].
    exists h'. split; [done|by apply heap_inv_rep].
Qed.

(** C20: Freeing a held payload gives its bytes back and nothing else: the free
    list afterwards covers exactly the bytes it covered before and those of the
    freed block, its blocks ascend with a gap between each two (adjacent blocks
    were merged), and [free_size] reports the sum of their sizes. *)
Theorem heap_dealloc_coalesces hs h fl la u lb :
  arena_ok hs -> rep hs h fl (la ++ u :: lb) ->
  exists h' fl', dealloc_mut hs (payload u.1) h = Some h' /\ rep hs h' fl' (la ++ lb) /\
    (forall x, covers fl' x <-> covers fl x \/ u.1.1 <= x < bend u.1) /\
    pairwise before fl' /\
    (exists h'', free_size hs h' = Some (h'', free_bytes fl')).
Proof.
  intros Ha Hrep. destruct (cut u.1.1 [] fl) as [l1 l2] eqn:Ec.
  destruct (dealloc_mut_spec hs Ha _ _ _ _ _ _ _ Hrep Ec) as (h' & E & Hi & _).
  destruct (live_cut_ok hs _ _ _ u l1 l2 Hrep ltac:(list_mem) Ec) as [-> Hc].
  destruct (join_ok hs l1 u.1 l2 Hc) as (_ & J2 & J3).
  exists h', (join l1 u.1 l2). split_and!; [done|by apply heap_inv_rep| |done|].
  - intros x. rewrite J3, !covers_app, covers_cons. tauto.
  - exists h'. unfold free_size, ensure_initialized. rewrite (hi_init _ _ _ _ Hi), (hi_head _ _ _ _ Hi).
    pose proof (heap_inv_fits hs _ _ _ Hi).
    rewrite (free_size_loop_spec hs Ha); [done|apply Hi|apply Hi|by eapply walk_fuel_enough|done|].
    unfold HEAP_SIZE in *. word_lia.
Qed.


(** Freeing what was just allocated restores the free list exactly when the
    allocation split its block; when the remainder was too small to split off,
    it stays lost, and the list gets back only the rounded request. *)
Theorem heap_free_after_alloc hs h fl live l h1 p :
  arena_ok hs -> rep hs h fl live -> layout_ok hs l ->
  alloc_mut hs l h = Some (h1, p) -> p <> 0 ->
  let sz := Z.max (l_size l) 1 in
  exists pre b post h2, fl = pre ++ b :: post /\ sz <= b.2 /\
    dealloc_mut hs p h1 = Some h2 /\ rep hs h2 (pre ++ recovered b sz :: post) live /\
    (recovered b sz = b <-> up16 sz + 64 <= b.2 \/ up16 sz = b.2).
Proof.
  intros Ha Hrep Hl Hal Hp sz. pose proof (alloc_mut_spec hs Ha _ _ _ _ Hrep Hl) as Hs.
  cbn zeta in Hs. fold sz in Hs. destruct (first_fit sz [] fl) as [[[pre b] post]|] eqn:E.
  2:{ destruct Hs as (h' & E' & _). rewrite Hal in E'. by injection E' as _ ->. }
  apply first_fit_Some in E as (q & -> & -> & _ & Hsz). destruct Hs as (h' & E' & Hi & _).
  rewrite Hal in E'. injection E' as <- ->. cbn [app] in Hi.
  pose proof Hrep as [_ _ _ Hok _ Hsort _ _ _].
  pose proof Hok as Hok'. apply Forall_app in Hok' as [Hok1 [Hokb Hok2]%Forall_cons].
  pose proof Hsort as Hcut. apply pairwise_cut in Hcut as (_ & _ & Hb1 & Hb2 & _).
  pose proof (up16_bounds sz) as [Hup _].
  assert (Hsz' : 1 <= sz <= b.2) by lia.
  assert (Ec : cut b.1 [] (q ++ remainder b sz ++ post) = (q, remainder b sz ++ post)).
  { apply (cut_block hs q b (remainder b sz ++ post)); try done. apply Forall_app. split.
    - eapply Forall_impl; [by apply (remainder_ok hs)|]. intros x (_ & ? & _). lia.
    - eapply Forall_impl; [exact Hb2|]. intros x Hx. blk_lia. }
  destruct (dealloc_mut_spec hs Ha h1 _ [] ((b.1, up16 sz), sz) live _ _ (heap_inv_rep hs _ _ _ Hi) Ec)
    as (h2 & Ed & Hi2 & _).
  cbn [fst app] in Hi2. rewrite (join_carved hs) in Hi2 by done.
  exists q, b, post, h2. split_and!; [done|done|done|by apply heap_inv_rep|].
  unfold recovered. destruct b as [a s]; cbn [fst snd].
  destruct (Z.ltb_spec s (up16 sz + 64)); split; intros; simplify_eq; try done; [by right|f_equal; lia|by left].
Qed.

(** A second free of the same payload, before any other call, and a free of
    null leave the memory and the free list as they are. *)
Theorem heap_double_free_ignored hs h fl live u h1 h2 :
  arena_ok hs -> rep hs h fl live -> u ∈ live ->
  dealloc_mut hs (payload u.1) h = Some h1 -> dealloc_mut hs (payload u.1) h1 = Some h2 ->
  mem h2 = mem h1 /\ free_head h2 = free_head h1 /\
  exists h3, dealloc_mut hs 0 h = Some h3 /\ mem h3 = mem (ensure_initialized hs h).
Proof.
  intros Ha Hrep Hu H1 H2. pose proof (dealloc_leaves_free hs Ha _ _ _ _ _ Hrep Hu H1) as Hm.
  destruct (list_elem_of_split _ _ Hu) as (la & lb & ->).
  destruct (cut u.1.1 [] fl) as [l1 l2] eqn:Ec.
  destruct (dealloc_mut_spec hs Ha _ _ _ _ _ _ _ Hrep Ec) as (h1' & E1 & Hi & _).
  rewrite H1 in E1. injection E1 as <-.
  pose proof (hi_live_ok _ _ _ _ Hrep) as Hlo. eapply Forall_forall in Hlo as [Hub _]; [|exact Hu].
  unfold dealloc_mut in H2. unfold payload in H2.
  destruct (Z.eqb_spec (u.1.1 + HEADER_SIZE) 0); [blk_lia|].
  rewrite u64_sub_small in H2 by blk_lia.
  replace (u.1.1 + HEADER_SIZE - HEADER_SIZE) with u.1.1 in H2 by lia.
  rewrite (enter_mem hs) in H2. unfold ensure_initialized in H2. rewrite (hi_init _ _ _ _ Hi) in H2.
  rewrite Hm, Z.eqb_refl in H2. injection H2 as <-.
  split_and!; [|unfold debug_check_free_list; by destruct (check_free_list hs h1)|].
  - unfold debug_check_free_list. by destruct (check_free_list hs h1).
  - destruct (dealloc_null hs _ _ _ Hrep) as (h3 & E & _ & Hm3). eauto.
Qed.

(** The self check accepts the free list of every well-formed heap whose
    chain has at most 4096 blocks, and reports a longer chain as broken although
    nothing is wrong with it. *)
Theorem heap_check_iff hs h fl live :
  arena_ok hs -> rep hs h fl live ->
  check_free_list hs (ensure_initialized hs h) = None <-> (length fl <= 4096)%nat.
Proof.
  intros Ha Hi. unfold check_free_list. rewrite (hi_head _ _ _ _ Hi).
  apply (check_loop_spec hs Ha); [apply Hi|apply Hi|apply Hi|].
  eapply Forall_impl; [apply Hi|]. intros b Hb. blk_lia.
Qed.


Lemma align_up_multiple x k : 0 <= k < 64 -> align_up x (2 ^ k) mod 2 ^ k = 0.
Proof.
  intros Hk. assert (0 < 2 ^ k) by (apply Z.pow_pos_nonneg; lia).
  assert (2 ^ k < U64) by (apply Z.pow_lt_mono_r; lia).
  unfold align_up. rewrite (u64_sub_small (2 ^ k)) by lia.
  rewrite land_not_ones by (done || apply u64_sub_range).
  rewrite Zminus_mod, Zmod_mod, Z.sub_diag. apply Z.mod_0_l. lia.
Qed.

Lemma u64_add_mod_pow a b k : 0 <= k < 64 -> u64_add a b mod 2 ^ k = (a + b) mod 2 ^ k.
Proof.
  intros Hk. unfold u64_add, U64. apply Z.mod_mod_divide. exists (2 ^ (64 - k)).
  rewrite <- Z.pow_add_r by lia. f_equal. lia.
Qed.

Lemma alloc_loop_data fuel sz align prev curr h h' p :
  alloc_loop fuel sz align prev curr h = Some (h', p) ->
  p = 0 \/ exists c, p = align_up c align ⊞ HEADER_SIZE.
Proof.
  revert prev curr. induction fuel as [|fuel IH]; intros prev curr; cbn [alloc_loop]; [done|].
  destruct (curr =? 0); [intros E; simplify_eq; by left|].
  case_if; [apply IH|]. unfold carve. intros E'. simplify_eq. right. by exists curr.
Qed.

(** A request for an alignment of 64 or more is never met: whatever the state
    of the heap, the payload handed out lies 32 bytes (the header) past a multiple
    of the alignment, because the header is aligned and not the payload. *)
Theorem heap_overaligned_misplaced hs h l k h' p :
  6 <= k < 64 -> l_align l = 2 ^ k -> alloc_mut hs l h = Some (h', p) -> p <> 0 ->
  p mod 2 ^ k = 32.
Proof.
  intros Hk Hal Hr Hp. unfold alloc_mut in Hr.
  assert (Hp6 : 2 ^ 6 <= 2 ^ k) by (apply Z.pow_le_mono_r; lia). change (2 ^ 6) with 64 in Hp6.
  rewrite Hal, (Z.max_l (2 ^ k) 16) in Hr by lia.
  apply alloc_loop_data in Hr as [?|[c ->]]; [done|].
  rewrite u64_add_mod_pow, Zplus_mod, align_up_multiple by lia.
  unfold HEADER_SIZE. rewrite (Z.mod_small 32) by lia. apply Z.mod_small. lia.
Qed.

(** An address the kernel's linker script gives the array. *)
Definition link_base : Z := 0xffffffff81000000.

(** The state an operation leaves, for runs computed on concrete inputs. *)
Definition run_alloc (l : Layout) (h : Heap) : Heap :=
  default h (fst <$> alloc_mut link_base l h).
Definition run_dealloc (p : Z) (h : Heap) : Heap := default h (dealloc_mut link_base p h).

Lemma run_alloc_eq l h p :
  snd <$> alloc_mut link_base l h = Some p -> alloc_mut link_base l h = Some (run_alloc l h, p).
Proof. unfold run_alloc. destruct (alloc_mut link_base l h) as [[h' q]|]; [|done]. cbn. congruence. Qed.

Lemma run_dealloc_eq p h :
  bool_decide (is_Some (dealloc_mut link_base p h)) = true ->
  dealloc_mut link_base p h = Some (run_dealloc p h).
Proof. unfold run_dealloc. rewrite bool_decide_eq_true. by intros [h' ->]. Qed.

Definition lay_at (n al : Z) : Layout := {| l_size := n; l_align := al |}.

(** An over-aligned allocation corrupts the heap: allocating 32 bytes at
    alignment 64, freeing them, and allocating 64 bytes hands out a payload that
    contains the header of a block still on the free list, since the extent is
    rounded up on its own and ends 32 bytes past the leftover. *)
Theorem heap_overaligned_overlap :
  exists h1 p h2 h3 q,
    alloc_mut link_base (lay_at 32 64) new = Some (h1, p) /\
    dealloc_mut link_base p h1 = Some h2 /\
    alloc_mut link_base (lay_at 64 16) h2 = Some (h3, q) /\
    q <= free_head h3 < q + 64 /\
    magic (read_header (mem h3) (free_head h3)) = MAGIC_FREE.
Proof.
  pose (h1 := run_alloc (lay_at 32 64) new). pose (h2 := run_dealloc (link_base + 32) h1).
  exists h1, (link_base + 32), h2, (run_alloc (lay_at 64 16) h2), (link_base + 32). split_and!.
  - apply run_alloc_eq. vm_compute. reflexivity.
  - apply run_dealloc_eq. vm_compute. reflexivity.
  - apply run_alloc_eq. vm_compute. reflexivity.
  - vm_compute. discriminate.
  - vm_compute. reflexivity.
  - vm_compute. reflexivity.
Qed.

(** The address sums of [alloc_mut] wrap: with the array in the top two
    gigabytes, where the kernel is linked, a request of 2 GiB passes the fit test
    of the 8 MiB arena, and a free block header is written at a low address
    outside the arena. *)
Theorem heap_huge_request_wraps :
  exists h p,
    alloc_mut link_base (lay_at (2 ^ 31) 16) new = Some (h, p) /\ p <> 0 /\
    free_head h < link_base /\ magic (read_header (mem h) (free_head h)) = MAGIC_FREE.
Proof.
  exists (run_alloc (lay_at (2 ^ 31) 16) new), (link_base + 32). split_and!.
  - apply run_alloc_eq. vm_compute. reflexivity.
  - done.
  - vm_compute. reflexivity.
  - vm_compute. reflexivity.
Qed.

(** ** Witnesses *)

Definition lay (n : Z) : Layout := {| l_size := n; l_align := 8 |}.
Definition demo1 : Heap := run_alloc (lay 10) new.
Definition demo2 : Heap := run_alloc (lay 100) demo1.
Definition demo_own : list (Z * Z) := [(link_base + 80, 100); (link_base + 32, 10)].

Lemma link_base_ok : arena_ok link_base.
Proof. unfold arena_ok. by vm_compute. Qed.

Lemma lay_ok n : 0 <= n <= 4096 -> layout_ok link_base (lay n).
Proof. intros. unfold layout_ok, lay, link_base, HEAP_SIZE, U64. cbn. lia. Qed.

Lemma demo_alloc1 : alloc_mut link_base (lay 10) new = Some (demo1, link_base + 32).
Proof. apply run_alloc_eq. vm_compute. reflexivity. Qed.

Lemma demo_alloc2 : alloc_mut link_base (lay 100) demo1 = Some (demo2, link_base + 80).
Proof. apply run_alloc_eq. vm_compute. reflexivity. Qed.

Lemma demo2_reachable : hreachable link_base (demo2, demo_own).
Proof.
  pose proof (hs_alloc link_base demo1 [(link_base + 32, 10)] (lay 100) demo2 (link_base + 80)
    (lay_ok 100 ltac:(lia)) demo_alloc2) as Hs2.
  pose proof (hs_alloc link_base new [] (lay 10) demo1 (link_base + 32)
    (lay_ok 10 ltac:(lia)) demo_alloc1) as Hs1.
  eapply hr_step; [eapply hr_step; [apply hr_new|exact Hs1]|exact Hs2].
Qed.

Lemma heap_exclusive_witness :
  exists h' p, alloc_mut link_base (lay 1) demo2 = Some (h', p).
Proof.
  apply (heap_exclusive link_base demo2 demo_own link_base_ok demo2_reachable). apply lay_ok. lia.
Defined.

Lemma demo_alloc3 : alloc_mut link_base (lay 7) demo2 = Some (run_alloc (lay 7) demo2, link_base + 224).
Proof. apply run_alloc_eq. vm_compute. reflexivity. Qed.

Lemma heap_calls_preserve_payloads_witness :
  alloc_mut link_base (lay 7) demo2 = Some (run_alloc (lay 7) demo2, link_base + 224) /\
  agree (mem demo2) (mem (run_alloc (lay 7) demo2)) (link_base + 32) 10.
Proof.
  split; [exact demo_alloc3|].
  refine (proj1 (heap_calls_preserve_payloads link_base demo2 demo_own (link_base + 32) 10
    link_base_ok demo2_reachable _) (lay 7) _ (link_base + 224) _ demo_alloc3).
  - right. left.
  - apply lay_ok. lia.
Defined.

Definition whole : list Blk := [(link_base, HEAP_SIZE - HEADER_SIZE)].

Lemma heap_alloc_first_fit_witness :
  exists h', alloc_mut link_base (lay 5) new = Some (h', link_base + 32).
Proof.
  destruct (heap_alloc_first_fit link_base new whole [] (lay 5) link_base_ok
    (new_rep link_base link_base_ok) (lay_ok 5 ltac:(lia))) as [[H _]|(pre & b & post & h' & E & _ & _ & Ha & _)].
  - apply Forall_inv in H. discriminate H.
  - exists h'. rewrite Ha. clear Ha. unfold whole in E. destruct pre as [|x pre].
    + injection E as <- _. reflexivity.
    + injection E as _ E. destruct pre; discriminate E.
Defined.

Lemma Some_pair_inv {A B} (a c : A) (b d : B) : Some (a, b) = Some (c, d) -> a = c.
Proof. congruence. Qed.

Lemma demo1_rep :
  rep link_base demo1 [(link_base + 48, HEAP_SIZE - 80)] [((link_base, 16), 10)].
Proof.
  pose proof (alloc_mut_spec link_base link_base_ok (lay 10) new whole []
    (new_rep link_base link_base_ok) (lay_ok 10 ltac:(lia))) as H. cbv zeta in H.
  change (first_fit _ _ _) with (Some (@nil Blk, (link_base, HEAP_SIZE - HEADER_SIZE), @nil Blk)) in H.
  destruct H as (h' & E & Hi & _). rewrite demo_alloc1 in E.
  apply Some_pair_inv in E. rewrite E. apply heap_inv_rep. exact Hi.
Qed.

Lemma heap_dealloc_coalesces_witness :
  exists h' fl', dealloc_mut link_base (link_base + 32) demo1 = Some h' /\ rep link_base h' fl' [].
Proof.
  destruct (heap_dealloc_coalesces link_base demo1 _ [] ((link_base, 16), 10) [] link_base_ok demo1_rep)
    as (h' & fl' & E & Hr & _).
  exists h', fl'. exact (conj E Hr).
Defined.

Lemma heap_free_after_alloc_witness :
  exists h2, dealloc_mut link_base (link_base + 32) demo1 = Some h2.
Proof.
  destruct (heap_free_after_alloc link_base new whole [] (lay 10) demo1 (link_base + 32) link_base_ok
    (new_rep link_base link_base_ok) (lay_ok 10 ltac:(lia)) demo_alloc1 ltac:(discriminate))
    as (pre & b & post & h2 & _ & _ & E & _).
  exists h2. exact E.
Defined.

Lemma heap_double_free_ignored_witness :
  mem (run_dealloc (link_base + 32) (run_dealloc (link_base + 32) demo1)) =
  mem (run_dealloc (link_base + 32) demo1).
Proof.
  apply (heap_double_free_ignored link_base demo1 _ _ ((link_base, 16), 10) _ _ link_base_ok demo1_rep).
  - left.
  - apply run_dealloc_eq. vm_compute. reflexivity.
  - apply run_dealloc_eq. vm_compute. reflexivity.
Defined.

Lemma heap_check_iff_witness :
  check_free_list link_base (ensure_initialized link_base demo1) = None.
Proof. apply (heap_check_iff link_base demo1 _ _ link_base_ok demo1_rep). cbn. lia. Defined.

Lemma heap_overaligned_misplaced_witness :
  (link_base + 32) mod 2 ^ 6 = 32.
Proof.
  apply (heap_overaligned_misplaced link_base new (lay_at 1 64) 6 (run_alloc (lay_at 1 64) new));
    [lia|reflexivity|apply run_alloc_eq; vm_compute; reflexivity|done].
Defined.

End HeapProofs.
