(* ===== verification/Bytes.v ===== *)
(** Byte strings.

    The network stack and the wire formats work on slices of bytes.  A slice is a
    list of [Z], each between 0 and 255; an index is a [nat].  This file has the
    slice operations of the source ([&buf[a..b]], [buf[a..b].copy_from_slice],
    [to_be_bytes], [from_be_bytes]) and the lemmas the wire formats share. *)

From S2P Require Import Prelude.

Notation bytes := (list Z).

Definition is_u8 (b : Z) : Prop := 0 <= b < 256.
Definition is_u16 (x : Z) : Prop := 0 <= x < 65536.
Definition is_u32 (x : Z) : Prop := 0 <= x < 2 ^ 32.
Definition bytes_ok (l : bytes) : Prop := Forall is_u8 l.

(** [buf[i]]; every use below is behind a length check, as in the source. *)
Definition byte_at (l : bytes) (i : nat) : Z := default 0 (l !! i).

(** [&buf[a..b]]. *)
Definition slice (a b : nat) (l : bytes) : bytes := take (b - a) (drop a l).

(** [buf[off..off + x.len()].copy_from_slice(x)]. *)
Definition splice (off : nat) (x buf : bytes) : bytes :=
  take off buf ++ x ++ drop (off + length x) buf.

Definition be16_bytes (v : Z) : bytes := [v / 256 mod 256; v mod 256].
Definition be32_bytes (v : Z) : bytes :=
  [v / 2 ^ 24 mod 256; v / 2 ^ 16 mod 256; v / 256 mod 256; v mod 256].

(** [u16::from_be_bytes] and [u16::from_be] of an unaligned read. *)
Definition be16 (hi lo : Z) : Z := hi * 256 + lo.
Definition be16_at (l : bytes) (i : nat) : Z := be16 (byte_at l i) (byte_at l (i + 1)).
Definition be32_at (l : bytes) (i : nat) : Z := be16_at l i * 65536 + be16_at l (i + 2).

Definition u16_not (x : Z) : Z := 65535 - x.

(** Equality of two byte strings as the source tests it. *)
Definition bytes_eqb (a b : bytes) : bool := bool_decide (a = b).

Lemma bytes_eqb_eq a b : bytes_eqb a b = true <-> a = b.
Proof. apply bool_decide_eq_true. Qed.

Lemma bytes_eqb_refl a : bytes_eqb a a = true.
Proof. by apply bytes_eqb_eq. Qed.

Lemma bytes_eqb_neq a b : bytes_eqb a b = false <-> a <> b.
Proof. apply bool_decide_eq_false. Qed.

Section slices.
Implicit Types (l x y : bytes) (n off : nat).

Lemma length_slice a b l : (a <= b <= length l)%nat -> length (slice a b l) = (b - a)%nat.
Proof. intros. unfold slice. rewrite length_take, length_drop. lia. Qed.

Lemma length_splice off x buf :
  (off + length x <= length buf)%nat -> length (splice off x buf) = length buf.
Proof. intros. unfold splice. rewrite !length_app, length_take, length_drop. lia. Qed.

Lemma length_splice_eq off x buf n :
  length buf = n -> (off + length x <= n)%nat -> length (splice off x buf) = n.
Proof. intros <-. apply length_splice. Qed.

Lemma byte_at_slice a b l i : (i < b - a)%nat -> byte_at (slice a b l) i = byte_at l (a + i).
Proof. intros Hi. unfold byte_at, slice. by rewrite lookup_take_lt, lookup_drop. Qed.

Lemma slice_app_exact a x y r n :
  a = length x -> n = (a + length y)%nat -> slice a n (x ++ y ++ r) = y.
Proof.
  intros -> ->. unfold slice. rewrite drop_app_length.
  replace (length x + length y - length x)%nat with (length y) by lia. apply take_app_length.
Qed.

Lemma slice_prefix n l r : n = length l -> slice 0 n (l ++ r) = l.
Proof. intros ->. unfold slice. rewrite drop_0, Nat.sub_0_r. apply take_app_length. Qed.

Lemma byte_at_app_r x y n : byte_at (x ++ y) (length x + n) = byte_at y n.
Proof. unfold byte_at. rewrite lookup_app_r by lia. by replace (length x + n - length x)%nat with n by lia. Qed.

Lemma byte_at_app_l x y n : (n < length x)%nat -> byte_at (x ++ y) n = byte_at x n.
Proof. intros. unfold byte_at. by rewrite lookup_app_l. Qed.

Lemma byte_at_ok l n : bytes_ok l -> is_u8 (byte_at l n).
Proof.
  intros H. unfold byte_at. destruct (l !! n) as [b|] eqn:E; [|done].
  by eapply Forall_lookup_1 in E; [|exact H].
Qed.

Lemma be16_at_ok l n : bytes_ok l -> is_u16 (be16_at l n).
Proof.
  intros H. unfold be16_at, be16, is_u16.
  pose proof (byte_at_ok l n H). pose proof (byte_at_ok l (n + 1) H). unfold is_u8 in *. lia.
Qed.

Lemma slice_app_l a b l r : (b <= length l)%nat -> slice a b (l ++ r) = slice a b l.
Proof.
  intros Hb. unfold slice. destruct (decide (a <= length l)%nat).
  - rewrite drop_app_le by lia. rewrite take_app_le; [done|]. rewrite length_drop. lia.
  - by replace (b - a)%nat with 0%nat by lia.
Qed.

Lemma take_slice k a b l : (a + k <= b)%nat -> take k (slice a b l) = slice a (a + k) l.
Proof. intros. unfold slice. rewrite take_take. f_equal. lia. Qed.

(** Reading back what was copied in, and what was beside it. *)
Lemma slice_splice_same a b x buf :
  b = (a + length x)%nat -> (b <= length buf)%nat -> slice a b (splice a x buf) = x.
Proof.
  intros -> Hl. unfold splice. apply slice_app_exact; [|done]. rewrite length_take. lia.
Qed.

Lemma slice_splice_other a b off x buf :
  (off + length x <= length buf)%nat -> (b <= off \/ off + length x <= a)%nat ->
  slice a b (splice off x buf) = slice a b buf.
Proof.
  intros Hl H. apply list_eq. intros i. unfold slice, splice.
  destruct (decide (i < b - a)%nat) as [Hi|Hi]; [|by rewrite !lookup_take_ge by lia].
  rewrite !lookup_take_lt, !lookup_drop by done. destruct H as [H|H].
  - rewrite lookup_app_l by (rewrite length_take; lia). by rewrite lookup_take_lt by lia.
  - rewrite lookup_app_r by (rewrite length_take; lia). rewrite length_take.
    rewrite lookup_app_r by lia. rewrite lookup_drop. f_equal. lia.
Qed.

(** A buffer filled by a sequence of copies, in order. *)
Definition write_all (ws : list (nat * bytes)) (buf : bytes) : bytes :=
  foldl (fun b w => splice w.1 w.2 b) buf ws.

Lemma length_write_all ws buf :
  Forall (fun w => w.1 + length w.2 <= length buf)%nat ws -> length (write_all ws buf) = length buf.
Proof.
  revert buf. induction ws as [|w ws IH]; intros buf H; [done|]. apply Forall_cons in H as [Hw Hws].
  assert (E : length (splice w.1 w.2 buf) = length buf) by by apply length_splice.
  change (write_all (w :: ws) buf) with (write_all ws (splice w.1 w.2 buf)).
  rewrite IH; rewrite ?E; done.
Qed.

(** A range reads as the last copy that was made there, when later ones miss it. *)
Lemma slice_write_all ws1 ws2 a b x buf :
  Forall (fun w => w.1 + length w.2 <= length buf)%nat (ws1 ++ (a, x) :: ws2) ->
  b = (a + length x)%nat ->
  Forall (fun w => b <= w.1 \/ w.1 + length w.2 <= a)%nat ws2 ->
  slice a b (write_all (ws1 ++ (a, x) :: ws2) buf) = x.
Proof.
  intros Hfit -> Hmiss. induction ws2 as [|w ws2 IH] using rev_ind.
  - unfold write_all. rewrite foldl_app. cbn. fold (write_all ws1 buf).
    apply Forall_app in Hfit as [H1 [H2 _]%Forall_cons]. apply slice_splice_same; [done|].
    by rewrite length_write_all.
  - rewrite app_comm_cons, app_assoc in Hfit |- *. apply Forall_app in Hfit as [Hfit Hw].
    apply Forall_app in Hmiss as [Hmiss Hw2]. apply Forall_cons in Hw as [Hw _]. apply Forall_cons in Hw2 as [Hw2 _].
    unfold write_all. rewrite foldl_snoc. fold (write_all (ws1 ++ (a, x) :: ws2) buf).
    rewrite slice_splice_other; [by apply IH|by rewrite length_write_all|exact Hw2].
Qed.

Lemma slice_write_at ws k a b x buf :
  ws !! k = Some (a, x) ->
  Forall (fun w => w.1 + length w.2 <= length buf)%nat ws -> b = (a + length x)%nat ->
  Forall (fun w => b <= w.1 \/ w.1 + length w.2 <= a)%nat (drop (S k) ws) ->
  slice a b (write_all ws buf) = x.
Proof.
  intros Hk Hfit Hb Hmiss. rewrite <- (take_drop_middle ws k (a, x) Hk) in Hfit |- *.
  by apply slice_write_all.
Qed.

(** Copies into the two halves of a buffer. *)
Lemma write_all_split ws1 ws2 p q :
  Forall (fun w => w.1 + length w.2 <= length p)%nat ws1 ->
  Forall (fun w => length p <= w.1)%nat ws2 ->
  write_all (ws1 ++ ws2) (p ++ q) =
  write_all ws1 p ++ write_all ((fun w => (w.1 - length p, w.2)%nat) <$> ws2) q.
Proof.
  revert p. induction ws1 as [|w ws1 IH]; intros p H1 H2.
  - cbn [app]. revert q. induction ws2 as [|w ws2 IH2]; intros q; [done|]. apply Forall_cons in H2 as [Hw H2].
    change (write_all (w :: ws2) ?b) with (write_all ws2 (splice w.1 w.2 b)).
    assert (E : splice w.1 w.2 (p ++ q) = p ++ splice (w.1 - length p) w.2 q).
    { unfold splice. rewrite take_app_ge, drop_app_ge by lia.
      rewrite <- app_assoc. do 4 f_equal. lia. }
    rewrite E. rewrite IH2 by done. done.
  - apply Forall_cons in H1 as [Hw H1]. cbn [app].
    change (write_all (w :: ?l) ?b) with (write_all l (splice w.1 w.2 b)).
    assert (Hl : length (splice w.1 w.2 p) = length p) by by apply length_splice.
    assert (E : splice w.1 w.2 (p ++ q) = splice w.1 w.2 p ++ q).
    { unfold splice. rewrite take_app_le, drop_app_le by lia. by rewrite <- !app_assoc. }
    rewrite E, IH by (rewrite Hl; done). by rewrite Hl.
Qed.

End slices.

Lemma be16_bytes_ok v : bytes_ok (be16_bytes v).
Proof. repeat constructor; apply Z.mod_pos_bound; lia. Qed.

Lemma be16_of_bytes v : is_u16 v -> be16 (v / 256 mod 256) (v mod 256) = v.
Proof. unfold is_u16, be16. intros. rewrite (Z.mod_small (v / 256)); Z.div_mod_to_equations; lia. Qed.

Lemma be32_of_bytes v :
  is_u32 v ->
  be16 (v / 2 ^ 24 mod 256) (v / 2 ^ 16 mod 256) * 65536 + be16 (v / 256 mod 256) (v mod 256) = v.
Proof.
  unfold is_u32, be16. intros. change (2 ^ 24) with 16777216. change (2 ^ 16) with 65536.
  change (2 ^ 32) with 4294967296 in *. Z.div_mod_to_equations. lia.
Qed.

Lemma be16_split hi lo : is_u8 hi -> is_u8 lo -> be16 hi lo / 256 mod 256 = hi /\ be16 hi lo mod 256 = lo.
Proof. unfold is_u8, be16. intros. split; Z.div_mod_to_equations; lia. Qed.

Lemma be16_range hi lo : is_u8 hi -> is_u8 lo -> is_u16 (be16 hi lo).
Proof. unfold is_u8, is_u16, be16. lia. Qed.

(** A byte string of known length, as its elements. *)
Lemma length_4_inv (l : bytes) : length l = 4%nat -> exists a b c d, l = [a; b; c; d].
Proof. destruct l as [|a [|b [|c [|d [|]]]]]; try done. intros _. by exists a, b, c, d. Qed.

Lemma length_6_inv (l : bytes) :
  length l = 6%nat -> exists a b c d e f, l = [a; b; c; d; e; f].
Proof.
  destruct l as [|a [|b [|c [|d [|e [|f [|]]]]]]]; try done. intros _. by exists a, b, c, d, e, f.
Qed.

Lemma replicate_split {A} (n m : nat) (x : A) :
  (n <= m)%nat -> replicate m x = replicate n x ++ replicate (m - n) x.
Proof. intros. rewrite <- replicate_add. f_equal. lia. Qed.

(** Every element of a literal byte string is a byte. *)
Ltac u8_list :=
  unfold bytes_ok;
  repeat (apply Forall_cons; split;
    [first [assumption | unfold is_u8; lia | apply Z.mod_pos_bound; lia]|]);
  apply Forall_nil_2.

#[export] Hint Resolve be16_bytes_ok byte_at_ok be16_at_ok : zenus.
