(* ===== verification/Wire.v ===== *)
(** Wire formats of the network stack: ethernet.rs, ipv4.rs, icmp.rs and the
    parser and checksum of udp.rs, all under src/crates/zenus-net/src.

    A parser takes a slice and answers [None] where the source returns [None]; a
    builder writes the fields into a zeroed buffer in the order of the source.
    Nothing here has state; [Nic] composes these functions into the receive and
    send paths. *)

From S2P Require Import Prelude Bytes.

(** ** ipv4::internet_checksum, icmp::checksum *)

(** The two passes of the summing loop: whole 16-bit words, then the odd byte
    shifted into the high half.  The sum is a [u32]. *)
Fixpoint sum_words (sum : Z) (data : bytes) : Z :=
  match data with
  | a :: b :: r => sum_words ((sum + be16 a b) mod 2 ^ 32) r
  | [a] => (sum + Z.shiftl a 8) mod 2 ^ 32
  | [] => sum
  end.

(** [while (sum >> 16) != 0 { sum = (sum & 0xFFFF) + (sum >> 16) }]; three
    rounds are enough for a [u32], see [fold_carry_spec]. *)
Fixpoint fold_carry (fuel : nat) (sum : Z) : Z :=
  match fuel with
  | O => sum
  | S fuel =>
      if Z.shiftr sum 16 =? 0 then sum
      else fold_carry fuel (Z.land sum 0xFFFF + Z.shiftr sum 16)
  end.

Definition FOLD_FUEL : nat := 3.

Definition internet_checksum (data : bytes) : Z :=
  u16_not (fold_carry FOLD_FUEL (sum_words 0 data) mod 65536).

(** ** ethernet::parse *)

Definition ETH_IPV4 : Z := 0x0800.
Definition ETH_ARP : Z := 0x0806.

Record EthernetHeader := { dst_mac : bytes; src_mac : bytes; ether_type : Z }.

Module Ethernet.

Definition parse (packet : bytes) : option (EthernetHeader * bytes) :=
  if (length packet <? 14)%nat then None
  else
    Some ({| dst_mac := slice 0 6 packet; src_mac := slice 6 12 packet;
             ether_type := be16_at packet 12 |}, drop 14 packet).

End Ethernet.

(** ** ipv4::parse and the packet of ipv4::send_raw *)

Definition PROTO_TCP : Z := 6.
Definition PROTO_UDP : Z := 17.
Definition PROTO_ICMP : Z := 1.

Record Ipv4Header := {
  version_ihl : Z;
  dscp_ecn : Z;
  total_length : Z;
  identification : Z;
  flags_fragment : Z;
  ttl : Z;
  protocol : Z;
  ip_csum : Z;
  src_ip : bytes;
  dst_ip : bytes;
}.

Module Ipv4.

(** The header with its checksum field zeroed, as the 60-byte scratch buffer
    holds it. *)
Definition csum_input (ihl : nat) (packet : bytes) : bytes :=
  take ihl (splice 11 [0] (splice 10 [0] (splice 0 (take ihl packet) (replicate 60 0)))).

Definition parse (packet : bytes) : option (Ipv4Header * bytes) :=
  if (length packet <? 20)%nat then None
  else
    let vi := byte_at packet 0 in
    if negb (Z.shiftr vi 4 =? 4) then None
    else
      let ihl := Z.to_nat (Z.land vi 0x0F * 4) in
      if (ihl <? 20)%nat || (length packet <? ihl)%nat then None
      else
        let tlen := Z.to_nat (be16_at packet 2) in
        if (tlen <? ihl)%nat || (length packet <? tlen)%nat then None
        else
          let stored_csum := be16_at packet 10 in
          if negb (stored_csum =? 0) &&
             negb (internet_checksum (csum_input ihl packet) =? stored_csum)
          then None
          else
            Some ({| version_ihl := vi; dscp_ecn := byte_at packet 1;
                     total_length := Z.of_nat tlen;
                     identification := be16_at packet 4;
                     flags_fragment := be16_at packet 6;
                     ttl := byte_at packet 8; protocol := byte_at packet 9;
                     ip_csum := be16_at packet 10;
                     src_ip := slice 12 16 packet; dst_ip := slice 16 20 packet |},
                  slice ihl tlen packet).

(** The packet [send_raw] hands to the NIC, or [None] where it refuses the
    length. *)
Definition raw_packet (src dst : bytes) (proto : Z) (payload : bytes) : option bytes :=
  let total_len := (20 + length payload)%nat in
  if (1500 <? total_len)%nat then None
  else
    let b := replicate 1500 0 in
    let b := splice 0 [0x45] b in
    let b := splice 1 [0] b in
    let b := splice 2 (be16_bytes (Z.of_nat total_len)) b in
    let b := splice 6 (be16_bytes 0x4000) b in
    let b := splice 8 [64] b in
    let b := splice 9 [proto] b in
    let b := splice 12 src b in
    let b := splice 16 dst b in
    let b := splice 20 payload b in
    let csum := internet_checksum (take 20 b) in
    let b := splice 10 [Z.shiftr csum 8] b in
    let b := splice 11 [Z.land csum 0xFF] b in
    Some (take total_len b).

End Ipv4.

(** ** icmp::handle_echo *)

Module Icmp.

Definition ICMP_ECHO_REQUEST : Z := 8.
Definition ICMP_ECHO_REPLY : Z := 0.

(** The module's own copy of the checksum loop. *)
Definition checksum (data : bytes) : Z :=
  u16_not (fold_carry FOLD_FUEL (sum_words 0 data) mod 65536).

(** The Ethernet and IPv4 headers of the reply, checksum included. *)
Definition reply_headers (requester our_mac dmac our_ip : bytes) (data_len : nat) (b : bytes) : bytes :=
  let b := splice 0 dmac b in
  let b := splice 6 our_mac b in
  let b := splice 12 (be16_bytes ETH_IPV4) b in
  let ip_total_len := Z.of_nat (20 + 8 + data_len) in
  let b := splice 14 [0x45] b in
  let b := splice 15 [0] b in
  let b := splice 16 (be16_bytes ip_total_len) b in
  let b := splice 18 [0; 0] b in
  let b := splice 20 [0; 0] b in
  let b := splice 22 [64] b in
  let b := splice 23 [PROTO_ICMP] b in
  let b := splice 24 [0; 0] b in
  let b := splice 26 our_ip b in
  let b := splice 30 requester b in
  let ip_c := checksum (slice 14 34 b) in
  let b := splice 24 [Z.shiftr ip_c 8] b in
  splice 25 [Z.land ip_c 0xFF] b.

Definition reply_body (ident seq : Z) (echo_data b : bytes) : bytes :=
  let data_len := length echo_data in
  let b := splice 34 [ICMP_ECHO_REPLY] b in
  let b := splice 35 [0] b in
  let b := splice 36 [0] b in
  let b := splice 37 [0] b in
  let b := splice 38 (be16_bytes ident) b in
  let b := splice 40 (be16_bytes seq) b in
  let b := splice 42 echo_data b in
  let icmp_c := checksum (slice 34 (34 + 8 + data_len) b) in
  let b := splice 36 [Z.shiftr icmp_c 8] b in
  splice 37 [Z.land icmp_c 0xFF] b.

Definition handle_echo (ip_hdr : Ipv4Header) (payload our_mac dmac our_ip : bytes) : option bytes :=
  if (length payload <? 8)%nat then None
  else
    let icmp_type := byte_at payload 0 in
    let ident := be16_at payload 4 in
    let seq := be16_at payload 6 in
    if negb (icmp_type =? ICMP_ECHO_REQUEST) then None
    else
      let echo_data := drop 8 payload in
      let data_len := length echo_data in
      if (1024 <? 14 + 20 + 8 + data_len)%nat then None
      else
        Some (reply_body ident seq echo_data
          (reply_headers (src_ip ip_hdr) our_mac dmac our_ip data_len (replicate 1024 0))).

End Icmp.

(** ** udp::parse, udp::checksum and the datagram of udp::send *)

Record UdpHeader := { src_port : Z; dst_port : Z; udp_length : Z; udp_csum : Z }.

Module Udp.

Definition checksum (src dst segment : bytes) : Z :=
  let add a b := (a + b) mod 2 ^ 32 in
  let sum := add (be16_at src 0) (be16_at src 2) in
  let sum := add sum (be16_at dst 0) in
  let sum := add sum (be16_at dst 2) in
  let sum := add sum 0x0011 in
  let sum := add sum (Z.of_nat (length segment) mod 65536) in
  u16_not (fold_carry FOLD_FUEL (sum_words sum segment) mod 65536).

Definition parse (packet : bytes) : option (UdpHeader * bytes) :=
  if (length packet <? 8)%nat then None
  else
    let len := be16_at packet 4 in
    if (Z.to_nat len <? 8)%nat || (length packet <? Z.to_nat len)%nat then None
    else
      let datagram := take (Z.to_nat len) packet in
      Some ({| src_port := be16_at packet 0; dst_port := be16_at packet 2;
               udp_length := len; udp_csum := be16_at packet 6 |}, drop 8 datagram).

(** The datagram of [send] (and of the echo service): no checksum is filled in. *)
Definition datagram (sport dport : Z) (payload : bytes) : option bytes :=
  let total_len := (8 + length payload)%nat in
  if (1500 <? total_len)%nat then None
  else
    let b := replicate 1500 0 in
    let b := splice 0 (be16_bytes sport) b in
    let b := splice 2 (be16_bytes dport) b in
    let b := splice 4 (be16_bytes (Z.of_nat total_len)) b in
    let b := splice 8 payload b in
    Some (take total_len b).

End Udp.

Module WireProofs.

(** ** The one's complement sum *)

(** The sum of the 16-bit words of a byte string, without a width. *)
Fixpoint wsum (data : bytes) : Z :=
  match data with
  | a :: b :: r => be16 a b + wsum r
  | [a] => a * 256
  | [] => 0
  end.

(** The one's complement sum in 16 bits: the representative of [s] modulo 65535
    that is 0 for 0 alone. *)
Definition ones_sum (s : Z) : Z := if s =? 0 then 0 else (s - 1) mod 65535 + 1.

(** Induction over a byte string two bytes at a time. *)
Lemma pair_ind (P : bytes -> Prop) :
  P [] -> (forall a, P [a]) -> (forall a b r, P r -> P (a :: b :: r)) -> forall l, P l.
Proof.
  intros H0 H1 H2. assert (H : forall l, P l /\ forall a, P (a :: l)); [|apply H].
  induction l as [|a l [IH1 IH2]]; split; auto.
Qed.

Lemma wsum_range data :
  bytes_ok data -> 0 <= wsum data <= 65535 * Z.of_nat (length data).
Proof.
  induction data as [|a|a b r IH] using pair_ind; intros H; simpl.
  - lia.
  - apply Forall_inv in H. unfold is_u8 in H. lia.
  - apply Forall_cons in H as [Ha [Hb H]%Forall_cons]. specialize (IH H).
    pose proof (be16_range a b Ha Hb). unfold is_u16 in *. lia.
Qed.

Lemma wsum_app x y : Nat.Even (length x) -> wsum (x ++ y) = wsum x + wsum y.
Proof.
  induction x as [|a|a b r IH] using pair_ind; intros [k Hk]; simpl in *.
  - lia.
  - lia.
  - rewrite IH; [lia|]. exists (k - 1)%nat. lia.
Qed.

Lemma sum_words_spec sum data :
  bytes_ok data -> 0 <= sum -> sum + 65535 * Z.of_nat (length data) < 2 ^ 32 ->
  sum_words sum data = sum + wsum data.
Proof.
  revert sum. induction data as [|a|a b r IH] using pair_ind; intros sum H Hs Hb; simpl in *.
  - lia.
  - apply Forall_inv in H. unfold is_u8 in H. rewrite Z.shiftl_mul_pow2 by lia.
    rewrite Z.mod_small; lia.
  - apply Forall_cons in H as [Ha [Hb' H]%Forall_cons].
    pose proof (be16_range a b Ha Hb') as Hr. unfold is_u16 in Hr.
    rewrite Z.mod_small by lia. rewrite IH; [lia|done|lia|lia].
Qed.

Lemma fold_carry_spec fuel s :
  0 <= s < 2 ^ 32 -> (3 <= fuel)%nat -> fold_carry fuel s = ones_sum s.
Proof.
  intros Hs Hf. destruct fuel as [|[|[|fuel]]]; try lia.
  assert (Hstep : forall z, 0 <= z -> Z.land z 0xFFFF + Z.shiftr z 16 = z mod 65536 + z / 65536).
  { intros z Hz. change 0xFFFF with (Z.ones 16). rewrite Z.land_ones by lia.
    by rewrite Z.shiftr_div_pow2 by lia. }
  assert (Hdone : forall f z, 0 <= z < 65536 -> fold_carry f z = z).
  { intros [|f] z Hz; simpl; [done|]. rewrite Z.shiftr_div_pow2, Z.div_small by lia. done. }
  assert (Hsmall : forall z, 0 <= z < 65536 -> ones_sum z = z).
  { intros z Hz. unfold ones_sum. destruct (Z.eqb_spec z 0); [lia|]. rewrite Z.mod_small; lia. }
  assert (Hones : forall z, 65536 <= z -> ones_sum z = ones_sum (z mod 65536 + z / 65536)).
  { intros z Hz. unfold ones_sum. destruct (Z.eqb_spec z 0); [lia|].
    destruct (Z.eqb_spec (z mod 65536 + z / 65536) 0); [Z.div_mod_to_equations; lia|].
    f_equal. replace (z - 1) with (z mod 65536 + z / 65536 - 1 + z / 65536 * 65535)
      by (Z.div_mod_to_equations; lia).
    by rewrite Z.mod_add. }
  assert (Hsh : forall z, 0 <= z -> (Z.shiftr z 16 =? 0) = (z <? 65536)).
  { intros z Hz. rewrite Z.shiftr_div_pow2 by lia. change (2 ^ 16) with 65536.
    destruct (Z.eqb_spec (z / 65536) 0), (Z.ltb_spec z 65536); try done; Z.div_mod_to_equations; lia. }
  cbn [fold_carry]. rewrite Hsh by lia. destruct (Z.ltb_spec s 65536); [by rewrite Hsmall by lia|].
  rewrite Hstep by lia. set (s1 := s mod 65536 + s / 65536).
  assert (0 <= s1 < 131071) by (unfold s1; change (2 ^ 32) with 4294967296 in Hs; Z.div_mod_to_equations; lia).
  rewrite (Hones s) by lia. fold s1. rewrite Hsh by lia.
  destruct (Z.ltb_spec s1 65536); [by rewrite Hsmall by lia|].
  rewrite Hstep by lia. rewrite (Hones s1) by lia.
  assert (0 <= s1 mod 65536 + s1 / 65536 < 65536) by (Z.div_mod_to_equations; lia).
  rewrite Hsmall by lia. rewrite Hsh by lia.
  by destruct (Z.ltb_spec (s1 mod 65536 + s1 / 65536) 65536); [|lia].
Qed.

Lemma ones_sum_range s : 0 <= s -> 0 <= ones_sum s <= 65535.
Proof. intros. unfold ones_sum. case_if; [lia|]. pose proof (Z.mod_pos_bound (s - 1) 65535). lia. Qed.

(** The length below which a [u32] accumulator cannot overflow. *)
Definition fits_u32 (data : bytes) : Prop := Z.of_nat (length data) < 65536.

Lemma internet_checksum_spec data :
  bytes_ok data -> fits_u32 data -> internet_checksum data = 65535 - ones_sum (wsum data).
Proof.
  unfold fits_u32. intros Hok Hl. unfold internet_checksum, u16_not.
  pose proof (wsum_range data Hok).
  assert (65535 * Z.of_nat (length data) < 2 ^ 32) by (change (2 ^ 32) with 4294967296; lia).
  rewrite sum_words_spec by (done || lia).
  rewrite Z.add_0_l, fold_carry_spec by (unfold FOLD_FUEL; lia).
  rewrite Z.mod_small; [done|]. pose proof (ones_sum_range (wsum data)). lia.
Qed.

Lemma internet_checksum_range data :
  bytes_ok data -> fits_u32 data -> is_u16 (internet_checksum data).
Proof.
  intros Hok Hl. rewrite internet_checksum_spec by done. pose proof (wsum_range data Hok).
  pose proof (ones_sum_range (wsum data)). unfold is_u16. lia.
Qed.

(** Completing a sum with the complement of its one's complement sum. *)
Lemma ones_sum_complement s : 0 <= s -> ones_sum (s + (65535 - ones_sum s)) = 65535.
Proof.
  intros Hs. unfold ones_sum. destruct (Z.eqb_spec s 0) as [->|Hn]; [done|].
  destruct (Z.eqb_spec (s + (65535 - ((s - 1) mod 65535 + 1))) 0); Z.div_mod_to_equations; lia.
Qed.

(** The two byte stores that put a checksum into a header. *)
Lemma csum_bytes c : is_u16 c -> [Z.shiftr c 8; Z.land c 0xFF] = be16_bytes c.
Proof.
  intros Hc. unfold be16_bytes, is_u16 in *. rewrite Z.shiftr_div_pow2 by lia.
  change 0xFF with (Z.ones 8). rewrite Z.land_ones by lia. change (2 ^ 8) with 256.
  f_equal. rewrite Z.mod_small; [done|]. Z.div_mod_to_equations. lia.
Qed.

Lemma checksum_inserted x y :
  bytes_ok (x ++ y) -> Nat.Even (length x) -> Z.of_nat (length x + length y) + 2 < 65536 ->
  internet_checksum (x ++ be16_bytes (internet_checksum (x ++ [0; 0] ++ y)) ++ y) = 0.
Proof.
  intros Hok Hev Hl. apply Forall_app in Hok as [Hx Hy].
  assert (H0 : bytes_ok (x ++ [0; 0] ++ y)) by (apply Forall_app; split; [done|by repeat constructor]).
  assert (Hl0 : fits_u32 (x ++ [0; 0] ++ y)) by (unfold fits_u32; rewrite !length_app; simpl; lia).
  set (c := internet_checksum (x ++ [0; 0] ++ y)).
  assert (Hc : is_u16 c) by by apply internet_checksum_range.
  rewrite internet_checksum_spec.
  - rewrite wsum_app by done. simpl. rewrite be16_of_bytes by done.
    unfold c. rewrite internet_checksum_spec by done. rewrite wsum_app by done. simpl.
    change (be16 0 0 + wsum y) with (0 + wsum y). rewrite Z.add_0_l.
    pose proof (wsum_range x Hx). pose proof (wsum_range y Hy).
    replace (wsum x + (65535 - ones_sum (wsum x + wsum y) + wsum y))
      with (wsum x + wsum y + (65535 - ones_sum (wsum x + wsum y))) by lia.
    rewrite ones_sum_complement by lia. done.
  - repeat (apply Forall_app; split); try done. apply be16_bytes_ok.
  - unfold fits_u32. rewrite !length_app. simpl. lia.
Qed.

(** ** The IPv4 header *)

(** The 20 bytes of an option-less header. *)
Definition ip_header (tl0 tl1 ff0 ff1 proto c0 c1 : Z) (src dst : bytes) : bytes :=
  [0x45; 0; tl0; tl1; 0; 0; ff0; ff1; 64; proto; c0; c1] ++ src ++ dst.

Lemma length_ip_header tl0 tl1 ff0 ff1 proto c0 c1 src dst :
  length src = 4%nat -> length dst = 4%nat ->
  length (ip_header tl0 tl1 ff0 ff1 proto c0 c1 src dst) = 20%nat.
Proof. intros H1 H2. unfold ip_header. rewrite !length_app, H1, H2. done. Qed.

(** The stores of [send_raw] before the checksum, on any 1500-byte buffer. *)
Lemma raw_layout tl0 tl1 proto src dst payload r :
  length src = 4%nat -> length dst = 4%nat ->
  splice 20 payload (splice 16 dst (splice 12 src (splice 9 [proto] (splice 8 [64]
    (splice 6 [0x40; 0] (splice 2 [tl0; tl1] (splice 1 [0] (splice 0 [0x45]
      (replicate 20 0 ++ r))))))))) =
  ip_header tl0 tl1 0x40 0 proto 0 0 src dst ++ payload ++ drop (length payload) r.
Proof.
  intros (a & b & c & d & ->)%length_4_inv (e & f & g & h & ->)%length_4_inv. reflexivity.
Qed.

Lemma splice_csum tl0 tl1 ff0 ff1 proto c0 c1 src dst rest :
  length src = 4%nat -> length dst = 4%nat ->
  splice 11 [c1] (splice 10 [c0] (ip_header tl0 tl1 ff0 ff1 proto 0 0 src dst ++ rest)) =
  ip_header tl0 tl1 ff0 ff1 proto c0 c1 src dst ++ rest.
Proof.
  intros (a & b & c & d & ->)%length_4_inv (e & f & g & h & ->)%length_4_inv. reflexivity.
Qed.

Lemma raw_packet_eq src dst proto payload :
  length src = 4%nat -> length dst = 4%nat -> (length payload <= 1480)%nat ->
  let tl := Z.of_nat (20 + length payload) in
  let h c0 c1 := ip_header (tl / 256 mod 256) (tl mod 256) 0x40 0 proto c0 c1 src dst in
  let csum := internet_checksum (h 0 0) in
  Ipv4.raw_packet src dst proto payload =
  Some (h (Z.shiftr csum 8) (Z.land csum 0xFF) ++ payload).
Proof.
  intros Hs Hd Hl tl h csum. subst csum h. cbv beta. unfold Ipv4.raw_packet.
  destruct (Nat.ltb_spec 1500 (20 + length payload)); [lia|].
  rewrite (replicate_split 20 1500 0) by lia.
  generalize (replicate (1500 - 20) 0). intros r.
  unfold be16_bytes. fold tl. change (0x4000 / 256 mod 256) with 0x40. change (0x4000 mod 256) with 0.
  rewrite raw_layout by done.
  rewrite take_app_length' by (by rewrite length_ip_header).
  rewrite splice_csum by done. rewrite app_assoc, take_app_length'; [done|].
  rewrite length_app, length_ip_header by done. lia.
Qed.

(** What the parser's scratch buffer holds: the header with the checksum zeroed. *)
Lemma csum_input_eq tl0 tl1 ff0 ff1 proto c0 c1 src dst rest :
  length src = 4%nat -> length dst = 4%nat ->
  Ipv4.csum_input 20 (ip_header tl0 tl1 ff0 ff1 proto c0 c1 src dst ++ rest) =
  ip_header tl0 tl1 ff0 ff1 proto 0 0 src dst.
Proof.
  intros (a & b & c & d & ->)%length_4_inv (e & f & g & h & ->)%length_4_inv. reflexivity.
Qed.

Lemma ip_header_ok tl0 tl1 ff0 ff1 proto c0 c1 src dst :
  bytes_ok [tl0; tl1; ff0; ff1; proto; c0; c1] -> bytes_ok src -> bytes_ok dst ->
  bytes_ok (ip_header tl0 tl1 ff0 ff1 proto c0 c1 src dst).
Proof.
  unfold bytes_ok. rewrite !Forall_cons. intros (?&?&?&?&?&?&?&_) Hs Hd.
  apply Forall_app. split; [|by apply Forall_app].
  u8_list.
Qed.

(** Any header a builder of this stack emits is accepted, and the parser returns
    its fields and exactly the payload its total length names. *)
Lemma parse_ip_header ff0 ff1 proto c src dst payload pad :
  length src = 4%nat -> length dst = 4%nat -> is_u16 c ->
  Z.of_nat (20 + length payload) < 65536 ->
  let tl := Z.of_nat (20 + length payload) in
  let h c0 c1 := ip_header (tl / 256 mod 256) (tl mod 256) ff0 ff1 proto c0 c1 src dst in
  c = internet_checksum (h 0 0) ->
  Ipv4.parse (h (Z.shiftr c 8) (Z.land c 0xFF) ++ payload ++ pad) =
  Some ({| version_ihl := 0x45; dscp_ecn := 0; total_length := tl; identification := 0;
           flags_fragment := be16 ff0 ff1; ttl := 64; protocol := proto; ip_csum := c;
           src_ip := src; dst_ip := dst |}, payload).
Proof.
  intros Hs Hd Hc Hl tl h Hcs. set (h' := h (Z.shiftr c 8) (Z.land c 0xFF)).
  assert (Hlen : length h' = 20%nat) by by apply length_ip_header.
  assert (Htl : is_u16 tl) by (unfold is_u16, tl; lia).
  unfold Ipv4.parse. rewrite !length_app, Hlen.
  destruct (Nat.ltb_spec (20 + (length payload + length pad)) 20); [lia|].
  assert (Hci : Ipv4.csum_input 20 (h' ++ payload ++ pad) = h 0 0) by by apply csum_input_eq.
  assert (Hcb : be16 (Z.shiftr c 8) (Z.land c 0xFF) = c).
  { pose proof (csum_bytes c Hc) as E. injection E as -> ->. by apply be16_of_bytes. }
  assert (Hb : byte_at (h' ++ payload ++ pad) 0 = 0x45 /\ be16_at (h' ++ payload ++ pad) 2 = tl /\
    be16_at (h' ++ payload ++ pad) 10 = c) by (split_and!; [done|by apply be16_of_bytes|exact Hcb]).
  destruct Hb as (-> & -> & ->). change (Z.shiftr 0x45 4 =? 4) with true.
  change (Z.to_nat (Z.land 0x45 0x0F * 4)) with 20%nat. cbn [negb orb]. rewrite Hci, <- Hcs, Z.eqb_refl.
  change (20 <? 20)%nat with false. cbn [negb orb]. rewrite andb_false_r.
  unfold tl at 1 2 3. rewrite Nat2Z.id.
  destruct (Nat.ltb_spec (20 + (length payload + length pad)) 20); [lia|].
  destruct (Nat.ltb_spec (20 + length payload) 20); [lia|].
  destruct (Nat.ltb_spec (20 + (length payload + length pad)) (20 + length payload)); [lia|]. cbn [orb].
  rewrite (slice_app_exact 20 h' payload pad) by (rewrite ?Hlen; unfold tl; lia).
  subst h' h. cbv beta. clear - Hs Hd.
  apply length_4_inv in Hs as (x0 & x1 & x2 & x3 & ->), Hd as (y0 & y1 & y2 & y3 & ->). reflexivity.
Qed.

(** ** The echo reply *)

Lemma splice_app_r (p l x : bytes) k n :
  n = (length p + k)%nat -> splice n x (p ++ l) = p ++ splice k x l.
Proof.
  intros ->. unfold splice. rewrite take_app, drop_app.
  rewrite (take_ge p) by lia. rewrite (drop_ge p) by lia. rewrite app_nil_l, <- app_assoc.
  do 3 f_equal; f_equal; lia.
Qed.

Lemma slice_app_r (p l : bytes) a b n m :
  n = (length p + a)%nat -> m = (length p + b)%nat -> slice n m (p ++ l) = slice a b l.
Proof.
  intros -> ->. unfold slice. rewrite drop_app, (drop_ge p) by lia. rewrite app_nil_l. f_equal; [|f_equal]; lia.
Qed.

Definition eth_header (dm sm : bytes) (t : Z) : bytes := dm ++ sm ++ be16_bytes t.

Lemma reply_headers_eq requester our_mac dmac our_ip n r :
  length requester = 4%nat -> length our_ip = 4%nat -> length our_mac = 6%nat -> length dmac = 6%nat ->
  let tl := Z.of_nat (20 + 8 + n) in
  let h c0 c1 := ip_header (tl / 256 mod 256) (tl mod 256) 0 0 PROTO_ICMP c0 c1 our_ip requester in
  let c := Icmp.checksum (h 0 0) in
  Icmp.reply_headers requester our_mac dmac our_ip n (replicate 34 0 ++ r) =
  eth_header dmac our_mac ETH_IPV4 ++ h (Z.shiftr c 8) (Z.land c 0xFF) ++ r.
Proof.
  intros (a & b & c & d & ->)%length_4_inv (e & f & g & i & ->)%length_4_inv
    (m0 & m1 & m2 & m3 & m4 & m5 & ->)%length_6_inv (n0 & n1 & n2 & n3 & n4 & n5 & ->)%length_6_inv.
  unfold Icmp.reply_headers. generalize (Z.of_nat (20 + 8 + n)). intros tl. reflexivity.
Qed.

Lemma reply_body_eq ident seq data p r :
  length p = 34%nat ->
  let b c0 c1 := [0; 0; c0; c1] ++ be16_bytes ident ++ be16_bytes seq ++ data in
  let c := Icmp.checksum (b 0 0) in
  Icmp.reply_body ident seq data (p ++ replicate 8 0 ++ r) =
  p ++ b (Z.shiftr c 8) (Z.land c 0xFF) ++ drop (length data) r.
Proof.
  intros Hp b c. unfold Icmp.reply_body.
  rewrite !(splice_app_r p _ [_] 0 34), !(splice_app_r p _ _ 1 35), !(splice_app_r p _ [0] 2 36),
    !(splice_app_r p _ [0] 3 37), (splice_app_r p _ _ 4 38), (splice_app_r p _ _ 6 40),
    (splice_app_r p _ _ 8 42) by (rewrite Hp; done).
  rewrite (slice_app_r p _ 0 (8 + length data)) by (rewrite Hp; lia).
  rewrite !(splice_app_r p _ _ 2 36), !(splice_app_r p _ _ 3 37) by (rewrite Hp; done).
  f_equal. unfold be16_bytes. cbn [replicate app splice take drop length Nat.add].
  rewrite !drop_0, take_0, app_nil_l.
  replace (slice 0 _ _) with (b 0 0); [reflexivity|].
  symmetry. apply (slice_prefix _ (b 0 0) (drop (length data) r)). reflexivity.
Qed.

(** ** The parser's checksum test *)

(** A header of at least twelve bytes, as its first twelve and the rest. *)
Lemma twelve_inv (packet : bytes) :
  (12 <= length packet)%nat ->
  exists a b c d e f g h i j k l r, packet = [a; b; c; d; e; f; g; h; i; j; k; l] ++ r.
Proof.
  intros Hl. do 12 (destruct packet as [|? packet]; [simpl in Hl; lia|]). by repeat eexists.
Qed.

Lemma csum_input_split ihl packet :
  (20 <= ihl <= 60)%nat -> (ihl <= length packet)%nat ->
  Ipv4.csum_input ihl packet = take 10 packet ++ [0; 0] ++ slice 12 ihl packet.
Proof.
  intros Hi Hl.
  destruct (twelve_inv packet ltac:(lia)) as (a & b & c & d & e & f & g & h & i & j & k & l & r & ->).
  replace ihl with (12 + (ihl - 12))%nat by lia. set (n := (ihl - 12)%nat) in *.
  assert (Hr : length (take n r) = n) by (rewrite length_take; simpl in Hl; lia).
  unfold Ipv4.csum_input, slice. cbn [Nat.add app take drop]. unfold splice at 3. cbn [take app].
  generalize (drop (0 + length (a :: b :: c :: d :: e :: f :: g :: h :: i :: j :: k :: l :: take n r))
    (replicate 60 0)). intros z.
  rewrite take_0, app_nil_l. simpl. rewrite drop_0, Nat.sub_0_r.
  by rewrite take_app_length'.
Qed.

Lemma csum_split packet ihl :
  (20 <= ihl)%nat -> (ihl <= length packet)%nat -> bytes_ok packet ->
  take ihl packet = take 10 packet ++ be16_bytes (be16_at packet 10) ++ slice 12 ihl packet.
Proof.
  intros Hi Hl Hok.
  destruct (twelve_inv packet ltac:(lia)) as (a & b & c & d & e & f & g & h & i & j & k & l & r & ->).
  replace ihl with (12 + (ihl - 12))%nat by lia. set (n := (ihl - 12)%nat).
  assert (Hkl : is_u8 k /\ is_u8 l) by (apply Forall_app in Hok as [Hok _]; rewrite !Forall_cons in Hok; tauto).
  change (be16_at _ 10) with (be16 k l). unfold be16_bytes, slice.
  destruct (be16_split k l) as [-> ->]; [tauto..|]. simpl. by rewrite drop_0, Nat.sub_0_r.
Qed.

Lemma csum_test_sound ihl packet :
  (20 <= ihl <= 60)%nat -> (ihl <= length packet)%nat -> bytes_ok packet ->
  internet_checksum (Ipv4.csum_input ihl packet) = be16_at packet 10 ->
  internet_checksum (take ihl packet) = 0.
Proof.
  intros Hi Hl Hok E. rewrite csum_input_split in E by done.
  rewrite (csum_split packet ihl) by (done || lia). rewrite <- E.
  assert (Hs : length (slice 12 ihl packet) = (ihl - 12)%nat) by (apply length_slice; lia).
  apply checksum_inserted.
  - apply Forall_app. split; [by apply Forall_take|]. unfold slice. by apply Forall_take, Forall_drop.
  - exists 5%nat. rewrite length_take. lia.
  - rewrite length_take, Hs. lia.
Qed.

(** The packets [handle_echo] answers. *)
Definition echo_request (payload : bytes) : bool :=
  (8 <=? length payload)%nat && (byte_at payload 0 =? Icmp.ICMP_ECHO_REQUEST)
  && (length payload <=? 990)%nat.

(** The IPv4 header of the reply to a request with [n] data bytes. *)
Definition echo_hdr (n : nat) (our_ip requester : bytes) (c0 c1 : Z) : bytes :=
  let tl := Z.of_nat (20 + 8 + n) in
  ip_header (tl / 256 mod 256) (tl mod 256) 0 0 PROTO_ICMP c0 c1 our_ip requester.
Definition echo_ip_csum (n : nat) (our_ip requester : bytes) : Z :=
  internet_checksum (echo_hdr n our_ip requester 0 0).
Definition echo_ip (n : nat) (our_ip requester : bytes) : bytes :=
  let c := echo_ip_csum n our_ip requester in
  echo_hdr n our_ip requester (Z.shiftr c 8) (Z.land c 0xFF).

Lemma parse_eth_header dm sm t rest :
  length dm = 6%nat -> length sm = 6%nat -> is_u16 t ->
  Ethernet.parse (eth_header dm sm t ++ rest) =
  Some ({| dst_mac := dm; src_mac := sm; ether_type := t |}, rest).
Proof.
  intros (m0 & m1 & m2 & m3 & m4 & m5 & ->)%length_6_inv
    (n0 & n1 & n2 & n3 & n4 & n5 & ->)%length_6_inv Ht.
  unfold Ethernet.parse, slice. simpl. do 3 f_equal. by apply be16_of_bytes.
Qed.

(** [handle_echo] on every input, the reply as its parts. *)
Lemma handle_echo_eq hdr payload our_mac dmac our_ip :
  length our_mac = 6%nat -> length dmac = 6%nat -> length our_ip = 4%nat -> length (src_ip hdr) = 4%nat ->
  let data := drop 8 payload in
  let rest := be16_bytes (be16_at payload 4) ++ be16_bytes (be16_at payload 6) ++ data in
  let ci := Icmp.checksum ([0; 0; 0; 0] ++ rest) in
  Icmp.handle_echo hdr payload our_mac dmac our_ip =
  if echo_request payload then
    Some (eth_header dmac our_mac ETH_IPV4 ++ echo_ip (length data) our_ip (src_ip hdr) ++
          ([0; 0; Z.shiftr ci 8; Z.land ci 0xFF] ++ rest) ++
          drop (length data) (replicate 982 0))
  else None.
Proof.
  intros Hm1 Hm2 Hl1 Hl2 data rest ci. unfold Icmp.handle_echo, echo_request.
  destruct (Nat.ltb_spec (length payload) 8), (Nat.leb_spec 8 (length payload)); try lia; [done|].
  destruct (byte_at payload 0 =? Icmp.ICMP_ECHO_REQUEST); cbn [andb negb]; [|done].
  assert (Hlen : (1024 <? 14 + 20 + 8 + length (drop 8 payload))%nat = negb (length payload <=? 990)%nat).
  { rewrite length_drop. destruct (Nat.leb_spec (length payload) 990);
      [apply Nat.ltb_ge|apply Nat.ltb_lt]; lia. }
  rewrite Hlen. destruct (Nat.leb_spec (length payload) 990) as [Hle|]; cbn [negb]; [|done].
  rewrite (replicate_split 34 1024 0) by lia. rewrite reply_headers_eq by done.
  rewrite (replicate_split 8 (1024 - 34) 0) by lia. change (1024 - 34 - 8)%nat with 982%nat.
  rewrite app_assoc, reply_body_eq.
  - by rewrite <- app_assoc.
  - rewrite length_app, length_ip_header by done. unfold eth_header. by rewrite !length_app, Hm1, Hm2.
Qed.

(** The fields an echo reply copies are the request from its fifth byte on. *)
Lemma echo_fields payload :
  bytes_ok payload -> (8 <= length payload)%nat ->
  be16_bytes (be16_at payload 4) ++ be16_bytes (be16_at payload 6) ++ drop 8 payload = drop 4 payload.
Proof.
  intros Hpo Hl. do 8 (destruct payload as [|? payload]; [simpl in *; lia|]).
  unfold bytes_ok in Hpo. rewrite !Forall_cons in Hpo. destruct Hpo as (_&_&_&_&?&?&?&?&_).
  unfold be16_bytes. change (be16_at _ 4) with (be16 z3 z4). change (be16_at _ 6) with (be16 z5 z6).
  destruct (be16_split z3 z4) as [-> ->]; [done..|].
  destruct (be16_split z5 z6) as [-> ->]; [done..|]. reflexivity.
Qed.

Lemma datagram_eq sport dport payload :
  (length payload <= 1492)%nat ->
  let tl := Z.of_nat (8 + length payload) in
  Udp.datagram sport dport payload =
  Some (be16_bytes sport ++ be16_bytes dport ++ be16_bytes tl ++ [0; 0] ++ payload).
Proof.
  intros Hl tl. unfold Udp.datagram. destruct (Nat.ltb_spec 1500 (8 + length payload)); [lia|].
  rewrite (replicate_split 8 1500 0) by lia. generalize (replicate (1500 - 8) 0). intros r.
  fold tl. unfold be16_bytes, splice. simpl. rewrite take_app_length. reflexivity.
Qed.

(** What is built is parsed back, whatever follows it. *)
Lemma raw_packet_parses src dst proto payload :
  length src = 4%nat -> length dst = 4%nat -> bytes_ok src -> bytes_ok dst -> is_u8 proto ->
  (length payload <= 1480)%nat ->
  exists pkt h, Ipv4.raw_packet src dst proto payload = Some pkt /\
    (forall pad, Ipv4.parse (pkt ++ pad) = Some (h, payload)) /\
    src_ip h = src /\ dst_ip h = dst /\ protocol h = proto /\
    total_length h = Z.of_nat (length pkt) /\ length pkt = (20 + length payload)%nat /\
    slice 16 20 pkt = dst.
Proof.
  intros Hs Hd Hso Hdo Hp Hl. rewrite raw_packet_eq by done. set (tl := Z.of_nat (20 + length payload)).
  set (c := internet_checksum _).
  assert (Hc : is_u16 c).
  { apply internet_checksum_range.
    - apply ip_header_ok; try done. u8_list.
    - unfold fits_u32. rewrite length_ip_header by done. lia. }
  eexists _, _. split; [done|].
  split; [intros pad; rewrite <- app_assoc;
          apply (parse_ip_header 0x40 0 proto c src dst payload pad); (done || lia)|].
  cbn [src_ip dst_ip protocol total_length]. rewrite length_app, length_ip_header by done.
  split_and!; try done. clear -Hs Hd. revert Hs Hd.
  intros (a1 & a2 & a3 & a4 & ->)%length_4_inv (b1 & b2 & b3 & b4 & ->)%length_4_inv. reflexivity.
Qed.

Lemma datagram_parses sport dport payload :
  is_u16 sport -> is_u16 dport -> (length payload <= 1492)%nat ->
  exists d h, Udp.datagram sport dport payload = Some d /\
    (forall pad, Udp.parse (d ++ pad) = Some (h, payload)) /\
    src_port h = sport /\ dst_port h = dport /\ udp_csum h = 0 /\ length d = (8 + length payload)%nat.
Proof.
  intros Hs Hd Hl. rewrite datagram_eq by done. set (tl := Z.of_nat (8 + length payload)).
  assert (Htl : is_u16 tl) by (unfold is_u16, tl; lia).
  eexists _, {| src_port := sport; dst_port := dport; udp_length := tl; udp_csum := 0 |}.
  split; [done|]. split; [|split_and!; try done; rewrite !length_app; simpl; lia].
  intros pad. unfold Udp.parse. rewrite <- !app_assoc. set (p := be16_bytes sport ++ _).
  assert (Hp : length p = (8 + length payload + length pad)%nat)
    by (unfold p; rewrite !length_app; simpl; lia).
  assert (E4 : be16_at p 4 = tl) by by apply be16_of_bytes.
  rewrite Hp, E4. unfold tl at 1 2. rewrite Nat2Z.id.
  destruct (Nat.ltb_spec (8 + length payload + length pad) 8); [lia|].
  destruct (Nat.ltb_spec (8 + length payload) 8); [lia|].
  destruct (Nat.ltb_spec (8 + length payload + length pad) (8 + length payload)); [lia|]. cbn [orb].
  replace (be16_at p 0) with sport by (symmetry; by apply be16_of_bytes).
  replace (be16_at p 2) with dport by (symmetry; by apply be16_of_bytes).
  change (be16_at p 6) with 0. do 2 f_equal. unfold tl, p. rewrite Nat2Z.id. simpl.
  by rewrite drop_0, take_app_length.
Qed.

(** ** Properties *)

(** The carry-folding loop of the checksum terminates on every buffer the
    stack checksums, computes the one's complement sum of the 16-bit words (an odd
    last byte counts as the high half of a word), is the same function in ipv4.rs
    and icmp.rs, and storing its result in a zeroed field at an even offset makes
    the whole buffer sum to zero. *)
Theorem internet_checksum_verifies x y :
  bytes_ok (x ++ y) -> Nat.Even (length x) -> Z.of_nat (length x + length y) + 2 < 65536 ->
  let data := x ++ [0; 0] ++ y in
  internet_checksum data = 65535 - ones_sum (wsum data) /\
  Icmp.checksum data = internet_checksum data /\
  internet_checksum (x ++ be16_bytes (internet_checksum data) ++ y) = 0.
Proof.
  intros Hok Hev Hl data. split_and!; [|done|by apply checksum_inserted].
  apply Forall_app in Hok as [Hx Hy]. apply internet_checksum_spec.
  - apply Forall_app. split; [done|]. by repeat constructor.
  - unfold fits_u32, data. rewrite !length_app. simpl. lia.
Qed.

(** What [send_raw] emits is what [parse] accepts: for any payload that fits
    the MTU, also followed by link-layer padding, parsing the emitted packet gives
    back the addresses, the protocol and exactly the payload; a larger payload is
    refused. *)
Theorem ipv4_send_parse_roundtrip src dst proto payload pad :
  length src = 4%nat -> length dst = 4%nat ->
  bytes_ok src -> bytes_ok dst -> is_u8 proto ->
  ((length payload <= 1480)%nat ->
    exists pkt h, Ipv4.raw_packet src dst proto payload = Some pkt /\
      Ipv4.parse (pkt ++ pad) = Some (h, payload) /\
      src_ip h = src /\ dst_ip h = dst /\ protocol h = proto /\
      total_length h = Z.of_nat (length pkt)) /\
  ((1480 < length payload)%nat -> Ipv4.raw_packet src dst proto payload = None).
Proof.
  intros Hs Hd Hso Hdo Hp. split; intros Hl.
  - destruct (raw_packet_parses src dst proto payload) as (pkt & h & E & Hparse & H); try done.
    exists pkt, h. split_and!; try done; apply H.
  - unfold Ipv4.raw_packet. by destruct (Nat.ltb_spec 1500 (20 + length payload)); [|lia].
Qed.

(** [parse] never looks past its input and never trusts an unverified header:
    an accepted packet is version 4, its header and total length lie inside the
    slice, the payload is the bytes between them, and the header either carries no
    checksum or verifies under the one's complement sum. *)
Theorem ipv4_parse_sound packet h payload :
  bytes_ok packet -> Ipv4.parse packet = Some (h, payload) ->
  let ihl := Z.to_nat (Z.land (version_ihl h) 0x0F * 4) in
  Z.shiftr (version_ihl h) 4 = 4 /\
  (20 <= ihl <= Z.to_nat (total_length h))%nat /\ (Z.to_nat (total_length h) <= length packet)%nat /\
  payload = slice ihl (Z.to_nat (total_length h)) packet /\
  length payload = (Z.to_nat (total_length h) - ihl)%nat /\
  (ip_csum h = 0 \/ internet_checksum (take ihl packet) = 0).
Proof.
  intros Hok. unfold Ipv4.parse.
  destruct (Nat.ltb_spec (length packet) 20); [done|].
  destruct (Z.eqb_spec (Z.shiftr (byte_at packet 0) 4) 4) as [Hv|]; [cbn [negb]|done].
  set (ihl := Z.to_nat (Z.land (byte_at packet 0) 0x0F * 4)).
  destruct ((ihl <? 20)%nat || (length packet <? ihl)%nat) eqn:E1; [done|]. bsplit.
  set (tl := Z.to_nat (be16_at packet 2)).
  destruct ((tl <? ihl)%nat || (length packet <? tl)%nat) eqn:E2; [done|]. bsplit.
  destruct (negb (be16_at packet 10 =? 0) && _) eqn:E3; [done|]. intros E. injection E as <- <-.
  cbn [version_ihl total_length ip_csum]. rewrite Nat2Z.id.
  assert (Hih : (ihl <= 60)%nat).
  { unfold ihl. change 0x0F with (Z.ones 4). rewrite Z.land_ones by lia.
    pose proof (Z.mod_pos_bound (byte_at packet 0) (2 ^ 4)). lia. }
  split_and!; try done; try lia; [apply length_slice; lia|]. fold ihl.
  apply andb_false_iff in E3 as [E3|E3]; bsplit; [by left|]. right. by apply csum_test_sound.
Qed.

(** A ping is answered with its own data: on an echo request that fits the
    frame, the reply is an Ethernet frame from us to the requester whose IPv4
    header parses, goes from our address to the sender's, and whose body is an echo
    reply with the identifier, sequence number and data of the request and a
    checksum that verifies; every other packet gets no reply. *)
Theorem icmp_echo_reply_correct hdr payload our_mac dmac our_ip :
  bytes_ok payload -> bytes_ok our_ip -> bytes_ok (src_ip hdr) ->
  length our_mac = 6%nat -> length dmac = 6%nat -> length our_ip = 4%nat -> length (src_ip hdr) = 4%nat ->
  if echo_request payload
  then exists frame ip h body,
    Icmp.handle_echo hdr payload our_mac dmac our_ip = Some frame /\
    Ethernet.parse frame = Some ({| dst_mac := dmac; src_mac := our_mac; ether_type := ETH_IPV4 |}, ip) /\
    Ipv4.parse ip = Some (h, body) /\
    src_ip h = our_ip /\ dst_ip h = src_ip hdr /\ protocol h = PROTO_ICMP /\
    take 2 body = [Icmp.ICMP_ECHO_REPLY; 0] /\ drop 4 body = drop 4 payload /\
    internet_checksum body = 0
  else Icmp.handle_echo hdr payload our_mac dmac our_ip = None.
Proof.
  intros Hpo Hoo Hso Hm1 Hm2 Hl1 Hl2. rewrite handle_echo_eq by done. unfold echo_request.
  destruct (_ && _ && _) eqn:E; [|done]. bsplit.
  set (data := drop 8 payload). assert (Hd : length data = (length payload - 8)%nat) by apply length_drop.
  set (rest := be16_bytes (be16_at payload 4) ++ be16_bytes (be16_at payload 6) ++ data).
  assert (Hrest : rest = drop 4 payload) by by apply echo_fields.
  set (c := echo_ip_csum (length data) our_ip (src_ip hdr)). set (ci := Icmp.checksum _).
  set (body := [0; 0; Z.shiftr ci 8; Z.land ci 0xFF] ++ rest).
  assert (Hro : bytes_ok rest) by (rewrite Hrest; by apply Forall_drop).
  assert (Hrl : length rest = (length payload - 4)%nat) by (rewrite Hrest; apply length_drop).
  assert (Hci : is_u16 ci).
  { apply internet_checksum_range; [apply Forall_app; split; [u8_list|done]|].
    unfold fits_u32. rewrite length_app, Hrl. simpl. lia. }
  assert (Hc : is_u16 c).
  { apply internet_checksum_range; [apply ip_header_ok; try done; unfold PROTO_ICMP; u8_list|].
    unfold fits_u32, echo_hdr. rewrite length_ip_header by done. lia. }
  assert (Hbl : (20 + 8 + length data)%nat = (20 + length body)%nat)
    by (unfold body; rewrite length_app, Hrl; simpl; lia).
  eexists _, _, _, body. split; [done|]. split; [by apply parse_eth_header|]. split.
  { unfold echo_ip, echo_hdr. fold c. rewrite Hbl.
    apply (parse_ip_header 0 0 PROTO_ICMP c our_ip (src_ip hdr) body); try done. rewrite <- Hbl. lia. }
  cbn [src_ip dst_ip protocol]. split_and!; try done.
  unfold body. pose proof (csum_bytes ci Hci) as Ecb.
  change ([0; 0; Z.shiftr ci 8; Z.land ci 0xFF] ++ rest)
    with ([0; 0] ++ [Z.shiftr ci 8; Z.land ci 0xFF] ++ rest).
  rewrite Ecb. apply (checksum_inserted [0; 0]); [|by exists 1%nat|simpl; lia].
  apply Forall_app. split; [u8_list|done].
Qed.

(** A datagram of [udp::send] is parsed back by [udp::parse] with its ports and
    exactly its payload, whatever follows it in the slice, and every accepted
    datagram's payload lies inside the slice and has the length its header claims. *)
Theorem udp_send_parse_roundtrip sport dport payload pad :
  is_u16 sport -> is_u16 dport -> (length payload <= 1492)%nat ->
  (exists d h, Udp.datagram sport dport payload = Some d /\
     Udp.parse (d ++ pad) = Some (h, payload) /\
     src_port h = sport /\ dst_port h = dport /\ udp_csum h = 0) /\
  (forall packet h' pl, Udp.parse packet = Some (h', pl) -> bytes_ok packet ->
     (8 + length pl = Z.to_nat (udp_length h'))%nat /\
     pl = slice 8 (8 + length pl) packet /\ (8 + length pl <= length packet)%nat).
Proof.
  intros Hs Hd Hl. split.
  - destruct (datagram_parses sport dport payload) as (d & h & E & Hparse & H); try done.
    exists d, h. split_and!; try done; apply H.
  - intros packet h' pl. unfold Udp.parse. destruct (Nat.ltb_spec (length packet) 8); [done|].
    destruct ((Z.to_nat (be16_at packet 4) <? 8)%nat || _) eqn:E; [done|]. bsplit.
    intros E'. injection E' as <- <-. intros Hok. cbn [udp_length].
    set (n := Z.to_nat (be16_at packet 4)) in *.
    assert (Hlen : length (drop 8 (take n packet)) = (n - 8)%nat) by (rewrite length_drop, length_take; lia).
    rewrite Hlen. split_and!; try lia. unfold slice. rewrite skipn_firstn_comm. f_equal. lia.
Qed.


(** ** Witnesses *)

Lemma internet_checksum_verifies_witness :
  internet_checksum ([0x45; 0; 0; 20] ++ be16_bytes (internet_checksum [0x45; 0; 0; 20; 0; 0; 7]) ++ [7]) = 0.
Proof.
  apply (internet_checksum_verifies [0x45; 0; 0; 20] [7]).
  - cbn [app]. u8_list.
  - by exists 2%nat.
  - simpl. lia.
Defined.

Lemma ipv4_send_parse_roundtrip_witness :
  exists pkt h, Ipv4.raw_packet [10; 0; 2; 15] [10; 0; 2; 2] PROTO_UDP [1; 2; 3] = Some pkt /\
    Ipv4.parse (pkt ++ [0; 0]) = Some (h, [1; 2; 3]).
Proof.
  destruct (ipv4_send_parse_roundtrip [10; 0; 2; 15] [10; 0; 2; 2] PROTO_UDP [1; 2; 3] [0; 0]) as [H _];
    try reflexivity; try u8_list; [unfold is_u8, PROTO_UDP; lia|].
  destruct H as (pkt & h & E1 & E2 & _); [simpl; lia|]. exists pkt, h. exact (conj E1 E2).
Defined.

(** A 21-byte packet with the checksum [send_raw] computes for it. *)
Definition sample_packet : bytes :=
  [0x45; 0; 0; 21; 0; 0; 0x40; 0; 64; 17; 0x22; 0xC8; 10; 0; 2; 15; 10; 0; 2; 2; 9].

Lemma ipv4_parse_sound_witness :
  exists h, Ipv4.parse sample_packet = Some (h, [9]) /\ Z.shiftr (version_ihl h) 4 = 4 /\
    internet_checksum (take 20 sample_packet) = 0.
Proof.
  eexists. split; [vm_compute; reflexivity|].
  pose proof (ipv4_parse_sound sample_packet _ [9] ltac:(unfold sample_packet; u8_list)
    ltac:(vm_compute; reflexivity)) as (H1 & _ & _ & _ & _ & [H|H]).
  - vm_compute in H. discriminate H.
  - exact (conj H1 H).
Defined.

Definition sample_hdr : Ipv4Header :=
  {| version_ihl := 0x45; dscp_ecn := 0; total_length := 29; identification := 0;
     flags_fragment := 0; ttl := 64; protocol := 1; ip_csum := 0;
     src_ip := [10; 0; 2; 2]; dst_ip := [10; 0; 2; 15] |}.

Lemma icmp_echo_reply_correct_witness :
  exists frame, Icmp.handle_echo sample_hdr [8; 0; 0; 0; 1; 2; 0; 1; 42] [2; 0; 0; 0; 0; 1] [2; 0; 0; 0; 0; 9]
    [10; 0; 2; 15] = Some frame.
Proof.
  pose proof (icmp_echo_reply_correct sample_hdr [8; 0; 0; 0; 1; 2; 0; 1; 42] [2; 0; 0; 0; 0; 1]
    [2; 0; 0; 0; 0; 9] [10; 0; 2; 15] ltac:(u8_list) ltac:(u8_list) ltac:(simpl; u8_list)
    eq_refl eq_refl eq_refl eq_refl) as H.
  change (echo_request _) with true in H. destruct H as (frame & _ & _ & _ & E & _). exists frame. exact E.
Defined.

Lemma udp_send_parse_roundtrip_witness :
  exists d h, Udp.datagram 12345 53 [1; 2; 3] = Some d /\ Udp.parse (d ++ [7; 7]) = Some (h, [1; 2; 3]).
Proof.
  destruct (udp_send_parse_roundtrip 12345 53 [1; 2; 3] [7; 7]) as [(d & h & E1 & E2 & _) _];
    [unfold is_u16; lia..|simpl; lia|]. exists d, h. exact (conj E1 E2).
Defined.

End WireProofs.
