(* ===== verification/Dns.v ===== *)
(** The DNS resolver: src/crates/zenus-net/src/dns.rs.

    Name encoding, query assembly, the response parser and the resolver's state.
    The parser's loops walk a buffer the network supplies; they are fixpoints with
    fuel whose outer [None] means that the fuel ran out, and [parse_total] shows
    that it never does. *)

From S2P Require Import Prelude Bytes Wire.

Definition DNS_PORT : Z := 53.
Definition QR_RESPONSE : Z := 0x8000.
Definition RD_FLAG : Z := 0x0100.
Definition RCODE_NXDOMAIN : Z := 0x0003.
Definition QTYPE_A : Z := 1.
Definition QCLASS_IN : Z := 1.
Definition DOT : Z := 46.

Record DnsState := {
  resp_buf : bytes;
  resp_len : nat;
  resp_ready : bool;
  expected_id : Z;
  dns_active_port : Z;
}.

Module Dns.

(** ** Names and queries *)

(** [bytes[i..].iter().position(|&b| b == b'.')], or the rest of the name. *)
Definition label_len (rest : bytes) : nat :=
  match find_index (fun b => b =? DOT) rest with
  | Some n => n
  | None => length rest
  end.

Definition finish_name (pos : nat) (buf : bytes) : option (bytes * nat) :=
  if (length buf <? pos + 1)%nat then None else Some (splice pos [0] buf, (pos + 1)%nat).

(** One turn per label; [rest] is [bytes[i..]]. *)
Fixpoint encode_loop (fuel : nat) (rest : bytes) (pos : nat) (buf : bytes) : option (bytes * nat) :=
  match fuel with
  | O => None
  | S fuel =>
      let n := label_len rest in
      if (n =? 0)%nat then None
      else if (63 <? n)%nat then None
      else if (length buf <? pos + n + 1)%nat || (255 <? pos + n + 1)%nat then None
      else
        let buf := splice pos [Z.of_nat n] buf in
        let buf := splice (pos + 1) (take n rest) buf in
        let pos := (pos + 1 + n)%nat in
        match drop n rest with
        | _ :: c :: r => encode_loop fuel (c :: r) pos buf
        | _ => finish_name pos buf
        end
  end.

Definition encode_name (name buf : bytes) : option (bytes * nat) :=
  match name with
  | [] => match buf with [] => None | _ => Some (splice 0 [0] buf, 1%nat) end
  | _ => encode_loop (S (length name)) name 0 buf
  end.

Definition build_query (id : Z) (name buf : bytes) : option (bytes * nat) :=
  '(tl, name_len) ← encode_name name (drop 12 buf);
  let buf := take 12 buf ++ tl in
  let qlen := (12 + name_len)%nat in
  if (length buf <? qlen + 4)%nat then None
  else
    let buf := splice 0 (be16_bytes id) buf in
    let buf := splice 2 (be16_bytes RD_FLAG) buf in
    let buf := splice 4 (be16_bytes 1) buf in
    let buf := splice 6 (be16_bytes 0) buf in
    let buf := splice 8 (be16_bytes 0) buf in
    let buf := splice 10 (be16_bytes 0) buf in
    let off := (12 + name_len)%nat in
    let buf := splice off (be16_bytes QTYPE_A) buf in
    let buf := splice (off + 2) (be16_bytes QCLASS_IN) buf in
    Some (buf, (off + 4)%nat).

(** ** Responses *)

(** The checked read: [None] if the slice ends first. *)
Definition be16_get (buf : bytes) (off : nat) : option Z :=
  if (off + 2 <=? length buf)%nat then Some (be16_at buf off) else None.

(** The result of a walk: [Some (Some x)] an answer, [Some None] a refusal,
    [None] out of fuel. *)
Definition walk (A : Type) : Type := option (option A).
Definition refuse {A} : walk A := Some None.

(** Skip the name of one question. *)
Fixpoint skip_question_name (fuel : nat) (buf : bytes) (off : nat) : walk nat :=
  match fuel with
  | O => None
  | S fuel =>
      match buf !! off with
      | None => refuse
      | Some b =>
          let off := (off + 1)%nat in
          if b =? 0 then Some (Some off)
          else if Z.land b 0xC0 =? 0xC0 then
            let off := (off + 1)%nat in
            if (length buf <? off)%nat then refuse else Some (Some off)
          else
            let off := (off + Z.to_nat b)%nat in
            if (length buf <? off)%nat then refuse else skip_question_name fuel buf off
      end
  end.

Fixpoint skip_questions (qdcount : nat) (buf : bytes) (off : nat) : walk nat :=
  match qdcount with
  | O => Some (Some off)
  | S qdcount =>
      match skip_question_name (S (length buf)) buf off with
      | Some (Some off) =>
          let off := (off + 4)%nat in
          if (length buf <? off)%nat then refuse else skip_questions qdcount buf off
      | r => r
      end
  end.

(** Walk the name of one answer, following at most one compression pointer. *)
Fixpoint answer_name (fuel : nat) (buf : bytes) (off depth : nat) : walk nat :=
  match fuel with
  | O => None
  | S fuel =>
      if (16 <=? depth)%nat then refuse
      else
        match buf !! off with
        | None => refuse
        | Some b =>
            if b =? 0 then Some (Some (off + 1)%nat)
            else if Z.land b 0xC0 =? 0xC0 then
              if (0 <? depth)%nat then refuse
              else
                match be16_get buf off with
                | None => refuse
                | Some v =>
                    let ptr := Nat.min (Z.to_nat (Z.land v 0x3FFF)) (length buf) in
                    if (length buf <=? ptr)%nat then refuse
                    else answer_name fuel buf ptr (depth + 1)
                end
            else
              let off := (off + 1 + Z.to_nat b)%nat in
              if (length buf <=? off)%nat then refuse else answer_name fuel buf off depth
        end
  end.

Fixpoint answers (ancount : nat) (buf : bytes) (off : nat) : walk bytes :=
  match ancount with
  | O => refuse
  | S ancount =>
      match answer_name (2 * length buf + 2) buf off 0 with
      | Some (Some off) =>
          if (length buf <? off + 10)%nat then refuse
          else
            match be16_get buf off, be16_get buf (off + 8) with
            | Some rtype, Some rdlength =>
                let rdlength := Z.to_nat rdlength in
                let off := (off + 10)%nat in
                if (rtype =? QTYPE_A) && (4 <=? rdlength)%nat then
                  if (off + 4 <=? length buf)%nat then Some (Some (slice off (off + 4) buf))
                  else refuse
                else
                  let off := (off + rdlength)%nat in
                  if (length buf <? off)%nat then refuse else answers ancount buf off
            | _, _ => refuse
            end
      | Some None => refuse
      | None => None
      end
  end.

Definition parse_response (buf : bytes) : walk bytes :=
  if (length buf <? 12)%nat then refuse
  else
    let flags := be16_at buf 2 in
    if Z.land flags QR_RESPONSE =? 0 then refuse
    else
      let rcode := Z.land flags 0x000F in
      if rcode =? RCODE_NXDOMAIN then refuse
      else if negb (rcode =? 0) then refuse
      else
        let qdcount := Z.to_nat (be16_at buf 4) in
        let ancount := Z.to_nat (be16_at buf 6) in
        if (ancount =? 0)%nat then refuse
        else
          match skip_questions qdcount buf 12 with
          | Some (Some off) => answers ancount buf off
          | Some None => refuse
          | None => None
          end.

(** ** The resolver's state *)

Definition init : DnsState :=
  {| resp_buf := replicate 1500 0; resp_len := 0; resp_ready := false;
     expected_id := 0; dns_active_port := 0 |}.

Definition with_ready (r : bool) (s : DnsState) : DnsState :=
  {| resp_buf := resp_buf s; resp_len := resp_len s; resp_ready := r;
     expected_id := expected_id s; dns_active_port := dns_active_port s |}.
Definition with_id (i : Z) (s : DnsState) : DnsState :=
  {| resp_buf := resp_buf s; resp_len := resp_len s; resp_ready := resp_ready s;
     expected_id := i; dns_active_port := dns_active_port s |}.
Definition with_port (p : Z) (s : DnsState) : DnsState :=
  {| resp_buf := resp_buf s; resp_len := resp_len s; resp_ready := resp_ready s;
     expected_id := expected_id s; dns_active_port := p |}.

(** [dns_id]: the current id, and the state with it advanced. *)
Definition dns_id (s : DnsState) : Z * DnsState :=
  (expected_id s, with_id ((expected_id s + 1) mod 65536) s).

Definition handle_receive (packet : bytes) (s : DnsState) : bool * DnsState :=
  if (length packet <? 8)%nat then (false, s)
  else
    match Udp.parse packet with
    | None => (false, s)
    | Some (_, payload) =>
        if (length payload <? 12)%nat then (false, s)
        else
          let resp_id := be16_at payload 0 in
          if resp_id =? expected_id s then
            let n := Nat.min (length payload) (length (resp_buf s)) in
            (true, {| resp_buf := splice 0 (take n payload) (resp_buf s); resp_len := n;
                      resp_ready := true; expected_id := expected_id s;
                      dns_active_port := dns_active_port s |})
          else (true, s)
    end.

(** One turn of the polling loop: the packets [net_poll] delivers to the
    resolver, then the test of the response. *)
Definition poll_turn (packets : list bytes) (s : DnsState) : option bytes * DnsState :=
  let s := foldl (fun s p => (handle_receive p s).2) s packets in
  if resp_ready s then
    match parse_response (take (resp_len s) (resp_buf s)) with
    | Some (Some ip) => (Some ip, with_port 0 s)
    | _ => (None, s)
    end
  else (None, s).

(** [ticks] counts the turns left of the 50000; [rx t] is what arrives at turn
    [t]. *)
Fixpoint poll_loop (ticks : nat) (t : nat) (rx : nat -> list bytes) (s : DnsState)
    : option bytes * DnsState :=
  match ticks with
  | O => (None, with_port 0 s)
  | S ticks =>
      match poll_turn (rx t) s with
      | (Some ip, s) => (Some ip, s)
      | (None, s) => poll_loop ticks (S t) rx s
      end
  end.

Definition SRC_PORT : Z := 12345.

(** The query [resolve] sends (again every 5000 turns), the answer and the state afterwards.  Without the
    interface, or with a name that cannot be encoded, it stops before sending. *)
Definition resolve (turns : nat) (iface : bool) (name : bytes) (rx : nat -> list bytes) (s : DnsState)
    : option bytes * option bytes * DnsState :=
  let s := with_ready false s in
  if negb iface then (None, None, s)
  else
    let '(id, s) := dns_id s in
    let s := with_port SRC_PORT (with_id id s) in
    match build_query id name (replicate 512 0) with
    | None => (None, None, s)
    | Some (query, qlen) =>
        let '(r, s) := poll_loop turns 0 rx s in
        (Some (take qlen query), r, s)
    end.

End Dns.

Module DnsProofs.
Import Dns.

(** ** Names as lists of labels *)

Definition label_ok (l : bytes) : Prop :=
  (1 <= length l <= 63)%nat /\ Forall (fun b => b <> DOT) l.

(** The wire form: length-prefixed labels and the root. *)
Fixpoint wire (ls : list bytes) : bytes :=
  match ls with
  | [] => [0]
  | l :: r => (Z.of_nat (length l) :: l) ++ wire r
  end.

(** The text form. *)
Fixpoint dotted (ls : list bytes) : bytes :=
  match ls with
  | [] => []
  | [l] => l
  | l :: r => l ++ DOT :: dotted r
  end.

(** A name and the labels it stands for; one trailing dot is allowed. *)
Definition spells (name : bytes) (ls : list bytes) : Prop :=
  Forall label_ok ls /\ (name = dotted ls \/ ls <> [] /\ name = dotted ls ++ [DOT]).

Lemma length_wire ls : (1 <= length (wire ls))%nat.
Proof. induction ls; simpl; [lia|]. rewrite length_app. lia. Qed.

Lemma label_len_spec rest :
  let n := label_len rest in
  (n <= length rest)%nat /\ Forall (fun b => b <> DOT) (take n rest) /\
  (drop n rest = [] \/ exists r, drop n rest = DOT :: r).
Proof.
  unfold label_len. destruct (find_index _ rest) as [n|] eqn:E.
  - apply find_index_Some in E as [(x & Hx & Hd) Hlt].
    pose proof (lookup_lt_Some _ _ _ Hx). bsplit. subst x. split_and!; [lia| |].
    + apply Forall_lookup. intros i y Hy.
      assert (Hi : (i < n)%nat).
      { apply lookup_lt_Some in Hy. rewrite length_take in Hy. lia. }
      rewrite lookup_take_lt in Hy by done. specialize (Hlt i y Hi Hy). by bsplit.
    + right. exists (drop (S n) rest). by apply drop_S.
  - rewrite find_index_None in E. split_and!; [done| |left; by rewrite drop_all].
    rewrite take_ge by done. eapply Forall_impl; [exact E|]. intros b Hb. by apply Z.eqb_neq.
Qed.

Lemma splice_length_2 (pos n : nat) (x : Z) (l buf : bytes) :
  length l = n -> (pos + n + 1 <= length buf)%nat ->
  splice (pos + 1) l (splice pos [x] buf) = take pos buf ++ (x :: l) ++ drop (pos + 1 + n) buf.
Proof.
  intros Hl Hb. set (a := take pos buf).
  assert (Ha : length a = pos) by (unfold a; rewrite length_take; lia).
  change (splice pos [x] buf) with (a ++ [x] ++ drop (pos + 1) buf).
  rewrite app_assoc, (WireProofs.splice_app_r (a ++ [x]) _ l 0) by (rewrite length_app; simpl; lia).
  unfold splice. rewrite take_0, drop_drop, <- !app_assoc. cbn [app]. do 4 f_equal. lia.
Qed.

Lemma dotted_cons l ls : ls <> [] -> dotted (l :: ls) = l ++ DOT :: dotted ls.
Proof. by destruct ls. Qed.

(** What the loop writes is the wire form of the labels it read, in place. *)
Lemma encode_loop_sound fuel rest pos buf buf' n :
  encode_loop fuel rest pos buf = Some (buf', n) -> (pos <= length buf)%nat ->
  exists ls, ls <> [] /\ spells rest ls /\ n = (pos + length (wire ls))%nat /\
    (n <= length buf)%nat /\ (n <= 256)%nat /\
    buf' = take pos buf ++ wire ls ++ drop n buf.
Proof.
  revert rest pos buf. induction fuel as [|fuel IH]; intros rest pos buf; cbn [encode_loop]; [done|].
  pose proof (label_len_spec rest) as (Hn & Hnd & Hdrop). set (k := label_len rest) in *.
  destruct (Nat.eqb_spec k 0); [done|]. destruct (Nat.ltb_spec 63 k); [done|].
  destruct (_ || _) eqn:E; [done|]. bsplit. intros Hr Hpos.
  assert (Hk : length (take k rest) = k) by (rewrite length_take; lia).
  rewrite (splice_length_2 pos k) in Hr by (done || lia).
  set (l := take k rest) in *. assert (Hlab : label_ok l) by (split; [lia|done]).
  assert (Erest : rest = l ++ drop k rest) by (unfold l; by rewrite take_drop).
  set (buf1 := take pos buf ++ _) in *.
  assert (Hb1 : length buf1 = length buf).
  { unfold buf1. rewrite !length_app, length_take, length_drop. simpl. lia. }
  assert (Ht1 : take (pos + 1 + k) buf1 = take pos buf ++ Z.of_nat k :: l).
  { unfold buf1. rewrite app_assoc, take_app_length'; [done|]. rewrite length_app, length_take. simpl. lia. }
  assert (Hd1 : forall m, (pos + 1 + k <= m)%nat -> drop m buf1 = drop m buf).
  { intros m Hm. unfold buf1. rewrite app_assoc, drop_app, drop_ge
      by (rewrite length_app, length_take; simpl; lia).
    rewrite app_nil_l, drop_drop, length_app, length_take. f_equal. simpl. lia. }
  assert (Hfin : forall r, drop k rest = r -> (r = [] \/ r = [DOT]) ->
      finish_name (pos + 1 + k) buf1 = Some (buf', n) ->
      exists ls, ls <> [] /\ spells rest ls /\ n = (pos + length (wire ls))%nat /\
        (n <= length buf)%nat /\ (n <= 256)%nat /\ buf' = take pos buf ++ wire ls ++ drop n buf).
  { intros r Er Hcase Hf. unfold finish_name in Hf.
    destruct (Nat.ltb_spec (length buf1) (pos + 1 + k + 1)); [done|]. injection Hf as <- <-.
    exists [l]. cbn [wire]. rewrite length_app. cbn [length]. split_and!; [done| |lia|lia|lia|].
    - split; [by apply Forall_singleton|]. rewrite Erest, Er.
      destruct Hcase as [-> | ->]; [left; by rewrite app_nil_r|by right].
    - unfold splice. rewrite Ht1, Hd1 by (simpl; lia). by rewrite <- !app_assoc, Hk. }
  destruct (drop k rest) as [|d [|c r]] eqn:Ed.
  - by apply (Hfin []); [|left|].
  - destruct Hdrop as [?|[r' Er']]; [done|]. injection Er' as -> <-.
    apply (Hfin [DOT]); [done|by right|done].
  - destruct Hdrop as [?|[r' Er']]; [done|]. injection Er' as -> <-.
    apply IH in Hr as (ls & Hne & [Hls Hsp] & En & Hnl & Hn2 & Eb); [|lia].
    exists (l :: ls). cbn [wire]. rewrite length_app. cbn [length]. split_and!; [done| |lia|lia|lia|].
    + split; [by constructor|]. rewrite Erest, dotted_cons by done.
      destruct Hsp as [-> | [_ ->]]; [by left|right]. split; [done|]. by rewrite <- app_assoc.
    + rewrite Eb, Ht1, Hd1 by lia. rewrite <- !app_assoc. cbn [app]. by rewrite Hk.
Qed.

(** ** Walking a wire-form name *)

Lemma label_byte n : (1 <= n <= 63)%nat -> Z.of_nat n =? 0 = false /\ Z.land (Z.of_nat n) 0xC0 =? 0xC0 = false.
Proof.
  intros Hn. split; [apply Z.eqb_neq; lia|]. do 64 (destruct n as [|n]; [try reflexivity; lia|]). lia.
Qed.

Lemma skip_wire ls pre post fuel :
  Forall label_ok ls -> (length ls < fuel)%nat ->
  skip_question_name fuel (pre ++ wire ls ++ post) (length pre) =
  Some (Some (length pre + length (wire ls))%nat).
Proof.
  intros Hls. revert pre fuel. induction Hls as [|l ls [Hl _] Hls IH]; intros pre [|fuel] Hf; simpl in Hf; try lia.
  - cbn [skip_question_name wire app]. rewrite list_lookup_middle by done. done.
  - cbn [skip_question_name wire app]. rewrite list_lookup_middle by done.
    destruct (label_byte (length l) Hl) as [-> ->]. rewrite Nat2Z.id, <- app_assoc.
    destruct (Nat.ltb_spec (length (pre ++ Z.of_nat (length l) :: l ++ wire ls ++ post)) (length pre + 1 + length l));
      [rewrite !length_app in *; simpl in *; rewrite !length_app in *; lia|].
    replace (pre ++ Z.of_nat (length l) :: l ++ wire ls ++ post)
      with ((pre ++ Z.of_nat (length l) :: l) ++ wire ls ++ post) by (by rewrite <- app_assoc).
    replace (length pre + 1 + length l)%nat with (length (pre ++ Z.of_nat (length l) :: l))
      by (rewrite length_app; simpl; lia).
    rewrite IH by lia. do 2 f_equal. rewrite !length_app. simpl. rewrite length_app. lia.
Qed.

Lemma answer_wire ls pre post fuel depth :
  Forall label_ok ls -> (length ls < fuel)%nat -> (depth < 16)%nat ->
  answer_name fuel (pre ++ wire ls ++ post) (length pre) depth =
  Some (Some (length pre + length (wire ls))%nat).
Proof.
  intros Hls Hf Hd. revert pre fuel Hf.
  induction Hls as [|l ls [Hl _] Hls IH]; intros pre [|fuel] Hf; simpl in Hf; try lia;
    cbn [answer_name wire app]; (destruct (Nat.leb_spec 16 depth); [lia|]);
    rewrite list_lookup_middle by done.
  - done.
  - destruct (label_byte (length l) Hl) as [-> ->]. rewrite Nat2Z.id, <- app_assoc.
    pose proof (length_wire ls).
    destruct (Nat.leb_spec (length (pre ++ Z.of_nat (length l) :: l ++ wire ls ++ post)) (length pre + 1 + length l));
      [rewrite !length_app in *; simpl in *; rewrite !length_app in *; lia|].
    replace (pre ++ Z.of_nat (length l) :: l ++ wire ls ++ post)
      with ((pre ++ Z.of_nat (length l) :: l) ++ wire ls ++ post) by (by rewrite <- app_assoc).
    replace (length pre + 1 + length l)%nat with (length (pre ++ Z.of_nat (length l) :: l))
      by (rewrite length_app; simpl; lia).
    rewrite IH by lia. do 2 f_equal. rewrite !length_app. simpl. rewrite length_app. lia.
Qed.

Lemma length_labels ls : (length ls < length (wire ls))%nat.
Proof. induction ls; simpl; [lia|]. rewrite length_app. lia. Qed.

(** ** Termination of the walks *)

Lemma skip_question_name_total fuel buf off :
  (length buf - off < fuel)%nat -> is_Some (skip_question_name fuel buf off).
Proof.
  revert off. induction fuel as [|fuel IH]; intros off Hf; [lia|]. cbn [skip_question_name].
  destruct (buf !! off) as [b|] eqn:E; [|by eexists]. apply lookup_lt_Some in E.
  repeat (case_if; [by eexists|]). repeat case_if; try by eexists. apply IH. lia.
Qed.

Lemma skip_questions_total qd buf off : is_Some (skip_questions qd buf off).
Proof.
  revert off. induction qd as [|qd IH]; intros off; cbn [skip_questions]; [by eexists|].
  destruct (skip_question_name_total (S (length buf)) buf off) as [r Hr]; [lia|].
  rewrite Hr. destruct r; [|by eexists]. case_if; [by eexists|apply IH].
Qed.

Lemma answer_name_total fuel buf off depth :
  ((length buf - off) + (if (depth =? 0)%nat then length buf + 1 else 0) < fuel)%nat ->
  is_Some (answer_name fuel buf off depth).
Proof.
  revert off depth. induction fuel as [|fuel IH]; intros off depth Hf; [lia|]. cbn [answer_name].
  destruct (16 <=? depth)%nat; [by eexists|].
  destruct (buf !! off) as [b|] eqn:E; [|by eexists]. apply lookup_lt_Some in E.
  destruct (b =? 0); [by eexists|]. destruct (Z.land b 0xC0 =? 0xC0).
  - destruct (Nat.ltb_spec 0 depth); [by eexists|]. destruct (be16_get buf off); [|by eexists].
    case_if; [by eexists|]. apply IH. destruct (Nat.eqb_spec (depth + 1) 0); [lia|].
    destruct (Nat.eqb_spec depth 0); lia.
  - case_if; [by eexists|]. apply IH. destruct (depth =? 0)%nat; lia.
Qed.

Lemma answers_total an buf off :
  exists r, answers an buf off = Some r /\
    (forall ip, r = Some ip -> exists o, (o + 4 <= length buf)%nat /\ ip = slice o (o + 4) buf).
Proof.
  revert off. induction an as [|an IH]; intros off; cbn [answers]; [by exists None|].
  destruct (answer_name_total (2 * length buf + 2) buf off 0) as [r Hr]; [simpl; lia|].
  rewrite Hr. destruct r as [o|]; [|by exists None].
  destruct (_ <? _)%nat; [by exists None|].
  destruct (be16_get buf o) as [rt|]; [|by exists None].
  destruct (be16_get buf (o + 8)) as [rd|]; [|by exists None].
  destruct (_ && _).
  - destruct (Nat.leb_spec (o + 10 + 4) (length buf)); [|by exists None].
    eexists. split; [done|]. intros ip E'. injection E' as <-. by exists (o + 10)%nat.
  - destruct (_ <? _)%nat; [by exists None|apply IH].
Qed.

Lemma encode_name_sound name buf buf' n :
  encode_name name buf = Some (buf', n) ->
  exists ls, spells name ls /\ n = length (wire ls) /\ (n <= length buf)%nat /\ (n <= 256)%nat /\
    buf' = wire ls ++ drop n buf.
Proof.
  unfold encode_name. destruct name as [|c name].
  - destruct buf as [|b buf]; [done|]. intros E. injection E as <- <-. exists [].
    split_and!; try done; [split; [constructor|by left]|simpl; lia|lia].
  - intros E. apply encode_loop_sound in E as (ls & _ & Hs & -> & H1 & H2 & ->); [|lia].
    exists ls. by split_and!.
Qed.

(** A query: the header with recursion desired and one question, the name, the
    type and the class. *)
Definition query (id : Z) (ls : list bytes) : bytes :=
  be16_bytes id ++ [1; 0; 0; 1; 0; 0; 0; 0; 0; 0] ++ wire ls ++ [0; 1; 0; 1].

Lemma build_query_sound id name buf q n :
  build_query id name buf = Some (q, n) -> (12 <= length buf)%nat ->
  exists ls, spells name ls /\ n = length (query id ls) /\ (n <= 272)%nat /\
    q = query id ls ++ drop n buf.
Proof.
  intros E Hl. unfold build_query in E.
  destruct (encode_name name (drop 12 buf)) as [[tl nl]|] eqn:En; [|done]. cbn [mbind option_bind] in E.
  apply encode_name_sound in En as (ls & Hs & -> & H1 & H2 & ->). rewrite length_drop in H1.
  destruct (_ <? _)%nat eqn:Hlen in E; [done|]. apply Nat.ltb_ge in Hlen.
  rewrite !length_app, length_take, !length_drop in Hlen.
  apply (inj Some) in E. apply pair_eq in E as [<- <-]. exists ls.
  assert (Hq : length (query id ls) = (12 + length (wire ls) + 4)%nat)
    by (unfold query; rewrite !length_app; cbn [length be16_bytes]; lia).
  split_and!; [done|done|lia|]. rewrite drop_drop. set (r := drop (12 + length (wire ls)) buf).
  assert (Hr : drop (12 + length (wire ls) + 4) buf = drop 4 r) by (unfold r; by rewrite drop_drop).
  assert (Hr4 : (4 <= length r)%nat) by (unfold r; rewrite length_drop; lia).
  rewrite Hr. clearbody r. clear - Hl. do 12 (destruct buf as [|? buf]; [simpl in Hl; lia|]).
  assert (E : splice 10 [0; 0] (splice 8 [0; 0] (splice 6 [0; 0] (splice 4 [0; 1] (splice 2 [1; 0]
    (splice 0 (be16_bytes id) (take 12 (z :: z0 :: z1 :: z2 :: z3 :: z4 :: z5 :: z6 :: z7 :: z8 :: z9 :: z10 :: buf)
      ++ wire ls ++ r)))))) =
    (be16_bytes id ++ [1; 0; 0; 1; 0; 0; 0; 0; 0; 0] ++ wire ls) ++ r) by reflexivity.
  change (be16_bytes RD_FLAG) with [1; 0]. change (be16_bytes 1) with [0; 1].
  change (be16_bytes 0) with [0; 0]. change (be16_bytes QTYPE_A) with [0; 1].
  change (be16_bytes QCLASS_IN) with [0; 1]. rewrite E.
  set (h := be16_bytes id ++ _). assert (Hh : length h = (12 + length (wire ls))%nat) by done.
  rewrite (WireProofs.splice_app_r h _ _ 0), (WireProofs.splice_app_r h _ _ 2) by lia.
  unfold h, query. rewrite <- !app_assoc. do 3 f_equal. unfold splice. rewrite take_0.
  cbn [app take drop length Nat.add]. by rewrite drop_drop.
Qed.

(** ** Responses with one question and one answer *)

Definition resp_header (i0 i1 f0 f1 n0 n1 a0 a1 : Z) : bytes :=
  [i0; i1; f0; f1; 0; 1; 0; 1; n0; n1; a0; a1].
(** TYPE A, CLASS IN, the TTL, RDLENGTH 4 and the address. *)
Definition a_record (ttl4 ip : bytes) : bytes := [0; 1; 0; 1] ++ ttl4 ++ [0; 4] ++ ip.

Definition good_flags (f0 f1 : Z) : Prop :=
  Z.land (be16 f0 f1) QR_RESPONSE <> 0 /\ Z.land (be16 f0 f1) 0x000F = 0.

Lemma be16_at_app (x y : bytes) k : be16_at (x ++ y) (length x + k) = be16_at y k.
Proof. unfold be16_at. rewrite <- Nat.add_assoc. by rewrite !byte_at_app_r. Qed.

Lemma be16_at_prefix a b (r : bytes) : be16_at ([a; b] ++ r) 0 = be16 a b.
Proof. reflexivity. Qed.

Lemma be16_get_app (x y : bytes) k n :
  n = (length x + k)%nat -> (k + 2 <= length y)%nat -> be16_get (x ++ y) n = Some (be16_at y k).
Proof.
  intros -> Hk. unfold be16_get. rewrite length_app, be16_at_app.
  by destruct (Nat.leb_spec (length x + k + 2) (length x + length y)); [|lia].
Qed.

(** The guards of [parse_response] passed and the question skipped. *)
Lemma parse_one_question i0 i1 f0 f1 n0 n1 a0 a1 ls ans :
  Forall label_ok ls -> good_flags f0 f1 ->
  let buf := resp_header i0 i1 f0 f1 n0 n1 a0 a1 ++ wire ls ++ [0; 1; 0; 1] ++ ans in
  parse_response buf = answers 1 buf (16 + length (wire ls)).
Proof.
  intros Hls [Hf1 Hf2] buf. unfold parse_response.
  assert (Hlen : length buf = (16 + length (wire ls) + length ans)%nat)
    by (unfold buf; rewrite !length_app; simpl; lia).
  rewrite Hlen. destruct (Nat.ltb_spec (16 + length (wire ls) + length ans) 12); [lia|].
  change (be16_at buf 2) with (be16 f0 f1). change (be16_at buf 4) with 1. change (be16_at buf 6) with 1.
  rewrite (proj2 (Z.eqb_neq _ _) Hf1), Hf2. change (0 =? RCODE_NXDOMAIN) with false. cbn [negb Z.eqb].
  change (Z.to_nat 1) with 1%nat. cbn [Nat.eqb skip_questions].
  assert (E : skip_question_name (S (length buf)) buf 12 = Some (Some (12 + length (wire ls))%nat)).
  { apply (skip_wire ls (resp_header i0 i1 f0 f1 n0 n1 a0 a1)); [done|].
    pose proof (length_labels ls). lia. }
  rewrite E, Hlen.
  destruct (Nat.ltb_spec (16 + length (wire ls) + length ans) (12 + length (wire ls) + 4)); [lia|].
  by replace (12 + length (wire ls) + 4)%nat with (16 + length (wire ls))%nat by lia.
Qed.

Lemma handle_receive_id p s : expected_id (handle_receive p s).2 = expected_id s.
Proof.
  unfold handle_receive. destruct (_ <? 8)%nat; [done|]. destruct (Udp.parse p) as [[h pl]|]; [|done].
  destruct (_ <? 12)%nat; [done|]. by destruct (_ =? expected_id s).
Qed.

Lemma poll_loop_id ticks t rx s : expected_id (poll_loop ticks t rx s).2 = expected_id s.
Proof.
  revert t s. induction ticks as [|ticks IH]; intros t s; cbn [poll_loop]; [done|].
  assert (Hf : forall ps s', expected_id (foldl (fun s p => (handle_receive p s).2) s' ps) = expected_id s').
  { induction ps as [|p ps IHp]; intros s'; cbn; [done|]. by rewrite IHp, handle_receive_id. }
  unfold poll_turn. specialize (Hf (rx t) s). destruct (resp_ready _).
  - destruct (parse_response _) as [[ip|]|]; cbn; [done|by rewrite IH..].
  - cbn. by rewrite IH.
Qed.

(** The queries of a sequence of resolutions, each with its own network. *)
Fixpoint resolve_all (turns : nat) (calls : list (bytes * (nat -> list bytes))) (s : DnsState)
    : list (option bytes) * DnsState :=
  match calls with
  | [] => ([], s)
  | (name, rx) :: calls =>
      let '(q, _, s) := resolve turns true name rx s in
      let '(qs, s) := resolve_all turns calls s in
      (q :: qs, s)
  end.

Lemma resolve_id turns name rx s q r s' :
  is_u16 (expected_id s) -> resolve turns true name rx s = (q, r, s') ->
  expected_id s' = expected_id s /\ (forall q', q = Some q' -> be16_at q' 0 = expected_id s).
Proof.
  intros Hid. unfold resolve. cbn [negb dns_id].
  destruct (build_query _ name _) as [[b n]|] eqn:E; [|intros E'; by simplify_eq].
  destruct (poll_loop _ _ _ _) as [r' s1] eqn:Ep. intros E'. injection E' as <- <- <-.
  apply (f_equal (fun x => expected_id x.2)) in Ep. rewrite poll_loop_id in Ep. cbn in Ep.
  split; [by rewrite <- Ep|]. intros q' Eq. injection Eq as <-.
  apply build_query_sound in E as (ls & _ & -> & _ & ->); [|rewrite length_replicate; lia].
  rewrite take_app_length. unfold query, be16_bytes. rewrite be16_at_prefix. by apply be16_of_bytes.
Qed.

(** ** Properties *)

(** A query that [build_query] produces is a well-formed question: a header
    with the given id, recursion desired and one question, the length-prefixed
    labels of the name in order (each of 1 to 63 bytes, none with a dot, one
    trailing dot allowed), the root, type A and class IN; and the response parser's
    own question walk over it stops exactly at the type field. *)
Theorem dns_query_wellformed id name buf q n :
  build_query id name buf = Some (q, n) -> (12 <= length buf)%nat ->
  exists ls, Forall label_ok ls /\ (name = dotted ls \/ name = dotted ls ++ [DOT]) /\
    take n q = query id ls /\ (n <= length q)%nat /\ (n <= 272)%nat /\
    skip_question_name (S (length q)) q 12 = Some (Some (n - 4)%nat).
Proof.
  intros E Hl. pose proof E as E0. apply build_query_sound in E as (ls & [Hls Hsp] & -> & Hn & ->); [|done].
  exists ls. split_and!; [done|destruct Hsp as [?|[_ ?]]; [by left|by right]|by rewrite take_app_length
    |rewrite length_app; lia|done|].
  assert (Hq : length (query id ls) = (12 + length (wire ls) + 4)%nat)
    by (unfold query; rewrite !length_app; cbn [length be16_bytes]; lia).
  rewrite Hq. replace (12 + length (wire ls) + 4 - 4)%nat with (12 + length (wire ls))%nat by lia.
  unfold query at 2. rewrite <- !app_assoc, (app_assoc (be16_bytes id)).
  apply (skip_wire ls (be16_bytes id ++ [1; 0; 0; 1; 0; 0; 0; 0; 0; 0])); [done|].
  rewrite length_app, Hq. pose proof (length_labels ls). lia.
Qed.

(** The response parser terminates on every byte string, however hostile:
    within its fuel it either refuses or answers four consecutive bytes of the
    message itself. *)
Theorem dns_parse_total buf :
  exists r, parse_response buf = Some r /\
    (forall ip, r = Some ip -> exists o, (o + 4 <= length buf)%nat /\ ip = slice o (o + 4) buf).
Proof.
  unfold parse_response. repeat (destruct (_ : bool); [by exists None|]).
  destruct (skip_questions_total (Z.to_nat (be16_at buf 4)) buf 12) as [[o|] ->]; [|by exists None].
  apply answers_total.
Qed.

(** A response to a query that repeats the name in full yields its address:
    one question and one A record with an uncompressed name, for any valid name,
    ids, counts and time to live. *)
Theorem dns_inline_answer_found i0 i1 f0 f1 n0 n1 a0 a1 ls ls' ttl4 ip extra :
  Forall label_ok ls -> Forall label_ok ls' -> good_flags f0 f1 ->
  length ttl4 = 4%nat -> length ip = 4%nat ->
  parse_response (resp_header i0 i1 f0 f1 n0 n1 a0 a1 ++ wire ls ++ [0; 1; 0; 1] ++
                  wire ls' ++ a_record ttl4 ip ++ extra) = Some (Some ip).
Proof.
  intros Hls Hls' Hf Ht Hi. rewrite parse_one_question by done. cbn [answers].
  set (pre := resp_header i0 i1 f0 f1 n0 n1 a0 a1 ++ wire ls ++ [0; 1; 0; 1]).
  assert (Hpre : length pre = (16 + length (wire ls))%nat) by (unfold pre; rewrite !length_app; simpl; lia).
  set (buf := _ ++ _). assert (Eb : buf = pre ++ wire ls' ++ a_record ttl4 ip ++ extra)
    by (unfold buf, pre; by rewrite <- !app_assoc).
  rewrite Eb, <- Hpre.
  assert (Hlen : length (pre ++ wire ls' ++ a_record ttl4 ip ++ extra) =
    (length pre + length (wire ls') + 14 + length extra)%nat).
  { unfold a_record. rewrite !length_app, Ht, Hi. simpl. lia. }
  rewrite answer_wire; [|done|pose proof (length_labels ls'); lia|lia].
  rewrite (app_assoc pre), (length_app (pre ++ wire ls')). set (x := pre ++ wire ls').
  assert (Hx : length x = (length pre + length (wire ls'))%nat) by apply length_app.
  rewrite <- Hx. assert (Ha : length (a_record ttl4 ip ++ extra) = (14 + length extra)%nat)
    by (unfold a_record; rewrite !length_app, Ht, Hi; simpl; lia).
  rewrite Ha. destruct (Nat.ltb_spec (length x + (14 + length extra)) (length x + 10)); [lia|].
  rewrite (be16_get_app x _ 0), (be16_get_app x _ 8) by lia.
  apply length_4_inv in Ht as (t0 & t1 & t2 & t3 & ->), Hi as (p0 & p1 & p2 & p3 & ->).
  change (be16_at _ 0) with QTYPE_A. change (be16_at _ 8) with 4. cbn [Z.eqb QTYPE_A andb].
  change (Z.to_nat 4) with 4%nat. cbn [Nat.leb].
  destruct (Nat.leb_spec (length x + 10 + 4) (length x + (14 + length extra))); [|lia].
  rewrite (WireProofs.slice_app_r x _ 10 14) by lia. reflexivity.
Qed.

(** A response that names its answer by a compression pointer to the question,
    the form servers send, is never understood: after following the pointer the
    parser stays at the pointed-to name and reads the question's type and class as
    the record, so every such response is refused. *)
Theorem dns_compressed_answer_lost i0 i1 f0 f1 n0 n1 a0 a1 ls ttl4 ip :
  Forall label_ok ls -> good_flags f0 f1 -> length ttl4 = 4%nat -> length ip = 4%nat ->
  parse_response (resp_header i0 i1 f0 f1 n0 n1 a0 a1 ++ wire ls ++ [0; 1; 0; 1] ++
                  [0xC0; 12] ++ a_record ttl4 ip) = Some None.
Proof.
  intros Hls Hf Ht Hi. rewrite parse_one_question by done. cbn [answers].
  set (h := resp_header i0 i1 f0 f1 n0 n1 a0 a1).
  set (tl := [0; 1; 0; 1] ++ [0xC0; 12] ++ a_record ttl4 ip).
  assert (Htl : length tl = 20%nat) by (unfold tl, a_record; rewrite !length_app, Ht, Hi; done).
  assert (Hlen : length (h ++ wire ls ++ tl) = (32 + length (wire ls))%nat)
    by (rewrite !length_app, Htl; simpl; lia).
  assert (Hname : answer_name (2 * length (h ++ wire ls ++ tl) + 2) (h ++ wire ls ++ tl)
                    (16 + length (wire ls)) 0 = Some (Some (12 + length (wire ls))%nat)).
  { replace (2 * length (h ++ wire ls ++ tl) + 2)%nat with (S (2 * length (h ++ wire ls ++ tl) + 1)) by lia.
    cbn [answer_name]. change (16 <=? 0)%nat with false. cbv iota.
    rewrite (app_assoc h). set (x := h ++ wire ls).
    assert (Hx : length x = (12 + length (wire ls))%nat) by apply length_app.
    rewrite lookup_app_r by lia. replace (16 + length (wire ls) - length x)%nat with 4%nat by lia.
    change (tl !! 4%nat) with (Some 0xC0). cbn [Z.eqb]. change (Z.land 0xC0 0xC0 =? 0xC0) with true.
    change (0 <? 0)%nat with false. cbv iota. rewrite (be16_get_app x tl 4) by lia.
    change (be16_at tl 4) with 0xC00C. change (Z.to_nat (Z.land 0xC00C 0x3FFF)) with 12%nat.
    rewrite length_app, Htl. rewrite Nat.min_l by lia.
    destruct (Nat.leb_spec (length x + 20) 12); [lia|]. unfold x. rewrite <- app_assoc.
    apply (answer_wire ls h); [done| |lia]. rewrite !length_app. pose proof (length_labels ls). lia. }
  rewrite Hname, Hlen. destruct (Nat.ltb_spec (32 + length (wire ls)) (12 + length (wire ls) + 10)); [lia|].
  rewrite (app_assoc h). rewrite (be16_get_app (h ++ wire ls) tl 0), (be16_get_app (h ++ wire ls) tl 8)
    by (rewrite ?length_app, ?Htl; simpl; lia).
  change (be16_at tl 0) with 1. change (be16_at tl 8) with 1. cbn [Z.eqb QTYPE_A andb].
  change (4 <=? Z.to_nat 1)%nat with false. cbv iota.
  by destruct (Nat.ltb_spec (32 + length (wire ls)) (12 + length (wire ls) + 10 + Z.to_nat 1)).
Qed.

(** The transaction id never changes: [dns_id] advances it, [resolve] puts the
    old one back, and nothing else writes it, so every query of every sequence of
    resolutions carries the id 0. *)
Theorem dns_query_ids_repeat turns calls qs s' :
  resolve_all turns calls init = (qs, s') ->
  Forall (fun q => forall q', q = Some q' -> be16_at q' 0 = 0) qs.
Proof.
  assert (H : forall s, expected_id s = 0 -> forall qs s', resolve_all turns calls s = (qs, s') ->
    Forall (fun q => forall q', q = Some q' -> be16_at q' 0 = 0) qs).
  { clear. induction calls as [|[name rx] calls IH]; intros s Hs qs s'; cbn [resolve_all].
    - intros E. injection E as <- _. constructor.
    - destruct (resolve turns true name rx s) as [[q r] s1] eqn:E.
      destruct (resolve_all turns calls s1) as [qs1 s2] eqn:E2. intros E'. injection E' as <- _.
      apply resolve_id in E as [Hid Hq]; [|by rewrite Hs]. rewrite Hs in Hid, Hq.
      constructor; [done|]. by apply (IH s1 Hid qs1 s2). }
  by apply H.
Qed.

(** The length limit is off by one: the test leaves room for the labels but
    not for the root, so a name of 256 octets on the wire is encoded although at
    most 255 are allowed. *)
Theorem dns_name_limit_off_by_one :
  exists name buf, encode_name name (replicate 512 0) = Some (buf, 256%nat).
Proof.
  exists (replicate 63 97 ++ DOT :: replicate 63 97 ++ DOT :: replicate 63 97 ++ DOT :: replicate 62 97).
  eexists. vm_compute. reflexivity.
Qed.


(** ** Witnesses *)

Definition zenus_local : list bytes := [[122; 101; 110; 117; 115]; [108; 111; 99; 97; 108]].

Lemma zenus_local_ok : Forall label_ok zenus_local.
Proof.
  repeat (apply Forall_cons; split); [split; [simpl; lia|repeat (constructor; [done|]); constructor]..|constructor].
Qed.

Lemma dns_query_wellformed_witness :
  exists q n ls, build_query 0xBEEF (dotted zenus_local) (replicate 64 0) = Some (q, n) /\
    take n q = query 0xBEEF ls.
Proof.
  eexists _, _. 
  destruct (dns_query_wellformed 0xBEEF (dotted zenus_local) (replicate 64 0) _ _
    ltac:(vm_compute; reflexivity) ltac:(simpl; lia)) as (ls & _ & _ & E & _).
  exists ls. split; [vm_compute; reflexivity|exact E].
Defined.

Lemma good_flags_8180 : good_flags 0x81 0x80.
Proof. split; vm_compute; [discriminate|reflexivity]. Qed.

Lemma dns_inline_answer_found_witness :
  parse_response (resp_header 0 0 0x81 0x80 0 0 0 0 ++ wire zenus_local ++ [0; 1; 0; 1] ++
    wire zenus_local ++ a_record [0; 0; 0; 60] [10; 0; 0; 7] ++ []) = Some (Some [10; 0; 0; 7]).
Proof.
  apply (dns_inline_answer_found 0 0 0x81 0x80 0 0 0 0 zenus_local zenus_local [0; 0; 0; 60] [10; 0; 0; 7] []);
    [apply zenus_local_ok..|apply good_flags_8180|reflexivity|reflexivity].
Defined.

Lemma dns_compressed_answer_lost_witness :
  parse_response (resp_header 0 0 0x81 0x80 0 0 0 0 ++ wire zenus_local ++ [0; 1; 0; 1] ++
    [0xC0; 12] ++ a_record [0; 0; 0; 60] [10; 0; 0; 7]) = Some None.
Proof.
  apply (dns_compressed_answer_lost 0 0 0x81 0x80 0 0 0 0 zenus_local [0; 0; 0; 60] [10; 0; 0; 7]);
    [apply zenus_local_ok|apply good_flags_8180|reflexivity|reflexivity].
Defined.

Lemma dns_query_ids_repeat_witness :
  Forall (fun q => forall q', q = Some q' -> be16_at q' 0 = 0)
    (resolve_all 1 [(dotted zenus_local, fun _ => []); (dotted zenus_local, fun _ => [])] init).1.
Proof. eapply dns_query_ids_repeat. apply surjective_pairing. Defined.

End DnsProofs.
