(* ===== verification/NetTables.v ===== *)
(** The lookup tables of the network stack: arp.rs, route.rs and firewall.rs under
    src/crates/zenus-net/src.

    Each is a fixed array behind a lock; a handler runs with the lock held, so an
    operation is a function from the table to its result and the new table. *)

From S2P Require Import Prelude Bytes Wire.

(** ** arp.rs *)

Definition HARDWARE_TYPE_ETH : Z := 0x0001.
Definition PROTOCOL_TYPE_IPV4 : Z := 0x0800.
Definition ARP_REQUEST : Z := 0x0001.
Definition ARP_REPLY : Z := 0x0002.
Definition ARP_CACHE_SIZE : nat := 16.

Record ArpEntry := { arp_ip : bytes; arp_mac : bytes; arp_valid : bool }.
Record ArpState := { arp_gateway : bytes; arp_cache : list ArpEntry }.

Inductive ArpInsert := Known | Learned | Refused | Conflict.

Module Arp.

Definition init : ArpState :=
  {| arp_gateway := [10; 0; 2; 2];
     arp_cache := replicate ARP_CACHE_SIZE
       {| arp_ip := [0; 0; 0; 0]; arp_mac := [0; 0; 0; 0; 0; 0]; arp_valid := false |} |}.

Definition set_gateway (gw : bytes) (s : ArpState) : ArpState :=
  {| arp_gateway := gw; arp_cache := arp_cache s |}.

Definition hit (ip : bytes) (e : ArpEntry) : bool := arp_valid e && bytes_eqb (arp_ip e) ip.

Definition arp_lookup (ip : bytes) (s : ArpState) : option bytes :=
  arp_mac <$> List.find (hit ip) (arp_cache s).

(** Store an entry at the first slot that satisfies [p], if there is one. *)
Definition store_first (p : ArpEntry -> bool) (ip mac : bytes) (cache : list ArpEntry)
    : option (list ArpEntry) :=
  i ← find_index p cache;
  Some (<[i := {| arp_ip := ip; arp_mac := mac; arp_valid := true |}]> cache).

Definition with_cache (c : list ArpEntry) (s : ArpState) : ArpState :=
  {| arp_gateway := arp_gateway s; arp_cache := c |}.

Definition add_static (ip mac : bytes) (s : ArpState) : ArpState :=
  match store_first (fun e => negb (arp_valid e) || bytes_eqb (arp_ip e) ip) ip mac (arp_cache s) with
  | Some c => with_cache c s
  | None => s
  end.

Definition classify_insert (cached : option bytes) (ip mac : bytes) : ArpInsert :=
  match cached with
  | Some existing => if bytes_eqb existing mac then Known else Conflict
  | None => if bytes_eqb ip [0; 0; 0; 0] then Refused else Learned
  end.

(** The eviction loop starts at slot 1. *)
Definition evict (ip mac : bytes) (s : ArpState) : option (list ArpEntry) :=
  match arp_cache s with
  | [] => None
  | e :: r =>
      c ← store_first (fun e => negb (bytes_eqb (arp_ip e) (arp_gateway s))) ip mac r;
      Some (e :: c)
  end.

(** The source takes the cache lock twice, for the lookup and for the store; with no
    other CPU in between the two are one step. *)
Definition arp_insert (ip mac : bytes) (s : ArpState) : ArpInsert * ArpState :=
  match classify_insert (arp_lookup ip s) ip mac with
  | Learned =>
      if bytes_eqb ip (arp_gateway s) then (Refused, s)
      else
        match store_first (fun e => negb (arp_valid e)) ip mac (arp_cache s) with
        | Some c => (Learned, with_cache c s)
        | None =>
            match evict ip mac s with
            | Some c => (Learned, with_cache c s)
            | None => (Conflict, s)
            end
        end
  | verdict => (verdict, s)
  end.

Definition answering_identity (target : bytes) (ifaces : list (bytes * bytes)) : option (bytes * bytes) :=
  List.find (fun mi => bytes_eqb mi.2 target) ifaces.

Definition arp_packet (smac sip dmac dip : bytes) (opcode : Z) : bytes :=
  let b := replicate 42 0 in
  let b := splice 0 dmac b in
  let b := splice 6 smac b in
  let b := splice 12 (be16_bytes ETH_ARP) b in
  let b := splice 14 (be16_bytes HARDWARE_TYPE_ETH) b in
  let b := splice 16 (be16_bytes PROTOCOL_TYPE_IPV4) b in
  let b := splice 18 [6] b in
  let b := splice 19 [4] b in
  let b := splice 20 (be16_bytes opcode) b in
  let b := splice 22 smac b in
  let b := splice 28 sip b in
  let b := splice 32 dmac b in
  splice 38 dip b.

Definition build_reply (our_mac our_ip requester_mac requester_ip : bytes) : bytes :=
  arp_packet our_mac our_ip requester_mac requester_ip ARP_REPLY.

Definition target_address (payload : bytes) : option bytes :=
  if (length payload <? 28)%nat then None else Some (slice 24 28 payload).

(** The answer to a received ARP payload, and the cache after it. *)
Definition handle (payload our_ip our_mac : bytes) (s : ArpState) : option bytes * ArpState :=
  if (length payload <? 28)%nat then (None, s)
  else if negb (be16_at payload 0 =? HARDWARE_TYPE_ETH) then (None, s)
  else if negb (be16_at payload 2 =? PROTOCOL_TYPE_IPV4) then (None, s)
  else if negb (byte_at payload 4 =? 6) || negb (byte_at payload 5 =? 4) then (None, s)
  else
    let opcode := be16_at payload 6 in
    let sender_mac := slice 8 14 payload in
    let sender_ip := slice 14 18 payload in
    let '(_, s) := arp_insert sender_ip sender_mac s in
    if opcode =? ARP_REQUEST then
      match target_address payload with
      | None => (None, s)
      | Some target =>
          if negb (bytes_eqb target our_ip) then (None, s)
          else (Some (build_reply our_mac our_ip sender_mac sender_ip), s)
      end
    else (None, s).

End Arp.

(** ** route.rs *)

Definition MAX_ROUTES : nat := 8.

Record Route := { r_dest : bytes; r_mask : bytes; r_gateway : bytes; r_iface : nat }.

Inductive GatewayAction := Direct | Via (gw : bytes).

Module Routing.

Notation table := (list (option Route)).

Definition init : table := replicate MAX_ROUTES None.
Definition clear : table := replicate MAX_ROUTES None.

Definition is_none {A} (o : option A) : bool := match o with None => true | Some _ => false end.

Definition add (dest mask gw : bytes) (iface : nat) (t : table) : bool * table :=
  match find_index is_none t with
  | Some i => (true, <[i := Some {| r_dest := dest; r_mask := mask; r_gateway := gw; r_iface := iface |}]> t)
  | None => (false, t)
  end.

Definition add_default (gw : bytes) (iface : nat) : table -> bool * table :=
  add [0; 0; 0; 0] [0; 0; 0; 0] gw iface.
Definition add_direct (network mask : bytes) (iface : nat) : table -> bool * table :=
  add network mask [0; 0; 0; 0] iface.

(** [u8::count_ones]. *)
Definition count_ones (b : Z) : Z :=
  foldr (fun i n => (if Z.testbit b i then 1 else 0) + n) 0 [0; 1; 2; 3; 4; 5; 6; 7].

Definition prefix_len (mask : bytes) : Z :=
  foldl (fun n i => n + count_ones (byte_at mask i)) 0 (seq 0 4).

Definition ip_masked (ip mask : bytes) : bytes :=
  map (fun i => Z.land (byte_at ip i) (byte_at mask i)) (seq 0 4).

Definition gateway_action (gw : bytes) : GatewayAction :=
  if bytes_eqb gw [0; 0; 0; 0] then Direct else Via gw.

Definition better (ip : bytes) (best : option (GatewayAction * nat * Z)) (slot : option Route)
    : option (GatewayAction * nat * Z) :=
  match slot with
  | None => best
  | Some r =>
      let plen := prefix_len (r_mask r) in
      if bytes_eqb (ip_masked ip (r_mask r)) (r_dest r)
         && match best with Some (_, _, n) => n <? plen | None => true end
      then Some (gateway_action (r_gateway r), r_iface r, plen)
      else best
  end.

Definition lookup (ip : bytes) (t : table) : option (GatewayAction * nat) :=
  match foldl (better ip) None t with
  | Some (gw, iface, _) => Some (gw, iface)
  | None => None
  end.

End Routing.

(** ** firewall.rs *)

Inductive FirewallAction := Accept | Drop | Reject.
Inductive FirewallProto := AnyProto | Tcp | UdpProto | IcmpProto.
Inductive ConnState := New | Established | Related.

#[global] Instance FirewallAction_eq_dec : EqDecision FirewallAction.
Proof. solve_decision. Defined.
#[global] Instance FirewallProto_eq_dec : EqDecision FirewallProto.
Proof. solve_decision. Defined.
#[global] Instance ConnState_eq_dec : EqDecision ConnState.
Proof. solve_decision. Defined.

Definition MAX_RULES : nat := 32.
Definition MAX_CONNTRACK : nat := 64.

Record FirewallRule := {
  fr_name : bytes;
  fr_enabled : bool;
  fr_action : FirewallAction;
  fr_proto : FirewallProto;
  fr_src_ip : bytes;
  fr_src_mask : bytes;
  fr_dst_ip : bytes;
  fr_dst_mask : bytes;
  fr_src_port : Z;
  fr_dst_port : Z;
  fr_established : bool;
  fr_packets_matched : Z;
}.

Record ConnTrack := {
  ct_src_ip : bytes;
  ct_dst_ip : bytes;
  ct_src_port : Z;
  ct_dst_port : Z;
  ct_proto : FirewallProto;
  ct_state : ConnState;
  ct_last_seen : Z;
}.

Record PacketInfo := {
  pi_src_ip : bytes;
  pi_dst_ip : bytes;
  pi_src_port : Z;
  pi_dst_port : Z;
  pi_proto : FirewallProto;
}.

Record FirewallState := {
  fw_rules : list (option FirewallRule);
  fw_conns : list (option ConnTrack);
}.

Module Firewall.

Definition firewall_init : FirewallState :=
  {| fw_rules := replicate MAX_RULES None; fw_conns := replicate MAX_CONNTRACK None |}.

Definition with_rules (r : list (option FirewallRule)) (fw : FirewallState) : FirewallState :=
  {| fw_rules := r; fw_conns := fw_conns fw |}.
Definition with_conns (c : list (option ConnTrack)) (fw : FirewallState) : FirewallState :=
  {| fw_rules := fw_rules fw; fw_conns := c |}.

Definition firewall_add_rule (rule : FirewallRule) (fw : FirewallState) : bool * FirewallState :=
  match find_index Routing.is_none (fw_rules fw) with
  | Some i => (true, with_rules (<[i := Some rule]> (fw_rules fw)) fw)
  | None => (false, fw)
  end.

Definition firewall_remove_rule (index : nat) (fw : FirewallState) : bool * FirewallState :=
  if (MAX_RULES <=? index)%nat then (false, fw)
  else
    match fw_rules fw !! index with
    | Some (Some _) => (true, with_rules (<[index := None]> (fw_rules fw)) fw)
    | _ => (false, fw)
    end.

Definition firewall_list_rules (fw : FirewallState) : list (option FirewallRule) := fw_rules fw.

(** The five-tuple test of the connection table. *)
Definition same_flow (c : ConnTrack) (p : PacketInfo) : bool :=
  bytes_eqb (ct_src_ip c) (pi_src_ip p) && bytes_eqb (ct_dst_ip c) (pi_dst_ip p)
  && (ct_src_port c =? pi_src_port p) && (ct_dst_port c =? pi_dst_port p)
  && bool_decide (ct_proto c = pi_proto p).

Definition tracks (p : PacketInfo) (slot : option ConnTrack) : bool :=
  match slot with Some c => same_flow c p | None => false end.

(** The first loop stops at the first connection of the flow. *)
Definition found_established (p : PacketInfo) (conns : list (option ConnTrack)) : bool :=
  match List.find (tracks p) conns with
  | Some (Some c) => bool_decide (ct_state c = Established) || bool_decide (ct_state c = Related)
  | _ => false
  end.

Definition masked_eq (a b mask : bytes) : bool :=
  forallb (fun j => Z.land (byte_at a j) (byte_at mask j) =? Z.land (byte_at b j) (byte_at mask j)) (seq 0 4).

(** The [continue]s of the rule loop, in order; [true] when none is taken. *)
Definition rule_matches (p : PacketInfo) (est : bool) (r : FirewallRule) : bool :=
  fr_enabled r
  && negb (negb (bool_decide (fr_proto r = AnyProto)) && negb (bool_decide (fr_proto r = pi_proto p)))
  && masked_eq (pi_src_ip p) (fr_src_ip r) (fr_src_mask r)
  && masked_eq (pi_dst_ip p) (fr_dst_ip r) (fr_dst_mask r)
  && (if bool_decide (pi_proto p = Tcp) || bool_decide (pi_proto p = UdpProto) then
        negb (negb (fr_src_port r =? 0) && negb (fr_src_port r =? pi_src_port p))
        && negb (negb (fr_dst_port r =? 0) && negb (fr_dst_port r =? pi_dst_port p))
      else true)
  && negb (fr_established r && negb est).

Definition bump (r : FirewallRule) : FirewallRule :=
  {| fr_name := fr_name r; fr_enabled := fr_enabled r; fr_action := fr_action r; fr_proto := fr_proto r;
     fr_src_ip := fr_src_ip r; fr_src_mask := fr_src_mask r; fr_dst_ip := fr_dst_ip r;
     fr_dst_mask := fr_dst_mask r; fr_src_port := fr_src_port r; fr_dst_port := fr_dst_port r;
     fr_established := fr_established r; fr_packets_matched := u64_add (fr_packets_matched r) 1 |}.

Fixpoint rule_loop (p : PacketInfo) (est : bool) (rules : list (option FirewallRule))
    : FirewallAction * list (option FirewallRule) :=
  match rules with
  | [] => (Accept, [])
  | Some r :: rest =>
      if rule_matches p est r then (fr_action r, Some (bump r) :: rest)
      else let '(a, rest) := rule_loop p est rest in (a, Some r :: rest)
  | None :: rest => let '(a, rest) := rule_loop p est rest in (a, None :: rest)
  end.

Definition firewall_check (p : PacketInfo) (fw : FirewallState) : FirewallAction * FirewallState :=
  let '(a, rules) := rule_loop p (found_established p (fw_conns fw)) (fw_rules fw) in
  (a, with_rules rules fw).

Definition flow_of (c : ConnTrack) : PacketInfo :=
  {| pi_src_ip := ct_src_ip c; pi_dst_ip := ct_dst_ip c; pi_src_port := ct_src_port c;
     pi_dst_port := ct_dst_port c; pi_proto := ct_proto c |}.

Definition refresh (c : ConnTrack) (slot : option ConnTrack) : option ConnTrack :=
  (fun old =>
     {| ct_src_ip := ct_src_ip old; ct_dst_ip := ct_dst_ip old; ct_src_port := ct_src_port old;
        ct_dst_port := ct_dst_port old; ct_proto := ct_proto old;
        ct_state := ct_state c; ct_last_seen := ct_last_seen c |}) <$> slot.

Definition firewall_track_connection (c : ConnTrack) (fw : FirewallState) : FirewallState :=
  match find_index (tracks (flow_of c)) (fw_conns fw) with
  | Some i => with_conns (alter (refresh c) i (fw_conns fw)) fw
  | None =>
      match find_index Routing.is_none (fw_conns fw) with
      | Some i => with_conns (<[i := Some c]> (fw_conns fw)) fw
      | None => fw
      end
  end.

(** [ticks] is the timer value the source reads. *)
Definition firewall_clear_connections (ticks : Z) (fw : FirewallState) : FirewallState :=
  with_conns (map (fun slot =>
    match slot with
    | Some c => if 300 <? u64_sub ticks (ct_last_seen c) then None else Some c
    | None => None
    end) (fw_conns fw)) fw.

Definition firewall_rule_count (fw : FirewallState) : nat :=
  length (List.filter (fun o => negb (Routing.is_none o)) (fw_rules fw)).
Definition firewall_conn_count (fw : FirewallState) : nat :=
  length (List.filter (fun o => negb (Routing.is_none o)) (fw_conns fw)).

End Firewall.

Module ArpProofs.
Import Arp WireProofs.

(** A well-formed cache: sixteen slots, no address twice among the valid ones, and
    the valid slots form a prefix (slots are never given back). *)
Record arp_wf (s : ArpState) : Prop := {
  aw_len : length (arp_cache s) = ARP_CACHE_SIZE;
  aw_unique : forall i j e e', arp_cache s !! i = Some e -> arp_cache s !! j = Some e' ->
    arp_valid e = true -> arp_valid e' = true -> arp_ip e = arp_ip e' -> i = j;
  aw_prefix : forall i j e e', (i < j)%nat -> arp_cache s !! i = Some e -> arp_cache s !! j = Some e' ->
    arp_valid e' = true -> arp_valid e = true;
}.

Definition cached (s : ArpState) (i : nat) (ip mac : bytes) : Prop :=
  arp_cache s !! i = Some {| arp_ip := ip; arp_mac := mac; arp_valid := true |}.

Lemma hit_true ip e : hit ip e = true <-> arp_valid e = true /\ arp_ip e = ip.
Proof. unfold hit. by rewrite andb_true_iff, bytes_eqb_eq. Qed.

Lemma find_lookup {A} (p : A -> bool) l x :
  List.find p l = Some x -> p x = true /\ exists i, l !! i = Some x.
Proof.
  intros H. apply find_some in H as [Hin Hp]. split; [done|].
  by apply list_elem_of_In, list_elem_of_lookup in Hin.
Qed.

Lemma arp_lookup_Some s ip mac :
  arp_wf s -> arp_lookup ip s = Some mac <-> exists i, cached s i ip mac.
Proof.
  intros Hwf. unfold arp_lookup, cached. split.
  - intros (e & E & ->)%fmap_Some. symmetry in E. symmetry in E.
    apply find_lookup in E as [[Hv <-]%hit_true [i Hi]]. exists i. rewrite Hi. destruct e; simpl in *. by subst.
  - intros [i Hi]. destruct (List.find (hit ip) (arp_cache s)) as [e|] eqn:E; simpl.
    + apply find_lookup in E as [[Hv He]%hit_true [j Hj]].
      assert (i = j) as -> by (eapply (aw_unique s Hwf); eauto). rewrite Hi in Hj. by injection Hj as <-.
    + exfalso. apply find_none with (x := {| arp_ip := ip; arp_mac := mac; arp_valid := true |}) in E.
      * apply not_true_iff_false in E. apply E. by apply hit_true.
      * apply list_elem_of_In, list_elem_of_lookup. by exists i.
Qed.

Lemma arp_lookup_None s ip :
  arp_wf s -> arp_lookup ip s = None <-> forall i mac, ~ cached s i ip mac.
Proof.
  intros Hwf. destruct (arp_lookup ip s) as [m|] eqn:E.
  - split; [done|]. intros H. apply arp_lookup_Some in E as [i Hi]; [|done]. by destruct (H i m).
  - split; [|done]. intros _ i mac Hi.
    assert (arp_lookup ip s = Some mac) by (apply arp_lookup_Some; eauto). congruence.
Qed.

Lemma store_first_Some p ip mac c c' :
  store_first p ip mac c = Some c' <->
  exists i e, find_index p c = Some i /\ c !! i = Some e /\ p e = true /\
    c' = <[i := {| arp_ip := ip; arp_mac := mac; arp_valid := true |}]> c.
Proof.
  unfold store_first. destruct (find_index p c) as [i|] eqn:E; simpl.
  - pose proof E as E0. apply find_index_Some in E as [(e & He & Hp) _]. split.
    + intros E. injection E as <-. by exists i, e.
    + intros (i' & e' & E & _ & _ & ->). by injection E as <-.
  - split; [done|]. by intros (i & e & ? & _).
Qed.

Lemma store_wf s i e ip mac :
  arp_wf s -> arp_cache s !! i = Some e ->
  (forall j e', (j < i)%nat -> arp_cache s !! j = Some e' -> arp_valid e' = true) ->
  (forall j m, cached s j ip m -> j = i) ->
  arp_wf (with_cache (<[i := {| arp_ip := ip; arp_mac := mac; arp_valid := true |}]> (arp_cache s)) s).
Proof.
  intros [Hlen Hun Hpre] Hi Hlow Hip. pose proof (lookup_lt_Some _ _ _ Hi) as Hlt.
  constructor; cbn.
  - by rewrite length_insert.
  - intros a b x y Ha Hb Hx Hy Hxy. apply list_lookup_insert_Some in Ha, Hb.
    destruct Ha as [(<- & <- & _)|[Hna Ha]], Hb as [(<- & <- & _)|[Hnb Hb]]; cbn in *; try done.
    + symmetry. apply (Hip b (arp_mac y)). unfold cached. rewrite Hb. destruct y; simpl in *. by subst.
    + apply (Hip a (arp_mac x)). unfold cached. rewrite Ha. destruct x; simpl in *. by subst.
    + by eapply Hun.
  - intros a b x y Hab Ha Hb Hy. apply list_lookup_insert_Some in Ha, Hb.
    destruct Ha as [(<- & <- & _)|[Hna Ha]]; [done|].
    destruct Hb as [(<- & <- & _)|[Hnb Hb]]; [by eapply Hlow|by eapply Hpre].
Qed.

(** What a store changes: its own address, and the address it displaced. *)
Lemma store_lookup s i e ip mac x :
  arp_wf s -> arp_cache s !! i = Some e ->
  let s' := with_cache (<[i := {| arp_ip := ip; arp_mac := mac; arp_valid := true |}]> (arp_cache s)) s in
  arp_wf s' ->
  arp_lookup x s' =
    if bytes_eqb x ip then Some mac
    else if arp_valid e && bytes_eqb (arp_ip e) x then None else arp_lookup x s.
Proof.
  intros Hwf Hi s' Hwf'. pose proof (lookup_lt_Some _ _ _ Hi) as Hlt.
  destruct (bytes_eqb x ip) eqn:E1.
  - apply bytes_eqb_eq in E1 as ->. apply arp_lookup_Some; [done|]. exists i. unfold cached. cbn.
    by rewrite list_lookup_insert_eq.
  - apply bytes_eqb_neq in E1. destruct (arp_valid e && _) eqn:E2.
    + apply andb_true_iff in E2 as [Hv He%bytes_eqb_eq]. apply arp_lookup_None; [done|].
      intros j m Hj. unfold cached in Hj. cbn in Hj. apply list_lookup_insert_Some in Hj as [(_ & E & _)|[Hn Hj]].
      * injection E as -> ->. done.
      * apply Hn. eapply (aw_unique s Hwf); eauto.
    + assert (Hcached : forall m, (exists j, cached s' j x m) <-> exists j, cached s j x m).
      { intros m. unfold cached. cbn. split; intros [j Hj]; exists j.
        - apply list_lookup_insert_Some in Hj as [(_ & E & _)|[_ Hj]]; [by injection E as -> ->|done].
        - rewrite list_lookup_insert_ne; [done|]. intros <-. rewrite Hi in Hj. injection Hj as ->.
          cbn in E2. by rewrite bytes_eqb_refl in E2. }
      destruct (arp_lookup x s) as [m|] eqn:Em.
      * apply arp_lookup_Some; [done|]. apply Hcached. by apply arp_lookup_Some in Em.
      * apply arp_lookup_None; [done|]. intros j m Hj.
        assert (Hex : exists j, cached s j x m) by (apply Hcached; by exists j).
        apply arp_lookup_Some in Hex; [congruence|done].
Qed.

(** The effect of [arp_insert]: nothing, or one new address that was not cached,
    in a free slot or over one entry of a full cache that is not the gateway's. *)
Lemma arp_insert_effect ip mac s v s' :
  arp_wf s -> arp_insert ip mac s = (v, s') ->
  s' = s \/
  (exists i e, v = Learned /\ arp_lookup ip s = None /\ ip <> [0; 0; 0; 0] /\ ip <> arp_gateway s /\
     arp_cache s !! i = Some e /\
     s' = with_cache (<[i := {| arp_ip := ip; arp_mac := mac; arp_valid := true |}]> (arp_cache s)) s /\
     (arp_valid e = false \/
      (0 < i)%nat /\ arp_ip e <> arp_gateway s /\ Forall (fun e => arp_valid e = true) (arp_cache s)) /\
     (forall j e', (j < i)%nat -> arp_cache s !! j = Some e' -> arp_valid e' = true)).
Proof.
  intros Hwf. unfold arp_insert, classify_insert.
  destruct (arp_lookup ip s) as [m|] eqn:El; [destruct (bytes_eqb m mac); intros E; simplify_eq; by left|].
  destruct (bytes_eqb ip [0; 0; 0; 0]) eqn:E0; [intros E; simplify_eq; by left|].
  destruct (bytes_eqb ip (arp_gateway s)) eqn:Eg; [intros E; simplify_eq; by left|].
  apply bytes_eqb_neq in E0, Eg.
  destruct (store_first _ _ _ (arp_cache s)) as [c|] eqn:Es.
  - intros E. injection E as <- <-. right.
    apply store_first_Some in Es as (i & e & Hf & Hi & Hp & ->). exists i, e. apply negb_true_iff in Hp.
    apply find_index_Some in Hf as [_ Hlow]. split_and!; try done; [by left|].
    intros j e' Hj Hje. specialize (Hlow j e' Hj Hje). by apply negb_false_iff in Hlow.
  - assert (Hall : Forall (fun e => arp_valid e = true) (arp_cache s)).
    { unfold store_first in Es. destruct (find_index _ _) eqn:Ef; [done|]. apply find_index_None in Ef.
      eapply Forall_impl; [exact Ef|]. intros e He. by apply negb_false_iff in He. }
    unfold evict. destruct (arp_cache s) as [|e0 r] eqn:Ec; [intros E; simplify_eq; by left|].
    destruct (store_first _ ip mac r) as [c|] eqn:Es2; simpl; [|intros E; simplify_eq; by left].
    intros E. injection E as <- <-. right.
    apply store_first_Some in Es2 as (i & e & Hf & Hi & Hp & ->). exists (S i), e.
    apply negb_true_iff, bytes_eqb_neq in Hp. split_and!; try done; [right; split_and!; [lia|done|done]|].
    intros j e' _ Hje. by eapply Forall_lookup_1 in Hall.
Qed.

Lemma arp_insert_wf ip mac s v s' : arp_wf s -> arp_insert ip mac s = (v, s') -> arp_wf s'.
Proof.
  intros Hwf H. destruct (arp_insert_effect _ _ _ _ _ Hwf H) as [->|(i & e & _ & Hl & _ & _ & Hi & -> & _ & Hlow)]; [done|].
  apply (store_wf s i e); [done..|]. intros j m Hj. exfalso. by apply (proj1 (arp_lookup_None s ip Hwf) Hl j m).
Qed.

Lemma init_wf : arp_wf init.
Proof.
  constructor; [done| |].
  - intros i j e e' Hi _ Hv. apply lookup_replicate in Hi as [-> _]. done.
  - intros i j e e' _ _ Hj Hv. apply lookup_replicate in Hj as [-> _]. done.
Qed.

Lemma add_static_wf ip mac s : arp_wf s -> arp_wf (add_static ip mac s) .
Proof.
  intros Hwf. unfold add_static. destruct (store_first _ _ _ _) as [c|] eqn:Es; [|done].
  apply store_first_Some in Es as (i & e & Hf & Hi & Hp & ->).
  apply find_index_Some in Hf as [_ Hlow].
  assert (Hlow' : forall j e', (j < i)%nat -> arp_cache s !! j = Some e' -> arp_valid e' = true /\ arp_ip e' <> ip).
  { intros j e' Hj Hje. specialize (Hlow j e' Hj Hje). apply orb_false_iff in Hlow as [H1 H2].
    apply negb_false_iff in H1. by apply bytes_eqb_neq in H2. }
  apply (store_wf s i e); [done|done|by intros; eapply Hlow'|].
  intros j m Hj. destruct (Nat.lt_trichotomy j i) as [Hlt|[->|Hgt]]; [|done|].
  - by destruct (Hlow' j _ Hlt Hj) as [_ []].
  - apply orb_true_iff in Hp as [Hp|Hp].
    + apply negb_true_iff in Hp. pose proof (aw_prefix s Hwf i j _ _ Hgt Hi Hj eq_refl). congruence.
    + apply bytes_eqb_eq in Hp. assert (arp_valid e = true) by (eapply (aw_prefix s Hwf i j); eauto).
      symmetry. eapply (aw_unique s Hwf); eauto.
Qed.

Lemma handle_state payload our_ip our_mac s r s' :
  handle payload our_ip our_mac s = (r, s') ->
  s' = s \/ s' = (arp_insert (slice 14 18 payload) (slice 8 14 payload) s).2.
Proof.
  unfold handle. repeat (case_match; [intros; simplify_eq; by left|]).
  destruct (arp_insert _ _ s) as [v s1] eqn:E. simpl.
  repeat case_match; intros; simplify_eq; by right.
Qed.

Lemma handle_wf payload our_ip our_mac s r s' :
  arp_wf s -> handle payload our_ip our_mac s = (r, s') -> arp_wf s'.
Proof.
  intros Hwf [->| ->]%handle_state; [done|]. destruct (arp_insert _ _ s) as [v s1] eqn:E. by eapply arp_insert_wf.
Qed.

Lemma arp_insert_lookup ip mac s v s' x :
  arp_wf s -> arp_insert ip mac s = (v, s') ->
  arp_lookup x s' = arp_lookup x s \/
  (x = ip /\ x <> arp_gateway s /\ x <> [0; 0; 0; 0] /\ arp_lookup x s = None /\ arp_lookup x s' = Some mac) \/
  (x <> ip /\ x <> arp_gateway s /\ arp_lookup x s' = None /\
   Forall (fun e => arp_valid e = true) (arp_cache s)).
Proof.
  intros Hwf H. pose proof (arp_insert_wf _ _ _ _ _ Hwf H) as Hwf'.
  destruct (arp_insert_effect _ _ _ _ _ Hwf H) as [->|(i & e & _ & Hl & H0 & Hg & Hi & -> & Hold & _)]; [by left|].
  rewrite (store_lookup s i e) by done.
  destruct (bytes_eqb x ip) eqn:Ex; [apply bytes_eqb_eq in Ex as ->; right; by left|].
  destruct (arp_valid e && bytes_eqb (arp_ip e) x) eqn:Ee; [|by left].
  apply andb_true_iff in Ee as [Hv He%bytes_eqb_eq]. apply bytes_eqb_neq in Ex. subst x.
  destruct Hold as [?|(_ & Hne & Hfull)]; [congruence|]. right. right. done.
Qed.

(** The states of a cache driven by what the kernel configures and what arrives. *)
Inductive arp_step (our_ip our_mac : bytes) : ArpState -> ArpState -> Prop :=
| step_packet s payload : arp_step our_ip our_mac s (handle payload our_ip our_mac s).2
| step_gateway s gw : arp_step our_ip our_mac s (set_gateway gw s)
| step_static s ip mac : arp_step our_ip our_mac s (add_static ip mac s).

Lemma arp_step_wf our_ip our_mac s s' : arp_step our_ip our_mac s s' -> arp_wf s -> arp_wf s'.
Proof.
  intros [?|? ?|? ? ?] Hwf.
  - destruct (handle _ _ _ _) as [r s1] eqn:E. by eapply handle_wf.
  - destruct Hwf. by constructor.
  - by apply add_static_wf.
Qed.

Lemma arp_reachable_wf our_ip our_mac s : rtc (arp_step our_ip our_mac) init s -> arp_wf s.
Proof.
  intros H. remember init as s0 eqn:E0. assert (Hwf : arp_wf s0) by (subst; apply init_wf). clear E0.
  induction H as [|s1 s2 s3 H1 _ IH]; [done|]. apply IH. by eapply arp_step_wf.
Qed.

(** in every cache the kernel can reach from its initial one, whatever packets
    arrived, a received packet never replaces the MAC of an address: a cached address
    keeps its MAC, except that a full cache may lose an address that is not the
    gateway's; the only address a packet can add is its sender's own, with the
    sender's MAC, and never the gateway or 0.0.0.0. *)
Theorem arp_first_mapping_wins our_ip our_mac payload s r s' x :
  rtc (arp_step our_ip our_mac) init s ->
  handle payload our_ip our_mac s = (r, s') ->
  (forall m, arp_lookup x s = Some m ->
     arp_lookup x s' = Some m \/
     (arp_lookup x s' = None /\ x <> arp_gateway s /\ Forall (fun e => arp_valid e = true) (arp_cache s))) /\
  (forall m, arp_lookup x s = None -> arp_lookup x s' = Some m ->
     x = slice 14 18 payload /\ m = slice 8 14 payload /\ x <> arp_gateway s /\ x <> [0; 0; 0; 0]).
Proof.
  intros Hwf%arp_reachable_wf [->| ->]%handle_state; [split; intros; [by left|congruence]|].
  destruct (arp_insert _ _ s) as [v s1] eqn:E. simpl.
  destruct (arp_insert_lookup _ _ _ _ _ x Hwf E) as [H|[(-> & Hg & H0 & HN & HS)|(Hne & Hg & HN & Hf)]].
  - rewrite H. split; [by left|congruence].
  - split; [congruence|]. intros m _ Hm. rewrite HS in Hm. by injection Hm as <-.
  - split; [by right|congruence].
Qed.

Definition demo_ip (i : Z) : bytes := [10; 0; 2; i].
Definition demo_mac (i : Z) : bytes := [2; 0; 0; 0; 0; i].
(** A request for [10.0.2.15] from [demo_ip i] at [mac]. *)
Definition demo_request (i : Z) (mac : bytes) : bytes :=
  drop 14 (arp_packet mac (demo_ip i) [0; 0; 0; 0; 0; 0] (demo_ip 15) ARP_REQUEST).

Lemma arp_first_mapping_wins_witness :
  let s := (handle (demo_request 7 (demo_mac 7)) (demo_ip 15) (demo_mac 15) init).2 in
  let s' := (handle (demo_request 7 (demo_mac 66)) (demo_ip 15) (demo_mac 15) s).2 in
  arp_lookup (demo_ip 7) s = Some (demo_mac 7) /\
  (arp_lookup (demo_ip 7) s' = Some (demo_mac 7) \/
   (arp_lookup (demo_ip 7) s' = None /\ demo_ip 7 <> arp_gateway s /\
    Forall (fun e => arp_valid e = true) (arp_cache s))).
Proof.
  intros s s'. split; [by vm_compute|].
  eapply (arp_first_mapping_wins (demo_ip 15) (demo_mac 15) (demo_request 7 (demo_mac 66)) s
            (handle (demo_request 7 (demo_mac 66)) (demo_ip 15) (demo_mac 15) s).1 s').
  - apply rtc_once. apply step_packet.
  - by vm_compute.
  - by vm_compute.
Defined.

(** ** The reply on the wire *)

Lemma arp_packet_eq smac sip dmac dip op :
  length smac = 6%nat -> length sip = 4%nat -> length dmac = 6%nat -> length dip = 4%nat -> 
  arp_packet smac sip dmac dip op =
    dmac ++ smac ++ be16_bytes ETH_ARP ++
    (be16_bytes HARDWARE_TYPE_ETH ++ be16_bytes PROTOCOL_TYPE_IPV4 ++ [6; 4] ++ be16_bytes op ++
     smac ++ sip ++ dmac ++ dip).
Proof.
  intros (a1&a2&a3&a4&a5&a6&->)%length_6_inv (b1&b2&b3&b4&->)%length_4_inv
         (c1&c2&c3&c4&c5&c6&->)%length_6_inv (d1&d2&d3&d4&->)%length_4_inv.
  reflexivity.
Qed.

Lemma handle_reply payload our_ip our_mac s r s' :
  handle payload our_ip our_mac s = (Some r, s') ->
  (28 <= length payload)%nat /\ slice 24 28 payload = our_ip /\
  r = build_reply our_mac our_ip (slice 8 14 payload) (slice 14 18 payload).
Proof.
  unfold handle, target_address. destruct (length payload <? 28)%nat eqn:El; [done|].
  apply Nat.ltb_ge in El. repeat (case_match; [done|]).
  destruct (arp_insert _ _ s) as [v s1]. case_match; [|done].
  destruct (bytes_eqb (slice 24 28 payload) our_ip) eqn:Et; simpl; [|done].
  apply bytes_eqb_eq in Et. intros E. injection E as <- _. done.
Qed.

(** A host with an empty cache learns from a reply. *)
Lemma handle_learns smac sip dmac dip ip mac gw :
  length smac = 6%nat -> length sip = 4%nat -> length dmac = 6%nat -> length dip = 4%nat ->
  sip <> [0; 0; 0; 0] -> sip <> gw ->
  (handle (drop 14 (dmac ++ smac ++ be16_bytes ETH_ARP ++
     be16_bytes HARDWARE_TYPE_ETH ++ be16_bytes PROTOCOL_TYPE_IPV4 ++ [6; 4] ++ be16_bytes ARP_REPLY ++
     smac ++ sip ++ dmac ++ dip)) ip mac (set_gateway gw init)).2 =
  with_cache ({| arp_ip := sip; arp_mac := smac; arp_valid := true |} :: drop 1 (arp_cache init))
    (set_gateway gw init).
Proof.
  intros (a1&a2&a3&a4&a5&a6&->)%length_6_inv (b1&b2&b3&b4&->)%length_4_inv
         (c1&c2&c3&c4&c5&c6&->)%length_6_inv (d1&d2&d3&d4&->)%length_4_inv
         E0%bytes_eqb_neq Eg%bytes_eqb_neq.
  unfold handle. simpl. unfold slice. simpl. unfold arp_insert.
  change (arp_lookup _ (set_gateway gw init)) with (@None bytes). unfold classify_insert. rewrite E0.
  change (arp_gateway (set_gateway gw init)) with gw. by rewrite Eg.
Qed.

Lemma lookup_learnt ip mac gw x :
  arp_lookup x (with_cache ({| arp_ip := ip; arp_mac := mac; arp_valid := true |} :: drop 1 (arp_cache init))
    (set_gateway gw init)) = if bytes_eqb x ip then Some mac else None.
Proof.
  unfold arp_lookup. simpl. unfold hit at 1. simpl.
  destruct (bytes_eqb x ip) eqn:E.
  - apply bytes_eqb_eq in E as ->. by rewrite bytes_eqb_refl.
  - apply bytes_eqb_neq in E. assert (E' : bytes_eqb ip x = false) by (by apply bytes_eqb_neq).
    by rewrite E'.
Qed.

(** the answer to an ARP request is one an ARP implementation accepts. When a
    well-formed request for our address arrives, the reply frame is addressed to the
    sender, from our MAC, with the ARP ethertype; and a host with an empty cache that
    handles its payload learns exactly that our address is at our MAC. *)
Theorem arp_reply_teaches payload our_ip our_mac s r s' gw :
  length our_ip = 4%nat -> length our_mac = 6%nat -> our_ip <> [0; 0; 0; 0] -> our_ip <> gw ->
  handle payload our_ip our_mac s = (Some r, s') ->
  let peer := (handle (drop 14 r) (slice 14 18 payload) (slice 8 14 payload) (set_gateway gw init)).2 in
  slice 24 28 payload = our_ip /\
  Ethernet.parse r =
    Some ({| dst_mac := slice 8 14 payload; src_mac := our_mac; ether_type := ETH_ARP |}, drop 14 r) /\
  forall x, arp_lookup x peer = if bytes_eqb x our_ip then Some our_mac else None.
Proof.
  intros Hip Hmac H0 Hgw (Hlen & Htgt & ->)%handle_reply.
  assert (Hm : length (slice 8 14 payload) = 6%nat) by (apply length_slice; lia).
  assert (Hs : length (slice 14 18 payload) = 4%nat) by (apply length_slice; lia).
  revert Hm Hs. generalize (slice 8 14 payload) as rmac, (slice 14 18 payload) as rip. intros rmac rip Hm Hs.
  unfold build_reply. rewrite arp_packet_eq by done. split_and!; [done| |].
  - rewrite !(app_assoc _ our_mac), !(app_assoc _ (be16_bytes ETH_ARP)).
    assert (E : (rmac ++ our_mac) ++ be16_bytes ETH_ARP = eth_header rmac our_mac ETH_ARP)
      by (unfold eth_header; by rewrite <- app_assoc).
    rewrite E, parse_eth_header, drop_app_length' by (done || (unfold eth_header; rewrite !length_app; simpl; lia)).
    done.
  - intros x. rewrite handle_learns by done. apply lookup_learnt.
Qed.


Lemma arp_reply_teaches_witness :
  let r := build_reply (demo_mac 15) (demo_ip 15) (demo_mac 7) (demo_ip 7) in
  let peer := (handle (drop 14 r) (demo_ip 7) (demo_mac 7) (set_gateway (demo_ip 1) init)).2 in
  (handle (demo_request 7 (demo_mac 7)) (demo_ip 15) (demo_mac 15) init).1 = Some r /\
  forall x, arp_lookup x peer = if bytes_eqb x (demo_ip 15) then Some (demo_mac 15) else None.
Proof.
  intros r peer. split; [by vm_compute|].
  apply (arp_reply_teaches (demo_request 7 (demo_mac 7)) (demo_ip 15) (demo_mac 15) init r
           (handle (demo_request 7 (demo_mac 7)) (demo_ip 15) (demo_mac 15) init).2 (demo_ip 1));
    by vm_compute.
Defined.

(** ** Eviction *)

Lemma handle_packet smac sip dmac dip op ip mac s :
  length smac = 6%nat -> length sip = 4%nat -> length dmac = 6%nat -> length dip = 4%nat -> is_u16 op ->
  (handle (drop 14 (arp_packet smac sip dmac dip op)) ip mac s).2 = (arp_insert sip smac s).2.
Proof.
  intros H1 H2 H3 H4 Hop. rewrite arp_packet_eq by done. revert H1 H2 H3 H4.
  intros (a1&a2&a3&a4&a5&a6&->)%length_6_inv (b1&b2&b3&b4&->)%length_4_inv
         (c1&c2&c3&c4&c5&c6&->)%length_6_inv (d1&d2&d3&d4&->)%length_4_inv.
  unfold handle. simpl. unfold slice. simpl. destruct (arp_insert _ _ s) as [v s1].
  repeat case_match; done.
Qed.

(** With every slot valid, a new address goes into slot 1. *)
Lemma arp_insert_full s e0 e1 r ip mac :
  arp_cache s = e0 :: e1 :: r -> Forall (fun e => arp_valid e = true) (arp_cache s) ->
  arp_ip e1 <> arp_gateway s -> ip <> [0; 0; 0; 0] -> ip <> arp_gateway s -> arp_lookup ip s = None ->
  (arp_insert ip mac s).2 =
    with_cache (<[1%nat := {| arp_ip := ip; arp_mac := mac; arp_valid := true |}]> (arp_cache s)) s.
Proof.
  intros Hc Hall Hne%bytes_eqb_neq H0%bytes_eqb_neq Hg%bytes_eqb_neq Hl.
  unfold arp_insert, classify_insert. rewrite Hl, H0, Hg.
  assert (E : store_first (fun e => negb (arp_valid e)) ip mac (arp_cache s) = None).
  { unfold store_first. assert (find_index (fun e => negb (arp_valid e)) (arp_cache s) = None) as ->; [|done].
    apply find_index_None. eapply Forall_impl; [exact Hall|]. intros e He. by rewrite He. }
  rewrite E. unfold evict. rewrite Hc. unfold store_first, find_index. simpl. by rewrite Hne.
Qed.

Definition arp_claim (ip mac : bytes) : bytes :=
  drop 14 (arp_packet mac ip [0; 0; 0; 0; 0; 0] [0; 0; 0; 0] ARP_REPLY).

(** the rule that a cached MAC is never replaced does not survive a full cache.
    When all sixteen slots are in use, one reply from an uncached address displaces
    the entry in slot 1, and a second reply then binds the displaced address to any
    MAC its sender chooses. *)
Theorem arp_full_cache_poisoned our_ip our_mac s e1 fresh evil :
  rtc (arp_step our_ip our_mac) init s ->
  Forall (fun e => arp_valid e = true) (arp_cache s) -> arp_cache s !! 1%nat = Some e1 ->
  length (arp_ip e1) = 4%nat -> arp_ip e1 <> arp_gateway s -> arp_ip e1 <> [0; 0; 0; 0] ->
  length fresh = 4%nat -> fresh <> [0; 0; 0; 0] -> fresh <> arp_gateway s -> arp_lookup fresh s = None ->
  length evil = 6%nat ->
  let s1 := (handle (arp_claim fresh evil) our_ip our_mac s).2 in
  let s2 := (handle (arp_claim (arp_ip e1) evil) our_ip our_mac s1).2 in
  arp_lookup (arp_ip e1) s = Some (arp_mac e1) /\ arp_lookup (arp_ip e1) s2 = Some evil.
Proof.
  intros Hwf%arp_reachable_wf Hall H1 Hl1 Hg1 Hz1 Hlf Hzf Hgf Hf Hev s1 s2.
  assert (Hin : arp_lookup (arp_ip e1) s = Some (arp_mac e1)).
  { apply arp_lookup_Some; [done|]. exists 1%nat. unfold cached. rewrite H1. f_equal.
    pose proof (Forall_lookup_1 _ _ _ _ Hall H1) as Hv. destruct e1; simpl in *. by subst. }
  split; [done|]. assert (Hne : arp_ip e1 <> fresh) by congruence.
  destruct (arp_cache s) as [|e0 [|e1' r]] eqn:Hc; try done. simpl in H1. injection H1 as ->.
  set (new := {| arp_ip := fresh; arp_mac := evil; arp_valid := true |}).
  assert (E1 : s1 = with_cache (<[1%nat := new]> (arp_cache s)) s).
  { subst s1. unfold arp_claim. rewrite handle_packet by done. rewrite <- Hc in Hall. by eapply arp_insert_full. }
  assert (Hwf1 : arp_wf s1).
  { subst s1. destruct (handle _ _ _ s) eqn:E. by eapply handle_wf. }
  assert (Hl : arp_lookup (arp_ip e1) s1 = None).
  { rewrite E1 in Hwf1 |- *. unfold new in *. rewrite (store_lookup s 1 e1) by (done || by rewrite Hc).
    apply bytes_eqb_neq in Hne as ->. apply Forall_cons in Hall as [_ [Hv _]%Forall_cons].
    by rewrite Hv, bytes_eqb_refl. }
  assert (E2 : s2 = (arp_insert (arp_ip e1) evil s1).2) by (subst s2; unfold arp_claim; by rewrite handle_packet).
  destruct (arp_insert (arp_ip e1) evil s1) as [v s2'] eqn:Ei. simpl in E2. rewrite E2.
  pose proof (arp_insert_wf _ _ _ _ _ Hwf1 Ei) as Hwf2.
  assert (Es2 : s2' = with_cache (<[1%nat := {| arp_ip := arp_ip e1; arp_mac := evil; arp_valid := true |}]>
                   (arp_cache s1)) s1).
  { change s2' with ((v, s2').2). rewrite <- Ei. rewrite E1 in Hl |- *.
    apply (arp_insert_full _ e0 new r); [cbn; by rewrite Hc| |done..]. cbn. rewrite Hc.
    apply Forall_cons in Hall as [? [? ?]%Forall_cons]. by repeat constructor. }
  rewrite Es2 in Hwf2 |- *. rewrite (store_lookup s1 1 new); [by rewrite bytes_eqb_refl|done| |done].
  rewrite E1. cbn. by rewrite Hc.
Qed.


Definition receive_all (our_ip our_mac : bytes) (l : list bytes) (s : ArpState) : ArpState :=
  foldl (fun s payload => (handle payload our_ip our_mac s).2) s l.

Lemma receive_all_reachable our_ip our_mac l s0 s :
  rtc (arp_step our_ip our_mac) s0 s -> rtc (arp_step our_ip our_mac) s0 (receive_all our_ip our_mac l s).
Proof.
  revert s. induction l as [|p l IH]; intros s H; [done|]. apply IH. eapply rtc_r; [done|]. apply step_packet.
Qed.

(** Sixteen hosts fill the cache. *)
Definition demo_full : ArpState :=
  receive_all (demo_ip 15) (demo_mac 15) ((fun i => arp_claim (demo_ip i) (demo_mac i)) <$> seqZ 20 16) init.

Lemma arp_full_cache_poisoned_witness :
  let s1 := (handle (arp_claim (demo_ip 66) (demo_mac 66)) (demo_ip 15) (demo_mac 15) demo_full).2 in
  let s2 := (handle (arp_claim (demo_ip 21) (demo_mac 66)) (demo_ip 15) (demo_mac 15) s1).2 in
  arp_lookup (demo_ip 21) demo_full = Some (demo_mac 21) /\ arp_lookup (demo_ip 21) s2 = Some (demo_mac 66).
Proof.
  apply (arp_full_cache_poisoned (demo_ip 15) (demo_mac 15) demo_full
           {| arp_ip := demo_ip 21; arp_mac := demo_mac 21; arp_valid := true |} (demo_ip 66) (demo_mac 66)
           (receive_all_reachable _ _ _ _ _ (rtc_refl _ _))); try by vm_compute.
  vm_compute. repeat constructor.
Defined.

End ArpProofs.

Module RoutingProofs.
Import Routing.

#[local] Arguments prefix_len : simpl never.
#[local] Arguments ip_masked : simpl never.

Definition route_matches (ip : bytes) (r : Route) : Prop := ip_masked ip (r_mask r) = r_dest r.

(** Slot [i] holds the first route of [t] among the matching ones with the longest prefix. *)
Definition best_route (ip : bytes) (t : list (option Route)) (i : nat) (r : Route) : Prop :=
  t !! i = Some (Some r) /\ route_matches ip r /\
  forall j r', t !! j = Some (Some r') -> route_matches ip r' ->
    prefix_len (r_mask r') <= prefix_len (r_mask r) /\
    (prefix_len (r_mask r') = prefix_len (r_mask r) -> (i <= j)%nat).

Definition no_route (ip : bytes) (t : list (option Route)) : Prop :=
  forall j r, t !! j = Some (Some r) -> ~ route_matches ip r.

Definition verdict (r : Route) : GatewayAction * nat * Z :=
  (gateway_action (r_gateway r), r_iface r, prefix_len (r_mask r)).

(** What the loop holds after the slots [t]. *)
Definition found (ip : bytes) (t : list (option Route)) (b : option (GatewayAction * nat * Z)) : Prop :=
  match b with
  | Some v => exists i r, best_route ip t i r /\ v = verdict r
  | None => no_route ip t
  end.

Lemma lookup_snoc {A} (l : list A) x j y :
  (l ++ [x]) !! j = Some y <-> l !! j = Some y \/ (j = length l /\ y = x).
Proof.
  rewrite lookup_app_Some, list_lookup_singleton_Some. split.
  - intros [?|[? [? ->]]]; [by left|]. right. split; [lia|done].
  - intros [?|[-> ->]]; [by left|]. right. split; [done|]. split; [lia|done].
Qed.

Lemma no_route_snoc ip t x :
  no_route ip t -> (forall r, x = Some r -> ~ route_matches ip r) -> no_route ip (t ++ [x]).
Proof. intros Ht Hx j r [H|[_ <-]]%lookup_snoc; [by eapply Ht|by apply Hx]. Qed.

Lemma best_route_snoc ip t x i r :
  best_route ip t i r ->
  (forall r', x = Some r' -> route_matches ip r' -> prefix_len (r_mask r') <= prefix_len (r_mask r)) ->
  best_route ip (t ++ [x]) i r.
Proof.
  intros (Hi & Hm & Hb) Hx. split_and!; [by apply lookup_snoc; left|done|].
  intros j r' [H|[-> <-]]%lookup_snoc Hr'; [by apply Hb|]. split; [by apply Hx|].
  intros _. apply lookup_lt_Some in Hi. lia.
Qed.

Lemma best_route_new ip t r :
  route_matches ip r ->
  (forall j r', t !! j = Some (Some r') -> route_matches ip r' -> prefix_len (r_mask r') < prefix_len (r_mask r)) ->
  best_route ip (t ++ [Some r]) (length t) r.
Proof.
  intros Hm Hb. split_and!; [by apply lookup_snoc; right|done|].
  intros j r' [H|[-> E]]%lookup_snoc Hr'; [|by injection E as ->].
  specialize (Hb j r' H Hr'). split; lia.
Qed.

Lemma better_found ip t b x : found ip t b -> found ip (t ++ [x]) (better ip b x).
Proof.
  intros Hb. destruct x as [r|]; cbn [better]; [|destruct b as [v|]; cbn in *].
  - destruct (bytes_eqb (ip_masked ip (r_mask r)) (r_dest r)) eqn:Em; cbn.
    + apply bytes_eqb_eq in Em. destruct b as [[[g f] n]|]; cbn in *.
      * destruct Hb as (i & r0 & Hbest & E). injection E as -> -> ->.
        destruct (Z.ltb_spec (prefix_len (r_mask r0)) (prefix_len (r_mask r))) as [Hlt|Hge]; cbn.
        -- exists (length t), r. split; [|done]. apply best_route_new; [done|].
           intros j r' Hj Hr'. destruct Hbest as (_ & _ & Hb). destruct (Hb j r' Hj Hr'). lia.
        -- exists i, r0. split; [|done]. apply best_route_snoc; [done|]. intros r' E' _. by injection E' as <-.
      * exists (length t), r. split; [|done]. apply best_route_new; [done|]. intros j r' Hj Hr'. by destruct (Hb j r' Hj).
    + apply bytes_eqb_neq in Em. destruct b as [v|]; cbn in *.
      * destruct Hb as (i & r0 & Hbest & ->). exists i, r0. split; [|done].
        apply best_route_snoc; [done|]. intros r' E' Hr'. by injection E' as <-.
      * apply no_route_snoc; [done|]. intros r' E'. by injection E' as <-.
  - destruct Hb as (i & r0 & Hbest & ->). exists i, r0. split; [|done]. by apply best_route_snoc.
  - by apply no_route_snoc.
Qed.

Lemma loop_found ip t : found ip t (foldl (better ip) None t).
Proof.
  induction t as [|x t IH] using rev_ind; [intros j r; by rewrite lookup_nil|].
  rewrite foldl_snoc. by apply better_found.
Qed.

(** [lookup] is longest-prefix routing. A result is the gateway and interface of a
    route that matches the address, no matching route has a longer prefix, and it is
    the first such route; no result means that no route matches. *)
Theorem route_longest_prefix ip t :
  match lookup ip t with
  | Some (gw, iface) =>
      exists i r, best_route ip t i r /\ gw = gateway_action (r_gateway r) /\ iface = r_iface r
  | None => no_route ip t
  end.
Proof.
  unfold lookup. pose proof (loop_found ip t) as H.
  destruct (foldl (better ip) None t) as [[[g f] n]|]; [|done].
  destruct H as (i & r & Hb & E). injection E as -> -> ->. by exists i, r.
Qed.

End RoutingProofs.

Module FirewallProofs.
Import Firewall.

(** What a rule of the table means. *)
Record admits (p : PacketInfo) (est : bool) (r : FirewallRule) : Prop := {
  ad_enabled : fr_enabled r = true;
  ad_proto : fr_proto r = AnyProto \/ fr_proto r = pi_proto p;
  ad_src : forall j, (j < 4)%nat ->
    Z.land (byte_at (pi_src_ip p) j) (byte_at (fr_src_mask r) j) =
    Z.land (byte_at (fr_src_ip r) j) (byte_at (fr_src_mask r) j);
  ad_dst : forall j, (j < 4)%nat ->
    Z.land (byte_at (pi_dst_ip p) j) (byte_at (fr_dst_mask r) j) =
    Z.land (byte_at (fr_dst_ip r) j) (byte_at (fr_dst_mask r) j);
  ad_ports : pi_proto p = Tcp \/ pi_proto p = UdpProto ->
    (fr_src_port r = 0 \/ fr_src_port r = pi_src_port p) /\
    (fr_dst_port r = 0 \/ fr_dst_port r = pi_dst_port p);
  ad_est : fr_established r = true -> est = true;
}.

Lemma masked_eq_true a b m :
  masked_eq a b m = true <->
  forall j, (j < 4)%nat -> Z.land (byte_at a j) (byte_at m j) = Z.land (byte_at b j) (byte_at m j).
Proof.
  unfold masked_eq. rewrite forallb_forall. split.
  - intros H j Hj. apply Z.eqb_eq, H, in_seq. lia.
  - intros H j Hj%in_seq. apply Z.eqb_eq, H. lia.
Qed.

Lemma port_true (want got : Z) :
  negb (negb (want =? 0) && negb (want =? got)) = true <-> want = 0 \/ want = got.
Proof. destruct (Z.eqb_spec want 0), (Z.eqb_spec want got); cbn; split; intros; auto; try done; destruct_or!; done. Qed.

Lemma rule_matches_admits p est r : rule_matches p est r = true <-> admits p est r.
Proof.
  unfold rule_matches. rewrite !andb_true_iff, !masked_eq_true.
  assert (Hports : (if bool_decide (pi_proto p = Tcp) || bool_decide (pi_proto p = UdpProto)
      then negb (negb (fr_src_port r =? 0) && negb (fr_src_port r =? pi_src_port p))
        && negb (negb (fr_dst_port r =? 0) && negb (fr_dst_port r =? pi_dst_port p))
      else true) = true <->
      (pi_proto p = Tcp \/ pi_proto p = UdpProto ->
       (fr_src_port r = 0 \/ fr_src_port r = pi_src_port p) /\ (fr_dst_port r = 0 \/ fr_dst_port r = pi_dst_port p))).
  { repeat case_bool_decide; cbn; rewrite ?andb_true_iff, ?port_true; naive_solver. }
  rewrite Hports. clear Hports. split.
  - intros (((((H1 & H2) & H3) & H4) & H5) & H6). constructor; try done.
    + repeat case_bool_decide; naive_solver.
    + intros He. rewrite He in H6. by destruct est.
  - intros [H1 H2 H3 H4 H5 H6]. split_and!; try done.
    + repeat case_bool_decide; naive_solver.
    + destruct (fr_established r); [by rewrite H6|done].
Qed.

Lemma rule_loop_first p est rules :
  match rule_loop p est rules with
  | (a, rules') =>
      (exists i r, rules !! i = Some (Some r) /\ rule_matches p est r = true /\
         (forall j r', (j < i)%nat -> rules !! j = Some (Some r') -> rule_matches p est r' = false) /\
         a = fr_action r /\ rules' = <[i := Some (bump r)]> rules) \/
      ((forall j r', rules !! j = Some (Some r') -> rule_matches p est r' = false) /\ a = Accept /\ rules' = rules)
  end.
Proof.
  induction rules as [|[r|] rules IH]; cbn; [right; split; [intros j r'; by rewrite lookup_nil|done]| |].
  - destruct (rule_matches p est r) eqn:Em.
    + left. exists 0%nat, r. split_and!; try done. intros; lia.
    + destruct (rule_loop p est rules) as [a rules']. destruct IH as [(i & r0 & Hi & Hm & Hlow & -> & ->)|(Hno & -> & ->)].
      * left. exists (S i), r0. split_and!; try done. intros [|j] r' Hj Hr'; [by injection Hr' as <-|].
        eapply Hlow; [|done]. lia.
      * right. split; [|done]. intros [|j] r' Hr'; [by injection Hr' as <-|]. by eapply Hno.
  - destruct (rule_loop p est rules) as [a rules']. destruct IH as [(i & r0 & Hi & Hm & Hlow & -> & ->)|(Hno & -> & ->)].
    + left. exists (S i), r0. split_and!; try done. intros [|j] r' Hj Hr'; [done|]. eapply Hlow; [|done]. lia.
    + right. split; [|done]. intros [|j] r' Hr'; [done|]. by eapply Hno.
Qed.

(** [firewall_check] is first-match filtering with a default of accept. Either the
    verdict is the action of the first rule that admits the packet, and exactly that
    rule's counter goes up; or no rule admits it, the packet is accepted and nothing
    changes. The connection table is only read. *)
Theorem firewall_first_match p fw :
  let est := found_established p (fw_conns fw) in
  let '(a, fw') := firewall_check p fw in
  (exists i r, fw_rules fw !! i = Some (Some r) /\ admits p est r /\
     (forall j r', (j < i)%nat -> fw_rules fw !! j = Some (Some r') -> ~ admits p est r') /\
     a = fr_action r /\ fw' = with_rules (<[i := Some (bump r)]> (fw_rules fw)) fw) \/
  ((forall j r', fw_rules fw !! j = Some (Some r') -> ~ admits p est r') /\ a = Accept /\ fw' = fw).
Proof.
  intros est. unfold firewall_check. fold est. pose proof (rule_loop_first p est (fw_rules fw)) as H.
  destruct (rule_loop p est (fw_rules fw)) as [a rules].
  assert (Hno : forall r, rule_matches p est r = false -> ~ admits p est r).
  { intros r Hr Ha%rule_matches_admits. congruence. }
  destruct H as [(i & r & Hi & Hm & Hlow & -> & ->)|(Hn & -> & ->)].
  - left. exists i, r. split_and!; try done; [by apply rule_matches_admits|]. intros j r' Hj Hr'. eapply Hno, Hlow; eauto.
  - right. split_and!; [intros; eapply Hno, Hn; eauto|done|by destruct fw].
Qed.

End FirewallProofs.
