(* ===== verification/Nic.v ===== *)
(** The network interfaces and the paths of a frame in and out of the kernel:
    nic.rs, the send functions of ipv4.rs, udp.rs and arp.rs, udp::handle_receive,
    the receive path of rtl8139.rs and the locking of zenus-virtio's net.rs.

    The two drivers are guarded by spin locks that are not reentrant
    (zenus-sync's spinlock.rs).  The code below runs on one CPU with interrupts
    masked, so acquiring a lock that is already held never returns.  A
    computation is a function of the network state that returns its result and
    the next state, or [None] when it spins forever on such a lock. *)

From S2P Require Import Prelude Bytes Wire NetTables.

Inductive NicType := UnknownNic | IntelPro1000 | Rtl8139 | Virtio | Loopback.

#[global] Instance NicType_eq_dec : EqDecision NicType.
Proof. solve_decision. Defined.

Record NetworkInterface := {
  nic_type : NicType;
  if_mac : bytes;
  if_ip : bytes;
  subnet_mask : bytes;
  if_gateway : bytes;
  mmio_base : Z;
  irq : Z;
  link_up : bool;
}.

Definition MAX_INTERFACES : nat := 8.

(** The part of [struct Rtl8139] the paths use: its own addresses, and whether the
    bounce buffer is at a physical address below 4 GiB. *)
Record RtlNic := { rtl_mac : bytes; rtl_ip : bytes; rtl_dma_ok : bool; rtl_link : bool }.

(** The part of [struct VirtioNet]: its MAC, the ISR bit, the frames in the used ring
    of the receive queue, and whether the transmit queue completes a buffer. *)
Record VirtioNic := { v_mac : bytes; v_isr : bool; v_rx : list bytes; v_tx_ok : bool }.

(** Calls of the protocol handlers that are modelled elsewhere. *)
Inductive Upcall :=
| TcpUp (iface : nat) (src dst payload : bytes)
| DhcpServerUp (iface : nat) (src packet : bytes)
| DhcpUp (iface : nat) (src packet : bytes)
| DnsUp (iface : nat) (src packet : bytes)
| SocketUp (port : Z) (src : bytes) (sport : Z) (packet : bytes).

Record Net := {
  interfaces : list (option NetworkInterface);
  iface_count : nat;
  arp : ArpState;
  routes : list (option Route);
  firewall : FirewallState;
  dns_port : Z;
  rtl : option RtlNic;
  virtio : option VirtioNic;
  rtl_lock : bool;
  net_lock : bool;
  wire : list (NicType * bytes);   (** frames handed to a card, latest first *)
  up : list Upcall;                (** calls made, latest first *)
}.

Definition set_interfaces (x : list (option NetworkInterface)) (c : nat) (n : Net) : Net :=
  {| interfaces := x; iface_count := c; arp := arp n; routes := routes n; firewall := firewall n;
     dns_port := dns_port n; rtl := rtl n; virtio := virtio n; rtl_lock := rtl_lock n;
     net_lock := net_lock n; wire := wire n; up := up n |}.
Definition set_arp (x : ArpState) (n : Net) : Net :=
  {| interfaces := interfaces n; iface_count := iface_count n; arp := x; routes := routes n;
     firewall := firewall n; dns_port := dns_port n; rtl := rtl n; virtio := virtio n;
     rtl_lock := rtl_lock n; net_lock := net_lock n; wire := wire n; up := up n |}.
Definition set_routes (x : list (option Route)) (n : Net) : Net :=
  {| interfaces := interfaces n; iface_count := iface_count n; arp := arp n; routes := x;
     firewall := firewall n; dns_port := dns_port n; rtl := rtl n; virtio := virtio n;
     rtl_lock := rtl_lock n; net_lock := net_lock n; wire := wire n; up := up n |}.
Definition set_firewall (x : FirewallState) (n : Net) : Net :=
  {| interfaces := interfaces n; iface_count := iface_count n; arp := arp n; routes := routes n;
     firewall := x; dns_port := dns_port n; rtl := rtl n; virtio := virtio n;
     rtl_lock := rtl_lock n; net_lock := net_lock n; wire := wire n; up := up n |}.
Definition set_virtio (x : option VirtioNic) (n : Net) : Net :=
  {| interfaces := interfaces n; iface_count := iface_count n; arp := arp n; routes := routes n;
     firewall := firewall n; dns_port := dns_port n; rtl := rtl n; virtio := x;
     rtl_lock := rtl_lock n; net_lock := net_lock n; wire := wire n; up := up n |}.
Definition set_locks (r v : bool) (n : Net) : Net :=
  {| interfaces := interfaces n; iface_count := iface_count n; arp := arp n; routes := routes n;
     firewall := firewall n; dns_port := dns_port n; rtl := rtl n; virtio := virtio n;
     rtl_lock := r; net_lock := v; wire := wire n; up := up n |}.
Definition push_wire (t : NicType) (f : bytes) (n : Net) : Net :=
  {| interfaces := interfaces n; iface_count := iface_count n; arp := arp n; routes := routes n;
     firewall := firewall n; dns_port := dns_port n; rtl := rtl n; virtio := virtio n;
     rtl_lock := rtl_lock n; net_lock := net_lock n; wire := (t, f) :: wire n; up := up n |}.
Definition push_up (u : Upcall) (n : Net) : Net :=
  {| interfaces := interfaces n; iface_count := iface_count n; arp := arp n; routes := routes n;
     firewall := firewall n; dns_port := dns_port n; rtl := rtl n; virtio := virtio n;
     rtl_lock := rtl_lock n; net_lock := net_lock n; wire := wire n; up := u :: up n |}.

(** ** Computations *)

Definition M (A : Type) : Type := Net -> option (A * Net).

#[global] Instance M_ret : MRet M := fun A a n => Some (a, n).
#[global] Instance M_bind : MBind M := fun A B f m n =>
  match m n with Some (a, n') => f a n' | None => None end.

Definition get {A} (f : Net -> A) : M A := fun n => Some (f n, n).
Definition modify (f : Net -> Net) : M unit := fun n => Some (tt, f n).

(** [RTL_LOCK.lock()] and [NET_LOCK.lock()], and the drop of their guards. *)
Definition lock_rtl : M unit := fun n => if rtl_lock n then None else Some (tt, set_locks true (net_lock n) n).
Definition unlock_rtl : M unit := fun n => Some (tt, set_locks false (net_lock n) n).
Definition lock_net : M unit := fun n => if net_lock n then None else Some (tt, set_locks (rtl_lock n) true n).
Definition unlock_net : M unit := fun n => Some (tt, set_locks (rtl_lock n) false n).

Module Nic.

(** ** The drivers *)

Definition rtl_with_nic {A} (f : RtlNic -> M A) : M (option A) :=
  lock_rtl ≫= fun _ => get rtl ≫= fun r =>
  match r with
  | Some r => f r ≫= fun a => unlock_rtl ≫= fun _ => mret (Some a)
  | None => unlock_rtl ≫= fun _ => mret None
  end.

Definition rtl_send_raw (r : RtlNic) (data : bytes) : M bool :=
  if (1792 <? length data)%nat then mret false
  else if negb (rtl_dma_ok r) then mret false
  else modify (push_wire Rtl8139 data) ≫= fun _ => mret true.

Definition virtio_with_nic {A} (f : VirtioNic -> M A) : M (option A) :=
  lock_net ≫= fun _ => get virtio ≫= fun v =>
  match v with
  | Some v => f v ≫= fun a => unlock_net ≫= fun _ => mret (Some a)
  | None => unlock_net ≫= fun _ => mret None
  end.

(** Each method of [VirtioNet] takes the lock itself. *)
Definition virtio_send_raw (v : VirtioNic) (data : bytes) : M bool :=
  lock_net ≫= fun _ =>
  (if (1500 <? length data)%nat then mret false
   else if negb (v_tx_ok v) then mret false
   else modify (push_wire Virtio data) ≫= fun _ => mret true) ≫= fun ok =>
  unlock_net ≫= fun _ => mret ok.

Definition virtio_receive : M (option bytes) :=
  lock_net ≫= fun _ => get virtio ≫= fun v =>
  match v with
  | Some v =>
      match v_rx v with
      | f :: rest =>
          modify (set_virtio (Some {| v_mac := v_mac v; v_isr := v_isr v; v_rx := rest; v_tx_ok := v_tx_ok v |}))
          ≫= fun _ => unlock_net ≫= fun _ => mret (Some (take 1514 f))
      | [] => unlock_net ≫= fun _ => mret None
      end
  | None => unlock_net ≫= fun _ => mret None
  end.

(** With an interrupt pending, [poll] drops every received frame. *)
Definition virtio_poll : M unit :=
  lock_net ≫= fun _ =>
  modify (fun n =>
    match virtio n with
    | Some v =>
        if v_isr v
        then set_virtio (Some {| v_mac := v_mac v; v_isr := false; v_rx := []; v_tx_ok := v_tx_ok v |}) n
        else n
    | None => n
    end) ≫= fun _ => unlock_net.

(** ** Interfaces *)

Definition get_iface (idx : nat) (n : Net) : option NetworkInterface :=
  if (idx <? iface_count n)%nat then mjoin (interfaces n !! idx) else None.

Definition is_virtio (n : Net) (i : nat) : bool :=
  match get_iface i n with Some f => bool_decide (nic_type f = Virtio) | None => false end.

Definition virtio_iface_index (n : Net) : option nat := List.find (is_virtio n) (seq 0 (iface_count n)).

Definition set_iface_ip (idx : nat) (ip subnet gw : bytes) (n : Net) : bool * Net :=
  if (iface_count n <=? idx)%nat then (false, n)
  else
    (true, set_interfaces
       (alter (fmap (fun f => {| nic_type := nic_type f; if_mac := if_mac f; if_ip := ip;
                                 subnet_mask := subnet; if_gateway := gw; mmio_base := mmio_base f;
                                 irq := irq f; link_up := link_up f |}))
          idx (interfaces n)) (iface_count n) n).

Definition loopback : NetworkInterface :=
  {| nic_type := Loopback; if_mac := [0; 0; 0; 0; 0; 0]; if_ip := [127; 0; 0; 1];
     subnet_mask := [255; 0; 0; 0]; if_gateway := [0; 0; 0; 0]; mmio_base := 0; irq := 0;
     link_up := true |}.

Definition append_iface (f : NetworkInterface) (n : Net) : Net :=
  set_interfaces (<[iface_count n := Some f]> (interfaces n)) (S (iface_count n)) n.

(** [init], after the two drivers were probed: a card found is in [rtl] or [virtio]. *)
Definition init (n : Net) : Net :=
  let n := set_interfaces (<[0%nat := Some loopback]> (interfaces n)) 1 n in
  let n :=
    match rtl n with
    | Some r =>
        append_iface {| nic_type := Rtl8139; if_mac := rtl_mac r; if_ip := rtl_ip r;
                        subnet_mask := [255; 255; 255; 0]; if_gateway := [10; 0; 2; 2];
                        mmio_base := 0; irq := 0; link_up := rtl_link r |} n
    | None => n
    end in
  let n :=
    match virtio n with
    | Some v =>
        append_iface {| nic_type := Virtio; if_mac := v_mac v; if_ip := [10; 0; 2; 15];
                        subnet_mask := [255; 255; 255; 0]; if_gateway := [10; 0; 2; 2];
                        mmio_base := 0; irq := 0; link_up := true |} n
    | None => n
    end in
  let found_nic := bool_decide (is_Some (rtl n)) || bool_decide (is_Some (virtio n)) in
  if found_nic then
    let n := set_arp (Arp.add_static [10; 0; 2; 2] [0x52; 0x55; 0x0a; 0x00; 0x02; 0x02] (arp n)) n in
    let n := set_arp (Arp.add_static [10; 0; 2; 3] [0x52; 0x55; 0x0a; 0x00; 0x02; 0x02] (arp n)) n in
    let n := set_routes (Routing.add_direct [10; 0; 2; 0] [255; 255; 255; 0] 1 (routes n)).2 n in
    set_routes (Routing.add_default [10; 0; 2; 2] 1 (routes n)).2 n
  else n.

(** ** Sending *)

(** The interface index only rules out the loopback; both cards are tried. *)
Definition send_frame (idx : nat) (frame : bytes) : M bool :=
  if (idx =? 0)%nat then mret false
  else
    rtl_with_nic (fun r =>
      if (length frame <? 60)%nat then rtl_send_raw r (splice 0 frame (replicate 60 0))
      else rtl_send_raw r frame) ≫= fun sent =>
    if default false sent then mret true
    else virtio_with_nic (fun v => virtio_send_raw v frame) ≫= fun sent => mret (default false sent).

Definition send_request (idx : nat) (target : bytes) : M bool :=
  get (get_iface idx) ≫= fun o =>
  match o with
  | None => mret false
  | Some f =>
      send_frame idx (Arp.arp_packet (if_mac f) (if_ip f) [0xFF; 0xFF; 0xFF; 0xFF; 0xFF; 0xFF] target ARP_REQUEST)
  end.

Definition resolve (idx : nat) (target : bytes) : M (option bytes) :=
  get (fun n => Arp.arp_lookup target (arp n)) ≫= fun o =>
  match o with
  | Some mac => mret (Some mac)
  | None => send_request idx target ≫= fun _ => mret None
  end.

(** The frame [send_packet] builds, padded to 60 bytes. *)
Definition frame_of (dmac smac data : bytes) : bytes :=
  let total_len := (14 + length data)%nat in
  let b := replicate 1514 0 in
  let b := splice 0 dmac b in
  let b := splice 6 smac b in
  let b := splice 12 (be16_bytes ETH_IPV4) b in
  let b := splice 14 data b in
  take (Nat.max total_len 60) b.

Definition next_hop (dst : bytes) (n : Net) : bytes :=
  match Routing.lookup dst (routes n) with
  | Some (Via gw, _) => gw
  | _ => dst
  end.

Definition send_packet (idx : nat) (data : bytes) : M bool :=
  get (get_iface idx) ≫= fun o =>
  match o with
  | None => mret false
  | Some f =>
      if bool_decide (nic_type f = Loopback) then mret false
      else if (length data <? 20)%nat then mret false
      else
        get (next_hop (slice 16 20 data)) ≫= fun hop =>
        resolve idx hop ≫= fun o =>
        match o with
        | None => mret false
        | Some dmac =>
            if (1514 <? 14 + length data)%nat then mret false
            else send_frame idx (frame_of dmac (if_mac f) data)
        end
  end.

Definition send_broadcast_packet (idx : nat) (data : bytes) : M bool :=
  get (get_iface idx) ≫= fun o =>
  match o with
  | None => mret false
  | Some f =>
      if bool_decide (nic_type f = Loopback) then mret false
      else if (length data <? 20)%nat then mret false
      else if (1514 <? 14 + length data)%nat then mret false
      else send_frame idx (frame_of (replicate 6 0xFF) (if_mac f) data)
  end.

Definition send_raw (idx : nat) (src dst : bytes) (proto : Z) (payload : bytes) : M bool :=
  get (get_iface idx) ≫= fun o =>
  match o with
  | None => mret false
  | Some f =>
      if bool_decide (nic_type f = Loopback) then mret false
      else
        match Ipv4.raw_packet src dst proto payload with
        | None => mret false
        | Some pkt => send_packet idx pkt
        end
  end.

Definition ip_send (idx : nat) (dst : bytes) (proto : Z) (payload : bytes) : M bool :=
  get (get_iface idx) ≫= fun o =>
  match o with
  | None => mret false
  | Some f => send_raw idx (if_ip f) dst proto payload
  end.

Definition udp_send (idx : nat) (sport dport : Z) (src dst payload : bytes) : M bool :=
  match Udp.datagram sport dport payload with
  | None => mret false
  | Some d => send_raw idx src dst PROTO_UDP d
  end.

(** ** Receiving *)

(** The result of the source is unused by its callers. *)
Definition udp_handle_receive (idx : nat) (src dst packet : bytes) : M unit :=
  if (length packet <? 8)%nat then mret tt
  else
    match Udp.parse packet with
    | None => mret tt
    | Some (hdr, payload) =>
        if negb (udp_csum hdr =? 0)
           && negb (Udp.checksum src dst (take (Z.to_nat (udp_length hdr)) packet) =? 0)
        then mret tt
        else if dst_port hdr =? 7 then
          match Udp.datagram (dst_port hdr) (src_port hdr) payload with
          | None => mret tt
          | Some resp => ip_send idx src PROTO_UDP resp ≫= fun _ => mret tt
          end
        else if dst_port hdr =? 67 then modify (push_up (DhcpServerUp idx src packet))
        else if dst_port hdr =? 68 then modify (push_up (DhcpUp idx src packet))
        else
          get dns_port ≫= fun p =>
          if (dst_port hdr =? p) || (dst_port hdr =? 53) then modify (push_up (DnsUp idx src packet))
          else modify (push_up (SocketUp (dst_port hdr) src (src_port hdr) packet))
    end.

Definition proto_of (p : Z) : FirewallProto :=
  if p =? PROTO_TCP then Tcp
  else if p =? PROTO_UDP then UdpProto
  else if p =? PROTO_ICMP then IcmpProto
  else AnyProto.

Definition packet_info (h : Ipv4Header) (payload : bytes) : PacketInfo :=
  let ports := (4 <=? length payload)%nat in
  {| pi_src_ip := src_ip h; pi_dst_ip := dst_ip h;
     pi_src_port := if ports then be16_at payload 0 else 0;
     pi_dst_port := if ports then be16_at payload 2 else 0;
     pi_proto := proto_of (protocol h) |}.

Definition conn_of (p : PacketInfo) (ticks : Z) : ConnTrack :=
  {| ct_src_ip := pi_src_ip p; ct_dst_ip := pi_dst_ip p; ct_src_port := pi_src_port p;
     ct_dst_port := pi_dst_port p; ct_proto := pi_proto p; ct_state := Established; ct_last_seen := ticks |}.

(** The dispatch at the end of [poll_packet]. *)
Definition deliver (idx : nat) (f : NetworkInterface) (eth : EthernetHeader) (h : Ipv4Header) (payload : bytes)
    : M (option bytes) :=
  if protocol h =? PROTO_TCP then
    modify (push_up (TcpUp idx (src_ip h) (dst_ip h) payload)) ≫= fun _ => mret None
  else if protocol h =? PROTO_UDP then
    udp_handle_receive idx (src_ip h) (dst_ip h) payload ≫= fun _ => mret None
  else if protocol h =? PROTO_ICMP then
    match Icmp.handle_echo h payload (if_mac f) (src_mac eth) (if_ip f) with
    | Some reply => if (length reply <=? 1514)%nat then mret (Some reply) else mret None
    | None => mret None
    end
  else mret None.

(** A received frame of the virtio card, and the frame to answer with. *)
Definition poll_packet (idx : nat) (f : NetworkInterface) (data : bytes) (ticks : Z) : M (option bytes) :=
  if (length data <? 14)%nat then mret None
  else
  match Ethernet.parse data with
  | None => mret None
  | Some (eth, payload) =>
      if ether_type eth =? ETH_ARP then
        get arp ≫= fun a =>
        let '(reply, a) := Arp.handle payload (if_ip f) (if_mac f) a in
        modify (set_arp a) ≫= fun _ =>
        match reply with
        | Some r => if (1514 <? length r)%nat then mret None else mret (Some r)
        | None => mret None
        end
      else if ether_type eth =? ETH_IPV4 then
        match Ipv4.parse payload with
        | None => mret None
        | Some (h, payload) =>
            if negb (bytes_eqb (dst_ip h) (if_ip f)) && negb (bytes_eqb (dst_ip h) [255; 255; 255; 255])
            then mret None
            else
              let pkt := packet_info h payload in
              get firewall ≫= fun fw =>
              let '(action, fw) := Firewall.firewall_check pkt fw in
              modify (set_firewall fw) ≫= fun _ =>
              if negb (bool_decide (action = Accept)) then mret None
              else
                modify (fun n => set_firewall
                  (Firewall.firewall_track_connection (conn_of pkt ticks) (firewall n)) n) ≫= fun _ =>
                deliver idx f eth h payload
        end
      else mret None
  end.

(** [Rtl8139::handle_packet]. *)
Definition rtl_handle_packet (r : RtlNic) (data : bytes) : M unit :=
  if (length data <? 14)%nat then mret tt
  else
  match Ethernet.parse data with
  | None => mret tt
  | Some (eth, payload) =>
      if ether_type eth =? ETH_ARP then
        get arp ≫= fun a =>
        let '(reply, a) := Arp.handle payload (rtl_ip r) (rtl_mac r) a in
        modify (set_arp a) ≫= fun _ =>
        match reply with
        | Some resp => rtl_send_raw r resp ≫= fun _ => mret tt
        | None => mret tt
        end
      else if ether_type eth =? ETH_IPV4 then
        match Ipv4.parse payload with
        | None => mret tt
        | Some (h, payload) =>
            if negb (bytes_eqb (dst_ip h) (rtl_ip r)) && negb (bytes_eqb (dst_ip h) [255; 255; 255; 255])
            then mret tt
            else if protocol h =? PROTO_ICMP then
              match Icmp.handle_echo h payload (rtl_mac r) (src_mac eth) (rtl_ip r) with
              | Some reply => rtl_send_raw r reply ≫= fun _ => mret tt
              | None => mret tt
              end
            else if protocol h =? PROTO_TCP then modify (push_up (TcpUp 1 (src_ip h) (dst_ip h) payload))
            else if protocol h =? PROTO_UDP then udp_handle_receive 1 (src_ip h) (dst_ip h) payload
            else mret tt
        end
      else mret tt
  end.

(** The frames the receive ring holds, in order. *)
Fixpoint process_rx (r : RtlNic) (frames : list bytes) : M unit :=
  match frames with
  | [] => mret tt
  | f :: rest => rtl_handle_packet r f ≫= fun _ => process_rx r rest
  end.

(** The receive loop of [net_poll]; each turn takes a frame off the ring, so the
    number of frames in it plus one turns suffice. *)
Fixpoint virtio_loop (fuel : nat) (v : VirtioNic) (ticks : Z) : M unit :=
  match fuel with
  | O => mret tt
  | S fuel =>
      virtio_receive ≫= fun o =>
      match o with
      | None => mret tt
      | Some frame =>
          get virtio_iface_index ≫= fun o =>
          match o with
          | None => mret tt
          | Some idx =>
              get (get_iface idx) ≫= fun o =>
              match o with
              | None => mret tt
              | Some f =>
                  poll_packet idx f frame ticks ≫= fun reply =>
                  (match reply with
                   | Some reply => virtio_send_raw v reply ≫= fun _ => mret tt
                   | None => mret tt
                   end) ≫= fun _ => virtio_loop fuel v ticks
              end
          end
      end
  end.

(** [rx] is what the RTL8139 ring holds, at most the 256 frames of one pass. *)
Definition net_poll (rx : list bytes) (ticks : Z) : M unit :=
  rtl_with_nic (fun r => process_rx r (take 256 rx)) ≫= fun _ =>
  virtio_with_nic (fun v => virtio_poll ≫= fun _ => virtio_loop (S (length (v_rx v))) v ticks) ≫= fun _ => mret tt.

End Nic.

Module NicProofs.
Import Nic WireProofs.

(** ** Reasoning about computations *)

Lemma bind_eq {A B} (f : A -> M B) (m : M A) n :
  (m ≫= f) n = match m n with Some (a, n') => f a n' | None => None end.
Proof. done. Qed.

(** Every state a computation can end in is related to the one it started in. *)
Definition leads {A} (R : relation Net) (m : M A) : Prop := forall n a n', m n = Some (a, n') -> R n n'.

Section Leads.
Context (R : relation Net) `{!PreOrder R}.

Lemma leads_ret {A} (a : A) : leads R (mret a).
Proof. intros n a' n' E. injection E as <- <-. reflexivity. Qed.

Lemma leads_get {A} (f : Net -> A) : leads R (get f).
Proof. intros n a' n' E. injection E as <- <-. reflexivity. Qed.

Lemma leads_modify f : (forall n, R n (f n)) -> leads R (modify f).
Proof. intros H n a' n' E. by injection E as <- <-. Qed.

Lemma leads_bind {A B} (m : M A) (f : A -> M B) : leads R m -> (forall a, leads R (f a)) -> leads R (m ≫= f).
Proof.
  intros Hm Hf n b n'. rewrite bind_eq. destruct (m n) as [[a n1]|] eqn:E; [|done].
  intros E'. etrans; [by eapply Hm|by eapply Hf].
Qed.

End Leads.

(** The computation does the same whatever the rules of the firewall are. *)
Definition blind {A} (m : M A) : Prop :=
  forall fw n, m (set_firewall fw n) = prod_map id (set_firewall fw) <$> m n.

Lemma blind_ret {A} (a : A) : blind (mret a).
Proof. done. Qed.

Lemma blind_get {A} (f : Net -> A) : (forall fw n, f (set_firewall fw n) = f n) -> blind (get f).
Proof. intros H fw n. unfold get. cbn. by rewrite H. Qed.

Lemma blind_modify f : (forall fw n, f (set_firewall fw n) = set_firewall fw (f n)) -> blind (modify f).
Proof. intros H fw n. unfold modify. cbn. by rewrite H. Qed.

Lemma blind_bind {A B} (m : M A) (f : A -> M B) : blind m -> (forall a, blind (f a)) -> blind (m ≫= f).
Proof.
  intros Hm Hf fw n. rewrite !bind_eq, Hm. destruct (m n) as [[a n1]|]; [|done]. apply Hf.
Qed.

(** Take a computation apart along its binds, tests and matches. *)
Ltac split_comp bind :=
  repeat first
    [ progress intros
    | apply bind
    | match goal with |- context [match ?x with _ => _ end] => destruct x eqn:? end ].

Ltac blind_comp :=
  split_comp (@blind_bind);
  first [ assumption | apply blind_ret | by apply blind_get | by apply blind_modify | eauto with blind ].

Create HintDb blind discriminated.

Lemma blind_lock_rtl : blind lock_rtl.
Proof. intros fw n. unfold lock_rtl. cbn. by destruct (rtl_lock n). Qed.
Lemma blind_unlock_rtl : blind unlock_rtl.
Proof. done. Qed.
Lemma blind_lock_net : blind lock_net.
Proof. intros fw n. unfold lock_net. cbn. by destruct (net_lock n). Qed.
Lemma blind_unlock_net : blind unlock_net.
Proof. done. Qed.

#[local] Hint Resolve blind_lock_rtl blind_unlock_rtl blind_lock_net blind_unlock_net : blind.

Lemma blind_rtl_with_nic {A} (f : RtlNic -> M A) : (forall r, blind (f r)) -> blind (rtl_with_nic f).
Proof. intros H. unfold rtl_with_nic. blind_comp. Qed.

Lemma blind_virtio_with_nic {A} (f : VirtioNic -> M A) : (forall v, blind (f v)) -> blind (virtio_with_nic f).
Proof. intros H. unfold virtio_with_nic. blind_comp. Qed.

Lemma blind_rtl_send_raw r data : blind (rtl_send_raw r data).
Proof. unfold rtl_send_raw. blind_comp. Qed.

Lemma blind_virtio_send_raw v data : blind (virtio_send_raw v data).
Proof. unfold virtio_send_raw. blind_comp. Qed.

#[local] Hint Resolve blind_rtl_with_nic blind_virtio_with_nic blind_rtl_send_raw blind_virtio_send_raw : blind.

Lemma blind_send_frame idx frame : blind (send_frame idx frame).
Proof.
  unfold send_frame. destruct (idx =? 0)%nat; [apply blind_ret|].
  apply blind_bind; [apply blind_rtl_with_nic; intros; destruct (length frame <? 60)%nat; apply blind_rtl_send_raw|].
  intros s. destruct (default false s); [apply blind_ret|].
  apply blind_bind; [apply blind_virtio_with_nic; intros; apply blind_virtio_send_raw|intros; apply blind_ret].
Qed.

#[local] Hint Resolve blind_send_frame : blind.

Lemma blind_send_request idx t : blind (send_request idx t).
Proof. unfold send_request. blind_comp. Qed.
#[local] Hint Resolve blind_send_request : blind.

Lemma blind_resolve idx t : blind (resolve idx t).
Proof. unfold resolve. blind_comp. Qed.
#[local] Hint Resolve blind_resolve : blind.

Lemma blind_send_packet idx data : blind (send_packet idx data).
Proof. unfold send_packet. blind_comp. Qed.
#[local] Hint Resolve blind_send_packet : blind.

Lemma blind_send_raw idx src dst proto payload : blind (send_raw idx src dst proto payload).
Proof. unfold send_raw. blind_comp. Qed.
#[local] Hint Resolve blind_send_raw : blind.

Lemma blind_ip_send idx dst proto payload : blind (ip_send idx dst proto payload).
Proof. unfold ip_send. blind_comp. Qed.
#[local] Hint Resolve blind_ip_send : blind.

Lemma blind_udp_handle_receive idx src dst packet : blind (udp_handle_receive idx src dst packet).
Proof. unfold udp_handle_receive. blind_comp. Qed.
#[local] Hint Resolve blind_udp_handle_receive : blind.

Lemma blind_rtl_handle_packet r data : blind (rtl_handle_packet r data).
Proof. unfold rtl_handle_packet. blind_comp. Qed.
#[local] Hint Resolve blind_rtl_handle_packet : blind.

Lemma blind_process_rx r frames : blind (process_rx r frames).
Proof. induction frames as [|f frames IH]; cbn; blind_comp. Qed.

(** ** What sending and receiving leave as it is *)

Section Unmoved.
Context (R : relation Net) `{!PreOrder R}.
Context (R_locks : forall a b n, R n (set_locks a b n)) (R_wire : forall t f n, R n (push_wire t f n)).
Context (R_arp : forall a n, R n (set_arp a n)) (R_up : forall u n, R n (push_up u n)).

Create HintDb unmoved discriminated.

Ltac unmoved_comp :=
  split_comp (@leads_bind);
  first [ exact PreOrder0 | assumption | apply leads_ret; apply _ | apply leads_get; apply _
        | apply leads_modify; intros ?; auto; fail | eauto with unmoved ].

Lemma unmoved_lock_rtl : leads R lock_rtl.
Proof using R_locks. intros n a n' E. unfold lock_rtl in E. destruct (rtl_lock n); [done|]. injection E as <- <-. apply R_locks. Qed.
Lemma unmoved_unlock_rtl : leads R unlock_rtl.
Proof using R_locks. intros n a n' E. injection E as <- <-. apply R_locks. Qed.
Lemma unmoved_lock_net : leads R lock_net.
Proof using R_locks. intros n a n' E. unfold lock_net in E. destruct (net_lock n); [done|]. injection E as <- <-. apply R_locks. Qed.
Lemma unmoved_unlock_net : leads R unlock_net.
Proof using R_locks. intros n a n' E. injection E as <- <-. apply R_locks. Qed.

#[local] Hint Resolve unmoved_lock_rtl unmoved_unlock_rtl unmoved_lock_net unmoved_unlock_net : unmoved.

Lemma unmoved_rtl_with_nic {A} (f : RtlNic -> M A) : (forall r, leads R (f r)) -> leads R (rtl_with_nic f).
Proof using R_locks PreOrder0. intros H. unfold rtl_with_nic. unmoved_comp. Qed.

Lemma unmoved_virtio_with_nic {A} (f : VirtioNic -> M A) : (forall v, leads R (f v)) -> leads R (virtio_with_nic f).
Proof using R_locks PreOrder0. intros H. unfold virtio_with_nic. unmoved_comp. Qed.

Lemma unmoved_rtl_send_raw r data : leads R (rtl_send_raw r data).
Proof using R_wire PreOrder0. unfold rtl_send_raw. unmoved_comp. Qed.

Lemma unmoved_virtio_send_raw v data : leads R (virtio_send_raw v data).
Proof using R_locks R_wire PreOrder0. unfold virtio_send_raw. unmoved_comp. Qed.

#[local] Hint Resolve unmoved_rtl_with_nic unmoved_virtio_with_nic unmoved_rtl_send_raw unmoved_virtio_send_raw : unmoved.

Lemma unmoved_send_frame idx frame : leads R (send_frame idx frame).
Proof using R_locks R_wire PreOrder0.
  unfold send_frame. destruct (idx =? 0)%nat; [apply leads_ret; apply _|].
  apply (leads_bind R);
    [apply unmoved_rtl_with_nic; intros; destruct (length frame <? 60)%nat; apply unmoved_rtl_send_raw|].
  intros s. destruct (default false s); [apply leads_ret; apply _|].
  apply (leads_bind R);
    [apply unmoved_virtio_with_nic; intros; apply unmoved_virtio_send_raw|intros; apply leads_ret; apply _].
Qed.
#[local] Hint Resolve unmoved_send_frame : unmoved.

Lemma unmoved_resolve idx t : leads R (resolve idx t).
Proof using R_locks R_wire PreOrder0. unfold resolve, send_request. unmoved_comp. Qed.
#[local] Hint Resolve unmoved_resolve : unmoved.

Lemma unmoved_send_packet idx data : leads R (send_packet idx data).
Proof using R_locks R_wire PreOrder0. unfold send_packet. unmoved_comp. Qed.
#[local] Hint Resolve unmoved_send_packet : unmoved.

Lemma unmoved_send_broadcast_packet idx data : leads R (send_broadcast_packet idx data).
Proof using R_locks R_wire PreOrder0. unfold send_broadcast_packet. unmoved_comp. Qed.

Lemma unmoved_send_raw idx src dst proto payload : leads R (send_raw idx src dst proto payload).
Proof using R_locks R_wire PreOrder0. unfold send_raw. unmoved_comp. Qed.
#[local] Hint Resolve unmoved_send_raw : unmoved.

Lemma unmoved_ip_send idx dst proto payload : leads R (ip_send idx dst proto payload).
Proof using R_locks R_wire PreOrder0. unfold ip_send. unmoved_comp. Qed.
#[local] Hint Resolve unmoved_ip_send : unmoved.

Lemma unmoved_udp_send idx sport dport src dst payload : leads R (udp_send idx sport dport src dst payload).
Proof using R_locks R_wire PreOrder0. unfold udp_send. unmoved_comp. Qed.

Lemma unmoved_udp_handle_receive idx src dst packet : leads R (udp_handle_receive idx src dst packet).
Proof using R_locks R_wire R_up PreOrder0. unfold udp_handle_receive. unmoved_comp. Qed.
#[local] Hint Resolve unmoved_udp_handle_receive : unmoved.

Lemma unmoved_rtl_handle_packet r data : leads R (rtl_handle_packet r data).
Proof using All. unfold rtl_handle_packet. unmoved_comp. Qed.

Lemma unmoved_process_rx r frames : leads R (process_rx r frames).
Proof using All. induction frames as [|f frames IH]; cbn; [unmoved_comp|]. apply (leads_bind R); [apply unmoved_rtl_handle_packet|done]. Qed.

End Unmoved.

(** The cards stay where they are. *)
Definition keeps_card (n n' : Net) : Prop := is_Some (virtio n) -> is_Some (virtio n').

#[local] Instance keeps_card_preorder : PreOrder keeps_card.
Proof. split; [by intros n H|by intros a b c H1 H2 H; apply H2, H1]. Qed.

(** The interfaces stay as they are. *)
Definition keeps_ifaces (n n' : Net) : Prop := forall i, get_iface i n' = get_iface i n.

#[export] Instance keeps_ifaces_preorder : PreOrder keeps_ifaces.
Proof. split; [by intros n i|by intros a b c H1 H2 i; rewrite H2]. Qed.

Lemma ip_send_ifaces idx dst proto payload : leads keeps_ifaces (ip_send idx dst proto payload).
Proof. apply (unmoved_ip_send keeps_ifaces); by repeat intro. Qed.

Lemma udp_send_ifaces idx sport dport src dst payload : leads keeps_ifaces (udp_send idx sport dport src dst payload).
Proof. apply (unmoved_udp_send keeps_ifaces); by repeat intro. Qed.

Lemma send_broadcast_ifaces idx data : leads keeps_ifaces (send_broadcast_packet idx data).
Proof. apply (unmoved_send_broadcast_packet keeps_ifaces); by repeat intro. Qed.

Lemma rtl_handle_packet_ifaces r data : leads keeps_ifaces (rtl_handle_packet r data).
Proof. apply (unmoved_rtl_handle_packet keeps_ifaces); by repeat intro. Qed.

(** ** Sending while nobody holds a card *)

(** No lock is held and there is no virtio card, whose driver locks itself out. *)
Definition card_free (n : Net) : Prop := rtl_lock n = false /\ net_lock n = false /\ virtio n = None.

(** From every state with [P] the computation returns, in a state with [P]. *)
Definition total {A} (P : Net -> Prop) (m : M A) : Prop := forall n, P n -> exists a n', m n = Some (a, n') /\ P n'.

Section Total.
Context (P : Net -> Prop).

Lemma total_ret {A} (a : A) : total P (mret a).
Proof. intros n H. by exists a, n. Qed.

Lemma total_get {A} (f : Net -> A) : total P (get f).
Proof. intros n H. by exists (f n), n. Qed.

Lemma total_bind {A B} (m : M A) (f : A -> M B) : total P m -> (forall a, total P (f a)) -> total P (m ≫= f).
Proof.
  intros Hm Hf n Hn. destruct (Hm n Hn) as (a & n1 & E & H1). destruct (Hf a n1 H1) as (b & n2 & E2 & H2).
  exists b, n2. split; [|done]. rewrite bind_eq. by rewrite E.
Qed.

End Total.

Create HintDb free discriminated.

Ltac free_comp :=
  split_comp (@total_bind);
  first [ assumption | apply total_ret | apply total_get | eauto with free ].

Lemma free_send_frame idx frame : total card_free (send_frame idx frame).
Proof.
  intros n (Hr & Hn & Hv). unfold send_frame. destruct (idx =? 0)%nat; [by eexists _, _|].
  rewrite bind_eq. unfold rtl_with_nic. rewrite bind_eq. unfold lock_rtl. rewrite Hr, bind_eq. cbn [get rtl set_locks].
  assert (forall n1, card_free n1 -> exists a n2, (virtio_with_nic (fun v => virtio_send_raw v frame) ≫= fun sent => mret (default false sent)) n1 =
    Some (a, n2) /\ card_free n2) as Hnext.
  { intros n1 (Hr1 & Hn1 & Hv1). rewrite bind_eq. unfold virtio_with_nic. rewrite bind_eq. unfold lock_net. rewrite Hn1, bind_eq.
    cbn [get virtio set_locks]. rewrite Hv1. eexists _, _. by split. }
  destruct (rtl n) as [r|]; [|by apply Hnext].
  assert (forall data n1, card_free (set_locks false (net_lock n1) n1) ->
    exists b n2, rtl_send_raw r data n1 = Some (b, n2) /\ card_free (set_locks false (net_lock n2) n2)) as Hraw.
  { intros data n1 H1. unfold rtl_send_raw. repeat case_match; by eexists _, _. }
  rewrite bind_eq. match goal with |- context [(if ?c then rtl_send_raw r ?x else _) ?n1] =>
    destruct (Hraw (if c then x else frame) n1) as (b & n2 & E & H2); [done|];
    replace ((if c then rtl_send_raw r x else rtl_send_raw r frame) n1) with (Some (b, n2)) by (by destruct c) end.
  rewrite bind_eq. cbn [unlock_rtl mret M_ret]. destruct b; [by eexists _, _|by apply Hnext].
Qed.
#[local] Hint Resolve free_send_frame : free.

Lemma free_send_packet idx data : total card_free (send_packet idx data).
Proof. unfold send_packet, resolve, send_request. free_comp. Qed.
#[local] Hint Resolve free_send_packet : free.

Lemma free_send_raw idx src dst proto payload : total card_free (send_raw idx src dst proto payload).
Proof. unfold send_raw. free_comp. Qed.
#[local] Hint Resolve free_send_raw : free.

Lemma free_ip_send idx dst proto payload : total card_free (ip_send idx dst proto payload).
Proof. unfold ip_send. free_comp. Qed.

Lemma free_udp_send idx sport dport src dst payload : total card_free (udp_send idx sport dport src dst payload).
Proof. unfold udp_send. free_comp. Qed.

(** ** Locks that are taken twice *)

Lemma virtio_with_nic_hangs {A} (f : VirtioNic -> M A) n :
  is_Some (virtio n) -> (forall v n, net_lock n = true -> f v n = None) -> virtio_with_nic f n = None.
Proof.
  intros [v Hv] Hf. unfold virtio_with_nic. rewrite bind_eq. unfold lock_net.
  destruct (net_lock n); [done|]. rewrite bind_eq. cbn. rewrite Hv. by rewrite bind_eq, Hf.
Qed.

Lemma virtio_poll_hangs n : net_lock n = true -> virtio_poll n = None.
Proof. intros Hl. unfold virtio_poll. rewrite bind_eq. unfold lock_net. by rewrite Hl. Qed.

Lemma net_poll_hangs rx ticks n : is_Some (virtio n) -> net_poll rx ticks n = None.
Proof.
  intros Hv. unfold net_poll. rewrite bind_eq.
  destruct (rtl_with_nic _ n) as [[a n1]|] eqn:E; [|done].
  rewrite bind_eq, virtio_with_nic_hangs; [done| |].
  - eapply (unmoved_rtl_with_nic keeps_card) in E; [by apply E|by intros ? ? ? ?|].
    intros r. apply (unmoved_process_rx keeps_card); repeat intro; done.
  - intros v n2 Hl. rewrite bind_eq. by rewrite virtio_poll_hangs.
Qed.

Lemma send_frame_virtio_hangs idx frame n :
  idx <> 0%nat -> rtl n = None -> is_Some (virtio n) -> send_frame idx frame n = None.
Proof.
  intros Hi Hr Hv. unfold send_frame. apply Nat.eqb_neq in Hi as ->. rewrite bind_eq.
  unfold rtl_with_nic. rewrite bind_eq. unfold lock_rtl. destruct (rtl_lock n); [done|].
  rewrite bind_eq. cbn. rewrite Hr. rewrite bind_eq. cbn. rewrite bind_eq.
  rewrite virtio_with_nic_hangs; [done|done|].
  intros v n2 Hl. unfold virtio_send_raw. rewrite bind_eq. unfold lock_net. by rewrite Hl.
Qed.

Lemma blind_virtio_hangs {A} (f : VirtioNic -> M A) :
  (forall v n, net_lock n = true -> f v n = None) -> blind (virtio_with_nic f).
Proof.
  intros Hf fw n. destruct (virtio n) as [v|] eqn:Ev; [by rewrite !virtio_with_nic_hangs by (cbn; rewrite ?Ev; done)|].
  unfold virtio_with_nic. rewrite !bind_eq. unfold lock_net. cbn. destruct (net_lock n); [done|].
  rewrite !bind_eq. cbn. by rewrite Ev.
Qed.

(** the virtio driver locks itself out. [VirtioNet::with_nic] holds the driver's
    lock while the closure runs, and every method the closures call takes the same
    lock again, which never succeeds. So polling a machine that has the card never
    returns, from any state and whatever arrived; and where it is the only card,
    neither does sending a frame. *)
Theorem virtio_self_deadlock n :
  is_Some (virtio n) ->
  (forall rx ticks, net_poll rx ticks n = None) /\
  (rtl n = None -> forall idx frame, idx <> 0%nat -> send_frame idx frame n = None).
Proof.
  intros Hv. split; [intros; by apply net_poll_hangs|].
  intros Hr idx frame Hi. by apply send_frame_virtio_hangs.
Qed.

(** the firewall filters nothing. What [net_poll] delivers, sends and learns is the
    same under any two sets of firewall rules and any connection table, which it
    leaves as they were: the receive path of the RTL8139 never consults the firewall. *)
Theorem net_poll_ignores_firewall rx ticks fw n :
  net_poll rx ticks (set_firewall fw n) = prod_map id (set_firewall fw) <$> net_poll rx ticks n.
Proof.
  revert fw n. change (blind (net_poll rx ticks)). unfold net_poll.
  apply blind_bind; [apply blind_rtl_with_nic; intros r; apply blind_process_rx|]. intros _.
  apply blind_bind; [|intros _; apply blind_ret]. apply blind_virtio_hangs.
  intros v n Hl. rewrite bind_eq. by rewrite virtio_poll_hangs.
Qed.



(** ** A frame from one host to another *)

Lemma frame_of_eq dmac smac data :
  length dmac = 6%nat -> length smac = 6%nat -> (length data <= 1500)%nat ->
  frame_of dmac smac data =
  eth_header dmac smac ETH_IPV4 ++ data ++ replicate (60 - (14 + length data)) 0.
Proof.
  intros (a1&a2&a3&a4&a5&a6&->)%length_6_inv (b1&b2&b3&b4&b5&b6&->)%length_6_inv Hl.
  unfold frame_of.
  rewrite (replicate_split 14 1514 0) by lia. change (1514 - 14)%nat with 1500%nat.
  rewrite (replicate_split (length data) 1500 0) by lia.
  set (k := (1500 - length data)%nat). set (q := replicate (length data) 0).
  assert (Hq : length q = length data) by apply length_replicate.
  assert (E : splice 14 data (splice 12 (be16_bytes ETH_IPV4) (splice 6 [b1; b2; b3; b4; b5; b6]
      (splice 0 [a1; a2; a3; a4; a5; a6] (replicate 14 0 ++ q ++ replicate k 0)))) =
      eth_header [a1; a2; a3; a4; a5; a6] [b1; b2; b3; b4; b5; b6] ETH_IPV4 ++ data ++ replicate k 0).
  { unfold splice, eth_header. simpl. do 14 f_equal. rewrite drop_0. f_equal. by apply drop_app_length'. }
  rewrite E. rewrite take_app_ge by (simpl; lia). f_equal.
  rewrite take_app_ge by (simpl; lia). f_equal. rewrite take_replicate. f_equal. simpl. lia.
Qed.

Lemma rtl_handle_ipv4 r eth_dst eth_src pkt pad h payload n :
  length eth_dst = 6%nat -> length eth_src = 6%nat ->
  Ipv4.parse (pkt ++ pad) = Some (h, payload) -> dst_ip h = rtl_ip r -> protocol h = PROTO_UDP ->
  rtl_handle_packet r (eth_header eth_dst eth_src ETH_IPV4 ++ pkt ++ pad) n =
  udp_handle_receive 1 (src_ip h) (dst_ip h) payload n.
Proof.
  intros Hd Hs Hp Hip Hpr. unfold rtl_handle_packet.
  destruct (Nat.ltb_spec (length (eth_header eth_dst eth_src ETH_IPV4 ++ pkt ++ pad)) 14) as [Hlt|_];
    [exfalso; unfold eth_header in Hlt; rewrite !length_app in Hlt; simpl in Hlt; lia|].
  rewrite parse_eth_header by done. cbn [ether_type].
  change (ETH_IPV4 =? ETH_ARP) with false. change (ETH_IPV4 =? ETH_IPV4) with true. cbv iota.
  rewrite Hp, Hip, bytes_eqb_refl, Hpr. done.
Qed.

Lemma send_frame_rtl idx frame n r :
  idx <> 0%nat -> rtl n = Some r -> rtl_dma_ok r = true -> rtl_lock n = false ->
  (60 <= length frame <= 1514)%nat ->
  send_frame idx frame n = Some (true, push_wire Rtl8139 frame n).
Proof.
  intros Hi Hr Hok Hl Hlen. unfold send_frame. apply Nat.eqb_neq in Hi as ->.
  destruct (Nat.ltb_spec (length frame) 60); [lia|].
  unfold rtl_with_nic. rewrite !bind_eq. unfold lock_rtl. rewrite Hl. rewrite bind_eq. cbn. rewrite Hr.
  rewrite bind_eq. unfold rtl_send_raw. destruct (Nat.ltb_spec 1792 (length frame)); [lia|]. rewrite Hok.
  destruct n. cbn in *. by subst.
Qed.

Lemma length_frame_of dmac smac data :
  length dmac = 6%nat -> length smac = 6%nat -> (length data <= 1500)%nat ->
  (60 <= length (frame_of dmac smac data) <= 1514)%nat.
Proof.
  intros Hd Hs Hl. rewrite frame_of_eq by done. unfold eth_header.
  rewrite !length_app, length_replicate. simpl. lia.
Qed.

(** C19: a datagram sent is the datagram delivered. On a host whose RTL8139 can send
    and whose ARP cache has the next hop, [udp::send] hands the card exactly one
    frame and changes nothing else; a host that owns the destination address passes
    that frame on to its socket layer with the sender's address and port, and the
    datagram it passes on carries exactly the payload. *)
Theorem udp_delivery a idx f ra dmac sport dport src dst payload :
  get_iface idx a = Some f -> idx <> 0%nat -> nic_type f <> Loopback -> length (if_mac f) = 6%nat ->
  rtl a = Some ra -> rtl_dma_ok ra = true -> rtl_lock a = false ->
  Arp.arp_lookup (next_hop dst a) (arp a) = Some dmac -> length dmac = 6%nat ->
  length src = 4%nat -> length dst = 4%nat -> bytes_ok src -> bytes_ok dst ->
  is_u16 sport -> is_u16 dport -> (length payload <= 1472)%nat ->
  exists frame,
    udp_send idx sport dport src dst payload a = Some (true, push_wire Rtl8139 frame a) /\
    forall b rb, rtl_ip rb = dst -> dport ∉ [7; 67; 68; 53; dns_port b] ->
      exists d h, rtl_handle_packet rb frame b = Some (tt, push_up (SocketUp dport src sport d) b) /\
        Udp.parse d = Some (h, payload) /\ src_port h = sport /\ dst_port h = dport.
Proof.
  intros Hf Hi Hlo Hmac Hra Hok Hlk Harp Hdm Hs Hd Hso Hdo Hsp Hdp Hl.
  destruct (datagram_parses sport dport payload) as (d & uh & Ed & Hud & Hs' & Hd' & Hc & Hdl); [done|done|lia|].
  destruct (raw_packet_parses src dst PROTO_UDP d) as (pkt & h & Ep & Hip & Hhs & Hhd & Hpr & _ & Hpl & Hslice);
    try done; [lia|].
  pose proof (frame_of_eq dmac (if_mac f) pkt Hdm Hmac ltac:(lia)) as Hfr.
  exists (frame_of dmac (if_mac f) pkt). split.
  - unfold udp_send. rewrite Ed. unfold send_raw. rewrite bind_eq. unfold get at 1. rewrite Hf.
    rewrite bool_decide_false, Ep by done. unfold send_packet. rewrite bind_eq. unfold get at 1. rewrite Hf.
    rewrite bool_decide_false by done. destruct (Nat.ltb_spec (length pkt) 20); [lia|].
    rewrite bind_eq. unfold get at 1. rewrite Hslice. rewrite bind_eq. unfold resolve. rewrite bind_eq.
    unfold get at 1. rewrite Harp. cbn [mret M_ret]. destruct (Nat.ltb_spec 1514 (14 + length pkt)); [lia|].
    eapply send_frame_rtl; try done. apply length_frame_of; (done || lia).
  - intros b rb Hrb Hports. pose proof (Hud []) as Hud0. rewrite app_nil_r in Hud0.
    exists d, uh. split; [|done].
    rewrite Hfr. rewrite (rtl_handle_ipv4 rb dmac (if_mac f) pkt _ h d b) by (done || by rewrite ?Hhd).
    unfold udp_handle_receive. destruct (Nat.ltb_spec (length d) 8); [lia|].
    rewrite Hud0, Hc, Hd', Hs', Hhs. cbn [Z.eqb negb andb].
    rewrite !not_elem_of_cons in Hports. destruct Hports as (H7 & H67 & H68 & H53 & Hdns & _).
    apply Z.eqb_neq in H7 as ->, H67 as ->, H68 as ->, H53 as ->. rewrite bind_eq. unfold get.
    apply Z.eqb_neq in Hdns as ->. done.
Qed.

(** ** The echo service *)

Lemma send_frame_locked idx frame n : idx <> 0%nat -> rtl_lock n = true -> send_frame idx frame n = None.
Proof.
  intros Hi Hl. unfold send_frame. apply Nat.eqb_neq in Hi as ->. rewrite bind_eq. unfold rtl_with_nic.
  rewrite bind_eq. unfold lock_rtl. by rewrite Hl.
Qed.

Lemma send_packet_locked idx f data n :
  get_iface idx n = Some f -> idx <> 0%nat -> nic_type f <> Loopback -> rtl_lock n = true ->
  (20 <= length data <= 1500)%nat -> send_packet idx data n = None.
Proof.
  intros Hf Hi Hlo Hl Hlen. unfold send_packet. rewrite bind_eq. unfold get at 1. rewrite Hf.
  rewrite bool_decide_false by done. destruct (Nat.ltb_spec (length data) 20); [lia|].
  rewrite bind_eq. unfold get at 1. rewrite bind_eq. unfold resolve. rewrite bind_eq. unfold get at 1.
  destruct (Arp.arp_lookup _ _) as [mac|].
  - cbn [mret M_ret]. destruct (Nat.ltb_spec 1514 (14 + length data)); [lia|]. by apply send_frame_locked.
  - rewrite bind_eq. unfold send_request. rewrite bind_eq. unfold get. rewrite Hf.
    by rewrite send_frame_locked.
Qed.

Lemma ip_send_locked idx f dst proto payload n :
  get_iface idx n = Some f -> idx <> 0%nat -> nic_type f <> Loopback -> rtl_lock n = true ->
  length (if_ip f) = 4%nat -> bytes_ok (if_ip f) -> length dst = 4%nat -> bytes_ok dst ->
  is_u8 proto -> (length payload <= 1480)%nat -> ip_send idx dst proto payload n = None.
Proof.
  intros Hf Hi Hlo Hl Hfl Hfo Hdl Hdo Hpr Hlen.
  destruct (raw_packet_parses (if_ip f) dst proto payload) as
    (out & _ & Eout & _ & _ & _ & _ & _ & Houtl & _); try done.
  unfold ip_send. rewrite bind_eq. unfold get at 1. rewrite Hf. unfold send_raw. rewrite bind_eq.
  unfold get at 1. rewrite Hf. rewrite bool_decide_false, Eout by done. eapply send_packet_locked; try done. lia.
Qed.

(** A datagram to the echo port, received while the RTL8139 is locked. *)
Lemma udp_echo_locked idx f src dst sport payload d n :
  get_iface idx n = Some f -> idx <> 0%nat -> nic_type f <> Loopback -> rtl_lock n = true ->
  length (if_ip f) = 4%nat -> bytes_ok (if_ip f) -> length src = 4%nat -> bytes_ok src ->
  is_u16 sport -> (length payload <= 1472)%nat -> Udp.datagram sport 7 payload = Some d ->
  udp_handle_receive idx src dst d n = None.
Proof.
  intros Hf Hi Hlo Hl Hfl Hfo Hsl Hso Hsp Hlen Ed.
  destruct (datagram_parses sport 7 payload) as (d' & uh & Ed' & Hud & Hs' & Hd' & Hc & Hdl); [done|done|lia|].
  rewrite Ed in Ed'. injection Ed' as <-.
  destruct (datagram_parses 7 sport payload) as (resp & _ & Eresp & _ & _ & _ & _ & Hrespl); [done|done|lia|].
  pose proof (Hud []) as Hud0. rewrite app_nil_r in Hud0.
  unfold udp_handle_receive. destruct (Nat.ltb_spec (length d) 8); [lia|].
  rewrite Hud0, Hc, Hd', Hs'. change (0 =? 0) with true. change (7 =? 7) with true. cbv beta iota delta [negb andb].
  rewrite Eresp, bind_eq. by rewrite (ip_send_locked idx f src PROTO_UDP resp n) by (done || lia).
Qed.

(** a remote host can stop the machine with one packet. While [net_poll] drains
    the RTL8139 it holds that card's lock; a well-formed datagram to the echo port,
    from any address and with any payload that fits, makes the UDP handler answer
    through [send_frame], which takes the lock again. The poll never returns. *)
Theorem udp_echo_deadlock n r f eth_dst eth_src src sport payload d pkt pad rest ticks :
  rtl n = Some r -> get_iface 1 n = Some f -> nic_type f <> Loopback ->
  length (if_ip f) = 4%nat -> bytes_ok (if_ip f) -> length (rtl_ip r) = 4%nat -> bytes_ok (rtl_ip r) ->
  length eth_dst = 6%nat -> length eth_src = 6%nat -> length src = 4%nat -> bytes_ok src ->
  is_u16 sport -> (length payload <= 1472)%nat ->
  Udp.datagram sport 7 payload = Some d -> Ipv4.raw_packet src (rtl_ip r) PROTO_UDP d = Some pkt ->
  net_poll ((eth_header eth_dst eth_src ETH_IPV4 ++ pkt ++ pad) :: rest) ticks n = None.
Proof.
  intros Hr Hf Hlo Hfl Hfo Hrl Hro Hed Hes Hsl Hso Hsp Hl Ed Ep.
  destruct (datagram_parses sport 7 payload) as (d' & _ & Ed' & _ & _ & _ & _ & Hdl); [done|done|lia|].
  rewrite Ed in Ed'. injection Ed' as <-.
  destruct (raw_packet_parses src (rtl_ip r) PROTO_UDP d) as (pkt' & h & Ep' & Hip & Hhs & Hhd & Hpr & _);
    try done; [lia|].
  rewrite Ep in Ep'. injection Ep' as <-.
  unfold net_poll. rewrite bind_eq. unfold rtl_with_nic. rewrite bind_eq. unfold lock_rtl.
  destruct (rtl_lock n); [done|]. rewrite bind_eq. unfold get at 1. cbn [rtl set_locks]. rewrite Hr.
  rewrite bind_eq. change 256%nat with (S 255). rewrite firstn_cons. cbn [process_rx]. rewrite bind_eq.
  rewrite (rtl_handle_ipv4 _ _ _ _ _ h d) by done. rewrite Hhs.
  by rewrite (udp_echo_locked 1 f src (dst_ip h) sport payload d).
Qed.

(** ** What the virtio path lets through *)

Lemma firewall_check_conns p fw : fw_conns (Firewall.firewall_check p fw).2 = fw_conns fw.
Proof. unfold Firewall.firewall_check. by destruct (Firewall.rule_loop _ _ _). Qed.

(** The frame is an IPv4 packet for this interface that the firewall accepts. *)
Definition admitted (f : NetworkInterface) (data : bytes) (n : Net) : Prop :=
  exists eth p h payload,
    Ethernet.parse data = Some (eth, p) /\ ether_type eth = ETH_IPV4 /\ Ipv4.parse p = Some (h, payload) /\
    (dst_ip h = if_ip f \/ dst_ip h = [255; 255; 255; 255]) /\
    (Firewall.firewall_check (packet_info h payload) (firewall n)).1 = Accept.

(** [poll_packet] hands nothing to a protocol handler and tracks no connection
    unless the frame carries an IPv4 packet that is addressed to this interface or to
    everyone and that the firewall accepts. *)
Theorem poll_packet_guarded idx f data ticks n r n' :
  poll_packet idx f data ticks n = Some (r, n') ->
  admitted f data n \/
  (up n' = up n /\ wire n' = wire n /\ fw_conns (firewall n') = fw_conns (firewall n)).
Proof.
  unfold poll_packet. destruct (length data <? 14)%nat; [intros E; injection E as <- <-; by right|].
  destruct (Ethernet.parse data) as [[eth p]|] eqn:Ee; [|intros E; injection E as <- <-; by right].
  destruct (ether_type eth =? ETH_ARP).
  { rewrite bind_eq. unfold get. destruct (Arp.handle _ _ _ _) as [reply a']. rewrite bind_eq. cbn.
    destruct reply; [case_match|]; intros E; injection E as <- <-; by right. }
  destruct (Z.eqb_spec (ether_type eth) ETH_IPV4) as [Et|]; [|intros E; injection E as <- <-; by right].
  destruct (Ipv4.parse p) as [[h payload]|] eqn:Ep; [|intros E; injection E as <- <-; by right].
  destruct (negb (bytes_eqb (dst_ip h) (if_ip f)) && _) eqn:Ed; [intros E; injection E as <- <-; by right|].
  rewrite bind_eq. unfold get. pose proof (firewall_check_conns (packet_info h payload) (firewall n)) as Hc.
  destruct (Firewall.firewall_check _ _) as [act fw] eqn:Ef. rewrite bind_eq. cbn [modify].
  case_bool_decide as Ha; cbn [negb].
  - intros _. left. exists eth, p, h, payload. rewrite Ef. split_and!; try done.
    apply andb_false_iff in Ed as [H|H]; apply negb_false_iff, bytes_eqb_eq in H; auto.
  - intros E. injection E as <- <-. right. done.
Qed.


(** ** Examples *)

Definition demo_rtl : RtlNic :=
  {| rtl_mac := [0x52; 0x54; 0; 0x12; 0x34; 0x56]; rtl_ip := [10; 0; 2; 15]; rtl_dma_ok := true; rtl_link := true |}.
Definition demo_virtio : VirtioNic :=
  {| v_mac := [0x52; 0x54; 0; 0x12; 0x34; 0x57]; v_isr := false; v_rx := []; v_tx_ok := true |}.

Definition boot (r : option RtlNic) (v : option VirtioNic) : Net :=
  init {| interfaces := replicate MAX_INTERFACES None; iface_count := 0; arp := Arp.init;
          routes := Routing.init; firewall := Firewall.firewall_init; dns_port := 0; rtl := r; virtio := v;
          rtl_lock := false; net_lock := false; wire := []; up := [] |}.

Lemma virtio_self_deadlock_witness :
  net_poll [] 0 (boot None (Some demo_virtio)) = None /\ send_frame 1 [1; 2; 3] (boot None (Some demo_virtio)) = None.
Proof.
  pose proof (virtio_self_deadlock (boot None (Some demo_virtio)) ltac:(eexists; reflexivity)) as [H1 H2].
  split; [apply H1|by apply H2].
Defined.

Lemma udp_delivery_witness :
  exists frame,
    udp_send 1 4000 9000 [10; 0; 2; 15] [10; 0; 2; 3] [104; 105] (boot (Some demo_rtl) None) =
      Some (true, push_wire Rtl8139 frame (boot (Some demo_rtl) None)) /\
    forall b rb, rtl_ip rb = [10; 0; 2; 3] -> 9000 ∉ [7; 67; 68; 53; dns_port b] ->
      exists d h, rtl_handle_packet rb frame b = Some (tt, push_up (SocketUp 9000 [10; 0; 2; 15] 4000 d) b) /\
        Udp.parse d = Some (h, [104; 105]) /\ src_port h = 4000 /\ dst_port h = 9000.
Proof.
  eapply (udp_delivery (boot (Some demo_rtl) None) 1 _ demo_rtl _ 4000 9000 [10; 0; 2; 15] [10; 0; 2; 3] [104; 105]);
    try (vm_compute; reflexivity); try done; try u8_list; simpl; lia.
Defined.

Definition demo_echo : bytes := default [] (Udp.datagram 4000 7 [104; 105]).
Definition demo_echo_packet : bytes :=
  default [] (Ipv4.raw_packet [10; 0; 2; 2] [10; 0; 2; 15] PROTO_UDP demo_echo).

Lemma udp_echo_deadlock_witness :
  net_poll [eth_header (rtl_mac demo_rtl) [0x52; 0x55; 10; 0; 2; 2] ETH_IPV4 ++ demo_echo_packet ++ []] 0
    (boot (Some demo_rtl) None) = None.
Proof.
  eapply (udp_echo_deadlock (boot (Some demo_rtl) None) demo_rtl _ (rtl_mac demo_rtl) [0x52; 0x55; 10; 0; 2; 2]
    [10; 0; 2; 2] 4000 [104; 105] demo_echo demo_echo_packet);
    try (vm_compute; reflexivity); try done; try u8_list; simpl; lia.
Defined.

(** A frame for another host: nothing is delivered. *)
Lemma poll_packet_guarded_witness :
  let n := boot (Some demo_rtl) None in
  let data := eth_header (rtl_mac demo_rtl) [0x52; 0x55; 10; 0; 2; 2] ETH_IPV4 ++ demo_echo_packet in
  match poll_packet 0 loopback data 0 n with
  | Some (r, n') =>
      admitted loopback data n \/
      (up n' = up n /\ wire n' = wire n /\ fw_conns (firewall n') = fw_conns (firewall n))
  | None => False
  end.
Proof.
  intros n data. destruct (poll_packet 0 loopback data 0 n) as [[r n']|] eqn:E.
  - exact (poll_packet_guarded 0 loopback data 0 n r n' E).
  - vm_compute in E. discriminate.
Defined.


End NicProofs.
