(* ===== verification/Dhcp.v ===== *)
(** DHCP: the client (dhcp.rs) and the server (dhcp_server.rs) of
    src/crates/zenus-net/src.

    The client's handlers are functions of its state.  The server's handler sends its
    replies itself, so it is a computation over the network of Nic.v, which hangs where
    [send_frame] does.  [dhcp_start], which polls the cards, is in DhcpStart.v. *)

From S2P Require Import Prelude Bytes Wire NetTables Nic.

Definition DHCP_SERVER_PORT : Z := 67.
Definition DHCP_CLIENT_PORT : Z := 68.
Definition OP_REQUEST : Z := 1.
Definition OP_REPLY : Z := 2.
Definition MAGIC_COOKIE : bytes := [0x63; 0x82; 0x53; 0x63].
Definition OPT_PAD : Z := 0.
Definition OPT_SUBNET_MASK : Z := 1.
Definition OPT_ROUTER : Z := 3.
Definition OPT_DNS : Z := 6.
Definition OPT_REQ_IP : Z := 50.
Definition OPT_LEASE_TIME : Z := 51.
Definition OPT_MSG_TYPE : Z := 53.
Definition OPT_SERVER_ID : Z := 54.
Definition OPT_PARAM_REQ : Z := 55.
Definition OPT_END : Z := 255.
Definition MSG_DISCOVER : Z := 1.
Definition MSG_OFFER : Z := 2.
Definition MSG_REQUEST : Z := 3.
Definition MSG_ACK : Z := 5.
Definition MSG_NAK : Z := 6.
Definition MAX_OPTIONS : nat := 312.
Definition BCAST_FLAG : Z := 0x8000.

Inductive State := Idle | Discovering | Requesting | Bound.

#[global] Instance State_eq_dec : EqDecision State.
Proof. solve_decision. Defined.

Record DhcpInner := {
  state : State;
  xid : Z;
  server_id : bytes;
  offered_ip : bytes;
  lease_time : Z;
  resp : bytes;           (** [resp_buf[..resp_len]] *)
  resp_ready : bool;
}.

(** Write [x] at [off] and move past it. *)
Definition put (x : bytes) (ob : nat * bytes) : nat * bytes :=
  let '(off, b) := ob in ((off + length x)%nat, splice off x b).

(** The IPv4 packet of either [send_dhcp_udp]: the 548-byte message in a datagram. *)
Definition dhcp_packet (sport dport : Z) (msg src dst : bytes) : bytes :=
  let udp_len := (8 + 548)%nat in
  let u := replicate 1500 0 in
  let u := splice 0 (be16_bytes sport) u in
  let u := splice 2 (be16_bytes dport) u in
  let u := splice 4 (be16_bytes (Z.of_nat udp_len)) u in
  let u := splice 8 msg u in
  let total_len := (20 + udp_len)%nat in
  let b := replicate 1500 0 in
  let b := splice 0 [0x45] b in
  let b := splice 2 (be16_bytes (Z.of_nat total_len)) b in
  let b := splice 6 (be16_bytes 0x4000) b in
  let b := splice 8 [64] b in
  let b := splice 9 [PROTO_UDP] b in
  let b := splice 12 src b in
  let b := splice 16 dst b in
  let b := splice 20 (take udp_len u) b in
  let csum := internet_checksum (take 20 b) in
  let b := splice 10 [Z.shiftr csum 8] b in
  let b := splice 11 [Z.land csum 0xFF] b in
  take total_len b.

Module Client.

Definition init : DhcpInner :=
  {| state := Idle; xid := 0; server_id := [0; 0; 0; 0]; offered_ip := [0; 0; 0; 0]; lease_time := 0;
     resp := []; resp_ready := false |}.

Definition with_state (st : State) (s : DhcpInner) : DhcpInner :=
  {| state := st; xid := xid s; server_id := server_id s; offered_ip := offered_ip s;
     lease_time := lease_time s; resp := resp s; resp_ready := resp_ready s |}.
Definition with_xid (x : Z) (s : DhcpInner) : DhcpInner :=
  {| state := state s; xid := x; server_id := server_id s; offered_ip := offered_ip s;
     lease_time := lease_time s; resp := resp s; resp_ready := resp_ready s |}.
Definition with_ready (r : bool) (s : DhcpInner) : DhcpInner :=
  {| state := state s; xid := xid s; server_id := server_id s; offered_ip := offered_ip s;
     lease_time := lease_time s; resp := resp s; resp_ready := r |}.
Definition with_resp (p : bytes) (s : DhcpInner) : DhcpInner :=
  {| state := state s; xid := xid s; server_id := server_id s; offered_ip := offered_ip s;
     lease_time := lease_time s; resp := p; resp_ready := true |}.
Definition with_offer (ip srv : bytes) (lease : Z) (s : DhcpInner) : DhcpInner :=
  {| state := Requesting; xid := xid s; server_id := srv; offered_ip := ip;
     lease_time := lease; resp := resp s; resp_ready := resp_ready s |}.

Definition opt4 (code : Z) (v : option bytes) (ob : nat * bytes) : nat * bytes :=
  match v with Some ip => put ([code; 4] ++ ip) ob | None => ob end.

Definition build_dhcp_msg (op xid : Z) (ciaddr mac : bytes) (msg_type : Z)
    (server_id req_ip : option bytes) : bytes :=
  let b := replicate 548 0 in
  let b := splice 0 [op] b in
  let b := splice 1 [1] b in
  let b := splice 2 [6] b in
  let b := splice 3 [0] b in
  let b := splice 4 (be32_bytes xid) b in
  let b := splice 10 (be16_bytes BCAST_FLAG) b in
  let b := splice 12 ciaddr b in
  let b := splice 28 mac b in
  let ob := put MAGIC_COOKIE (236%nat, b) in
  let ob := put [OPT_MSG_TYPE; 1; msg_type] ob in
  let ob := opt4 OPT_SERVER_ID server_id ob in
  let ob := opt4 OPT_REQ_IP req_ip ob in
  let ob := put [OPT_PARAM_REQ; 3; OPT_SUBNET_MASK; OPT_ROUTER; OPT_DNS] ob in
  let ob := put [OPT_END] ob in
  let '(off, b) := ob in
  splice off (replicate (548 - off) OPT_PAD) b.

Definition handle_receive (packet : bytes) (s : DhcpInner) : bool * DhcpInner :=
  if (length packet <? 8)%nat then (false, s)
  else
    match Udp.parse packet with
    | None => (false, s)
    | Some (hdr, payload) =>
        if negb (src_port hdr =? DHCP_SERVER_PORT) || negb (dst_port hdr =? DHCP_CLIENT_PORT) then (false, s)
        else if (length payload <? 240)%nat then (false, s)
        else if negb (bytes_eqb (slice 236 240 payload) MAGIC_COOKIE) then (false, s)
        else if negb (be32_at payload 4 =? xid s) then (false, s)
        else
          let resp_len := Nat.min (length payload) 1500 in
          if (resp_len <? 240)%nat then (false, s)
          else (true, with_resp (take resp_len payload) s)
    end.

(** The five values [parse_dhcp_options] collects. *)
Record Options := { o_type : Z; o_server : bytes; o_mask : bytes; o_router : bytes; o_lease : Z }.

Definition no_options : Options :=
  {| o_type := 0; o_server := [0; 0; 0; 0]; o_mask := [0; 0; 0; 0]; o_router := [0; 0; 0; 0]; o_lease := 0 |}.

Definition take_option (opt : Z) (val : bytes) (o : Options) : Options :=
  let four := (4 <=? length val)%nat in
  if opt =? OPT_MSG_TYPE then
    if (1 <=? length val)%nat
    then {| o_type := byte_at val 0; o_server := o_server o; o_mask := o_mask o; o_router := o_router o;
            o_lease := o_lease o |}
    else o
  else if opt =? OPT_SERVER_ID then
    if four then {| o_type := o_type o; o_server := take 4 val; o_mask := o_mask o; o_router := o_router o;
                    o_lease := o_lease o |} else o
  else if opt =? OPT_SUBNET_MASK then
    if four then {| o_type := o_type o; o_server := o_server o; o_mask := take 4 val; o_router := o_router o;
                    o_lease := o_lease o |} else o
  else if opt =? OPT_ROUTER then
    if four then {| o_type := o_type o; o_server := o_server o; o_mask := o_mask o; o_router := take 4 val;
                    o_lease := o_lease o |} else o
  else if opt =? OPT_LEASE_TIME then
    if four then {| o_type := o_type o; o_server := o_server o; o_mask := o_mask o; o_router := o_router o;
                    o_lease := be32_at val 0 |} else o
  else o.

(** Each turn moves [off] forward, so as many turns as there are bytes suffice. *)
Fixpoint option_loop (fuel : nat) (payload : bytes) (stop off : nat) (o : Options) : Options :=
  match fuel with
  | O => o
  | S fuel =>
      if (off + 1 <? stop)%nat then
        let opt := byte_at payload off in
        if opt =? OPT_END then o
        else if opt =? OPT_PAD then option_loop fuel payload stop (off + 1) o
        else if (stop <=? off + 1)%nat then o
        else
          let len := Z.to_nat (byte_at payload (off + 1)) in
          if (stop <? off + 2 + len)%nat then o
          else option_loop fuel payload stop (off + 2 + len)
                 (take_option opt (slice (off + 2) (off + 2 + len) payload) o)
      else o
  end.

Definition parse_dhcp_options (payload : bytes) : Options :=
  option_loop (length payload) payload (Nat.min (length payload) (240 + MAX_OPTIONS)) 240 no_options.

Definition dhcp_handle_response (our_mac : bytes) (s : DhcpInner) (n : Net) : bool * DhcpInner * Net :=
  if negb (resp_ready s) then (false, s, n)
  else
    let s := with_ready false s in
    let d := resp s in
    if (length d <? 240)%nat then (false, s, n)
    else if negb (bytes_eqb (slice 236 240 d) MAGIC_COOKIE) then (false, s, n)
    else if negb (be32_at d 4 =? xid s) then (false, s, n)
    else if negb (byte_at d 0 =? OP_REPLY) then (false, s, n)
    else if negb (bytes_eqb (slice 28 34 d) our_mac) then (false, s, n)
    else
      let o := parse_dhcp_options d in
      let offered := slice 16 20 d in
      if o_type o =? MSG_OFFER then
        if negb (bool_decide (state s = Discovering)) then (false, s, n)
        else (true, with_offer offered (o_server o) (o_lease o) s, n)
      else if o_type o =? MSG_ACK then
        if negb (bool_decide (state s = Requesting)) then (false, s, n)
        else
          let gw := if bytes_eqb (o_router o) [0; 0; 0; 0] then o_server o else o_router o in
          let '(_, n) := Nic.set_iface_ip 1 offered (o_mask o) gw n in
          let n := set_routes Routing.clear n in
          let n := set_routes (Routing.add_direct (Routing.ip_masked offered (o_mask o)) (o_mask o) 1 (routes n)).2 n in
          let n := set_routes (Routing.add_default gw 1 (routes n)).2 n in
          (true, with_state Bound s, n)
      else (true, s, n).

End Client.

Definition LEASE_TABLE_SIZE : nat := 16.
Definition POOL_START_OCTETS : bytes := [10; 0; 2; 100].
Definition POOL_SIZE : Z := 16.
Definition DEFAULT_LEASE_SECS : Z := 86400.

Record Lease := { l_ip : bytes; l_mac : bytes; expires : Z }.

Module Server.

Notation leases := (list (option Lease)).

Definition init : leases := replicate LEASE_TABLE_SIZE None.

Definition ip_to_u32 (ip : bytes) : Z := be32_at ip 0.

Definition expired (now : Z) (l : Lease) : bool := negb (expires l =? 0) && (expires l <=? now).

Definition reap_expired (now : Z) (t : leases) : leases :=
  map (fun slot => match slot with
                   | Some l => if expired now l then None else Some l
                   | None => None
                   end) t.

Definition ip_to_pool_offset (ip : bytes) : option Z :=
  let base := ip_to_u32 POOL_START_OCTETS in
  let v := ip_to_u32 ip in
  if (base <=? v) && (v <? base + POOL_SIZE) then Some (v - base) else None.

Definition pool_offset_to_ip (offset : Z) : bytes := be32_bytes (ip_to_u32 POOL_START_OCTETS + offset).

Definition has_mac (mac : bytes) (slot : option Lease) : bool :=
  match slot with Some l => bytes_eqb (l_mac l) mac | None => false end.
Definition has_ip (ip : bytes) (slot : option Lease) : bool :=
  match slot with Some l => bytes_eqb (l_ip l) ip | None => false end.

(** The searches first drop what has expired at the time they read. *)
Definition find_lease_by_mac (now : Z) (mac : bytes) (t : leases) : option nat * leases :=
  let t := reap_expired now t in (find_index (has_mac mac) t, t).
Definition find_lease_by_ip (now : Z) (ip : bytes) (t : leases) : option nat * leases :=
  let t := reap_expired now t in (find_index (has_ip ip) t, t).
Definition alloc_lease (now : Z) (t : leases) : option nat * leases :=
  let t := reap_expired now t in (find_index Routing.is_none t, t).

Definition free_in_pool (server : bytes) (t : leases) (offset : Z) : bool :=
  let ip := pool_offset_to_ip offset in
  negb (ip_to_u32 ip =? ip_to_u32 server) && negb (existsb (has_ip ip) t).

Definition allocate_ip (now : Z) (server mac : bytes) (t : leases) : option bytes * leases :=
  let '(found, t) := find_lease_by_mac now mac t in
  match found with
  | Some idx => (l_ip <$> mjoin (t !! idx), t)
  | None => (pool_offset_to_ip <$> List.find (free_in_pool server t) (seqZ 0 POOL_SIZE), t)
  end.

Definition get_server_ip (n : Net) : bytes := default [0; 0; 0; 0] (if_ip <$> Nic.get_iface 1 n).
Definition get_server_subnet (n : Net) : bytes := default [255; 255; 255; 0] (subnet_mask <$> Nic.get_iface 1 n).
Definition get_server_gateway (n : Net) : bytes := default [0; 0; 0; 0] (if_gateway <$> Nic.get_iface 1 n).

(** As many turns as there are bytes suffice. *)
Fixpoint find_option_loop (fuel : nat) (payload : bytes) (opt_type : Z) (off : nat) : option bytes :=
  match fuel with
  | O => None
  | S fuel =>
      if (off + 1 <? length payload)%nat then
        let t := byte_at payload off in
        if t =? OPT_END then None
        else if t =? OPT_PAD then find_option_loop fuel payload opt_type (off + 1)
        else
          let len := Z.to_nat (byte_at payload (off + 1)) in
          if (length payload <? off + 2 + len)%nat then None
          else if t =? opt_type then Some (slice (off + 2) (off + 2 + len) payload)
          else find_option_loop fuel payload opt_type (off + 2 + len)
      else None
  end.

Definition find_option (payload : bytes) (opt_type : Z) : option bytes :=
  find_option_loop (length payload) payload opt_type 240.

Definition build_dhcp_reply (request : bytes) (msg_type : Z) (yiaddr server_ip mask gateway : bytes)
    (lease_secs : Z) : bytes :=
  let b := replicate 548 0 in
  let b := splice 0 [OP_REPLY] b in
  let b := splice 1 [1] b in
  let b := splice 2 [6] b in
  let b := splice 3 [0] b in
  let b := splice 4 (slice 4 8 request) b in
  let b := splice 8 [byte_at request 8] b in
  let b := splice 9 [byte_at request 9] b in
  let b := splice 10 (slice 10 12 request) b in
  let b := splice 12 (slice 12 16 request) b in
  let b := splice 16 yiaddr b in
  let b := splice 20 server_ip b in
  let b := splice 28 (slice 28 44 request) b in
  let b := splice 44 (slice 44 108 request) b in
  let b := splice 108 (slice 108 236 request) b in
  let b := splice 236 MAGIC_COOKIE b in
  let ob := put [OPT_MSG_TYPE; 1; msg_type] (240%nat, b) in
  let ob := put ([OPT_SERVER_ID; 4] ++ server_ip) ob in
  let ob := put ([OPT_LEASE_TIME; 4] ++ be32_bytes lease_secs) ob in
  let ob := put ([OPT_SUBNET_MASK; 4] ++ mask) ob in
  let ob := put ([OPT_ROUTER; 4] ++ gateway) ob in
  let ob := put ([OPT_DNS; 4] ++ [10; 0; 2; 3]) ob in
  let ob := put [OPT_END] ob in
  let '(off, b) := ob in
  splice off (replicate (548 - off) OPT_PAD) b.

Definition get_lease_secs (opt : option bytes) : Z :=
  match opt with
  | Some val =>
      if (4 <=? length val)%nat then
        let requested := be32_at val 0 in
        if (0 <? requested) && (requested <=? DEFAULT_LEASE_SECS) then requested else DEFAULT_LEASE_SECS
      else DEFAULT_LEASE_SECS
  | None => DEFAULT_LEASE_SECS
  end.

(** The slot for [mac]: its own, or a free one. [now1] and [now2] are the times the
    two searches read. *)
Definition slot_for (now1 now2 : Z) (mac : bytes) (t : leases) : option nat * leases :=
  let '(found, t) := find_lease_by_mac now1 mac t in
  match found with
  | Some idx => (Some idx, t)
  | None => alloc_lease now2 t
  end.

Definition store (idx : nat) (ip mac : bytes) (now secs : Z) (t : leases) : leases :=
  <[idx := Some {| l_ip := ip; l_mac := mac; expires := (now + secs) mod 2 ^ 32 |}]> t.

(** [send_dhcp_udp] of the server; its result is dropped. *)
Definition send_dhcp_udp (idx : nat) (msg src dst : bytes) : M unit :=
  Nic.send_broadcast_packet idx (dhcp_packet DHCP_SERVER_PORT DHCP_CLIENT_PORT msg src dst) ≫= fun _ => mret tt.

(** The two branches of [handle_receive].  [clk k] is the k-th reading of the clock during the call. *)
Definition on_discover (clk : nat -> Z) (iface_idx : nat) (server payload mac : bytes) (t : leases) : M (bool * leases) :=
  let '(o, t) := allocate_ip (clk 0%nat) server mac t in
  match o with
  | None => mret (false, t)
  | Some ip =>
      let '(o, t) := slot_for (clk 1%nat) (clk 2%nat) mac t in
      match o with
      | None => mret (false, t)
      | Some idx =>
          let secs := get_lease_secs (find_option payload OPT_LEASE_TIME) in
          get get_server_subnet ≫= fun subnet => get get_server_gateway ≫= fun gateway =>
          let reply := build_dhcp_reply payload MSG_OFFER ip server subnet gateway secs in
          let t := store idx ip mac (clk 3%nat) secs t in
          send_dhcp_udp iface_idx reply server [255; 255; 255; 255] ≫= fun _ => mret (true, t)
      end
  end.

(** The address a request names, in its option or in [ciaddr]. *)
Definition requested_ip (payload : bytes) : option bytes :=
  match find_option payload OPT_REQ_IP with
  | Some val => if (4 <=? length val)%nat then Some (take 4 val) else None
  | None => Some (slice 12 16 payload)
  end.

Definition on_request (clk : nat -> Z) (iface_idx : nat) (server payload mac : bytes) (t : leases) : M (bool * leases) :=
  match requested_ip payload with
  | None => mret (false, t)
  | Some req_ip =>
      if bytes_eqb req_ip [0; 0; 0; 0] then mret (false, t)
      else
        let '(found, t) := find_lease_by_ip (clk 0%nat) req_ip t in
        let valid :=
          match found with
          | Some idx => has_mac mac (mjoin (t !! idx))
          | None => bool_decide (is_Some (ip_to_pool_offset req_ip)) && negb (bytes_eqb req_ip server)
          end in
        if valid then
          let '(o, t) := slot_for (clk 1%nat) (clk 2%nat) mac t in
          match o with
          | None => mret (false, t)
          | Some idx =>
              let secs := get_lease_secs (find_option payload OPT_LEASE_TIME) in
              get get_server_subnet ≫= fun subnet => get get_server_gateway ≫= fun gateway =>
              let reply := build_dhcp_reply payload MSG_ACK req_ip server subnet gateway secs in
              let t := store idx req_ip mac (clk 3%nat) secs t in
              send_dhcp_udp iface_idx reply server [255; 255; 255; 255] ≫= fun _ => mret (true, t)
          end
        else
          let reply := build_dhcp_reply payload MSG_NAK [0; 0; 0; 0] server [0; 0; 0; 0] [0; 0; 0; 0] 0 in
          send_dhcp_udp iface_idx reply server [255; 255; 255; 255] ≫= fun _ => mret (true, t)
  end.

Definition handle_receive (clk : nat -> Z) (iface_idx : nat) (packet : bytes) (t : leases) : M (bool * leases) :=
  if (length packet <? 8)%nat then mret (false, t)
  else
    match Udp.parse packet with
    | None => mret (false, t)
    | Some (hdr, payload) =>
        if negb (dst_port hdr =? DHCP_SERVER_PORT) || negb (src_port hdr =? DHCP_CLIENT_PORT) then mret (false, t)
        else if (length payload <? 240)%nat then mret (false, t)
        else if negb (bytes_eqb (slice 236 240 payload) MAGIC_COOKIE) then mret (false, t)
        else if negb (byte_at payload 0 =? OP_REQUEST) then mret (false, t)
        else if negb (byte_at payload 1 =? 1) || negb (byte_at payload 2 =? 6) then mret (false, t)
        else
          let mac := slice 28 34 payload in
          match find_option payload OPT_MSG_TYPE with
          | None => mret (false, t)
          | Some val =>
              if (length val <? 1)%nat then mret (false, t)
              else
                get get_server_ip ≫= fun server =>
                if bytes_eqb server [0; 0; 0; 0] then mret (false, t)
                else if byte_at val 0 =? MSG_DISCOVER then on_discover clk iface_idx server payload mac t
                else if byte_at val 0 =? MSG_REQUEST then on_request clk iface_idx server payload mac t
                else mret (false, t)
          end
    end.

Definition lease_count (t : leases) : nat := length (List.filter (fun o => negb (Routing.is_none o)) t).

End Server.

Module ServerProofs.
Import Server.

(** ** The lease table *)

Definition in_pool (ip : bytes) : Prop := length ip = 4%nat /\ is_Some (ip_to_pool_offset ip).

(** No address and no client has two leases, and every address is of the pool. *)
Record leases_ok (t : list (option Lease)) : Prop := {
  lo_ip : forall i j l l', t !! i = Some (Some l) -> t !! j = Some (Some l') -> l_ip l = l_ip l' -> i = j;
  lo_mac : forall i j l l', t !! i = Some (Some l) -> t !! j = Some (Some l') -> l_mac l = l_mac l' -> i = j;
  lo_pool : forall i l, t !! i = Some (Some l) -> in_pool (l_ip l);
}.

(** Every lease of [t'] is one of [t], in the same slot. *)
Definition sub_leases (t' t : list (option Lease)) : Prop :=
  length t' = length t /\ forall i l, t' !! i = Some (Some l) -> t !! i = Some (Some l).

Lemma sub_leases_ok t' t : sub_leases t' t -> leases_ok t -> leases_ok t'.
Proof. intros [_ Hs] [H1 H2 H3]. constructor; intros; eauto. Qed.

Lemma sub_leases_trans t1 t2 t3 : sub_leases t1 t2 -> sub_leases t2 t3 -> sub_leases t1 t3.
Proof. intros [L1 H1] [L2 H2]. split; [congruence|auto]. Qed.

Lemma reap_sub now t : sub_leases (reap_expired now t) t.
Proof.
  split; [apply length_map|]. intros i l. unfold reap_expired. change (map ?f t) with (f <$> t).
  rewrite list_lookup_fmap. destruct (t !! i) as [[l'|]|]; cbn; try done.
  by destruct (expired now l'); intros E; inversion E.
Qed.

(** Whoever holds [ip] is [mac]. *)
Definition claims (t : list (option Lease)) (ip mac : bytes) : Prop :=
  forall i l, t !! i = Some (Some l) -> l_ip l = ip -> l_mac l = mac.

Lemma claims_sub t' t ip mac : sub_leases t' t -> claims t ip mac -> claims t' ip mac.
Proof. intros [_ Hs] H i l Hi. by apply (H i l), Hs. Qed.

Lemma has_mac_true mac slot : has_mac mac slot = true <-> exists l, slot = Some l /\ l_mac l = mac.
Proof.
  destruct slot as [l|]; cbn; [|naive_solver]. rewrite bytes_eqb_eq. naive_solver.
Qed.

Lemma has_ip_true ip slot : has_ip ip slot = true <-> exists l, slot = Some l /\ l_ip l = ip.
Proof.
  destruct slot as [l|]; cbn; [|naive_solver]. rewrite bytes_eqb_eq. naive_solver.
Qed.

Lemma find_by_None (p : option Lease -> bool) t i l :
  find_index p t = None -> t !! i = Some (Some l) -> p (Some l) = false.
Proof. intros H Hi. apply find_index_None in H. by eapply Forall_lookup_1 in H; [|exact Hi]. Qed.

(** The slot found is the client's own, or free while the client has none. *)
Lemma slot_for_spec now1 now2 mac t idx t' :
  slot_for now1 now2 mac t = (Some idx, t') ->
  sub_leases t' t /\ (idx < length t')%nat /\
  ((exists l, t' !! idx = Some (Some l) /\ l_mac l = mac) \/
   (forall i l, t' !! i = Some (Some l) -> l_mac l <> mac)).
Proof.
  unfold slot_for, find_lease_by_mac, alloc_lease. set (t1 := reap_expired now1 t).
  pose proof (reap_sub now1 t) as Hs1. fold t1 in Hs1.
  destruct (find_index (has_mac mac) t1) as [i|] eqn:Em.
  - intros E. injection E as <- <-. apply find_index_Some in Em as [(s & Hi & (l & -> & Hl)%has_mac_true) _].
    split_and!; [done|by eapply lookup_lt_Some|]. left. by exists l.
  - intros E. injection E as Ei <-. set (t2 := reap_expired now2 t1) in *.
    pose proof (reap_sub now2 t1) as Hs2. fold t2 in Hs2.
    apply find_index_Some in Ei as [(s & Hi & _) _].
    split_and!; [by eapply sub_leases_trans|by eapply lookup_lt_Some|]. right. intros j l Hj E.
    destruct Hs2 as [_ Hs2]. pose proof (find_by_None _ _ _ _ Em (Hs2 _ _ Hj)) as Hf.
    cbn in Hf. by apply bytes_eqb_neq in Hf.
Qed.

Lemma lease_store_lookup t idx ip mac now secs i l :
  store idx ip mac now secs t !! i = Some (Some l) ->
  (i = idx /\ l_ip l = ip /\ l_mac l = mac) \/ (i <> idx /\ t !! i = Some (Some l)).
Proof.
  unfold store. intros [(<- & E & _)|[Hn Hi]]%list_lookup_insert_Some; [|by right].
  injection E as <-. by left.
Qed.

Lemma slot_store_ok now1 now2 ip mac t idx t' now secs :
  leases_ok t -> claims t ip mac -> in_pool ip -> slot_for now1 now2 mac t = (Some idx, t') ->
  leases_ok (store idx ip mac now secs t').
Proof.
  intros Hok Hcl Hp Hslot. apply slot_for_spec in Hslot as (Hsub & Hlt & Hslot).
  pose proof (sub_leases_ok _ _ Hsub Hok) as [Hi Hm Hpool]. pose proof (claims_sub _ _ _ _ Hsub Hcl) as Hcl'.
  assert (Hown : forall j l, t' !! j = Some (Some l) -> l_ip l = ip \/ l_mac l = mac -> j = idx).
  { intros j l Hj H. assert (Hlm : l_mac l = mac) by (destruct H; [by eapply Hcl'|done]).
    destruct Hslot as [(l' & Hl' & El')|Hno]; [eapply Hm; eauto; congruence|by destruct (Hno j l)]. }
  constructor.
  - intros i j l l' Hl Hl' E. apply lease_store_lookup in Hl, Hl'.
    destruct Hl as [(-> & Ei & _)|[Hn Hl]], Hl' as [(-> & Ej & _)|[Hn' Hl']]; [done| | |by eapply Hi].
    + symmetry. eapply Hown; [exact Hl'|left; congruence].
    + eapply Hown; [exact Hl|left; congruence].
  - intros i j l l' Hl Hl' E. apply lease_store_lookup in Hl, Hl'.
    destruct Hl as [(-> & _ & Ei)|[Hn Hl]], Hl' as [(-> & _ & Ej)|[Hn' Hl']]; [done| | |by eapply Hm].
    + symmetry. eapply Hown; [exact Hl'|right; congruence].
    + eapply Hown; [exact Hl|right; congruence].
  - intros i l Hl. apply lease_store_lookup in Hl as [(_ & -> & _)|[_ Hl]]; [done|by eapply Hpool].
Qed.

Lemma pool_ip_in_pool o : 0 <= o < POOL_SIZE -> in_pool (pool_offset_to_ip o).
Proof.
  intros Ho. split; [done|]. unfold ip_to_pool_offset.
  assert (E : ip_to_u32 (pool_offset_to_ip o) = ip_to_u32 POOL_START_OCTETS + o).
  { unfold pool_offset_to_ip. apply be32_of_bytes. unfold is_u32. change (ip_to_u32 POOL_START_OCTETS) with 167772772.
    unfold POOL_SIZE in Ho. lia. }
  rewrite E. destruct (Z.leb_spec (ip_to_u32 POOL_START_OCTETS) (ip_to_u32 POOL_START_OCTETS + o)); [|lia].
  destruct (Z.ltb_spec (ip_to_u32 POOL_START_OCTETS + o) (ip_to_u32 POOL_START_OCTETS + POOL_SIZE)); [|lia].
  by eexists.
Qed.

Lemma allocate_ip_spec now server mac t ip t' :
  leases_ok t -> allocate_ip now server mac t = (Some ip, t') ->
  sub_leases t' t /\ claims t' ip mac /\ in_pool ip.
Proof.
  intros Hok. unfold allocate_ip, find_lease_by_mac. set (t1 := reap_expired now t).
  pose proof (reap_sub now t) as Hs. fold t1 in Hs. pose proof (sub_leases_ok _ _ Hs Hok) as Hok1.
  destruct (find_index (has_mac mac) t1) as [i|] eqn:Em.
  - apply find_index_Some in Em as [(s & Hi & (l & -> & Hl)%has_mac_true) _]. rewrite Hi. cbn.
    intros E. injection E as <- <-. split_and!; [done| |by eapply (lo_pool t1 Hok1)].
    intros j l' Hj E. assert (j = i) as -> by (by eapply (lo_ip t1 Hok1)). rewrite Hi in Hj. by injection Hj as <-.
  - destruct (List.find _ (seqZ 0 POOL_SIZE)) as [o|] eqn:Ef; cbn; [|done].
    intros E. injection E as <- <-. apply find_some in Ef as [Hin Hfree].
    apply list_elem_of_In, elem_of_seqZ in Hin. split_and!; [done| |apply pool_ip_in_pool; lia].
    apply andb_true_iff in Hfree as [_ Hfree]. apply negb_true_iff in Hfree.
    intros j l Hj E. exfalso. assert (Hex : existsb (has_ip (pool_offset_to_ip o)) t1 = true); [|congruence].
    apply existsb_exists. exists (Some l). split; [by apply list_elem_of_In, list_elem_of_lookup; exists j|].
    apply has_ip_true. by exists l.
Qed.

(** ** Replies *)

(** The copies that make up a reply. *)
Definition reply_writes (request : bytes) (ty : Z) (yi srv mask gw : bytes) (secs : Z) : list (nat * bytes) :=
  [(0%nat, [OP_REPLY]); (1%nat, [1]); (2%nat, [6]); (3%nat, [0]); (4%nat, slice 4 8 request); (8%nat, [byte_at request 8]);
   (9%nat, [byte_at request 9]); (10%nat, slice 10 12 request); (12%nat, slice 12 16 request); (16%nat, yi); (20%nat, srv);
   (28%nat, slice 28 44 request); (44%nat, slice 44 108 request); (108%nat, slice 108 236 request); (236%nat, MAGIC_COOKIE);
   (240%nat, [OPT_MSG_TYPE; 1; ty]); (243%nat, [OPT_SERVER_ID; 4] ++ srv); (249%nat, [OPT_LEASE_TIME; 4] ++ be32_bytes secs);
   (255%nat, [OPT_SUBNET_MASK; 4] ++ mask); (261%nat, [OPT_ROUTER; 4] ++ gw); (267%nat, [OPT_DNS; 4] ++ [10; 0; 2; 3]);
   (273%nat, [OPT_END]); (274%nat, replicate 274 OPT_PAD)].

Lemma reply_eq request ty yi srv mask gw secs :
  length srv = 4%nat -> length mask = 4%nat -> length gw = 4%nat ->
  build_dhcp_reply request ty yi srv mask gw secs =
  write_all (reply_writes request ty yi srv mask gw secs) (replicate 548 0).
Proof.
  intros (s0&s1&s2&s3&->)%length_4_inv (m0&m1&m2&m3&->)%length_4_inv (g0&g1&g2&g3&->)%length_4_inv.
  unfold build_dhcp_reply, put, write_all, reply_writes, be32_bytes. cbn [length app Nat.add foldl fst snd].
  change (548 - 274)%nat with 274%nat. reflexivity.
Qed.


Definition reply_head (request yi srv : bytes) : bytes :=
  write_all (take 15 (reply_writes request 0 yi srv [] [] 0)) (replicate 240 0).

Definition reply_opts (ty : Z) (srv mask gw : bytes) (secs : Z) : bytes :=
  [OPT_MSG_TYPE; 1; ty] ++ [OPT_SERVER_ID; 4] ++ srv ++ [OPT_LEASE_TIME; 4] ++ be32_bytes secs ++
  [OPT_SUBNET_MASK; 4] ++ mask ++ [OPT_ROUTER; 4] ++ gw ++ [OPT_DNS; 4; 10; 0; 2; 3] ++ [OPT_END] ++
  replicate 274 0.

Lemma head_fits request yi srv :
  (236 <= length request)%nat -> length yi = 4%nat -> length srv = 4%nat ->
  Forall (fun w => w.1 + length w.2 <= 240)%nat (take 15 (reply_writes request 0 yi srv [] [] 0)).
Proof.
  intros Hr Hy Hs. unfold reply_writes. cbn [firstn]. repeat (apply Forall_cons; split; [cbn [fst snd]|]);
    try apply Forall_nil_2; rewrite ?length_slice by lia; simpl; lia.
Qed.

Lemma reply_split request ty yi srv mask gw secs :
  (236 <= length request)%nat -> length yi = 4%nat ->
  length srv = 4%nat -> length mask = 4%nat -> length gw = 4%nat ->
  build_dhcp_reply request ty yi srv mask gw secs = reply_head request yi srv ++ reply_opts ty srv mask gw secs /\
  length (reply_head request yi srv) = 240%nat.
Proof.
  intros Hr Hy Hs Hm Hg. pose proof (head_fits request yi srv Hr Hy Hs) as Hfit. split.
  - rewrite reply_eq by done. rewrite (replicate_split 240 548 0) by lia.
    rewrite <- (take_drop 15 (reply_writes request ty yi srv mask gw secs)).
    rewrite write_all_split; rewrite ?length_replicate.
    + unfold reply_head. f_equal. revert Hs Hm Hg.
      intros (s0&s1&s2&s3&->)%length_4_inv (m0&m1&m2&m3&->)%length_4_inv (g0&g1&g2&g3&->)%length_4_inv.
      unfold be32_bytes, reply_opts. reflexivity.
    + exact Hfit.
    + unfold reply_writes. cbn [drop]. repeat constructor; cbn; lia.
  - unfold reply_head. rewrite length_write_all; rewrite length_replicate; done.
Qed.

(** The fields of the fixed header. *)
Lemma head_fields request yi srv :
  (236 <= length request)%nat -> length yi = 4%nat -> length srv = 4%nat ->
  let h := reply_head request yi srv in
  slice 0 1 h = [OP_REPLY] /\ slice 4 8 h = slice 4 8 request /\ slice 16 20 h = yi /\
  slice 28 44 h = slice 28 44 request /\ slice 236 240 h = MAGIC_COOKIE.
Proof.
  intros Hr Hy Hs h. unfold h, reply_head.
  pose proof (head_fits request yi srv Hr Hy Hs) as Hfit.
  assert (Hread : forall k a b x,
    take 15 (reply_writes request 0 yi srv [] [] 0) !! k = Some (a, x) -> b = (a + length x)%nat ->
    Forall (fun w => b <= w.1 \/ w.1 + length w.2 <= a)%nat (drop (S k) (take 15 (reply_writes request 0 yi srv [] [] 0))) ->
    slice a b (write_all (take 15 (reply_writes request 0 yi srv [] [] 0)) (replicate 240 0)) = x).
  { intros k a b x Hk Hb Hm. apply (slice_write_at _ k); [done| |done|done]. by rewrite length_replicate. }
  split_and!.
  - apply (Hread 0%nat); [done|done|]. cbn [reply_writes firstn skipn].
    repeat (apply Forall_cons; split; [cbn [fst snd]; left; lia|]). apply Forall_nil_2.
  - apply (Hread 4%nat); [done|by rewrite length_slice by lia|]. cbn [reply_writes firstn skipn].
    repeat (apply Forall_cons; split; [cbn [fst snd]; left; lia|]). apply Forall_nil_2.
  - apply (Hread 9%nat); [done|by rewrite Hy|]. cbn [reply_writes firstn skipn].
    repeat (apply Forall_cons; split; [cbn [fst snd]; left; lia|]). apply Forall_nil_2.
  - apply (Hread 11%nat); [done|by rewrite length_slice by lia|]. cbn [reply_writes firstn skipn].
    repeat (apply Forall_cons; split; [cbn [fst snd]; left; lia|]). apply Forall_nil_2.
  - apply (Hread 14%nat); [done|done|]. apply Forall_nil_2.
Qed.


(** ** Serving *)

#[local] Opaque build_dhcp_reply find_option get_lease_secs.

Record net_ok (n : Net) : Prop := {
  no_ip : length (get_server_ip n) = 4%nat;
  no_mask : length (get_server_subnet n) = 4%nat;
  no_gw : length (get_server_gateway n) = 4%nat;
}.

(** The reply promises [ip], and the table has it for [mac]. *)
Definition granted (n : Net) (payload mac reply : bytes) (t : list (option Lease)) : Prop :=
  exists ty ip secs i l, (ty = MSG_OFFER \/ ty = MSG_ACK) /\ length ip = 4%nat /\
    reply = build_dhcp_reply payload ty ip (get_server_ip n) (get_server_subnet n) (get_server_gateway n) secs /\
    t !! i = Some (Some l) /\ l_ip l = ip /\ l_mac l = mac.

Definition refused (n : Net) (payload reply : bytes) : Prop :=
  reply = build_dhcp_reply payload MSG_NAK [0; 0; 0; 0] (get_server_ip n) [0; 0; 0; 0] [0; 0; 0; 0] 0.

(** The handler has sent [reply] and left the table [t]. *)
Definition answered (idx : nat) (n : Net) (reply : bytes) (t : list (option Lease)) : option (bool * list (option Lease) * Net) :=
  (send_dhcp_udp idx reply (get_server_ip n) [255; 255; 255; 255] ≫= fun _ => mret (true, t)) n.

(** What a branch of the handler does: it drops the message, or answers with a promise that the table keeps or a refusal. *)
Definition serves (idx : nat) (n : Net) (payload mac : bytes) (res : option (bool * list (option Lease) * Net)) : Prop :=
  (exists t, leases_ok t /\ res = Some (false, t, n)) \/
  (exists reply t, leases_ok t /\ (granted n payload mac reply t \/ refused n payload reply) /\ res = answered idx n reply t).

Lemma grant_ok idx n payload mac t now1 now2 now ip ty i t' :
  leases_ok t -> claims t ip mac -> in_pool ip -> slot_for now1 now2 mac t = (Some i, t') ->
  ty = MSG_OFFER \/ ty = MSG_ACK ->
  let secs := get_lease_secs (find_option payload OPT_LEASE_TIME) in
  serves idx n payload mac
    (answered idx n (build_dhcp_reply payload ty ip (get_server_ip n) (get_server_subnet n) (get_server_gateway n) secs)
       (store i ip mac now secs t')).
Proof.
  intros Hok Hcl Hp Hs Hty secs. right. eexists _, _. split; [by eapply slot_store_ok|]. split; [left|reflexivity].
  exists ty, ip, secs, i, {| l_ip := ip; l_mac := mac; expires := (now + secs) mod 2 ^ 32 |}.
  split_and!; try done; [apply Hp|]. unfold store. rewrite list_lookup_insert_eq; [done|].
  apply slot_for_spec in Hs. apply Hs.
Qed.

Lemma slot_for_sub now1 now2 mac t : sub_leases (slot_for now1 now2 mac t).2 t.
Proof.
  unfold slot_for, find_lease_by_mac, alloc_lease. destruct (find_index _ _); cbn; [apply reap_sub|].
  eapply sub_leases_trans; apply reap_sub.
Qed.

Lemma allocate_ip_sub now server mac t : sub_leases (allocate_ip now server mac t).2 t.
Proof. unfold allocate_ip, find_lease_by_mac. destruct (find_index _ _); apply reap_sub. Qed.

Lemma on_discover_ok clk idx n payload mac t :
  leases_ok t -> serves idx n payload mac (on_discover clk idx (get_server_ip n) payload mac t n).
Proof.
  intros Hok. unfold on_discover. destruct (allocate_ip _ _ mac t) as [[ip|] t1] eqn:Ea.
  - apply allocate_ip_spec in Ea as (Hsub & Hcl & Hp); [|done].
    pose proof (sub_leases_ok _ _ Hsub Hok) as Hok1.
    pose proof (slot_for_sub (clk 1%nat) (clk 2%nat) mac t1) as Hs2.
    destruct (slot_for _ _ mac t1) as [[i|] t2] eqn:Es; [by eapply grant_ok; [..|left]|].
    left. exists t2. split; [by eapply sub_leases_ok|done].
  - left. exists t1. split; [|done]. pose proof (allocate_ip_sub (clk 0%nat) (get_server_ip n) mac t) as Hsub.
    rewrite Ea in Hsub. by eapply sub_leases_ok.
Qed.

Lemma requested_ip_length payload ip :
  (240 <= length payload)%nat -> requested_ip payload = Some ip -> length ip = 4%nat.
Proof.
  intros Hl. unfold requested_ip. destruct (find_option _ _) as [val|].
  - destruct (Nat.leb_spec 4 (length val)); [|done]. intros E. injection E as <-. rewrite length_take. lia.
  - intros E. injection E as <-. rewrite length_slice; lia.
Qed.

Lemma on_request_ok clk idx n payload mac t :
  leases_ok t -> (240 <= length payload)%nat -> serves idx n payload mac (on_request clk idx (get_server_ip n) payload mac t n).
Proof.
  intros Hok Hl. unfold on_request.
  destruct (requested_ip payload) as [ip|] eqn:Ereq; [|by left; exists t]. apply requested_ip_length in Ereq; [|done].
  destruct (bytes_eqb ip [0; 0; 0; 0]); [by left; exists t|]. unfold find_lease_by_ip.
  set (t1 := reap_expired (clk 0%nat) t). pose proof (reap_sub (clk 0%nat) t) as Hsub. fold t1 in Hsub.
  pose proof (sub_leases_ok _ _ Hsub Hok) as Hok1.
  match goal with |- context [if ?v then _ else _] => destruct v eqn:Ev end;
    [|right; eexists _, t1; split; [done|]; split; [by right|reflexivity]].
  pose proof (slot_for_sub (clk 1%nat) (clk 2%nat) mac t1) as Hs2.
  destruct (slot_for _ _ mac t1) as [[i'|] t2] eqn:Es; [|left; exists t2; split; [by eapply sub_leases_ok|done]].
  destruct (find_index (has_ip ip) t1) as [i|] eqn:Ei.
  - apply find_index_Some in Ei as [(s & Hi & (l & -> & El)%has_ip_true) _]. rewrite Hi in Ev. cbn in Ev.
    apply bytes_eqb_eq in Ev. eapply grant_ok; [done| | |done|by right].
    + intros j l' Hj E. assert (j = i) as -> by (eapply (lo_ip t1 Hok1); eauto; congruence).
      rewrite Hi in Hj. by injection Hj as <-.
    + rewrite <- El. by eapply (lo_pool t1 Hok1).
  - apply andb_true_iff in Ev as [Hp _]. apply bool_decide_eq_true in Hp.
    eapply grant_ok; [done| |by split|done|by right].
    intros j l' Hj E. pose proof (find_by_None _ _ _ _ Ei Hj) as Hf. cbn in Hf. by apply bytes_eqb_neq in Hf.
Qed.

Lemma handle_receive_ok clk idx n packet t :
  leases_ok t -> exists payload, (240 <= length payload)%nat /\
    serves idx n payload (slice 28 34 payload) (handle_receive clk idx packet t n).
Proof.
  intros Hok. assert (exists payload : bytes, (240 <= length payload)%nat /\ serves idx n payload (slice 28 34 payload) (Some (false, t, n))) as Hno
    by (exists (replicate 240 0); split; [rewrite length_replicate; lia|left; by exists t]).
  unfold handle_receive. destruct (length packet <? 8)%nat; [done|].
  destruct (Udp.parse packet) as [[hdr payload]|]; [|done]. case_match; [done|].
  destruct (Nat.ltb_spec (length payload) 240) as [|Hl]; [done|].
  repeat (case_match; [done|]). destruct (find_option payload OPT_MSG_TYPE) as [val|]; [|done].
  case_match; [done|]. rewrite NicProofs.bind_eq. unfold get at 1. case_match; [done|].
  destruct (byte_at val 0 =? MSG_DISCOVER); [|destruct (byte_at val 0 =? MSG_REQUEST); [|done]]; exists payload.
  - split; [lia|]. by apply on_discover_ok.
  - split; [lia|]. by apply on_request_ok.
Qed.

(** The tables a server can reach, whatever it receives, whenever, over whatever network. *)
Inductive served : list (option Lease) -> Prop :=
| served_init : served init
| served_packet clk idx n packet t b t' n' : served t -> handle_receive clk idx packet t n = Some (b, t', n') -> served t'.

Lemma answered_inv idx n reply t b t' n' :
  answered idx n reply t = Some (b, t', n') ->
  b = true /\ t' = t /\ send_dhcp_udp idx reply (get_server_ip n) [255; 255; 255; 255] n = Some (tt, n').
Proof.
  unfold answered. rewrite NicProofs.bind_eq. destruct (send_dhcp_udp _ _ _ _ n) as [[[] n1]|]; [|done]. by intros [= <- <- <-].
Qed.

Lemma served_leases_ok t : served t -> leases_ok t.
Proof.
  induction 1 as [|clk idx n packet t b t' n' _ IH E].
  - constructor; intros i; intros; match goal with H : init !! i = _ |- _ => apply lookup_replicate in H as [? _] end; done.
  - destruct (handle_receive_ok clk idx n packet t IH) as (payload & _ & [(t1 & H1 & E1)|(reply & t1 & H1 & _ & E1)]); rewrite E in E1.
    + by injection E1 as _ <- _.
    + symmetry in E1. by apply answered_inv in E1 as (_ & -> & _).
Qed.

(** What a granted reply says. *)
Lemma granted_reply n payload mac reply t : (240 <= length payload)%nat -> net_ok n -> mac = slice 28 34 payload ->
  granted n payload mac reply t -> exists i l, t !! i = Some (Some l) /\ l_ip l = slice 16 20 reply /\ l_mac l = slice 28 34 reply.
Proof.
  intros Hl [Hi Hm Hg] -> (ty & ip & secs & i & l & Hty & Hip & -> & Hlk & El & Em). exists i, l. split; [done|].
  destruct (reply_split payload ty ip (get_server_ip n) (get_server_subnet n) (get_server_gateway n) secs)
    as [-> Hh]; try done; [lia|].
  destruct (head_fields payload ip (get_server_ip n)) as (_ & _ & H16 & H28 & _); try done; [lia|].
  rewrite !slice_app_l by lia. rewrite H16. split; [done|].
  change 34%nat with (28 + 6)%nat. rewrite <- (take_slice 6 28 44) by lia. rewrite H28.
  rewrite take_slice by lia. done.
Qed.

Lemma refused_reply n payload reply : (240 <= length payload)%nat -> net_ok n -> refused n payload reply -> byte_at reply 242 = MSG_NAK.
Proof.
  intros Hl [Hi Hm Hg] ->. destruct (reply_split payload MSG_NAK [0; 0; 0; 0] (get_server_ip n) [0; 0; 0; 0] [0; 0; 0; 0] 0)
    as [-> Hh]; try done; [lia|]. change 242%nat with (240 + 2)%nat. rewrite <- Hh. by rewrite byte_at_app_r.
Qed.

(** the server never promises one address to two clients. In every table it can
    reach, whatever packets arrive and however the clock moves, no two leases share an
    address or a MAC and all addresses are of the pool; and a message it answers has been
    answered with a refusal, or with a reply that names, in [yiaddr] and [chaddr], exactly
    the lease the table holds. *)
Theorem dhcp_lease_exclusive clk idx n packet t b t' n' :
  served t -> net_ok n -> handle_receive clk idx packet t n = Some (b, t', n') ->
  leases_ok t' /\
  (b = true -> exists reply, send_dhcp_udp idx reply (get_server_ip n) [255; 255; 255; 255] n = Some (tt, n') /\
    (byte_at reply 242 = MSG_NAK \/
     exists i l, t' !! i = Some (Some l) /\ l_ip l = slice 16 20 reply /\ l_mac l = slice 28 34 reply)).
Proof.
  intros Hs Hn E. split; [by eapply served_leases_ok, served_packet|]. intros ->.
  destruct (handle_receive_ok clk idx n packet t (served_leases_ok t Hs)) as (payload & Hl & [(t1 & _ & E1)|(reply & t1 & _ & Hr & E1)]);
    rewrite E in E1; [done|]. symmetry in E1. apply answered_inv in E1 as (_ & -> & E1). exists reply. split; [done|].
  destruct Hr as [Hr|Hr]; [right; by eapply granted_reply|left; by eapply refused_reply].
Qed.

(** ** The server on a card that is being polled *)

Lemma send_broadcast_locked idx f data n :
  Nic.get_iface idx n = Some f -> idx <> 0%nat -> nic_type f <> Loopback -> rtl_lock n = true ->
  (20 <= length data <= 1500)%nat -> Nic.send_broadcast_packet idx data n = None.
Proof.
  intros Hf Hi Hlo Hl Hlen. unfold Nic.send_broadcast_packet. rewrite NicProofs.bind_eq. unfold get. rewrite Hf.
  rewrite bool_decide_false by done. destruct (Nat.ltb_spec (length data) 20); [lia|].
  destruct (Nat.ltb_spec 1514 (14 + length data)); [lia|]. by apply NicProofs.send_frame_locked.
Qed.

Lemma length_dhcp_packet sport dport msg src dst :
  length msg = 548%nat -> length src = 4%nat -> length dst = 4%nat ->
  length (dhcp_packet sport dport msg src dst) = 576%nat.
Proof.
  intros Hm Hs Hd. unfold dhcp_packet. rewrite length_take.
  match goal with |- Nat.min _ (length ?b) = _ => enough (E : length b = 1500%nat) by (rewrite E; reflexivity) end.
  repeat (apply length_splice_eq; [|rewrite ?length_take, ?Hs, ?Hd; cbn [length be16_bytes]; lia]). apply length_replicate.
Qed.

Lemma reply_length payload ty ip srv mask gw secs :
  (236 <= length payload)%nat -> length ip = 4%nat -> length srv = 4%nat -> length mask = 4%nat -> length gw = 4%nat ->
  length (build_dhcp_reply payload ty ip srv mask gw secs) = 548%nat.
Proof.
  intros Hp Hi Hs Hm Hg. destruct (reply_split payload ty ip srv mask gw secs) as [-> Hh]; try done.
  rewrite length_app, Hh. unfold reply_opts. by rewrite !length_app, Hs, Hm, Hg.
Qed.

Lemma answered_locked idx f n reply t :
  Nic.get_iface idx n = Some f -> idx <> 0%nat -> nic_type f <> Loopback -> rtl_lock n = true ->
  length reply = 548%nat -> length (get_server_ip n) = 4%nat -> answered idx n reply t = None.
Proof.
  intros Hf Hi Hlo Hl Hr Hs. unfold answered, send_dhcp_udp. rewrite !NicProofs.bind_eq.
  rewrite (send_broadcast_locked idx f); [done..|]. rewrite length_dhcp_packet by done. lia.
Qed.

(** no client gets an answer. The server's handler is called by the receive path of
    the card, which holds the card's lock, and its reply takes the lock again: each packet
    is dropped without an answer, or stops the machine. *)
Theorem dhcp_server_never_answers clk idx f packet t n :
  served t -> net_ok n -> Nic.get_iface idx n = Some f -> idx <> 0%nat -> nic_type f <> Loopback -> rtl_lock n = true ->
  handle_receive clk idx packet t n = None \/ exists t', handle_receive clk idx packet t n = Some (false, t', n).
Proof.
  intros Ht Hn Hf Hi Hlo Hl.
  destruct (handle_receive_ok clk idx n packet t (served_leases_ok t Ht)) as (payload & Hp & [(t1 & _ & E1)|(reply & t1 & _ & Hr & E1)]);
    [right; by exists t1|left]. rewrite E1. apply (answered_locked idx f); try done; [|apply Hn].
  destruct Hn as [H1 H2 H3]. destruct Hr as [(ty & ip & secs & i & l & Hty & Hip & -> & _)| ->]; apply reply_length; (done || lia).
Qed.

(** The first DISCOVER after boot has an address and a slot. *)
Lemma first_discover clk idx n payload mac :
  exists ip t, length ip = 4%nat /\
    on_discover clk idx (get_server_ip n) payload mac init n =
    answered idx n (build_dhcp_reply payload MSG_OFFER ip (get_server_ip n) (get_server_subnet n) (get_server_gateway n)
      (get_lease_secs (find_option payload OPT_LEASE_TIME))) t.
Proof.
  assert (exists o, List.find (free_in_pool (get_server_ip n) init) (seqZ 0 POOL_SIZE) = Some o) as [o Ho].
  { change (seqZ 0 POOL_SIZE) with (0 :: 1 :: seqZ 2 14). cbn [List.find]. unfold free_in_pool at 1 2.
    change (existsb (has_ip (pool_offset_to_ip 0)) init) with false. change (existsb (has_ip (pool_offset_to_ip 1)) init) with false.
    change (ip_to_u32 (pool_offset_to_ip 0)) with 167772772. change (ip_to_u32 (pool_offset_to_ip 1)) with 167772773.
    destruct (Z.eqb_spec 167772772 (ip_to_u32 (get_server_ip n))) as [<-|]; by eexists. }
  eexists (pool_offset_to_ip o), _. split; [done|]. unfold on_discover, allocate_ip, find_lease_by_mac.
  change (reap_expired (clk 0%nat) init) with init. change (find_index (has_mac mac) init) with (@None nat). cbv iota. rewrite Ho.
  reflexivity.
Qed.

End ServerProofs.

Module ClientProofs.
Import Client Nic NicProofs WireProofs.

(** ** The options of a reply *)

Lemma option_loop_shift fuel h l stop k o :
  option_loop fuel (h ++ l) (length h + stop) (length h + k) o = option_loop fuel l stop k o.
Proof.
  revert k o. induction fuel as [|fuel IH]; intros k o; [done|]. cbn [option_loop].
  replace (length h + k + 1)%nat with (length h + (k + 1))%nat by lia. rewrite !byte_at_app_r, IH.
  assert (E1 : (length h + (k + 1) <? length h + stop)%nat = (k + 1 <? stop)%nat)
    by (destruct (Nat.ltb_spec (length h + (k + 1)) (length h + stop)), (Nat.ltb_spec (k + 1) stop); (done || lia)).
  assert (E2 : (length h + stop <=? length h + (k + 1))%nat = (stop <=? k + 1)%nat)
    by (destruct (Nat.leb_spec (length h + stop) (length h + (k + 1))), (Nat.leb_spec stop (k + 1)); (done || lia)).
  rewrite E1, E2. set (len := Z.to_nat (byte_at l (k + 1))).
  replace (length h + k + 2 + len)%nat with (length h + (k + 2 + len))%nat by lia.
  assert (E3 : (length h + stop <? length h + (k + 2 + len))%nat = (stop <? k + 2 + len)%nat)
    by (destruct (Nat.ltb_spec (length h + stop) (length h + (k + 2 + len))),
          (Nat.ltb_spec stop (k + 2 + len)); (done || lia)).
  rewrite E3, IH, (slice_app_r h l (k + 2) (k + 2 + len)) by lia. done.
Qed.

(** The server's options are what the client reads. *)
Lemma parse_reply_options h ty srv mask gw secs :
  length h = 240%nat -> length srv = 4%nat -> length mask = 4%nat -> length gw = 4%nat -> is_u32 secs ->
  parse_dhcp_options (h ++ ServerProofs.reply_opts ty srv mask gw secs) =
  {| o_type := ty; o_server := srv; o_mask := mask; o_router := gw; o_lease := secs |}.
Proof.
  intros Hh (s0&s1&s2&s3&->)%length_4_inv (m0&m1&m2&m3&->)%length_4_inv (g0&g1&g2&g3&->)%length_4_inv Hsecs.
  unfold parse_dhcp_options. rewrite length_app, Hh.
  set (l := ServerProofs.reply_opts ty [s0; s1; s2; s3] [m0; m1; m2; m3] [g0; g1; g2; g3] secs).
  assert (Hl : length l = 308%nat) by reflexivity. rewrite Hl.
  pose proof (option_loop_shift (240 + 308) h l 308 0 no_options) as E. rewrite Hh in E.
  change (240 + 308)%nat with 548%nat in *. change (Nat.min 548 (240 + MAX_OPTIONS)) with 548%nat.
  change (240 + 0)%nat with 240%nat in E. rewrite E. clear E.
  transitivity {| o_type := ty; o_server := [s0; s1; s2; s3]; o_mask := [m0; m1; m2; m3];
                  o_router := [g0; g1; g2; g3]; o_lease := be32_at (be32_bytes secs) 0 |}; [reflexivity|].
  f_equal. by apply be32_of_bytes.
Qed.

(** ** Requests as the server reads them *)

Record request_for (m mac xb : bytes) (mt : Z) (rip : option bytes) : Prop := {
  rf_len : length m = 548%nat;
  rf_magic : slice 236 240 m = MAGIC_COOKIE;
  rf_op : byte_at m 0 = OP_REQUEST;
  rf_hw : byte_at m 1 = 1 /\ byte_at m 2 = 6;
  rf_mac : slice 28 34 m = mac;
  rf_xid : slice 4 8 m = xb;
  rf_type : Server.find_option m OPT_MSG_TYPE = Some [mt];
  rf_ip : Server.find_option m OPT_REQ_IP = rip;
  rf_lease : Server.find_option m OPT_LEASE_TIME = None;
}.

Lemma discover_request x mac :
  length mac = 6%nat ->
  request_for (build_dhcp_msg OP_REQUEST x [0; 0; 0; 0] mac MSG_DISCOVER None None) mac (be32_bytes x)
    MSG_DISCOVER None.
Proof.
  intros (a1&a2&a3&a4&a5&a6&->)%length_6_inv. unfold build_dhcp_msg, be32_bytes.
  generalize (x / 2 ^ 24 mod 256) as x0, (x / 2 ^ 16 mod 256) as x1, (x / 256 mod 256) as x2, (x mod 256) as x3.
  intros x0 x1 x2 x3. set (m := let '(off, b) := _ in _). vm_compute in m.
  constructor; try reflexivity. by split.
Qed.


Lemma request_request x mac ip srv :
  length mac = 6%nat -> length ip = 4%nat -> length srv = 4%nat ->
  request_for (build_dhcp_msg OP_REQUEST x ip mac MSG_REQUEST (Some srv) (Some ip)) mac (be32_bytes x)
    MSG_REQUEST (Some ip).
Proof.
  intros (a1&a2&a3&a4&a5&a6&->)%length_6_inv (i0&i1&i2&i3&->)%length_4_inv (s0&s1&s2&s3&->)%length_4_inv.
  unfold build_dhcp_msg, be32_bytes.
  generalize (x / 2 ^ 24 mod 256) as x0, (x / 2 ^ 16 mod 256) as x1, (x / 256 mod 256) as x2, (x mod 256) as x3.
  intros x0 x1 x2 x3. set (m := let '(off, b) := _ in _). vm_compute in m.
  constructor; try reflexivity. by split.
Qed.

(** ** Replies as the client reads them *)

Lemma be32_at_slice a l : be32_at l a = be32_at (slice a (a + 4) l) 0.
Proof.
  unfold be32_at, be16_at. rewrite !byte_at_slice by lia.
  by replace (a + 0)%nat with a by lia; replace (a + 2 + 1)%nat with (a + (2 + 1))%nat by lia.
Qed.

Record reply_for (r mac ip srv mask gw : bytes) (x ty secs : Z) : Prop := {
  rp_len : length r = 548%nat;
  rp_magic : slice 236 240 r = MAGIC_COOKIE;
  rp_op : byte_at r 0 = OP_REPLY;
  rp_mac : slice 28 34 r = mac;
  rp_xid : be32_at r 4 = x;
  rp_ip : slice 16 20 r = ip;
  rp_opts : parse_dhcp_options r =
    {| o_type := ty; o_server := srv; o_mask := mask; o_router := gw; o_lease := secs |};
}.

Lemma reply_for_request m mac x mt rip ty ip srv mask gw secs :
  request_for m mac (be32_bytes x) mt rip -> is_u32 x -> is_u32 secs ->
  length ip = 4%nat -> length srv = 4%nat -> length mask = 4%nat -> length gw = 4%nat ->
  reply_for (Server.build_dhcp_reply m ty ip srv mask gw secs) mac ip srv mask gw x ty secs.
Proof.
  intros [Hlen _ _ _ Hmac Hxid _ _ _] Hx Hsecs Hi Hs Hm Hg.
  destruct (ServerProofs.reply_split m ty ip srv mask gw secs) as [-> Hh]; try done; [lia|].
  destruct (ServerProofs.head_fields m ip srv) as (H0 & H4 & H16 & H28 & H236); try done; [lia|].
  constructor.
  - rewrite length_app, Hh. unfold ServerProofs.reply_opts. rewrite !length_app, Hs, Hm, Hg. reflexivity.
  - by rewrite slice_app_l by lia.
  - rewrite byte_at_app_l by lia. change 0%nat with (0 + 0)%nat at 1.
    rewrite <- (byte_at_slice 0 1) by lia. by rewrite H0.
  - rewrite slice_app_l by lia. change 34%nat with (28 + 6)%nat. rewrite <- (take_slice 6 28 44), H28 by lia.
    by rewrite take_slice by lia.
  - rewrite be32_at_slice, slice_app_l by lia. change (4 + 4)%nat with 8%nat. rewrite H4, Hxid.
    by apply be32_of_bytes.
  - by rewrite slice_app_l by lia.
  - by apply parse_reply_options.
Qed.

Lemma handle_receive_reply r mac ip srv mask gw x ty secs s d :
  reply_for r mac ip srv mask gw x ty secs -> xid s = x ->
  Udp.datagram DHCP_SERVER_PORT DHCP_CLIENT_PORT r = Some d ->
  handle_receive d s = (true, with_resp r s).
Proof.
  intros [Hlen Hmag _ _ Hx _ _] Es Ed.
  destruct (datagram_parses DHCP_SERVER_PORT DHCP_CLIENT_PORT r) as (d' & h & Ed' & Hp & Hsp & Hdp & _ & Hdl);
    [done|done|lia|]. rewrite Ed in Ed'. apply (inj Some) in Ed' as <-.
  pose proof (Hp []) as Hp0. rewrite app_nil_r in Hp0.
  unfold handle_receive. destruct (Nat.ltb_spec (length d) 8); [lia|]. rewrite Hp0, Hsp, Hdp. cbn [negb orb].
  change (DHCP_SERVER_PORT =? DHCP_SERVER_PORT) with true. change (DHCP_CLIENT_PORT =? DHCP_CLIENT_PORT) with true.
  rewrite Hlen, Hmag, Hx, Es, Z.eqb_refl, bytes_eqb_refl. change (Nat.min 548 1500) with 548%nat.
  cbn [negb orb Nat.ltb]. change (548 <? 240)%nat with false. cbv iota. by rewrite <- Hlen, take_ge by lia.
Qed.

(** The network after an acknowledged lease. *)
Definition configured (ip mask gw : bytes) (n : Net) : Net :=
  let '(_, n) := set_iface_ip 1 ip mask gw n in
  let n := set_routes Routing.clear n in
  let n := set_routes (Routing.add_direct (Routing.ip_masked ip mask) mask 1 (routes n)).2 n in
  set_routes (Routing.add_default gw 1 (routes n)).2 n.

(** The client on a stored reply. *)
Lemma response_reply r mac ip srv mask gw x ty secs s n :
  reply_for r mac ip srv mask gw x ty secs -> xid s = x ->
  dhcp_handle_response mac (with_resp r s) n =
  let s' := with_ready false (with_resp r s) in
  if ty =? MSG_OFFER then
    if negb (bool_decide (state s = Discovering)) then (false, s', n)
    else (true, with_offer ip srv secs s', n)
  else if ty =? MSG_ACK then
    if negb (bool_decide (state s = Requesting)) then (false, s', n)
    else (true, with_state Bound s', configured ip mask (if bytes_eqb gw [0; 0; 0; 0] then srv else gw) n)
  else (true, s', n).
Proof.
  intros [Hlen Hmag Hop Hm Hx Hi Ho] Es. unfold dhcp_handle_response. cbn [with_resp resp_ready with_ready resp xid].
  rewrite Hlen, Hmag, Hop, Hm, Hx, Hi, Ho, Es, Z.eqb_refl, !bytes_eqb_refl. cbn [o_type o_server o_mask o_router o_lease].
  change (548 <? 240)%nat with false. change (OP_REPLY =? OP_REPLY) with true. cbn [negb state].
  destruct (ty =? MSG_OFFER); [done|]. destruct (ty =? MSG_ACK); [|done].
  destruct (negb _); [done|]. unfold configured. by destruct (set_iface_ip 1 _ _ _ n).
Qed.

(** A message of a client as the server reads it. *)
Lemma server_reads clk idx n m mac xb mt rip t d :
  request_for m mac xb mt rip -> Server.get_server_ip n <> [0; 0; 0; 0] ->
  Udp.datagram DHCP_CLIENT_PORT DHCP_SERVER_PORT m = Some d ->
  Server.handle_receive clk idx d t n =
  (if mt =? MSG_DISCOVER then Server.on_discover clk idx (Server.get_server_ip n) m mac t
   else if mt =? MSG_REQUEST then Server.on_request clk idx (Server.get_server_ip n) m mac t
   else mret (false, t)) n.
Proof.
  intros [Hlen Hmag Hop [Hh1 Hh2] Hmac _ Hty _ _] Hz%bytes_eqb_neq Ed.
  destruct (datagram_parses DHCP_CLIENT_PORT DHCP_SERVER_PORT m) as (d' & h & Ed' & Hp & Hsp & Hdp & _ & Hdl);
    [done|done|lia|]. rewrite Ed in Ed'. apply (inj Some) in Ed' as <-. pose proof (Hp []) as Hp0. rewrite app_nil_r in Hp0.
  unfold Server.handle_receive. destruct (Nat.ltb_spec (length d) 8); [lia|].
  rewrite Hp0, Hsp, Hdp, Hlen, Hmag, Hop, Hh1, Hh2, Hmac, Hty, bytes_eqb_refl.
  change (length [mt] <? 1)%nat with false. cbn [Z.eqb Pos.eqb negb orb]. change (548 <? 240)%nat with false.
  change (DHCP_SERVER_PORT =? DHCP_SERVER_PORT) with true. change (DHCP_CLIENT_PORT =? DHCP_CLIENT_PORT) with true.
  change (OP_REQUEST =? OP_REQUEST) with true. cbn [negb orb]. rewrite bind_eq. unfold get at 1. rewrite Hz. done.
Qed.

(** ** The network a lease configures *)

Lemma count_ones_nonneg b : 0 <= Routing.count_ones b.
Proof. unfold Routing.count_ones. cbn. repeat case_match; lia. Qed.

Lemma prefix_len_nonneg mask : 0 <= Routing.prefix_len mask.
Proof.
  unfold Routing.prefix_len. cbn [foldl seq].
  pose proof (count_ones_nonneg (byte_at mask 0)). pose proof (count_ones_nonneg (byte_at mask 1)).
  pose proof (count_ones_nonneg (byte_at mask 2)). pose proof (count_ones_nonneg (byte_at mask 3)). lia.
Qed.

Lemma configured_iface ip mask gw n :
  get_iface 1 (configured ip mask gw n) =
  (fun f => {| nic_type := nic_type f; if_mac := if_mac f; if_ip := ip; subnet_mask := mask; if_gateway := gw;
               mmio_base := mmio_base f; irq := irq f; link_up := link_up f |}) <$> get_iface 1 n.
Proof.
  unfold configured, set_iface_ip, get_iface. destruct (Nat.leb_spec (iface_count n) 1) as [Hle|Hgt]; cbn [set_routes iface_count interfaces routes].
  - destruct (Nat.ltb_spec 1 (iface_count n)); [lia|done].
  - cbn [set_interfaces iface_count interfaces]. destruct (Nat.ltb_spec 1 (iface_count n)); [|lia].
    rewrite list_lookup_alter. by destruct (interfaces n !! 1%nat) as [[f|]|].
Qed.

Lemma configured_routes ip mask gw n dst :
  Routing.lookup dst (routes (configured ip mask gw n)) =
  if bytes_eqb (Routing.ip_masked dst mask) (Routing.ip_masked ip mask) then Some (Direct, 1%nat)
  else Some (Routing.gateway_action gw, 1%nat).
Proof.
  assert (E : routes (configured ip mask gw n) =
    Some {| r_dest := Routing.ip_masked ip mask; r_mask := mask; r_gateway := [0; 0; 0; 0]; r_iface := 1 |} ::
    Some {| r_dest := [0; 0; 0; 0]; r_mask := [0; 0; 0; 0]; r_gateway := gw; r_iface := 1 |} :: replicate 6 None).
  { unfold configured. by destruct (set_iface_ip 1 ip mask gw n) as [b n1]. }
  rewrite E. unfold Routing.lookup. cbn [foldl Routing.better r_mask r_dest r_gateway r_iface replicate].
  assert (Ez : Routing.ip_masked dst [0; 0; 0; 0] = [0; 0; 0; 0]).
  { unfold Routing.ip_masked. cbn. by rewrite !Z.land_0_r. }
  rewrite Ez, bytes_eqb_refl. change (Routing.prefix_len [0; 0; 0; 0]) with 0.
  destruct (bytes_eqb (Routing.ip_masked dst mask) _); cbn [andb].
  - pose proof (prefix_len_nonneg mask). destruct (Z.ltb_spec (Routing.prefix_len mask) 0); [lia|done].
  - done.
Qed.

End ClientProofs.
