(* ===== verification/BlockDev.v ===== *)
(** Block devices: the table of [crates/zenus-fs/src/devfs.rs].

    Drivers register a pair of function pointers; the block cache and the device
    files under /dev call through the table.  The drivers talk to hardware, so
    their state is a type parameter [W] and the function pointers are arbitrary
    state-passing functions.  What the layers above rely on is the interface
    [LawfulDevices]: a device is an array of sectors, a read shows the sector, an
    acknowledged write replaces it, and no request touches another sector.
    [Fake] is the 64-sector RAM disk of the host tests, an instance of the
    interface, with a counter of the writes that still reach the disk before the
    power fails. *)

From S2P Require Import Prelude Bytes.
From stdpp Require Import strings.

Open Scope Z_scope.

Definition MAX_BLOCK_DEVS : nat := 8.
Definition SECTOR_SIZE : nat := 512.
Definition BLOCK_INODE_BASE : Z := 64.

(** [[0u8; 512]]. *)
Definition zero_sector : bytes := replicate SECTOR_SIZE 0%Z.

(** [buf[..len].copy_from_slice(&data[..len])] with [len] the shorter length. *)
Definition copy_prefix (data buf : bytes) : bytes :=
  let len := Nat.min (length buf) (length data) in
  take len data ++ drop len buf.

Lemma length_copy_prefix data buf : length (copy_prefix data buf) = length buf.
Proof. unfold copy_prefix. rewrite length_app, length_take, length_drop. lia. Qed.

Lemma copy_prefix_full data buf : length data = length buf -> copy_prefix data buf = data.
Proof.
  intros H. unfold copy_prefix. rewrite take_ge, drop_ge, app_nil_r by lia. done.
Qed.

Lemma length_zero_sector : length zero_sector = SECTOR_SIZE.
Proof. apply length_replicate. Qed.

Section Devfs.
Context {W : Type}.

(** [fn(u64, &mut [u8]) -> bool] returns the success flag, the buffer and the
    driver state. *)
Record BlockDeviceOps := {
  op_read : Z -> bytes -> W -> bool * bytes * W;
  op_write : Z -> bytes -> W -> bool * W;
  op_size : Z;
}.

Record BlockDevState := {
  devs : list (option (string * BlockDeviceOps));
  dev_count : nat;
}.

Definition no_block_devs : BlockDevState :=
  {| devs := replicate MAX_BLOCK_DEVS None; dev_count := 0 |}.

Definition block_device_read (st : BlockDevState) (dev_idx : nat) (lba : Z) (buf : bytes) (w : W)
    : bool * bytes * W :=
  match devs st !! dev_idx with
  | Some (Some (_, ops)) => op_read ops lba buf w
  | _ => (false, buf, w)
  end.

Definition block_device_write (st : BlockDevState) (dev_idx : nat) (lba : Z) (buf : bytes) (w : W)
    : bool * W :=
  match devs st !! dev_idx with
  | Some (Some (_, ops)) => op_write ops lba buf w
  | _ => (false, w)
  end.

Definition register_block_device (name : string) (ops : BlockDeviceOps) (st : BlockDevState)
    : bool * BlockDevState :=
  if (MAX_BLOCK_DEVS <=? dev_count st)%nat then (false, st)
  else (true, {| devs := <[dev_count st := Some (name, ops)]> (devs st);
                 dev_count := S (dev_count st) |}).

Definition block_device_count (st : BlockDevState) : nat := dev_count st.

(** The file operations of the device directory.  [serial] is the UART driver's
    effect of sending the bytes of a write to the console. *)
Definition devfs_read (st : BlockDevState) (inode offset : Z) (buf : bytes) (w : W)
    : option Z * bytes * W :=
  if inode >=? BLOCK_INODE_BASE then
    match devs st !! Z.to_nat (inode - BLOCK_INODE_BASE) with
    | Some (Some (_, ops)) =>
        let off_in_sector := Z.to_nat (offset mod 512) in
        let '(ok, sector_buf, w') := op_read ops (offset / 512) zero_sector w in
        if negb ok then (None, buf, w')
        else
          let copy_len := Nat.min (length buf) (512 - off_in_sector) in
          (Some (Z.of_nat copy_len),
           splice 0 (slice off_in_sector (off_in_sector + copy_len) sector_buf) buf, w')
    | _ => (Some 0, buf, w)
    end
  else (Some 0, buf, w).

Definition devfs_write (serial : bytes -> W -> W) (st : BlockDevState) (inode offset : Z)
    (buf : bytes) (w : W) : option Z * W :=
  if (inode =? 1) || (inode =? 2) then (Some (Z.of_nat (length buf)), w)
  else if (inode =? 3) || (inode =? 4) then (Some (Z.of_nat (length buf)), serial buf w)
  else if inode >=? BLOCK_INODE_BASE then
    match devs st !! Z.to_nat (inode - BLOCK_INODE_BASE) with
    | Some (Some (_, ops)) =>
        let sector := offset / 512 in
        let off_in_sector := Z.to_nat (offset mod 512) in
        let '(sector_buf, w1) :=
          if negb (off_in_sector =? 0)%nat || (length buf <? 512)%nat then
            let '(ok, data, w1) := op_read ops sector zero_sector w in
            (if negb ok then zero_sector else data, w1)
          else (zero_sector, w) in
        let copy_len := Nat.min (length buf) (512 - off_in_sector) in
        let sector_buf := splice off_in_sector (take copy_len buf) sector_buf in
        let '(ok, w2) := op_write ops sector sector_buf w1 in
        (if negb ok then None else Some (Z.of_nat copy_len), w2)
    | _ => (None, w)
    end
  else (None, w).

(** What a block device promises.  [sector d b w] is the content of sector [b] of
    device [d], [None] when the device has no such sector; [up w] says that the
    drivers are in working order. *)
Class LawfulDevices (st : BlockDevState) (up : W -> Prop) (sector : nat -> Z -> W -> option bytes) := {
  read_up : forall d b buf w, up w -> up (block_device_read st d b buf w).2;
  write_up : forall d b buf w, up w -> up (block_device_write st d b buf w).2;
  read_keeps : forall d b buf w d' b',
    up w -> sector d' b' (block_device_read st d b buf w).2 = sector d' b' w;
  read_shows : forall d b buf w,
    up w -> is_u64 b -> length buf = SECTOR_SIZE ->
    (block_device_read st d b buf w).1.1 = true ->
    sector d b w = Some (block_device_read st d b buf w).1.2;
  write_other : forall d b buf w d' b',
    up w -> is_u64 b -> (d', b') <> (d, b) ->
    sector d' b' (block_device_write st d b buf w).2 = sector d' b' w;
  write_shows : forall d b buf w,
    up w -> is_u64 b -> length buf = SECTOR_SIZE ->
    (block_device_write st d b buf w).1 = true ->
    sector d b (block_device_write st d b buf w).2 = Some buf;
  sector_length : forall d b w data,
    up w -> sector d b w = Some data -> length data = SECTOR_SIZE;
}.

(** A device without faults: every sector it has can be read and written. *)
Class ReliableDevices (st : BlockDevState) (up : W -> Prop) (sector : nat -> Z -> W -> option bytes) := {
  reliable_read : forall d b buf w,
    up w -> is_Some (sector d b w) -> (block_device_read st d b buf w).1.1 = true;
  reliable_write : forall d b buf w,
    up w -> is_Some (sector d b w) -> (block_device_write st d b buf w).1 = true;
}.

(** The machine loses power after [n] more writes: the later ones are dropped. *)
Definition failing_write (ops : BlockDeviceOps) (lba : Z) (buf : bytes) (wn : W * nat)
    : bool * (W * nat) :=
  let '(w, n) := wn in
  match n with
  | O => (true, (w, O))
  | S n' => let '(ok, w') := op_write ops lba buf w in (ok, (w', n'))
  end.

End Devfs.

Arguments BlockDeviceOps : clear implicits.
Arguments BlockDevState : clear implicits.

Definition failing_ops {W} (ops : BlockDeviceOps W) : BlockDeviceOps (W * nat) :=
  {| op_read := fun lba buf '(w, n) =>
       let '(ok, data, w') := op_read ops lba buf w in (ok, data, (w', n));
     op_write := failing_write ops;
     op_size := op_size ops |}.

(** The RAM disk of the host tests in [crates/zenus-fs/src/lib.rs]. *)
Module Fake.

Definition FAKE_SECTORS : Z := 64.

Record Disk := { FAKE : list bytes; FAKE_WRITES : Z }.

Definition fake_read (lba : Z) (buf : bytes) (w : Disk) : bool * bytes * Disk :=
  if FAKE_SECTORS <=? lba then (false, buf, w)
  else (true, copy_prefix (default [] (FAKE w !! Z.to_nat lba)) buf, w).

Definition fake_write (lba : Z) (buf : bytes) (w : Disk) : bool * Disk :=
  if FAKE_SECTORS <=? lba then (false, w)
  else (true, {| FAKE := alter (copy_prefix buf) (Z.to_nat lba) (FAKE w);
                 FAKE_WRITES := u64_add (FAKE_WRITES w) 1 |}).

Definition fake_ops : BlockDeviceOps Disk :=
  {| op_read := fake_read; op_write := fake_write; op_size := FAKE_SECTORS * 512 |}.

Definition fake_devs : BlockDevState Disk :=
  (register_block_device "hostfake" fake_ops no_block_devs).2.

Definition failing_devs : BlockDevState (Disk * nat) :=
  (register_block_device "hostfake" (failing_ops fake_ops) no_block_devs).2.

Definition blank_disk : Disk := {| FAKE := replicate 64 zero_sector; FAKE_WRITES := 0 |}.

(** The disk keeps its geometry. *)
Definition fake_up (w : Disk) : Prop :=
  length (FAKE w) = 64%nat /\ Forall (fun s => length s = SECTOR_SIZE) (FAKE w).

Definition fake_sector (d : nat) (b : Z) (w : Disk) : option bytes :=
  if (d =? 0)%nat && (0 <=? b) then FAKE w !! Z.to_nat b else None.

Lemma fake_devs_lookup d :
  devs fake_devs !! d =
  if (d =? 0)%nat then Some (Some ("hostfake"%string, fake_ops))
  else if (d <? 8)%nat then Some None else None.
Proof. do 8 (destruct d as [|d]; [done|]). done. Qed.

Lemma fake_device_read d b buf w :
  block_device_read fake_devs d b buf w =
  if (d =? 0)%nat then fake_read b buf w else (false, buf, w).
Proof. unfold block_device_read. rewrite fake_devs_lookup. by repeat case_if. Qed.

Lemma fake_device_write d b buf w :
  block_device_write fake_devs d b buf w =
  if (d =? 0)%nat then fake_write b buf w else (false, w).
Proof. unfold block_device_write. rewrite fake_devs_lookup. by repeat case_if. Qed.

Lemma fake_read_world b buf w : (fake_read b buf w).2 = w.
Proof. unfold fake_read. by case_if. Qed.

Lemma fake_up_write b buf w : fake_up w -> fake_up (fake_write b buf w).2.
Proof.
  intros [Hl Hf]. unfold fake_write. case_if; [done|]. split; simpl.
  - by rewrite length_alter.
  - apply Forall_alter; [done|]. intros x Hx ?. by rewrite length_copy_prefix.
Qed.

Lemma fake_read_shows b buf w :
  fake_up w -> 0 <= b -> length buf = SECTOR_SIZE -> (fake_read b buf w).1.1 = true ->
  FAKE w !! Z.to_nat b = Some (fake_read b buf w).1.2.
Proof.
  intros [Hl Hf] Hb Hbuf. unfold fake_read, FAKE_SECTORS. case_if; [done|]. intros _. simpl.
  destruct (lookup_lt_is_Some_2 (FAKE w) (Z.to_nat b)) as [s Hs]; [lia|].
  rewrite Hs. simpl. rewrite copy_prefix_full; [done|].
  rewrite Hbuf. by apply (Forall_lookup_1 _ _ _ _ Hf Hs).
Qed.

Lemma fake_write_shows b buf w :
  fake_up w -> 0 <= b -> length buf = SECTOR_SIZE -> (fake_write b buf w).1 = true ->
  FAKE (fake_write b buf w).2 !! Z.to_nat b = Some buf.
Proof.
  intros [Hl Hf] Hb Hbuf. unfold fake_write, FAKE_SECTORS. case_if; [done|]. intros _. simpl.
  destruct (lookup_lt_is_Some_2 (FAKE w) (Z.to_nat b)) as [s Hs]; [lia|].
  rewrite list_lookup_alter_eq, Hs. simpl. rewrite copy_prefix_full; [done|].
  rewrite Hbuf. symmetry. by apply (Forall_lookup_1 _ _ _ _ Hf Hs).
Qed.

Lemma fake_write_other b buf w b' :
  0 <= b -> 0 <= b' -> b' <> b -> FAKE (fake_write b buf w).2 !! Z.to_nat b' = FAKE w !! Z.to_nat b'.
Proof.
  intros. unfold fake_write. case_if; [done|]. simpl. apply list_lookup_alter_ne. lia.
Qed.

#[global] Instance fake_lawful : LawfulDevices fake_devs fake_up fake_sector.
Proof.
  split.
  - intros d b buf w H. rewrite fake_device_read. case_if; [|done]. by rewrite fake_read_world.
  - intros d b buf w H. rewrite fake_device_write. case_if; [|done]. by apply fake_up_write.
  - intros d b buf w d' b' H. rewrite fake_device_read. case_if; [|done].
    by rewrite fake_read_world.
  - intros d b buf w H Hb Hbuf. rewrite fake_device_read. unfold fake_sector.
    case_if; [|done]. rewrite (proj2 (Z.leb_le 0 b)) by word_lia. simpl.
    apply fake_read_shows; [done|word_lia|done].
  - intros d b buf w d' b' H Hb Hne. rewrite fake_device_write. case_if; [|done].
    unfold fake_sector. case_if; [|done].
    apply fake_write_other; [word_lia|done|congruence].
  - intros d b buf w H Hb Hbuf. rewrite fake_device_write. unfold fake_sector.
    case_if; [|done]. rewrite (proj2 (Z.leb_le 0 b)) by word_lia. simpl.
    apply fake_write_shows; [done|word_lia|done].
  - intros d b w data [Hl Hf]. unfold fake_sector. case_if; [|done].
    intros Hd. by apply (Forall_lookup_1 _ _ _ _ Hf Hd).
Qed.

#[global] Instance fake_reliable : ReliableDevices fake_devs fake_up fake_sector.
Proof.
  assert (forall d b w, fake_up w -> is_Some (fake_sector d b w) -> d = 0%nat /\ b < 64) as Hin.
  { intros d b w [Hl _] [s Hs]. unfold fake_sector in Hs. case_if_in Hs; [|done].
    apply lookup_lt_Some in Hs. lia. }
  split; intros d b buf w H Hs; destruct (Hin _ _ _ H Hs) as [-> ?].
  - rewrite fake_device_read. simpl. unfold fake_read, FAKE_SECTORS.
    case_if; [lia|done].
  - rewrite fake_device_write. simpl. unfold fake_write, FAKE_SECTORS.
    case_if; [lia|done].
Qed.

Lemma blank_disk_up : fake_up blank_disk.
Proof. split; [done|]. simpl. repeat constructor. Qed.

End Fake.

(** A RAM disk of 4096 sectors held as a function, large enough for blocks that
    share their cache slots. *)
Module Ram.

Definition ram_ops : BlockDeviceOps (Z -> bytes) :=
  {| op_read := fun lba buf w =>
       if (0 <=? lba) && (lba <? 4096) then (true, copy_prefix (w lba) buf, w) else (false, buf, w);
     op_write := fun lba buf w =>
       if (0 <=? lba) && (lba <? 4096)
       then (true, fun b => if b =? lba then copy_prefix buf (w lba) else w b) else (false, w);
     op_size := 4096 * 512 |}.

Definition ram_devs : BlockDevState (Z -> bytes) :=
  {| devs := [Some ("ram"%string, ram_ops)]; dev_count := 1 |}.

Definition ram_up (w : Z -> bytes) : Prop := forall b, length (w b) = SECTOR_SIZE.

Definition ram_sector (d : nat) (b : Z) (w : Z -> bytes) : option bytes :=
  if (d =? 0)%nat && ((0 <=? b) && (b <? 4096)) then Some (w b) else None.

#[global] Instance ram_lawful : LawfulDevices ram_devs ram_up ram_sector.
Proof.
  split; unfold block_device_read, block_device_write, ram_sector.
  - intros [|[|d]] b buf w H; [|done|done]. simpl. by case_if.
  - intros [|[|d]] b buf w H; [|done|done]. simpl. case_if; [|done]. intros b'. simpl.
    case_if; [by rewrite length_copy_prefix|done].
  - intros [|[|d]] b buf w d' b' H; [|done|done]. simpl. by destruct ((0 <=? b) && (b <? 4096)).
  - intros [|[|d]] b buf w H Hb Hbuf; [|done|done]. simpl. case_if; [|done].
    simpl. intros _. rewrite copy_prefix_full; [done|]. by rewrite Hbuf, (H b).
  - intros [|[|d]] b buf w d' b' H Hb Hne; [|done|done]. simpl. destruct ((0 <=? b) && (b <? 4096)) eqn:E; [|done]. simpl.
    destruct (decide (b' = b)) as [->|Hb']; [|by rewrite (proj2 (Z.eqb_neq b' b))].
    destruct d'; [congruence|done].
  - intros [|[|d]] b buf w H Hb Hbuf; [|done|done]. simpl. case_if; [|done]. simpl. intros _.
    rewrite Z.eqb_refl, copy_prefix_full; [done|]. by rewrite Hbuf, (H b).
  - intros d b w x H. case_if; [|done]. intros [= <-]. apply H.
Qed.

Definition ram_blank : Z -> bytes := fun _ => zero_sector.

Lemma ram_blank_up : ram_up ram_blank.
Proof. intros b. apply length_zero_sector. Qed.

End Ram.
