(* ===== verification/BlockCache.v ===== *)
(** The block cache of [crates/zenus-fs/src/block_cache.rs].

    A write-back cache of 512 sectors.  A block may live in the four slots that
    follow its hash; a lookup probes only those.  The state is the cache together
    with the state of the device drivers, because evicting or flushing a dirty
    slot writes to the device.

    [CacheProofs] shows that the cache implements a store of sectors: [view] is
    the content a block has for its readers, the last value written to it.  Reads
    show it, writes replace it, evictions and flushes keep it, and a flush that
    succeeds leaves it on the device.  One case breaks the contract: a new block
    whose four slots are all dirty is put into a slot where lookups never look.
    The block is then not [settled], and a read of it shows the old content. *)

From S2P Require Import Prelude Bytes BlockDev.

Definition CACHE_SIZE : nat := 512.
Definition WAYS : nat := 4.

Definition hash (dev_id : nat) (block : Z) : Z :=
  let h := u64_add ((Z.of_nat dev_id * 0x9E3779B97F4A7C15) mod U64) block in
  Z.land (Z.lxor (Z.lxor (Z.lxor h (Z.shiftr h 16)) (Z.shiftr h 32)) (Z.shiftr h 48))
    (Z.of_nat CACHE_SIZE - 1).

Record CacheEntry := {
  dev_id : nat;
  block : Z;
  dirty : bool;
  valid : bool;
  data : bytes;
}.

Record BlockCache := {
  entries : list CacheEntry;
  hits : Z;
  misses : Z;
}.

Definition empty_entry : CacheEntry :=
  {| dev_id := 0; block := 0; dirty := false; valid := false; data := zero_sector |}.

Definition new_cache : BlockCache :=
  {| entries := replicate CACHE_SIZE empty_entry; hits := 0; misses := 0 |}.

(** [self.entries[idx]]; every index is masked to the table. *)
Definition entry (c : BlockCache) (idx : nat) : CacheEntry := default empty_entry (entries c !! idx).

Definition set_entry (idx : nat) (e : CacheEntry) (c : BlockCache) : BlockCache :=
  {| entries := <[idx := e]> (entries c); hits := hits c; misses := misses c |}.

(** The slots [(start + i) & (CACHE_SIZE - 1)] for [i] below [WAYS]. *)
Definition way (start : Z) (i : nat) : nat :=
  Z.to_nat (Z.land (start + Z.of_nat i) (Z.of_nat CACHE_SIZE - 1)).

Definition ways (d : nat) (b : Z) : list nat := way (hash d b) <$> seq 0 WAYS.

Definition holds (d : nat) (b : Z) (e : CacheEntry) : bool :=
  valid e && (dev_id e =? d)%nat && (block e =? b).

Definition find_entry (c : BlockCache) (d : nat) (b : Z) : option nat :=
  List.find (fun idx => holds d b (entry c idx)) (ways d b).

Definition evict_one (c : BlockCache) (d : nat) (b : Z) : option nat :=
  match List.find (fun idx => negb (valid (entry c idx))) (ways d b) with
  | Some idx => Some idx
  | None =>
      match List.find (fun idx => negb (dirty (entry c idx))) (ways d b) with
      | Some idx => Some idx
      | None =>
          match List.find (fun idx => negb (valid (entry c idx)) || negb (dirty (entry c idx)))
                  (seq 0 CACHE_SIZE) with
          | Some idx => Some idx
          | None => Some (Z.to_nat (hash d b))
          end
      end
  end.

(** [e] with the dirty flag set to [f]. *)
Definition mark (f : bool) (e : CacheEntry) : CacheEntry :=
  {| dev_id := dev_id e; block := block e; dirty := f; valid := valid e; data := data e |}.

(** The entry of a sector just read from the device. *)
Definition fresh_entry (d : nat) (b : Z) (x : bytes) : CacheEntry :=
  {| dev_id := d; block := b; dirty := false; valid := true; data := x |}.

(** The entry after [data[..len].copy_from_slice(&buf[..len]); dirty = true]. *)
Definition written (buf : bytes) (e : CacheEntry) : CacheEntry :=
  {| dev_id := dev_id e; block := block e; dirty := true; valid := valid e;
     data := copy_prefix buf (data e) |}.

Definition dropped (e : CacheEntry) : CacheEntry :=
  {| dev_id := dev_id e; block := block e; dirty := false; valid := false; data := data e |}.

Definition count_hit (c : BlockCache) : BlockCache :=
  {| entries := entries c; hits := u64_add (hits c) 1; misses := misses c |}.

Definition count_miss (c : BlockCache) : BlockCache :=
  {| entries := entries c; hits := hits c; misses := u64_add (misses c) 1 |}.

Section Cache.
Context {W : Type}.
Variable st : BlockDevState W.

Record CacheSys := { cache : BlockCache; world : W }.

Definition flush_entry (idx : nat) (s : CacheSys) : bool * CacheSys :=
  let e := entry (cache s) idx in
  if dirty e then
    let '(ok, w) := block_device_write st (dev_id e) (block e) (data e) (world s) in
    if negb ok then (false, {| cache := cache s; world := w |})
    else (true, {| cache := set_entry idx (mark false e) (cache s); world := w |})
  else (true, s).

Definition read_block (d : nat) (b : Z) (buf : bytes) (s : CacheSys) : bool * bytes * CacheSys :=
  match find_entry (cache s) d b with
  | Some idx =>
      let c := count_hit (cache s) in
      (true, copy_prefix (data (entry c idx)) buf, {| cache := c; world := world s |})
  | None =>
      let s := {| cache := count_miss (cache s); world := world s |} in
      match evict_one (cache s) d b with
      | None => (false, buf, s)
      | Some idx =>
          let '(ok, s) := flush_entry idx s in
          if negb ok then (false, buf, s)
          else
            let '(ok, sector_buf, w) := block_device_read st d b zero_sector (world s) in
            if negb ok then (false, buf, {| cache := cache s; world := w |})
            else
              let c := set_entry idx (fresh_entry d b sector_buf) (cache s) in
              (true, copy_prefix (data (entry c idx)) buf, {| cache := c; world := w |})
      end
  end.

(** The slot a write goes to: the block's own, or a new one filled from the
    device; [None] where the source returns false. *)
Definition write_slot (d : nat) (b : Z) (s : CacheSys) : option nat * CacheSys :=
  match find_entry (cache s) d b with
  | Some idx => (Some idx, s)
  | None =>
      match evict_one (cache s) d b with
      | None => (None, s)
      | Some idx =>
          let '(ok, s) := flush_entry idx s in
          if negb ok then (None, s)
          else
            let '(ok, sector_buf, w) := block_device_read st d b zero_sector (world s) in
            if negb ok then (None, {| cache := cache s; world := w |})
            else (Some idx, {| cache := set_entry idx (fresh_entry d b sector_buf) (cache s);
                               world := w |})
      end
  end.

Definition write_block (d : nat) (b : Z) (buf : bytes) (s : CacheSys) : bool * CacheSys :=
  match write_slot d b s with
  | (None, s) => (false, s)
  | (Some idx, s) =>
      (true, {| cache := set_entry idx (written buf (entry (cache s) idx)) (cache s);
                world := world s |})
  end.

Definition flush_step (acc : bool * CacheSys) (i : nat) : bool * CacheSys :=
  let '(success, s) := acc in
  let e := entry (cache s) i in
  if valid e && dirty e then
    let '(ok, s) := flush_entry i s in ((if negb ok then false else success), s)
  else (success, s).

Definition flush_all (s : CacheSys) : bool * CacheSys :=
  foldl flush_step (true, s) (seq 0 CACHE_SIZE).

Definition stats (c : BlockCache) : Z * Z := (hits c, misses c).

Definition bc_invalidate (d : nat) (b : Z) (s : CacheSys) : bool * CacheSys :=
  match find_entry (cache s) d b with
  | Some idx =>
      (true, {| cache := set_entry idx (dropped (entry (cache s) idx)) (cache s);
                world := world s |})
  | None => (false, s)
  end.

Definition bc_invalidate_all (s : CacheSys) : bool * CacheSys :=
  let '(flushed, s) := flush_all s in
  (flushed, {| cache := {| entries := dropped <$> entries (cache s);
                           hits := hits (cache s); misses := misses (cache s) |};
               world := world s |}).

End Cache.

Arguments CacheSys : clear implicits.
#[global] Arguments flush_all : simpl never.
#[global] Arguments read_block : simpl never.
#[global] Arguments write_block : simpl never.
#[global] Arguments new_cache : simpl never.
#[global] Arguments zero_sector : simpl never.

Module CacheProofs.

(** The slots of a block. *)

Lemma hash_range d b : 0 <= hash d b < 512.
Proof.
  unfold hash. change (Z.of_nat CACHE_SIZE - 1) with (Z.ones 9).
  rewrite Z.land_ones by lia. apply Z.mod_pos_bound. lia.
Qed.

Lemma way_range start i : (way start i < CACHE_SIZE)%nat.
Proof.
  unfold way. change (Z.of_nat CACHE_SIZE - 1) with (Z.ones 9).
  rewrite Z.land_ones by lia.
  pose proof (Z.mod_pos_bound (start + Z.of_nat i) (2 ^ 9) ltac:(lia)).
  unfold CACHE_SIZE. lia.
Qed.

Lemma ways_range d b i : i ∈ ways d b -> (i < CACHE_SIZE)%nat.
Proof. intros (k & -> & _)%list_elem_of_fmap. apply way_range. Qed.

Lemma hash_in_ways d b : Z.to_nat (hash d b) ∈ ways d b.
Proof.
  apply list_elem_of_fmap. exists 0%nat. split; [|apply elem_of_seq; unfold WAYS; lia].
  unfold way. rewrite Z.add_0_r. change (Z.of_nat CACHE_SIZE - 1) with (Z.ones 9).
  pose proof (hash_range d b). rewrite Z.land_ones, Z.mod_small by lia. done.
Qed.

Lemma find_In {A} (p : A -> bool) l x : List.find p l = Some x -> x ∈ l /\ p x = true.
Proof. intros [H ?]%List.find_some. by apply list_elem_of_In in H. Qed.

Lemma find_not_In {A} (p : A -> bool) l x : List.find p l = None -> x ∈ l -> p x = false.
Proof. intros H Hx. apply (List.find_none _ _ H). by apply list_elem_of_In. Qed.

Lemma holds_true d b e : holds d b e = true <-> valid e = true /\ dev_id e = d /\ block e = b.
Proof. unfold holds. rewrite !andb_true_iff, Nat.eqb_eq, Z.eqb_eq. tauto. Qed.

Lemma entry_lookup c i e : entries c !! i = Some e -> entry c i = e.
Proof. unfold entry. by intros ->. Qed.

Lemma entries_set_ne i j e c : i <> j -> entries (set_entry i e c) !! j = entries c !! j.
Proof. intros. simpl. by apply list_lookup_insert_ne. Qed.

Lemma dirty_dec e : {dirty e = true} + {dirty e = false}.
Proof. destruct (dirty e); auto. Qed.

Section Store.
Context {W : Type} (st : BlockDevState W) (up : W -> Prop) (sector : nat -> Z -> W -> option bytes).
Context `{!LawfulDevices st up sector}.
Implicit Types (s : CacheSys W) (d : nat) (b : Z) (e : CacheEntry).

Definition slot s (i : nat) : option CacheEntry := entries (cache s) !! i.

(** [e] is an entry of the block [(d, b)]. *)
Definition is_for d b e : Prop := dev_id e = d /\ block e = b.

(** An entry that decides what its block contains: a dirty one, or a valid one in
    a slot where lookups find it. *)
Definition live (i : nat) e : Prop :=
  dirty e = true \/ valid e = true /\ i ∈ ways (dev_id e) (block e).

Record cache_inv s : Prop := {
  ci_len : length (entries (cache s)) = CACHE_SIZE;
  ci_data : forall i e, slot s i = Some e -> length (data e) = SECTOR_SIZE /\ is_u64 (block e);
  ci_dirty : forall i e, slot s i = Some e -> dirty e = true -> valid e = true;
  ci_unique : forall i j e e',
    slot s i = Some e -> slot s j = Some e' -> live i e -> live j e' ->
    is_for (dev_id e) (block e) e' -> i = j;
  ci_clean : forall i e,
    slot s i = Some e -> live i e -> dirty e = false ->
    sector (dev_id e) (block e) (world s) = Some (data e);
  ci_up : up (world s);
}.

(** What the block contains for its readers: the dirty copy, else the sector. *)
Definition view s d b : option bytes :=
  match List.find (fun e => dirty e && (dev_id e =? d)%nat && (block e =? b)) (entries (cache s)) with
  | Some e => Some (data e)
  | None => sector d b (world s)
  end.

(** No dirty copy of the block is out of reach of lookups. *)
Definition settled s d b : Prop :=
  forall i e, slot s i = Some e -> dirty e = true -> is_for d b e -> i ∈ ways d b.

(** No entry decides the content of the block. *)
Definition absent s d b : Prop :=
  forall i e, slot s i = Some e -> live i e -> is_for d b e -> False.

Lemma view_cases s d b :
  (exists i e, slot s i = Some e /\ dirty e = true /\ is_for d b e /\ view s d b = Some (data e)) \/
  ((forall i e, slot s i = Some e -> dirty e = true -> is_for d b e -> False) /\
   view s d b = sector d b (world s)).
Proof.
  unfold view. destruct (List.find _ _) as [e|] eqn:E.
  - left. apply find_In in E as [Hin Hp]. apply list_elem_of_lookup in Hin as [i Hi].
    bsplit. exists i, e. repeat split; assumption.
  - right. split; [|done]. intros i e Hi Hd [Hdev Hblk].
    pose proof (find_not_In _ _ e E (list_elem_of_lookup_2 _ _ _ Hi)) as F. simpl in F.
    rewrite Hd, Hdev, Hblk, Nat.eqb_refl, Z.eqb_refl in F. done.
Qed.

Lemma view_dirty s i e :
  cache_inv s -> slot s i = Some e -> dirty e = true -> view s (dev_id e) (block e) = Some (data e).
Proof.
  intros I Hi Hd. destruct (view_cases s (dev_id e) (block e)) as [(j & e' & Hj & Hd' & Hf & ->)|[Hno _]].
  - assert (i = j) as <- by (eapply (ci_unique s I); eauto; by left). congruence.
  - exfalso. eapply Hno; eauto. done.
Qed.

Lemma view_live s i e :
  cache_inv s -> slot s i = Some e -> live i e -> view s (dev_id e) (block e) = Some (data e).
Proof.
  intros I Hi Hl. destruct (dirty e) eqn:Hd; [by eapply view_dirty|].
  destruct (view_cases s (dev_id e) (block e)) as [(j & e' & Hj & Hd' & Hf & ->)|[_ ->]].
  - assert (i = j) as <- by (eapply (ci_unique s I); eauto; by left). congruence.
  - by apply (ci_clean s I i e).
Qed.

Lemma view_absent s d b : absent s d b -> view s d b = sector d b (world s).
Proof.
  intros Ha. destruct (view_cases s d b) as [(i & e & Hi & Hd & Hf & _)|[_ ?]]; [|done].
  exfalso. eapply Ha; eauto. by left.
Qed.

Lemma slot_entry s i : cache_inv s -> (i < CACHE_SIZE)%nat -> slot s i = Some (entry (cache s) i).
Proof.
  intros I Hi. destruct (lookup_lt_is_Some_2 (entries (cache s)) i) as [e He].
  { by rewrite (ci_len s I). }
  unfold slot. by rewrite He, (entry_lookup _ _ _ He).
Qed.

Lemma find_entry_Some s d b i :
  cache_inv s -> find_entry (cache s) d b = Some i ->
  exists e, slot s i = Some e /\ entry (cache s) i = e /\ i ∈ ways d b /\ live i e /\ is_for d b e.
Proof.
  intros I [Hin Hh]%find_In. apply holds_true in Hh as (Hv & Hd & Hb).
  pose proof (slot_entry s i I (ways_range _ _ _ Hin)) as Hs.
  exists (entry (cache s) i). repeat split; try done. right. by rewrite Hd, Hb.
Qed.

Lemma find_entry_None s d b :
  cache_inv s -> settled s d b -> find_entry (cache s) d b = None -> absent s d b.
Proof.
  intros I Hs Hf i e Hi Hl [Hd Hb].
  assert (i ∈ ways d b /\ valid e = true) as [Hin Hv].
  { destruct Hl as [Hdi|[Hv Hin]].
    - split; [by eapply Hs|by eapply (ci_dirty s I)].
    - by rewrite Hd, Hb in Hin. }
  pose proof (find_not_In _ _ i Hf Hin) as F. simpl in F.
  rewrite (entry_lookup _ _ _ Hi) in F.
  rewrite (proj2 (holds_true d b e)) in F; [done|done].
Qed.

(** Two states agree on every block but [(d, b)]. *)
Definition agree_but d b s s' : Prop :=
  forall d' b', (d', b') <> (d, b) ->
    view s' d' b' = view s d' b' /\ (settled s d' b' -> settled s' d' b').

(** Two states agree on every block. *)
Definition agree s s' : Prop :=
  forall d b, view s' d b = view s d b /\ (settled s d b -> settled s' d b).

Lemma cache_agree_refl s : agree s s.
Proof. done. Qed.

Lemma cache_agree_trans s1 s2 s3 : agree s1 s2 -> agree s2 s3 -> agree s1 s3.
Proof. intros H1 H2 d b. destruct (H1 d b), (H2 d b). split; [congruence|tauto]. Qed.

Lemma agree_but_trans d b s1 s2 s3 : agree s1 s2 -> agree_but d b s2 s3 -> agree_but d b s1 s3.
Proof.
  intros H1 H2 d' b' Hne. destruct (H1 d' b'), (H2 d' b' Hne). split; [congruence|tauto].
Qed.

Lemma agree_absent_world s w :
  cache_inv s -> up w -> (forall d b, sector d b w = sector d b (world s)) ->
  let s' := {| cache := cache s; world := w |} in cache_inv s' /\ agree s s'.
Proof.
  intros I Hup Hw. split.
  - destruct I. split; try done. intros i e Hi Hl Hd. simpl. rewrite Hw. eauto.
  - intros d b. split; [|done]. unfold view. simpl. by rewrite Hw.
Qed.

Section Replace.
Variables (s : CacheSys W) (i : nat) (e' : CacheEntry) (w' : W).
Let s' := {| cache := set_entry i e' (cache s); world := w' |}.
Hypothesis inv : cache_inv s.
Hypothesis in_range : (i < CACHE_SIZE)%nat.
Hypothesis up' : up w'.
Hypothesis other_sectors :
  forall d b, ~ is_for d b e' -> sector d b w' = sector d b (world s).
Hypothesis valid' : valid e' = true.
Hypothesis data' : length (data e') = SECTOR_SIZE /\ is_u64 (block e').
Hypothesis alone : forall j e,
  j <> i -> slot s j = Some e -> live j e -> ~ is_for (dev_id e') (block e') e.
Hypothesis victim : dirty (entry (cache s) i) = false \/
  is_for (dev_id e') (block e') (entry (cache s) i).
Hypothesis coherent : dirty e' = false -> sector (dev_id e') (block e') w' = Some (data e').

Lemma slot_replaced j : slot s' j = if decide (j = i) then Some e' else slot s j.
Proof.
  unfold slot, s'. case_decide as E; simpl.
  - subst. apply list_lookup_insert_eq. by rewrite (ci_len s inv).
  - by apply list_lookup_insert_ne.
Qed.

Lemma replace_inv : cache_inv s'.
Proof.
  split.
  - simpl. by rewrite length_insert, (ci_len s inv).
  - intros j e Hj. rewrite slot_replaced in Hj. case_decide; [by simplify_eq|by eapply (ci_data s inv)].
  - intros j e Hj. rewrite slot_replaced in Hj. case_decide; [by simplify_eq|by eapply (ci_dirty s inv)].
  - intros j k e1 e2 Hj Hk L1 L2 Hf. rewrite slot_replaced in Hj, Hk.
    destruct (decide (j = i)) as [Ej|Nj], (decide (k = i)) as [Ek|Nk].
    + congruence.
    + apply (inj Some) in Hj. subst e1. exfalso. by apply (alone k e2).
    + apply (inj Some) in Hk. subst e2. exfalso. apply (alone j e1); try done.
      destruct Hf. by split.
    + by apply (ci_unique s inv j k e1 e2).
  - intros j e Hj L Hd. rewrite slot_replaced in Hj. case_decide; simplify_eq; [by apply coherent|].
    simpl. rewrite other_sectors; [by eapply (ci_clean s inv)|].
    intros [E1 E2]. by eapply (alone j e).
  - done.
Qed.

Lemma replace_view : view s' (dev_id e') (block e') = Some (data e').
Proof.
  assert (slot s' i = Some e') as Hi by (rewrite slot_replaced; by case_decide).
  destruct (dirty_dec e') as [Hd|Hd]; [by apply (view_dirty s' i e' replace_inv)|].
  rewrite <-coherent by done.
  destruct (view_cases s' (dev_id e') (block e')) as [(j & e & Hj & Hdj & Hf & _)|[_ ?]]; [|done].
  exfalso. rewrite slot_replaced in Hj. case_decide; [simplify_eq; congruence|].
  eapply (alone j e); eauto. by left.
Qed.

Lemma replace_dirty d b j e :
  (d, b) <> (dev_id e', block e') -> dirty e = true -> is_for d b e ->
  slot s' j = Some e <-> slot s j = Some e.
Proof.
  intros Hne Hd [E1 E2]. rewrite slot_replaced. case_decide; [|done]. subst j.
  rewrite (slot_entry s i inv in_range). split; intros H; simplify_eq.
  destruct victim as [Hv|[F1 F2]]; congruence.
Qed.

Lemma replace_agree : agree_but (dev_id e') (block e') s s'.
Proof.
  intros d b Hne. split.
  - destruct (view_cases s d b) as [(j & e & Hj & Hd & Hf & ->)|[Hno ->]].
    + pose proof (proj2 (replace_dirty d b j e Hne Hd Hf) Hj) as Hj'.
      destruct Hf as [<- <-]. by apply (view_dirty s' j e replace_inv).
    + destruct (view_cases s' d b) as [(j & e & Hj & Hd & Hf & _)|[_ ->]].
      * exfalso. apply (replace_dirty d b j e Hne Hd Hf) in Hj. eauto.
      * apply other_sectors. intros [? ?]. congruence.
  - intros Hs j e Hj Hd Hf. apply (replace_dirty d b j e Hne Hd Hf) in Hj. eauto.
Qed.

Lemma replace_settled :
  dirty e' = false \/ i ∈ ways (dev_id e') (block e') -> settled s' (dev_id e') (block e').
Proof.
  intros Hw j e Hj Hd Hf. rewrite slot_replaced in Hj. case_decide; simplify_eq.
  - destruct Hw; [congruence|done].
  - exfalso. eapply (alone j e); eauto. by left.
Qed.

End Replace.

Lemma set_entry_id s i e : slot s i = Some e -> set_entry i e (cache s) = cache s.
Proof.
  intros H. unfold set_entry. rewrite list_insert_id by done. by destruct (cache s).
Qed.

(** Slot [i] is rewritten for the block it already decides: nothing else changes. *)
Lemma rewrite_own s i e e' w' :
  cache_inv s -> slot s i = Some e -> live i e -> up w' ->
  is_for (dev_id e) (block e) e' ->
  (forall d b, ~ is_for d b e -> sector d b w' = sector d b (world s)) ->
  valid e' = true -> length (data e') = SECTOR_SIZE ->
  (dirty e' = false -> sector (dev_id e) (block e) w' = Some (data e')) ->
  let s' := {| cache := set_entry i e' (cache s); world := w' |} in
  cache_inv s' /\ view s' (dev_id e) (block e) = Some (data e') /\
  agree_but (dev_id e) (block e) s s' /\
  (dirty e' = false \/ i ∈ ways (dev_id e) (block e) -> settled s' (dev_id e) (block e)).
Proof.
  intros I Hi Hl Hup [Ed Eb] Hw Hv Hlen Hco s'.
  assert (i < CACHE_SIZE)%nat as Hr.
  { rewrite <-(ci_len s I). by eapply lookup_lt_Some. }
  destruct (ci_data s I i e Hi) as [_ Hu].
  assert (forall j e0, j <> i -> slot s j = Some e0 -> live j e0 ->
            ~ is_for (dev_id e') (block e') e0) as Hal.
  { intros j e0 Hne Hj Hlj. rewrite Ed, Eb. intros Hf. apply Hne. symmetry.
    by apply (ci_unique s I i j e e0). }
  assert (dirty (entry (cache s) i) = false \/ is_for (dev_id e') (block e') (entry (cache s) i)) as Hvi.
  { right. rewrite (entry_lookup _ _ _ Hi). done. }
  assert (forall d b, ~ is_for d b e' -> sector d b w' = sector d b (world s)) as Hw'.
  { intros d b Hn. apply Hw. intros [? ?]. apply Hn. split; congruence. }
  assert (length (data e') = SECTOR_SIZE /\ is_u64 (block e')) as Hd' by (by rewrite Eb).
  rewrite <-Ed, <-Eb in Hco |- *. split_and!.
  - by apply replace_inv.
  - by apply replace_view.
  - by apply replace_agree.
  - by apply replace_settled.
Qed.

(** What flushing one slot does, whether or not the device accepts the write. *)
Record flushed (i : nat) s (ok : bool) s' : Prop := {
  fl_inv : cache_inv s';
  fl_agree : agree s s';
  fl_other : forall j, j <> i -> slot s' j = slot s j;
  fl_ok : ok = true -> slot s' i = mark false <$> slot s i;
  fl_fail : ok = false -> slot s' i = slot s i;
}.

Lemma agree_but_agree d b s s' :
  agree_but d b s s' -> view s' d b = view s d b -> (settled s d b -> settled s' d b) -> agree s s'.
Proof.
  intros H Hv Hs d' b'. destruct (decide ((d', b') = (d, b))) as [E|E]; [|by apply H].
  apply pair_eq in E as [-> ->]. done.
Qed.

Lemma mark_clean e : dirty e = false -> mark false e = e.
Proof. destruct e as [? ? f ? ?]. by intros [= ->]. Qed.

Lemma flush_entry_spec i s :
  cache_inv s -> (i < CACHE_SIZE)%nat ->
  flushed i s (flush_entry st i s).1 (flush_entry st i s).2.
Proof.
  intros I Hr. pose proof (slot_entry s i I Hr) as Hi. unfold flush_entry.
  set (e := entry (cache s) i) in *. destruct (dirty_dec e) as [Hd|Hd]; rewrite Hd.
  2:{ split; simpl; try done. intros _. by rewrite Hi; simpl; rewrite mark_clean. }
  destruct (block_device_write _ _ _ _ _) as [ok w'] eqn:E.
  destruct (ci_data s I i e Hi) as [Hlen Hu]. pose proof (ci_dirty s I i e Hi Hd) as Hv.
  assert (up w') as Hup.
  { pose proof (write_up (dev_id e) (block e) (data e) (world s) (ci_up s I)) as H.
    by rewrite E in H. }
  assert (forall d b, ~ is_for d b e -> sector d b w' = sector d b (world s)) as Hw.
  { intros d b Hn.
    pose proof (write_other (dev_id e) (block e) (data e) (world s) d b (ci_up s I) Hu) as H.
    rewrite E in H. apply H. intros [= -> ->]. by apply Hn. }
  pose proof (view_dirty s i e I Hi Hd) as Hview.
  destruct ok; simpl.
  - destruct (rewrite_own s i e (mark false e) w') as (I' & Hv' & Hag & Hse); try done.
    { by left. }
    { intros _. pose proof (write_shows (dev_id e) (block e) (data e) (world s) (ci_up s I) Hu Hlen) as H.
      rewrite E in H. by apply H. }
    split; [done| |intros j Hj; by apply entries_set_ne| |done].
    + apply (agree_but_agree (dev_id e) (block e)); [done|by rewrite Hview|]. intros _. apply Hse. by left.
    + intros _. rewrite Hi. simpl. apply list_lookup_insert_eq. by rewrite (ci_len s I).
  - destruct (rewrite_own s i e e w') as (I' & Hv' & Hag & _); try done.
    { by left. }
    { congruence. }
    rewrite (set_entry_id s i e Hi) in I', Hv', Hag.
    split; try done. apply (agree_but_agree (dev_id e) (block e)); [done|by rewrite Hview|done].
Qed.

Lemma evict_one_total s d b :
  exists i, evict_one (cache s) d b = Some i /\ (i < CACHE_SIZE)%nat.
Proof.
  unfold evict_one.
  destruct (List.find (fun i => negb (valid (entry _ i))) (ways d b)) as [i|] eqn:E1.
  { exists i. split; [done|]. apply find_In in E1 as [E1 _]. by eapply ways_range. }
  destruct (List.find (fun i => negb (dirty (entry _ i))) (ways d b)) as [i|] eqn:E2.
  { exists i. split; [done|]. apply find_In in E2 as [E2 _]. by eapply ways_range. }
  destruct (List.find _ (seq _ _)) as [i|] eqn:E3.
  { exists i. split; [done|]. apply find_In in E3 as [E3 _]. apply elem_of_seq in E3. lia. }
  exists (Z.to_nat (hash d b)). split; [done|]. apply (ways_range d b), hash_in_ways.
Qed.

Lemma flushed_absent i s ok s' d b : flushed i s ok s' -> absent s d b -> absent s' d b.
Proof.
  intros F Ha j e Hj Hl Hf. destruct (decide (j = i)) as [->|Hne].
  - destruct ok.
    + rewrite (fl_ok _ _ _ _ F eq_refl) in Hj. destruct (slot s i) as [e0|] eqn:E; [|done].
      simpl in Hj. apply (inj Some) in Hj. subst e. apply (Ha i e0 E); [|done].
      destruct Hl as [Hl|Hl]; [done|by right].
    + rewrite (fl_fail _ _ _ _ F eq_refl) in Hj. by apply (Ha i e).
  - rewrite (fl_other _ _ _ _ F j Hne) in Hj. by apply (Ha j e).
Qed.

(** A slot the block [(d, b)] can be written to: it has the block's content and no
    other entry decides what the block contains. *)
Record slot_for s d b (i : nat) e : Prop := {
  sf_slot : slot s i = Some e;
  sf_valid : valid e = true;
  sf_for : is_for d b e;
  sf_view : view s d b = Some (data e);
  sf_alone : forall j e', j <> i -> slot s j = Some e' -> live j e' -> ~ is_for d b e';
}.

Lemma install s d b i w x :
  cache_inv s -> absent s d b -> (i < CACHE_SIZE)%nat -> is_u64 b ->
  dirty (entry (cache s) i) = false -> up w ->
  (forall d' b', sector d' b' w = sector d' b' (world s)) -> sector d b (world s) = Some x ->
  let s' := {| cache := set_entry i (fresh_entry d b x) (cache s); world := w |} in
  cache_inv s' /\ agree s s' /\ slot_for s' d b i (fresh_entry d b x).
Proof.
  intros I Ha Hi Hb Hd Hup Hw Hx s'.
  assert (length x = SECTOR_SIZE) as Hlen by (eapply sector_length; [exact (ci_up s I)|done]).
  assert (forall j e, j <> i -> slot s j = Some e -> live j e -> ~ is_for d b e) as Hal.
  { intros j e _ Hj Hl Hf. by apply (Ha j e). }
  assert (sector d b w = Some x) as Hx' by (by rewrite Hw).
  assert (view s' d b = Some x) as Hv.
  { apply (replace_view s i (fresh_entry d b x) w); auto. }
  split_and!.
  - apply replace_inv; auto.
  - apply (agree_but_agree d b).
    + apply (replace_agree s i (fresh_entry d b x) w); auto.
    + rewrite (view_absent s d b Ha), Hx. done.
    + intros _. apply (replace_settled s i (fresh_entry d b x) w); auto.
  - split; try done.
    + apply list_lookup_insert_eq. by rewrite (ci_len s I).
    + intros j e Hne Hj. apply (Hal j e Hne).
      unfold slot in Hj. simpl in Hj. by rewrite list_lookup_insert_ne in Hj.
Qed.

Definition has_room s d b : Prop :=
  is_Some (find_entry (cache s) d b) \/
  forall i, evict_one (cache s) d b = Some i -> i ∈ ways d b.

Lemma write_slot_spec d b s :
  cache_inv s -> settled s d b -> is_u64 b ->
  let r := write_slot st d b s in
  cache_inv r.2 /\ agree s r.2 /\
  forall i, r.1 = Some i ->
    (exists e, slot_for r.2 d b i e) /\ (i < CACHE_SIZE)%nat /\ (has_room s d b -> i ∈ ways d b).
Proof.
  intros I Hs Hb. unfold write_slot.
  destruct (find_entry (cache s) d b) as [i|] eqn:Ef.
  { destruct (find_entry_Some s d b i I Ef) as (e & Hi & He & Hin & Hl & [Ed Eb]).
    simpl. split_and!; [done|done|]. intros i' [= <-].
    split_and!; [|by eapply ways_range|done]. exists e. subst d b. split; try done.
    - destruct Hl as [Hd|[Hv _]]; [by eapply (ci_dirty s I)|done].
    - by eapply view_live.
    - intros j e' Hne Hj Hl' Hf. apply Hne. symmetry. by apply (ci_unique s I i j e e'). }
  pose proof (find_entry_None s d b I Hs Ef) as Ha.
  destruct (evict_one_total s d b) as (i & Hev & Hi). rewrite Hev.
  pose proof (flush_entry_spec i s I Hi) as F.
  destruct (flush_entry st i s) as [ok s1]. simpl in F.
  pose proof (fl_inv _ _ _ _ F) as I1. pose proof (fl_agree _ _ _ _ F) as A1.
  destruct ok; simpl; [|done].
  destruct (block_device_read st d b zero_sector (world s1)) as [[ok x] w] eqn:Er.
  pose proof (read_up d b zero_sector (world s1) (ci_up s1 I1)) as Hup.
  pose proof (fun d' b' => read_keeps d b zero_sector (world s1) d' b' (ci_up s1 I1)) as Hk.
  pose proof (read_shows d b zero_sector (world s1) (ci_up s1 I1) Hb length_zero_sector) as Hx.
  rewrite Er in Hup, Hk, Hx. simpl in Hup, Hk, Hx.
  destruct ok; simpl.
  - destruct (install s1 d b i w x) as (I2 & A2 & S2); auto.
    { by apply (flushed_absent _ _ _ _ _ _ F). }
    { pose proof (slot_entry s1 i I1 Hi) as E1.
      rewrite (fl_ok _ _ _ _ F eq_refl), (slot_entry s i I Hi) in E1.
      simpl in E1. apply (inj Some) in E1. by rewrite <-E1. }
    split_and!; [done|by eapply cache_agree_trans|]. intros i' [= <-].
    split_and!; [by eexists|done|]. intros [[? Hc]|Hr]; [congruence|by apply Hr].
  - destruct (agree_absent_world s1 w I1 Hup Hk) as [I2 A2].
    split_and!; [done|by eapply cache_agree_trans|done].
Qed.

Lemma counters_irrelevant s c :
  entries c = entries (cache s) -> cache_inv s ->
  let s' := {| cache := c; world := world s |} in cache_inv s' /\ agree s s'.
Proof.
  intros E I s'. assert (forall i, slot s' i = slot s i) as Hs by (intros i; unfold slot; simpl; by rewrite E).
  split.
  - destruct I. split; simpl; try setoid_rewrite Hs; try done. by rewrite E.
  - intros d b. split; [unfold view; simpl; by rewrite E|].
    intros H i e Hi. rewrite Hs in Hi. by apply (H i e).
Qed.

Lemma read_block_miss d b buf s :
  find_entry (cache s) d b = None ->
  read_block st d b buf s =
  match write_slot st d b {| cache := count_miss (cache s); world := world s |} with
  | (Some i, s') => (true, copy_prefix (data (entry (cache s') i)) buf, s')
  | (None, s') => (false, buf, s')
  end.
Proof.
  intros Hf. unfold read_block, write_slot. rewrite Hf.
  change (find_entry (cache _) d b) with (find_entry (cache s) d b). rewrite Hf. simpl.
  destruct (evict_one _ d b) as [i|]; [|done].
  destruct (flush_entry st i _) as [[|] s1]; simpl; [|done].
  by destruct (block_device_read _ _ _ _ _) as [[[|] x] w].
Qed.

Lemma read_block_spec d b buf s :
  cache_inv s -> settled s d b -> is_u64 b ->
  let r := read_block st d b buf s in
  cache_inv r.2 /\ agree s r.2 /\
  if r.1.1 then exists x, view s d b = Some x /\ r.1.2 = copy_prefix x buf else r.1.2 = buf.
Proof.
  intros I Hs Hb. destruct (find_entry (cache s) d b) as [i|] eqn:Ef.
  - unfold read_block. rewrite Ef. simpl.
    destruct (find_entry_Some s d b i I Ef) as (e & Hi & He & Hin & Hl & [<- <-]).
    destruct (counters_irrelevant s (count_hit (cache s)) eq_refl I) as [I' A'].
    split_and!; [done|done|]. exists (data e). split; [by eapply view_live|].
    change (entry (count_hit (cache s)) i) with (entry (cache s) i). by rewrite He.
  - rewrite read_block_miss by done.
    destruct (counters_irrelevant s (count_miss (cache s)) eq_refl I) as [I' A'].
    destruct (write_slot_spec d b _ I' (proj2 (A' d b) Hs) Hb) as (I2 & A2 & H2).
    destruct (write_slot st d b _) as [[i|] s2]; simpl in *.
    + destruct (H2 i eq_refl) as ([e Se] & _). split_and!; [done|by eapply cache_agree_trans|].
      exists (data e). rewrite (entry_lookup _ _ _ (sf_slot _ _ _ _ _ Se)). split; [|done].
      rewrite <-(proj1 (A' d b)), <-(proj1 (A2 d b)). apply (sf_view _ _ _ _ _ Se).
    + split_and!; [done|by eapply cache_agree_trans|done].
Qed.

Lemma write_block_spec d b buf s :
  cache_inv s -> settled s d b -> is_u64 b ->
  let r := write_block st d b buf s in
  cache_inv r.2 /\
  if r.1 then
    exists x, view s d b = Some x /\ view r.2 d b = Some (copy_prefix buf x) /\
      agree_but d b s r.2 /\ (has_room s d b -> settled r.2 d b)
  else agree s r.2.
Proof.
  intros I Hs Hb. unfold write_block.
  destruct (write_slot_spec d b s I Hs Hb) as (I1 & A1 & H1).
  destruct (write_slot st d b s) as [[i|] s1]; simpl in *; [|done].
  destruct (H1 i eq_refl) as ([e Se] & Hi & Hroom). destruct Se as [Hsl Hv [Ed Eb] Hview Hal].
  rewrite (entry_lookup _ _ _ Hsl).
  assert (dirty (entry (cache s1) i) = false \/
    is_for (dev_id (written buf e)) (block (written buf e)) (entry (cache s1) i)) as Hvi.
  { right. by rewrite (entry_lookup _ _ _ Hsl). }
  assert (length (data (written buf e)) = SECTOR_SIZE /\ is_u64 (block (written buf e))) as Hd.
  { simpl. rewrite length_copy_prefix. by apply (ci_data s1 I1 i e). }
  assert (forall j e0, j <> i -> slot s1 j = Some e0 -> live j e0 ->
    ~ is_for (dev_id (written buf e)) (block (written buf e)) e0) as Hal'.
  { simpl. by rewrite Ed, Eb. }
  pose proof (ci_up s1 I1) as Hup.
  split; [by apply replace_inv|]. exists (data e). split_and!.
  - by rewrite <-(proj1 (A1 d b)).
  - rewrite <-Ed at 1. rewrite <-Eb at 1. by apply (replace_view s1 i (written buf e)).
  - apply (agree_but_trans d b s s1); [done|]. rewrite <-Ed at 1. rewrite <-Eb at 1.
    by apply (replace_agree s1 i (written buf e)).
  - intros Hr. rewrite <-Ed at 1. rewrite <-Eb at 1.
    apply (replace_settled s1 i (written buf e)); try done. right. simpl. rewrite Ed, Eb. auto.
Qed.

Lemma flush_step_spec i ok s :
  cache_inv s -> (i < CACHE_SIZE)%nat ->
  let r := flush_step st (ok, s) i in
  cache_inv r.2 /\ agree s r.2 /\
  (r.1 = true -> ok = true /\ dirty (entry (cache r.2) i) = false) /\
  (forall j e, slot r.2 j = Some e -> dirty e = true -> slot s j = Some e).
Proof.
  intros I Hi. unfold flush_step. pose proof (slot_entry s i I Hi) as Hs.
  destruct (valid _ && dirty _) eqn:Evd.
  2:{ simpl. split_and!; [done|apply cache_agree_refl| |done]. intros ->. split; [done|].
      destruct (dirty_dec (entry (cache s) i)) as [Hd|]; [|done].
      by rewrite Hd, (ci_dirty s I i _ Hs Hd) in Evd. }
  pose proof (flush_entry_spec i s I Hi) as F.
  destruct (flush_entry st i s) as [okf s1]. simpl in F |- *.
  pose proof (fl_inv _ _ _ _ F) as I1.
  split_and!; [done|apply (fl_agree _ _ _ _ F)| |].
  - destruct okf; simpl; [|done]. intros ->. split; [done|].
    pose proof (slot_entry s1 i I1 Hi) as E1.
    rewrite (fl_ok _ _ _ _ F eq_refl), Hs in E1. simpl in E1. apply (inj Some) in E1. by rewrite <-E1.
  - intros j e Hj Hd. destruct (decide (j = i)) as [->|Hne].
    + destruct okf; [|by rewrite (fl_fail _ _ _ _ F eq_refl) in Hj].
      rewrite (fl_ok _ _ _ _ F eq_refl), Hs in Hj. simpl in Hj. apply (inj Some) in Hj. by subst e.
    + by rewrite (fl_other _ _ _ _ F j Hne) in Hj.
Qed.

Lemma flush_loop_spec l ok s :
  cache_inv s -> Forall (fun i => i < CACHE_SIZE)%nat l ->
  let r := foldl (flush_step st) (ok, s) l in
  cache_inv r.2 /\ agree s r.2 /\
  (r.1 = true -> ok = true /\ forall i, i ∈ l -> dirty (entry (cache r.2) i) = false) /\
  (forall j e, slot r.2 j = Some e -> dirty e = true -> slot s j = Some e).
Proof.
  revert ok s. induction l as [|i l IH]; intros ok s I Hl.
  { simpl. split_and!; [done|apply cache_agree_refl| |done]. intros ->. split; [done|]. intros i Hi. by apply not_elem_of_nil in Hi. }
  apply Forall_cons in Hl as [Hi Hl]. cbn [foldl].
  destruct (flush_step_spec i ok s I Hi) as (I1 & A1 & H1 & D1).
  destruct (flush_step st (ok, s) i) as [ok1 s1]. simpl in *.
  destruct (IH ok1 s1 I1 Hl) as (I2 & A2 & H2 & D2).
  split_and!; [done|by eapply cache_agree_trans| |eauto].
  intros Hr. destruct (H2 Hr) as [Hok1 Hd]. destruct (H1 Hok1) as [Hok Hdi]. split; [done|].
  intros k [->|Hk]%elem_of_cons; [|by apply Hd].
  destruct (dirty_dec (entry (cache (foldl (flush_step st) (ok1, s1) l).2) i)) as [Hx|]; [|done].
  pose proof (D2 i _ (slot_entry _ i I2 Hi) Hx) as Hx'.
  rewrite (entry_lookup _ _ _ Hx') in Hdi. congruence.
Qed.

(** Nothing is dirty: lookups reach everything and the device has every block. *)
Definition clean s : Prop := forall i e, slot s i = Some e -> dirty e = false.

Lemma clean_settled s d b : clean s -> settled s d b.
Proof. intros H i e Hi Hd. rewrite (H i e Hi) in Hd. done. Qed.

Lemma clean_durable s d b : clean s -> view s d b = sector d b (world s).
Proof.
  intros H. destruct (view_cases s d b) as [(i & e & Hi & Hd & _)|[_ ?]]; [|done].
  rewrite (H i e Hi) in Hd. done.
Qed.

Lemma flush_all_spec s :
  cache_inv s ->
  let r := flush_all st s in
  cache_inv r.2 /\ agree s r.2 /\ (r.1 = true -> clean r.2).
Proof.
  intros I. destruct (flush_loop_spec (seq 0 CACHE_SIZE) true s I) as (I1 & A1 & H1 & D1).
  { apply Forall_forall. intros i Hi%elem_of_seq. lia. }
  split_and!; [done|done|]. intros Hr i e Hi.
  assert (i < CACHE_SIZE)%nat as Hlt.
  { rewrite <-(ci_len _ I1). by eapply lookup_lt_Some. }
  rewrite <-(entry_lookup _ _ _ Hi). apply (H1 Hr). apply elem_of_seq. lia.
Qed.

Lemma has_room_clean s d b i : i ∈ ways d b -> dirty (entry (cache s) i) = false -> has_room s d b.
Proof.
  intros Hi Hd. right. intros k. unfold evict_one.
  destruct (List.find (fun i => negb (valid (entry _ i))) (ways d b)) as [j|] eqn:E1.
  { intros [= <-]. by apply find_In in E1 as [E1 _]. }
  destruct (List.find (fun i => negb (dirty (entry _ i))) (ways d b)) as [j|] eqn:E2.
  { intros [= <-]. by apply find_In in E2 as [E2 _]. }
  pose proof (find_not_In _ _ i E2 Hi) as F. simpl in F. by rewrite Hd in F.
Qed.

Lemma clean_has_room s d b : cache_inv s -> clean s -> has_room s d b.
Proof.
  intros I H. apply (has_room_clean s d b _ (hash_in_ways d b)).
  apply (H (Z.to_nat (hash d b))), slot_entry; [done|]. apply (ways_range d b), hash_in_ways.
Qed.

(** Dropping the line of a block whose content is on the device changes nothing. *)
Lemma bc_invalidate_spec d b s :
  cache_inv s -> view s d b = sector d b (world s) ->
  let r := bc_invalidate d b s in
  cache_inv r.2 /\ agree s r.2 /\ world r.2 = world s.
Proof.
  intros I Hv. unfold bc_invalidate.
  destruct (find_entry (cache s) d b) as [i|] eqn:Ef; [|by split_and!].
  destruct (find_entry_Some s d b i I Ef) as (e & Hi & He & Hin & Hl & [Ed Eb]).
  rewrite He. simpl. set (s' := {| cache := _; world := _ |}).
  assert (i < length (entries (cache s)))%nat as Hlt by (by eapply lookup_lt_Some).
  assert (forall j e', slot s' j = Some e' -> j = i /\ e' = dropped e \/ j <> i /\ slot s j = Some e') as Hs'.
  { intros j e'. unfold slot, s'. simpl. destruct (decide (j = i)) as [->|Hne].
    - rewrite list_lookup_insert_eq by done. intros [= <-]. by left.
    - rewrite list_lookup_insert_ne by done. by right. }
  assert (cache_inv s') as I'.
  { split.
    - simpl. by rewrite length_insert, (ci_len s I).
    - intros j e' [[-> ->]|[_ Hj]]%Hs'; [by apply (ci_data s I i e)|by apply (ci_data s I j e')].
    - intros j e' [[-> ->]|[_ Hj]]%Hs'; [done|by apply (ci_dirty s I j e')].
    - intros j k e1 e2 [[-> ->]|[_ Hj]]%Hs' [[-> ->]|[_ Hk]]%Hs' L1 L2 Hf;
        try (by destruct L1 as [?|[? _]]); try (by destruct L2 as [?|[? _]]).
      by apply (ci_unique s I j k e1 e2).
    - intros j e' [[-> ->]|[_ Hj]]%Hs' L; [by destruct L as [?|[? _]]|by apply (ci_clean s I j e')].
    - apply (ci_up s I). }
  split_and!; [done| |done]. intros d' b'. split.
  - destruct (view_cases s' d' b') as [(j & e' & [[-> ->]|[_ Hj]]%Hs' & Hd' & [<- <-] & ->)|[Hno ->]];
      [done| |].
    + symmetry. by apply (view_dirty s j e' I).
    + destruct (view_cases s d' b') as [(j & e' & Hj & Hd' & [<- <-] & Hv')|[_ Hv']]; [|done].
      destruct (decide (j = i)) as [->|Hne].
      * unfold slot in Hj, Hi. rewrite Hi in Hj. apply (inj Some) in Hj. subst e'.
        rewrite Ed, Eb. by rewrite Hv.
      * exfalso. apply (Hno j e'); [|done|done].
        unfold slot, s'. simpl. by rewrite list_lookup_insert_ne.
  - intros Hse j e' [[-> ->]|[_ Hj]]%Hs' Hd' Hf; [done|by apply (Hse j e')].
Qed.

(** With fault-free devices every operation on a block of the device succeeds. *)

Section Reliable.
Context `{!ReliableDevices st up sector}.

(** Every dirty block has a sector to go to. *)
Definition backed s : Prop :=
  forall i e, slot s i = Some e -> dirty e = true -> is_Some (sector (dev_id e) (block e) (world s)).

Lemma backed_sector s d b : backed s -> is_Some (view s d b) -> is_Some (sector d b (world s)).
Proof.
  intros B. destruct (view_cases s d b) as [(i & e & Hi & Hd & [<- <-] & _)|[_ ->]]; [|done].
  intros _. by apply (B i e).
Qed.

Lemma flush_entry_total i s :
  cache_inv s -> backed s -> (i < CACHE_SIZE)%nat ->
  (flush_entry st i s).1 = true /\ backed (flush_entry st i s).2.
Proof.
  intros I B Hi. pose proof (slot_entry s i I Hi) as Hs.
  pose proof (flush_entry_spec i s I Hi) as F. revert F. unfold flush_entry.
  set (e := entry (cache s) i) in *. destruct (dirty_dec e) as [Hd|Hd]; rewrite Hd; [|done].
  destruct (ci_data s I i e Hs) as [Hlen Hu].
  pose proof (reliable_write (dev_id e) (block e) (data e) (world s) (ci_up s I) (B i e Hs Hd)) as Hok.
  pose proof (write_shows (dev_id e) (block e) (data e) (world s) (ci_up s I) Hu Hlen Hok) as Hsh.
  pose proof (fun d b => write_other (dev_id e) (block e) (data e) (world s) d b (ci_up s I) Hu) as Hot.
  destruct (block_device_write _ _ _ _ _) as [ok w'] eqn:E. simpl in Hok, Hsh, Hot. subst ok. simpl.
  intros F. split; [done|]. intros j e0 Hj Hd0. simpl.
  destruct (decide ((dev_id e0, block e0) = (dev_id e, block e))) as [[= -> ->]|Hne]; [by rewrite Hsh|].
  rewrite Hot by done. apply (B j e0); [|done].
  destruct (decide (j = i)) as [->|Hji]; [|by rewrite (fl_other _ _ _ _ F j Hji) in Hj].
  rewrite (fl_ok _ _ _ _ F eq_refl), Hs in Hj. apply (inj Some) in Hj. by subst e0.
Qed.

Lemma flush_loop_total l s :
  cache_inv s -> backed s -> Forall (fun i => i < CACHE_SIZE)%nat l ->
  (foldl (flush_step st) (true, s) l).1 = true /\ backed (foldl (flush_step st) (true, s) l).2.
Proof.
  revert s. induction l as [|i l IH]; intros s I B Hl; [done|].
  apply Forall_cons in Hl as [Hi Hl]. cbn [foldl].
  destruct (flush_step_spec i true s I Hi) as (I1 & _).
  unfold flush_step at 2 4. unfold flush_step in I1.
  destruct (valid _ && dirty _); [|by apply IH].
  destruct (flush_entry_total i s I B Hi) as [Hok B1].
  destruct (flush_entry st i s) as [ok s1]. simpl in Hok, B1, I1 |- *. subst ok. by apply IH.
Qed.

Lemma flush_all_total s :
  cache_inv s -> backed s -> (flush_all st s).1 = true /\ backed (flush_all st s).2.
Proof.
  intros I B. apply flush_loop_total; [done|done|].
  apply Forall_forall. intros i Hi%elem_of_seq. lia.
Qed.

Lemma write_slot_total d b s :
  cache_inv s -> settled s d b -> is_u64 b -> backed s ->
  (is_Some (view s d b) -> is_Some (write_slot st d b s).1) /\ backed (write_slot st d b s).2.
Proof.
  intros I Hs Hb B. unfold write_slot.
  destruct (find_entry (cache s) d b) as [i|] eqn:Ef; [by split|].
  destruct (evict_one_total s d b) as (i & -> & Hi).
  pose proof (flush_entry_spec i s I Hi) as F.
  destruct (flush_entry_total i s I B Hi) as [Hok B1].
  destruct (flush_entry st i s) as [ok s1]. simpl in F, Hok, B1. subst ok. simpl.
  pose proof (fl_inv _ _ _ _ F) as I1.
  pose proof (fun d' b' => read_keeps d b zero_sector (world s1) d' b' (ci_up s1 I1)) as Hk.
  assert (is_Some (view s d b) -> is_Some (sector d b (world s1))) as Hx.
  { intros Hv. apply backed_sector; [done|]. by rewrite (proj1 (fl_agree _ _ _ _ F d b)). }
  pose proof (fun H => reliable_read d b zero_sector (world s1) (ci_up s1 I1) (Hx H)) as Hr.
  destruct (block_device_read st d b zero_sector (world s1)) as [[ok x] w]. simpl in Hk, Hr.
  destruct ok; simpl.
  2:{ split; [intros H; by specialize (Hr H)|]. intros j e Hj Hd. simpl. rewrite Hk. by apply (B1 j e). }
  split; [done|]. intros j e Hj Hd. simpl. rewrite Hk. apply (B1 j e); [|done].
  unfold slot in Hj. simpl in Hj. destruct (decide (i = j)) as [->|Hne].
  - rewrite list_lookup_insert_eq in Hj by (by rewrite (ci_len s1 I1)).
    apply (inj Some) in Hj. by subst e.
  - by rewrite list_lookup_insert_ne in Hj.
Qed.

Lemma write_block_total d b buf s :
  cache_inv s -> settled s d b -> is_u64 b -> backed s ->
  (is_Some (view s d b) -> (write_block st d b buf s).1 = true) /\
  backed (write_block st d b buf s).2.
Proof.
  intros I Hs Hb B. unfold write_block.
  destruct (write_slot_total d b s I Hs Hb B) as [Hi B1].
  destruct (write_slot_spec d b s I Hs Hb) as (I1 & A1 & H1).
  destruct (write_slot st d b s) as [[i|] s1]; simpl in *.
  2:{ split; [intros H; by destruct (Hi H)|done]. }
  split; [done|]. destruct (H1 i eq_refl) as ([e Se] & Hlt & _). destruct Se as [Hsl _ [Ed Eb] Hvw _].
  rewrite (entry_lookup _ _ _ Hsl). intros j e0 Hj Hd.
  unfold slot in Hj. simpl in Hj. destruct (decide (i = j)) as [->|Hne].
  - rewrite list_lookup_insert_eq in Hj by (by rewrite (ci_len s1 I1)).
    apply (inj Some) in Hj. subst e0. simpl. rewrite Ed, Eb. apply backed_sector; [done|].
    by rewrite Hvw.
  - rewrite list_lookup_insert_ne in Hj by done. by apply (B1 j e0).
Qed.

Lemma read_block_total d b buf s :
  cache_inv s -> settled s d b -> is_u64 b -> backed s ->
  (is_Some (view s d b) -> (read_block st d b buf s).1.1 = true) /\
  backed (read_block st d b buf s).2.
Proof.
  intros I Hs Hb B. destruct (find_entry (cache s) d b) as [i|] eqn:Ef.
  - unfold read_block. rewrite Ef. by split.
  - rewrite read_block_miss by done.
    destruct (counters_irrelevant s (count_miss (cache s)) eq_refl I) as [I' A'].
    destruct (write_slot_total d b {| cache := count_miss (cache s); world := world s |})
      as [Hi B1]; auto.
    destruct (write_slot st d b _) as [[i|] s1]; simpl in *; [done|].
    split; [|done]. intros H. rewrite <-(proj1 (A' d b)) in H. by destruct (Hi H).
Qed.

End Reliable.

Lemma evict_one_victim s d b i :
  cache_inv s -> evict_one (cache s) d b = Some i ->
  dirty (entry (cache s) i) = false \/ i = Z.to_nat (hash d b).
Proof.
  intros I. unfold evict_one.
  destruct (List.find (fun i => negb (valid (entry _ i))) (ways d b)) as [j|] eqn:E1.
  { intros [= <-]. left. apply find_In in E1 as [E1 Hv].
    destruct (dirty_dec (entry (cache s) j)) as [Hd|]; [|done].
    rewrite (ci_dirty s I j _ (slot_entry s j I (ways_range _ _ _ E1)) Hd) in Hv. done. }
  destruct (List.find (fun i => negb (dirty (entry _ i))) (ways d b)) as [j|] eqn:E2.
  { intros [= <-]. left. apply find_In in E2 as [_ Hd]. by bsplit. }
  destruct (List.find _ (seq _ _)) as [j|] eqn:E3; intros [= <-]; [|by right].
  left. apply find_In in E3 as [E3 Hd%orb_true_iff]. destruct Hd as [Hv|Hd]; bsplit; [|done].
  destruct (dirty_dec (entry (cache s) j)) as [Hd|]; [|done].
  apply elem_of_seq in E3.
  rewrite (ci_dirty s I j _ (slot_entry s j I ltac:(lia)) Hd) in Hv. done.
Qed.

Lemma evict_one_spills s d b j :
  cache_inv s ->
  (forall i, i ∈ ways d b -> dirty (entry (cache s) i) = true) ->
  (j < CACHE_SIZE)%nat -> dirty (entry (cache s) j) = false ->
  exists i, evict_one (cache s) d b = Some i /\ (i < CACHE_SIZE)%nat /\ i ∉ ways d b /\
    dirty (entry (cache s) i) = false.
Proof.
  intros I Hw Hj Hd. destruct (evict_one_total s d b) as (i & Hev & Hi).
  assert (dirty (entry (cache s) i) = false) as Hdi.
  { destruct (evict_one_victim s d b i I Hev) as [?|Hh]; [done|].
    revert Hev. unfold evict_one.
    destruct (List.find (fun i => negb (valid (entry _ i))) (ways d b)) as [k|] eqn:E1.
    { apply find_In in E1 as [Hk Hv].
      rewrite (ci_dirty s I k _ (slot_entry s k I (ways_range _ _ _ Hk)) (Hw k Hk)) in Hv. done. }
    destruct (List.find (fun i => negb (dirty (entry _ i))) (ways d b)) as [k|] eqn:E2.
    { apply find_In in E2 as [Hk Hv]. by rewrite (Hw k Hk) in Hv. }
    destruct (List.find _ (seq _ _)) as [k|] eqn:E3; intros [= Hk].
    - apply find_In in E3 as [E3 Hv]. apply elem_of_seq in E3. subst k.
      destruct (dirty_dec (entry (cache s) i)) as [Hx|]; [|done].
      rewrite Hx, (ci_dirty s I i _ (slot_entry s i I Hi) Hx) in Hv. done.
    - pose proof (find_not_In _ _ j E3 ltac:(apply elem_of_seq; lia)) as F. simpl in F.
      rewrite Hd, orb_true_r in F. done. }
  exists i. split_and!; try done. intros Hin. rewrite (Hw i Hin) in Hdi. done.
Qed.

Lemma flush_entry_sector i s d b :
  cache_inv s -> (i < CACHE_SIZE)%nat ->
  dirty (entry (cache s) i) = false \/ ~ is_for d b (entry (cache s) i) ->
  sector d b (world (flush_entry st i s).2) = sector d b (world s).
Proof.
  intros I Hi Hor. unfold flush_entry.
  destruct (dirty_dec (entry (cache s) i)) as [Hd|Hd]; rewrite Hd; [|done].
  destruct Hor as [?|Hn]; [congruence|].
  destruct (ci_data s I i _ (slot_entry s i I Hi)) as [_ Hu].
  set (e := entry (cache s) i) in *.
  pose proof (write_other (dev_id e) (block e) (data e) (world s) d b (ci_up s I) Hu) as H.
  destruct (block_device_write _ _ _ _ _) as [[|] w]; simpl in *; apply H;
    intros [= -> ->]; by apply Hn.
Qed.

(** A block missed by lookups is read from the device, dirty copy or not. *)
Lemma read_miss_device d b buf s :
  cache_inv s -> is_u64 b -> find_entry (cache s) d b = None ->
  let r := read_block st d b buf s in
  r.1.1 = true -> exists x, sector d b (world s) = Some x /\ r.1.2 = copy_prefix x buf.
Proof.
  intros I Hb Hf r. unfold r. rewrite read_block_miss by done.
  destruct (counters_irrelevant s (count_miss (cache s)) eq_refl I) as [I' _].
  set (s0 := {| cache := count_miss (cache s); world := world s |}) in *.
  unfold write_slot. change (find_entry (cache s0) d b) with (find_entry (cache s) d b). rewrite Hf.
  destruct (evict_one_total s0 d b) as (i & Hev & Hi). rewrite Hev.
  pose proof (flush_entry_spec i s0 I' Hi) as F.
  assert (sector d b (world (flush_entry st i s0).2) = sector d b (world s)) as Hsec.
  { apply (flush_entry_sector i s0 d b I' Hi).
    destruct (evict_one_victim s0 d b i I' Hev) as [?|Hh]; [by left|]. subst i.
    destruct (dirty_dec (entry (cache s0) (Z.to_nat (hash d b)))) as [Hd|]; [|by left].
    right. intros [Ed Eb].
    pose proof (find_not_In _ _ _ Hf (hash_in_ways d b)) as Hno. simpl in Hno.
    rewrite (proj2 (holds_true d b _)) in Hno; [done|]. split_and!; [|exact Ed|exact Eb].
    by apply (ci_dirty s0 I' _ _ (slot_entry s0 _ I' Hi)). }
  destruct (flush_entry st i s0) as [ok s1]. simpl in F, Hsec. destruct ok; simpl; [|done].
  pose proof (fl_inv _ _ _ _ F) as I1.
  pose proof (read_shows d b zero_sector (world s1) (ci_up s1 I1) Hb length_zero_sector) as Hx.
  destruct (block_device_read st d b zero_sector (world s1)) as [[ok x] w]. simpl in Hx.
  destruct ok; simpl; [|done]. intros _. exists x. split; [by rewrite <-Hsec, Hx|].
  unfold entry. simpl. rewrite list_lookup_insert_eq by (by rewrite (ci_len s1 I1)). done.
Qed.

(** A write to a block whose slots are all dirty, with a clean slot elsewhere,
    leaves the block's lookups and the block's sector as they were. *)
Lemma spilled_write d b buf s j :
  cache_inv s -> is_u64 b -> settled s d b -> find_entry (cache s) d b = None ->
  (forall i, i ∈ ways d b -> dirty (entry (cache s) i) = true) ->
  (j < CACHE_SIZE)%nat -> dirty (entry (cache s) j) = false ->
  let r := write_block st d b buf s in
  r.1 = true ->
  find_entry (cache r.2) d b = None /\ sector d b (world r.2) = sector d b (world s).
Proof.
  intros I Hb Hs Hf Hw Hj Hd r. unfold r, write_block, write_slot. rewrite Hf.
  destruct (evict_one_spills s d b j I Hw Hj Hd) as (i & -> & Hi & Hni & Hdi).
  unfold flush_entry. rewrite Hdi. simpl.
  pose proof (fun d' b' => read_keeps d b zero_sector (world s) d' b' (ci_up s I)) as Hk.
  destruct (block_device_read st d b zero_sector (world s)) as [[ok x] w]. simpl in Hk.
  destruct ok; simpl; [|done]. intros _. split; [|apply Hk].
  destruct (find_entry (set_entry _ _ _) d b) as [k|] eqn:E; [|done]. exfalso.
  apply find_In in E as [Hk' Hh]. simpl in Hh.
  assert (i <> k) as Hne by congruence. unfold entry in Hh. simpl in Hh.
  rewrite !list_lookup_insert_ne in Hh by done.
  pose proof (find_not_In _ _ k Hf Hk') as F. simpl in F. unfold entry in F. congruence.
Qed.

(** The calls of the cache, and the store of sectors they stand for. *)
Inductive Op :=
| OpRead (d : nat) (b : Z) (buf : bytes)
| OpWrite (d : nat) (b : Z) (buf : bytes)
| OpFlush.

Definition exec (op : Op) s : bool * bytes * CacheSys W :=
  match op with
  | OpRead d b buf => read_block st d b buf s
  | OpWrite d b buf => let '(ok, s') := write_block st d b buf s in (ok, buf, s')
  | OpFlush => let '(ok, s') := flush_all st s in (ok, [], s')
  end.

Definition Store := nat -> Z -> option bytes.

(** A call that fails changes nothing; a read shows the stored sector; a write
    replaces the front of it. *)
Inductive spec_step (a : Store) : Op -> bool * bytes -> Store -> Prop :=
| spec_fail op buf : spec_step a op (false, buf) a
| spec_read d b buf x : a d b = Some x -> spec_step a (OpRead d b buf) (true, copy_prefix x buf) a
| spec_write d b buf x a' :
    a d b = Some x -> a' d b = Some (copy_prefix buf x) ->
    (forall d' b', (d', b') <> (d, b) -> a' d' b' = a d' b') ->
    spec_step a (OpWrite d b buf) (true, buf) a'
| spec_flush : spec_step a OpFlush (true, []) a.

Definition op_ok (op : Op) s : Prop :=
  match op with
  | OpRead d b _ => is_u64 b
  | OpWrite d b _ => is_u64 b /\ has_room s d b
  | OpFlush => True
  end.

(** Runs of the cache and of the store with the same answers. *)
Inductive cache_run : CacheSys W -> list Op -> list (bool * bytes) -> CacheSys W -> Prop :=
| run_nil s : cache_run s [] [] s
| run_cons s op ops r s' rs s'' :
    op_ok op s -> exec op s = (r, s') -> cache_run s' ops rs s'' ->
    cache_run s (op :: ops) (r :: rs) s''.

Inductive spec_run : Store -> list Op -> list (bool * bytes) -> Store -> Prop :=
| srun_nil a : spec_run a [] [] a
| srun_cons a op ops r a' rs a'' :
    spec_step a op r a' -> spec_run a' ops rs a'' -> spec_run a (op :: ops) (r :: rs) a''.

Definition good s : Prop := cache_inv s /\ forall d b, settled s d b.

Lemma agree_good s s' : cache_inv s' -> agree s s' -> good s -> good s'.
Proof. intros I A [_ Hs]. split; [done|]. intros d b. by apply A. Qed.

Lemma exec_simulates op s r s' (a : Store) :
  good s -> op_ok op s -> exec op s = (r, s') -> (forall d b, view s d b = a d b) ->
  good s' /\ exists a', spec_step a op r a' /\ forall d b, view s' d b = a' d b.
Proof.
  intros G Hok E Ha. destruct (G) as [I Hs].
  assert (forall ok, cache_inv s' -> agree s s' -> spec_step a op (ok, r.2) a -> r.1 = ok ->
            good s' /\ exists a', spec_step a op r a' /\ forall d b, view s' d b = a' d b) as Hkeep.
  { intros ok I' A' Hsp Hr. split; [by eapply agree_good|]. exists a.
    split; [destruct r; simpl in Hsp, Hr; by subst|]. intros d b. by rewrite (proj1 (A' d b)). }
  destruct op as [d b buf|d b buf|]; unfold exec in E; unfold op_ok in Hok.
  - destruct (read_block_spec d b buf s I (Hs d b) Hok) as (I' & A' & Hr).
    rewrite E in I', A', Hr. destruct r as [ok out]. simpl in *.
    apply (Hkeep ok I' A'); [|done]. destruct ok; [|constructor].
    destruct Hr as (x & Hx & ->). constructor. by rewrite <-Ha.
  - destruct Hok as [Hb Hroom].
    destruct (write_block_spec d b buf s I (Hs d b) Hb) as (I' & Hr).
    destruct (write_block st d b buf s) as [ok s1]. simplify_eq. simpl in *.
    destruct ok; [|by apply (Hkeep false I' Hr); [constructor|]].
    destruct Hr as (x & Hx & Hx' & Hag & Hse). split.
    + split; [done|]. intros d' b'.
      destruct (decide ((d', b') = (d, b))) as [[= -> ->]|Hne]; [by apply Hse|by apply Hag].
    + exists (view s'). split; [|done]. apply (spec_write _ _ _ _ x); [by rewrite <-Ha|done|].
      intros d' b' Hne. rewrite <-Ha. by apply Hag.
  - destruct (flush_all_spec s I) as (I' & A' & _).
    destruct (flush_all st s) as [ok s1]. simplify_eq. simpl in *.
    apply (Hkeep ok I' A'); [|done]. destruct ok; constructor.
Qed.

Lemma boot_good w : up w -> good {| cache := new_cache; world := w |}.
Proof.
  intros Hup.
  assert (forall i e, slot {| cache := new_cache; world := w |} i = Some e -> e = empty_entry) as He.
  { intros i e Hi. unfold slot, new_cache in Hi. cbn [cache entries] in Hi.
    by apply lookup_replicate in Hi as [-> _]. }
  split; [split|].
  - unfold new_cache. cbn [cache entries]. apply length_replicate.
  - intros i e ->%He. split; [apply length_zero_sector|]. cbn. word_lia.
  - by intros i e ->%He.
  - intros i j e e' ->%He ->%He [?|[? _]]; done.
  - intros i e ->%He [?|[? _]]; done.
  - done.
  - by intros d b i e ->%He.
Qed.

Lemma exec_good op s : good s -> op_ok op s -> good (exec op s).2.
Proof.
  intros G Hok. destruct (exec op s) as [r s'] eqn:E.
  by destruct (exec_simulates op s r s' (view s) G Hok E (fun _ _ => eq_refl)).
Qed.

Lemma run_exec s op ops r rs s'' :
  op_ok op s -> (exec op s).1 = r -> cache_run (exec op s).2 ops rs s'' ->
  cache_run s (op :: ops) (r :: rs) s''.
Proof. intros Hok <-. intros H. by apply (run_cons s op ops _ (exec op s).2); [|apply surjective_pairing|]. Qed.

(** C8: The cache is a store of sectors: a run of reads, writes and flushes that
    starts from a good state and never spills a write answers exactly what a plain
    store answers, and ends in a good state with the store's content. *)
Theorem cache_refines_store s ops rs s' (a : Store) :
  good s -> (forall d b, view s d b = a d b) -> cache_run s ops rs s' ->
  good s' /\ exists a', spec_run a ops rs a' /\ forall d b, view s' d b = a' d b.
Proof.
  intros G Ha R. revert a G Ha. induction R as [s|s op ops r s1 rs s2 Hok E R IH]; intros a G Ha.
  { split; [done|]. exists a. by split; [constructor|]. }
  destruct (exec_simulates op s r s1 a G Hok E Ha) as (G1 & a1 & S1 & Ha1).
  destruct (IH a1 G1 Ha1) as (G2 & a2 & S2 & Ha2).
  split; [done|]. exists a2. split; [by econstructor|done].
Qed.

(** After a flush that succeeds the power may fail: a machine that starts with
    an empty cache on the same devices finds every block as it was. *)
Theorem cache_flush_survives_crash s d b :
  cache_inv s -> (flush_all st s).1 = true ->
  view {| cache := new_cache; world := world (flush_all st s).2 |} d b = view s d b.
Proof.
  intros I Hok. destruct (flush_all_spec s I) as (I' & A' & Hc).
  rewrite <-(proj1 (A' d b)), (clean_durable (flush_all st s).2 d b (Hc Hok)).
  apply (view_absent {| cache := new_cache; world := world (flush_all st s).2 |}).
  intros i e Hi. unfold slot, new_cache in Hi. cbn [cache entries] in Hi.
  apply lookup_replicate in Hi as [-> _].
  by intros [?|[? _]].
Qed.

(** A new block whose four slots are all dirty, while some other slot is clean,
    loses its write for its readers: the write reports success, and a read right
    after it shows the content from before the write. *)
Theorem cache_spilled_write_lost s d b new old buf j :
  cache_inv s -> is_u64 b -> settled s d b -> find_entry (cache s) d b = None ->
  (forall i, i ∈ ways d b -> dirty (entry (cache s) i) = true) ->
  (j < CACHE_SIZE)%nat -> dirty (entry (cache s) j) = false ->
  view s d b = Some old ->
  (write_block st d b new s).1 = true ->
  let r := read_block st d b buf (write_block st d b new s).2 in
  r.1.1 = true -> r.1.2 = copy_prefix old buf.
Proof.
  intros I Hb Hs Hf Hw Hj Hd Hold Hok. cbv zeta. intros Hr.
  destruct (spilled_write d b new s j I Hb Hs Hf Hw Hj Hd Hok) as [Hf' Hsec].
  destruct (write_block_spec d b new s I Hs Hb) as [I' _].
  destruct (read_miss_device d b buf _ I' Hb Hf' Hr) as (x & Hx & ->).
  rewrite Hsec, <-(view_absent s d b (find_entry_None s d b I Hs Hf)), Hold in Hx. congruence.
Qed.

(** A write through the device file goes behind the cache: the sector on the
    device is the new one, and readers of a cached block still see the old one. *)
Theorem devfs_write_bypasses_cache (serial : bytes -> W -> W) s d b buf out i :
  cache_inv s -> is_u64 b -> length buf = SECTOR_SIZE -> find_entry (cache s) d b = Some i ->
  let r := devfs_write serial st (BLOCK_INODE_BASE + Z.of_nat d) (512 * b) buf (world s) in
  r.1 = Some 512 ->
  sector d b r.2 = Some buf /\
  (read_block st d b out {| cache := cache s; world := r.2 |}).1 = (read_block st d b out s).1.
Proof.
  intros I Hb Hlen Hf r Hr. split; [|by unfold read_block; simpl; rewrite !Hf].
  revert Hr. unfold r, devfs_write, BLOCK_INODE_BASE.
  rewrite !(proj2 (Z.eqb_neq (64 + Z.of_nat d) _)) by lia.
  rewrite (proj2 (Z.geb_le (64 + Z.of_nat d) 64)) by lia. cbn [orb].
  replace (Z.to_nat (64 + Z.of_nat d - 64)) with d by lia.
  pose proof (write_shows d b buf (world s) (ci_up s I) Hb Hlen) as Hsh.
  unfold block_device_write in Hsh. destruct (devs st !! d) as [[[n ops]|]|]; [|done|done].
  rewrite (Z.mul_comm 512 b), Z.div_mul, Z_mod_mult by lia.
  rewrite (proj2 (Nat.ltb_ge (length buf) 512)) by (unfold SECTOR_SIZE in Hlen; lia).
  change (Z.to_nat 0) with 0%nat. cbn [Nat.eqb negb orb].
  replace (Nat.min (length buf) (512 - 0)) with 512%nat by (unfold SECTOR_SIZE in Hlen; lia).
  rewrite take_ge by (unfold SECTOR_SIZE in Hlen; lia).
  assert (splice 0 buf zero_sector = buf) as ->.
  { unfold splice. rewrite take_0, drop_ge, app_nil_r; [done|]. by rewrite length_zero_sector, Hlen. }
  destruct (op_write ops b buf (world s)) as [[|] w]; simpl in *; [auto|done].
Qed.

End Store.
Definition boot_fake : CacheSys Fake.Disk := {| cache := new_cache; world := Fake.blank_disk |}.

Lemma cache_refines_store_witness :
  exists s' a',
    spec_run (view Fake.fake_sector boot_fake)
      [OpWrite 0 5 [7; 8]; OpRead 0 5 [0; 0; 0]; OpFlush] [(true, [7; 8]); (true, [7; 8; 0]); (true, [])] a' /\
    forall d b, view Fake.fake_sector s' d b = a' d b.
Proof.
  eexists. edestruct (cache_refines_store Fake.fake_devs Fake.fake_up Fake.fake_sector boot_fake
    [OpWrite 0 5 [7; 8]; OpRead 0 5 [0; 0; 0]; OpFlush] [(true, [7; 8]); (true, [7; 8; 0]); (true, [])])
    as (_ & a' & H); [| | |exists a'; exact H].
  - apply boot_good, Fake.blank_disk_up.
  - done.
  - apply run_exec; [split; [cbn; word_lia|apply (has_room_clean boot_fake 0 5 5); vm_compute; repeat constructor]|vm_compute; reflexivity|].
    apply run_exec; [cbn; word_lia|vm_compute; reflexivity|].
    apply run_exec; [done|vm_compute; reflexivity|]. constructor.
Defined.

(** The state after the cache of the RAM disk was asked to write the block. *)
Definition fake_written : CacheSys Fake.Disk :=
  (exec Fake.fake_devs (OpWrite 0 5 [7; 8]) boot_fake).2.

Lemma fake_written_good : good Fake.fake_up Fake.fake_sector fake_written.
Proof.
  apply (exec_good Fake.fake_devs Fake.fake_up Fake.fake_sector); [apply boot_good, Fake.blank_disk_up|].
  split; [word_lia|]. apply (has_room_clean boot_fake 0 5 5); vm_compute; repeat constructor.
Qed.

Lemma cache_flush_survives_crash_witness :
  view Fake.fake_sector
    {| cache := new_cache; world := world (flush_all Fake.fake_devs fake_written).2 |} 0 5 =
  Some (7 :: 8 :: replicate 510 0).
Proof.
  rewrite (cache_flush_survives_crash Fake.fake_devs Fake.fake_up Fake.fake_sector fake_written 0 5
    (proj1 fake_written_good)); vm_compute; reflexivity.
Defined.

(** Four writes to blocks that share the slots 0 to 3. *)
Definition ram_full : CacheSys (Z -> bytes) :=
  fold_left (fun s b => (exec Ram.ram_devs (OpWrite 0 b [1]) s).2) [0; 512; 1024; 1536]
    {| cache := new_cache; world := Ram.ram_blank |}.

Lemma ram_full_good : good Ram.ram_up Ram.ram_sector ram_full.
Proof.
  unfold ram_full. cbn [fold_left].
  assert (forall s b i, good Ram.ram_up Ram.ram_sector s -> is_u64 b -> i ∈ ways 0 b ->
    dirty (entry (cache s) i) = false ->
    good Ram.ram_up Ram.ram_sector (exec Ram.ram_devs (OpWrite 0 b [1]) s).2) as Hstep.
  { intros s b i G Hb Hi Hd. apply (exec_good Ram.ram_devs Ram.ram_up Ram.ram_sector); [exact G|]. split; [exact Hb|]. by apply (has_room_clean s 0 b i). }
  apply (Hstep _ 1536 3%nat); [|word_lia|vm_compute; repeat constructor|vm_compute; reflexivity].
  apply (Hstep _ 1024 2%nat); [|word_lia|vm_compute; repeat constructor|vm_compute; reflexivity].
  apply (Hstep _ 512 1%nat); [|word_lia|vm_compute; repeat constructor|vm_compute; reflexivity].
  apply (Hstep _ 0 0%nat); [|word_lia|vm_compute; repeat constructor|vm_compute; reflexivity].
  apply boot_good, Ram.ram_blank_up.
Qed.

Lemma cache_spilled_write_lost_witness :
  (write_block Ram.ram_devs 0 2048 [9] ram_full).1 = true /\
  (read_block Ram.ram_devs 0 2048 [5] (write_block Ram.ram_devs 0 2048 [9] ram_full).2).1.2 = [0].
Proof.
  split; [vm_compute; reflexivity|].
  rewrite (cache_spilled_write_lost Ram.ram_devs Ram.ram_up Ram.ram_sector ram_full 0 2048 [9]
    zero_sector [5] 4).
  - vm_compute; reflexivity.
  - apply ram_full_good.
  - word_lia.
  - apply ram_full_good.
  - vm_compute; reflexivity.
  - change (ways 0 2048) with [0; 1; 2; 3]%nat.
    intros i Hi. repeat (apply elem_of_cons in Hi as [->|Hi]; [vm_compute; reflexivity|]).
    by apply not_elem_of_nil in Hi.
  - vm_compute. lia.
  - vm_compute; reflexivity.
  - vm_compute; reflexivity.
  - vm_compute; reflexivity.
  - vm_compute; reflexivity.
Defined.

Lemma devfs_write_bypasses_cache_witness :
  let r := devfs_write (fun _ w => w) Fake.fake_devs 64 2560 (replicate 512 3) (world fake_written) in
  Fake.fake_sector 0 5 r.2 = Some (replicate 512 3) /\
  (read_block Fake.fake_devs 0 5 [0; 0] {| cache := cache fake_written; world := r.2 |}).1 =
  (true, [7; 8]).
Proof.
  destruct (devfs_write_bypasses_cache Fake.fake_devs Fake.fake_up Fake.fake_sector (fun _ w => w)
    fake_written 0 5 (replicate 512 3) [0; 0] 5) as [H1 H2].
  - apply fake_written_good.
  - word_lia.
  - vm_compute; reflexivity.
  - vm_compute; reflexivity.
  - vm_compute; reflexivity.
  - split; [exact H1|]. etransitivity; [exact H2|]. vm_compute; reflexivity.
Defined.

End CacheProofs.
