(* ===== verification/JournalTxn.v ===== *)
(** Transactions of the journal.

    The proofs about [Journal] that run several of its operations: they use the
    store only through [StoreLaws] and [ReliableStore], so they hold for every
    store with the promises of the block cache. *)

From S2P Require Import Prelude Bytes BlockDev BlockCache Journal.

(** The body of a transaction: [journal_write] for each pair of a target and its
    new content, stopping at the first refusal. *)
Fixpoint write_each {S} `{!BlockStore S} (ws : list (Z * bytes)) (j : Jnl S) : bool * Jnl S :=
  match ws with
  | [] => (true, j)
  | (t, x) :: ws =>
      let '(ok, j) := journal_write t x j in
      if negb ok then (false, j) else write_each ws j
  end.

(** A whole transaction, as the shell's journal test runs it. *)
Definition transaction {S} `{!BlockStore S} (ws : list (Z * bytes)) (j : Jnl S) : bool * Jnl S :=
  let '(ok, j) := journal_begin j in
  if negb ok then (false, j)
  else
    let '(ok, j) := write_each ws j in
    if negb ok then (false, j) else journal_commit j.

#[local] Opaque header_sector.

(** Compute the statics of the journal after an update. *)
Ltac jsimpl :=
  cbn [JNL_DEV_ID JNL_START_BLOCK JNL_NUM_BLOCKS JNL_SEQUENCE JNL_ACTIVE DEVICE_FLUSH store
       with_store with_active next_sequence set_geometry].

(** The nine facts of a [ready] journal, the reach and the content of its header
    block by the given tactics. *)
Tactic Notation "ready_by" tactic3(reach) "," tactic3(header) :=
  split; jsimpl;
  [assumption|assumption|assumption|assumption|assumption|assumption|reach|header|assumption].

Module TxnProofs.
Import JournalProofs.

(** The content of the sector that a write of [x] puts in the journal. *)
Definition pad (x : bytes) : bytes := copy_prefix x zero_sector.

Lemma length_pad x : length (pad x) = SECTOR_SIZE.
Proof. unfold pad. by rewrite length_copy_prefix, length_zero_sector. Qed.

Section Txn.
Context {S : Type} `{!BlockStore S}.
Context (ok : S -> Prop) (content durable : S -> nat -> Z -> option bytes) (reach : S -> nat -> Z -> Prop).
Context `{!ReliableStore ok content durable reach}.
Notation keeps := (Journal.keeps content reach).
Notation keeps_but := (Journal.keeps_but content reach).
Notation quiet := (Journal.quiet content durable reach).

Lemma read_total d b s x :
  ok s -> reach s d b -> is_u64 b -> content s d b = Some x ->
  exists s', bc_read d b zero_sector s = (true, x, s') /\ ok s' /\ keeps s s'.
Proof.
  intros Ho Hr Hb Hx. destruct (law_read ok content durable reach d b s Ho Hr Hb) as (Ho' & K & H).
  pose proof (rel_read ok content durable reach d b s Ho Hr Hb ltac:(by rewrite Hx)) as Ht.
  destruct (bc_read d b zero_sector s) as [[t y] s']. simpl in *. subst t.
  specialize (H eq_refl). rewrite Hx in H. injection H as <-. by exists s'.
Qed.

Lemma write_total d b buf s :
  ok s -> reach s d b -> is_u64 b -> length buf = SECTOR_SIZE -> is_Some (content s d b) ->
  exists s', bc_write d b buf s = (true, s') /\ ok s' /\ keeps_but d b s s' /\
    content s' d b = Some buf.
Proof.
  intros Ho Hr Hb Hl Hx. destruct (law_write ok content durable reach d b buf s Ho Hr Hb Hl) as (Ho' & H).
  pose proof (rel_write ok content durable reach d b buf s Ho Hr Hb Hx) as Ht.
  destruct (bc_write d b buf s) as [t s']. simpl in *. subst t. destruct H. by exists s'.
Qed.

Lemma flush_total s :
  ok s -> exists s', bc_flush s = (true, s') /\ ok s' /\ keeps s s' /\ quiet s'.
Proof.
  intros Ho. destruct (law_flush ok content durable reach s Ho) as (Ho' & K & Q).
  pose proof (rel_flush ok content durable reach s Ho) as Ht.
  destruct (bc_flush s) as [t s']. simpl in *. subst t. exists s'. auto.
Qed.

(** Every block is within reach of lookups. *)
Definition reached (s : S) : Prop := forall d b, reach s d b.

Lemma keeps_reached s s' : keeps s s' -> reached s -> reached s'.
Proof. intros K R d b. by apply K. Qed.

Lemma quiet_reached s : quiet s -> reached s.
Proof. intros Q d b. apply Q. Qed.

(** The write barrier, when there is one, succeeds and keeps the store. *)
Definition good_barrier (j : Jnl S) : Prop :=
  match DEVICE_FLUSH j with
  | None => True
  | Some f => forall s, ok s -> quiet s ->
      exists s', f s = (true, s') /\ ok s' /\ keeps s s' /\ quiet s'
  end.

(** The journal lies on blocks [start, start + num) of device [d]. *)
Section Geometry.
Variables (d : nat) (start num : Z).
Hypothesis real_device : d <> 255%nat.
Hypothesis start_u64 : is_u64 start.
Hypothesis area_u64 : start + num < U64.

Definition slot_of (i : nat) : Z := start + 1 + Z.of_nat i.

Definition capacity : nat := capacity_for_blocks num.

Lemma capacity_lt i : (i < capacity)%nat -> slot_of i < start + num.
Proof using Type.
  clear real_device.
  unfold capacity, capacity_for_blocks, slot_of, saturating_sub. lia.
Qed.

Lemma slot_u64 i : (i < capacity)%nat -> is_u64 (slot_of i).
Proof using start_u64 area_u64.
  intros H%capacity_lt. clear real_device. unfold slot_of in *. word_lia.
Qed.

Lemma data_block_slot i : (i < capacity)%nat -> data_block_for start num i = Some (slot_of i).
Proof using start_u64 area_u64.
  clear real_device. intros Hi. pose proof (slot_u64 i Hi). unfold data_block_for. fold capacity.
  rewrite (proj2 (Nat.leb_gt _ _)) by done. f_equal. unfold slot_of in *.
  rewrite (u64_add_small start 1), u64_add_small; word_lia.
Qed.

Lemma capacity_max : (capacity <= MAX_ENTRIES)%nat.
Proof. unfold capacity, capacity_for_blocks. lia. Qed.

Record ready (active : bool) (h : JournalHeader) (j : Jnl S) : Prop := {
  rd_dev : JNL_DEV_ID j = d;
  rd_start : JNL_START_BLOCK j = start;
  rd_num : JNL_NUM_BLOCKS j = num;
  rd_active : JNL_ACTIVE j = active;
  rd_barrier : good_barrier j;
  rd_ok : ok (store j);
  rd_reach : reach (store j) d start;
  rd_header : content (store j) d start = Some (header_sector h);
  rd_wf : header_wf h;
}.

(** The content of every block outside [p] is the same in both states. *)
Definition same_outside (p : nat -> Z -> Prop) (s s' : S) : Prop :=
  forall d' b', ~ p d' b' -> content s' d' b' = content s d' b'.

Definition at_header (d' : nat) (b' : Z) : Prop := d' = d /\ b' = start.

Lemma same_outside_trans (p q : nat -> Z -> Prop) s1 s2 s3 :
  same_outside p s1 s2 -> same_outside q s2 s3 -> same_outside (fun d b => p d b \/ q d b) s1 s3.
Proof. intros H1 H2 d' b' Hn. rewrite H2, H1; tauto. Qed.

Lemma same_outside_mono (p q : nat -> Z -> Prop) s1 s2 :
  (forall d' b', p d' b' -> q d' b') -> same_outside p s1 s2 -> same_outside q s1 s2.
Proof. intros Hpq H d' b' Hn. apply H. auto. Qed.

Lemma read_header_ok act h j :
  ready act h j ->
  exists s', read_header j = (Some h, with_store j s') /\ ready act h (with_store j s') /\
    keeps (store j) s'.
Proof.
  intros R. destruct R as [Hd Hs Hn Ha Hb Ho Hr Hc Hw].
  destruct (read_total d start (store j) (header_sector h)) as (s' & E & Ho' & K);
    [assumption..|].
  exists s'. unfold read_header. rewrite Hd, Hs, E. cbn [negb].
  rewrite parse_header_sector by done. split_and!; [done| |done].
  ready_by (by apply K), (by rewrite (proj1 (K d start))).
Qed.

(** [write_header] followed by a flush. *)
Lemma write_header_ok act h h' j :
  ready act h j -> header_wf h' ->
  exists s1 s2, write_header h' j = (true, with_store j s1) /\
    flush (with_store j s1) = (true, with_store j s2) /\
    ready act h' (with_store j s2) /\ quiet s2 /\ same_outside at_header (store j) s2.
Proof.
  intros R Hw'. destruct R as [Hd Hs Hn Ha Hb Ho Hr Hc Hw].
  destruct (write_total d start (header_sector h') (store j)) as (s1 & E1 & Ho1 & K1 & C1);
    [assumption|assumption|assumption|apply header_sector_length|by rewrite Hc|].
  destruct (flush_total s1 Ho1) as (s2 & E2 & Ho2 & K2 & Q2).
  exists s1, s2. unfold write_header, flush. rewrite Hd, Hs, E1. jsimpl. rewrite E2.
  split_and!; [done|done| |done|].
  - ready_by (apply Q2), (by rewrite (proj1 (K2 d start))).
  - intros d' b' Hne. rewrite (proj1 (K2 d' b')). apply K1. intros [= -> ->]. by apply Hne.
Qed.

Lemma begin_ok h j :
  ready false h j ->
  exists j', journal_begin j = (true, j') /\ ready true (set_state JNL_STATE_ACTIVE h) j' /\
    quiet (store j') /\ same_outside at_header (store j) (store j').
Proof.
  intros R. pose proof R as [Hd _ _ Ha _ _ _ _ _].
  unfold journal_begin. rewrite (proj2 (Nat.eqb_neq _ _)), Ha by congruence.
  set (j0 := next_sequence (with_active j true)).
  assert (ready true h j0) as R0 by (destruct R; by split).
  destruct (read_header_ok true h j0 R0) as (s1 & -> & R1 & K1).
  destruct (write_header_ok true h (set_state JNL_STATE_ACTIVE h) _ R1) as (s2 & s3 & -> & E3 & R3 & Q3 & O3).
  { apply set_state_wf; [apply (rd_wf _ _ _ R)|done]. }
  rewrite E3. cbn [negb]. eexists. split_and!; [reflexivity|exact R3|exact Q3|].
  intros d' b' Hn. jsimpl. rewrite (O3 d' b' Hn). jsimpl. apply K1.
Qed.

Definition at_slot (i : nat) (d' : nat) (b' : Z) : Prop := d' = d /\ b' = slot_of i.

Lemma write_ok h j t x i :
  ready true h j -> quiet (store j) -> num_entries h = Z.of_nat i -> (i < capacity)%nat -> is_u32 t ->
  is_Some (content (store j) d (slot_of i)) ->
  exists j', journal_write t x j = (true, j') /\ ready true (add_target i t h) j' /\
    quiet (store j') /\ content (store j') d (slot_of i) = Some (pad x) /\
    same_outside (fun d b => at_header d b \/ at_slot i d b) (store j) (store j').
Proof.
  intros R Q Hi Hc Ht Hx. pose proof R as [Hd _ _ Ha _ _ _ _ Hw].
  unfold journal_write, is_journal_active. rewrite (proj2 (Nat.eqb_neq _ _)), Ha by congruence.
  cbn [negb orb]. destruct (read_header_ok true h j R) as (s1 & -> & R1 & K1).
  pose proof R1 as [Hd1 Hs1 Hn1 Ha1 Hb1 Ho1 Hr1 Hc1 _].
  rewrite Hi, Nat2Z.id, Hs1, Hn1, data_block_slot, Hd1 by done.
  destruct (write_total d (slot_of i) (copy_prefix x zero_sector) (store (with_store j s1)))
    as (s2 & -> & Ho2 & K2 & C2);
    [done|apply K1, Q|by apply slot_u64|apply length_pad|by jsimpl; rewrite (proj1 (K1 d _))|].
  cbn [negb]. rewrite (proj2 (Z.ltb_ge _ _)) by (unfold is_u32 in Ht; lia).
  assert ((d, start) <> (d, slot_of i)) as Hne by (intros [= E]; unfold slot_of in E; lia).
  assert (ready true h (with_store (with_store j s1) s2)) as R2.
  { ready_by (by apply K2), (by rewrite (proj1 (K2 d start Hne))). }
  destruct (write_header_ok true h (add_target i t h) _ R2) as (s3 & s4 & -> & E4 & R4 & Q4 & O4).
  { apply add_target_wf; [done|done|]. pose proof capacity_max. unfold MAX_ENTRIES in *. lia. }
  cbn [negb]. rewrite E4. eexists. split_and!; [reflexivity|exact R4|exact Q4| |].
  - jsimpl. rewrite (O4 d (slot_of i)); [exact C2|]. intros [_ E]. unfold slot_of in E. lia.
  - intros d' b' Hn. jsimpl. rewrite (O4 d' b') by tauto. jsimpl.
    rewrite (proj1 (K2 d' b' ltac:(intros [= -> ->]; apply Hn; by right))). apply K1.
Qed.

Lemma writes_ok ws : forall h j k,
  ready true h j -> quiet (store j) -> num_entries h = Z.of_nat k ->
  (k + length ws <= capacity)%nat -> Forall (fun w => is_u32 w.1) ws ->
  (forall i, (i < capacity)%nat -> is_Some (content (store j) d (slot_of i))) ->
  exists h' j', write_each ws j = (true, j') /\ ready true h' j' /\ quiet (store j') /\
    num_entries h' = Z.of_nat (k + length ws) /\
    (forall i, (i < k)%nat -> targets h' !! i = targets h !! i) /\
    (forall i w, ws !! i = Some w ->
       targets h' !! (k + i)%nat = Some w.1 /\ content (store j') d (slot_of (k + i)) = Some (pad w.2)) /\
    same_outside (fun d b => at_header d b \/ exists i, (k <= i < k + length ws)%nat /\ at_slot i d b)
      (store j) (store j').
Proof.
  induction ws as [|[t x] ws IH]; intros h j k R Q Hk Hlen Hts Hsl.
  { exists h, j. rewrite Nat.add_0_r. split_and!; try done. }
  apply Forall_cons in Hts as [Ht Hts]. simpl in Hlen.
  destruct (write_ok h j t x k R Q Hk) as (j1 & E1 & R1 & Q1 & C1 & O1); [lia|done|apply Hsl; lia|].
  destruct (IH (add_target k t h) j1 (Datatypes.S k) R1 Q1) as (h' & j' & E' & R' & Q' & N' & T' & C' & O');
    [simpl; lia|lia|done| |].
  { intros i Hi. destruct (decide (i = k)) as [->|Hne]; [by rewrite C1|].
    rewrite (O1 d (slot_of i)); [by apply Hsl|].
    intros [[_ E]|[_ E]]; unfold slot_of in E; lia. }
  assert (targets (add_target k t h) !! k = Some t) as Htk.
  { simpl. apply list_lookup_insert_eq. rewrite (hw_length h (rd_wf _ _ _ R)).
    pose proof capacity_max. lia. }
  assert (content (store j') d (slot_of k) = Some (pad x)) as Hck.
  { rewrite (O' d (slot_of k)); [done|].
    intros [[_ E]|(i & Hi & _ & E)]; unfold slot_of in E; lia. }
  exists h', j'. cbn [write_each]. rewrite E1. cbn [negb length]. rewrite E'.
  split_and!; try done.
  - rewrite N'. f_equal. lia.
  - intros i Hi. rewrite T' by lia. simpl. apply list_lookup_insert_ne. lia.
  - intros [|i] w; simpl.
    + intros [= <-]. rewrite Nat.add_0_r. split; [rewrite T' by lia; exact Htk|exact Hck].
    + intros Hw. replace (k + Datatypes.S i)%nat with (Datatypes.S k + i)%nat by lia. by apply C'.
  - eapply same_outside_mono, (same_outside_trans _ _ _ _ _ O1 O').
    intros d' b' [[?|Hs]|[?|(i & Hi & Hs)]]; [by left| |by left|]; right.
    + exists k. split; [lia|done].
    + exists i. split; [lia|done].
Qed.

(** Copying journal sectors to their targets, the loop of a commit and of a
    replay.  [T i] is the target of entry [i] and [X i] its sector. *)
Section Copy.
Variables (T : nat -> Z) (X : nat -> bytes).

Record plan (idxs : list nat) (s : S) : Prop := {
  pl_ok : ok s;
  pl_nodup : NoDup idxs;
  pl_source : forall i, i ∈ idxs ->
    (i < capacity)%nat /\ reach s d (slot_of i) /\ content s d (slot_of i) = Some (X i);
  pl_target : forall i, i ∈ idxs -> T i <> 0 ->
    is_u64 (T i) /\ reach s d (T i) /\ is_Some (content s d (T i)) /\
    (forall k, k ∈ idxs -> T i <> slot_of k) /\
    (forall k, k ∈ idxs -> T i = T k -> i = k);
}.

Definition is_target (idxs : list nat) (d' : nat) (b' : Z) : Prop :=
  exists i, i ∈ idxs /\ T i <> 0 /\ d' = d /\ b' = T i.

Record copied (idxs : list nat) (s s' : S) : Prop := {
  cp_ok : ok s';
  cp_target : forall i, i ∈ idxs -> T i <> 0 -> content s' d (T i) = Some (X i);
  cp_other : forall d' b', ~ is_target idxs d' b' ->
    content s' d' b' = content s d' b' /\ (reach s d' b' -> reach s' d' b');
}.

Lemma plan_skip i idxs s : plan (i :: idxs) s -> plan idxs s.
Proof.
  intros [Ho Hn Hs Ht]. apply NoDup_cons in Hn as [_ Hn]. split; try done.
  - intros k Hk. apply Hs. by right.
  - intros k Hk Hz. destruct (Ht k (list_elem_of_further _ _ _ Hk) Hz) as (H1 & H2 & H3 & H4 & H5).
    split_and!; try done.
    + intros m Hm. apply H4. by right.
    + intros m Hm. apply H5. by right.
Qed.

Lemma plan_step i idxs s :
  plan (i :: idxs) s -> T i <> 0 ->
  exists s1 s2, bc_read d (slot_of i) zero_sector s = (true, X i, s1) /\
    bc_write d (T i) (X i) s1 = (true, s2) /\ plan idxs s2 /\
    keeps_but d (T i) s s2 /\ content s2 d (T i) = Some (X i).
Proof.
  intros P Hz. pose proof (plan_skip _ _ _ P) as P'. destruct P as [Ho Hn Hs Ht].
  destruct (Hs i (list_elem_of_here _ _)) as (Hi & Hri & Hxi).
  destruct (Ht i (list_elem_of_here _ _) Hz) as (Hu & Hrt & Hct & Hns & Hnt).
  destruct (read_total d (slot_of i) s (X i) Ho Hri (slot_u64 i Hi) Hxi) as (s1 & E1 & Ho1 & K1).
  destruct (write_total d (T i) (X i) s1 Ho1) as (s2 & E2 & Ho2 & K2 & C2);
    [by apply K1|done|by apply (law_length ok content durable reach s d (slot_of i))|by rewrite (proj1 (K1 _ _))|].
  assert (keeps_but d (T i) s s2) as K.
  { intros d' b' Hne. destruct (K1 d' b') as [H1 H2], (K2 d' b' Hne) as [H3 H4].
    split; [congruence|auto]. }
  exists s1, s2. split_and!; try done. apply NoDup_cons in Hn as [Hn _].
  destruct P' as [_ Hn' Hs' Ht']. split; try done.
  - intros k Hk. destruct (Hs' k Hk) as (H1 & H2 & H3).
    assert ((d, slot_of k) <> (d, T i)) as Hne.
    { intros [= E]. by apply (Hns k (list_elem_of_further _ _ _ Hk)). }
    destruct (K _ _ Hne) as [-> H4]. auto.
  - intros k Hk Hzk. destruct (Ht' k Hk Hzk) as (H1 & H2 & H3 & H4 & H5).
    assert ((d, T k) <> (d, T i)) as Hne.
    { intros [= E]. apply Hn. rewrite (Hnt k (list_elem_of_further _ _ _ Hk)); done. }
    destruct (K _ _ Hne) as [-> H6]. auto.
Qed.

Lemma copied_nil s : ok s -> copied [] s s.
Proof. intros. split; [done| |done]. intros i Hi. by apply not_elem_of_nil in Hi. Qed.

Lemma copied_skip i idxs s s' : T i = 0 -> copied idxs s s' -> copied (i :: idxs) s s'.
Proof.
  intros Hz [Ho Ht Hc]. split; [done| |].
  - intros k [->|Hk]%elem_of_cons Hzk; [done|by apply Ht].
  - intros d' b' Hn. apply Hc. intros (k & Hk & H). apply Hn. exists k. split; [by right|done].
Qed.

Lemma copied_step i idxs s s2 s' :
  plan (i :: idxs) s -> T i <> 0 -> keeps_but d (T i) s s2 -> content s2 d (T i) = Some (X i) ->
  copied idxs s2 s' -> copied (i :: idxs) s s'.
Proof.
  intros P Hz K C [Ho Ht Hc].
  assert (forall d' b', ~ is_target idxs d' b' -> content s' d' b' = content s2 d' b') as Hc'.
  { intros d' b' Hn. by apply Hc. }
  split; [done| |].
  - intros k [->|Hk]%elem_of_cons Hzk; [|by apply Ht].
    rewrite Hc'; [done|]. intros (m & Hm & _ & _ & E).
    pose proof (pl_nodup _ _ P) as [Hni _]%NoDup_cons. apply Hni.
    destruct (pl_target _ _ P i (list_elem_of_here _ _) Hz) as (_ & _ & _ & _ & Hd).
    by rewrite (Hd m (list_elem_of_further _ _ _ Hm) E).
  - intros d' b' Hn.
    assert ((d', b') <> (d, T i)) as Hne.
    { intros [= -> ->]. apply Hn. exists i. split; [apply list_elem_of_here|done]. }
    assert (~ is_target idxs d' b') as Hn'.
    { intros (k & Hk & H). apply Hn. exists k. split; [by right|done]. }
    destruct (K _ _ Hne), (Hc _ _ Hn'). split; [congruence|auto].
Qed.

End Copy.

Lemma commit_loop_ok h X idxs : forall j,
  JNL_DEV_ID j = d -> JNL_START_BLOCK j = start -> JNL_NUM_BLOCKS j = num ->
  plan (fun i => default 0 (targets h !! i)) X idxs (store j) ->
  exists s', commit_loop h idxs j = (true, with_store j s') /\
    copied (fun i => default 0 (targets h !! i)) X idxs (store j) s'.
Proof.
  set (T := fun i => default 0 (targets h !! i)).
  induction idxs as [|i idxs IH]; intros j Hd Hs Hn P.
  { exists (store j). split; [by destruct j|]. apply copied_nil, (pl_ok _ _ _ _ P). }
  cbn [commit_loop]. fold (T i). destruct (Z.eqb_spec (T i) 0) as [Hz|Hz].
  { destruct (IH j Hd Hs Hn (plan_skip _ _ _ _ _ P)) as (s' & E & C).
    exists s'. split; [done|by apply copied_skip]. }
  destruct (plan_step T X i idxs (store j) P Hz) as (s1 & s2 & E1 & E2 & P2 & K2 & C2).
  destruct (pl_source _ _ _ _ P i (list_elem_of_here _ _)) as [Hi _].
  rewrite Hs, Hn, data_block_slot, Hd, E1 by done. cbn [negb]. jsimpl. rewrite Hd, E2. cbn [negb].
  destruct (IH (with_store (with_store j s1) s2) Hd Hs Hn P2) as (s' & E & C).
  exists s'. split; [exact E|]. by apply (copied_step T X i idxs (store j) s2).
Qed.

Lemma replay_loop_ok buf X idxs : forall s,
  plan (fun i => le32_at buf (target_off i)) X idxs s ->
  copied (fun i => le32_at buf (target_off i)) X idxs s (replay_loop d start num buf idxs s).
Proof.
  set (T := fun i => le32_at buf (target_off i)).
  induction idxs as [|i idxs IH]; intros s P; [apply copied_nil, (pl_ok _ _ _ _ P)|].
  cbn [replay_loop]. fold (T i). destruct (Z.eqb_spec (T i) 0) as [Hz|Hz].
  { by apply copied_skip, IH, (plan_skip _ _ i). }
  destruct (plan_step T X i idxs s P Hz) as (s1 & s2 & E1 & E2 & P2 & K2 & C2).
  destruct (pl_source _ _ _ _ P i (list_elem_of_here _ _)) as [Hi _].
  rewrite data_block_slot, E1 by done. cbn [negb]. rewrite E2.
  by apply (copied_step T X i idxs s s2), IH.
Qed.

Lemma device_flush_ok act h j :
  ready act h j -> quiet (store j) ->
  exists s', device_flush j = (true, with_store j s') /\ ready act h (with_store j s') /\
    quiet s' /\ keeps (store j) s'.
Proof.
  intros [Hd Hs Hn Ha Hb Ho Hr Hc Hw] Q. unfold device_flush. unfold good_barrier in Hb.
  destruct (DEVICE_FLUSH j) as [f|] eqn:Ef.
  - destruct (Hb (store j) Ho Q) as (s' & E & Ho' & K & Q'). rewrite E. exists s'.
    assert (good_barrier (with_store j s')) by (unfold good_barrier; jsimpl; by rewrite Ef).
    split_and!; [done| |done|done].
    ready_by (by apply K), (by rewrite (proj1 (K d start))).
  - exists (store j). assert (with_store j (store j) = j) as -> by (by destruct j).
    assert (good_barrier j) by (unfold good_barrier; by rewrite Ef).
    split_and!; [done|by split|done|done].
Qed.

(** The three phases of a commit that follow the copies. *)
Lemma commit_mark_ok act h j :
  ready act h j -> quiet (store j) ->
  exists j', commit_mark j = (true, j') /\ ready act (set_state JNL_STATE_COMMITTED h) j' /\
    quiet (store j') /\ same_outside at_header (store j) (store j').
Proof.
  intros R Q. unfold commit_mark.
  destruct (device_flush_ok act h j R Q) as (s1 & -> & R1 & Q1 & K1). cbn [negb].
  destruct (read_header_ok act h _ R1) as (s2 & -> & R2 & K2).
  destruct (write_header_ok act h (set_state JNL_STATE_COMMITTED h) _ R2) as (s3 & s4 & -> & E4 & R4 & Q4 & O4).
  { apply set_state_wf; [apply (rd_wf _ _ _ R)|done]. }
  cbn [negb]. rewrite E4. eexists. split_and!; [reflexivity|exact R4|exact Q4|].
  intros d' b' Hn. jsimpl. rewrite (O4 d' b' Hn). jsimpl. rewrite (proj1 (K2 d' b')). apply K1.
Qed.

Lemma commit_clear_ok h j :
  ready true h j -> quiet (store j) ->
  exists j', commit_clear j = (true, j') /\ ready false (clear_header h) j' /\
    quiet (store j') /\ same_outside at_header (store j) (store j').
Proof.
  intros R Q. unfold commit_clear.
  destruct (device_flush_ok true h j R Q) as (s1 & -> & R1 & Q1 & K1). cbn [negb].
  destruct (read_header_ok true h _ R1) as (s2 & -> & R2 & K2).
  destruct (write_header_ok true h (clear_header h) _ R2) as (s3 & s4 & -> & E4 & R4 & Q4 & O4).
  { apply clear_header_wf, (rd_wf _ _ _ R). }
  rewrite E4. eexists. split_and!; [reflexivity| |exact Q4|].
  - destruct R4. split; jsimpl; assumption || reflexivity.
  - intros d' b' Hn. jsimpl. rewrite (O4 d' b' Hn). jsimpl. rewrite (proj1 (K2 d' b')). apply K1.
Qed.

(** The first [n] entries have distinct targets on the device, off the journal. *)
Definition targets_ok (T : nat -> Z) (n : nat) (s : S) : Prop :=
  forall i, (i < n)%nat -> T i <> 0 ->
    is_u64 (T i) /\ is_Some (content s d (T i)) /\ ~ (start <= T i < start + num) /\
    forall k, (k < n)%nat -> T i = T k -> i = k.

Lemma targets_plan T X n s :
  ok s -> reached s -> (n <= capacity)%nat ->
  (forall i, (i < n)%nat -> content s d (slot_of i) = Some (X i)) -> targets_ok T n s ->
  plan T X (seq 0 n) s.
Proof.
  intros Ho Hr Hn Hx Ht. split; [done|apply NoDup_seq| |].
  - intros i Hi%elem_of_seq. split_and!; [lia|apply Hr|apply Hx; lia].
  - intros i Hi%elem_of_seq Hz. destruct (Ht i ltac:(lia) Hz) as (H1 & H2 & H3 & H4).
    split_and!; [done|apply Hr|done| |].
    + intros k Hk%elem_of_seq E. apply H3. rewrite E.
      pose proof (capacity_lt k ltac:(lia)). unfold slot_of in *. lia.
    + intros k Hk%elem_of_seq. apply H4. lia.
Qed.

Lemma targets_off_area T n s b :
  targets_ok T n s -> start <= b < start + num -> ~ is_target T (seq 0 n) d b.
Proof.
  intros Ht Hb (i & Hi%elem_of_seq & Hz & _ & ->).
  destruct (Ht i ltac:(lia) Hz) as (_ & _ & H & _). done.
Qed.

Lemma targets_ok_keeps T n s s' : keeps s s' -> targets_ok T n s -> targets_ok T n s'.
Proof.
  intros K Ht i Hi Hz. destruct (Ht i Hi Hz) as (H1 & H2 & H3 & H4).
  split_and!; try done. by rewrite (proj1 (K _ _)).
Qed.

Lemma commit_ok h j n X :
  let T := fun i => default 0 (targets h !! i) in
  ready true h j -> quiet (store j) -> num_entries h = Z.of_nat n -> (n <= capacity)%nat -> 0 < num ->
  (forall i, (i < n)%nat -> content (store j) d (slot_of i) = Some (X i)) ->
  targets_ok T n (store j) ->
  exists j', journal_commit j = (true, j') /\ ready false (clear_header h) j' /\ quiet (store j') /\
    (forall i, (i < n)%nat -> T i <> 0 -> content (store j') d (T i) = Some (X i)) /\
    same_outside (fun d' b' => at_header d' b' \/ is_target T (seq 0 n) d' b') (store j) (store j').
Proof.
  intros T R Q Hn Hcap Hnum Hx Ht. pose proof R as [Hd _ _ Ha _ _ _ _ _].
  unfold journal_commit, is_journal_active. rewrite (proj2 (Nat.eqb_neq _ _)), Ha by congruence.
  cbn [negb orb]. destruct (read_header_ok true h j R) as (s1 & -> & R1 & K1).
  pose proof R1 as [Hd1 Hs1 Hn1 Ha1 Hb1 Ho1 Hr1 Hc1 Hw1].
  assert (replay_entry_limit (num_entries h) (JNL_NUM_BLOCKS (with_store j s1)) = n) as ->.
  { rewrite Hn, Hn1. unfold replay_entry_limit. fold capacity. pose proof capacity_max. lia. }
  assert (plan T X (seq 0 n) s1) as P.
  { apply targets_plan; try done; [by eapply keeps_reached, quiet_reached| |by eapply targets_ok_keeps].
    intros i Hi. rewrite (proj1 (K1 _ _)). by apply Hx. }
  destruct (commit_loop_ok h X (seq 0 n) _ Hd1 Hs1 Hn1 P) as (s2 & -> & [Ho2 Ht2 Hc2]). cbn [negb].
  destruct (flush_total s2 Ho2) as (s3 & E3 & Ho3 & K3 & Q3).
  unfold flush at 1. jsimpl. rewrite E3.
  assert (content s3 d start = Some (header_sector h)) as Hh3.
  { rewrite (proj1 (K3 _ _)), (proj1 (Hc2 d start (targets_off_area T n _ start Ht ltac:(lia)))). done. }
  assert (ready true h (with_store j s3)) as R3.
  { destruct R. ready_by (apply Q3), (exact Hh3). }
  destruct (commit_mark_ok true h _ R3 Q3) as (j4 & E4 & R4 & Q4 & O4).
  change (with_store _ s3) with (with_store j s3). rewrite E4. cbn [negb].
  destruct (commit_clear_ok _ _ R4 Q4) as (j5 & -> & R5 & Q5 & O5).
  assert (same_outside at_header s3 (store j5)) as O35.
  { intros d' b' Hn'. rewrite (O5 d' b' Hn'). by apply O4. }
  exists j5. split_and!; [done|exact R5|done| |].
  - intros i Hi Hz. rewrite (O35 d (T i)).
    + rewrite (proj1 (K3 _ _)). apply Ht2; [apply elem_of_seq; lia|done].
    + intros [_ E]. destruct (Ht i Hi Hz) as (_ & _ & H & _). lia.
  - intros d' b' Hn'. rewrite (O35 d' b') by tauto.
    rewrite (proj1 (K3 _ _)), (proj1 (Hc2 d' b' ltac:(tauto))). jsimpl. apply K1.
Qed.

Lemma targets_ok_ext T T' n s s' :
  (forall i, (i < n)%nat -> T' i = T i) ->
  (forall b, ~ (start <= b < start + num) -> content s' d b = content s d b) ->
  targets_ok T n s -> targets_ok T' n s'.
Proof.
  intros HT Hc Ht i Hi. rewrite (HT i Hi). intros Hz. destruct (Ht i Hi Hz) as (H1 & H2 & H3 & H4).
  split_and!; [done|by rewrite Hc|done|]. intros k Hk. rewrite (HT k Hk). by apply H4.
Qed.

(** The blocks of the journal. *)
Definition in_area (d' : nat) (b' : Z) : Prop := d' = d /\ start <= b' < start + num.

Lemma at_header_area d' b' : 0 < num -> at_header d' b' -> in_area d' b'.
Proof. intros ? [-> ->]. split; [done|lia]. Qed.

Lemma at_slot_area i d' b' : (i < capacity)%nat -> at_slot i d' b' -> in_area d' b'.
Proof. intros H%capacity_lt [-> ->]. split; [done|]. unfold slot_of in *. lia. Qed.

(** The targets a commit writes: those the header still lists, then the new ones. *)
Definition all_targets (k : nat) (h : JournalHeader) (ws : list (Z * bytes)) (i : nat) : Z :=
  if (i <? k)%nat then default 0 (targets h !! i) else default 0 (ws.*1 !! (i - k)%nat).

(** C9: A transaction on a fault-free device, whose header still lists [k] entries:
    none after [journal_init] or a commit, those of the last transaction after
    [journal_replay].  When the journal has room for them and for the new blocks,
    and the targets are distinct and off the journal, the transaction succeeds.
    Afterwards every new target other than block 0 has its new content on the
    device, every target of an old entry has the content of that entry again, every
    block that is neither in the journal nor such a target is as before (block 0
    always), and the journal is ready for the next transaction, with no entries. *)
Theorem journal_transaction_durable ws h j k Y :
  ready false h j -> num_entries h = Z.of_nat k -> 0 < num -> (k + length ws <= capacity)%nat ->
  (forall i, (i < capacity)%nat -> is_Some (content (store j) d (slot_of i))) ->
  (forall i, (i < k)%nat -> content (store j) d (slot_of i) = Some (Y i)) ->
  Forall (fun w => is_u32 w.1) ws ->
  targets_ok (all_targets k h ws) (k + length ws) (store j) ->
  exists h' j', transaction ws j = (true, j') /\ ready false h' j' /\ num_entries h' = 0 /\
    (forall t x, (t, x) ∈ ws -> t <> 0 -> durable (store j') d t = Some (pad x)) /\
    (forall i t, (i < k)%nat -> targets h !! i = Some t -> t <> 0 -> durable (store j') d t = Some (Y i)) /\
    (forall d' b', ~ in_area d' b' -> d' <> d \/ b' = 0 \/ b' ∉ take k (targets h) ++ ws.*1 ->
       durable (store j') d' b' = content (store j) d' b').
Proof.
  intros R Hk Hnum Hlen Hsl HY Hu Ht. unfold transaction.
  destruct (begin_ok h j R) as (j1 & -> & R1 & Q1 & O1). cbn [negb].
  destruct (writes_ok ws _ j1 k R1 Q1 Hk Hlen Hu) as (h2 & j2 & -> & R2 & Q2 & N2 & T2 & C2 & O2).
  { intros i Hi. rewrite (O1 d (slot_of i)); [by apply Hsl|]. intros [_ E]. unfold slot_of in E. lia. }
  cbn [negb]. assert (same_outside in_area (store j) (store j2)) as O.
  { intros d' b' Hn. rewrite (O2 d' b'), (O1 d' b'); [done| |].
    - intros H. by apply Hn, at_header_area.
    - intros [H|(i & Hi & H)]; apply Hn; [by apply at_header_area|apply (at_slot_area i); [lia|done]]. }
  assert (forall i, (i < k + length ws)%nat -> default 0 (targets h2 !! i) = all_targets k h ws i) as HT.
  { intros i Hi. unfold all_targets. destruct (Nat.ltb_spec i k) as [Hik|Hik]; [by rewrite T2|].
    destruct (lookup_lt_is_Some_2 ws (i - k)) as [w Hw]; [lia|]. destruct (C2 (i - k)%nat w Hw) as [E _].
    rewrite list_lookup_fmap, Hw. replace (k + (i - k))%nat with i in E by lia. simpl in E |- *. by rewrite E. }
  set (X := fun i => if (i <? k)%nat then Y i else pad (default [] (ws.*2 !! (i - k)%nat))).
  destruct (commit_ok h2 j2 (k + length ws) X R2 Q2 N2 Hlen Hnum) as (j3 & E3 & R3 & Q3 & C3 & O3).
  { intros i Hi. unfold X. destruct (Nat.ltb_spec i k) as [Hik|Hik].
    - rewrite (O2 d (slot_of i)), (O1 d (slot_of i)); [by apply HY| |].
      + intros [_ E]. unfold slot_of in E. lia.
      + intros [[_ E]|(i' & Hi' & _ & E)]; unfold slot_of in E; lia.
    - destruct (lookup_lt_is_Some_2 ws (i - k)) as [w Hw]; [lia|]. destruct (C2 (i - k)%nat w Hw) as [_ E].
      rewrite list_lookup_fmap, Hw. replace (k + (i - k))%nat with i in E by lia. exact E. }
  { apply (targets_ok_ext _ _ _ (store j) _ HT); [|done]. intros b Hb. apply O. intros [_ H]. done. }
  cbv beta zeta in C3.
  assert (forall i, (i < k + length ws)%nat -> all_targets k h ws i <> 0 -> durable (store j3) d (all_targets k h ws i) = Some (X i)) as CX.
  { intros i Hi. rewrite <-(HT i Hi), (proj2 (Q3 _ _)). by apply C3. }
  exists (clear_header h2), j3. split_and!; [done|done|done| | |].
  - intros t x [i Hi]%list_elem_of_lookup. pose proof (lookup_lt_Some _ _ _ Hi) as Hlt. specialize (CX (k + i)%nat ltac:(lia)).
    unfold all_targets, X in CX. rewrite (proj2 (Nat.ltb_ge (k + i) k)) in CX by lia.
    replace (k + i - k)%nat with i in CX by lia. by rewrite !list_lookup_fmap, Hi in CX.
  - intros i t Hi Hti. specialize (CX i ltac:(lia)). unfold all_targets, X in CX.
    rewrite (proj2 (Nat.ltb_lt i k) Hi), Hti in CX. exact CX.
  - intros d' b' Ha Hb. rewrite (proj2 (Q3 d' b')), (O3 d' b'); [by apply O|].
    intros [H|(i & Hi%elem_of_seq & Hnz & -> & ->)]; [by apply Ha, at_header_area|].
    cbv beta in Hnz, Hb. rewrite (HT i) in Hnz, Hb by lia. destruct Hb as [?|[?|Hb]]; [done|done|]. apply Hb.
    apply elem_of_app. unfold all_targets in *. destruct (Nat.ltb_spec i k).
    + left. destruct (targets h !! i) as [t|] eqn:E; [|done]. apply list_elem_of_lookup. exists i. by rewrite lookup_take_lt.
    + right. destruct (ws.*1 !! (i - k)%nat) as [t|] eqn:E; [|done]. by eapply list_elem_of_lookup_2.
Qed.

Lemma init_ok j :
  ok (store j) -> reached (store j) -> is_Some (content (store j) d start) -> good_barrier j ->
  exists j', journal_init d start num j = (true, j') /\ ready false fresh_header j' /\
    same_outside at_header (store j) (store j').
Proof.
  intros Ho Hr Hx Hb. unfold journal_init. jsimpl.
  destruct (write_total d start (header_sector fresh_header) (store j)) as (s1 & -> & Ho1 & K1 & C1);
    [done|apply Hr|done|apply header_sector_length|done|].
  destruct (flush_total s1 Ho1) as (s2 & -> & Ho2 & K2 & Q2).
  destruct (law_drop ok content durable reach d start s2 Ho2 Q2) as (Ho3 & K3 & Q3).
  destruct (bc_drop d start s2) as [t s3]. simpl in Ho3, K3, Q3.
  eexists. split_and!; [reflexivity| |].
  - split; jsimpl; try reflexivity.
    + exact Hb.
    + exact Ho3.
    + apply Q3.
    + by rewrite (proj1 (K3 _ _)), (proj1 (K2 _ _)).
    + apply fresh_header_wf.
  - intros d' b' Hn. jsimpl. rewrite (proj1 (K3 _ _)), (proj1 (K2 _ _)). apply K1.
    intros [= -> ->]. by apply Hn.
Qed.

Lemma copied_ext T T' X idxs s s' :
  (forall i, i ∈ idxs -> T' i = T i) -> copied T' X idxs s s' -> copied T X idxs s s'.
Proof.
  intros HT [Ho Ht Hc]. split; [done| |].
  - intros i Hi. rewrite <-(HT i Hi). by apply Ht.
  - intros d' b' Hn. apply Hc. intros (i & Hi & Hz & H). apply Hn. exists i.
    rewrite <-(HT i Hi). done.
Qed.

(** The loop of a replay on the image of a header. *)
Lemma replay_copies h X n s :
  let T := fun i => default 0 (targets h !! i) in
  header_wf h -> ok s -> reached s -> (n <= capacity)%nat ->
  (forall i, (i < n)%nat -> content s d (slot_of i) = Some (X i)) -> targets_ok T n s ->
  copied T X (seq 0 n) s (replay_loop d start num (header_sector h) (seq 0 n) s).
Proof.
  intros T Hw Ho Hr Hn Hx Ht. pose proof capacity_max as Hm.
  set (T' := fun i => le32_at (header_sector h) (target_off i)).
  assert (forall i, (i < n)%nat -> T' i = T i) as HT.
  { intros i Hi. unfold T', T. by rewrite (header_target h i Hw) by lia. }
  apply (copied_ext T T'); [intros i Hi%elem_of_seq; apply HT; lia|].
  apply (replay_loop_ok (header_sector h) X (seq 0 n) s), targets_plan; [assumption..|].
  by apply (targets_ok_ext T T' n s s HT).
Qed.

(** The end of a replay: flush, write the retired header, flush, drop its line. *)
Lemma retire_ok buf s :
  ok s -> reach s d start -> is_Some (content s d start) -> length buf = SECTOR_SIZE ->
  exists s1 s2 s3 s4 t, bc_flush s = (true, s1) /\ bc_write d start buf s1 = (true, s2) /\
    bc_flush s2 = (true, s3) /\ bc_drop d start s3 = (t, s4) /\ quiet s4 /\
    content s4 d start = Some buf /\ same_outside at_header s s4.
Proof.
  intros Ho Hr Hx Hl. destruct (flush_total s Ho) as (s1 & E1 & Ho1 & K1 & Q1).
  destruct (write_total d start buf s1) as (s2 & E2 & Ho2 & K2 & C2);
    [done|apply Q1|done|done|by rewrite (proj1 (K1 _ _))|].
  destruct (flush_total s2 Ho2) as (s3 & E3 & Ho3 & K3 & Q3).
  destruct (law_drop ok content durable reach d start s3 Ho3 Q3) as (Ho4 & K4 & Q4).
  destruct (bc_drop d start s3) as [t s4] eqn:E4. simpl in Ho4, K4, Q4.
  exists s1, s2, s3, s4, t. split_and!; try done.
  - by rewrite (proj1 (K4 _ _)), (proj1 (K3 _ _)).
  - intros d' b' Hn. rewrite (proj1 (K4 _ _)), (proj1 (K3 _ _)), <-(proj1 (K1 _ _)). apply K2.
    intros [= -> ->]. by apply Hn.
Qed.

(** C21: Replaying a journal whose header says COMMITTED, with at least one entry and
    distinct targets off the journal, puts every journalled sector whose target is not block 0, up to
    the entries the journal has room for, on the device, leaves all other blocks off
    the journal header as they were, block 0 among them, and marks the header EMPTY.
    The header keeps its number of entries and their targets, which the next
    transaction will write again. *)
Theorem journal_replay_redoes h j X :
  let T := fun i => default 0 (targets h !! i) in
  let n := replay_entry_limit (num_entries h) num in
  ok (store j) -> reached (store j) -> content (store j) d start = Some (header_sector h) ->
  header_wf h -> jstate h = JNL_STATE_COMMITTED -> (0 < n)%nat -> 0 < num ->
  (forall i, (i < n)%nat -> content (store j) d (slot_of i) = Some (X i)) ->
  targets_ok T n (store j) ->
  exists j' buf, journal_replay d start num j = (true, j') /\
    (forall i, (i < n)%nat -> T i <> 0 -> durable (store j') d (T i) = Some (X i)) /\
    (forall d' b', ~ at_header d' b' -> ~ is_target T (seq 0 n) d' b' ->
       durable (store j') d' b' = content (store j) d' b') /\
    durable (store j') d start = Some buf /\ buf = header_sector (set_state JNL_STATE_EMPTY h) /\
    JNL_ACTIVE j' = false.
Proof.
  intros T n Ho Hr Hh Hw Hst Hn Hnum Hx Ht. unfold journal_replay.
  destruct (read_total d start (store j) (header_sector h) Ho (Hr _ _) start_u64 Hh) as (s1 & -> & Ho1 & K1).
  cbn [negb].
  rewrite (header_word h 0 (magic h) Hw eq_refl : le32_at _ 0 = _), (hw_magic h Hw), Z.eqb_refl,
    (header_word h 3 (jstate h) Hw eq_refl : le32_at _ 12 = _), Hst,
    (header_word h 2 (num_entries h) Hw eq_refl : le32_at _ 8 = _).
  cbn [negb Z.eqb JNL_STATE_COMMITTED Pos.eqb]. fold n.
  rewrite (proj2 (Nat.eqb_neq n 0)) by lia.
  assert (n <= capacity)%nat as Hcap by (unfold n, replay_entry_limit; fold capacity; lia).
  destruct (replay_copies h X n s1) as [Ho2 Ht2 Hc2]; [done|done|by eapply keeps_reached|done| | |].
  { intros i Hi. rewrite (proj1 (K1 _ _)). by apply Hx. }
  { by apply (targets_ok_keeps T n (store j)). }
  set (s2 := replay_loop _ _ _ _ _ s1) in *.
  assert (~ is_target T (seq 0 n) d start) as Hns by (apply (targets_off_area T n _ _ Ht); lia).
  destruct (retire_ok (splice 12 (le32_bytes JNL_STATE_EMPTY) (header_sector h)) s2)
    as (s3 & s4 & s5 & s6 & t & -> & -> & -> & -> & Q & C & O); [done| | | |].
  { apply Hc2; [done|]. apply K1, Hr. }
  { rewrite (proj1 (Hc2 _ _ Hns)), (proj1 (K1 _ _)). by rewrite Hh. }
  { rewrite length_splice; rewrite header_sector_length; [done|]. cbn. unfold SECTOR_SIZE. lia. }
  do 2 eexists. split_and!; [reflexivity| | |exact (eq_trans (proj2 (Q d start)) C)| |reflexivity]; jsimpl.
  - intros i Hi Hz. rewrite (proj2 (Q _ _)), (O d (T i)).
    + apply Ht2; [apply elem_of_seq; lia|done].
    + intros [_ E]. destruct (Ht i Hi Hz) as (_ & _ & H & _). lia.
  - intros d' b' Hn1 Hn2. rewrite (proj2 (Q _ _)), (O d' b' Hn1), (proj1 (Hc2 d' b' Hn2)).
    apply K1.
  - apply header_sector_set_state; [done|by apply set_state_wf|done].
Qed.

(** Replaying a journal whose header does not say COMMITTED succeeds without
    changing any block or the statics of the journal. *)
Theorem journal_replay_ignores_uncommitted h j :
  ok (store j) -> reached (store j) -> content (store j) d start = Some (header_sector h) ->
  header_wf h -> jstate h <> JNL_STATE_COMMITTED ->
  exists s', journal_replay d start num j = (true, with_store j s') /\
    forall d' b', content s' d' b' = content (store j) d' b'.
Proof.
  intros Ho Hr Hh Hw Hst. unfold journal_replay.
  destruct (read_total d start (store j) (header_sector h) Ho (Hr _ _) start_u64 Hh) as (s1 & -> & Ho1 & K1).
  cbn [negb].
  rewrite (header_word h 0 (magic h) Hw eq_refl : le32_at _ 0 = _), (hw_magic h Hw), Z.eqb_refl,
    (header_word h 3 (jstate h) Hw eq_refl : le32_at _ 12 = _), (proj2 (Z.eqb_neq _ _) Hst).
  exists s1. split; [done|]. intros d' b'. apply K1.
Qed.

End Geometry.
End Txn.
(** Stores that may fail. *)
Section Contained.
Context {S : Type} `{!BlockStore S}.
Context (ok : S -> Prop) (content durable : S -> nat -> Z -> option bytes) (reach : S -> nat -> Z -> Prop).
Context `{!StoreLaws ok content durable reach}.

Lemma read_any d b s :
  ok s -> reach s d b -> is_u64 b ->
  let s' := (bc_read d b zero_sector s).2 in ok s' /\ Journal.keeps content reach s s'.
Proof.
  intros Ho Hr Hb. by destruct (law_read ok content durable reach d b s Ho Hr Hb) as (Ho' & K & _).
Qed.

Lemma write_any d b buf s :
  ok s -> reach s d b -> is_u64 b -> length buf = SECTOR_SIZE ->
  let s' := (bc_write d b buf s).2 in ok s' /\ Journal.keeps_but content reach d b s s'.
Proof.
  intros Ho Hr Hb Hl. destruct (law_write ok content durable reach d b buf s Ho Hr Hb Hl) as (Ho' & H).
  destruct (bc_write d b buf s) as [[|] s']; simpl in *; split; try done; [by apply H|].
  intros d' b' _. apply H.
Qed.

Lemma flush_any s : ok s -> Journal.keeps content reach s (bc_flush s).2.
Proof. intros Ho. by destruct (law_flush ok content durable reach s Ho) as (_ & K & _). Qed.

(** Whatever the header block contains and whichever device request fails, a
    [journal_write] changes no block outside the blocks given to the journal. *)
Theorem journal_write_contained t x j d' b' :
  let start := JNL_START_BLOCK j in
  let num := JNL_NUM_BLOCKS j in
  ok (store j) -> (forall d b, reach (store j) d b) ->
  is_u64 start -> start + num < U64 -> 0 < num -> ~ in_area (JNL_DEV_ID j) start num d' b' ->
  content (store (journal_write t x j).2) d' b' = content (store j) d' b'.
Proof.
  intros start num Ho Hr Hs Hn Hp Ha. unfold journal_write.
  destruct (_ || _); [done|]. unfold read_header. fold start.
  destruct (read_any (JNL_DEV_ID j) start (store j) Ho (Hr _ _) Hs) as [Ho1 K1].
  destruct (bc_read _ _ _ _) as [[rok buf] s1]. simpl in Ho1, K1.
  destruct (if negb rok then None else parse_header buf) as [h|]; [|apply K1]. jsimpl. fold start num.
  destruct (data_block_for start num _) as [b|] eqn:Eb; [|apply K1].
  assert (Z.to_nat (num_entries h) < capacity num)%nat as Hidx.
  { unfold data_block_for in Eb. fold (capacity num) in Eb. case_if_in Eb; [done|lia]. }
  rewrite (data_block_slot start num Hs Hn _ Hidx) in Eb. injection Eb as <-.
  set (b := slot_of start (Z.to_nat (num_entries h))).
  assert (forall b0, b0 = b \/ b0 = start -> (d', b') <> (JNL_DEV_ID j, b0)) as Hne.
  { intros b0 Hb0 [= -> ->]. apply Ha. split; [done|].
    destruct Hb0 as [->| ->]; [|lia]. pose proof (capacity_lt start num _ Hidx). unfold b, slot_of in *. lia. }
  destruct (write_any (JNL_DEV_ID j) b (copy_prefix x zero_sector) s1 Ho1) as [Ho2 K2];
    [apply K1, Hr|by apply slot_u64 with (num := num)|apply length_pad|].
  destruct (bc_write _ b _ s1) as [wok s2]. simpl in Ho2, K2.
  assert (content s2 d' b' = content (store j) d' b') as Hc2.
  { rewrite (proj1 (K2 d' b' (Hne b (or_introl eq_refl)))). apply K1. }
  destruct (negb wok); [exact Hc2|]. destruct (2 ^ 32 - 1 <? t); [exact Hc2|].
  unfold write_header. jsimpl. fold start.
  destruct (write_any (JNL_DEV_ID j) start (header_sector (add_target (Z.to_nat (num_entries h)) t h)) s2 Ho2)
    as [Ho3 K3]; [|done|apply header_sector_length|].
  { apply K2; [|apply K1, Hr]. intros [= E]. unfold b, slot_of in E. lia. }
  destruct (bc_write _ start _ s2) as [hok s3]. simpl in Ho3, K3.
  assert (content s3 d' b' = content (store j) d' b') as Hc3.
  { rewrite (proj1 (K3 d' b' (Hne start (or_intror eq_refl)))). exact Hc2. }
  destruct (negb hok); [exact Hc3|]. unfold flush. jsimpl.
  pose proof (flush_any s3 Ho3) as K4. destruct (bc_flush s3) as [fok s4]. simpl in K4.
  cbn [snd]. jsimpl. by rewrite (proj1 (K4 d' b')).
Qed.

End Contained.

(** Power failures.  The RAM disk loses every write after the first [k]; the
    machine then starts again with an empty cache and replays the journal, as
    [kernel_main] does at boot. *)
Definition crashed (k : nat) : Fake.Disk :=
  let st := cache_store Fake.failing_devs in
  let j := boot_jnl {| cache := new_cache; world := (Fake.blank_disk, k) |} in
  (world (store (transaction [(40, [238]); (41, [239])] (journal_init 0 8 16 j).2).2)).1.

Definition recovered (k : nat) : Fake.Disk :=
  let st := cache_store Fake.fake_devs in
  world (store (journal_replay 0 8 16 (boot_jnl {| cache := new_cache; world := crashed k |})).2).

(** The first bytes of the two targets. *)
Definition outcome (w : Fake.Disk) : Z * Z :=
  (byte_at (default [] (Fake.FAKE w !! 40%nat)) 0, byte_at (default [] (Fake.FAKE w !! 41%nat)) 0).

(** A transaction is not atomic.  The two targets of a transaction are written
    before the header says COMMITTED: a power failure after the seventh of its ten
    writes leaves the first target new and the second one old, and the replay at
    the next boot does not repair it.  Every other moment leaves both old or both
    new. *)
Theorem journal_commit_torn_by_crash :
  (outcome ∘ recovered) <$> seq 0 11 =
  replicate 7 (0, 0) ++ [(238, 0)] ++ replicate 3 (238, 239).
Proof. vm_compute. reflexivity. Qed.

(** The RAM disk behind the cache, for the examples. *)
#[local] Instance fake_store : BlockStore (CacheSys Fake.Disk) := cache_store Fake.fake_devs.

Notation fake_ok := (sound_cache Fake.fake_up Fake.fake_sector).
Notation fake_view := (CacheProofs.view Fake.fake_sector).
Notation fake_durable := (cache_durable Fake.fake_sector).

#[local] Instance fake_store_reliable :
  ReliableStore fake_ok fake_view fake_durable CacheProofs.settled :=
  cache_reliable Fake.fake_devs Fake.fake_up Fake.fake_sector.

Definition fresh_jnl (w : Fake.Disk) : Jnl (CacheSys Fake.Disk) :=
  boot_jnl {| cache := new_cache; world := w |}.

Lemma new_cache_slot {W} (w : W) i e :
  CacheProofs.slot {| cache := new_cache; world := w |} i = Some e -> e = empty_entry.
Proof.
  intros Hi. unfold CacheProofs.slot, new_cache in Hi. cbn [cache entries] in Hi.
  by apply lookup_replicate in Hi as [-> _].
Qed.

Lemma fresh_jnl_ok w : Fake.fake_up w -> fake_ok (store (fresh_jnl w)).
Proof.
  intros Hw. split; [by apply (CacheProofs.boot_good Fake.fake_up Fake.fake_sector w)|].
  by intros i e ->%new_cache_slot.
Qed.

Lemma fresh_jnl_reached w : reached CacheProofs.settled (store (fresh_jnl w)).
Proof. by intros d b i e ->%new_cache_slot. Qed.

Lemma fresh_jnl_view w d b : fake_view (store (fresh_jnl w)) d b = Fake.fake_sector d b w.
Proof. apply CacheProofs.view_absent. by intros i e ->%new_cache_slot [?|[? _]]. Qed.

Lemma blank_sector b : 0 <= b < 64 -> Fake.fake_sector 0 b Fake.blank_disk = Some zero_sector.
Proof.
  intros Hb. unfold Fake.fake_sector, Fake.blank_disk. cbn [Nat.eqb andb Fake.FAKE].
  rewrite (proj2 (Z.leb_le 0 b)) by lia. apply lookup_replicate. split; [done|]. lia.
Qed.

Lemma journal_transaction_durable_witness :
  exists j j', journal_init 0 8 16 (fresh_jnl Fake.blank_disk) = (true, j) /\
    transaction [(40, [238]); (41, [239])] j = (true, j') /\
    fake_durable (store j') 0 40 = Some (pad [238]) /\
    fake_durable (store j') 0 41 = Some (pad [239]) /\
    fake_durable (store j') 0 42 = Some zero_sector.
Proof.
  assert (is_u64 8) as H8 by word_lia.
  destruct (init_ok fake_ok fake_view fake_durable CacheProofs.settled 0 8 16 H8
    (fresh_jnl Fake.blank_disk)) as (j & E & R & O).
  { apply fresh_jnl_ok, Fake.blank_disk_up. }
  { apply fresh_jnl_reached. }
  { by rewrite fresh_jnl_view, blank_sector. }
  { done. }
  exists j. cut (exists j', transaction [(40, [238]); (41, [239])] j = (true, j') /\
    fake_durable (store j') 0 40 = Some (pad [238]) /\
    fake_durable (store j') 0 41 = Some (pad [239]) /\ fake_durable (store j') 0 42 = Some zero_sector).
  { intros (j' & H). exists j'. exact (conj E H). }
  clear E. assert (forall b, 0 <= b < 64 -> b <> 8 -> fake_view (store j) 0 b = Some zero_sector) as Hb.
  { intros b Hb Hne. rewrite (O 0%nat b) by (by intros [_ ?]). by rewrite fresh_jnl_view, blank_sector. }
  destruct (journal_transaction_durable fake_ok fake_view fake_durable CacheProofs.settled 0 8 16
    ltac:(done) H8 ltac:(word_lia) [(40, [238]); (41, [239])] fresh_header j 0 (fun _ => zero_sector))
    as (h' & j' & E' & _ & _ & Ht & _ & Ho); [done|done|done| | |lia|repeat constructor; done| |].
  { vm_compute. lia. }
  { intros i Hi. change (capacity 16) with 15%nat in Hi.
    rewrite Hb; [done| |]; unfold slot_of; lia. }
  { intros [|[|i]] Hi; cbn in Hi |- *; try lia; intros _; (split_and!; [word_lia|by rewrite Hb|lia|]);
      intros [|[|k]] Hk; cbn; try lia. }
  exists j'. split; [exact E'|]. clear E'. split_and!.
  - apply (Ht 40 [238]); [by left|done].
  - apply (Ht 41 [239]); [by right; left|done].
  - rewrite (Ho 0%nat 42); [by apply Hb|intros [_ ?]; lia|]. right. right. cbn. set_solver.
Defined.

(** A disk on which a transaction was left in the given state: the header on
    sector 20, the two sectors of the transaction behind it, as the host tests
    plant it. *)
Definition planted_header (state : Z) : JournalHeader :=
  {| magic := JOURNAL_MAGIC; sequence := 7; num_entries := 2; jstate := state; reserved := 0;
     targets := 55 :: 56 :: replicate 121 0 |}.

Definition planted (state : Z) : Fake.Disk :=
  {| Fake.FAKE := <[20%nat := header_sector (planted_header state)]> (<[21%nat := pad [119]]>
       (<[22%nat := pad [136]]> (Fake.FAKE Fake.blank_disk)));
     Fake.FAKE_WRITES := 3 |}.

(** After a replay, block 55 is written with a new first byte 1, and a transaction
    writes block 40. *)
Definition after_replay : bool * bool * Fake.Disk :=
  let '(replayed, j) := journal_replay 0 20 16 (fresh_jnl (planted JNL_STATE_COMMITTED)) in
  let j := with_store j (bc_flush (bc_write 0 55 (pad [1]) (store j)).2).2 in
  let '(done, j) := transaction [(40, [2])] j in (replayed, done, world (store j)).

(** The entries of a replayed transaction are written again by the next one: the
    replay leaves them in the header, and the commit of the transaction on block 40
    puts the old content of block 55 back. *)
Theorem journal_replayed_entries_written_again :
  let '(replayed, done, w) := after_replay in
  replayed = true /\ done = true /\ byte_at (default [] (Fake.FAKE w !! 40%nat)) 0 = 2 /\
  byte_at (default [] (Fake.FAKE w !! 55%nat)) 0 = 119.
Proof. vm_compute. done. Qed.

Lemma planted_wf state : is_u32 state -> header_wf (planted_header state).
Proof.
  intros Hs. split; try done. cbn [targets planted_header].
  apply Forall_cons. split; [done|]. apply Forall_cons. split; [done|]. by apply Forall_replicate.
Qed.

Lemma planted_up state : Fake.fake_up (planted state).
Proof.
  destruct Fake.blank_disk_up as [Hl Hf]. unfold planted. split; cbn [Fake.FAKE].
  - by rewrite !length_insert.
  - repeat apply Forall_insert; [exact Hf|apply length_pad|apply length_pad|apply header_sector_length].
Qed.

Lemma planted_sector state b :
  0 <= b < 64 ->
  fake_view (store (fresh_jnl (planted state))) 0 b =
  Some (if b =? 20 then header_sector (planted_header state) else
        if b =? 21 then pad [119] else if b =? 22 then pad [136] else zero_sector).
Proof.
  intros Hb. rewrite fresh_jnl_view. unfold Fake.fake_sector, planted. cbn [Nat.eqb andb Fake.FAKE].
  rewrite (proj2 (Z.leb_le 0 b)) by lia.
  destruct (Z.eqb_spec b 20) as [->|].
  { apply list_lookup_insert_eq. rewrite !length_insert. apply (proj1 (Nat.ltb_lt _ _)). vm_compute. reflexivity. }
  rewrite list_lookup_insert_ne by lia.
  destruct (Z.eqb_spec b 21) as [->|].
  { apply list_lookup_insert_eq. rewrite !length_insert. apply (proj1 (Nat.ltb_lt _ _)). vm_compute. reflexivity. }
  rewrite list_lookup_insert_ne by lia.
  destruct (Z.eqb_spec b 22) as [->|].
  { apply list_lookup_insert_eq. apply (proj1 (Nat.ltb_lt _ _)). vm_compute. reflexivity. }
  rewrite list_lookup_insert_ne by lia. apply lookup_replicate. split; [done|lia].
Qed.

Lemma planted_target state i :
  (i < 2)%nat -> default 0 (targets (planted_header state) !! i) = 55 + Z.of_nat i.
Proof. destruct i as [|[|i]]; [done|done|lia]. Qed.

Lemma journal_replay_redoes_witness :
  exists j', journal_replay 0 20 16 (fresh_jnl (planted JNL_STATE_COMMITTED)) = (true, j') /\
    fake_durable (store j') 0 55 = Some (pad [119]) /\ fake_durable (store j') 0 56 = Some (pad [136]).
Proof.
  destruct (journal_replay_redoes fake_ok fake_view fake_durable CacheProofs.settled 0 20 16
    ltac:(done) ltac:(word_lia) ltac:(word_lia) (planted_header JNL_STATE_COMMITTED)
    (fresh_jnl (planted JNL_STATE_COMMITTED)) (fun i => match i with O => pad [119] | _ => pad [136] end))
    as (j' & buf & E & Ht & _).
  { apply fresh_jnl_ok, planted_up. }
  { apply fresh_jnl_reached. }
  { by rewrite planted_sector. }
  { by apply planted_wf. }
  { done. }
  { vm_compute. lia. }
  { done. }
  { change (replay_entry_limit _ 16) with 2%nat. intros [|[|i]] Hi; [| |lia]; by rewrite planted_sector. }
  { change (replay_entry_limit _ 16) with 2%nat.
    intros i Hi. rewrite planted_target by done. intros _.
    split_and!; [word_lia|by rewrite planted_sector by lia|lia|].
    intros k Hk. rewrite planted_target by done. lia. }
  exists j'. split; [exact E|]. clear E.
  split; [apply (Ht 0%nat)|apply (Ht 1%nat)]; vm_compute; lia || done.
Defined.

Lemma journal_replay_ignores_uncommitted_witness :
  exists s', journal_replay 0 20 16 (fresh_jnl (planted JNL_STATE_ACTIVE)) =
      (true, with_store (fresh_jnl (planted JNL_STATE_ACTIVE)) s') /\
    fake_view s' 0 55 = Some zero_sector.
Proof.
  destruct (journal_replay_ignores_uncommitted fake_ok fake_view fake_durable CacheProofs.settled 0 20 16
    ltac:(word_lia) (planted_header JNL_STATE_ACTIVE) (fresh_jnl (planted JNL_STATE_ACTIVE)))
    as (s' & E & H).
  { apply fresh_jnl_ok, planted_up. }
  { apply fresh_jnl_reached. }
  { by rewrite planted_sector. }
  { by apply planted_wf. }
  { done. }
  exists s'. split; [exact E|]. clear E. rewrite H. by rewrite planted_sector.
Defined.

Lemma journal_write_contained_witness :
  let j := with_active (set_geometry 0 20 16 (fresh_jnl (planted JNL_STATE_ACTIVE))) true in
  fake_view (store (journal_write 55 [1] j).2) 0 36 = Some zero_sector.
Proof.
  intros j. rewrite (journal_write_contained (CacheProofs.cache_inv Fake.fake_up Fake.fake_sector) fake_view
    fake_durable CacheProofs.settled (StoreLaws0 := cache_laws Fake.fake_devs Fake.fake_up Fake.fake_sector)).
  - exact (planted_sector JNL_STATE_ACTIVE 36 ltac:(lia)).
  - exact (proj1 (fresh_jnl_ok _ (planted_up JNL_STATE_ACTIVE))).
  - apply fresh_jnl_reached.
  - cbn. word_lia.
  - cbn. word_lia.
  - done.
  - intros [_ H]. cbn in H. lia.
Defined.

End TxnProofs.
