(* ===== verification/Text.v ===== *)
(** Text as Rust's standard library sees it: UTF-8 validation, [str::trim],
    [str::parse::<u64>] and the decimal form of an integer.  A [&str] is the list of
    its code points. *)

From S2P Require Import Prelude Bytes.

(** ** UTF-8 *)

Definition in_range (lo hi b : Z) : bool := (lo <=? b) && (b <=? hi).

Definition cont (b : Z) : bool := in_range 0x80 0xBF b.

(** [core::str::from_utf8] *)
Fixpoint from_utf8 (b : bytes) : option (list Z) :=
  match b with
  | [] => Some []
  | b0 :: r0 =>
      if b0 <? 0x80 then cons b0 <$> from_utf8 r0
      else
        match r0 with
        | [] => None
        | b1 :: r1 =>
            if in_range 0xC2 0xDF b0 then
              if cont b1 then cons ((b0 - 0xC0) * 64 + (b1 - 0x80)) <$> from_utf8 r1 else None
            else
              match r1 with
              | [] => None
              | b2 :: r2 =>
                  if in_range 0xE0 0xEF b0 then
                    let lo := if b0 =? 0xE0 then 0xA0 else 0x80 in
                    let hi := if b0 =? 0xED then 0x9F else 0xBF in
                    if in_range lo hi b1 && cont b2 then
                      cons (((b0 - 0xE0) * 64 + (b1 - 0x80)) * 64 + (b2 - 0x80)) <$> from_utf8 r2
                    else None
                  else
                    match r2 with
                    | [] => None
                    | b3 :: r3 =>
                        if in_range 0xF0 0xF4 b0 then
                          let lo := if b0 =? 0xF0 then 0x90 else 0x80 in
                          let hi := if b0 =? 0xF4 then 0x8F else 0xBF in
                          if in_range lo hi b1 && cont b2 && cont b3 then
                            cons ((((b0 - 0xF0) * 64 + (b1 - 0x80)) * 64 + (b2 - 0x80)) * 64 + (b3 - 0x80)) <$> from_utf8 r3
                          else None
                        else None
                    end
              end
        end
  end.

(** ** Trimming *)

(** [char::is_whitespace] *)
Definition is_whitespace (c : Z) : bool :=
  in_range 9 13 c || (c =? 32) || (c =? 0x85) || (c =? 0xA0) || (c =? 0x1680) || in_range 0x2000 0x200A c ||
  (c =? 0x2028) || (c =? 0x2029) || (c =? 0x202F) || (c =? 0x205F) || (c =? 0x3000).

Fixpoint trim_start (s : list Z) : list Z :=
  match s with
  | c :: s' => if is_whitespace c then trim_start s' else s
  | [] => []
  end.

Definition trim (s : list Z) : list Z := rev (trim_start (rev (trim_start s))).

(** ** Decimal numbers *)

Definition digit (c : Z) : option Z := if in_range 48 57 c then Some (c - 48) else None.

Fixpoint parse_digits (acc : Z) (s : list Z) : option Z :=
  match s with
  | [] => Some acc
  | c :: s =>
      match digit c with
      | None => None
      | Some d => if acc * 10 + d <? U64 then parse_digits (acc * 10 + d) s else None
      end
  end.

(** [str::parse::<u64>]: digits, after at most one plus sign. *)
Definition parse_u64 (s : list Z) : option Z :=
  match s with
  | [] => None
  | c :: s' =>
      if c =? 43 then match s' with [] => None | _ => parse_digits 0 s' end
      else parse_digits 0 s
  end.

(** [format!("{v}")]; twenty digits are enough for 64 bits. *)
Fixpoint decimal_loop (fuel : nat) (v : Z) (acc : list Z) : list Z :=
  match fuel with
  | O => acc
  | S fuel =>
      let acc := (48 + v mod 10) :: acc in
      if v <? 10 then acc else decimal_loop fuel (v / 10) acc
  end.

Definition decimal (v : Z) : list Z := decimal_loop 20 v [].

(** ** Facts *)

Lemma from_utf8_ascii s : Forall (fun c => 0 <= c < 128) s -> from_utf8 s = Some s.
Proof.
  induction 1 as [|c s Hc _ IH]; [done|]. cbn [from_utf8].
  rewrite (proj2 (Z.ltb_lt c 0x80)), IH by lia. done.
Qed.

Lemma decimal_loop_digits fuel : forall v acc,
  Forall (fun c => 48 <= c <= 57) acc -> 0 <= v -> Forall (fun c => 48 <= c <= 57) (decimal_loop fuel v acc).
Proof.
  induction fuel as [|fuel IH]; intros v acc Ha Hv; [done|]. cbn [decimal_loop].
  pose proof (Z.mod_pos_bound v 10 ltac:(lia)). assert (Forall (fun c => 48 <= c <= 57) ((48 + v mod 10) :: acc)) by (constructor; [lia|done]).
  destruct (v <? 10); [done|]. apply IH; [done|]. apply Z.div_pos; lia.
Qed.

Lemma decimal_digits v : 0 <= v -> Forall (fun c => 48 <= c <= 57) (decimal v).
Proof. intros. by apply decimal_loop_digits. Qed.

Lemma decimal_loop_nonempty fuel v acc : (0 < fuel)%nat -> decimal_loop fuel v acc <> [].
Proof.
  intros Hf. destruct fuel as [|fuel]; [lia|]. cbn [decimal_loop]. clear Hf.
  set (x := 48 + v mod 10). clearbody x. revert v acc x. induction fuel as [|fuel IH]; intros v acc x; cbn [decimal_loop].
  - by destruct (v <? 10).
  - destruct (v <? 10); [done|]. apply IH.
Qed.

Lemma digit_ascii c : 48 <= c <= 57 -> digit c = Some (c - 48).
Proof. intros. unfold digit, in_range. by rewrite !(proj2 (Z.leb_le _ _)) by lia. Qed.

(** What is printed is read back. *)
Lemma parse_decimal_loop fuel : forall v acc,
  0 <= v < U64 -> v < 10 ^ Z.of_nat fuel ->
  parse_digits 0 (decimal_loop fuel v acc) = parse_digits v acc.
Proof.
  induction fuel as [|fuel IH]; intros v acc Hv Hf; cbn [decimal_loop].
  { assert (v = 0) as -> by (cbn in Hf; lia). done. }
  assert (0 <= v mod 10 < 10) as Hm by (apply Z.mod_pos_bound; lia).
  destruct (Z.ltb_spec v 10) as [Hs|Hl].
  - cbn [parse_digits]. rewrite digit_ascii by lia. rewrite Z.mod_small by lia.
    replace (0 * 10 + (48 + v - 48)) with v by lia. by rewrite (proj2 (Z.ltb_lt _ _)) by lia.
  - rewrite IH; [|split; [apply Z.div_pos; lia|apply Z.div_lt_upper_bound; lia]|].
    + cbn [parse_digits]. rewrite digit_ascii by lia.
      replace (v / 10 * 10 + (48 + v mod 10 - 48)) with v by (Z.div_mod_to_equations; lia).
      by rewrite (proj2 (Z.ltb_lt _ _)) by lia.
    + apply Z.div_lt_upper_bound; [lia|]. rewrite Nat2Z.inj_succ, Z.pow_succ_r in Hf by lia. lia.
Qed.

Lemma parse_decimal v : is_u64 v -> parse_u64 (decimal v) = Some v.
Proof.
  intros Hv. pose proof (decimal_digits v ltac:(unfold is_u64 in Hv; lia)) as Hd.
  pose proof (decimal_loop_nonempty 20 v [] ltac:(lia)) as Hn. fold (decimal v) in Hn.
  unfold parse_u64. destruct (decimal v) as [|c s] eqn:E; [done|]. apply Forall_cons in Hd as [Hc _].
  rewrite (proj2 (Z.eqb_neq c 43)) by lia. rewrite <-E. unfold decimal.
  rewrite parse_decimal_loop; [done|exact Hv|]. unfold is_u64, U64 in Hv. lia.
Qed.

Lemma trim_start_digits s : Forall (fun c => 48 <= c <= 57) s -> trim_start s = s.
Proof.
  destruct 1 as [|c s Hc Hs]; [done|]. cbn [trim_start].
  assert (is_whitespace c = false) as ->; [|done]. unfold is_whitespace, in_range.
  rewrite !orb_false_iff, !andb_false_iff, !Z.leb_gt, !Z.eqb_neq. lia.
Qed.

(** A newline after a number is trimmed. *)
Lemma trim_line s : Forall (fun c => 48 <= c <= 57) s -> s <> [] -> trim (s ++ [10]) = s.
Proof.
  intros Hs Hn. unfold trim. assert (trim_start (s ++ [10]) = s ++ [10]) as ->.
  { destruct s as [|c s]; [done|]. apply Forall_cons in Hs as [Hc _]. cbn [trim_start app].
    assert (is_whitespace c = false) as ->; [|done]. unfold is_whitespace, in_range.
    rewrite !orb_false_iff, !andb_false_iff, !Z.leb_gt, !Z.eqb_neq. lia. }
  rewrite rev_unit. cbn [trim_start]. change (is_whitespace 10) with true. cbn iota.
  rewrite trim_start_digits, rev_involutive; [done|]. rewrite Forall_forall in *. intros c Hc. apply Hs.
  rewrite list_elem_of_In in *. by apply in_rev.
Qed.
