(* ===== verification/Vfs.v ===== *)
(** The types that file systems share: [crates/zenus-fs/src/vfs.rs]. *)

From S2P Require Import Prelude Bytes.

Inductive FileType := NoneType | File | Directory | BlockDevice | CharDevice | Symlink.

#[global] Instance FileType_eq_dec : EqDecision FileType.
Proof. solve_decision. Defined.

Record FileStat := {
  st_size : Z;
  st_type : FileType;
  st_inode : Z;
  st_blocks : Z;
  st_uid : Z;
  st_gid : Z;
  st_mode : Z;
}.

Record DirEntry := { de_name : string; de_type : FileType; de_inode : Z }.
