(* ===== verification/Cgroup.v ===== *)
(** Control groups: [crates/zenus-fs/src/cgroup.rs].

    The controller table ([CgroupTable]), the calls the scheduler and the system
    calls make on it, and the file system that shows it.  Names are byte strings;
    the text of a write is a list of code points, since [trim] works on characters.
    The kernel is built without overflow checks, so the sum of the charges of a
    group wraps around.  CgroupProofs.v has the theorems. *)

From S2P Require Import Prelude Bytes Text Vfs.

(** ** Inode numbers *)

Definition CGROUP_ROOT_INODE : Z := 0.
Definition CGROUP_DEFAULTS_INODE : Z := 1.
Definition CGROUP_PROCS_INODE : Z := 2.
Definition CGROUP_TASKS_INODE : Z := 3.
Definition CGROUP_CONTROLLERS_INODE : Z := 4.
Definition CGROUP_SUBTREE_CONTROL_INODE : Z := 5.
Definition CGROUP_CPU_PRESSURE_INODE : Z := 6.
Definition CGROUP_IO_PRESSURE_INODE : Z := 7.
Definition CGROUP_MEMORY_PRESSURE_INODE : Z := 8.
Definition CGROUP_PIDS_MAX_INODE : Z := 9.
Definition CGROUP_PIDS_CURRENT_INODE : Z := 10.
Definition CGROUP_MEMORY_MAX_INODE : Z := 11.
Definition CGROUP_MEMORY_CURRENT_INODE : Z := 12.
Definition CGROUP_CPU_MAX_INODE : Z := 13.
Definition CGROUP_IO_MAX_INODE : Z := 14.

Definition DIR_BASE : Z := 0x1000.
Definition DIR_STRIDE : Z := 0x40.

Definition F_PROCS : Z := 1.
Definition F_CONTROLLERS : Z := 2.
Definition F_SUBTREE : Z := 3.
Definition F_PIDS_MAX : Z := 4.
Definition F_PIDS_CURRENT : Z := 5.
Definition F_MEM_MAX : Z := 6.
Definition F_MEM_CURRENT : Z := 7.
Definition F_CPU_MAX : Z := 8.
Definition F_IO_MAX : Z := 9.
Definition PER_CGROUP_FILES : Z := 9.

Definition CGROUP_ROOT : Z := 0.
Definition CGROUP_UNLIMITED : Z := U64_MAX.
Definition MAX_CGROUPS : nat := 32.
Definition MAX_NAME_LEN : nat := 64.

Definition dir_inode (id : Z) : Z := u64_add DIR_BASE ((id * DIR_STRIDE) mod U64).

Definition file_inode (id idx : Z) : Z := u64_add (dir_inode id) idx.

Definition decode_inode (inode : Z) : option (Z * Z) :=
  if inode <? DIR_BASE then None
  else
    let idx := inode mod DIR_STRIDE in
    if negb ((F_PROCS <=? idx) && (idx <=? PER_CGROUP_FILES)) then None
    else Some ((inode - DIR_BASE) / DIR_STRIDE, idx).

Definition decode_dir_inode (inode : Z) : option Z :=
  if (inode <? DIR_BASE) || negb (inode mod DIR_STRIDE =? 0) then None
  else Some ((inode - DIR_BASE) / DIR_STRIDE).

Definition root_spec (inode : Z) : option (Z * Z) :=
  if (inode =? CGROUP_PROCS_INODE) || (inode =? CGROUP_TASKS_INODE) then Some (CGROUP_ROOT, F_PROCS)
  else if inode =? CGROUP_CONTROLLERS_INODE then Some (CGROUP_ROOT, F_CONTROLLERS)
  else if inode =? CGROUP_SUBTREE_CONTROL_INODE then Some (CGROUP_ROOT, F_SUBTREE)
  else if inode =? CGROUP_PIDS_MAX_INODE then Some (CGROUP_ROOT, F_PIDS_MAX)
  else if inode =? CGROUP_PIDS_CURRENT_INODE then Some (CGROUP_ROOT, F_PIDS_CURRENT)
  else if inode =? CGROUP_MEMORY_MAX_INODE then Some (CGROUP_ROOT, F_MEM_MAX)
  else if inode =? CGROUP_MEMORY_CURRENT_INODE then Some (CGROUP_ROOT, F_MEM_CURRENT)
  else if inode =? CGROUP_CPU_MAX_INODE then Some (CGROUP_ROOT, F_CPU_MAX)
  else if inode =? CGROUP_IO_MAX_INODE then Some (CGROUP_ROOT, F_IO_MAX)
  else None.

Definition CGROUP_FILES : list (string * Z * FileType) :=
  [("cgroup.procs", F_PROCS, File);
   ("cgroup.controllers", F_CONTROLLERS, File);
   ("cgroup.subtree_control", F_SUBTREE, File);
   ("pids.max", F_PIDS_MAX, File);
   ("pids.current", F_PIDS_CURRENT, File);
   ("memory.max", F_MEM_MAX, File);
   ("memory.current", F_MEM_CURRENT, File);
   ("cpu.max", F_CPU_MAX, File);
   ("io.max", F_IO_MAX, File)]%string.

Definition ROOT_FILES : list (string * Z * FileType) :=
  [("cgroup.procs", CGROUP_PROCS_INODE, File);
   ("cgroup.tasks", CGROUP_TASKS_INODE, File);
   ("cgroup.controllers", CGROUP_CONTROLLERS_INODE, File);
   ("cgroup.defaults", CGROUP_DEFAULTS_INODE, File);
   ("cgroup.subtree_control", CGROUP_SUBTREE_CONTROL_INODE, File);
   ("cpu.pressure", CGROUP_CPU_PRESSURE_INODE, File);
   ("io.pressure", CGROUP_IO_PRESSURE_INODE, File);
   ("memory.pressure", CGROUP_MEMORY_PRESSURE_INODE, File);
   ("pids.max", CGROUP_PIDS_MAX_INODE, File);
   ("pids.current", CGROUP_PIDS_CURRENT_INODE, File);
   ("memory.max", CGROUP_MEMORY_MAX_INODE, File);
   ("memory.current", CGROUP_MEMORY_CURRENT_INODE, File);
   ("cpu.max", CGROUP_CPU_MAX_INODE, File);
   ("io.max", CGROUP_IO_MAX_INODE, File)]%string.

(** ** The controller table *)

Record Member := { task : Z; charged : Z }.

Record Cgroup := {
  g_id : Z;
  g_name : string;
  g_memory_max : Z;
  g_pids_max : Z;
  g_cpu_max : Z;
  g_io_max : Z;
  g_cpu_used : Z;
  g_io_used : Z;
  g_members : list Member;
}.

Record CgroupTable := {
  groups : list Cgroup;
  root_members : list Member;
  next_id : Z;
}.

Inductive AttachError := NoSuchGroup | PidsLimit.

Definition empty_table : CgroupTable := {| groups := []; root_members := []; next_id := 1 |}.

Definition reset (t : CgroupTable) : CgroupTable := {| groups := []; root_members := []; next_id := 1 |}.

(** [iter().position(p)] *)
Fixpoint position {A} (p : A -> bool) (l : list A) : option nat :=
  match l with
  | [] => None
  | x :: l => if p x then Some 0%nat else S <$> position p l
  end.

(** [Vec::remove(i)], for an index in range. *)
Definition vec_remove {A} (i : nat) (l : list A) : list A := take i l ++ drop (S i) l.

Definition with_groups (gs : list Cgroup) (t : CgroupTable) : CgroupTable :=
  {| groups := gs; root_members := root_members t; next_id := next_id t |}.

Definition with_root (ms : list Member) (t : CgroupTable) : CgroupTable :=
  {| groups := groups t; root_members := ms; next_id := next_id t |}.

Definition with_members (ms : list Member) (g : Cgroup) : Cgroup :=
  {| g_id := g_id g; g_name := g_name g; g_memory_max := g_memory_max g; g_pids_max := g_pids_max g;
     g_cpu_max := g_cpu_max g; g_io_max := g_io_max g; g_cpu_used := g_cpu_used g; g_io_used := g_io_used g;
     g_members := ms |}.

Definition index_of (t : CgroupTable) (id : Z) : option nat :=
  position (fun g => g_id g =? id) (groups t).

Definition exists_group (t : CgroupTable) (id : Z) : bool :=
  (id =? CGROUP_ROOT) || bool_decide (is_Some (index_of t id)).

(** A field of the group [id]. *)
Definition group_field {A} (f : Cgroup -> A) (t : CgroupTable) (id : Z) : option A :=
  index_of t id ≫= fun i => f <$> groups t !! i.

Definition members (t : CgroupTable) (id : Z) : option (list Member) :=
  if id =? CGROUP_ROOT then Some (root_members t) else group_field g_members t id.

(** The update through [members_mut(id)]. *)
Definition set_members (id : Z) (ms : list Member) (t : CgroupTable) : CgroupTable :=
  if id =? CGROUP_ROOT then with_root ms t
  else
    match index_of t id with
    | Some i => with_groups (alter (with_members ms) i (groups t)) t
    | None => t
    end.

Definition new_group (id : Z) (name : string) : Cgroup :=
  {| g_id := id; g_name := name; g_memory_max := CGROUP_UNLIMITED; g_pids_max := CGROUP_UNLIMITED;
     g_cpu_max := CGROUP_UNLIMITED; g_io_max := CGROUP_UNLIMITED; g_cpu_used := 0; g_io_used := 0;
     g_members := [] |}.

Definition create (name : string) (t : CgroupTable) : option Z * CgroupTable :=
  if bool_decide (name = EmptyString) || (MAX_NAME_LEN <? String.length name)%nat || bool_decide (name = "/"%string)
  then (None, t)
  else if existsb (fun g => bool_decide (g_name g = name)) (groups t) then (None, t)
  else if (MAX_CGROUPS <=? length (groups t))%nat then (None, t)
  else
    let id := next_id t in
    (Some id, {| groups := groups t ++ [new_group id name]; root_members := root_members t;
                 next_id := u64_add (next_id t) 1 |}).

Definition remove (id : Z) (t : CgroupTable) : bool * CgroupTable :=
  if id =? CGROUP_ROOT then (false, t)
  else
    match index_of t id with
    | None => (false, t)
    | Some i =>
        match g_members <$> groups t !! i with
        | Some [] => (true, with_groups (vec_remove i (groups t)) t)
        | _ => (false, t)
        end
    end.

Definition lookup_name (t : CgroupTable) (name : string) : option Z :=
  if bool_decide (name = "/"%string) then Some CGROUP_ROOT
  else g_id <$> List.find (fun g => bool_decide (g_name g = name)) (groups t).

Definition name_of (t : CgroupTable) (id : Z) : option string :=
  if id =? CGROUP_ROOT then Some "/"%string else group_field g_name t id.

Definition ids (t : CgroupTable) : list Z := CGROUP_ROOT :: map g_id (groups t).

Definition member_tasks (t : CgroupTable) (id : Z) : list Z := map task (default [] (members t id)).

Definition pids_current (t : CgroupTable) (id : Z) : nat := length (default [] (members t id)).

Definition memory_current (t : CgroupTable) (id : Z) : Z :=
  foldl u64_add 0 (map charged (default [] (members t id))).

Definition pids_max (t : CgroupTable) (id : Z) : option Z :=
  if id =? CGROUP_ROOT then Some CGROUP_UNLIMITED else group_field g_pids_max t id.
Definition memory_max (t : CgroupTable) (id : Z) : option Z :=
  if id =? CGROUP_ROOT then Some CGROUP_UNLIMITED else group_field g_memory_max t id.
Definition cpu_max (t : CgroupTable) (id : Z) : option Z :=
  if id =? CGROUP_ROOT then Some CGROUP_UNLIMITED else group_field g_cpu_max t id.
Definition io_max (t : CgroupTable) (id : Z) : option Z :=
  if id =? CGROUP_ROOT then Some CGROUP_UNLIMITED else group_field g_io_max t id.
Definition cpu_used (t : CgroupTable) (id : Z) : Z :=
  if id =? CGROUP_ROOT then 0 else default 0 (group_field g_cpu_used t id).
Definition io_used (t : CgroupTable) (id : Z) : Z :=
  if id =? CGROUP_ROOT then 0 else default 0 (group_field g_io_used t id).

(** The four setters differ in the field they write. *)
Definition set_field (f : Cgroup -> Cgroup) (id : Z) (t : CgroupTable) : bool * CgroupTable :=
  if id =? CGROUP_ROOT then (false, t)
  else
    match index_of t id with
    | Some i => (true, with_groups (alter f i (groups t)) t)
    | None => (false, t)
    end.

Definition with_limits (mem pids cpu io : Z) (g : Cgroup) : Cgroup :=
  {| g_id := g_id g; g_name := g_name g; g_memory_max := mem; g_pids_max := pids; g_cpu_max := cpu; g_io_max := io;
     g_cpu_used := g_cpu_used g; g_io_used := g_io_used g; g_members := g_members g |}.

Definition with_used (cpu io : Z) (g : Cgroup) : Cgroup :=
  {| g_id := g_id g; g_name := g_name g; g_memory_max := g_memory_max g; g_pids_max := g_pids_max g;
     g_cpu_max := g_cpu_max g; g_io_max := g_io_max g; g_cpu_used := cpu; g_io_used := io; g_members := g_members g |}.

Definition set_pids_max (id max : Z) (t : CgroupTable) : bool * CgroupTable :=
  set_field (fun g => with_limits (g_memory_max g) max (g_cpu_max g) (g_io_max g) g) id t.
Definition set_memory_max (id max : Z) (t : CgroupTable) : bool * CgroupTable :=
  set_field (fun g => with_limits max (g_pids_max g) (g_cpu_max g) (g_io_max g) g) id t.
Definition set_cpu_max (id max : Z) (t : CgroupTable) : bool * CgroupTable :=
  set_field (fun g => with_limits (g_memory_max g) (g_pids_max g) max (g_io_max g) g) id t.
Definition set_io_max (id max : Z) (t : CgroupTable) : bool * CgroupTable :=
  set_field (fun g => with_limits (g_memory_max g) (g_pids_max g) (g_cpu_max g) max g) id t.

Definition has_task (tk : Z) (m : Member) : bool := task m =? tk.

Definition group_of_task (t : CgroupTable) (tk : Z) : option Z :=
  if existsb (has_task tk) (root_members t) then Some CGROUP_ROOT
  else g_id <$> List.find (fun g => existsb (has_task tk) (g_members g)) (groups t).

Definition charge_cpu (tk ticks : Z) (t : CgroupTable) : bool * CgroupTable :=
  match group_of_task t tk with
  | None => (true, t)
  | Some gid =>
      let max := default CGROUP_UNLIMITED (cpu_max t gid) in
      if negb (max =? CGROUP_UNLIMITED) && (max <? saturating_add (cpu_used t gid) ticks) then (false, t)
      else
        match index_of t gid with
        | None => (true, t)
        | Some i =>
            (true, with_groups (alter (fun g => with_used (saturating_add (g_cpu_used g) ticks) (g_io_used g) g) i (groups t)) t)
        end
  end.

Definition charge_io (tk n : Z) (t : CgroupTable) : bool * CgroupTable :=
  match group_of_task t tk with
  | None => (true, t)
  | Some gid =>
      let max := default CGROUP_UNLIMITED (io_max t gid) in
      if negb (max =? CGROUP_UNLIMITED) && (max <? saturating_add (io_used t gid) n) then (false, t)
      else
        match index_of t gid with
        | None => (true, t)
        | Some i =>
            (true, with_groups (alter (fun g => with_used (g_cpu_used g) (saturating_add (g_io_used g) n) g) i (groups t)) t)
        end
  end.

(** The loop of [detach] over the groups. *)
Fixpoint detach_groups (tk : Z) (gs : list Cgroup) : Z * list Cgroup :=
  match gs with
  | [] => (0, [])
  | g :: gs =>
      match position (has_task tk) (g_members g) with
      | Some pos =>
          (default 0 (charged <$> g_members g !! pos), with_members (vec_remove pos (g_members g)) g :: gs)
      | None => let '(c, gs) := detach_groups tk gs in (c, g :: gs)
      end
  end.

Definition detach (tk : Z) (t : CgroupTable) : Z * CgroupTable :=
  match position (has_task tk) (root_members t) with
  | Some pos =>
      (default 0 (charged <$> root_members t !! pos), with_root (vec_remove pos (root_members t)) t)
  | None => let '(c, gs) := detach_groups tk (groups t) in (c, with_groups gs t)
  end.

(** [None] is a failed [expect]. *)
Definition attach (id tk : Z) (t : CgroupTable) : option (unit + AttachError) * CgroupTable :=
  if negb (exists_group t id) then (Some (inr NoSuchGroup), t)
  else if bool_decide (group_of_task t tk = Some id) then (Some (inl tt), t)
  else
    let '(carried, t) := detach tk t in
    let current := Z.of_nat (pids_current t id) in
    let max := default CGROUP_UNLIMITED (pids_max t id) in
    if max <=? current then (Some (inr PidsLimit), t)
    else
      match members t id with
      | Some ms => (Some (inl tt), set_members id (ms ++ [{| task := tk; charged := carried |}]) t)
      | None => (None, t)
      end.

(** The charge of the first member with task [tk] of the group. *)
Definition update_charge (f : Z -> Z) (gid tk : Z) (t : CgroupTable) : CgroupTable :=
  match members t gid with
  | Some ms =>
      match position (has_task tk) ms with
      | Some pos => set_members gid (alter (fun m => {| task := task m; charged := f (charged m) |}) pos ms) t
      | None => t
      end
  | None => t
  end.

Definition charge (tk n : Z) (t : CgroupTable) : bool * CgroupTable :=
  match group_of_task t tk with
  | None => (true, t)
  | Some gid =>
      let max := default CGROUP_UNLIMITED (memory_max t gid) in
      if negb (max =? CGROUP_UNLIMITED) && (max <? saturating_add (memory_current t gid) n) then (false, t)
      else (true, update_charge (fun c => saturating_add c n) gid tk t)
  end.

Definition uncharge (tk n : Z) (t : CgroupTable) : CgroupTable :=
  match group_of_task t tk with
  | None => t
  | Some gid => update_charge (fun c => saturating_sub c n) gid tk t
  end.

(** ** The calls of the scheduler and the system calls *)

(** The table behind its spin lock.  A call returns its result and the next state;
    [None] is a call that does not return, because it waits for a lock its own CPU
    holds, or panics. *)
Record Locked := { held : bool; table : CgroupTable }.

Definition L (A : Type) : Type := Locked -> option (A * Locked).

#[global] Instance L_ret : MRet L := fun A a s => Some (a, s).
#[global] Instance L_bind : MBind L := fun A B k c s =>
  match c s with
  | Some (a, s) => k a s
  | None => None
  end.

Definition lock : L unit := fun s => if held s then None else Some (tt, {| held := true; table := table s |}).
Definition unlock : L unit := fun s => Some (tt, {| held := false; table := table s |}).
Definition on_table {A} (f : CgroupTable -> A * CgroupTable) : L A := fun s =>
  let '(a, t) := f (table s) in Some (a, {| held := held s; table := t |}).
Definition unwrap {A} (r : option A) : L A := fun s => (fun a => (a, s)) <$> r.

(** [CGROUP_TABLE.lock().f(...)] *)
Definition locked {A} (f : CgroupTable -> A * CgroupTable) : L A :=
  lock ≫= fun _ => on_table f ≫= fun a => unlock ≫= fun _ => mret a.

Definition attach_task (group tk : Z) : L bool :=
  locked (attach group tk) ≫= fun r => unwrap r ≫= fun r =>
  mret (match r with inl _ => true | inr _ => false end).

Definition detach_task (tk : Z) : L unit := locked (detach tk) ≫= fun _ => mret tt.

Definition current_group_of_task (tk : Z) : L Z :=
  locked (fun t => (group_of_task t tk, t)) ≫= fun g => mret (default CGROUP_ROOT g).

Definition charge_memory (tk n : Z) : L bool := locked (charge tk n).
Definition uncharge_memory (tk n : Z) : L unit := locked (fun t => (tt, uncharge tk n t)).

(** The receiver [CGROUP_TABLE.lock()] is evaluated before the argument
    [group_of_task(task)], and its guard lives until the end of the statement. *)
Definition cpu_max_for_task (tk : Z) : L Z :=
  lock ≫= fun _ => current_group_of_task tk ≫= fun gid =>
  on_table (fun t => (cpu_max t gid, t)) ≫= fun m => unlock ≫= fun _ => mret (default CGROUP_UNLIMITED m).

Definition io_max_for_task (tk : Z) : L Z :=
  lock ≫= fun _ => current_group_of_task tk ≫= fun gid =>
  on_table (fun t => (io_max t gid, t)) ≫= fun m => unlock ≫= fun _ => mret (default CGROUP_UNLIMITED m).

Definition charge_cpu_for_task (tk ticks : Z) : L bool := locked (charge_cpu tk ticks).
Definition charge_io_for_task (tk n : Z) : L bool := locked (charge_io tk n).

(** ** The file system *)

Definition ascii_text (s : string) : list Z := map (fun c => Z.of_nat (Ascii.nat_of_ascii c)) (String.list_ascii_of_string s).

Definition NEWLINE : Z := 10.

Definition render_limit (v : Z) : list Z :=
  if v =? CGROUP_UNLIMITED then ascii_text "max" ++ [NEWLINE] else decimal v ++ [NEWLINE].

Definition parse_limit (s : list Z) : option Z :=
  let s := trim s in
  if bool_decide (s = ascii_text "max") then Some CGROUP_UNLIMITED else parse_u64 s.

(** The bytes copied to a buffer of [n] bytes. *)
Definition read_into (content : list Z) (offset n : Z) : list Z :=
  let start := Z.to_nat offset in
  if (length content <=? start)%nat then []
  else take (Nat.min (Z.to_nat n) (length content - start)) (drop start content).

Definition spec_content (t : CgroupTable) (cg idx : Z) : option (list Z) :=
  if idx =? F_PROCS then Some (concat (map (fun tk => decimal tk ++ [NEWLINE]) (member_tasks t cg)))
  else if idx =? F_CONTROLLERS then Some (ascii_text "cpu io memory pids" ++ [NEWLINE])
  else if idx =? F_SUBTREE then Some []
  else if idx =? F_PIDS_MAX then Some (render_limit (default CGROUP_UNLIMITED (pids_max t cg)))
  else if idx =? F_PIDS_CURRENT then Some (decimal (Z.of_nat (pids_current t cg)) ++ [NEWLINE])
  else if idx =? F_MEM_MAX then Some (render_limit (default CGROUP_UNLIMITED (memory_max t cg)))
  else if idx =? F_MEM_CURRENT then Some (decimal (memory_current t cg) ++ [NEWLINE])
  else if idx =? F_CPU_MAX then Some (render_limit (default CGROUP_UNLIMITED (cpu_max t cg)))
  else if idx =? F_IO_MAX then Some (render_limit (default CGROUP_UNLIMITED (io_max t cg)))
  else None.

Definition read_spec (t : CgroupTable) (cg idx offset n : Z) : list Z :=
  if negb (exists_group t cg) then []
  else
    match spec_content t cg idx with
    | Some content => read_into content offset n
    | None => []
    end.

(** The number of bytes written, on success. *)
Definition then_some (ok : bool * CgroupTable) (buf : list Z) : option Z * CgroupTable :=
  (if ok.1 then Some (Z.of_nat (length buf)) else None, ok.2).

Definition write_limit (set : Z -> Z -> CgroupTable -> bool * CgroupTable) (cg : Z) (text buf : list Z) (t : CgroupTable)
    : option Z * CgroupTable :=
  match parse_limit text with
  | Some max => then_some (set cg max t) buf
  | None => (None, t)
  end.

Definition write_procs (cg : Z) (text buf : list Z) (t : CgroupTable) : option Z * CgroupTable :=
  match parse_u64 (trim text) with
  | Some tk =>
      match attach cg tk t with
      | (Some (inl _), t) => (Some (Z.of_nat (length buf)), t)
      | (_, t) => (None, t)
      end
  | None => (None, t)
  end.

Definition write_spec (cg idx : Z) (buf : list Z) (t : CgroupTable) : option Z * CgroupTable :=
  match from_utf8 buf with
  | None => (None, t)
  | Some text =>
      if idx =? F_PROCS then write_procs cg text buf t
      else if idx =? F_PIDS_MAX then write_limit set_pids_max cg text buf t
      else if idx =? F_MEM_MAX then write_limit set_memory_max cg text buf t
      else if idx =? F_CPU_MAX then write_limit set_cpu_max cg text buf t
      else if idx =? F_IO_MAX then write_limit set_io_max cg text buf t
      else (None, t)
  end.

Definition fs_read (t : CgroupTable) (inode offset n : Z) : list Z :=
  if (inode =? CGROUP_DEFAULTS_INODE) || (inode =? CGROUP_CPU_PRESSURE_INODE) ||
     (inode =? CGROUP_IO_PRESSURE_INODE) || (inode =? CGROUP_MEMORY_PRESSURE_INODE) then []
  else
    match root_spec inode with
    | Some (cg, idx) => read_spec t cg idx offset n
    | None =>
        match decode_inode inode with
        | Some (cg, idx) => read_spec t cg idx offset n
        | None => []
        end
    end.

Definition fs_write (inode : Z) (buf : list Z) (t : CgroupTable) : option Z * CgroupTable :=
  match root_spec inode with
  | Some (cg, idx) => write_spec cg idx buf t
  | None =>
      match decode_inode inode with
      | Some (cg, idx) => write_spec cg idx buf t
      | None => (None, t)
      end
  end.

Definition file_entry (ino : Z -> Z) (x : string * Z * FileType) : DirEntry :=
  {| de_name := x.1.1; de_type := x.2; de_inode := ino x.1.2 |}.

Definition group_entry (t : CgroupTable) (id : Z) : DirEntry :=
  {| de_name := default EmptyString (name_of t id); de_type := Directory; de_inode := dir_inode id |}.

Definition fs_read_dir (t : CgroupTable) (inode : Z) : list DirEntry :=
  if inode =? CGROUP_ROOT_INODE then
    map (file_entry (fun i => i)) ROOT_FILES ++
    map (group_entry t) (List.filter (fun id => negb (id =? CGROUP_ROOT)) (ids t))
  else
    match decode_dir_inode inode with
    | Some cg => if exists_group t cg then map (file_entry (file_inode cg)) CGROUP_FILES else []
    | None => []
    end.

Definition dir_stat (inode : Z) : FileStat :=
  {| st_size := 0; st_type := Directory; st_inode := inode; st_blocks := 0; st_uid := 0; st_gid := 0; st_mode := 0x1ED |}.

Definition fs_stat (t : CgroupTable) (inode : Z) : FileStat :=
  let file := {| st_size := 0; st_type := File; st_inode := inode; st_blocks := 0; st_uid := 0; st_gid := 0; st_mode := 0x1A4 |} in
  if inode =? CGROUP_ROOT_INODE then dir_stat 0
  else
    match decode_dir_inode inode with
    | Some cg => if exists_group t cg then dir_stat inode else file
    | None => file
    end.

Definition fs_create (parent_inode : Z) (name : string) (ft : FileType) (t : CgroupTable) : option Z * CgroupTable :=
  if negb (parent_inode =? CGROUP_ROOT_INODE) || negb (bool_decide (ft = Directory)) then (None, t)
  else let '(id, t) := create name t in (dir_inode <$> id, t).

Definition fs_unlink (parent_inode : Z) (name : string) (t : CgroupTable) : bool * CgroupTable :=
  if negb (parent_inode =? CGROUP_ROOT_INODE) then (false, t)
  else
    match lookup_name t name with
    | Some id => if id =? CGROUP_ROOT then (false, t) else remove id t
    | None => (false, t)
    end.

Definition fs_lookup (t : CgroupTable) (parent_inode : Z) (name : string) : option Z :=
  if parent_inode =? CGROUP_ROOT_INODE then
    match List.find (fun x => bool_decide (x.1.1 = name)) ROOT_FILES with
    | Some x => Some x.1.2
    | None =>
        match lookup_name t name with
        | Some id => if id =? CGROUP_ROOT then None else Some (dir_inode id)
        | None => None
        end
    end
  else
    match decode_dir_inode parent_inode with
    | Some cg =>
        if negb (exists_group t cg) then None
        else (fun x => file_inode cg x.1.2) <$> List.find (fun x => bool_decide (x.1.1 = name)) CGROUP_FILES
    | None => None
    end.
