(* ===== verification/CgroupProofs.v ===== *)
(** Theorems about the control groups of Cgroup.v.

    The table implements a map from tasks to groups and charges beside a map from
    groups to limits ([Spec]); every operation of a well-formed table does what the
    operation on these maps does. *)

From S2P Require Import Prelude Bytes Text Vfs Cgroup.

(** ** The specification *)

Record Info := {
  i_name : string;
  i_mem : Z;
  i_pids : Z;
  i_cpu : Z;
  i_io : Z;
  i_cpu_used : Z;
  i_io_used : Z;
}.

(** [s_tasks] gives the group and the charge of a task. *)
Record Spec := {
  s_groups : gmap Z Info;
  s_tasks : gmap Z (Z * Z);
  s_next : Z;
}.

Module CgroupSpec.

Definition exists_s (s : Spec) (id : Z) : bool := (id =? CGROUP_ROOT) || bool_decide (is_Some (s_groups s !! id)).

Definition limit (f : Info -> Z) (s : Spec) (id : Z) : Z :=
  if id =? CGROUP_ROOT then CGROUP_UNLIMITED else default CGROUP_UNLIMITED (f <$> s_groups s !! id).

Definition tasks_in (id : Z) (ts : gmap Z (Z * Z)) : list (Z * (Z * Z)) :=
  filter (fun x => x.2.1 = id) (map_to_list ts).

Definition usage (id : Z) (ts : gmap Z (Z * Z)) : Z :=
  foldr Z.add 0 (map (fun x => x.2.2) (tasks_in id ts)) mod U64.

Definition with_tasks (ts : gmap Z (Z * Z)) (s : Spec) : Spec :=
  {| s_groups := s_groups s; s_tasks := ts; s_next := s_next s |}.

Definition with_infos (gs : gmap Z Info) (s : Spec) : Spec :=
  {| s_groups := gs; s_tasks := s_tasks s; s_next := s_next s |}.

Definition new_info (name : string) : Info :=
  {| i_name := name; i_mem := CGROUP_UNLIMITED; i_pids := CGROUP_UNLIMITED; i_cpu := CGROUP_UNLIMITED;
     i_io := CGROUP_UNLIMITED; i_cpu_used := 0; i_io_used := 0 |}.

Definition good_name (name : string) : bool :=
  negb (bool_decide (name = EmptyString)) && (String.length name <=? MAX_NAME_LEN)%nat && negb (bool_decide (name = "/"%string)).

Definition create (name : string) (s : Spec) : option Z * Spec :=
  if good_name name && negb (existsb (fun x => bool_decide (i_name x.2 = name)) (map_to_list (s_groups s))) &&
     (size (s_groups s) <? MAX_CGROUPS)%nat
  then (Some (s_next s), {| s_groups := <[s_next s := new_info name]> (s_groups s); s_tasks := s_tasks s; s_next := s_next s + 1 |})
  else (None, s).

(** Only an existing group without tasks can be removed, never the root. *)
Definition remove (id : Z) (s : Spec) : bool * Spec :=
  if bool_decide (is_Some (s_groups s !! id)) && bool_decide (tasks_in id (s_tasks s) = [])
  then (true, with_infos (delete id (s_groups s)) s) else (false, s).

Definition detach (tk : Z) (s : Spec) : Z * Spec :=
  (default 0 (snd <$> s_tasks s !! tk), with_tasks (delete tk (s_tasks s)) s).

Definition attach (id tk : Z) (s : Spec) : option (unit + AttachError) * Spec :=
  if negb (exists_s s id) then (Some (inr NoSuchGroup), s)
  else if bool_decide (fst <$> s_tasks s !! tk = Some id) then (Some (inl tt), s)
  else
    let ts := delete tk (s_tasks s) in
    if limit i_pids s id <=? Z.of_nat (length (tasks_in id ts)) then (Some (inr PidsLimit), with_tasks ts s)
    else (Some (inl tt), with_tasks (<[tk := (id, default 0 (snd <$> s_tasks s !! tk))]> ts) s).

Definition charge (tk n : Z) (s : Spec) : bool * Spec :=
  match s_tasks s !! tk with
  | None => (true, s)
  | Some (id, c) =>
      let max := limit i_mem s id in
      if negb (max =? CGROUP_UNLIMITED) && (max <? saturating_add (usage id (s_tasks s)) n) then (false, s)
      else (true, with_tasks (<[tk := (id, saturating_add c n)]> (s_tasks s)) s)
  end.

Definition uncharge (tk n : Z) (s : Spec) : Spec :=
  match s_tasks s !! tk with
  | None => s
  | Some (id, c) => with_tasks (<[tk := (id, saturating_sub c n)]> (s_tasks s)) s
  end.

Definition set_info (f : Info -> Info) (id : Z) (s : Spec) : bool * Spec :=
  match s_groups s !! id with
  | Some i => (true, with_infos (<[id := f i]> (s_groups s)) s)
  | None => (false, s)
  end.

(** The cumulative controllers, with the limit, the use and its update. *)
Definition charge_used (max used : Info -> Z) (upd : Z -> Info -> Info) (tk n : Z) (s : Spec) : bool * Spec :=
  match s_tasks s !! tk with
  | None => (true, s)
  | Some (id, _) =>
      match s_groups s !! id with
      | None => (true, s)
      | Some i =>
          if negb (max i =? CGROUP_UNLIMITED) && (max i <? saturating_add (used i) n) then (false, s)
          else (true, with_infos (<[id := upd (saturating_add (used i) n) i]> (s_groups s)) s)
      end
  end.

End CgroupSpec.

(** ** The abstraction *)

Definition info (g : Cgroup) : Info :=
  {| i_name := g_name g; i_mem := g_memory_max g; i_pids := g_pids_max g; i_cpu := g_cpu_max g; i_io := g_io_max g;
     i_cpu_used := g_cpu_used g; i_io_used := g_io_used g |}.

Definition infos (gs : list Cgroup) : list (Z * Info) := map (fun g => (g_id g, info g)) gs.

Definition entries_of (id : Z) (ms : list Member) : list (Z * (Z * Z)) := map (fun m => (task m, (id, charged m))) ms.

Definition group_entries (gs : list Cgroup) : list (Z * (Z * Z)) := flat_map (fun g => entries_of (g_id g) (g_members g)) gs.

Definition entries (t : CgroupTable) : list (Z * (Z * Z)) :=
  entries_of CGROUP_ROOT (root_members t) ++ group_entries (groups t).

Definition abs (t : CgroupTable) : Spec :=
  {| s_groups := list_to_map (infos (groups t)); s_tasks := list_to_map (entries t); s_next := next_id t |}.

(** A well-formed table: group numbers and names are distinct and legal, at most 32
    groups, no task twice, all numbers in 64 bits.  [gl] lists the groups, [es] the
    tasks. *)
Record wf_data (gl : list (Z * Info)) (es : list (Z * (Z * Z))) (next : Z) : Prop := {
  wf_ids : NoDup (map fst gl);
  wf_id_range : Forall (fun x => 0 < x.1 < next) gl;
  wf_next : 0 < next < U64;
  wf_names : NoDup (map (fun x => i_name x.2) gl);
  wf_good_names : Forall (fun x => CgroupSpec.good_name (i_name x.2) = true) gl;
  wf_count : (length gl <= MAX_CGROUPS)%nat;
  wf_tasks : NoDup (map fst es);
  wf_charges : Forall (fun x => is_u64 x.2.2) es;
  wf_limits : Forall (fun x => is_u64 (i_mem x.2) /\ is_u64 (i_pids x.2) /\ is_u64 (i_cpu x.2) /\
    is_u64 (i_io x.2) /\ is_u64 (i_cpu_used x.2) /\ is_u64 (i_io_used x.2)) gl;
}.

Definition wf (t : CgroupTable) : Prop := wf_data (infos (groups t)) (entries t) (next_id t).

(** ** Lists *)

Lemma position_Some {A} (p : A -> bool) l i :
  position p l = Some i <->
  exists l1 x l2, l = l1 ++ x :: l2 /\ length l1 = i /\ p x = true /\ Forall (fun y => p y = false) l1.
Proof.
  revert i. induction l as [|y l IH]; intros i; cbn [position].
  { split; [done|]. intros (l1 & x & l2 & E & _). by destruct l1. }
  destruct (p y) eqn:Hp.
  - split.
    + intros [= <-]. exists [], y, l. by split_and!.
    + intros (l1 & x & l2 & E & <- & Hx & Hf). destruct l1 as [|z l1]; [done|]. injection E as <- ->.
      apply Forall_cons in Hf as [Hz _]. congruence.
  - split.
    + intros (j & (l1 & x & l2 & -> & <- & Hx & Hf)%IH & ->)%fmap_Some. exists (y :: l1), x, l2. split_and!; [done..|by constructor].
    + intros (l1 & x & l2 & E & <- & Hx & Hf). destruct l1 as [|z l1]; [injection E as -> ->; congruence|].
      injection E as <- ->. apply fmap_Some. exists (length l1). split; [|done]. apply IH.
      apply Forall_cons in Hf as [_ Hf]. by exists l1, x, l2.
Qed.

Lemma position_None {A} (p : A -> bool) l : position p l = None <-> Forall (fun y => p y = false) l.
Proof.
  induction l as [|y l IH]; cbn [position]; [done|]. rewrite Forall_cons. destruct (p y); [by split; [|intros []]|].
  rewrite fmap_None, IH. naive_solver.
Qed.

Lemma vec_remove_middle {A} (l1 l2 : list A) x : vec_remove (length l1) (l1 ++ x :: l2) = l1 ++ l2.
Proof.
  unfold vec_remove. rewrite take_app_length. f_equal.
  rewrite <-(Nat.add_1_r (length l1)), <-drop_drop, drop_app_length. done.
Qed.

Lemma alter_middle {A} (f : A -> A) (l1 l2 : list A) x : alter f (length l1) (l1 ++ x :: l2) = l1 ++ f x :: l2.
Proof. induction l1 as [|y l1 IH]; [done|]. cbn. f_equal. apply IH. Qed.

Lemma find_middle {A} (p : A -> bool) l x :
  List.find p l = Some x <-> exists l1 l2, l = l1 ++ x :: l2 /\ p x = true /\ Forall (fun y => p y = false) l1.
Proof.
  induction l as [|y l IH]; cbn [List.find]; [split; [done|]; intros (l1 & l2 & E & _); by destruct l1|].
  destruct (p y) eqn:Hp; [split|rewrite IH; split].
  - intros [= ->]. by exists [], l.
  - intros (l1 & l2 & E & Hx & Hf). destruct l1 as [|z l1]; [by injection E as -> ->|]. injection E as <- ->.
    apply Forall_cons in Hf as [Hz _]. congruence.
  - intros (l1 & l2 & -> & Hx & Hf). exists (y :: l1), l2. split_and!; [done..|by constructor].
  - intros (l1 & l2 & E & Hx & Hf). destruct l1 as [|z l1]; [injection E as -> ->; congruence|].
    injection E as <- ->. apply Forall_cons in Hf as [_ Hf]. by exists l1, l2.
Qed.

(** ** Finding groups and tasks *)

Section maps.
Context {V : Type}.
Implicit Types (l : list (Z * V)).

Lemma ltm_perm l l' : NoDup (map fst l) -> l ≡ₚ l' -> (list_to_map l : gmap Z V) = list_to_map l'.
Proof. intros. by apply list_to_map_proper. Qed.

Lemma ltm_cons k v l : (list_to_map ((k, v) :: l) : gmap Z V) = <[k := v]> (list_to_map l).
Proof. done. Qed.

Lemma ltm_fresh l k : k ∉ map fst l <-> (list_to_map l : gmap Z V) !! k = None.
Proof. apply not_elem_of_list_to_map. Qed.

Lemma ltm_lookup l k v : NoDup (map fst l) -> (list_to_map l : gmap Z V) !! k = Some v <-> (k, v) ∈ l.
Proof. intros Hd. symmetry. by apply elem_of_list_to_map. Qed.

Lemma ltm_to_list l : NoDup (map fst l) -> map_to_list (list_to_map l : gmap Z V) ≡ₚ l.
Proof. apply map_to_list_to_map. Qed.

Lemma ltm_split l k v r :
  NoDup (map fst l) -> l ≡ₚ (k, v) :: r ->
  NoDup (map fst r) /\ k ∉ map fst r /\
  (list_to_map l : gmap Z V) !! k = Some v /\ delete k (list_to_map l : gmap Z V) = list_to_map r /\
  forall w, <[k := w]> (list_to_map l : gmap Z V) = list_to_map ((k, w) :: r).
Proof.
  intros Hd Hp. pose proof Hd as Hd'. rewrite Hp in Hd'. cbn [map fst] in Hd'. apply NoDup_cons in Hd' as [Hk Hr].
  rewrite (ltm_perm l ((k, v) :: r)) by done. rewrite ltm_cons. pose proof Hk as Hk'. apply ltm_fresh in Hk'.
  split_and!; [done|done|by rewrite lookup_insert_eq| |].
  - by rewrite delete_insert_id.
  - intros w. by rewrite insert_insert_eq.
Qed.

End maps.

Lemma entries_of_group id ms x : x ∈ entries_of id ms -> x.2.1 = id.
Proof. intros (m & -> & _)%list_elem_of_fmap. done. Qed.

Lemma group_entries_group gs x : x ∈ group_entries gs -> exists g, g ∈ gs /\ x.2.1 = g_id g.
Proof.
  intros (g & Hg & Hx)%list_elem_of_In%in_flat_map. exists g. split; [by apply list_elem_of_In|].
  apply list_elem_of_In in Hx. by apply entries_of_group in Hx.
Qed.

Lemma group_entries_app g1 g2 : group_entries (g1 ++ g2) = group_entries g1 ++ group_entries g2.
Proof. apply flat_map_app. Qed.

Lemma wf_group_id t g : wf t -> g ∈ groups t -> 0 < g_id g < next_id t.
Proof.
  intros Hw Hg. pose proof (wf_id_range _ _ _ Hw) as Hr. rewrite Forall_forall in Hr.
  apply (Hr (g_id g, info g)), list_elem_of_fmap. by exists g.
Qed.

Lemma wf_group_ids t : wf t -> NoDup (map g_id (groups t)).
Proof. intros Hw. pose proof (wf_ids _ _ _ Hw) as Hd. unfold infos in Hd. by rewrite map_map in Hd. Qed.

(** The groups before and after a group have other numbers. *)
Lemma other_groups t g1 g g2 h :
  wf t -> groups t = g1 ++ g :: g2 -> h ∈ g1 ++ g2 -> g_id h <> g_id g.
Proof.
  intros Hw E Hh Heq. pose proof (wf_group_ids t Hw) as Hd. rewrite E, map_app in Hd. cbn [map] in Hd.
  rewrite <-Permutation_middle, NoDup_cons, <-map_app in Hd. destruct Hd as [Hn _]. apply Hn. rewrite <-Heq.
  by apply list_elem_of_fmap_2.
Qed.

(** A well-formed table splits at a group of it; writing its member list changes the
    entries of that group only. *)
Lemma split_group t id :
  wf t -> exists_group t id = true ->
  exists E1 ms E2, members t id = Some ms /\ entries t = E1 ++ entries_of id ms ++ E2 /\
    Forall (fun x => x.2.1 <> id) (E1 ++ E2) /\
    forall ms', entries (set_members id ms' t) = E1 ++ entries_of id ms' ++ E2 /\
      infos (groups (set_members id ms' t)) = infos (groups t) /\ next_id (set_members id ms' t) = next_id t.
Proof.
  intros Hw He. unfold members, set_members, entries. destruct (Z.eqb_spec id CGROUP_ROOT) as [->|Hne].
  - exists [], (root_members t), (group_entries (groups t)). split_and!; [done|done| |done].
    cbn [app]. apply Forall_forall. intros x (g & Hg & ->)%group_entries_group.
    pose proof (wf_group_id t g Hw Hg). unfold CGROUP_ROOT. lia.
  - unfold exists_group in He. rewrite (proj2 (Z.eqb_neq _ _) Hne) in He. cbn [orb] in He.
    apply bool_decide_eq_true in He as [i Hi]. unfold group_field. rewrite Hi. cbn [mbind option_bind].
    unfold index_of in Hi. apply position_Some in Hi as (g1 & g & g2 & E & <- & Hid & Hf). bsplit. subst id.
    rewrite E. rewrite list_lookup_middle by done. cbn [fmap option_fmap option_map].
    exists (entries_of CGROUP_ROOT (root_members t) ++ group_entries g1), (g_members g), (group_entries g2).
    split_and!; [done|by rewrite group_entries_app, app_assoc| |].
    + apply Forall_forall. intros x [[Hx%entries_of_group|Hx]%elem_of_app|Hx]%elem_of_app; [congruence|..].
      all: apply group_entries_group in Hx as (h & Hh & ->); apply (other_groups t g1 g g2 h Hw E); set_solver.
    + intros ms'. cbn [with_groups groups root_members next_id]. rewrite alter_middle.
      split_and!; [by rewrite group_entries_app, app_assoc| |done]. unfold infos. by rewrite !map_app.
Qed.

Lemma filter_all {A} (P : A -> Prop) `{!forall x, Decision (P x)} l : Forall P l -> filter P l = l.
Proof. induction 1 as [|x l Hx _ IH]; [done|]. rewrite filter_cons_True by done. by rewrite IH. Qed.

Lemma filter_none {A} (P : A -> Prop) `{!forall x, Decision (P x)} l : Forall (fun x => ~ P x) l -> filter P l = [].
Proof. induction 1 as [|x l Hx _ IH]; [done|]. by rewrite filter_cons_False. Qed.

(** The member list of a group is the tasks the specification has in it. *)
Lemma members_tasks t id ms :
  wf t -> exists_group t id = true -> members t id = Some ms -> CgroupSpec.tasks_in id (s_tasks (abs t)) ≡ₚ entries_of id ms.
Proof.
  intros Hw He Hm. destruct (split_group t id Hw He) as (E1 & ms' & E2 & Hm' & E & Ho & _). simplify_eq.
  unfold CgroupSpec.tasks_in, abs. cbn [s_tasks]. rewrite (ltm_to_list (entries t)) by apply Hw.
  rewrite E, !filter_app. apply Forall_app in Ho as [H1 H2].
  rewrite (filter_none _ E1), (filter_none _ E2), app_nil_r by done. cbn [app]. rewrite filter_all; [done|].
  apply Forall_forall. intros x Hx. by apply entries_of_group in Hx.
Qed.

Lemma existsb_has_task tk ms : existsb (has_task tk) ms = true <-> tk ∈ map task ms.
Proof.
  rewrite existsb_exists. unfold has_task. split.
  - intros (m & Hm & E). bsplit. subst. apply list_elem_of_fmap_2. by apply list_elem_of_In.
  - intros (m & -> & Hm)%list_elem_of_fmap. exists m. split; [by apply list_elem_of_In|apply Z.eqb_refl].
Qed.

Lemma entries_keys id ms : map fst (entries_of id ms) = map task ms.
Proof. unfold entries_of. by rewrite map_map. Qed.

Lemma existsb_false {A} (p : A -> bool) l : existsb p l = false <-> Forall (fun x => p x = false) l.
Proof.
  induction l as [|x l IH]; cbn [existsb]; [done|]. rewrite orb_false_iff, Forall_cons, IH. done.
Qed.

Lemma no_task tk ms : existsb (has_task tk) ms = false <-> tk ∉ map task ms.
Proof. rewrite <-existsb_has_task. by destruct (existsb _ _). Qed.

(** The first member with a task. *)
Lemma first_member tk ms :
  existsb (has_task tk) ms = true ->
  exists m1 m m2, ms = m1 ++ m :: m2 /\ task m = tk /\ position (has_task tk) ms = Some (length m1).
Proof.
  intros He. destruct (position (has_task tk) ms) as [i|] eqn:Hp.
  - pose proof Hp as (m1 & m & m2 & E & <- & Hm & _)%position_Some. exists m1, m, m2. unfold has_task in Hm. bsplit. done.
  - apply position_None, existsb_false in Hp. congruence.
Qed.

Lemma index_of_middle t g1 g g2 : wf t -> groups t = g1 ++ g :: g2 -> index_of t (g_id g) = Some (length g1).
Proof.
  intros Hw E. unfold index_of. apply position_Some. exists g1, g, g2. split_and!; [done|done|apply Z.eqb_refl|].
  apply Forall_forall. intros h Hh. apply Z.eqb_neq. apply (other_groups t g1 g g2 h Hw E). set_solver.
Qed.

(** Where a task is. *)
Lemma locate_task t tk :
  wf t ->
  match group_of_task t tk with
  | Some id => exists_group t id = true /\ exists m1 m m2, members t id = Some (m1 ++ m :: m2) /\ task m = tk /\
      position (has_task tk) (m1 ++ m :: m2) = Some (length m1) /\
      detach tk t = (charged m, set_members id (m1 ++ m2) t)
  | None => tk ∉ map fst (entries t) /\ detach tk t = (0, t)
  end.
Proof.
  intros Hw. unfold group_of_task. destruct (existsb (has_task tk) (root_members t)) eqn:Hr.
  { split; [done|]. destruct (first_member tk _ Hr) as (m1 & m & m2 & E & Hm & Hp). exists m1, m, m2.
    unfold members, set_members, detach. cbn [Z.eqb CGROUP_ROOT]. rewrite Hp, E.
    rewrite list_lookup_middle, vec_remove_middle by done. rewrite <-E. by split_and!. }
  unfold detach. rewrite (proj2 (position_None _ _)) by (by apply existsb_false).
  destruct (List.find _ (groups t)) as [g|] eqn:Hf.
  - apply find_middle in Hf as (g1 & g2 & E & Hg & Hf). cbn [fmap option_fmap option_map].
    pose proof (index_of_middle t g1 g g2 Hw E) as Hi.
    assert (g_id g =? CGROUP_ROOT = false) as Hn.
    { apply Z.eqb_neq. pose proof (wf_group_id t g Hw) as H. rewrite E in H. unfold CGROUP_ROOT. specialize (H ltac:(set_solver)). lia. }
    destruct (first_member tk _ Hg) as (m1 & m & m2 & Em & Hm & Hp).
    split; [unfold exists_group; rewrite Hi; apply orb_true_r|]. exists m1, m, m2.
    unfold members, set_members, group_field. rewrite Hn, Hi. cbn [mbind option_bind].
    rewrite E, list_lookup_middle, alter_middle by done. cbn [fmap option_fmap option_map]. rewrite <-Em.
    split_and!; [done..|].
    assert (detach_groups tk (g1 ++ g :: g2) = (charged m, g1 ++ with_members (m1 ++ m2) g :: g2)) as ->; [|done].
    clear E Hi. induction Hf as [|h g1 Hh _ IH]; cbn [detach_groups app].
    + by rewrite Hp, Em, list_lookup_middle, vec_remove_middle.
    + rewrite (proj2 (position_None _ _)) by (by apply existsb_false). by rewrite IH.
  - assert (Forall (fun g => existsb (has_task tk) (g_members g) = false) (groups t)) as Hg.
    { apply Forall_forall. intros g Hg. apply list_elem_of_In in Hg. exact (List.find_none _ _ Hf g Hg). }
    cbn [fmap option_fmap option_map]. split.
    + unfold entries. rewrite map_app, entries_keys. intros [Hx|Hx]%elem_of_app; [by apply no_task in Hr|].
      apply list_elem_of_fmap in Hx as (x & -> & Hx). apply list_elem_of_In, in_flat_map in Hx as (g & Hgi & Hx).
      rewrite Forall_forall in Hg. specialize (Hg g (proj2 (list_elem_of_In _ _) Hgi)). apply no_task in Hg. apply Hg.
      apply in_map_iff in Hx as (m & <- & Hx). cbn. apply list_elem_of_fmap_2. by apply list_elem_of_In.
    + assert (detach_groups tk (groups t) = (0, groups t)) as ->; [|by destruct t].
      clear Hf. induction Hg as [|h gs Hh _ IH]; cbn [detach_groups]; [done|].
      rewrite (proj2 (position_None _ _)) by (by apply existsb_false). by rewrite IH.
Qed.

(** ** Changing the tasks *)

(** [t'] has the groups of [t] and the tasks [es]. *)
Definition retasked (t t' : CgroupTable) (es : list (Z * (Z * Z))) : Prop :=
  infos (groups t') = infos (groups t) /\ next_id t' = next_id t /\ entries t' ≡ₚ es.

Lemma retasked_wf t t' es :
  wf t -> retasked t t' es -> NoDup (map fst es) -> Forall (fun x => is_u64 x.2.2) es -> wf t'.
Proof.
  intros Hw (Hi & Hn & Hp) Hd Hc. unfold wf. rewrite Hi, Hn. destruct Hw. split; try done.
  - by rewrite Hp.
  - by rewrite Hp.
Qed.

Lemma retasked_abs t t' es :
  retasked t t' es -> NoDup (map fst es) -> abs t' = CgroupSpec.with_tasks (list_to_map es) (abs t).
Proof.
  intros (Hi & Hn & Hp) Hd. unfold abs, CgroupSpec.with_tasks. cbn [s_groups s_next]. rewrite Hi, Hn. f_equal.
  apply ltm_perm; [by rewrite Hp|done].
Qed.

(** The entry of a task, and what happens to it. *)
Lemma task_entry t tk id :
  wf t -> group_of_task t tk = Some id ->
  exists_group t id = true /\
  exists c R, entries t ≡ₚ (tk, (id, c)) :: R /\
    (detach tk t).1 = c /\ retasked t (detach tk t).2 R /\
    forall f, retasked t (update_charge f id tk t) ((tk, (id, f c)) :: R).
Proof.
  intros Hw Hg. pose proof (locate_task t tk Hw) as Hl. rewrite Hg in Hl.
  destruct Hl as (He & m1 & m & m2 & Hm & <- & Hp & Hd). split; [done|].
  destruct (split_group t id Hw He) as (E1 & ms & E2 & Hm' & E & _ & Hset). rewrite Hm in Hm'. injection Hm' as <-.
  assert (forall x, E1 ++ entries_of id (m1 ++ x :: m2) ++ E2 ≡ₚ
    (task x, (id, charged x)) :: E1 ++ entries_of id (m1 ++ m2) ++ E2) as Hperm.
  { intros x. unfold entries_of. rewrite !map_app. cbn [map]. rewrite <-!app_assoc. cbn [app].
    by rewrite (app_assoc E1), <-Permutation_middle, <-app_assoc. }
  exists (charged m), (E1 ++ entries_of id (m1 ++ m2) ++ E2). rewrite Hd, E. cbn [fst snd].
  split; [apply Hperm|]. split; [done|]. split.
  { destruct (Hset (m1 ++ m2)) as (Hes & Hi & Hn). split_and!; [done|done|by rewrite Hes]. }
  intros f. unfold update_charge. rewrite Hm, Hp, alter_middle.
  destruct (Hset (m1 ++ {| task := task m; charged := f (charged m) |} :: m2)) as (Hes & Hi & Hn).
  split_and!; [done|done|]. rewrite Hes. apply (Hperm {| task := task m; charged := f (charged m) |}).
Qed.

Lemma group_of_task_abs t tk : wf t -> group_of_task t tk = fst <$> s_tasks (abs t) !! tk.
Proof.
  intros Hw. destruct (group_of_task t tk) as [id|] eqn:Hg.
  - destruct (task_entry t tk id Hw Hg) as (_ & c & R & Hp & _).
    destruct (ltm_split (entries t) tk (id, c) R (wf_tasks _ _ _ Hw) Hp) as (_ & _ & Hl & _). cbn [abs s_tasks]. by rewrite Hl.
  - pose proof (locate_task t tk Hw) as Hl. rewrite Hg in Hl. destruct Hl as [Hl _]. apply ltm_fresh in Hl.
    cbn [abs s_tasks]. by rewrite Hl.
Qed.

(** What a table and its specification say about one task. *)
Lemma task_cases t tk :
  wf t ->
  (group_of_task t tk = None /\ s_tasks (abs t) !! tk = None /\ detach tk t = (0, t)) \/
  (exists id c R, group_of_task t tk = Some id /\ exists_group t id = true /\ is_u64 c /\
    s_tasks (abs t) !! tk = Some (id, c) /\ delete tk (s_tasks (abs t)) = list_to_map R /\ NoDup (map fst R) /\
    tk ∉ map fst R /\ Forall (fun x => is_u64 x.2.2) R /\
    (forall w, <[tk := w]> (s_tasks (abs t)) = list_to_map ((tk, w) :: R)) /\
    (detach tk t).1 = c /\ retasked t (detach tk t).2 R /\
    forall f, retasked t (update_charge f id tk t) ((tk, (id, f c)) :: R)).
Proof.
  intros Hw. destruct (group_of_task t tk) as [id|] eqn:Hg.
  - right. destruct (task_entry t tk id Hw Hg) as (He & c & R & Hp & Hd & Hr & Hu).
    destruct (ltm_split (entries t) tk (id, c) R (wf_tasks _ _ _ Hw) Hp) as (HdR & Hk & Hl & Hdel & Hins).
    pose proof (wf_charges _ _ _ Hw) as Hc. rewrite Hp in Hc. apply Forall_cons in Hc as [Hcu HcR].
    exists id, c, R. by split_and!.
  - left. pose proof (locate_task t tk Hw) as Hl. rewrite Hg in Hl. destruct Hl as [Hl Hd].
    apply ltm_fresh in Hl. by split_and!.
Qed.

(** ** The groups *)

(** A well-formed table splits at a listed group. *)
Lemma index_of_split t id i :
  wf t -> index_of t id = Some i ->
  exists g1 g g2, groups t = g1 ++ g :: g2 /\ length g1 = i /\ g_id g = id /\
    (forall g', alter (fun _ => g') i (groups t) = g1 ++ g' :: g2) /\
    s_groups (abs t) !! id = Some (info g) /\
    forall x, list_to_map (infos g1 ++ (id, x) :: infos g2) = <[id := x]> (s_groups (abs t)).
Proof.
  intros Hw Hi. unfold index_of in Hi. apply position_Some in Hi as (g1 & g & g2 & E & <- & Hid & Hf). bsplit.
  exists g1, g, g2. split_and!; [done|done|done|by intros g'; rewrite E, alter_middle|..].
  all: assert (infos (groups t) ≡ₚ (id, info g) :: infos g1 ++ infos g2) as Hp by
    (rewrite E; unfold infos; rewrite map_app; cbn [map]; rewrite Hid; by rewrite <-Permutation_middle).
  all: destruct (ltm_split _ _ _ _ (wf_ids _ _ _ Hw) Hp) as (Hd & Hk & Hl & _ & Hins).
  - done.
  - intros x. cbn [abs s_groups]. rewrite Hins. symmetry. apply ltm_perm.
    + cbn [map fst]. by constructor.
    + by rewrite <-Permutation_middle.
Qed.

Lemma index_of_None t id : wf t -> index_of t id = None <-> s_groups (abs t) !! id = None.
Proof.
  intros Hw. unfold index_of. rewrite position_None. cbn [abs s_groups]. rewrite <-ltm_fresh. unfold infos. rewrite map_map. cbn [fst].
  rewrite Forall_forall. split.
  - intros H (g & -> & Hg)%list_elem_of_fmap. specialize (H g Hg). apply Z.eqb_neq in H. done.
  - intros H g Hg. apply Z.eqb_neq. intros <-. apply H. by apply list_elem_of_fmap_2.
Qed.

Lemma group_field_abs {A} (h : Info -> A) t id :
  wf t -> group_field (fun g => h (info g)) t id = h <$> s_groups (abs t) !! id.
Proof.
  intros Hw. unfold group_field. destruct (index_of t id) as [i|] eqn:Hi.
  - destruct (index_of_split t id i Hw Hi) as (g1 & g & g2 & E & <- & _ & _ & Hl & _). rewrite Hl. cbn [mbind option_bind].
    by rewrite E, list_lookup_middle.
  - apply index_of_None in Hi; [|done]. by rewrite Hi.
Qed.

Lemma exists_group_abs t id : wf t -> exists_group t id = CgroupSpec.exists_s (abs t) id.
Proof.
  intros Hw. unfold exists_group, CgroupSpec.exists_s. f_equal. destruct (index_of t id) as [i|] eqn:Hi.
  - destruct (index_of_split t id i Hw Hi) as (g1 & g & g2 & _ & _ & _ & _ & Hl & _). rewrite Hl. by rewrite !bool_decide_eq_true_2.
  - apply index_of_None in Hi; [|done]. rewrite Hi. by rewrite !bool_decide_eq_false_2 by (by intros [? ?]).
Qed.

Lemma limit_abs t id (f : Info -> Z) :
  wf t -> default CGROUP_UNLIMITED (if id =? CGROUP_ROOT then Some CGROUP_UNLIMITED else group_field (fun g => f (info g)) t id) =
    CgroupSpec.limit f (abs t) id.
Proof. intros Hw. unfold CgroupSpec.limit. destruct (id =? CGROUP_ROOT); [done|]. by rewrite group_field_abs. Qed.

Lemma pids_max_abs t id : wf t -> default CGROUP_UNLIMITED (pids_max t id) = CgroupSpec.limit i_pids (abs t) id.
Proof. exact (limit_abs t id i_pids). Qed.

Lemma memory_max_abs t id : wf t -> default CGROUP_UNLIMITED (memory_max t id) = CgroupSpec.limit i_mem (abs t) id.
Proof. exact (limit_abs t id i_mem). Qed.

Lemma sum_perm l l' : l ≡ₚ l' -> foldr Z.add 0 l = foldr Z.add 0 l'.
Proof. induction 1; cbn; lia. Qed.

Lemma foldl_u64_add l : forall a, foldl u64_add (a mod U64) l = (a + foldr Z.add 0 l) mod U64.
Proof.
  induction l as [|x l IH]; intros a; cbn [foldl foldr]; [by rewrite Z.add_0_r|].
  unfold u64_add at 2. rewrite Zplus_mod_idemp_l, IH. f_equal. lia.
Qed.

Lemma pids_current_abs t id :
  wf t -> exists_group t id = true -> pids_current t id = length (CgroupSpec.tasks_in id (s_tasks (abs t))).
Proof.
  intros Hw He. destruct (split_group t id Hw He) as (_ & ms & _ & Hm & _).
  unfold pids_current. rewrite Hm. cbn [default]. rewrite (members_tasks t id ms Hw He Hm). by unfold entries_of; rewrite length_map.
Qed.

Lemma memory_current_abs t id :
  wf t -> exists_group t id = true -> memory_current t id = CgroupSpec.usage id (s_tasks (abs t)).
Proof.
  intros Hw He. destruct (split_group t id Hw He) as (_ & ms & _ & Hm & _).
  unfold memory_current, CgroupSpec.usage. rewrite Hm. cbn [default].
  rewrite (foldl_u64_add _ 0), Z.add_0_l. f_equal. apply sum_perm. rewrite (members_tasks t id ms Hw He Hm).
  unfold entries_of. by rewrite map_map.
Qed.

(** Writing a field of a group, which keeps its number, name and members. *)
Definition keeps_group (f : Cgroup -> Cgroup) : Prop :=
  forall g, g_id (f g) = g_id g /\ g_name (f g) = g_name g /\ g_members (f g) = g_members g.

Definition info_u64 (i : Info) : Prop :=
  is_u64 (i_mem i) /\ is_u64 (i_pids i) /\ is_u64 (i_cpu i) /\ is_u64 (i_io i) /\ is_u64 (i_cpu_used i) /\ is_u64 (i_io_used i).

Lemma alter_group t id i f fi :
  wf t -> index_of t id = Some i -> keeps_group f -> (forall g, info (f g) = fi (info g)) ->
  (forall x, info_u64 x -> info_u64 (fi x)) ->
  exists x, s_groups (abs t) !! id = Some x /\ info_u64 x /\
  wf (with_groups (alter f i (groups t)) t) /\
  abs (with_groups (alter f i (groups t)) t) = CgroupSpec.with_infos (<[id := fi x]> (s_groups (abs t))) (abs t).
Proof.
  intros Hw Hi Hf Hfi Hu. destruct (index_of_split t id i Hw Hi) as (g1 & g & g2 & E & <- & Hid & _ & Hl & Hins).
  destruct (Hf g) as (Fi & Fn & Fm). exists (info g). rewrite E, alter_middle.
  assert (entries (with_groups (g1 ++ f g :: g2) t) = entries t) as He.
  { unfold entries. cbn [with_groups root_members groups]. rewrite E, !group_entries_app. cbn. by rewrite Fi, Fm. }
  assert (infos (g1 ++ f g :: g2) = infos g1 ++ (id, fi (info g)) :: infos g2) as Hin.
  { unfold infos. rewrite map_app. cbn [map]. by rewrite Fi, Hid, Hfi. }
  pose proof (wf_limits _ _ _ Hw) as Hlim. rewrite E in Hlim. unfold infos in Hlim. rewrite map_app, Forall_app in Hlim.
  cbn [map] in Hlim. rewrite Forall_cons in Hlim. destruct Hlim as (L1 & Lg & L2). cbn [snd] in Lg.
  split; [done|]. split; [exact Lg|]. split.
  - unfold wf. rewrite He. cbn [with_groups groups next_id]. destruct Hw as [W1 W2 W3 W4 W5 W6 W7 W8 _].
    assert (infos (groups t) = infos g1 ++ (id, info g) :: infos g2) as Eo.
    { rewrite E. unfold infos. rewrite map_app. cbn [map]. by rewrite Hid. }
    assert (i_name (fi (info g)) = i_name (info g)) as Hnm by (rewrite <-Hfi; exact Fn).
    rewrite Eo in W1, W2, W4, W5, W6. rewrite Hin.
    rewrite ?map_app, ?length_app, ?Forall_app in *. cbn [map fst snd length] in *. rewrite ?Forall_cons in *. cbn [fst snd] in *.
    rewrite <-Hnm in W4, W5. split; rewrite ?map_app, ?length_app, ?Forall_app; cbn [map fst snd length]; rewrite ?Forall_cons; cbn [fst snd]; try done.
    split; [exact L1|]. split; [exact (Hu _ Lg)|exact L2].
  - unfold abs at 1, CgroupSpec.with_infos. rewrite He. cbn [with_groups groups next_id]. by rewrite Hin, Hins.
Qed.

(** ** Every operation does what its specification says *)

Module Refinement.

(** [s'] and [t'] agree and the table stays well-formed. *)
Definition refines {A} (spec : A * Spec) (code : A * CgroupTable) : Prop :=
  spec = (code.1, abs code.2) /\ wf code.2.

Lemma abs_eta t : CgroupSpec.with_tasks (s_tasks (abs t)) (abs t) = abs t.
Proof. done. Qed.

Lemma detach_refines t tk : wf t -> refines (CgroupSpec.detach tk (abs t)) (detach tk t).
Proof.
  intros Hw. unfold refines, CgroupSpec.detach.
  destruct (task_cases t tk Hw) as [(_ & Hl & ->)|(id & c & R & _ & _ & _ & Hl & Hdel & Hd & _ & Hu & _ & Hc & Hr & _)].
  - rewrite Hl. rewrite delete_id by done. done.
  - rewrite Hl, Hdel. split; [|by apply (retasked_wf t _ R)].
    by rewrite Hc, (retasked_abs t _ R Hr Hd).
Qed.

Lemma push_refines t id tk c ms :
  wf t -> exists_group t id = true -> members t id = Some ms -> s_tasks (abs t) !! tk = None -> is_u64 c ->
  let t' := set_members id (ms ++ [{| task := tk; charged := c |}]) t in
  abs t' = CgroupSpec.with_tasks (<[tk := (id, c)]> (s_tasks (abs t))) (abs t) /\ wf t'.
Proof.
  intros Hw He Hm Hl Hc t'. destruct (split_group t id Hw He) as (E1 & ms' & E2 & Hm' & E & _ & Hset).
  rewrite Hm in Hm'. injection Hm' as <-. destruct (Hset (ms ++ [{| task := tk; charged := c |}])) as (Hes & Hi & Hn).
  assert (retasked t t' ((tk, (id, c)) :: entries t)) as Hr.
  { split_and!; [done|done|]. unfold t'. rewrite Hes, E. unfold entries_of. rewrite map_app. cbn [map].
    rewrite <-app_assoc. cbn [app]. rewrite (app_assoc E1), <-Permutation_middle, <-app_assoc. done. }
  assert (NoDup (map fst ((tk, (id, c)) :: entries t))) as Hd.
  { cbn [map fst]. constructor; [by apply ltm_fresh|apply Hw]. }
  split; [|apply (retasked_wf t t' _ Hw Hr Hd); constructor; [done|apply Hw]].
  by rewrite (retasked_abs t t' _ Hr Hd), ltm_cons.
Qed.

Lemma attach_refines t id tk : wf t -> refines (CgroupSpec.attach id tk (abs t)) (attach id tk t).
Proof.
  intros Hw. unfold attach, CgroupSpec.attach. rewrite <-exists_group_abs, group_of_task_abs by done.
  destruct (exists_group t id) eqn:He; cbn [negb]; [|done]. case_bool_decide as Hg; [done|].
  pose proof (detach_refines t tk Hw) as [Hds Hwd].
  pose proof (f_equal fst Hds) as Hc. pose proof (f_equal snd Hds) as Ha. clear Hds. unfold CgroupSpec.detach in Hc, Ha.
  destruct (detach tk t) as [c t1] eqn:Ed. cbn [fst snd] in *.
  assert (s_tasks (abs t1) = delete tk (s_tasks (abs t)) /\ s_groups (abs t1) = s_groups (abs t)) as [Ht1 Hg1] by (by rewrite <-Ha).
  assert (exists_group t1 id = true) as He1.
  { rewrite exists_group_abs in He |- * by done. unfold CgroupSpec.exists_s in *. by rewrite Hg1. }
  rewrite (pids_max_abs t1 id Hwd), (pids_current_abs t1 id Hwd He1), Ht1.
  assert (CgroupSpec.limit i_pids (abs t1) id = CgroupSpec.limit i_pids (abs t) id) as -> by (unfold CgroupSpec.limit; by rewrite Hg1).
  destruct (_ <=? _); [split; [by rewrite Ha|done]|].
  destruct (split_group t1 id Hwd He1) as (_ & ms & _ & Hm & _). rewrite Hm.
  assert (is_u64 c) as Hcu.
  { rewrite <-Hc. destruct (task_cases t tk Hw) as [(_ & -> & _)|(i & c' & R & _ & _ & Hu & -> & _)]; [|done].
    unfold is_u64, U64. cbn. lia. }
  destruct (push_refines t1 id tk c ms Hwd He1 Hm) as [Hp Hwp]; [by rewrite Ht1, lookup_delete_eq|done|].
  split; [|exact Hwp]. cbn [fst snd]. rewrite Hp, Ht1, Hc, <-Ha. done.
Qed.

Lemma update_charge_refines t tk f id c :
  wf t -> s_tasks (abs t) !! tk = Some (id, c) -> (is_u64 c -> is_u64 (f c)) ->
  abs (update_charge f id tk t) = CgroupSpec.with_tasks (<[tk := (id, f c)]> (s_tasks (abs t))) (abs t) /\
  wf (update_charge f id tk t).
Proof.
  intros Hw Hl Hf. destruct (task_cases t tk Hw) as [(_ & Hn & _)|(id' & c' & R & _ & _ & Hu & Hl' & _ & Hd & Hk & HuR & Hins & _ & _ & Hr)]; [congruence|].
  rewrite Hl in Hl'. injection Hl' as <- <-. specialize (Hr f).
  assert (NoDup (map fst ((tk, (id, f c)) :: R))) as Hd' by (cbn [map fst]; by constructor).
  split; [by rewrite (retasked_abs t _ _ Hr Hd'), Hins|].
  apply (retasked_wf t _ _ Hw Hr Hd'). constructor; [by apply Hf|done].
Qed.

Lemma sat_add_u64 a b : is_u64 a -> is_u64 b -> is_u64 (saturating_add a b).
Proof. unfold saturating_add, is_u64, U64_MAX. lia. Qed.

Lemma sat_sub_u64 a b : is_u64 a -> is_u64 b -> is_u64 (saturating_sub a b).
Proof. unfold saturating_sub, is_u64, U64. lia. Qed.

Lemma charge_refines t tk n : wf t -> is_u64 n -> refines (CgroupSpec.charge tk n (abs t)) (charge tk n t).
Proof.
  intros Hw Hn. unfold charge, CgroupSpec.charge. rewrite group_of_task_abs by done.
  destruct (task_cases t tk Hw) as [(_ & Hl & _)|(id & c & R & _ & He & Hu & Hl & _)]; rewrite Hl; [done|].
  cbn [fmap option_fmap option_map fst]. rewrite (memory_max_abs t id Hw), (memory_current_abs t id Hw He).
  destruct (_ && _); [done|]. cbn zeta.
  destruct (update_charge_refines t tk (fun c => saturating_add c n) id c Hw Hl) as [Ha Hw']; [intros; by apply sat_add_u64|].
  split; [|exact Hw']. cbn [fst snd]. by rewrite Ha.
Qed.

Lemma uncharge_refines t tk n : wf t -> is_u64 n -> CgroupSpec.uncharge tk n (abs t) = abs (uncharge tk n t) /\ wf (uncharge tk n t).
Proof.
  intros Hw Hn. unfold uncharge, CgroupSpec.uncharge. rewrite group_of_task_abs by done.
  destruct (task_cases t tk Hw) as [(_ & Hl & _)|(id & c & R & _ & _ & Hu & Hl & _)]; rewrite Hl; [done|].
  cbn [fmap option_fmap option_map fst].
  destruct (update_charge_refines t tk (fun c => saturating_sub c n) id c Hw Hl) as [Ha Hw']; [intros; by apply sat_sub_u64|].
  split; [|exact Hw']. by rewrite Ha.
Qed.

Lemma root_no_info t : wf t -> s_groups (abs t) !! CGROUP_ROOT = None.
Proof.
  intros Hw. cbn [abs s_groups]. apply ltm_fresh. intros (x & E & Hx)%list_elem_of_fmap.
  pose proof (wf_id_range _ _ _ Hw) as Hr. rewrite Forall_forall in Hr. specialize (Hr x Hx). unfold CGROUP_ROOT in E. lia.
Qed.

Lemma set_field_refines t id f fi :
  wf t -> keeps_group f -> (forall g, info (f g) = fi (info g)) -> (forall x, info_u64 x -> info_u64 (fi x)) ->
  refines (CgroupSpec.set_info fi id (abs t)) (set_field f id t).
Proof.
  intros Hw Hf Hfi Hu. unfold set_field, CgroupSpec.set_info.
  destruct (Z.eqb_spec id CGROUP_ROOT) as [->|Hne]; [by rewrite root_no_info|].
  destruct (index_of t id) as [i|] eqn:Hi.
  - destruct (alter_group t id i f fi Hw Hi Hf Hfi Hu) as (x & Hl & _ & Hw' & Ha). rewrite Hl.
    split; [|exact Hw']. cbn [fst snd]. by rewrite Ha.
  - apply index_of_None in Hi as Hl; [|done]. by rewrite Hl.
Qed.

Definition set_mem_i (v : Z) (i : Info) : Info :=
  {| i_name := i_name i; i_mem := v; i_pids := i_pids i; i_cpu := i_cpu i; i_io := i_io i;
     i_cpu_used := i_cpu_used i; i_io_used := i_io_used i |}.
Definition set_pids_i (v : Z) (i : Info) : Info :=
  {| i_name := i_name i; i_mem := i_mem i; i_pids := v; i_cpu := i_cpu i; i_io := i_io i;
     i_cpu_used := i_cpu_used i; i_io_used := i_io_used i |}.
Definition set_cpu_i (v : Z) (i : Info) : Info :=
  {| i_name := i_name i; i_mem := i_mem i; i_pids := i_pids i; i_cpu := v; i_io := i_io i;
     i_cpu_used := i_cpu_used i; i_io_used := i_io_used i |}.
Definition set_io_i (v : Z) (i : Info) : Info :=
  {| i_name := i_name i; i_mem := i_mem i; i_pids := i_pids i; i_cpu := i_cpu i; i_io := v;
     i_cpu_used := i_cpu_used i; i_io_used := i_io_used i |}.
Definition set_cpu_used_i (v : Z) (i : Info) : Info :=
  {| i_name := i_name i; i_mem := i_mem i; i_pids := i_pids i; i_cpu := i_cpu i; i_io := i_io i;
     i_cpu_used := v; i_io_used := i_io_used i |}.
Definition set_io_used_i (v : Z) (i : Info) : Info :=
  {| i_name := i_name i; i_mem := i_mem i; i_pids := i_pids i; i_cpu := i_cpu i; i_io := i_io i;
     i_cpu_used := i_cpu_used i; i_io_used := v |}.

(** A cumulative charge to a task whose group has the number [i] in the table. *)
Lemma charge_used_refines t tk n (max used : Info -> Z) upd (f : Cgroup -> Cgroup) (code : bool * CgroupTable) :
  wf t -> keeps_group f -> (forall g, info (f g) = upd (saturating_add (used (info g)) n) (info g)) ->
  (forall x, info_u64 x -> info_u64 (upd (saturating_add (used x) n) x)) ->
  code = match group_of_task t tk with
    | None => (true, t)
    | Some gid =>
        let m := default CGROUP_UNLIMITED (if gid =? CGROUP_ROOT then Some CGROUP_UNLIMITED else group_field (fun g => max (info g)) t gid) in
        let u := if gid =? CGROUP_ROOT then 0 else default 0 (group_field (fun g => used (info g)) t gid) in
        if negb (m =? CGROUP_UNLIMITED) && (m <? saturating_add u n) then (false, t)
        else match index_of t gid with None => (true, t) | Some i => (true, with_groups (alter f i (groups t)) t) end
    end ->
  refines (CgroupSpec.charge_used max used upd tk n (abs t)) code.
Proof.
  intros Hw Hf Hfi Hu ->. unfold CgroupSpec.charge_used. rewrite group_of_task_abs by done.
  destruct (s_tasks (abs t) !! tk) as [[id c]|]; [|done]. cbn [fmap option_fmap option_map fst].
  rewrite !group_field_abs by done. destruct (Z.eqb_spec id CGROUP_ROOT) as [->|Hne].
  - rewrite root_no_info by done. cbn [default]. rewrite Z.eqb_refl. cbn [negb andb].
    rewrite (proj2 (index_of_None t CGROUP_ROOT Hw)) by (by apply root_no_info). done.
  - destruct (index_of t id) as [i|] eqn:Hi.
    + destruct (alter_group t id i f _ Hw Hi Hf Hfi Hu) as (x & Hl & _ & Hw' & Ha). rewrite Hl. cbn [fmap option_fmap option_map default].
      destruct (_ && _); [done|]. split; [|exact Hw']. cbn [fst snd]. by rewrite Ha.
    + apply index_of_None in Hi as Hl; [|done]. rewrite Hl. cbn [fmap option_fmap option_map default]. by rewrite Z.eqb_refl.
Qed.

Lemma charge_cpu_refines t tk n :
  wf t -> is_u64 n -> refines (CgroupSpec.charge_used i_cpu i_cpu_used set_cpu_used_i tk n (abs t)) (charge_cpu tk n t).
Proof.
  intros Hw Hn. eapply (charge_used_refines t tk n i_cpu i_cpu_used set_cpu_used_i); [done| | | |reflexivity]; [done|done|].
  intros x (H1 & H2 & H3 & H4 & H5 & H6). by split_and!; try apply sat_add_u64.
Qed.

Lemma charge_io_refines t tk n :
  wf t -> is_u64 n -> refines (CgroupSpec.charge_used i_io i_io_used set_io_used_i tk n (abs t)) (charge_io tk n t).
Proof.
  intros Hw Hn. eapply (charge_used_refines t tk n i_io i_io_used set_io_used_i); [done| | | |reflexivity]; [done|done|].
  intros x (H1 & H2 & H3 & H4 & H5 & H6). by split_and!; try apply sat_add_u64.
Qed.

Lemma existsb_perm {A} (p : A -> bool) l l' : l ≡ₚ l' -> existsb p l = existsb p l'.
Proof. induction 1; cbn [existsb]; [done|congruence| |congruence]. by destruct (p _), (p _). Qed.

Lemma size_infos t : wf t -> size (s_groups (abs t)) = length (groups t).
Proof.
  intros Hw. rewrite <-length_map_to_list. cbn [abs s_groups]. rewrite ltm_to_list by apply Hw. unfold infos. by rewrite length_map.
Qed.

Lemma create_refines t name :
  wf t -> next_id t + 1 < U64 -> refines (CgroupSpec.create name (abs t)) (create name t).
Proof.
  intros Hw Hn. unfold create, CgroupSpec.create, CgroupSpec.good_name. rewrite size_infos by done.
  assert (existsb (fun x => bool_decide (i_name x.2 = name)) (map_to_list (s_groups (abs t))) =
          existsb (fun g => bool_decide (g_name g = name)) (groups t)) as ->.
  { cbn [abs s_groups]. rewrite (existsb_perm _ _ (infos (groups t))) by (apply ltm_to_list, Hw).
    unfold infos. induction (groups t) as [|g gs IH]; [done|]. cbn. by rewrite IH. }
  rewrite !Nat.leb_antisym. destruct (bool_decide (name = EmptyString)) eqn:B1; [done|].
  destruct (MAX_NAME_LEN <? String.length name)%nat eqn:B2; [done|]. destruct (bool_decide (name = "/"%string)) eqn:B3; [done|].
  destruct (existsb _ (groups t)) eqn:B4; [done|]. destruct (length (groups t) <? MAX_CGROUPS)%nat eqn:B5; cbn [negb orb andb]; [|done].
  set (t' := {| groups := groups t ++ [new_group (next_id t) name]; root_members := root_members t; next_id := u64_add (next_id t) 1 |}).
  assert (entries t' = entries t) as He by (unfold entries, t'; cbn [groups root_members]; rewrite group_entries_app; by rewrite app_nil_r).
  assert (infos (groups t') = infos (groups t) ++ [(next_id t, CgroupSpec.new_info name)]) as Hi by (unfold t', infos; cbn [groups]; by rewrite map_app).
  destruct Hw as [W1 W2 W3 W4 W5 W6 W7 W8 W9].
  assert (next_id t ∉ map fst (infos (groups t))) as Hf.
  { intros (x & E & Hx)%list_elem_of_fmap. rewrite Forall_forall in W2. specialize (W2 x Hx). lia. }
  assert (next_id t' = next_id t + 1) as Hnx by (unfold t'; cbn; apply u64_add_small; lia).
  split.
  - cbn [fst snd]. f_equal. unfold abs. rewrite He, Hi, Hnx. cbn [s_groups s_tasks s_next]. f_equal.
    rewrite <-ltm_cons. apply ltm_perm; [by cbn [map fst]; constructor|]. apply Permutation_cons_append.
  - cbn [snd]. unfold wf. rewrite He, Hi, Hnx.
    split; rewrite ?map_app, ?length_app, ?Forall_app; cbn [map fst snd length]; rewrite ?Forall_singleton; cbn [fst snd].
    + rewrite (Permutation_app_comm (map fst _)). cbn [app]. by constructor.
    + split; [|lia]. eapply Forall_impl; [exact W2|]. cbn. lia.
    + lia.
    + rewrite (Permutation_app_comm (map _ _)). cbn [app]. constructor; [|done].
      intros (x & E & Hx)%list_elem_of_fmap. apply list_elem_of_fmap in Hx as (g & -> & Hg).
      apply existsb_false in B4. rewrite Forall_forall in B4. specialize (B4 g Hg). apply bool_decide_eq_false in B4. done.
    + split; [done|]. unfold CgroupSpec.good_name. cbn. rewrite B1, B3. cbn. by rewrite Nat.leb_antisym, B2.
    + apply Nat.ltb_lt in B5. unfold infos. rewrite length_map. lia.
    + done.
    + done.
    + split; [done|]. cbn. unfold CGROUP_UNLIMITED, is_u64, U64_MAX, U64. lia.
Qed.

Lemma remove_refines t id : wf t -> refines (CgroupSpec.remove id (abs t)) (remove id t).
Proof.
  intros Hw. unfold remove, CgroupSpec.remove. destruct (Z.eqb_spec id CGROUP_ROOT) as [->|Hne].
  { rewrite root_no_info by done. by rewrite bool_decide_eq_false_2 by (by intros [? ?]). }
  destruct (index_of t id) as [i|] eqn:Hi.
  2:{ apply index_of_None in Hi as Hl; [|done]. rewrite Hl. by rewrite bool_decide_eq_false_2 by (by intros [? ?]). }
  destruct (index_of_split t id i Hw Hi) as (g1 & g & g2 & E & <- & Hid & _ & Hl & _).
  assert (exists_group t id = true) as He by (unfold exists_group; rewrite Hi; apply orb_true_r).
  assert (members t id = Some (g_members g)) as Hm.
  { unfold members, group_field. rewrite (proj2 (Z.eqb_neq _ _) Hne), Hi. cbn [mbind option_bind]. by rewrite E, list_lookup_middle. }
  pose proof (members_tasks t id _ Hw He Hm) as Hp. rewrite Hl, bool_decide_eq_true_2 by done.
  rewrite E at 1. rewrite list_lookup_middle by done. cbn [fmap option_fmap option_map andb].
  destruct (g_members g) as [|m ms] eqn:Em.
  2:{ rewrite bool_decide_eq_false_2; [done|]. intros Hn. rewrite Hn in Hp. by apply Permutation_nil_cons in Hp. }
  rewrite bool_decide_eq_true_2 by (by apply Permutation_nil_r in Hp).
  rewrite E, vec_remove_middle. cbn [fst snd].
  assert (infos (groups t) ≡ₚ (id, info g) :: infos (g1 ++ g2)) as Hpi.
  { rewrite E. unfold infos. rewrite !map_app. cbn [map]. rewrite Hid. by rewrite <-Permutation_middle. }
  assert (entries (with_groups (g1 ++ g2) t) = entries t) as Hes.
  { unfold entries. cbn [with_groups groups root_members]. rewrite E, !group_entries_app. cbn. by rewrite Em. }
  destruct (ltm_split _ _ _ _ (wf_ids _ _ _ Hw) Hpi) as (Hd & _ & _ & Hdel & _).
  split.
  - cbn [fst snd]. f_equal. unfold abs, CgroupSpec.with_infos. rewrite Hes. cbn [with_groups groups next_id s_groups s_tasks s_next].
    by rewrite Hdel.
  - cbn [snd]. unfold wf. rewrite Hes. cbn [with_groups groups next_id]. destruct Hw as [W1 W2 W3 W4 W5 W6 W7 W8 W9].
    rewrite Hpi in W1, W2, W4, W5, W6, W9. cbn [map length] in *. rewrite ?NoDup_cons, ?Forall_cons in *. split; try done; try tauto. lia.
Qed.

End Refinement.

(** ** Runs *)

Module CgroupProofs.
Import Refinement.

Inductive op :=
| OpCreate (name : string)
| OpRemove (id : Z)
| OpAttach (id tk : Z)
| OpDetach (tk : Z)
| OpCharge (tk n : Z)
| OpUncharge (tk n : Z)
| OpSetMem (id v : Z)
| OpSetPids (id v : Z)
| OpSetCpu (id v : Z)
| OpSetIo (id v : Z)
| OpChargeCpu (tk n : Z)
| OpChargeIo (tk n : Z).

Inductive reply :=
| RId (r : option Z)
| RBool (b : bool)
| RAttach (r : option (unit + AttachError))
| RNum (n : Z)
| RUnit.

Definition on_fst {A B S} (f : A -> B) (x : A * S) : B * S := (f x.1, x.2).

Definition run_op (o : op) (t : CgroupTable) : reply * CgroupTable :=
  match o with
  | OpCreate name => on_fst RId (create name t)
  | OpRemove id => on_fst RBool (remove id t)
  | OpAttach id tk => on_fst RAttach (attach id tk t)
  | OpDetach tk => on_fst RNum (detach tk t)
  | OpCharge tk n => on_fst RBool (charge tk n t)
  | OpUncharge tk n => (RUnit, uncharge tk n t)
  | OpSetMem id v => on_fst RBool (set_memory_max id v t)
  | OpSetPids id v => on_fst RBool (set_pids_max id v t)
  | OpSetCpu id v => on_fst RBool (set_cpu_max id v t)
  | OpSetIo id v => on_fst RBool (set_io_max id v t)
  | OpChargeCpu tk n => on_fst RBool (charge_cpu tk n t)
  | OpChargeIo tk n => on_fst RBool (charge_io tk n t)
  end.

Definition spec_op (o : op) (s : Spec) : reply * Spec :=
  match o with
  | OpCreate name => on_fst RId (CgroupSpec.create name s)
  | OpRemove id => on_fst RBool (CgroupSpec.remove id s)
  | OpAttach id tk => on_fst RAttach (CgroupSpec.attach id tk s)
  | OpDetach tk => on_fst RNum (CgroupSpec.detach tk s)
  | OpCharge tk n => on_fst RBool (CgroupSpec.charge tk n s)
  | OpUncharge tk n => (RUnit, CgroupSpec.uncharge tk n s)
  | OpSetMem id v => on_fst RBool (CgroupSpec.set_info (set_mem_i v) id s)
  | OpSetPids id v => on_fst RBool (CgroupSpec.set_info (set_pids_i v) id s)
  | OpSetCpu id v => on_fst RBool (CgroupSpec.set_info (set_cpu_i v) id s)
  | OpSetIo id v => on_fst RBool (CgroupSpec.set_info (set_io_i v) id s)
  | OpChargeCpu tk n => on_fst RBool (CgroupSpec.charge_used i_cpu i_cpu_used set_cpu_used_i tk n s)
  | OpChargeIo tk n => on_fst RBool (CgroupSpec.charge_used i_io i_io_used set_io_used_i tk n s)
  end.

(** The numbers of a call fit in 64 bits. *)
Definition op_ok (o : op) : Prop :=
  match o with
  | OpCharge _ n | OpUncharge _ n | OpChargeCpu _ n | OpChargeIo _ n => is_u64 n
  | OpSetMem _ v | OpSetPids _ v | OpSetCpu _ v | OpSetIo _ v => is_u64 v
  | _ => True
  end.

Fixpoint run_ops (os : list op) (t : CgroupTable) : list reply * CgroupTable :=
  match os with
  | [] => ([], t)
  | o :: os => let '(r, t) := run_op o t in let '(rs, t) := run_ops os t in (r :: rs, t)
  end.

Fixpoint spec_ops (os : list op) (s : Spec) : list reply * Spec :=
  match os with
  | [] => ([], s)
  | o :: os => let '(r, s) := spec_op o s in let '(rs, s) := spec_ops os s in (r :: rs, s)
  end.

Lemma refines_fst {A B} (f : A -> B) sp co : refines sp co -> refines (on_fst f sp) (on_fst f co).
Proof. intros [-> Hw]. by split. Qed.

Lemma set_refines t id f fi :
  wf t -> keeps_group f -> (forall g, info (f g) = fi (info g)) -> (forall x, info_u64 x -> info_u64 (fi x)) ->
  refines (on_fst RBool (CgroupSpec.set_info fi id (abs t))) (on_fst RBool (set_field f id t)).
Proof. intros. by apply refines_fst, set_field_refines. Qed.

Lemma op_refines o t : wf t -> op_ok o -> next_id t + 1 < U64 -> refines (spec_op o (abs t)) (run_op o t).
Proof.
  intros Hw Ho Hn. destruct o; cbn [spec_op run_op op_ok] in *; unfold set_memory_max, set_pids_max, set_cpu_max, set_io_max.
  1: by apply refines_fst, create_refines.
  1: by apply refines_fst, remove_refines.
  1: by apply refines_fst, attach_refines.
  1: by apply refines_fst, detach_refines.
  1: by apply refines_fst, charge_refines.
  1: { destruct (uncharge_refines t tk n Hw Ho) as [Ha Hw']. split; [by rewrite Ha|done]. }
  1-4: apply set_refines; [done|done|done|intros x (?&?&?&?&?&?); by split_and!].
  1: by apply refines_fst, charge_cpu_refines.
  1: by apply refines_fst, charge_io_refines.
Qed.

Lemma spec_next o s : s_next s <= s_next (spec_op o s).2 <= s_next s + 1.
Proof.
  destruct o; cbn [spec_op on_fst snd];
    unfold CgroupSpec.create, CgroupSpec.remove, CgroupSpec.attach, CgroupSpec.detach, CgroupSpec.charge,
      CgroupSpec.uncharge, CgroupSpec.set_info, CgroupSpec.charge_used;
    repeat case_match; cbn; lia.
Qed.

Lemma empty_wf : wf empty_table.
Proof. split; cbn; try constructor; unfold MAX_CGROUPS, U64; lia. Qed.

Definition empty_spec : Spec := {| s_groups := ∅; s_tasks := ∅; s_next := 1 |}.

Lemma run_refines os : forall t,
  wf t -> Forall op_ok os -> next_id t + Z.of_nat (length os) < U64 -> refines (spec_ops os (abs t)) (run_ops os t).
Proof.
  induction os as [|o os IH]; intros t Hw Ho Hn; [done|]. apply Forall_cons in Ho as [Ho Hos]. cbn [length] in Hn.
  cbn [spec_ops run_ops]. destruct (op_refines o t Hw Ho ltac:(lia)) as [Hs Hw'].
  pose proof (spec_next o (abs t)) as Hx. rewrite Hs in Hx |- *. destruct (run_op o t) as [r t1]. cbn [fst snd] in *.
  cbn [abs s_next] in Hx. destruct (IH t1 Hw' Hos ltac:(lia)) as [Hs2 Hw2]. rewrite Hs2. by destruct (run_ops os t1).
Qed.

(** The table is well-formed after every sequence of calls on it: group numbers
    and names are distinct and legal, there are at most 32 groups, no task is in two
    groups or twice in one, and all charges and limits fit in 64 bits. *)
Theorem cgroup_table_well_formed os :
  Forall op_ok os -> Z.of_nat (length os) < U64 - 1 -> wf (run_ops os empty_table).2.
Proof. intros Ho Hn. apply run_refines; [apply empty_wf|done|cbn; lia]. Qed.

(** C15: The table implements its specification: any sequence of calls on it returns what the
    same calls on a map from tasks to groups and charges, and a map from groups to limits, return,
    and the two agree afterwards. *)
Theorem cgroup_refines_spec os :
  Forall op_ok os -> Z.of_nat (length os) < U64 - 1 ->
  spec_ops os empty_spec = ((run_ops os empty_table).1, abs (run_ops os empty_table).2).
Proof.
  intros Ho Hn. change empty_spec with (abs empty_table).
  apply run_refines; [apply empty_wf|done|cbn; lia].
Qed.

(** A refused move loses the task. When the target group is full, [attach] reports
    [PidsLimit] after it has taken the task out of its group: the task is then in no
    group, its charge is gone from the old group, and no memory limit applies to it
    any more. *)
Theorem cgroup_refused_move_escapes t tk old id :
  wf t -> group_of_task t tk = Some old -> exists_group t id = true -> id <> old ->
  default CGROUP_UNLIMITED (pids_max t id) <= Z.of_nat (pids_current t id) ->
  exists t', attach id tk t = (Some (inr PidsLimit), t') /\ wf t' /\ group_of_task t' tk = None /\
    (forall n, charge tk n t' = (true, t')) /\
    exists c, s_tasks (abs t) !! tk = Some (old, c) /\
      memory_current t' old = (memory_current t old - c) mod U64.
Proof.
  intros Hw Hg He Hne Hfull.
  destruct (task_cases t tk Hw) as [(Hn & _)|(i & c & R & Hi & Heo & _ & Hl & Hdel & Hd & Hk & _ & Hins & Hc & Hr & _)]; [congruence|].
  rewrite Hg in Hi. injection Hi as <-.
  destruct (detach_refines t tk Hw) as [Hds Hwd]. pose proof (f_equal snd Hds) as Ha. cbn [CgroupSpec.detach snd] in Ha. clear Hds.
  destruct (detach tk t) as [c' t1] eqn:Ed. cbn [fst snd] in *. subst c'.
  assert (s_tasks (abs t1) = list_to_map R /\ s_groups (abs t1) = s_groups (abs t)) as [Ht1 Hg1] by (rewrite <-Ha, <-Hdel; done).
  assert (forall j, exists_group t j = true -> exists_group t1 j = true) as Hex.
  { intros j Hj. rewrite exists_group_abs in Hj |- * by done. unfold CgroupSpec.exists_s in *. by rewrite Hg1. }
  assert (s_tasks (abs t) = list_to_map ((tk, (old, c)) :: R)) as Hts.
  { rewrite <-Hins. symmetry. by apply insert_id. }
  assert (forall j, CgroupSpec.tasks_in j (s_tasks (abs t)) ≡ₚ filter (fun x => x.2.1 = j) ((tk, (old, c)) :: R)) as Hin.
  { intros j. unfold CgroupSpec.tasks_in. rewrite Hts, ltm_to_list; [done|]. cbn [map fst]. by constructor. }
  assert (forall j, CgroupSpec.tasks_in j (s_tasks (abs t1)) ≡ₚ filter (fun x => x.2.1 = j) R) as Hin1.
  { intros j. unfold CgroupSpec.tasks_in. by rewrite Ht1, ltm_to_list. }
  assert (group_of_task t1 tk = None) as Hgn.
  { rewrite group_of_task_abs, Ht1 by done. apply ltm_fresh in Hk. by rewrite Hk. }
  exists t1. split_and!; [| |done| |].
  - unfold attach. rewrite He. cbn [negb]. rewrite bool_decide_eq_false_2 by congruence. rewrite Ed.
    assert (pids_current t1 id = pids_current t id) as ->.
    { rewrite !pids_current_abs by auto. rewrite Hin, Hin1. by rewrite filter_cons_False. }
    assert (default CGROUP_UNLIMITED (pids_max t1 id) = default CGROUP_UNLIMITED (pids_max t id)) as ->.
    { rewrite !pids_max_abs by done. unfold CgroupSpec.limit. by rewrite Hg1. }
    by rewrite (proj2 (Z.leb_le _ _) Hfull).
  - done.
  - intros n. unfold charge. by rewrite Hgn.
  - exists c. split; [done|]. rewrite !memory_current_abs by auto. unfold CgroupSpec.usage.
    rewrite (sum_perm (map _ (CgroupSpec.tasks_in old (s_tasks (abs t)))) (map (fun x => x.2.2) (filter (fun x => x.2.1 = old) ((tk, (old, c)) :: R)))) by (by rewrite Hin).
    rewrite (sum_perm (map _ (CgroupSpec.tasks_in old (s_tasks (abs t1)))) (map (fun x => x.2.2) (filter (fun x => x.2.1 = old) R))) by (by rewrite Hin1).
    rewrite filter_cons_True by done. cbn [map foldr snd]. rewrite Zminus_mod_idemp_l. f_equal. lia.
Qed.

(** ** The files *)

Lemma decode_file id idx :
  0 <= id < 2 ^ 57 -> 1 <= idx <= 9 ->
  root_spec (file_inode id idx) = None /\ decode_inode (file_inode id idx) = Some (id, idx).
Proof.
  intros Hid Hidx. assert (file_inode id idx = 0x1000 + id * 0x40 + idx) as ->.
  { unfold file_inode, dir_inode, DIR_BASE, DIR_STRIDE. rewrite (Z.mod_small (id * 0x40)) by (unfold U64; lia).
    rewrite (u64_add_small 0x1000 (id * 0x40)), u64_add_small by (unfold U64; lia). done. }
  split.
  - unfold root_spec, CGROUP_PROCS_INODE, CGROUP_TASKS_INODE, CGROUP_CONTROLLERS_INODE, CGROUP_SUBTREE_CONTROL_INODE,
      CGROUP_PIDS_MAX_INODE, CGROUP_PIDS_CURRENT_INODE, CGROUP_MEMORY_MAX_INODE, CGROUP_MEMORY_CURRENT_INODE,
      CGROUP_CPU_MAX_INODE, CGROUP_IO_MAX_INODE.
    rewrite !(proj2 (Z.eqb_neq _ _)) by lia. done.
  - unfold decode_inode, DIR_BASE, DIR_STRIDE, F_PROCS, PER_CGROUP_FILES. rewrite (proj2 (Z.ltb_ge _ _)) by lia.
    replace ((0x1000 + id * 0x40 + idx) mod 0x40) with idx by (Z.div_mod_to_equations; lia).
    rewrite !(proj2 (Z.leb_le _ _)) by lia. cbn [andb negb].
    replace ((0x1000 + id * 0x40 + idx - 0x1000) / 0x40) with id by (Z.div_mod_to_equations; lia). done.
Qed.

Lemma parse_render v : is_u64 v -> parse_limit (render_limit v) = Some v.
Proof.
  intros Hv. unfold render_limit. destruct (Z.eqb_spec v CGROUP_UNLIMITED) as [->|Hne]; [by vm_compute|].
  assert (0 <= v) as H0 by (unfold is_u64 in Hv; lia). pose proof (decimal_digits v H0) as Hd.
  unfold parse_limit, NEWLINE. rewrite trim_line; [|done|by apply decimal_loop_nonempty; lia].
  rewrite bool_decide_eq_false_2; [by apply parse_decimal|]. intros E. rewrite E in Hd.
  change (ascii_text "max") with [109; 97; 120] in Hd. apply Forall_cons in Hd as [Hd _]. lia.
Qed.

Lemma render_ascii v : is_u64 v -> Forall (fun c => 0 <= c < 128) (render_limit v).
Proof.
  intros Hv. unfold render_limit. destruct (v =? CGROUP_UNLIMITED).
  - apply (bool_decide_unpack _). by vm_compute.
  - apply Forall_app. split; [|repeat constructor; unfold NEWLINE; lia].
    eapply Forall_impl; [apply decimal_digits; unfold is_u64 in Hv; lia|]. cbn. lia.
Qed.

Lemma read_into_all c n : Z.of_nat (length c) <= n -> read_into c 0 n = c.
Proof.
  intros Hn. unfold read_into. change (Z.to_nat 0) with 0%nat. destruct (Nat.leb_spec (length c) 0) as [Hl|Hl].
  - destruct c; [done|cbn in Hl; lia].
  - rewrite drop_0, Nat.sub_0_r, Nat.min_r by lia. by rewrite firstn_all.
Qed.

(** The four limit files: the file, its setter and its getter. *)
Inductive limit_file : Z -> (Z -> Z -> CgroupTable -> bool * CgroupTable) -> (CgroupTable -> Z -> option Z) -> Prop :=
| lf_pids : limit_file F_PIDS_MAX set_pids_max pids_max
| lf_mem : limit_file F_MEM_MAX set_memory_max memory_max
| lf_cpu : limit_file F_CPU_MAX set_cpu_max cpu_max
| lf_io : limit_file F_IO_MAX set_io_max io_max.

(** A setter reports success and the getter shows the limit. *)
Lemma set_get idx set get t id v :
  limit_file idx set get -> wf t -> is_Some (s_groups (abs t) !! id) ->
  exists t', set id v t = (true, t') /\ get t' id = Some v /\ exists_group t' id = true.
Proof.
  intros Hl Hw Hs. assert (id =? CGROUP_ROOT = false) as Hr.
  { apply Z.eqb_neq. intros ->. rewrite root_no_info in Hs by done. by destruct Hs. }
  destruct (index_of t id) as [i|] eqn:Hi; [|apply index_of_None in Hi; [rewrite Hi in Hs; by destruct Hs|done]].
  destruct (index_of_split t id i Hw Hi) as (g1 & g & g2 & E & <- & Hid & _).
  assert (forall g', g_id g' = id -> index_of (with_groups (g1 ++ g' :: g2) t) id = Some (length g1)) as Hix.
  { intros g' Hf. unfold index_of. cbn [with_groups groups]. apply position_Some. exists g1, g', g2. split_and!; [done|done|by apply Z.eqb_eq|].
    unfold index_of in Hi. apply position_Some in Hi as (h1 & h & h2 & E' & Hlen & _ & Hf'). rewrite E in E'.
    apply app_inj_1 in E' as [-> _]; done. }
  destruct Hl; unfold set_pids_max, set_memory_max, set_cpu_max, set_io_max, set_field, pids_max, memory_max, cpu_max, io_max;
    rewrite Hr, Hi; eexists; (split; [reflexivity|]); rewrite E, alter_middle; unfold group_field, exists_group;
    rewrite Hix by exact Hid; cbn [mbind option_bind with_groups groups];
    rewrite list_lookup_middle by done; (split; [reflexivity|]); apply orb_true_r.
Qed.

(** Limits survive the file system. Writing the text of a limit to a limit file of a
    group succeeds, sets that limit, and reading the file gives the text back, [max]
    included. *)
Theorem cgroup_limit_write_read idx set get t id v n :
  limit_file idx set get -> wf t -> is_Some (s_groups (abs t) !! id) -> id < 2 ^ 57 -> is_u64 v ->
  Z.of_nat (length (render_limit v)) <= n ->
  exists t', fs_write (file_inode id idx) (render_limit v) t = (Some (Z.of_nat (length (render_limit v))), t') /\
    get t' id = Some v /\ fs_read t' (file_inode id idx) 0 n = render_limit v.
Proof.
  intros Hl Hw Hs Hid Hv Hn. destruct (set_get idx set get t id v Hl Hw Hs) as (t' & Hset & Hget & He).
  assert (0 <= id) as H0.
  { destruct Hs as [x Hx]. cbn [abs s_groups] in Hx. apply ltm_lookup in Hx; [|apply Hw].
    pose proof (wf_id_range _ _ _ Hw) as Hr. rewrite Forall_forall in Hr. specialize (Hr _ Hx). cbn in Hr. lia. }
  assert (1 <= idx <= 9) as Hidx by (destruct Hl; unfold F_PIDS_MAX, F_MEM_MAX, F_CPU_MAX, F_IO_MAX; lia).
  destruct (decode_file id idx ltac:(lia) Hidx) as [Hroot Hdec]. exists t'. split_and!; [|done|].
  - unfold fs_write. rewrite Hroot, Hdec. unfold write_spec. rewrite from_utf8_ascii by (by apply render_ascii).
    assert (write_limit set id (render_limit v) (render_limit v) t = (Some (Z.of_nat (length (render_limit v))), t')) as Hwl.
    { unfold write_limit. rewrite parse_render, Hset by done. done. }
    destruct Hl; exact Hwl.
  - unfold fs_read. rewrite Hroot, Hdec.
    assert (forall k, 0 <= k < 0x1000 -> file_inode id idx =? k = false) as Hk.
    { intros k Hk. apply Z.eqb_neq. intros E. rewrite E in Hdec. unfold decode_inode, DIR_BASE in Hdec.
      rewrite (proj2 (Z.ltb_lt _ _)) in Hdec by lia. done. }
    rewrite !Hk by (unfold CGROUP_DEFAULTS_INODE, CGROUP_CPU_PRESSURE_INODE, CGROUP_IO_PRESSURE_INODE, CGROUP_MEMORY_PRESSURE_INODE; lia).
    cbn [orb]. unfold read_spec. rewrite He. cbn [negb].
    assert (spec_content t' id idx = Some (render_limit v)) as ->; [|by apply read_into_all].
    destruct Hl; unfold spec_content; cbn [Z.eqb F_PROCS F_CONTROLLERS F_SUBTREE F_PIDS_MAX F_PIDS_CURRENT F_MEM_MAX F_MEM_CURRENT F_CPU_MAX F_IO_MAX Pos.eqb];
      by rewrite Hget.
Qed.

(** [cpu_max_for_task] and [io_max_for_task] never return: they take the lock of the
    table and then wait for it. *)
Lemma cpu_max_for_task_deadlock tk s : cpu_max_for_task tk s = None /\ io_max_for_task tk s = None.
Proof.
  unfold cpu_max_for_task, io_max_for_task, mbind, L_bind, lock. destruct (held s); [done|]. done.
Qed.

(** A directory may take the name of a file of the root, which then hides it: it is
    listed, but a lookup finds the file. *)
Lemma cgroup_directory_hidden_by_file :
  exists ino t, fs_create CGROUP_ROOT_INODE "pids.max" Directory empty_table = (Some ino, t) /\
    fs_lookup t CGROUP_ROOT_INODE "pids.max" = Some CGROUP_PIDS_MAX_INODE /\ ino <> CGROUP_PIDS_MAX_INODE /\
    length (List.filter (fun e => bool_decide (de_name e = "pids.max"%string)) (fs_read_dir t CGROUP_ROOT_INODE)) = 2%nat.
Proof. eexists _, _. split; [vm_compute; reflexivity|]. split_and!; [vm_compute; reflexivity|discriminate|vm_compute; reflexivity]. Qed.

(** ** Witnesses: two groups, the second full *)

Definition demo_ops : list op :=
  [OpCreate "web"; OpCreate "batch"; OpSetMem 1 4096; OpSetPids 2 1; OpAttach 1 7; OpAttach 2 8; OpCharge 7 4096; OpCharge 7 1].

Lemma demo_ops_ok : Forall op_ok demo_ops /\ Z.of_nat (length demo_ops) < U64 - 1.
Proof. split; [|vm_compute; reflexivity]. repeat constructor; vm_compute; discriminate || reflexivity. Qed.

Definition demo_table : CgroupTable := (run_ops demo_ops empty_table).2.

Lemma cgroup_table_well_formed_witness : Z.of_nat (length demo_ops) < U64 - 1 /\ wf demo_table.
Proof. split; [vm_compute; reflexivity|]. exact (cgroup_table_well_formed demo_ops (proj1 demo_ops_ok) (proj2 demo_ops_ok)). Defined.

Lemma cgroup_refines_spec_witness :
  (spec_ops demo_ops empty_spec).1 =
    [RId (Some 1); RId (Some 2); RBool true; RBool true; RAttach (Some (inl tt)); RAttach (Some (inl tt)); RBool true; RBool false].
Proof.
  rewrite (cgroup_refines_spec demo_ops (proj1 demo_ops_ok) (proj2 demo_ops_ok)). vm_compute. reflexivity.
Defined.

Lemma demo_table_wf : wf demo_table.
Proof. apply (run_refines demo_ops empty_table empty_wf (proj1 demo_ops_ok)). vm_compute. reflexivity. Qed.

Lemma cgroup_refused_move_escapes_witness :
  exists t', attach 2 7 demo_table = (Some (inr PidsLimit), t') /\ group_of_task t' 7 = None /\
    charge 7 (2 ^ 40) t' = (true, t').
Proof.
  destruct (cgroup_refused_move_escapes demo_table 7 1 2 demo_table_wf) as (t' & H1 & _ & H2 & H3 & _);
    [vm_compute; reflexivity|vm_compute; reflexivity|discriminate|vm_compute; discriminate|].
  exists t'. split; [exact H1|]. split; [exact H2|]. apply H3.
Defined.

Lemma cgroup_limit_write_read_witness :
  exists t', fs_write (file_inode 1 F_MEM_MAX) (render_limit 8192) demo_table = (Some 5, t') /\
    memory_max t' 1 = Some 8192 /\ fs_read t' (file_inode 1 F_MEM_MAX) 0 64 = [56; 49; 57; 50; 10].
Proof.
  apply (cgroup_limit_write_read F_MEM_MAX set_memory_max memory_max demo_table 1 8192 64 lf_mem demo_table_wf).
  - apply (bool_decide_unpack _). vm_compute. exact I.
  - lia.
  - unfold is_u64, U64. lia.
  - vm_compute. discriminate.
Defined.

End CgroupProofs.
