(* ===== verification/Tmpfs.v ===== *)
(** The memory file system: [crates/zenus-fs/src/tmpfs.rs].

    [Tmp] is the node table with the number of slots handed out.  The entries of a
    directory are a list linked through [first_child] and [next_sibling]; a walk of it
    takes a number of turns, and returns [None] when they do not suffice or when an
    index is out of range, where the code would loop or panic.  TmpfsProofs.v shows
    that neither happens. *)

From S2P Require Import Prelude Bytes Text Vfs.

Definition MAX_NODES : nat := 128.
Definition MAX_NAME : nat := 64.
Definition MAX_FILE_SIZE : nat := 1024.
Definition MAX_DIR_ENTRIES : nat := 256.
Definition DEFAULT_FILE_MODE : Z := 0x81A4.
Definition DEFAULT_DIR_MODE : Z := 0x41ED.

Record TmpNode := {
  name : bytes;
  name_len : nat;
  file_type : FileType;
  size : nat;
  data : bytes;
  parent : nat;
  next_sibling : nat;
  first_child : nat;
  uid : Z;
  gid : Z;
  mode : Z;
}.

Record Tmp := { nodes : list TmpNode; node_count : nat }.

Definition EMPTY_NODE : TmpNode :=
  {| name := replicate MAX_NAME 0; name_len := 0; file_type := NoneType; size := 0; data := replicate MAX_FILE_SIZE 0;
     parent := 0; next_sibling := 0; first_child := 0; uid := 0; gid := 0; mode := 0 |}.

Definition ROOT_NODE : TmpNode :=
  {| name := replicate MAX_NAME 0; name_len := 0; file_type := Directory; size := 0; data := replicate MAX_FILE_SIZE 0;
     parent := 0; next_sibling := 0; first_child := 0; uid := 0; gid := 0; mode := DEFAULT_DIR_MODE |}.

(** The table at boot. *)
Definition boot : Tmp := {| nodes := replicate MAX_NODES EMPTY_NODE; node_count := 1 |}.

Definition with_nodes (ns : list TmpNode) (t : Tmp) : Tmp := {| nodes := ns; node_count := node_count t |}.

Definition new_fs (t : Tmp) : Tmp := with_nodes (<[0%nat := ROOT_NODE]> (nodes t)) t.

Definition reset (t : Tmp) : Tmp := {| nodes := <[0%nat := ROOT_NODE]> (replicate MAX_NODES EMPTY_NODE); node_count := 1 |}.

(** [nodes[i]], for an index in range. *)
Definition node (ns : list TmpNode) (i : nat) : TmpNode := default EMPTY_NODE (ns !! i).

(** ** Fields *)

Definition with_links (par next first : nat) (n : TmpNode) : TmpNode :=
  {| name := name n; name_len := name_len n; file_type := file_type n; size := size n; data := data n;
     parent := par; next_sibling := next; first_child := first; uid := uid n; gid := gid n; mode := mode n |}.

Definition with_type (ft : FileType) (n : TmpNode) : TmpNode :=
  {| name := name n; name_len := name_len n; file_type := ft; size := size n; data := data n;
     parent := parent n; next_sibling := next_sibling n; first_child := first_child n; uid := uid n; gid := gid n; mode := mode n |}.

Definition with_data (sz : nat) (d : bytes) (n : TmpNode) : TmpNode :=
  {| name := name n; name_len := name_len n; file_type := file_type n; size := sz; data := d;
     parent := parent n; next_sibling := next_sibling n; first_child := first_child n; uid := uid n; gid := gid n; mode := mode n |}.

Definition with_owner (u g m : Z) (n : TmpNode) : TmpNode :=
  {| name := name n; name_len := name_len n; file_type := file_type n; size := size n; data := data n;
     parent := parent n; next_sibling := next_sibling n; first_child := first_child n; uid := u; gid := g; mode := m |}.

Definition set_name (nm : bytes) (n : TmpNode) : TmpNode :=
  let len := Nat.min (length nm) (MAX_NAME - 1) in
  {| name := splice 0 (take len nm) (name n); name_len := len; file_type := file_type n; size := size n; data := data n;
     parent := parent n; next_sibling := next_sibling n; first_child := first_child n; uid := uid n; gid := gid n; mode := mode n |}.

Definition set_next (next : nat) (n : TmpNode) : TmpNode := with_links (parent n) next (first_child n) n.
Definition set_first (first : nat) (n : TmpNode) : TmpNode := with_links (parent n) (next_sibling n) first n.
Definition set_parent (par : nat) (n : TmpNode) : TmpNode := with_links par (next_sibling n) (first_child n) n.

(** ** Directories *)

Definition alloc_node (t : Tmp) : option nat * Tmp :=
  let idx := node_count t in
  if (MAX_NODES <=? idx)%nat then (None, t)
  else (Some idx, {| nodes := nodes t; node_count := S idx |}).

Definition name_matches (n : TmpNode) (nm : bytes) : bool :=
  (name_len n =? length nm)%nat && bytes_eqb (take (name_len n) (name n)) nm.

(** The outer [None] is a walk that does not end; the inner one is [None] of the code. *)
Fixpoint find_child_loop (fuel : nat) (ns : list TmpNode) (child : nat) (nm : bytes) : option (option nat) :=
  match fuel with
  | O => None
  | S fuel =>
      if (child =? 0)%nat then Some None
      else
        match ns !! child with
        | None => None
        | Some n => if name_matches n nm then Some (Some child) else find_child_loop fuel ns (next_sibling n) nm
        end
  end.

Definition TURNS : nat := S MAX_NODES.

Definition find_child (ns : list TmpNode) (parent_idx : nat) (nm : bytes) : option (option nat) :=
  find_child_loop TURNS ns (first_child (node ns parent_idx)) nm.

(** [while nodes[last].next_sibling != 0] *)
Fixpoint last_sibling (fuel : nat) (ns : list TmpNode) (last : nat) : option nat :=
  match fuel with
  | O => None
  | S fuel =>
      match ns !! last with
      | None => None
      | Some n => if (next_sibling n =? 0)%nat then Some last else last_sibling fuel ns (next_sibling n)
      end
  end.

Definition add_child (ns : list TmpNode) (parent_idx child_idx : nat) : option (list TmpNode) :=
  let ns := alter (set_parent parent_idx) child_idx ns in
  let first := first_child (node ns parent_idx) in
  if (first =? 0)%nat then Some (alter (set_first child_idx) parent_idx ns)
  else (fun last => alter (set_next child_idx) last ns) <$> last_sibling TURNS ns first.

(** ** The operations *)

(** [None] is a write that does not fit. *)
Definition write_end (offset : Z) (buf_len : nat) : option nat :=
  match checked_add offset (Z.of_nat buf_len) with
  | None => None
  | Some e => if Z.of_nat MAX_FILE_SIZE <? e then None else Some (Z.to_nat e)
  end.

(** The bytes copied to a buffer of [n] bytes. *)
Definition read (t : Tmp) (inode : nat) (offset : Z) (n : nat) : option bytes :=
  if (node_count t <=? inode)%nat then None
  else
    let nd := node (nodes t) inode in
    if negb (bool_decide (file_type nd = File)) then Some []
    else if Z.of_nat (size nd) <=? offset then Some []
    else
      let read_len := Z.to_nat (Z.min (Z.of_nat n) (Z.of_nat (size nd) - offset)) in
      Some (take read_len (drop (Z.to_nat offset) (data nd))).

Definition write (inode : nat) (offset : Z) (buf : bytes) (t : Tmp) : option nat * Tmp :=
  if (node_count t <=? inode)%nat then (None, t)
  else
    let nd := node (nodes t) inode in
    if negb (bool_decide (file_type nd = File)) then (None, t)
    else
      match write_end offset (length buf) with
      | None => (None, t)
      | Some e =>
          let start := (e - length buf)%nat in
          let sz := if (size nd <? e)%nat then e else size nd in
          (Some (length buf), with_nodes (alter (with_data sz (splice start buf (data nd))) inode (nodes t)) t)
      end.

(** The name shown for a node, a slash when it is empty or not UTF-8. *)
Definition shown_name (nm : bytes) : bytes :=
  if (length nm =? 0)%nat then [47]
  else match from_utf8 nm with Some _ => nm | None => [47] end.

Fixpoint read_dir_loop (fuel : nat) (ns : list TmpNode) (child : nat) (count : nat)
    : option (list (bytes * FileType * nat)) :=
  match fuel with
  | O => None
  | S fuel =>
      if (child =? 0)%nat || (MAX_DIR_ENTRIES <=? count)%nat then Some []
      else
        match ns !! child with
        | None => None
        | Some n =>
            cons (shown_name (take (name_len n) (name n)), file_type n, child) <$> read_dir_loop fuel ns (next_sibling n) (S count)
        end
  end.

Definition read_dir (t : Tmp) (inode : nat) : option (list (bytes * FileType * nat)) :=
  if (node_count t <=? inode)%nat then Some []
  else read_dir_loop TURNS (nodes t) (first_child (node (nodes t) inode)) 0.

(** The default [lookup] of the trait. *)
Definition lookup (t : Tmp) (parent_inode : nat) (nm : bytes) : option (option nat) :=
  (fun es => snd <$> List.find (fun e => bytes_eqb e.1.1 nm) es) <$> read_dir t parent_inode.

Definition stat (t : Tmp) (inode : nat) : FileStat :=
  if (node_count t <=? inode)%nat then
    {| st_size := 0; st_type := NoneType; st_inode := Z.of_nat inode; st_blocks := 0; st_uid := 0; st_gid := 0; st_mode := 0 |}
  else
    let nd := node (nodes t) inode in
    {| st_size := Z.of_nat (size nd); st_type := file_type nd; st_inode := Z.of_nat inode;
       st_blocks := (Z.of_nat (size nd) + 511) / 512; st_uid := uid nd; st_gid := gid nd; st_mode := mode nd |}.

(** The node [create] fills in. *)
Definition fresh_node (nm : bytes) (ft : FileType) (n : TmpNode) : TmpNode :=
  with_owner 0 0 (match ft with Directory => DEFAULT_DIR_MODE | _ => DEFAULT_FILE_MODE end) (with_type ft (set_name nm n)).

(** The part [create] and [symlink] share: [fill] makes the new node. *)
Definition make (parent_inode : nat) (nm : bytes) (fits : bool) (fill : TmpNode -> TmpNode) (t : Tmp) : option (option nat * Tmp) :=
  if (node_count t <=? parent_inode)%nat then Some (None, t)
  else if negb (bool_decide (file_type (node (nodes t) parent_inode) = Directory)) then Some (None, t)
  else
    match find_child (nodes t) parent_inode nm with
    | None => None
    | Some (Some _) => Some (None, t)
    | Some None =>
        if negb fits then Some (None, t)
        else
          match alloc_node t with
          | (None, t) => Some (None, t)
          | (Some child_idx, t) =>
              (fun ns => (Some child_idx, with_nodes ns t)) <$>
                add_child (alter fill child_idx (nodes t)) parent_inode child_idx
          end
    end.

Definition create (parent_inode : nat) (nm : bytes) (ft : FileType) (t : Tmp) : option (option nat * Tmp) :=
  make parent_inode nm true (fresh_node nm ft) t.

Definition fresh_link (nm target : bytes) (n : TmpNode) : TmpNode :=
  let n := fresh_node nm Symlink n in with_data (length target) (splice 0 target (data n)) n.

Definition symlink (parent_inode : nat) (nm target : bytes) (t : Tmp) : option (option nat * Tmp) :=
  make parent_inode nm (length target <=? MAX_FILE_SIZE)%nat (fresh_link nm target) t.

Definition readlink (t : Tmp) (inode : nat) (n : nat) : option bytes :=
  if (node_count t <=? inode)%nat || negb (bool_decide (file_type (node (nodes t) inode) = Symlink)) then None
  else
    let nd := node (nodes t) inode in
    if (length (data nd) <? size nd)%nat then None else Some (take (Nat.min (size nd) n) (data nd)).

Definition truncate (inode : nat) (sz : Z) (t : Tmp) : bool * Tmp :=
  if (node_count t <=? inode)%nat || negb (bool_decide (file_type (node (nodes t) inode) = File)) then (false, t)
  else if Z.of_nat MAX_FILE_SIZE <? sz then (false, t)
  else
    let nd := node (nodes t) inode in
    let new := Z.to_nat sz in
    let d := if (size nd <? new)%nat then splice (size nd) (replicate (new - size nd) 0) (data nd) else data nd in
    (true, with_nodes (alter (with_data new d) inode (nodes t)) t).

Fixpoint unlink_loop (fuel : nat) (ns : list TmpNode) (pidx prev child : nat) (nm : bytes) : option (bool * list TmpNode) :=
  match fuel with
  | O => None
  | S fuel =>
      if (child =? 0)%nat then Some (false, ns)
      else
        match ns !! child with
        | None => None
        | Some n =>
            if name_matches n nm then
              if bool_decide (file_type n = Directory) && negb (first_child n =? 0)%nat then Some (false, ns)
              else
                let ns' := if (prev =? 0)%nat then alter (set_first (next_sibling n)) pidx ns
                           else alter (set_next (next_sibling n)) prev ns in
                Some (true, alter (with_type NoneType) child ns')
            else unlink_loop fuel ns pidx child (next_sibling n) nm
        end
  end.

Definition unlink (parent_inode : nat) (nm : bytes) (t : Tmp) : option (bool * Tmp) :=
  if (node_count t <=? parent_inode)%nat then Some (false, t)
  else
    (fun r => (r.1, with_nodes r.2 t)) <$>
      unlink_loop TURNS (nodes t) parent_inode 0 (first_child (node (nodes t) parent_inode)) nm.

Definition chmod (inode : nat) (m : Z) (t : Tmp) : bool * Tmp :=
  if (node_count t <=? inode)%nat then (false, t)
  else
    (true, with_nodes (alter (fun n => with_owner (uid n) (gid n) (Z.lor (Z.land (mode n) 0xF000) (Z.land m 0x0FFF)) n) inode (nodes t)) t).

Definition chown (inode : nat) (u g : Z) (t : Tmp) : bool * Tmp :=
  if (node_count t <=? inode)%nat then (false, t)
  else (true, with_nodes (alter (fun n => with_owner u g (mode n) n) inode (nodes t)) t).
