(* ===== verification/TmpfsProofs.v ===== *)
(** Theorems about the memory file system of Tmpfs.v.

    The node table implements nodes with lists of children ([Spec]); the simulation
    [sim] says that the linked lists of the table are these lists.  Every call returns what
    the call on the specification returns, which includes that every walk ends. *)

From S2P Require Import Prelude Bytes Text Vfs Tmpfs.

(** ** The specification *)

Record SNode := {
  m_name : bytes;
  m_type : FileType;
  m_size : nat;
  m_data : bytes;
  m_uid : Z;
  m_gid : Z;
  m_mode : Z;
  m_kids : list nat;
}.

Notation Spec := (list SNode).

Module TmpSpec.

Definition with_kids (ks : list nat) (n : SNode) : SNode :=
  {| m_name := m_name n; m_type := m_type n; m_size := m_size n; m_data := m_data n; m_uid := m_uid n; m_gid := m_gid n;
     m_mode := m_mode n; m_kids := ks |}.

Definition with_type (ft : FileType) (n : SNode) : SNode :=
  {| m_name := m_name n; m_type := ft; m_size := m_size n; m_data := m_data n; m_uid := m_uid n; m_gid := m_gid n;
     m_mode := m_mode n; m_kids := m_kids n |}.

Definition with_data (sz : nat) (d : bytes) (n : SNode) : SNode :=
  {| m_name := m_name n; m_type := m_type n; m_size := sz; m_data := d; m_uid := m_uid n; m_gid := m_gid n;
     m_mode := m_mode n; m_kids := m_kids n |}.

Definition with_owner (u g m : Z) (n : SNode) : SNode :=
  {| m_name := m_name n; m_type := m_type n; m_size := m_size n; m_data := m_data n; m_uid := u; m_gid := g;
     m_mode := m; m_kids := m_kids n |}.

Definition has_name (s : Spec) (nm : bytes) (c : nat) : bool :=
  match s !! c with
  | Some n => bytes_eqb (m_name n) nm
  | None => false
  end.

(** The first child with a name. *)
Definition find (s : Spec) (ks : list nat) (nm : bytes) : option nat := List.find (has_name s nm) ks.

Definition new_node (nm : bytes) (ft : FileType) : SNode :=
  {| m_name := take 63 nm; m_type := ft; m_size := 0; m_data := replicate MAX_FILE_SIZE 0; m_uid := 0; m_gid := 0;
     m_mode := match ft with Directory => DEFAULT_DIR_MODE | _ => DEFAULT_FILE_MODE end; m_kids := [] |}.

Definition new_link (nm target : bytes) : SNode :=
  with_data (length target) (splice 0 target (replicate MAX_FILE_SIZE 0)) (new_node nm Symlink).

(** A new node becomes the last child of its directory. *)
Definition make (p : nat) (nm : bytes) (fits : bool) (n : SNode) (s : Spec) : option nat * Spec :=
  match s !! p with
  | None => (None, s)
  | Some d =>
      if bool_decide (m_type d = Directory) && negb (bool_decide (is_Some (find s (m_kids d) nm))) && fits &&
         (length s <? MAX_NODES)%nat
      then (Some (length s), <[p := with_kids (m_kids d ++ [length s]) d]> s ++ [n])
      else (None, s)
  end.

(** The first child with the name leaves the directory, unless it is a directory with
    children. *)
Definition unlink (p : nat) (nm : bytes) (s : Spec) : bool * Spec :=
  match s !! p with
  | None => (false, s)
  | Some d =>
      match find s (m_kids d) nm with
      | None => (false, s)
      | Some c =>
          let keep := match s !! c with Some n => bool_decide (m_type n = Directory) && negb (bool_decide (m_kids n = [])) | None => true end in
          if keep then (false, s)
          else (true, alter (with_type NoneType) c (<[p := with_kids (filter (fun k => k <> c) (m_kids d)) d]> s))
      end
  end.

Definition read (s : Spec) (i : nat) (offset : Z) (n : nat) : option bytes :=
  match s !! i with
  | None => None
  | Some nd =>
      if bool_decide (m_type nd = File) && (offset <? Z.of_nat (m_size nd))
      then Some (take n (drop (Z.to_nat offset) (take (m_size nd) (m_data nd)))) else Some []
  end.

Definition write (i : nat) (offset : Z) (buf : bytes) (s : Spec) : option nat * Spec :=
  match s !! i with
  | None => (None, s)
  | Some nd =>
      if bool_decide (m_type nd = File) && (offset + Z.of_nat (length buf) <=? Z.of_nat MAX_FILE_SIZE)
      then
        let e := (Z.to_nat offset + length buf)%nat in
        (Some (length buf), <[i := with_data (Nat.max e (m_size nd)) (splice (Z.to_nat offset) buf (m_data nd)) nd]> s)
      else (None, s)
  end.

Definition truncate (i : nat) (sz : Z) (s : Spec) : bool * Spec :=
  match s !! i with
  | None => (false, s)
  | Some nd =>
      if bool_decide (m_type nd = File) && (sz <=? Z.of_nat MAX_FILE_SIZE)
      then
        let new := Z.to_nat sz in
        (true, <[i := with_data new (take (m_size nd) (m_data nd) ++ replicate (new - m_size nd) 0 ++ drop (Nat.max new (m_size nd)) (m_data nd)) nd]> s)
      else (false, s)
  end.

(** The entry shown for a node. *)
Definition entry (s : Spec) (c : nat) : bytes * FileType * nat :=
  match s !! c with Some n => (shown_name (m_name n), m_type n, c) | None => ([], NoneType, c) end.

Definition read_dir (s : Spec) (i : nat) : list (bytes * FileType * nat) :=
  match s !! i with
  | None => []
  | Some d => map (entry s) (m_kids d)
  end.

Definition lookup (s : Spec) (p : nat) (nm : bytes) : option nat :=
  snd <$> List.find (fun e => bytes_eqb e.1.1 nm) (read_dir s p).

Definition readlink (s : Spec) (i n : nat) : option bytes :=
  match s !! i with
  | Some nd => if bool_decide (m_type nd = Symlink) then Some (take (Nat.min (m_size nd) n) (m_data nd)) else None
  | None => None
  end.

Definition stat (s : Spec) (i : nat) : FileStat :=
  match s !! i with
  | None => {| st_size := 0; st_type := NoneType; st_inode := Z.of_nat i; st_blocks := 0; st_uid := 0; st_gid := 0; st_mode := 0 |}
  | Some nd => {| st_size := Z.of_nat (m_size nd); st_type := m_type nd; st_inode := Z.of_nat i;
      st_blocks := (Z.of_nat (m_size nd) + 511) / 512; st_uid := m_uid nd; st_gid := m_gid nd; st_mode := m_mode nd |}
  end.

Definition chmod (i : nat) (m : Z) (s : Spec) : bool * Spec :=
  match s !! i with
  | None => (false, s)
  | Some nd => (true, <[i := with_owner (m_uid nd) (m_gid nd) (Z.lor (Z.land (m_mode nd) 0xF000) (Z.land m 0x0FFF)) nd]> s)
  end.

Definition chown (i : nat) (u g : Z) (s : Spec) : bool * Spec :=
  match s !! i with
  | None => (false, s)
  | Some nd => (true, <[i := with_owner u g (m_mode nd) nd]> s)
  end.

(** A slot without a node, and the root directory. *)
Definition nothing : SNode :=
  {| m_name := []; m_type := NoneType; m_size := 0; m_data := replicate MAX_FILE_SIZE 0; m_uid := 0; m_gid := 0; m_mode := 0; m_kids := [] |}.

Definition root : SNode := with_owner 0 0 DEFAULT_DIR_MODE (with_type Directory nothing).

Definition boot : Spec := [nothing].

End TmpSpec.

(** ** Linked lists *)

(** [i] starts the list [l] of node numbers. *)
Fixpoint chain (ns : list TmpNode) (i : nat) (l : list nat) : Prop :=
  match l with
  | [] => i = 0%nat
  | c :: l => i = c /\ c <> 0%nat /\ exists n, ns !! c = Some n /\ chain ns (next_sibling n) l
  end.

Lemma chain_frame ns ns' l : forall i,
  chain ns i l -> (forall c n, c ∈ l -> ns !! c = Some n -> exists n', ns' !! c = Some n' /\ next_sibling n' = next_sibling n) ->
  chain ns' i l.
Proof.
  induction l as [|c l IH]; intros i Hc H; [done|]. destruct Hc as (-> & H0 & n & Hn & Hc).
  destruct (H c n) as (n' & Hn' & E); [by left|done|]. split_and!; [done|done|]. exists n'. split; [done|]. rewrite E.
  apply IH; [done|]. intros d m Hd. apply H. by right.
Qed.

Lemma chain_nil ns i l : chain ns i l -> (i =? 0)%nat = bool_decide (l = []).
Proof. destruct l as [|c l]; cbn; [intros ->; done|]. intros (-> & H & _). by apply Nat.eqb_neq. Qed.

Lemma chain_nodes ns i l c : chain ns i l -> c ∈ l -> is_Some (ns !! c).
Proof.
  revert i. induction l as [|d l IH]; intros i Hc Hl; [by apply not_elem_of_nil in Hl|].
  destruct Hc as (-> & _ & n & Hn & Hc). apply elem_of_cons in Hl as [->|Hl]; [done|]. by apply (IH (next_sibling n)).
Qed.

(** Appending to a list. *)
Lemma chain_snoc ns l c k nk : forall i,
  chain ns i (l ++ [c]) -> NoDup (l ++ [c]) -> k <> 0%nat -> k ∉ l ++ [c] -> ns !! k = Some nk -> next_sibling nk = 0%nat ->
  chain (alter (set_next k) c ns) i (l ++ [c; k]).
Proof.
  induction l as [|d l IH]; intros i Hc Hd Hk Hn Hl Hz; cbn [app chain] in *.
  - destruct Hc as (-> & H0 & n & Hcn & _). split_and!; [done|done|]. exists (set_next k n).
    split; [by rewrite list_lookup_alter_eq, Hcn|]. split_and!; [done|done|]. exists nk.
    split; [|done]. rewrite list_lookup_alter_ne; [done|]. intros ->. apply Hn. by left.
  - destruct Hc as (-> & H0 & n & Hcn & Hc). apply NoDup_cons in Hd as [Hdn Hd]. split_and!; [done|done|].
    exists n. split; [rewrite list_lookup_alter_ne; [done|]; intros <-; apply Hdn; set_solver|].
    apply IH; [done|done|done|set_solver|done|done].
Qed.

(** Removing the successor of [q]. *)
Lemma chain_remove ns l q c l2 nc : forall i,
  chain ns i (l ++ q :: c :: l2) -> NoDup (l ++ q :: c :: l2) -> ns !! c = Some nc ->
  chain (alter (set_next (next_sibling nc)) q ns) i (l ++ q :: l2).
Proof.
  induction l as [|d l IH]; intros i Hc Hd Hl; cbn [app chain] in *.
  - destruct Hc as (-> & H0 & n & Hqn & (_ & _ & n' & Hcn & Hc)). rewrite Hl in Hcn. injection Hcn as <-.
    split_and!; [done|done|]. exists (set_next (next_sibling nc) n). split; [by rewrite list_lookup_alter_eq, Hqn|].
    cbn [set_next with_links next_sibling]. apply (chain_frame ns); [done|]. intros e m He Hm. exists m.
    split; [|done]. rewrite list_lookup_alter_ne; [done|]. intros <-. apply NoDup_cons in Hd as [Hq _]. set_solver.
  - destruct Hc as (-> & H0 & n & Hdn & Hc). apply NoDup_cons in Hd as [Hd1 Hd]. split_and!; [done|done|].
    exists n. split; [rewrite list_lookup_alter_ne; [done|]; intros <-; apply Hd1; set_solver|]. by apply IH.
Qed.

Lemma last_sibling_chain ns l c : forall fuel i,
  chain ns i (l ++ [c]) -> (length l < fuel)%nat -> last_sibling fuel ns i = Some c.
Proof.
  induction l as [|d l IH]; intros fuel i Hc Hf; (destruct fuel as [|fuel]; [cbn in Hf; lia|]); cbn [app chain last_sibling] in *.
  - destruct Hc as (-> & _ & n & -> & ->). done.
  - destruct Hc as (-> & _ & n & -> & Hc). pose proof (chain_nil _ _ _ Hc) as Hn.
    rewrite bool_decide_eq_false_2 in Hn by (by destruct l). rewrite Hn. apply IH; [done|cbn in Hf; lia].
Qed.

(** ** The simulation *)

Definition node_rel (n : TmpNode) (sn : SNode) : Prop :=
  take (name_len n) (name n) = m_name sn /\ length (name n) = MAX_NAME /\ (name_len n < MAX_NAME)%nat /\
  file_type n = m_type sn /\ size n = m_size sn /\ data n = m_data sn /\ length (data n) = MAX_FILE_SIZE /\
  (size n <= MAX_FILE_SIZE)%nat /\ uid n = m_uid sn /\ gid n = m_gid sn /\ mode n = m_mode sn.

Record sim (t : Tmp) (s : Spec) : Prop := {
  sim_count : node_count t = length s;
  sim_len : length (nodes t) = MAX_NODES;
  sim_range : (0 < length s <= MAX_NODES)%nat;
  sim_node : forall i sn, s !! i = Some sn ->
    exists n, nodes t !! i = Some n /\ node_rel n sn /\ chain (nodes t) (first_child n) (m_kids sn);
  sim_fresh : forall j, (length s <= j < MAX_NODES)%nat -> nodes t !! j = Some EMPTY_NODE;
  sim_nodup : NoDup (concat (map m_kids s));
  sim_bound : forall c, c ∈ concat (map m_kids s) -> (0 < c < length s)%nat;
}.

Lemma kids_in (s : Spec) i sn c : s !! i = Some sn -> c ∈ m_kids sn -> c ∈ concat (map m_kids s).
Proof.
  intros Hi Hc. apply list_elem_of_In, in_concat. exists (m_kids sn). split; [|by apply list_elem_of_In].
  apply in_map, list_elem_of_In. by eapply list_elem_of_lookup_2.
Qed.

Lemma concat_split (s : Spec) i sn : s !! i = Some sn ->
  exists K1 K2, concat (map m_kids s) = K1 ++ m_kids sn ++ K2 /\
    forall sn', concat (map m_kids (<[i := sn']> s)) = K1 ++ m_kids sn' ++ K2.
Proof.
  intros Hi. apply list_elem_of_split_length in Hi as (s1 & s2 & -> & ->).
  exists (concat (map m_kids s1)), (concat (map m_kids s2)). split.
  - by rewrite map_app, concat_app.
  - intros sn'. rewrite insert_app_r_alt, Nat.sub_diag by lia. cbn [insert list_insert]. by rewrite map_app, concat_app.
Qed.

(** Two nodes share no child. *)
Lemma kids_disjoint (s : Spec) i j si sj c :
  NoDup (concat (map m_kids s)) -> s !! i = Some si -> s !! j = Some sj -> i <> j -> c ∈ m_kids si -> c ∉ m_kids sj.
Proof.
  intros Hd Hi Hj Hne Hc Hc'. destruct (concat_split s i si Hi) as (K1 & K2 & E & Hins).
  assert (<[i := TmpSpec.with_kids [] si]> s !! j = Some sj) as Hj' by (by rewrite list_lookup_insert_ne).
  pose proof (kids_in _ j sj c Hj' Hc') as Hin. rewrite Hins in Hin. cbn [TmpSpec.with_kids m_kids app] in Hin.
  rewrite E in Hd. apply NoDup_app in Hd as (_ & H1 & Hd). apply NoDup_app in Hd as (_ & H2 & _).
  apply elem_of_app in Hin as [Hin|Hin]; [apply (H1 c Hin); set_solver|by apply (H2 c Hc)].
Qed.

Lemma kids_nodup (s : Spec) i sn : NoDup (concat (map m_kids s)) -> s !! i = Some sn -> NoDup (m_kids sn).
Proof.
  intros Hd Hi. destruct (concat_split s i sn Hi) as (K1 & K2 & E & _). rewrite E in Hd.
  apply NoDup_app in Hd as (_ & _ & Hd). by apply NoDup_app in Hd as (Hd & _).
Qed.

(** A list of children is short, so the walks have turns enough. *)
Lemma kids_short t s i sn : sim t s -> s !! i = Some sn -> (length (m_kids sn) < MAX_NODES)%nat.
Proof.
  intros Hs Hi. pose proof (kids_nodup s i sn (sim_nodup _ _ Hs) Hi) as Hd.
  assert (m_kids sn ⊆+ seq 1 127) as Hsub.
  { apply NoDup_submseteq; [done|]. intros c Hc. apply elem_of_seq.
    pose proof (sim_bound _ _ Hs c (kids_in s i sn c Hi Hc)). pose proof (sim_range _ _ Hs). unfold MAX_NODES in *. lia. }
  apply submseteq_length in Hsub. rewrite length_seq in Hsub. unfold MAX_NODES. lia.
Qed.

Lemma sim_lookup t s i : sim t s ->
  (node_count t <=? i)%nat = match s !! i with Some _ => false | None => true end.
Proof.
  intros Hs. rewrite (sim_count _ _ Hs). destruct (s !! i) as [sn|] eqn:E.
  - apply Nat.leb_gt. by apply lookup_lt_Some in E.
  - apply Nat.leb_le. by apply lookup_ge_None in E.
Qed.

Lemma sim_nd t s i sn : sim t s -> s !! i = Some sn ->
  node_rel (node (nodes t) i) sn /\ nodes t !! i = Some (node (nodes t) i) /\
  chain (nodes t) (first_child (node (nodes t) i)) (m_kids sn).
Proof. intros Hs Hi. destruct (sim_node _ _ Hs i sn Hi) as (n & Hn & Hr & Hc). unfold node. by rewrite Hn. Qed.

(** Matching the name of a node of the table and of the specification. *)
Lemma name_matches_rel n sn nm : node_rel n sn -> name_matches n nm = bytes_eqb (m_name sn) nm.
Proof.
  intros (Hn & Hl & Hlt & _). unfold name_matches. rewrite <-Hn. destruct (bytes_eqb _ nm) eqn:E; [|by rewrite andb_false_r].
  apply bytes_eqb_eq in E. rewrite andb_true_r, <-E, length_take. apply Nat.eqb_eq. lia.
Qed.

Lemma has_name_rel t s c nm n : sim t s -> (0 < c < length s)%nat -> nodes t !! c = Some n ->
  name_matches n nm = TmpSpec.has_name s nm c.
Proof.
  intros Hs Hc Hn. destruct (lookup_lt_is_Some_2 s c) as [sn Hsn]; [lia|].
  destruct (sim_node _ _ Hs c sn Hsn) as (n' & Hn' & Hr & _). simplify_eq.
  unfold TmpSpec.has_name. rewrite Hsn. by apply name_matches_rel.
Qed.

Lemma find_loop_rel t s nm l : forall fuel i,
  sim t s -> chain (nodes t) i l -> (forall c, c ∈ l -> (0 < c < length s)%nat) -> (length l < fuel)%nat ->
  find_child_loop fuel (nodes t) i nm = Some (TmpSpec.find s l nm).
Proof.
  induction l as [|c l IH]; intros fuel i Hs Hc Hb Hf; (destruct fuel as [|fuel]; [cbn in Hf; lia|]);
    cbn [find_child_loop chain TmpSpec.find List.find] in *; [by rewrite Hc|].
  destruct Hc as (-> & H0 & n & Hn & Hc). rewrite (proj2 (Nat.eqb_neq _ _) H0), Hn.
  rewrite (has_name_rel t s c nm n Hs (Hb c ltac:(by left)) Hn).
  unfold TmpSpec.find. cbn [List.find]. destruct (TmpSpec.has_name s nm c); [done|].
  apply IH; [done|done|intros d Hd; apply Hb; by right|cbn in Hf; lia].
Qed.

Lemma find_child_rel t s p d nm : sim t s -> s !! p = Some d -> find_child (nodes t) p nm = Some (TmpSpec.find s (m_kids d) nm).
Proof.
  intros Hs Hp. destruct (sim_nd t s p d Hs Hp) as (_ & _ & Hc). apply find_loop_rel; [done|done| |].
  - intros c Hk. apply (sim_bound _ _ Hs). by apply (kids_in s p d).
  - pose proof (kids_short t s p d Hs Hp). unfold TURNS. lia.
Qed.

(** Changing a node without its links. *)
Lemma sim_alter t s i sn f sn' :
  sim t s -> s !! i = Some sn -> m_kids sn' = m_kids sn ->
  (forall n, node_rel n sn -> node_rel (f n) sn' /\ next_sibling (f n) = next_sibling n /\ first_child (f n) = first_child n) ->
  sim (with_nodes (alter f i (nodes t)) t) (<[i := sn']> s).
Proof.
  intros Hs Hi Hk Hf. pose proof (lookup_lt_Some _ _ _ Hi) as Hlt.
  assert (forall j l, chain (nodes t) j l -> chain (alter f i (nodes t)) j l) as Hch.
  { intros j l Hc. apply (chain_frame (nodes t)); [done|]. intros c n _ Hn. destruct (decide (c = i)) as [->|Hne].
    - exists (f n). rewrite list_lookup_alter_eq, Hn. split; [done|].
      destruct (sim_node _ _ Hs i sn Hi) as (n' & Hn' & Hr & _). simplify_eq. by apply Hf.
    - exists n. by rewrite list_lookup_alter_ne. }
  destruct Hs as [H1 H2 H3 H4 H5 H6 H7]. split; cbn [with_nodes nodes node_count]; rewrite ?length_insert, ?length_alter; try done.
  - intros j sj Hj. destruct (decide (j = i)) as [->|Hne].
    + rewrite list_lookup_insert_eq in Hj by done. injection Hj as <-. destruct (H4 i sn Hi) as (n & Hn & Hr & Hc).
      exists (f n). destruct (Hf n Hr) as (Hr' & _ & Hfc). rewrite list_lookup_alter_eq, Hn, Hfc, Hk. by auto.
    + rewrite list_lookup_insert_ne in Hj by done. destruct (H4 j sj Hj) as (n & Hn & Hr & Hc).
      exists n. rewrite list_lookup_alter_ne by done. by auto.
  - intros j Hj. rewrite list_lookup_alter_ne by lia. by apply H5.
  - destruct (concat_split s i sn Hi) as (K1 & K2 & E & ->). rewrite Hk, <-E. done.
  - destruct (concat_split s i sn Hi) as (K1 & K2 & E & ->). rewrite Hk, <-E. done.
Qed.

(** ** New nodes *)

Lemma snoc_cases {A} (l : list A) : l = [] \/ exists l' x, l = l' ++ [x].
Proof. destruct l as [|x l] using rev_ind; [by left|]. right. by exists l, x. Qed.

(** Linking the fresh node [k] in as the last child of [p]. *)
Lemma add_child_chain ns p k np nk ks :
  p <> k -> k <> 0%nat -> k ∉ ks -> NoDup ks -> (length ks < MAX_NODES)%nat ->
  ns !! p = Some np -> ns !! k = Some nk -> next_sibling nk = 0%nat -> chain ns (first_child np) ks ->
  exists ns' np', add_child ns p k = Some ns' /\ ns' !! p = Some np' /\ chain ns' (first_child np') (ks ++ [k]) /\
    length ns' = length ns /\ (forall i, i <> p -> i <> k -> i ∉ ks -> ns' !! i = ns !! i) /\
    forall i n, ns !! i = Some n -> exists n', ns' !! i = Some n' /\
      (forall sn, node_rel n sn -> node_rel n' sn) /\ (i <> p -> first_child n' = first_child n) /\
      (i ∉ ks -> next_sibling n' = next_sibling n).
Proof.
  intros Hpk Hk0 Hkk Hd Hlen Hp Hk Hz Hc. unfold add_child. set (ns1 := alter (set_parent p) k ns).
  assert (ns1 !! p = Some np) as Hp1 by (unfold ns1; by rewrite list_lookup_alter_ne).
  assert (ns1 !! k = Some (set_parent p nk)) as Hk1 by (unfold ns1; by rewrite list_lookup_alter_eq, Hk).
  assert (forall i n, ns !! i = Some n -> exists n', ns1 !! i = Some n' /\ (forall sn, node_rel n sn -> node_rel n' sn) /\
            first_child n' = first_child n /\ next_sibling n' = next_sibling n) as Hns1.
  { intros i n Hi. unfold ns1. destruct (decide (i = k)) as [->|Hne].
    - exists (set_parent p n). by rewrite list_lookup_alter_eq, Hi.
    - exists n. by rewrite list_lookup_alter_ne. }
  assert (chain ns1 (first_child np) ks) as Hc1.
  { apply (chain_frame ns); [done|]. intros c n _ Hn. destruct (Hns1 c n Hn) as (n' & Hn' & _ & _ & E). by exists n'. }
  assert (node ns1 p = np) as -> by (unfold node; by rewrite Hp1). rewrite (chain_nil _ _ _ Hc1).
  destruct (snoc_cases ks) as [->|(l & c & ->)].
  - cbn [bool_decide]. exists (alter (set_first k) p ns1), (set_first k np).
    split; [done|]. split; [by rewrite list_lookup_alter_eq, Hp1|]. split_and!.
    + cbn [app chain set_first with_links first_child]. split_and!; [done|done|]. exists (set_parent p nk).
      by rewrite list_lookup_alter_ne.
    + unfold ns1. by rewrite !length_alter.
    + intros i H1 H2 _. unfold ns1. by rewrite !list_lookup_alter_ne.
    + intros i n Hi. destruct (Hns1 i n Hi) as (n' & Hn' & Hr & Hf & Hx). destruct (decide (i = p)) as [->|Hne].
      * exists (set_first k n'). rewrite list_lookup_alter_eq, Hn'. by split_and!.
      * exists n'. by rewrite list_lookup_alter_ne.
  - rewrite bool_decide_eq_false_2 by (by destruct l).
    rewrite (last_sibling_chain ns1 l c TURNS) by (done || rewrite length_app in Hlen; cbn in Hlen; unfold TURNS; lia).
    cbn [fmap option_fmap option_map]. exists (alter (set_next k) c ns1).
    assert (exists np', alter (set_next k) c ns1 !! p = Some np' /\ first_child np' = first_child np) as (np' & Hnp' & Hfp).
    { destruct (decide (c = p)) as [->|Hne]; [exists (set_next k np); by rewrite list_lookup_alter_eq, Hp1|].
      exists np. by rewrite list_lookup_alter_ne. }
    exists np'. split; [done|]. split; [done|]. split_and!.
    + rewrite Hfp, <-app_assoc. by eapply chain_snoc.
    + unfold ns1. by rewrite !length_alter.
    + intros i _ H2 H3. unfold ns1. rewrite !list_lookup_alter_ne; [done|done|]. intros ->. apply H3. set_solver.
    + intros i n Hi. destruct (Hns1 i n Hi) as (n' & Hn' & Hr & Hf & Hx). destruct (decide (i = c)) as [->|Hne].
      * exists (set_next k n'). rewrite list_lookup_alter_eq, Hn'. split_and!; [done|done|done|]. set_solver.
      * exists n'. by rewrite list_lookup_alter_ne.
Qed.

(** Giving [p] another list of children. *)
Lemma sim_relink t s p d ns' np' ks' :
  sim t s -> s !! p = Some d -> ns' !! p = Some np' -> chain ns' (first_child np') ks' -> length ns' = length (nodes t) ->
  (forall j, (length s <= j)%nat -> ns' !! j = nodes t !! j) ->
  (forall i n, nodes t !! i = Some n -> exists n', ns' !! i = Some n' /\ (forall sn, node_rel n sn -> node_rel n' sn) /\
    (i <> p -> first_child n' = first_child n) /\ (i ∉ m_kids d -> next_sibling n' = next_sibling n)) ->
  NoDup (concat (map m_kids (<[p := TmpSpec.with_kids ks' d]> s))) ->
  (forall c, c ∈ concat (map m_kids (<[p := TmpSpec.with_kids ks' d]> s)) -> (0 < c < length s)%nat) ->
  sim (with_nodes ns' t) (<[p := TmpSpec.with_kids ks' d]> s).
Proof.
  intros Hs Hp Hp' Hc Hl Hfr Hrest Hd Hb. pose proof Hs as [H1 H2 H3 H4 H5 H6 H7].
  pose proof (lookup_lt_Some _ _ _ Hp) as Hlt.
  split; cbn [with_nodes nodes node_count]; rewrite ?length_insert; [done|congruence|done| | |done|done].
  - intros i si Hi. destruct (decide (i = p)) as [->|Hne].
    + rewrite list_lookup_insert_eq in Hi by done. injection Hi as <-. exists np'. split; [done|]. split; [|done].
      destruct (sim_nd t s p d Hs Hp) as (Hr & Hn & _). destruct (Hrest p _ Hn) as (n' & Hn' & Hrel & _).
      rewrite Hp' in Hn'. injection Hn' as <-. apply (Hrel d Hr).
    + rewrite list_lookup_insert_ne in Hi by done. destruct (sim_nd t s i si Hs Hi) as (Hr & Hn & Hci).
      destruct (Hrest i _ Hn) as (n' & Hn' & Hrel & Hfst & _). exists n'. split; [done|]. split; [by apply Hrel|].
      rewrite Hfst by done. apply (chain_frame (nodes t)); [done|]. intros c n Hci' Hcn.
      destruct (Hrest c n Hcn) as (m & Hm & _ & _ & Hnx). exists m. split; [done|]. apply Hnx.
      by apply (kids_disjoint s i p si d c H6).
  - intros j Hj. rewrite Hfr by lia. apply H5. lia.
Qed.

(** A new node that is not linked in yet. *)
Lemma sim_extend t s fill sn :
  sim t s -> (length s < MAX_NODES)%nat -> node_rel (fill EMPTY_NODE) sn -> first_child (fill EMPTY_NODE) = 0%nat -> m_kids sn = [] ->
  sim {| nodes := alter fill (length s) (nodes t); node_count := S (length s) |} (s ++ [sn]).
Proof.
  intros Hs Hlt Hr Hfc Hk. pose proof Hs as [H1 H2 H3 H4 H5 H6 H7].
  assert (concat (map m_kids (s ++ [sn])) = concat (map m_kids s)) as HK.
  { rewrite map_app, concat_app. cbn [map concat]. by rewrite Hk, !app_nil_r. }
  split; cbn [nodes node_count]; rewrite ?length_app, ?length_alter, ?HK; cbn [length]; [lia|done|lia| | |done|].
  - intros i si Hi. apply lookup_app_Some in Hi as [Hi|[Hge Hi]].
    + pose proof (lookup_lt_Some _ _ _ Hi) as Hil. destruct (H4 i si Hi) as (n & Hn & Hrn & Hc). exists n.
      rewrite list_lookup_alter_ne by lia. split; [done|]. split; [done|]. apply (chain_frame (nodes t)); [done|].
      intros c m Hcm Hm. exists m. rewrite list_lookup_alter_ne; [done|]. intros <-.
      pose proof (H7 _ (kids_in s i si _ Hi Hcm)). lia.
    + apply list_lookup_singleton_Some in Hi as [Hi0 <-]. assert (i = length s) as -> by lia. exists (fill EMPTY_NODE).
      rewrite list_lookup_alter_eq, H5 by lia. split; [done|]. split; [done|]. by rewrite Hfc, Hk.
  - intros j Hj. rewrite list_lookup_alter_ne by lia. apply H5. lia.
  - intros c Hc. specialize (H7 c Hc). lia.
Qed.

Lemma make_refines t s p nm fits fill sn :
  sim t s -> (fits = true -> node_rel (fill EMPTY_NODE) sn) -> next_sibling (fill EMPTY_NODE) = 0%nat ->
  first_child (fill EMPTY_NODE) = 0%nat -> m_kids sn = [] ->
  exists t', make p nm fits fill t = Some ((TmpSpec.make p nm fits sn s).1, t') /\ sim t' (TmpSpec.make p nm fits sn s).2.
Proof.
  intros Hs Hr Hx Hfc Hk. unfold make, TmpSpec.make. rewrite (sim_lookup t s p Hs).
  destruct (s !! p) as [d|] eqn:Hp; [|by exists t].
  destruct (sim_nd t s p d Hs Hp) as (Hrd & _ & _). rewrite (proj1 (proj2 (proj2 (proj2 Hrd)))).
  destruct (bool_decide (m_type d = Directory)); cbn [negb andb]; [|by exists t].
  rewrite (find_child_rel t s p d nm Hs Hp). destruct (TmpSpec.find s (m_kids d) nm) as [c|]; [by exists t|].
  rewrite (bool_decide_eq_false_2 (is_Some None)) by (by intros [? ?]). cbn [negb andb]. destruct fits; cbn [negb andb]; [|by exists t].
  unfold alloc_node. rewrite (sim_count _ _ Hs), Nat.leb_antisym.
  destruct (Nat.ltb_spec (length s) MAX_NODES) as [Hlt|Hge]; cbn [negb fst snd]; [|by exists t].
  cbn [nodes]. set (k := length s) in *. pose proof (lookup_lt_Some _ _ _ Hp) as Hplt. fold k in Hplt.
  pose proof (sim_extend t s fill sn Hs Hlt (Hr eq_refl) Hfc Hk) as Hs1. fold k in Hs1. set (t1 := {| nodes := alter fill k (nodes t); node_count := S k |}) in *.
  assert ((s ++ [sn]) !! p = Some d) as Hp1 by (rewrite lookup_app_l by (fold k; lia); done).
  destruct (sim_nd t1 _ p d Hs1 Hp1) as (_ & Hn1 & Hc1).
  assert (k ∉ concat (map m_kids s)) as Hkn by (intros Hc%(sim_bound _ _ Hs); fold k in Hc; lia).
  assert (k ∉ m_kids d) as Hkd by (intros Hc; by apply Hkn, (kids_in s p d)).
  assert (nodes t1 !! k = Some (fill EMPTY_NODE)) as Hnk.
  { unfold t1. cbn [nodes]. rewrite list_lookup_alter_eq. rewrite (sim_fresh _ _ Hs) by (fold k; lia). done. }
  destruct (add_child_chain (nodes t1) p k (node (nodes t1) p) (fill EMPTY_NODE) (m_kids d)) as (ns' & np' & Hadd & Hp' & Hcp & Hlen & Hfree & Hrest);
    [lia|lia|done|by apply (kids_nodup s p d (sim_nodup _ _ Hs))|by apply (kids_short t s p d)|done|done|done|done|].
  change (alter fill k (nodes t)) with (nodes t1). exists (with_nodes ns' t1). rewrite Hadd. split; [done|].
  rewrite <-insert_app_l by (fold k; lia). destruct (concat_split s p d Hp) as (K1 & K2 & EK & HK).
  assert (concat (map m_kids (<[p := TmpSpec.with_kids (m_kids d ++ [k]) d]> (s ++ [sn]))) ≡ₚ k :: concat (map m_kids s)) as Hperm.
  { rewrite insert_app_l by (fold k; lia). rewrite map_app, concat_app. cbn [map concat]. rewrite HK, EK, Hk, !app_nil_r.
    cbn [TmpSpec.with_kids m_kids]. rewrite <-app_assoc. cbn [app]. by rewrite app_assoc, <-Permutation_middle, <-app_assoc. }
  apply (sim_relink t1 (s ++ [sn]) p d ns' np'); [done|done|done|done|done| |done| |].
  - intros j Hj. rewrite length_app in Hj. cbn [length] in Hj. fold k in Hj. apply Hfree; [lia|lia|].
    intros Hc%(kids_in s p d _ Hp)%(sim_bound _ _ Hs). fold k in Hc. lia.
  - rewrite Hperm. constructor; [done|apply Hs].
  - intros c Hc. rewrite Hperm in Hc. rewrite length_app. cbn [length]. fold k.
    apply elem_of_cons in Hc as [->|Hc]; [lia|]. pose proof (sim_bound _ _ Hs c Hc) as Hb. fold k in Hb. lia.
Qed.

(** ** Removed nodes *)

(** What the walk of [unlink] leaves when the found node [c] comes after [q], [0] for none. *)
Definition unlinked (ns : list TmpNode) (p q c : nat) (n : TmpNode) : bool * list TmpNode :=
  if bool_decide (file_type n = Directory) && negb (first_child n =? 0)%nat then (false, ns)
  else
    (true, alter (with_type NoneType) c (if (q =? 0)%nat then alter (set_first (next_sibling n)) p ns
                                         else alter (set_next (next_sibling n)) q ns)).

Lemma unlink_loop_rel t s nm p l : forall fuel prev i,
  sim t s -> chain (nodes t) i l -> (forall c, c ∈ l -> (0 < c < length s)%nat) -> (length l < fuel)%nat ->
  match TmpSpec.find s l nm with
  | None => unlink_loop fuel (nodes t) p prev i nm = Some (false, nodes t)
  | Some c => exists l1 l2, l = l1 ++ c :: l2 /\
      unlink_loop fuel (nodes t) p prev i nm = Some (unlinked (nodes t) p (default prev (last l1)) c (node (nodes t) c))
  end.
Proof.
  induction l as [|c l IH]; intros fuel prev i Hs Hc Hb Hf; (destruct fuel as [|fuel]; [cbn in Hf; lia|]);
    cbn [unlink_loop chain] in *; [by subst i|].
  destruct Hc as (-> & H0 & n & Hn & Hc). rewrite (proj2 (Nat.eqb_neq _ _) H0), Hn.
  rewrite (has_name_rel t s c nm n Hs (Hb c ltac:(by left)) Hn).
  unfold TmpSpec.find. cbn [List.find]. destruct (TmpSpec.has_name s nm c).
  - exists [], l. split; [done|]. unfold unlinked, node. rewrite Hn. cbn [default last]. by destruct (bool_decide _ && _).
  - specialize (IH fuel c (next_sibling n) Hs Hc (fun d Hd => Hb d (list_elem_of_further _ _ _ Hd)) ltac:(cbn in Hf; lia)).
    unfold TmpSpec.find in IH. destruct (List.find (TmpSpec.has_name s nm) l) as [e|]; [|done].
    destruct IH as (l1 & l2 & -> & ->). exists (c :: l1), l2. split; [done|].
    rewrite last_cons. by destruct (last l1).
Qed.

Lemma filter_absent (l : list nat) c : c ∉ l -> filter (fun k => k <> c) l = l.
Proof.
  induction l as [|k l IH]; intros Hc; [done|]. apply not_elem_of_cons in Hc as [Hk Hc].
  rewrite filter_cons_True by congruence. by rewrite IH.
Qed.

Lemma filter_out (l1 l2 : list nat) c : NoDup (l1 ++ c :: l2) -> filter (fun k => k <> c) (l1 ++ c :: l2) = l1 ++ l2.
Proof.
  intros Hd. apply NoDup_app in Hd as (_ & H1 & H2). apply NoDup_cons in H2 as [H2 _].
  rewrite filter_app, filter_cons_False by (intros H; by apply H). rewrite !filter_absent; [done|done|].
  intros Hk. apply (H1 c Hk). by left.
Qed.

(** Taking [c] out of the list of [p]. *)
Lemma unlink_chain t s p d l1 c l2 :
  sim t s -> s !! p = Some d -> m_kids d = l1 ++ c :: l2 ->
  sim (with_nodes (if (default 0 (last l1) =? 0)%nat then alter (set_first (next_sibling (node (nodes t) c))) p (nodes t)
                   else alter (set_next (next_sibling (node (nodes t) c))) (default 0%nat (last l1)) (nodes t)) t)
      (<[p := TmpSpec.with_kids (l1 ++ l2) d]> s).
Proof.
  intros Hs Hp Hk. destruct (sim_nd t s p d Hs Hp) as (Hr & Hn & Hc).
  pose proof (kids_nodup s p d (sim_nodup _ _ Hs) Hp) as Hd. rewrite Hk in Hc, Hd.
  assert (forall e, e ∈ m_kids d -> (0 < e < length s)%nat) as Hb by (intros e He; apply (sim_bound _ _ Hs), (kids_in s p d e Hp He)).
  assert (nodes t !! c = Some (node (nodes t) c)) as Hcn.
  { destruct (lookup_lt_is_Some_2 s c) as [sc Hsc]; [apply Hb; rewrite Hk; set_solver|]. apply (sim_nd t s c sc Hs Hsc). }
  destruct (concat_split s p d Hp) as (K1 & K2 & EK & HK).
  assert (concat (map m_kids s) ≡ₚ c :: concat (map m_kids (<[p := TmpSpec.with_kids (l1 ++ l2) d]> s))) as Hperm.
  { rewrite HK, EK, Hk. cbn [TmpSpec.with_kids m_kids]. rewrite <-!app_assoc. cbn [app].
    rewrite (app_assoc K1 l1 (c :: l2 ++ K2)), (app_assoc K1 l1 (l2 ++ K2)). symmetry. apply Permutation_middle. }
  assert (NoDup (concat (map m_kids (<[p := TmpSpec.with_kids (l1 ++ l2) d]> s)))) as Hnd.
  { pose proof (sim_nodup _ _ Hs) as H. rewrite Hperm in H. by apply NoDup_cons in H as [_ H]. }
  assert (forall e, e ∈ concat (map m_kids (<[p := TmpSpec.with_kids (l1 ++ l2) d]> s)) -> (0 < e < length s)%nat) as Hbd.
  { intros e He. apply (sim_bound _ _ Hs). rewrite Hperm. by right. }
  pose proof (lookup_lt_Some _ _ _ Hp) as Hlt.
  destruct l1 as [|q l1 _] using rev_ind.
  - cbn [last default Nat.eqb app] in *.
    apply (sim_relink t s p d _ (set_first (next_sibling (node (nodes t) c)) (node (nodes t) p))); [done|done| | |by rewrite length_alter| | |done|done].
    + by rewrite list_lookup_alter_eq, Hn.
    + destruct Hc as (_ & _ & n & Hcn' & Hc). rewrite Hcn in Hcn'. injection Hcn' as <-.
      apply (chain_frame (nodes t)); [done|]. intros e m _ He. destruct (decide (e = p)) as [->|Hne].
      * exists (set_first (next_sibling (node (nodes t) c)) m). by rewrite list_lookup_alter_eq, He.
      * exists m. by rewrite list_lookup_alter_ne.
    + intros j Hj. rewrite list_lookup_alter_ne by lia. done.
    + intros i n Hi. destruct (decide (i = p)) as [->|Hne].
      * eexists. rewrite list_lookup_alter_eq, Hi. split; [done|]. split; [done|]. by split.
      * exists n. rewrite list_lookup_alter_ne by done. by split.
  - rewrite last_snoc. change (default 0%nat (Some q)) with q. assert (0 < q < length s)%nat as Hq by (apply Hb; rewrite Hk; set_solver).
    rewrite (proj2 (Nat.eqb_neq q 0)) by lia. rewrite <-app_assoc in Hc, Hd. cbn [app] in Hc, Hd.
    pose proof (chain_remove (nodes t) l1 q c l2 _ _ Hc Hd Hcn) as Hc'.
    assert (forall i n, nodes t !! i = Some n -> exists n', alter (set_next (next_sibling (node (nodes t) c))) q (nodes t) !! i = Some n' /\
      (forall sn, node_rel n sn -> node_rel n' sn) /\ first_child n' = first_child n /\ (i <> q -> next_sibling n' = next_sibling n)) as Hall.
    { intros i n Hi. destruct (decide (i = q)) as [->|Hne].
      - eexists. rewrite list_lookup_alter_eq, Hi. by split_and!.
      - exists n. rewrite list_lookup_alter_ne by done. by split_and!. }
    destruct (Hall p _ Hn) as (np' & Hp' & _ & Hf & _).
    apply (sim_relink t s p d _ np'); [done|done|done| |by rewrite length_alter| | |done|done].
    + rewrite Hf. rewrite <-app_assoc. done.
    + intros j Hj. rewrite list_lookup_alter_ne by lia. done.
    + intros i n Hi. destruct (Hall i n Hi) as (n' & H1 & H2 & H3 & H4). exists n'. split_and!; [done|done|done|].
      intros Hni. apply H4. intros ->. apply Hni. rewrite Hk. set_solver.
Qed.

Lemma alter_insert {A} (f : A -> A) i (l : list A) x : l !! i = Some x -> alter f i l = <[i := f x]> l.
Proof.
  intros Hi. apply list_eq. intros j. destruct (decide (i = j)) as [<-|Hne].
  - rewrite list_lookup_alter_eq, Hi, list_lookup_insert_eq; [done|]. by apply lookup_lt_Some in Hi.
  - by rewrite list_lookup_alter_ne, list_lookup_insert_ne.
Qed.

Lemma unlink_refines t s p nm :
  sim t s -> exists t', unlink p nm t = Some ((TmpSpec.unlink p nm s).1, t') /\ sim t' (TmpSpec.unlink p nm s).2.
Proof.
  intros Hs. unfold unlink, TmpSpec.unlink. rewrite (sim_lookup t s p Hs).
  destruct (s !! p) as [d|] eqn:Hp; [|by exists t]. destruct (sim_nd t s p d Hs Hp) as (Hr & Hn & Hc).
  assert (forall e, e ∈ m_kids d -> (0 < e < length s)%nat) as Hb by (intros e He; apply (sim_bound _ _ Hs), (kids_in s p d e Hp He)).
  pose proof (unlink_loop_rel t s nm p (m_kids d) TURNS 0 _ Hs Hc Hb) as Hl.
  specialize (Hl ltac:(pose proof (kids_short t s p d Hs Hp); unfold TURNS; lia)).
  destruct (TmpSpec.find s (m_kids d) nm) as [c|]; [|rewrite Hl; exists t; by destruct t].
  destruct Hl as (l1 & l2 & Hk & ->). destruct (lookup_lt_is_Some_2 s c) as [sc Hsc]; [apply Hb; rewrite Hk; set_solver|].
  destruct (sim_nd t s c sc Hs Hsc) as (Hrc & Hcn & Hcc). rewrite Hsc. unfold unlinked.
  rewrite (chain_nil _ _ _ Hcc), (proj1 (proj2 (proj2 (proj2 Hrc)))).
  destruct (bool_decide (m_type sc = Directory) && _); [exists t; by destruct t|].
  eexists. split; [done|]. cbn [snd]. pose proof (unlink_chain t s p d l1 c l2 Hs Hp Hk) as Hs1.
  rewrite Hk, filter_out by (rewrite <-Hk; apply (kids_nodup s p d (sim_nodup _ _ Hs) Hp)).
  set (s1 := <[p := _]> s) in *. destruct (lookup_lt_is_Some_2 s1 c) as [sc1 Hsc1].
  { unfold s1. rewrite length_insert. apply Hb. rewrite Hk. set_solver. }
  rewrite (alter_insert _ _ _ _ Hsc1). apply (sim_alter _ s1 c sc1 (with_type NoneType) _ Hs1 Hsc1); [done|].
  intros n (?&?&?&?&?&?&?&?&?&?&?). by split_and!.
Qed.

(** ** The other calls *)

Lemma read_refines t s i offset n : sim t s -> 0 <= offset -> read t i offset n = TmpSpec.read s i offset n.
Proof.
  intros Hs Ho. unfold read, TmpSpec.read. rewrite (sim_lookup t s i Hs). destruct (s !! i) as [nd|] eqn:Hi; [|done].
  destruct (sim_nd t s i nd Hs Hi) as ((_ & _ & _ & -> & -> & -> & _) & _ & _).
  destruct (bool_decide (m_type nd = File)); cbn [negb andb]; [|done].
  destruct (Z.leb_spec (Z.of_nat (m_size nd)) offset), (Z.ltb_spec offset (Z.of_nat (m_size nd))); try lia; [done|].
  f_equal. rewrite skipn_firstn_comm, take_take. f_equal. lia.
Qed.

Lemma write_refines t s i offset buf : sim t s -> 0 <= offset -> 
  (write i offset buf t).1 = (TmpSpec.write i offset buf s).1 /\ sim (write i offset buf t).2 (TmpSpec.write i offset buf s).2.
Proof.
  intros Hs Ho. unfold write, TmpSpec.write. rewrite (sim_lookup t s i Hs). destruct (s !! i) as [nd|] eqn:Hi; [|done].
  destruct (sim_nd t s i nd Hs Hi) as ((_ & _ & _ & -> & -> & -> & Hl & _) & _ & _).
  destruct (bool_decide (m_type nd = File)); cbn [negb andb]; [|done]. unfold write_end, checked_add.
  destruct (Z.leb_spec (offset + Z.of_nat (length buf)) (Z.of_nat MAX_FILE_SIZE)) as [Hle|Hgt].
  - assert (offset + Z.of_nat (length buf) < U64) as Hu by (unfold MAX_FILE_SIZE, U64 in *; lia).
    rewrite (proj2 (Z.ltb_lt _ _) Hu). rewrite (proj2 (Z.ltb_ge _ _)) by lia. split; [done|].
    cbn [snd]. rewrite Z2Nat.inj_add, Nat2Z.id, Nat.add_sub by lia.
    apply (sim_alter t s i nd); [done|done|done|]. intros n (?&?&?&?&?&E&?&?&?&?&?).
    split; [|done]. unfold node_rel. cbn [with_data name name_len file_type size data uid gid mode TmpSpec.with_data m_name m_type m_size m_data m_uid m_gid m_mode].
    assert (length (m_data nd) = MAX_FILE_SIZE) as Hm by congruence. assert (size n = m_size nd) as Hsz by done.
    rewrite length_splice by (rewrite Hm; lia). split_and!; try done; destruct (Nat.ltb_spec (m_size nd) (Z.to_nat offset + length buf)); lia.
  - destruct (_ <? U64); [|done]. rewrite (proj2 (Z.ltb_lt _ _)) by lia. done.
Qed.

Lemma splice_take_drop a b (l : bytes) : (a + b <= length l)%nat ->
  splice a (replicate b 0) l = take a l ++ replicate b 0 ++ drop (a + b) l.
Proof. intros H. unfold splice. by rewrite length_replicate. Qed.

Lemma truncate_refines t s i sz : sim t s -> 0 <= sz ->
  (truncate i sz t).1 = (TmpSpec.truncate i sz s).1 /\ sim (truncate i sz t).2 (TmpSpec.truncate i sz s).2.
Proof.
  intros Hs Ho. unfold truncate, TmpSpec.truncate. rewrite (sim_lookup t s i Hs). destruct (s !! i) as [nd|] eqn:Hi; [|done].
  destruct (sim_nd t s i nd Hs Hi) as ((_ & _ & _ & -> & -> & -> & _) & _ & _).
  destruct (bool_decide (m_type nd = File)); cbn [negb andb orb]; [|done]. rewrite Z.ltb_antisym.
  destruct (Z.leb_spec sz (Z.of_nat MAX_FILE_SIZE)) as [Hle|Hgt]; cbn [negb]; [|done]. split; [done|].
  cbn [snd]. apply (sim_alter t s i nd); [done|done|done|]. intros n (?&?&?&?&E1&E2&E3&?&?&?&?).
  split; [|done]. unfold node_rel. cbn [with_data name name_len file_type size data uid gid mode TmpSpec.with_data m_name m_type m_size m_data m_uid m_gid m_mode].
  assert (length (m_data nd) = MAX_FILE_SIZE) as Hm by congruence.
  assert ((if (m_size nd <? Z.to_nat sz)%nat then splice (m_size nd) (replicate (Z.to_nat sz - m_size nd) 0) (m_data nd) else m_data nd) =
    take (m_size nd) (m_data nd) ++ replicate (Z.to_nat sz - m_size nd) 0 ++ drop (Nat.max (Z.to_nat sz) (m_size nd)) (m_data nd)) as ->.
  { destruct (Nat.ltb_spec (m_size nd) (Z.to_nat sz)).
    - rewrite splice_take_drop by lia. do 3 f_equal. lia.
    - replace (Z.to_nat sz - m_size nd)%nat with 0%nat by lia. rewrite Nat.max_r by lia. cbn [replicate app]. by rewrite take_drop. }
  split_and!; try done; [|lia]. rewrite !length_app, length_take, length_drop, length_replicate. lia.
Qed.

Lemma readlink_refines t s i n : sim t s -> readlink t i n = TmpSpec.readlink s i n.
Proof.
  intros Hs. unfold readlink, TmpSpec.readlink. rewrite (sim_lookup t s i Hs). destruct (s !! i) as [nd|] eqn:Hi; [|done].
  destruct (sim_nd t s i nd Hs Hi) as ((_ & _ & _ & -> & -> & -> & Hl & Hz & _) & _ & _).
  destruct (bool_decide (m_type nd = Symlink)); cbn [negb orb]; [|done].
  rewrite (proj2 (Nat.ltb_ge _ _)); [done|lia].
Qed.

Lemma stat_refines t s i : sim t s -> stat t i = TmpSpec.stat s i.
Proof.
  intros Hs. unfold stat, TmpSpec.stat. rewrite (sim_lookup t s i Hs). destruct (s !! i) as [nd|] eqn:Hi; [|done].
  destruct (sim_nd t s i nd Hs Hi) as ((_ & _ & _ & -> & -> & _ & _ & _ & -> & -> & ->) & _ & _). done.
Qed.

Lemma read_dir_loop_rel t s l : forall fuel i count,
  sim t s -> chain (nodes t) i l -> (forall c, c ∈ l -> (0 < c < length s)%nat) -> (length l < fuel)%nat ->
  (count + length l <= MAX_DIR_ENTRIES)%nat -> read_dir_loop fuel (nodes t) i count = Some (map (TmpSpec.entry s) l).
Proof.
  induction l as [|c l IH]; intros fuel i count Hs Hc Hb Hf Hm; (destruct fuel as [|fuel]; [cbn in Hf; lia|]);
    cbn [read_dir_loop chain map length] in *; [by subst i|].
  destruct Hc as (-> & H0 & n & Hn & Hc). rewrite (proj2 (Nat.eqb_neq _ _) H0), (proj2 (Nat.leb_gt _ _)), Hn by lia. cbn [orb].
  rewrite (IH fuel (next_sibling n) (S count)); [|done|done|intros d Hd; apply Hb; by right|lia|lia].
  destruct (lookup_lt_is_Some_2 s c) as [sn Hsn]; [apply Hb; by left|].
  destruct (sim_nd t s c sn Hs Hsn) as ((Hnm & _ & _ & Hty & _) & Hn' & _). rewrite Hn in Hn'. injection Hn' as Hn'.
  unfold TmpSpec.entry. rewrite Hsn, <-Hnm, <-Hty, Hn'. done.
Qed.

Lemma read_dir_refines t s i : sim t s -> read_dir t i = Some (TmpSpec.read_dir s i).
Proof.
  intros Hs. unfold read_dir, TmpSpec.read_dir. rewrite (sim_lookup t s i Hs). destruct (s !! i) as [d|] eqn:Hi; [|done].
  destruct (sim_nd t s i d Hs Hi) as (_ & _ & Hc). pose proof (kids_short t s i d Hs Hi) as Hk.
  apply read_dir_loop_rel; [done|done| |unfold TURNS; lia|unfold MAX_NODES, MAX_DIR_ENTRIES in *; lia].
  intros e He. apply (sim_bound _ _ Hs), (kids_in s i d e Hi He).
Qed.

Lemma chmod_refines t s i m : sim t s ->
  (chmod i m t).1 = (TmpSpec.chmod i m s).1 /\ sim (chmod i m t).2 (TmpSpec.chmod i m s).2.
Proof.
  intros Hs. unfold chmod, TmpSpec.chmod. rewrite (sim_lookup t s i Hs). destruct (s !! i) as [nd|] eqn:Hi; [|done].
  split; [done|]. apply (sim_alter t s i nd); [done|done|done|]. intros n (?&?&?&?&?&?&?&?&?&?&->).
  split; [|done]. unfold node_rel. cbn. by split_and!.
Qed.

Lemma chown_refines t s i u g : sim t s ->
  (chown i u g t).1 = (TmpSpec.chown i u g s).1 /\ sim (chown i u g t).2 (TmpSpec.chown i u g s).2.
Proof.
  intros Hs. unfold chown, TmpSpec.chown. rewrite (sim_lookup t s i Hs). destruct (s !! i) as [nd|] eqn:Hi; [|done].
  split; [done|]. apply (sim_alter t s i nd); [done|done|done|]. intros n (?&?&?&?&?&?&?&?&?&?&?).
  split; [|done]. unfold node_rel. cbn. by split_and!.
Qed.

(** ** Mounting *)

Lemma root_rel : node_rel ROOT_NODE TmpSpec.root.
Proof. unfold node_rel. cbn [ROOT_NODE name name_len file_type size data uid gid mode]. rewrite !length_replicate. split_and!; try done; unfold MAX_NAME; lia. Qed.

Lemma new_fs_refines t s : sim t s -> sim (new_fs t) (<[0%nat := TmpSpec.root]> s).
Proof.
  intros Hs. pose proof Hs as [H1 H2 H3 H4 H5 H6 H7]. destruct (lookup_lt_is_Some_2 s 0) as [d Hd]; [lia|].
  destruct (concat_split s 0 d Hd) as (K1 & K2 & EK & HK).
  assert (forall e, e ∈ K1 ++ K2 -> e ∈ concat (map m_kids s)) as Hsub by (rewrite EK; set_solver).
  split; cbn [new_fs with_nodes nodes node_count]; rewrite ?length_insert, ?HK; cbn [TmpSpec.root m_kids app]; try done.
  - intros i si Hi. destruct (decide (i = 0%nat)) as [->|Hne].
    + rewrite list_lookup_insert_eq in Hi by lia. injection Hi as <-. exists ROOT_NODE.
      split; [apply list_lookup_insert_eq; lia|]. split; [apply root_rel|done].
    + rewrite list_lookup_insert_ne in Hi by done. destruct (H4 i si Hi) as (n & Hn & Hr & Hc). exists n.
      rewrite list_lookup_insert_ne by done. split; [done|]. split; [done|]. apply (chain_frame (nodes t)); [done|].
      intros c m Hcm Hm. exists m. rewrite list_lookup_insert_ne; [done|]. pose proof (H7 c (kids_in s i si c Hi Hcm)). lia.
  - intros j Hj. rewrite list_lookup_insert_ne by lia. by apply H5.
  - rewrite EK in H6. clear -H6. apply NoDup_app in H6 as (H1 & H2 & H3). apply NoDup_app in H3 as (H3 & H4 & H5).
    apply NoDup_app. split_and!; [done| |done]. intros x Hx. specialize (H2 x Hx). set_solver.
  - intros c Hc. apply H7, Hsub, Hc.
Qed.

Lemma boot_sim : sim boot TmpSpec.boot.
Proof.
  split; cbn [boot nodes node_count TmpSpec.boot length map concat app TmpSpec.nothing m_kids].
  - done.
  - apply length_replicate.
  - unfold MAX_NODES. lia.
  - intros i sn Hi. apply list_lookup_singleton_Some in Hi as [-> <-]. exists EMPTY_NODE. split; [done|]. split; [|done].
    unfold node_rel. cbn [EMPTY_NODE name name_len file_type size data uid gid mode]. rewrite !length_replicate. split_and!; try done; unfold MAX_NAME; lia.
  - intros j Hj. apply lookup_replicate_2. lia.
  - constructor.
  - intros c Hc. by apply not_elem_of_nil in Hc.
Qed.

Lemma reset_refines t : sim (reset t) [TmpSpec.root].
Proof. apply (new_fs_refines boot TmpSpec.boot boot_sim). Qed.

(** ** Sequences of calls *)

Inductive TmpCall :=
  | Mount
  | Reset
  | Create (p : nat) (nm : bytes) (ft : FileType)
  | Link (p : nat) (nm target : bytes)
  | Unlink (p : nat) (nm : bytes)
  | WriteAt (i : nat) (offset : Z) (buf : bytes)
  | Truncate (i : nat) (sz : Z)
  | Chmod (i : nat) (m : Z)
  | Chown (i : nat) (u g : Z)
  | ReadAt (i : nat) (offset : Z) (n : nat)
  | ReadDir (i : nat)
  | Lookup (p : nat) (nm : bytes)
  | ReadLink (i n : nat)
  | Stat (i : nat).

Inductive Answer :=
  | Nothing
  | Inode (o : option nat)
  | Flag (b : bool)
  | Count (o : option nat)
  | Data (o : option bytes)
  | Entries (l : list (bytes * FileType * nat))
  | Status (st : FileStat).

(** Offsets and sizes are unsigned. *)
Definition call_ok (c : TmpCall) : Prop :=
  match c with
  | WriteAt _ o _ | ReadAt _ o _ | Truncate _ o => 0 <= o
  | _ => True
  end.

Definition call (c : TmpCall) (t : Tmp) : option (Answer * Tmp) :=
  match c with
  | Mount => Some (Nothing, new_fs t)
  | Reset => Some (Nothing, reset t)
  | Create p nm ft => prod_map Inode id <$> create p nm ft t
  | Link p nm target => prod_map Inode id <$> symlink p nm target t
  | Unlink p nm => prod_map Flag id <$> unlink p nm t
  | WriteAt i o buf => Some (prod_map Count id (write i o buf t))
  | Truncate i sz => Some (prod_map Flag id (truncate i sz t))
  | Chmod i m => Some (prod_map Flag id (chmod i m t))
  | Chown i u g => Some (prod_map Flag id (chown i u g t))
  | ReadAt i o n => Some (Data (read t i o n), t)
  | ReadDir i => (fun es => (Entries es, t)) <$> read_dir t i
  | Lookup p nm => (fun r => (Inode r, t)) <$> lookup t p nm
  | ReadLink i n => Some (Data (readlink t i n), t)
  | Stat i => Some (Status (stat t i), t)
  end.

Definition spec_call (c : TmpCall) (s : Spec) : Answer * Spec :=
  match c with
  | Mount => (Nothing, <[0%nat := TmpSpec.root]> s)
  | Reset => (Nothing, [TmpSpec.root])
  | Create p nm ft => prod_map Inode id (TmpSpec.make p nm true (TmpSpec.new_node nm ft) s)
  | Link p nm target => prod_map Inode id (TmpSpec.make p nm (length target <=? MAX_FILE_SIZE)%nat (TmpSpec.new_link nm target) s)
  | Unlink p nm => prod_map Flag id (TmpSpec.unlink p nm s)
  | WriteAt i o buf => prod_map Count id (TmpSpec.write i o buf s)
  | Truncate i sz => prod_map Flag id (TmpSpec.truncate i sz s)
  | Chmod i m => prod_map Flag id (TmpSpec.chmod i m s)
  | Chown i u g => prod_map Flag id (TmpSpec.chown i u g s)
  | ReadAt i o n => (Data (TmpSpec.read s i o n), s)
  | ReadDir i => (Entries (TmpSpec.read_dir s i), s)
  | Lookup p nm => (Inode (TmpSpec.lookup s p nm), s)
  | ReadLink i n => (Data (TmpSpec.readlink s i n), s)
  | Stat i => (Status (TmpSpec.stat s i), s)
  end.

Fixpoint calls (cs : list TmpCall) (t : Tmp) : option (list Answer * Tmp) :=
  match cs with
  | [] => Some ([], t)
  | c :: cs =>
      match call c t with
      | None => None
      | Some (a, t) => prod_map (cons a) id <$> calls cs t
      end
  end.

Fixpoint spec_calls (cs : list TmpCall) (s : Spec) : list Answer * Spec :=
  match cs with
  | [] => ([], s)
  | c :: cs => let '(a, s) := spec_call c s in prod_map (cons a) id (spec_calls cs s)
  end.

(** The node a new entry starts from. *)
Lemma fresh_node_rel nm ft : node_rel (fresh_node nm ft EMPTY_NODE) (TmpSpec.new_node nm ft).
Proof.
  unfold node_rel, fresh_node. cbn [with_owner with_type set_name name name_len file_type size data uid gid mode EMPTY_NODE
    TmpSpec.new_node m_name m_type m_size m_data m_uid m_gid m_mode].
  assert (length (take (Nat.min (length nm) (MAX_NAME - 1)) nm) = Nat.min (length nm) (MAX_NAME - 1)) as Hl by (rewrite length_take; lia).
  rewrite length_splice by (rewrite length_replicate, Hl; unfold MAX_NAME; lia). rewrite !length_replicate.
  split_and!; try done; [|unfold MAX_NAME; lia|unfold MAX_FILE_SIZE; lia].
  unfold splice. rewrite firstn_O. cbn [app]. rewrite take_app_length' by done. unfold MAX_NAME.
  destruct (Nat.le_gt_cases (length nm) 63).
  - rewrite Nat.min_l by lia. rewrite !take_ge by lia. done.
  - rewrite Nat.min_r by lia. done.
Qed.

Lemma fresh_link_rel nm target : (length target <= MAX_FILE_SIZE)%nat ->
  node_rel (fresh_link nm target EMPTY_NODE) (TmpSpec.new_link nm target).
Proof.
  intros Hl. destruct (fresh_node_rel nm Symlink) as (?&?&?&?&?&E&E2&?&?&?&?). unfold fresh_link, TmpSpec.new_link, node_rel.
  cbn [with_data name name_len file_type size data uid gid mode TmpSpec.with_data m_name m_type m_size m_data m_uid m_gid m_mode].
  rewrite length_splice by (rewrite E2; lia). by split_and!.
Qed.

Lemma call_refines c t s : sim t s -> call_ok c ->
  exists t', call c t = Some ((spec_call c s).1, t') /\ sim t' (spec_call c s).2.
Proof.
  intros Hs Hok. destruct c; cbn [call spec_call call_ok fst snd] in *.
  - exists (new_fs t). split; [done|by apply new_fs_refines].
  - exists (reset t). split; [done|apply reset_refines].
  - destruct (make_refines t s p nm true (fresh_node nm ft) (TmpSpec.new_node nm ft) Hs) as (t' & E & Hs'); [intros _; apply fresh_node_rel|done|done|done|].
    exists t'. unfold create. by rewrite E.
  - destruct (make_refines t s p nm (length target <=? MAX_FILE_SIZE)%nat (fresh_link nm target) (TmpSpec.new_link nm target) Hs) as (t' & E & Hs');
      [intros H%Nat.leb_le; by apply fresh_link_rel|done|done|done|]. exists t'. unfold symlink. by rewrite E.
  - destruct (unlink_refines t s p nm Hs) as (t' & -> & Hs'). by exists t'.
  - destruct (write_refines t s i offset buf Hs Hok) as [E Hs']. eexists. split; [|exact Hs']. unfold prod_map. cbn [fst snd]. by rewrite <-E.
  - destruct (truncate_refines t s i sz Hs Hok) as [E Hs']. eexists. split; [|exact Hs']. unfold prod_map. cbn [fst snd]. by rewrite <-E.
  - destruct (chmod_refines t s i m Hs) as [E Hs']. eexists. split; [|exact Hs']. unfold prod_map. cbn [fst snd]. by rewrite <-E.
  - destruct (chown_refines t s i u g Hs) as [E Hs']. eexists. split; [|exact Hs']. unfold prod_map. cbn [fst snd]. by rewrite <-E.
  - exists t. by rewrite (read_refines t s).
  - exists t. by rewrite (read_dir_refines t s).
  - exists t. unfold lookup. by rewrite (read_dir_refines t s).
  - exists t. by rewrite (readlink_refines t s).
  - exists t. by rewrite (stat_refines t s).
Qed.

Lemma calls_refine cs : forall t s, sim t s -> Forall call_ok cs ->
  exists t', calls cs t = Some ((spec_calls cs s).1, t') /\ sim t' (spec_calls cs s).2.
Proof.
  induction cs as [|c cs IH]; intros t s Hs Hok; [by exists t|]. apply Forall_cons in Hok as [Hc Hok].
  destruct (call_refines c t s Hs Hc) as (t1 & E & Hs1). cbn [calls spec_calls]. rewrite E.
  destruct (spec_call c s) as [a s1]. cbn [fst snd] in *. destruct (IH t1 s1 Hs1 Hok) as (t2 & -> & Hs2). by exists t2.
Qed.

(** ** Entries after a creation *)

Lemma entry_kids (s : Spec) p d ks c : s !! p = Some d -> TmpSpec.entry (<[p := TmpSpec.with_kids ks d]> s) c = TmpSpec.entry s c.
Proof.
  intros Hp. unfold TmpSpec.entry. destruct (decide (c = p)) as [->|Hne].
  - rewrite list_lookup_insert_eq by (by apply lookup_lt_Some in Hp). by rewrite Hp.
  - by rewrite list_lookup_insert_ne.
Qed.

Lemma entry_app (s : Spec) sn c : (c < length s)%nat -> TmpSpec.entry (s ++ [sn]) c = TmpSpec.entry s c.
Proof. intros Hc. unfold TmpSpec.entry. by rewrite lookup_app_l. Qed.

Lemma entries_made (s : Spec) p d sn ks : s !! p = Some d -> (forall c, c ∈ ks -> (0 < c < length s)%nat) -> forall kp,
  map (TmpSpec.entry (<[p := TmpSpec.with_kids kp d]> s ++ [sn])) ks = map (TmpSpec.entry s) ks.
Proof.
  intros Hp Hb kp. apply map_ext_in. intros c Hc%list_elem_of_In%Hb.
  rewrite entry_app by (rewrite length_insert; lia). by apply entry_kids.
Qed.

(** What a directory lists after a node [sn] was made in [p]. *)
Lemma read_dir_made t s p d sn q : sim t s -> s !! p = Some d -> m_kids sn = [] ->
  TmpSpec.read_dir (<[p := TmpSpec.with_kids (m_kids d ++ [length s]) d]> s ++ [sn]) q =
  TmpSpec.read_dir s q ++ (if (q =? p)%nat then [(shown_name (m_name sn), m_type sn, length s)] else []).
Proof.
  intros Hs Hp Hk. set (s' := <[p := _]> s ++ [sn]).
  assert (forall j dj, s !! j = Some dj -> forall c, c ∈ m_kids dj -> (0 < c < length s)%nat) as Hb
    by (intros j dj Hj c Hc; apply (sim_bound _ _ Hs), (kids_in s j dj c Hj Hc)).
  pose proof (lookup_lt_Some _ _ _ Hp) as Hplt. unfold TmpSpec.read_dir.
  destruct (Nat.eqb_spec q p) as [->|Hne].
  - rewrite Hp. unfold s' at 1. rewrite lookup_app_l by (by rewrite length_insert). rewrite list_lookup_insert_eq by done.
    cbn [TmpSpec.with_kids m_kids]. rewrite map_app. f_equal; [apply (entries_made s p d sn _ Hp), (Hb p d Hp)|].
    cbn [map]. unfold TmpSpec.entry, s'. rewrite lookup_app_r by (by rewrite length_insert). rewrite length_insert, Nat.sub_diag. done.
  - rewrite app_nil_r. destruct (decide (q < length s)%nat) as [Hq|Hq].
    + unfold s' at 1. rewrite lookup_app_l by (by rewrite length_insert). rewrite list_lookup_insert_ne by done.
      destruct (s !! q) as [dq|] eqn:E; [|done]. apply (entries_made s p d sn _ Hp), (Hb q dq E).
    + rewrite (proj2 (lookup_ge_None s q)) by lia. unfold s' at 1.
      rewrite lookup_app_r by (rewrite length_insert; lia). rewrite length_insert.
      destruct (q - length s)%nat; [|done]. cbn. by rewrite Hk.
Qed.

Lemma shown_name_eq nm x : shown_name x = nm -> nm <> [47] -> x = nm.
Proof. unfold shown_name. destruct (length x =? 0)%nat; [by intros <-|]. by destruct (from_utf8 x); intros <-. Qed.

Lemma shown_name_length x : (length (shown_name x) <= Nat.max 1 (length x))%nat.
Proof. unfold shown_name. destruct (length x =? 0)%nat; [cbn; lia|]. destruct (from_utf8 x); cbn; lia. Qed.

Lemma shown_name_valid nm : (0 < length nm)%nat -> is_Some (from_utf8 nm) -> shown_name nm = nm.
Proof. intros Hl [x Hx]. unfold shown_name. rewrite Hx. destruct (Nat.eqb_spec (length nm) 0); [lia|done]. Qed.

(** A directory without a child of the name shows no entry of the name. *)
Lemma find_none_shown (s : Spec) nm ks : nm <> [47] -> nm <> [] -> TmpSpec.find s ks nm = None ->
  List.find (fun e => bytes_eqb e.1.1 nm) (map (TmpSpec.entry s) ks) = None.
Proof.
  intros H1 H2. unfold TmpSpec.find. induction ks as [|c ks IH]; [done|]. cbn [List.find map].
  destruct (TmpSpec.has_name s nm c) eqn:E; [done|]. intros H. rewrite (IH H).
  destruct (bytes_eqb (TmpSpec.entry s c).1.1 nm) eqn:E'; [|done]. exfalso. apply bytes_eqb_eq in E'. unfold TmpSpec.entry in E'.
  unfold TmpSpec.has_name in E. destruct (s !! c) as [n|]; [|by subst nm]. cbn [fst] in E'.
  apply shown_name_eq in E'; [|done]. rewrite E' in E. by rewrite (proj2 (bytes_eqb_eq nm nm)) in E.
Qed.

Lemma find_app_none {A} (f : A -> bool) l1 l2 : List.find f l1 = None -> List.find f (l1 ++ l2) = List.find f l2.
Proof. induction l1 as [|x l1 IH]; [done|]. cbn. destruct (f x); [done|]. apply IH. Qed.

Lemma find_app_skip {A} (f : A -> bool) l1 l2 : List.find f l2 = None -> List.find f (l1 ++ l2) = List.find f l1.
Proof. intros H. induction l1 as [|x l1 IH]; [done|]. cbn. destruct (f x); [done|]. apply IH. Qed.

(** What a successful creation did. *)
Lemma create_inv t s p nm ft i t' : sim t s -> create p nm ft t = Some (Some i, t') ->
  exists d, s !! p = Some d /\ m_type d = Directory /\ TmpSpec.find s (m_kids d) nm = None /\ i = length s /\ (length s < MAX_NODES)%nat /\
    sim t' (<[p := TmpSpec.with_kids (m_kids d ++ [i]) d]> s ++ [TmpSpec.new_node nm ft]).
Proof.
  intros Hs Hc. destruct (make_refines t s p nm true (fresh_node nm ft) (TmpSpec.new_node nm ft) Hs) as (t1 & E & Hs');
    [intros _; apply fresh_node_rel|done|done|done|].
  unfold create in Hc. rewrite E in Hc. unfold TmpSpec.make in *. destruct (s !! p) as [d|]; [|done].
  destruct (bool_decide_reflect (m_type d = Directory)) as [Hty|]; cbn [andb] in *; [|done].
  destruct (TmpSpec.find s (m_kids d) nm) as [c|] eqn:Ef; [done|].
  rewrite (bool_decide_eq_false_2 (is_Some None)) in * by (by intros [? ?]). cbn [negb andb] in *.
  destruct (Nat.ltb_spec (length s) MAX_NODES) as [Hlt|]; [|done]. cbn [fst snd] in *.
  assert (i = length s) as -> by congruence. assert (t' = t1) as -> by congruence. exists d. by split_and!.
Qed.

(** No stored name is longer than 63 bytes. *)
Lemma find_long t s nm ks : sim t s -> (63 < length nm)%nat -> TmpSpec.find s ks nm = None.
Proof.
  intros Hs Hl. unfold TmpSpec.find. induction ks as [|c ks IH]; [done|]. cbn [List.find]. rewrite IH.
  unfold TmpSpec.has_name. destruct (s !! c) as [n|] eqn:Hc; [|done].
  destruct (bytes_eqb (m_name n) nm) eqn:E; [|done]. apply bytes_eqb_eq in E.
  destruct (sim_nd t s c n Hs Hc) as ((Hn & _ & Hlt & _) & _ & _).
  apply (f_equal length) in Hn. rewrite length_take in Hn. rewrite E in Hn. unfold MAX_NAME in Hlt. lia.
Qed.

(** A read inside a file. *)
Lemma spec_read_slice (s : Spec) i nd o k :
  s !! i = Some nd -> m_type nd = File -> 0 <= o -> o + Z.of_nat k <= Z.of_nat (m_size nd) -> (m_size nd <= length (m_data nd))%nat ->
  TmpSpec.read s i o k = Some (slice (Z.to_nat o) (Z.to_nat o + k) (m_data nd)).
Proof.
  intros Hi Hty Ho Hk Hl. unfold TmpSpec.read, slice. rewrite Hi, bool_decide_eq_true_2 by done. cbn [andb].
  replace (Z.to_nat o + k - Z.to_nat o)%nat with k by lia. destruct (Z.ltb_spec o (Z.of_nat (m_size nd))).
  - rewrite skipn_firstn_comm, take_take. do 2 f_equal. lia.
  - by replace k with 0%nat by lia.
Qed.

(** ** Theorems *)

Module TmpProofs.

(** The tables the calls of a running kernel lead to. *)
Definition reached (t : Tmp) : Prop := exists cs as_, Forall call_ok cs /\ calls cs boot = Some (as_, t).

Lemma reached_sim t : reached t -> exists s, sim t s.
Proof.
  intros (cs & as_ & Hok & E). destruct (calls_refine cs boot TmpSpec.boot boot_sim Hok) as (t' & E' & Hs).
  rewrite E in E'. injection E' as _ ->. by eexists.
Qed.

(** The table after calls. *)
Definition table_after (cs : list TmpCall) : Tmp := match calls cs boot with Some (_, t) => t | None => boot end.

Lemma reached_after cs : Forall call_ok cs -> reached (table_after cs).
Proof.
  intros Hok. destruct (calls_refine cs boot TmpSpec.boot boot_sim Hok) as (t & E & _).
  exists cs, (spec_calls cs TmpSpec.boot).1. split; [done|]. unfold table_after. by rewrite E.
Qed.

(** C12: From boot, every sequence of mounts, resets, creations, symbolic links,
    removals, writes, truncations, changes of mode or owner, reads, listings, lookups
    and status calls returns, with the answers of a file system whose directories are
    lists of children in creation order.  Every walk of a linked list ends, no index leaves the
    table, and the final table still represents the specification. *)
Theorem tmpfs_refines_spec cs : Forall call_ok cs ->
  exists t, calls cs boot = Some ((spec_calls cs TmpSpec.boot).1, t) /\ sim t (spec_calls cs TmpSpec.boot).2.
Proof. apply calls_refine, boot_sim. Qed.

(** A created entry is found.  After a creation of a name of at most 63 bytes in a
    reached table, the lookup of the name gives the new inode, which has the type asked for and no contents;
    every other lookup, in every directory, answers as before. *)
Theorem tmpfs_created_entry_found t p nm ft i t' :
  reached t -> (0 < length nm <= 63)%nat -> is_Some (from_utf8 nm) -> nm <> [47] -> create p nm ft t = Some (Some i, t') ->
  lookup t' p nm = Some (Some i) /\ st_type (stat t' i) = ft /\ st_size (stat t' i) = 0 /\ read t' i 0 MAX_FILE_SIZE = Some [] /\
  forall q nm', (q, nm') <> (p, nm) -> lookup t' q nm' = lookup t q nm'.
Proof.
  intros (s & Hs)%reached_sim Hl Hu Hn Hc. destruct (create_inv t s p nm ft i t' Hs Hc) as (d & Hp & Hty & Hf & -> & Hlt & Hs').
  assert (m_name (TmpSpec.new_node nm ft) = nm) as Hnm by (apply take_ge; lia).
  assert (forall q nm', lookup t' q nm' = Some (snd <$> List.find (fun e => bytes_eqb e.1.1 nm')
    (TmpSpec.read_dir s q ++ if (q =? p)%nat then [(nm, ft, length s)] else []))) as Hlook.
  { intros q nm'. unfold lookup. rewrite (read_dir_refines t' _ q Hs'), (read_dir_made t s p d (TmpSpec.new_node nm ft) q Hs Hp eq_refl), Hnm.
    by rewrite shown_name_valid by (done || lia). }
  set (s' := <[p := _]> s ++ [_]) in *. assert (s' !! length s = Some (TmpSpec.new_node nm ft)) as Hnew.
  { unfold s'. rewrite lookup_app_r by (by rewrite length_insert). by rewrite length_insert, Nat.sub_diag. }
  rewrite (stat_refines t' s' _ Hs'), (read_refines t' s' _ _ _ Hs') by lia. unfold TmpSpec.stat, TmpSpec.read. rewrite Hnew.
  split_and!; [|done|done|by rewrite andb_false_r|].
  - rewrite Hlook, Nat.eqb_refl. 
    rewrite find_app_none; [|unfold TmpSpec.read_dir; rewrite Hp; apply (find_none_shown s nm (m_kids d)); [done|intros ->; cbn in Hl; lia|done]].
    cbn [List.find fst]. by rewrite (proj2 (bytes_eqb_eq nm nm) eq_refl).
  - intros q nm' Hne. rewrite Hlook. unfold lookup. rewrite (read_dir_refines t s q Hs). cbn [fmap option_fmap option_map].
    rewrite find_app_skip; [done|]. destruct (Nat.eqb_spec q p) as [->|]; [|done]. cbn [List.find fst].
    destruct (bytes_eqb nm nm') eqn:E; [|done]. apply bytes_eqb_eq in E. by subst nm'.
Qed.

(** C22: Reads give what was written.  After a write that succeeds in a reached table, a read of the same range gives
    the bytes written, bytes of the file before the range are unchanged, and so is every other file. *)
Theorem tmpfs_write_read t i offset buf n t' :
  reached t -> 0 <= offset -> write i offset buf t = (Some n, t') ->
  n = length buf /\ read t' i offset (length buf) = Some buf /\
  (forall o k, 0 <= o -> o + Z.of_nat k <= offset -> o + Z.of_nat k <= st_size (stat t i) -> read t' i o k = read t i o k) /\
  forall j o k, j <> i -> 0 <= o -> read t' j o k = read t j o k.
Proof.
  intros (s & Hs)%reached_sim Ho Hw. destruct (write_refines t s i offset buf Hs Ho) as [E Hs']. rewrite Hw in E, Hs'. cbn [fst snd] in *.
  rewrite (stat_refines t s i Hs). unfold TmpSpec.write, TmpSpec.stat in *. destruct (s !! i) as [nd|] eqn:Hi; [|done].
  destruct (bool_decide_reflect (m_type nd = File)) as [Hty|]; cbn [andb] in *; [|done].
  destruct (Z.leb_spec (offset + Z.of_nat (length buf)) (Z.of_nat MAX_FILE_SIZE)) as [Hle|]; [|done]. cbn [fst snd st_size] in *.
  destruct (sim_nd t s i nd Hs Hi) as ((_ & _ & _ & _ & Hz & Hd & Hdl & Hzl & _) & _ & _). rewrite Hz in Hzl. rewrite Hd in Hdl.
  pose proof (lookup_lt_Some _ _ _ Hi) as Hlt. split; [congruence|].
  assert (forall o k, 0 <= o -> o + Z.of_nat k <= Z.of_nat (Nat.max (Z.to_nat offset + length buf) (m_size nd)) ->
    read t' i o k = Some (slice (Z.to_nat o) (Z.to_nat o + k) (splice (Z.to_nat offset) buf (m_data nd)))) as Hr.
  { intros o k H1 H2. rewrite (read_refines t' _ i o k Hs' H1).
    rewrite (spec_read_slice _ i _ o k (list_lookup_insert_eq _ _ _ Hlt)); [done|done|done|exact H2|].
    cbn [TmpSpec.with_data m_size m_data]. rewrite length_splice; lia. }
  split_and!.
  - rewrite Hr by lia. by rewrite slice_splice_same by lia.
  - intros o k H1 H2 H3. rewrite Hr by lia. rewrite slice_splice_other by lia. rewrite (read_refines t s i o k Hs H1).
    by rewrite (spec_read_slice s i nd) by (done || lia).
  - intros j o k Hne H1. rewrite (read_refines t' _ j o k Hs' H1), (read_refines t s j o k Hs H1). unfold TmpSpec.read.
    by rewrite list_lookup_insert_ne.
Qed.

(** A write past the end of a file does not clear the hole.  In a reached table, a file truncated
    to nothing and then written one byte at its old end shows all its old contents again. *)
Theorem tmpfs_hole_shows_old_bytes t i old b :
  reached t -> st_type (stat t i) = File -> read t i 0 MAX_FILE_SIZE = Some old -> (length old < MAX_FILE_SIZE)%nat ->
  let t1 := (truncate i 0 t).2 in
  let t2 := (write i (Z.of_nat (length old)) [b] t1).2 in
  read t1 i 0 MAX_FILE_SIZE = Some [] /\ read t2 i 0 MAX_FILE_SIZE = Some (old ++ [b]).
Proof.
  intros (s & Hs)%reached_sim Hty Hr Hl t1 t2. rewrite (stat_refines t s i Hs) in Hty. rewrite (read_refines t s _ _ _ Hs) in Hr by lia.
  destruct (truncate_refines t s i 0 Hs ltac:(lia)) as [_ Hs1]. fold t1 in Hs1.
  destruct (write_refines t1 _ i (Z.of_nat (length old)) [b] Hs1 ltac:(lia)) as [_ Hs2]. fold t2 in Hs2.
  unfold TmpSpec.stat, TmpSpec.read in *. destruct (s !! i) as [nd|] eqn:Hi; [|done]. cbn [st_type] in Hty.
  destruct (sim_nd t s i nd Hs Hi) as ((_ & _ & _ & _ & Hz & Hd & Hdl & Hzl & _) & _ & _). rewrite Hz in Hzl. rewrite Hd in Hdl.
  assert (old = take (m_size nd) (m_data nd)) as Hold.
  { rewrite bool_decide_eq_true_2 in Hr by done. destruct (Z.ltb_spec 0 (Z.of_nat (m_size nd))) as [|H0]; cbn [andb] in Hr.
    - rewrite drop_0, (take_ge _ MAX_FILE_SIZE) in Hr by (rewrite length_take; lia). congruence.
    - replace (m_size nd) with 0%nat by lia. rewrite firstn_O. injection Hr as Hr. by rewrite Hr. }
  assert (length old = m_size nd) as Hol by (rewrite Hold, length_take; lia).
  assert (TmpSpec.truncate i 0 s = (true, <[i := TmpSpec.with_data 0 (m_data nd) nd]> s)) as Et.
  { unfold TmpSpec.truncate. rewrite Hi, bool_decide_eq_true_2, (proj2 (Z.leb_le _ _)) by (done || lia). change (Z.to_nat 0) with 0%nat. cbn [andb Nat.sub replicate app Nat.max].
    rewrite Nat.sub_0_l. cbn [replicate app]. by rewrite take_drop. }
  pose proof (lookup_lt_Some _ _ _ Hi) as Hlt. rewrite Et in Hs1, Hs2. cbn [snd] in Hs1, Hs2. unfold TmpSpec.write in Hs2.
  rewrite list_lookup_insert_eq in Hs2 by done. cbn [TmpSpec.with_data m_type m_size m_data length] in Hs2.
  rewrite bool_decide_eq_true_2, (proj2 (Z.leb_le _ _)), Nat2Z.id, list_insert_insert in Hs2 by (done || lia). cbn [andb snd] in Hs2.
  rewrite decide_True in Hs2 by done.
  rewrite (read_refines t1 _ _ _ _ Hs1), (read_refines t2 _ _ _ _ Hs2) by lia. unfold TmpSpec.read.
  rewrite !list_lookup_insert_eq by done. cbn [TmpSpec.with_data m_type m_size m_data]. rewrite Hty, !bool_decide_eq_true_2 by done. cbn [andb].
  split; [done|]. rewrite (proj2 (Z.ltb_lt _ _)) by lia. change (Z.to_nat 0) with 0%nat. rewrite drop_0, (take_ge _ MAX_FILE_SIZE) by (rewrite length_take; lia).
  unfold splice. rewrite app_assoc, take_app_length'; [by rewrite Hol, <-Hold|]. rewrite length_app, length_take. cbn [length]. lia.
Qed.

(** A name of more than 63 bytes is cut when it is stored, and compared in full.  In a reached table the entry created
    with it is not found under its name and not removed under it, and creating it again makes
    a second entry while slots are left. *)
Theorem tmpfs_long_name_lost t p nm ft i t' :
  reached t -> (63 < length nm)%nat -> create p nm ft t = Some (Some i, t') ->
  lookup t' p nm = Some None /\ unlink p nm t' = Some (false, t') /\
  ((S i < MAX_NODES)%nat -> exists t'', create p nm ft t' = Some (Some (S i), t'')).
Proof.
  intros (s & Hs)%reached_sim Hl Hc. destruct (create_inv t s p nm ft i t' Hs Hc) as (d & Hp & Hty & _ & -> & Hlt & Hs').
  assert (nm <> [47]) as Hn1 by (intros ->; cbn in Hl; lia). assert (nm <> []) as Hn2 by (intros ->; cbn in Hl; lia).
  set (s' := <[p := _]> s ++ [_]) in *. pose proof (lookup_lt_Some _ _ _ Hp) as Hplt.
  set (d' := TmpSpec.with_kids (m_kids d ++ [length s]) d) in *.
  assert (s' !! p = Some d') as Hp' by (unfold s'; rewrite lookup_app_l by (by rewrite length_insert); by apply list_lookup_insert_eq).
  assert (forall ks, TmpSpec.find s' ks nm = None) as Hnone by (intros ks; apply (find_long t' s' nm ks Hs' Hl)).
  split; [|split].
  - unfold lookup. rewrite (read_dir_refines t' s' p Hs'). unfold TmpSpec.read_dir. rewrite Hp'.
    cbn [fmap option_fmap option_map]. by rewrite (find_none_shown s' nm (m_kids d') Hn1 Hn2 (Hnone _)).
  - unfold unlink. rewrite (sim_lookup t' s' p Hs'), Hp'. destruct (sim_nd t' s' p d' Hs' Hp') as (_ & _ & Hch).
    pose proof (unlink_loop_rel t' s' nm p (m_kids d') TURNS 0 _ Hs' Hch) as Hu. rewrite Hnone in Hu. rewrite Hu.
    + by destruct t'.
    + intros c Hk. apply (sim_bound _ _ Hs'), (kids_in s' p d' c Hp' Hk).
    + pose proof (kids_short t' s' p d' Hs' Hp'). unfold TURNS. lia.
  - intros Hi. destruct (make_refines t' s' p nm true (fresh_node nm ft) (TmpSpec.new_node nm ft) Hs') as (t2 & E & _);
      [intros _; apply fresh_node_rel|done|done|done|]. exists t2. unfold create. rewrite E. unfold TmpSpec.make. rewrite Hp', Hnone.
    assert (length s' = S (length s)) as Hl' by (unfold s'; rewrite length_app, length_insert; cbn; lia).
    rewrite (bool_decide_eq_true_2 (m_type d' = Directory)), (bool_decide_eq_false_2 (is_Some None)) by (done || by intros [? ?]).
    cbn [negb andb]. rewrite Hl', (proj2 (Nat.ltb_lt _ _) Hi). done.
Qed.

(** Mounting the file system again empties its root and gives no slot back. *)
Lemma remount_empties_root t nm : reached t ->
  read_dir (new_fs t) 0 = Some [] /\ lookup (new_fs t) 0 nm = Some None /\ node_count (new_fs t) = node_count t.
Proof.
  intros (s & Hs)%reached_sim. pose proof (new_fs_refines t s Hs) as Hs'.
  assert (read_dir (new_fs t) 0 = Some []) as E.
  { rewrite (read_dir_refines _ _ 0 Hs'). unfold TmpSpec.read_dir. by rewrite list_lookup_insert_eq by apply Hs. }
  split; [done|]. split; [|done]. unfold lookup. by rewrite E.
Qed.

(** ** Examples *)

(** A mounted file system with the file [a], of the contents [1 2 3]. *)
Definition demo : list TmpCall := [Mount; Create 0 [97] File; WriteAt 1 0 [1; 2; 3]].

Lemma demo_ok : Forall call_ok demo.
Proof. repeat constructor. done. Qed.

Definition demo_calls : list TmpCall :=
  demo ++ [Create 0 [98] Directory; Create 2 [99] File; Unlink 0 [98]; Unlink 2 [99]; Unlink 0 [98]; ReadDir 0; ReadAt 1 1 9].

Lemma tmpfs_refines_spec_witness :
  exists t, calls demo_calls boot = Some ([Nothing; Inode (Some 1%nat); Count (Some 3%nat); Inode (Some 2%nat); Inode (Some 3%nat);
    Flag false; Flag true; Flag true; Entries [([97], File, 1%nat)]; Data (Some [2; 3])], t).
Proof.
  destruct (tmpfs_refines_spec demo_calls) as (t & E & _).
  - apply Forall_app. split; [exact demo_ok|]. repeat constructor. done.
  - exists t. rewrite E. vm_compute. reflexivity.
Defined.

(** The file [b] in the root of the demo. *)
Definition demo_b : Tmp := table_after (demo ++ [Create 0 [98] File]).

Lemma tmpfs_created_entry_found_witness :
  lookup demo_b 0 [98] = Some (Some 2%nat) /\ lookup demo_b 0 [97] = Some (Some 1%nat).
Proof.
  destruct (tmpfs_created_entry_found (table_after demo) 0 [98] File 2 demo_b) as (H1 & _ & _ & _ & H2);
    [apply reached_after, demo_ok|cbn; lia|done|done|vm_compute; reflexivity|].
  split; [exact H1|]. rewrite H2 by done. vm_compute. reflexivity.
Defined.

Lemma tmpfs_write_read_witness :
  read (table_after (demo ++ [WriteAt 1 2 [8; 9]])) 1 2 2 = Some [8; 9] /\
  read (table_after (demo ++ [WriteAt 1 2 [8; 9]])) 1 0 2 = Some [1; 2].
Proof.
  destruct (tmpfs_write_read (table_after demo) 1 2 [8; 9] 2 (table_after (demo ++ [WriteAt 1 2 [8; 9]]))) as (_ & H1 & H2 & _);
    [apply reached_after, demo_ok|lia|vm_compute; reflexivity|].
  split; [exact H1|]. rewrite H2 by (vm_compute; congruence). vm_compute. reflexivity.
Defined.

Lemma tmpfs_hole_shows_old_bytes_witness :
  read (table_after demo) 1 0 MAX_FILE_SIZE = Some [1; 2; 3] /\
  read (write 1 3 [7] (truncate 1 0 (table_after demo)).2).2 1 0 MAX_FILE_SIZE = Some [1; 2; 3; 7].
Proof.
  assert (read (table_after demo) 1 0 MAX_FILE_SIZE = Some [1; 2; 3]) as E by (vm_compute; reflexivity).
  split; [exact E|].
  apply (tmpfs_hole_shows_old_bytes (table_after demo) 1 [1; 2; 3] 7); [apply reached_after, demo_ok|vm_compute; reflexivity|exact E|].
  unfold MAX_FILE_SIZE. cbn. lia.
Defined.

Lemma tmpfs_long_name_lost_witness :
  lookup (table_after (demo ++ [Create 0 (replicate 64 120) File])) 0 (replicate 64 120) = Some None.
Proof.
  apply (tmpfs_long_name_lost (table_after demo) 0 (replicate 64 120) File 2);
    [apply reached_after, demo_ok|rewrite length_replicate; lia|vm_compute; reflexivity].
Defined.

End TmpProofs.
