(* ===== verification/Tcp.v ===== *)
(** Transmission control: [crates/zenus-net/src/tcp.rs].

    [Tcb] is the control block of a connection and [TcpSys] the table of the blocks
    with the layer below.  That layer is a parameter: the class [IpLayer] has what the code calls of
    ipv4.rs and nic.rs, and TcpNic.v instantiates it with the model of these files.  A call
    returns its result and the next state, or [None] when the layer below
    does not return.  What a segment or a timer does to one block is a function of
    the block that gives the new block and the segments sent ([tcb_receive],
    [poll_tcb]); nothing of this depends on whether these arrive, and the calls that
    do look at the result of a send are written out.

    Readings of the random number generator, of the time stamp counter and of the tick
    counter are arguments.  Additions that the code leaves unchecked wrap, as in a release build. *)

From S2P Require Import Prelude Bytes Wire.

(** ** Constants and sequence numbers *)

Inductive TcbState :=
  | TCP_CLOSED | TCP_LISTEN | TCP_SYN_SENT | TCP_SYN_RECEIVED | TCP_ESTABLISHED | TCP_FIN_WAIT1
  | TCP_FIN_WAIT2 | TCP_CLOSE_WAIT | TCP_CLOSING | TCP_LAST_ACK | TCP_TIME_WAIT.

#[global] Instance ConnState_eq_dec : EqDecision TcbState.
Proof. solve_decision. Defined.

(** The number that stands for a state. *)
Definition state_code (s : TcbState) : Z :=
  match s with
  | TCP_CLOSED => 0 | TCP_LISTEN => 1 | TCP_SYN_SENT => 2 | TCP_SYN_RECEIVED => 3 | TCP_ESTABLISHED => 4 | TCP_FIN_WAIT1 => 5
  | TCP_FIN_WAIT2 => 6 | TCP_CLOSE_WAIT => 7 | TCP_CLOSING => 8 | TCP_LAST_ACK => 9 | TCP_TIME_WAIT => 10
  end.

Definition state_is (a b : TcbState) : bool := bool_decide (a = b).

Definition TCP_FLAG_FIN : Z := 0x01.
Definition TCP_FLAG_SYN : Z := 0x02.
Definition TCP_FLAG_RST : Z := 0x04.
Definition TCP_FLAG_PSH : Z := 0x08.
Definition TCP_FLAG_ACK : Z := 0x10.
Definition SYN_ACK : Z := Z.lor TCP_FLAG_SYN TCP_FLAG_ACK.
Definition FIN_ACK : Z := Z.lor TCP_FLAG_FIN TCP_FLAG_ACK.
Definition RST_ACK : Z := Z.lor TCP_FLAG_RST TCP_FLAG_ACK.
Definition ACK_PSH : Z := Z.lor TCP_FLAG_ACK TCP_FLAG_PSH.

Definition MAX_CONNS : nat := 256.
Definition MAX_RETRIES : Z := 5.
Definition RETRY_INTERVAL : Z := 10.
Definition MSS : Z := 1460.
Definition INIT_CWND : Z := 1460.
Definition INIT_SSTHRESH : Z := 65535.
Definition KEEPALIVE_IDLE : Z := 7200.
Definition KEEPALIVE_PROBE_INTERVAL : Z := 75.
Definition KEEPALIVE_PROBES : Z := 9.
Definition TICKS_PER_SEC : Z := 100.
Definition RX_BUF_LEN : nat := 4096.
Definition TX_BUF_LEN : nat := 4096.

Definition U32 : Z := 2 ^ 32.
Definition u32_add (a b : Z) : Z := (a + b) mod U32.
Definition u32_sub (a b : Z) : Z := (a - b) mod U32.

(** [x as i32] *)
Definition as_i32 (x : Z) : Z := (x + 2 ^ 31) mod U32 - 2 ^ 31.

Definition rx_free (rx_data_len : nat) : nat := RX_BUF_LEN - rx_data_len.

Definition advertised_window (rx_data_len : nat) : Z := Z.min (Z.of_nat (rx_free rx_data_len)) 65535.

Definition seq_advance (seq : Z) (len : nat) (extra : Z) : Z := u32_add (u32_add seq (Z.of_nat len mod U32)) extra.

Definition seq_before (a b : Z) : bool := as_i32 (u32_sub a b) <? 0.

Definition seq_before_eq (a b : Z) : bool := if a =? b then true else seq_before a b.

(** ** Keepalive *)

Inductive Keepalive := Wait | Probe | GiveUp.

Definition keepalive_action (ticks next_due probes_sent : Z) : Keepalive :=
  if ticks <? next_due then Wait
  else if KEEPALIVE_PROBES <=? probes_sent then GiveUp
  else Probe.

Definition keepalive_idle_deadline (last : Z) : Z := saturating_add last (KEEPALIVE_IDLE * TICKS_PER_SEC).
Definition keepalive_probe_deadline (last : Z) : Z := saturating_add last (KEEPALIVE_PROBE_INTERVAL * TICKS_PER_SEC).

(** ** Control blocks *)

Record Tcb := {
  state : TcbState;
  local_ip : bytes;
  local_port : Z;
  remote_ip : bytes;
  remote_port : Z;
  send_una : Z;
  send_nxt : Z;
  recv_nxt : Z;
  peer_window : Z;
  listening : bool;
  rx_data : bytes;
  rx_data_len : nat;
  tx_data : bytes;
  tx_data_len : nat;
  retry_count : Z;
  retry_ticks : Z;
  time_wait_ticks : Z;
  cwnd : Z;
  ssthresh : Z;
  dupack_count : Z;
  last_ack_seq : Z;
  keepalive_probes : Z;
  keepalive_due : Z;
  sack_blocks : list (Z * Z);
}.

Definition win (t : Tcb) : Z := advertised_window (rx_data_len t).

(** The block of a new connection. *)
Definition new_tcb (st : TcbState) (lip : bytes) (lport : Z) (rip : bytes) (rport una nxt rcv : Z) (lis : bool) (retries ticks : Z) : Tcb :=
  {| state := st; local_ip := lip; local_port := lport; remote_ip := rip; remote_port := rport;
     send_una := una; send_nxt := nxt; recv_nxt := rcv; peer_window := 0; listening := lis;
     rx_data := replicate RX_BUF_LEN 0; rx_data_len := 0; tx_data := replicate TX_BUF_LEN 0; tx_data_len := 0;
     retry_count := retries; retry_ticks := ticks; time_wait_ticks := 0; cwnd := INIT_CWND; ssthresh := INIT_SSTHRESH;
     dupack_count := 0; last_ack_seq := 0; keepalive_probes := 0; keepalive_due := 0; sack_blocks := replicate 4 (0, 0) |}.

(** *** Assignments to fields *)

Definition with_core (st : TcbState) (una nxt rcv peer : Z) (t : Tcb) : Tcb :=
  {| state := st; local_ip := local_ip t; local_port := local_port t; remote_ip := remote_ip t; remote_port := remote_port t;
     send_una := una; send_nxt := nxt; recv_nxt := rcv; peer_window := peer; listening := listening t;
     rx_data := rx_data t; rx_data_len := rx_data_len t; tx_data := tx_data t; tx_data_len := tx_data_len t;
     retry_count := retry_count t; retry_ticks := retry_ticks t; time_wait_ticks := time_wait_ticks t; cwnd := cwnd t; ssthresh := ssthresh t;
     dupack_count := dupack_count t; last_ack_seq := last_ack_seq t; keepalive_probes := keepalive_probes t; keepalive_due := keepalive_due t;
     sack_blocks := sack_blocks t |}.

Definition with_state (st : TcbState) (t : Tcb) : Tcb := with_core st (send_una t) (send_nxt t) (recv_nxt t) (peer_window t) t.
Definition with_una (una : Z) (t : Tcb) : Tcb := with_core (state t) una (send_nxt t) (recv_nxt t) (peer_window t) t.
Definition with_nxt (nxt : Z) (t : Tcb) : Tcb := with_core (state t) (send_una t) nxt (recv_nxt t) (peer_window t) t.
Definition with_recv (rcv : Z) (t : Tcb) : Tcb := with_core (state t) (send_una t) (send_nxt t) rcv (peer_window t) t.
Definition with_peer (w : Z) (t : Tcb) : Tcb := with_core (state t) (send_una t) (send_nxt t) (recv_nxt t) w t.

Definition with_bufs (rx : bytes) (rxl : nat) (tx : bytes) (txl : nat) (sack : list (Z * Z)) (t : Tcb) : Tcb :=
  {| state := state t; local_ip := local_ip t; local_port := local_port t; remote_ip := remote_ip t; remote_port := remote_port t;
     send_una := send_una t; send_nxt := send_nxt t; recv_nxt := recv_nxt t; peer_window := peer_window t; listening := listening t;
     rx_data := rx; rx_data_len := rxl; tx_data := tx; tx_data_len := txl;
     retry_count := retry_count t; retry_ticks := retry_ticks t; time_wait_ticks := time_wait_ticks t; cwnd := cwnd t; ssthresh := ssthresh t;
     dupack_count := dupack_count t; last_ack_seq := last_ack_seq t; keepalive_probes := keepalive_probes t; keepalive_due := keepalive_due t;
     sack_blocks := sack |}.

Definition with_rx (d : bytes) (n : nat) (t : Tcb) : Tcb := with_bufs d n (tx_data t) (tx_data_len t) (sack_blocks t) t.
Definition with_tx (d : bytes) (n : nat) (t : Tcb) : Tcb := with_bufs (rx_data t) (rx_data_len t) d n (sack_blocks t) t.
Definition with_sack (b : list (Z * Z)) (t : Tcb) : Tcb := with_bufs (rx_data t) (rx_data_len t) (tx_data t) (tx_data_len t) b t.

Definition with_timers (rc rt tw cw ss dup last kp kd : Z) (t : Tcb) : Tcb :=
  {| state := state t; local_ip := local_ip t; local_port := local_port t; remote_ip := remote_ip t; remote_port := remote_port t;
     send_una := send_una t; send_nxt := send_nxt t; recv_nxt := recv_nxt t; peer_window := peer_window t; listening := listening t;
     rx_data := rx_data t; rx_data_len := rx_data_len t; tx_data := tx_data t; tx_data_len := tx_data_len t;
     retry_count := rc; retry_ticks := rt; time_wait_ticks := tw; cwnd := cw; ssthresh := ss;
     dupack_count := dup; last_ack_seq := last; keepalive_probes := kp; keepalive_due := kd; sack_blocks := sack_blocks t |}.

Definition with_retry (rc rt : Z) (t : Tcb) : Tcb :=
  with_timers rc rt (time_wait_ticks t) (cwnd t) (ssthresh t) (dupack_count t) (last_ack_seq t) (keepalive_probes t) (keepalive_due t) t.
Definition with_time_wait (tw : Z) (t : Tcb) : Tcb :=
  with_timers (retry_count t) (retry_ticks t) tw (cwnd t) (ssthresh t) (dupack_count t) (last_ack_seq t) (keepalive_probes t) (keepalive_due t) t.
Definition with_cwnd (cw ss : Z) (t : Tcb) : Tcb :=
  with_timers (retry_count t) (retry_ticks t) (time_wait_ticks t) cw ss (dupack_count t) (last_ack_seq t) (keepalive_probes t) (keepalive_due t) t.
Definition with_dup (dup last : Z) (t : Tcb) : Tcb :=
  with_timers (retry_count t) (retry_ticks t) (time_wait_ticks t) (cwnd t) (ssthresh t) dup last (keepalive_probes t) (keepalive_due t) t.
Definition with_keepalive (kp kd : Z) (t : Tcb) : Tcb :=
  with_timers (retry_count t) (retry_ticks t) (time_wait_ticks t) (cwnd t) (ssthresh t) (dupack_count t) (last_ack_seq t) kp kd t.

(** ** Segments *)

Definition checksum (src_ip dst_ip segment : bytes) : Z :=
  let add a b := (a + b) mod U32 in
  let sum := add (be16_at src_ip 0) (be16_at src_ip 2) in
  let sum := add sum (be16_at dst_ip 0) in
  let sum := add sum (be16_at dst_ip 2) in
  let sum := add sum 0x0006 in
  let sum := add sum (Z.of_nat (length segment) mod 65536) in
  u16_not (fold_carry FOLD_FUEL (sum_words sum segment) mod 65536).

Definition build_segment (sport dport seq ack flags window : Z) (payload : bytes) : bytes :=
  let seg := replicate 1500 0 in
  let payload_len := Nat.min (length payload) 1480 in
  let seg := splice 0 (be16_bytes sport) seg in
  let seg := splice 2 (be16_bytes dport) seg in
  let seg := splice 4 (be32_bytes seq) seg in
  let seg := splice 8 (be32_bytes ack) seg in
  let seg := splice 12 [0x50] seg in
  let seg := splice 13 [flags] seg in
  let seg := splice 14 (be16_bytes window) seg in
  splice 20 (take payload_len payload) seg.

Definition build_syn_segment (sport dport seq ack flags window : Z) : bytes :=
  let seg := build_segment sport dport seq ack flags window [] in
  let seg := splice 20 [2; 4; Z.shiftr MSS 8; Z.land MSS 0xFF; 3; 3; 7; 4; 2; 1; 1; 1] seg in
  splice 12 [0x80] seg.

(** The first [n] bytes, with the checksum filled in. *)
Definition sealed (src dst : bytes) (n : nat) (seg : bytes) : bytes :=
  let csum := checksum src dst (take n seg) in
  take n (splice 16 [Z.shiftr csum 8; Z.land csum 0xFF] seg).

(** *** Selective acknowledgement *)

Definition no_block (b : Z * Z) : bool := (b.1 =? 0) && (b.2 =? 0).

(** The merging loop: overlapping blocks are taken out and widen the new one. *)
Fixpoint merge_blocks (blocks : list (Z * Z)) (new_left new_right : Z) : list (Z * Z) * Z * Z :=
  match blocks with
  | [] => ([], new_left, new_right)
  | (l, r) :: bs =>
      if negb (no_block (l, r)) && (new_left <=? r) && (l <=? new_right)
      then let '(bs, x, y) := merge_blocks bs (Z.min new_left l) (Z.max new_right r) in ((0, 0) :: bs, x, y)
      else let '(bs, x, y) := merge_blocks bs new_left new_right in ((l, r) :: bs, x, y)
  end.

Fixpoint place_block (blocks : list (Z * Z)) (b : Z * Z) : option (list (Z * Z)) :=
  match blocks with
  | [] => None
  | c :: bs => if no_block c then Some (b :: bs) else cons c <$> place_block bs b
  end.

Definition add_sack_block (blocks : list (Z * Z)) (new_left new_right : Z) : list (Z * Z) :=
  let '(bs, l, r) := merge_blocks blocks new_left new_right in
  match place_block bs (l, r) with
  | Some bs => bs
  | None => drop 1 bs ++ [(l, r)]
  end.

(** The segment [send_sack_ack] hands to the layer below. *)
Definition sack_segment (src dst : bytes) (sport dport seq ack window : Z) (blocks : list (Z * Z)) : bytes :=
  let seg := replicate 1500 0 in
  let seg := splice 0 (be16_bytes sport) seg in
  let seg := splice 2 (be16_bytes dport) seg in
  let seg := splice 4 (be32_bytes seq) seg in
  let seg := splice 8 (be32_bytes ack) seg in
  let seg := splice 12 [0x50] seg in
  let seg := splice 13 [TCP_FLAG_ACK] seg in
  let seg := splice 14 (be16_bytes window) seg in
  let used := List.filter (fun b => negb (no_block b)) blocks in
  let n := length used in
  if (n =? 0)%nat then sealed src dst 20 seg
  else
    let opt_len := (2 + n * 8)%nat in
    let padded := ((opt_len + 3) / 4 * 4)%nat in
    let hdr_len := (20 + padded)%nat in
    let seg := splice 20 [5; Z.of_nat opt_len] seg in
    let seg := splice 22 (concat (map (fun b => be32_bytes b.1 ++ be32_bytes b.2) used)) seg in
    let off := (22 + n * 8)%nat in
    let seg := splice off (replicate (hdr_len - off) 1) seg in
    let seg := splice 12 [Z.shiftl (Z.shiftr (Z.of_nat hdr_len) 2) 4] seg in
    sealed src dst hdr_len seg.

(** *** Received segments *)

Record Seg := {
  sg_src : bytes;
  sg_dst : bytes;
  sg_sport : Z;
  sg_dport : Z;
  sg_seq : Z;
  sg_ack : Z;
  sg_flags : Z;
  sg_window : Z;
  sg_payload : bytes;
}.

Definition has (f : Z) (sg : Seg) : bool := negb (Z.land (sg_flags sg) f =? 0).

Definition parse_segment (src dst segment : bytes) : option Seg :=
  if (length segment <? 20)%nat then None
  else if negb (checksum src dst segment =? 0) then None
  else
    let hdr_len := Z.to_nat (Z.shiftr (byte_at segment 12) 4 * 4) in
    if (hdr_len <? 20)%nat || (length segment <? hdr_len)%nat then None
    else
      Some {| sg_src := src; sg_dst := dst; sg_sport := be16_at segment 0; sg_dport := be16_at segment 2;
              sg_seq := be32_at segment 4; sg_ack := be32_at segment 8; sg_flags := byte_at segment 13;
              sg_window := be16_at segment 14; sg_payload := drop hdr_len segment |}.

(** A segment without data to the sender of [sg]. *)
Definition reply (sg : Seg) (seq ack flags window : Z) : bytes :=
  sealed (sg_dst sg) (sg_src sg) 20 (build_segment (sg_dport sg) (sg_sport sg) seq ack flags window []).

Definition ack_of (sg : Seg) (t : Tcb) : bytes := reply sg (send_nxt t) (recv_nxt t) TCP_FLAG_ACK (win t).

(** ** What a segment does to a block *)

(** The payload goes to the free part of the receive buffer. *)
Definition take_payload (sg : Seg) (t : Tcb) : Tcb :=
  let copy_len := Nat.min (length (sg_payload sg)) (rx_free (rx_data_len t)) in
  let t := with_rx (splice (rx_data_len t) (take copy_len (sg_payload sg)) (rx_data t)) (rx_data_len t + copy_len) t in
  with_recv (seq_advance (sg_seq sg) copy_len 0) t.

Definition on_syn_sent (sg : Seg) (t : Tcb) : Tcb * list bytes :=
  if has TCP_FLAG_SYN sg && has TCP_FLAG_ACK sg then
    let t := with_recv (seq_advance (sg_seq sg) 0 1) t in
    let t := with_una (sg_ack sg) t in
    let t := with_peer (sg_window sg) t in
    (with_retry 0 0 (with_state TCP_ESTABLISHED t), [ack_of sg t])
  else if has TCP_FLAG_SYN sg then
    (t, [reply sg (send_nxt t) (seq_advance (sg_seq sg) 0 1) SYN_ACK (win t)])
  else (t, []).

Definition on_syn_received (sg : Seg) (t : Tcb) : Tcb * list bytes :=
  if has TCP_FLAG_ACK sg then
    if negb (sg_seq sg =? recv_nxt t) then (t, [ack_of sg t])
    else
      let t := with_state TCP_ESTABLISHED t in
      let t := with_una (sg_ack sg) t in
      let t := with_peer (sg_window sg) t in
      let t := with_retry 0 0 t in
      if bool_decide (sg_payload sg = []) then (t, [])
      else let t := take_payload sg t in (t, [ack_of sg t])
  else if has TCP_FLAG_SYN sg then
    (t, [reply sg (send_una t) (recv_nxt t) SYN_ACK (win t)])
  else (t, []).

(** Counting repeated acknowledgements. *)
Definition count_dupack (sg : Seg) (t : Tcb) : Tcb :=
  let t :=
    if (sg_ack sg =? last_ack_seq t) && seq_before (send_una t) (send_nxt t) then
      let t := with_dup (Z.min 255 (dupack_count t + 1)) (last_ack_seq t) t in
      if dupack_count t =? 3 then with_retry MAX_RETRIES 0 t else t
    else if seq_before (last_ack_seq t) (sg_ack sg) then with_dup 0 (last_ack_seq t) t
    else t in
  if seq_before_eq (sg_ack sg) (last_ack_seq t) || (last_ack_seq t =? 0)
  then with_dup (dupack_count t) (sg_ack sg) t else t.

(** Acknowledged data leaves the transmit buffer. *)
Definition take_ack (sg : Seg) (t : Tcb) : Z * Tcb :=
  if seq_before (send_una t) (sg_ack sg) && seq_before_eq (sg_ack sg) (send_nxt t) then
    let acked_bytes := u32_sub (sg_ack sg) (send_una t) in
    let t := with_una (sg_ack sg) t in
    let t :=
      if acked_bytes <=? Z.of_nat (tx_data_len t) then
        let acked := Z.to_nat acked_bytes in
        let d := if (acked <? tx_data_len t)%nat then splice 0 (slice acked (tx_data_len t) (tx_data t)) (tx_data t) else tx_data t in
        with_tx d (tx_data_len t - acked) t
      else t in
    (acked_bytes, if negb (seq_before (send_una t) (send_nxt t)) then with_retry 0 0 t else t)
  else (0, t).

Definition on_ack (now : Z) (sg : Seg) (t : Tcb) : Tcb :=
  let t := count_dupack sg t in
  let '(acked_bytes, t) := take_ack sg t in
  let t := with_keepalive 0 (keepalive_idle_deadline now) t in
  let t :=
    if cwnd t <? ssthresh t then with_cwnd (Z.min 65535 (cwnd t + MSS)) (ssthresh t) t
    else if 0 <? acked_bytes then with_cwnd (Z.min 65535 (cwnd t + 1)) (ssthresh t) t
    else t in
  with_peer (sg_window sg) t.

Definition on_payload (sg : Seg) (t : Tcb) : Tcb * list bytes :=
  if sg_seq sg =? recv_nxt t then
    let t := take_payload sg t in
    let t := with_sack (map (fun b => if seq_before_eq b.2 (recv_nxt t) then (0, 0) else b) (sack_blocks t)) t in
    (t, [reply sg (send_nxt t) (recv_nxt t) TCP_FLAG_ACK (advertised_window (rx_data_len t))])
  else
    let t := with_sack (add_sack_block (sack_blocks t) (sg_seq sg) (u32_add (sg_seq sg) (Z.of_nat (length (sg_payload sg)) mod U32))) t in
    (t, [sack_segment (sg_dst sg) (sg_src sg) (sg_dport sg) (sg_sport sg) (send_nxt t) (recv_nxt t) (win t) (sack_blocks t)]).

Definition on_fin (sg : Seg) (t : Tcb) : Tcb * list bytes :=
  let t := with_recv (u32_add (recv_nxt t) 1) t in
  let t := if state_is (state t) TCP_ESTABLISHED then with_state TCP_CLOSE_WAIT t else t in
  (t, [ack_of sg t]).

Definition on_established (now : Z) (sg : Seg) (t : Tcb) : Tcb * list bytes :=
  let t := if has TCP_FLAG_ACK sg then on_ack now sg t else t in
  let '(t, o1) := if negb (bool_decide (sg_payload sg = [])) && has TCP_FLAG_ACK sg then on_payload sg t else (t, []) in
  let '(t, o2) := if has TCP_FLAG_FIN sg then on_fin sg t else (t, []) in
  (t, o1 ++ o2).

(** The acknowledgement of a FIN in the states after our own. *)
Definition ack_fin (sg : Seg) (t : Tcb) : Tcb := with_recv (seq_advance (sg_seq sg) (length (sg_payload sg)) 1) t.

Definition on_fin_wait1 (sg : Seg) (t : Tcb) : Tcb * list bytes :=
  let t :=
    if has TCP_FLAG_RST sg then with_state TCP_CLOSED t
    else if has TCP_FLAG_ACK sg then (if send_nxt t <=? sg_ack sg then with_state TCP_FIN_WAIT2 t else t)
    else t in
  if has TCP_FLAG_FIN sg then
    let t := ack_fin sg t in (with_state TCP_CLOSING t, [ack_of sg t])
  else (t, []).

Definition on_fin_wait2 (sg : Seg) (t : Tcb) : Tcb * list bytes :=
  if has TCP_FLAG_RST sg then (with_state TCP_CLOSED t, [])
  else if has TCP_FLAG_FIN sg then
    let t := ack_fin sg t in (with_time_wait 20 (with_state TCP_TIME_WAIT t), [ack_of sg t])
  else (t, []).

Definition on_time_wait (sg : Seg) (t : Tcb) : Tcb * list bytes :=
  if has TCP_FLAG_FIN sg then (t, [ack_of sg t]) else (t, []).

Definition on_closing (sg : Seg) (t : Tcb) : Tcb * list bytes :=
  if has TCP_FLAG_ACK sg && (send_nxt t <=? sg_ack sg)
  then (with_time_wait 20 (with_state TCP_TIME_WAIT t), []) else (t, []).

Definition on_last_ack (sg : Seg) (t : Tcb) : Tcb * list bytes :=
  if has TCP_FLAG_RST sg then (with_state TCP_CLOSED t, [])
  else if has TCP_FLAG_ACK sg && (send_nxt t <=? sg_ack sg) then (with_state TCP_CLOSED t, [])
  else (t, []).

(** The block after a segment, and the segments sent; a listening block is not changed. *)
Definition tcb_receive (now : Z) (sg : Seg) (t : Tcb) : Tcb * list bytes :=
  if has TCP_FLAG_RST sg then (with_state TCP_CLOSED t, [])
  else
    match state t with
    | TCP_SYN_SENT => on_syn_sent sg t
    | TCP_SYN_RECEIVED => on_syn_received sg t
    | TCP_ESTABLISHED | TCP_CLOSE_WAIT => on_established now sg t
    | TCP_FIN_WAIT1 => on_fin_wait1 sg t
    | TCP_FIN_WAIT2 => on_fin_wait2 sg t
    | TCP_TIME_WAIT => on_time_wait sg t
    | TCP_CLOSING => on_closing sg t
    | TCP_LAST_ACK => on_last_ack sg t
    | TCP_LISTEN | TCP_CLOSED => (t, [])
    end.

(** ** What a poll does to a block *)

(** A segment of the block's own, with [n] bytes sent of it. *)
Definition own_segment (t : Tcb) (seq flags : Z) (payload : bytes) (n : nat) : bytes :=
  sealed (local_ip t) (remote_ip t) n
    (build_segment (local_port t) (remote_port t) seq (recv_nxt t) flags (win t) payload).

(** How much of the transmit buffer may go out again. *)
Definition send_limit (t : Tcb) : nat :=
  let in_flight := u32_sub (send_nxt t) (send_una t) in
  let budget := Z.max (cwnd t - in_flight) 0 in
  let peer_budget := Z.max 0 (as_i32 (peer_window t - as_i32 in_flight)) in
  Z.to_nat (Z.min MSS (Z.min budget peer_budget)).

(** The segment sent again, if the windows let one out. *)
Definition retransmission (t : Tcb) : option bytes :=
  match state t with
  | TCP_SYN_SENT => Some (own_segment t (send_una t) TCP_FLAG_SYN [] 20)
  | TCP_SYN_RECEIVED => Some (own_segment t (send_una t) SYN_ACK [] 20)
  | TCP_LAST_ACK | TCP_FIN_WAIT1 | TCP_CLOSING => Some (own_segment t (send_una t) FIN_ACK [] 20)
  | _ =>
      let limit := send_limit t in
      if (limit =? 0)%nat then None
      else
        let payload := take (Nat.min (tx_data_len t) limit) (tx_data t) in
        Some (own_segment t (send_una t) ACK_PSH payload (20 + length payload))
  end.

Definition retransmits (s : TcbState) : bool :=
  match s with
  | TCP_SYN_SENT | TCP_SYN_RECEIVED | TCP_ESTABLISHED | TCP_CLOSE_WAIT | TCP_LAST_ACK | TCP_FIN_WAIT1 | TCP_CLOSING => true
  | _ => false
  end.

Definition poll_idle (now : Z) (t : Tcb) : Tcb * list bytes :=
  let t := with_retry 0 0 t in
  if state_is (state t) TCP_ESTABLISHED then
    match keepalive_action now (keepalive_due t) (keepalive_probes t) with
    | Wait => (t, [])
    | GiveUp => (with_state TCP_CLOSED t, [])
    | Probe =>
        let t := with_keepalive (keepalive_probes t + 1) (keepalive_probe_deadline now) t in
        (t, [own_segment t (send_nxt t) TCP_FLAG_ACK [] 20])
    end
  else (t, []).

(** The block after one turn of the loop, [None] when its slot is freed, and the segments
    sent. *)
Definition poll_tcb (now : Z) (t : Tcb) : option Tcb * list bytes :=
  if state_is (state t) TCP_CLOSED then (None, [])
  else if listening t then (Some t, [])
  else if state_is (state t) TCP_TIME_WAIT then
    (Some (if time_wait_ticks t =? 0 then with_time_wait 20 t
           else
             let t := with_time_wait (time_wait_ticks t - 1) t in
             if time_wait_ticks t =? 0 then with_state TCP_CLOSED t else t), [])
  else if negb (retransmits (state t)) then (Some t, [])
  else if negb (seq_before (send_una t) (send_nxt t)) then let '(t, o) := poll_idle now t in (Some t, o)
  else if retry_count t =? 0 then (Some t, [])
  else if 0 <? retry_ticks t then (Some (with_retry (retry_count t) (retry_ticks t - 1) t), [])
  else
    match retransmission t with
    | None => (Some (with_retry (retry_count t) 1 t), [])
    | Some seg =>
        let t := with_retry (retry_count t - 1) RETRY_INTERVAL t in
        (Some (if retry_count t =? 0 then with_state TCP_CLOSED t
               else with_dup 0 (last_ack_seq t) (with_cwnd MSS (Z.max (cwnd t / 2) MSS) t)), [seg])
    end.

(** ** What the calls of the socket layer do to a block *)

(** Data goes to the free part of the transmit buffer; the number of bytes taken. *)
Definition queue_data (data : bytes) (t : Tcb) : nat * Tcb :=
  let available := (TX_BUF_LEN - tx_data_len t)%nat in
  let copy_len := Nat.min (length data) available in
  (copy_len, with_tx (splice (tx_data_len t) (take copy_len data) (tx_data t)) (tx_data_len t + copy_len) t).

Definition flush_len (t : Tcb) : nat := Nat.min (tx_data_len t) 1460.

(** The segment [flush_tx] sends, and the block when it was sent. *)
Definition data_segment (t : Tcb) : bytes :=
  own_segment t (send_nxt t) ACK_PSH (take (flush_len t) (tx_data t)) (20 + flush_len t).

Definition flushed (t : Tcb) : Tcb :=
  with_retry MAX_RETRIES RETRY_INTERVAL (with_nxt (u32_add (send_nxt t) (Z.of_nat (flush_len t))) t).

(** Data leaves the receive buffer. *)
Definition read_rx (buf_len : nat) (t : Tcb) : bytes * Tcb :=
  let copy_len := Nat.min (rx_data_len t) buf_len in
  let d := if (copy_len <? rx_data_len t)%nat then splice 0 (slice copy_len (rx_data_len t) (rx_data t)) (rx_data t) else rx_data t in
  (take copy_len (rx_data t), with_rx d (rx_data_len t - copy_len) t).

(** The segment [close] sends, and the block when it was sent. *)
Definition fin_segment (t : Tcb) : bytes := own_segment t (send_nxt t) FIN_ACK [] 20.

Definition finished (t : Tcb) : Tcb :=
  let st := if state_is (state t) TCP_CLOSE_WAIT then TCP_LAST_ACK else TCP_FIN_WAIT1 in
  with_retry MAX_RETRIES RETRY_INTERVAL (with_state st (with_nxt (u32_add (send_nxt t) 1) t)).

(** ** The table and the calls *)

(** What the code calls of the layer below: [ipv4::send] and the address of [nic::get_iface]. *)
Class IpLayer (W : Type) := {
  ip_send : nat -> bytes -> Z -> bytes -> W -> option (bool * W);
  iface_ip : nat -> W -> option bytes;
}.

Record Entropy := { random : Z; tsc : Z; counter : Z }.

Definition rand_isn (e : Entropy) : Z :=
  let mixed := u64_add (u64_add ((random e * 6364136223846793005) mod U64) (tsc e)) ((counter e * 123456789) mod U64) in
  Z.lxor mixed (Z.shiftr mixed 16) mod U32.

Record TcpSys (W : Type) := { conns : list (option Tcb); world : W }.

#[global] Arguments conns {W}.
#[global] Arguments world {W}.
#[global] Arguments Build_TcpSys {W}.

Definition Tcp (W A : Type) : Type := TcpSys W -> option (A * TcpSys W).

#[global] Instance Tcp_ret W : MRet (Tcp W) := fun A a s => Some (a, s).
#[global] Instance Tcp_bind W : MBind (Tcp W) := fun A B f m s =>
  match m s with Some (a, s') => f a s' | None => None end.

Record TcpConnInfo := {
  ci_active : bool;
  ci_local_port : Z;
  ci_local_ip : bytes;
  ci_remote_port : Z;
  ci_remote_ip : bytes;
  ci_state : Z;
}.

Section calls.
Context {W : Type} `{!IpLayer W}.

#[local] Notation T := (Tcp W).

Definition get {A} (f : list (option Tcb) -> A) : T A := fun s => Some (f (conns s), s).

(** [state.conns[i] = o] *)
Definition set_conn (i : nat) (o : option Tcb) : T unit := fun s =>
  Some (tt, {| conns := <[i := o]> (conns s); world := world s |}).

Definition ip_out (idx : nat) (dst seg : bytes) : T bool := fun s =>
  (fun r => (r.1, {| conns := conns s; world := r.2 |})) <$> ip_send idx dst PROTO_TCP seg (world s).

Definition local_address (idx : nat) : T bytes := fun s =>
  Some (default [0; 0; 0; 0] (iface_ip idx (world s)), s).

(** Sends whose results are not used. *)
Fixpoint send_all (idx : nat) (dst : bytes) (segs : list bytes) : T unit :=
  match segs with
  | [] => mret tt
  | seg :: segs => ip_out idx dst seg ≫= fun _ => send_all idx dst segs
  end.

Definition conn (cs : list (option Tcb)) (i : nat) : option Tcb := mjoin (cs !! i).

Definition is_free (o : option Tcb) : bool := match o with None => true | Some _ => false end.
Definition is_closed (o : option Tcb) : bool := match o with Some t => state_is (state t) TCP_CLOSED | None => false end.

(** The first index of [0..MAX_CONNS] whose slot passes a test. *)
Definition first_conn (p : option Tcb -> bool) (cs : list (option Tcb)) : option nat :=
  List.find (fun i => p (conn cs i)) (seq 0 MAX_CONNS).

Definition find_slot (cs : list (option Tcb)) : option nat :=
  match first_conn is_free cs with
  | Some i => Some i
  | None => first_conn is_closed cs
  end.

Definition conn_by_port (port : Z) (cs : list (option Tcb)) : option nat :=
  first_conn (fun o => match o with Some t => listening t && (local_port t =? port) | None => false end) cs.

Definition listen (port : Z) : T (option nat) :=
  get (conn_by_port port) ≫= fun o =>
  match o with
  | Some _ => mret None
  | None =>
      get find_slot ≫= fun o =>
      match o with
      | None => mret None
      | Some idx =>
          set_conn idx (Some (new_tcb TCP_LISTEN [0; 0; 0; 0] port [0; 0; 0; 0] 0 0 0 0 true 0 0)) ≫= fun _ => mret (Some idx)
      end
  end.

Definition connect (e : Entropy) (iface_idx : nat) (lport : Z) (dst_ip : bytes) (dport : Z) : T (option nat) :=
  get find_slot ≫= fun o =>
  match o with
  | None => mret None
  | Some idx =>
      local_address iface_idx ≫= fun lip =>
      if bytes_eqb lip [0; 0; 0; 0] || bytes_eqb lip [127; 0; 0; 1] then mret None
      else
        let isn := rand_isn e in
        let seg := build_syn_segment lport dport isn 0 TCP_FLAG_SYN 65535 in
        ip_out iface_idx dst_ip (sealed lip dst_ip 32 seg) ≫= fun sent =>
        if negb sent then mret None
        else
          set_conn idx (Some (new_tcb TCP_SYN_SENT lip lport dst_ip dport isn (u32_add isn 1) 0 false MAX_RETRIES RETRY_INTERVAL)) ≫= fun _ =>
          mret (Some idx)
  end.

(** The block a segment belongs to: the last one of the table that matches. *)
Definition matches (sg : Seg) (o : option Tcb) : bool :=
  match o with
  | Some t =>
      if listening t then local_port t =? sg_dport sg
      else (local_port t =? sg_dport sg) && (remote_port t =? sg_sport sg) && bytes_eqb (remote_ip t) (sg_src sg)
  | None => false
  end.

Definition find_conn (sg : Seg) (cs : list (option Tcb)) : option nat :=
  foldl (fun found i => if matches sg (conn cs i) then Some i else found) None (seq 0 MAX_CONNS).

(** The answer to a segment for no connection. *)
Definition reset_of (sg : Seg) : bytes :=
  reply sg (if has TCP_FLAG_ACK sg then sg_ack sg else 0)
    (seq_advance (sg_seq sg) (length (sg_payload sg)) (if has TCP_FLAG_FIN sg then 1 else 0)) RST_ACK 0.

(** A segment for a listening block: a SYN makes a new one. *)
Definition on_listen (e : Entropy) (iface_idx : nat) (sg : Seg) : T bool :=
  if has TCP_FLAG_SYN sg && negb (has TCP_FLAG_ACK sg) then
    get find_slot ≫= fun o =>
    match o with
    | None => mret false
    | Some child =>
        let isn := rand_isn e in
        ip_out iface_idx (sg_src sg) (reply sg isn (seq_advance (sg_seq sg) 0 1) SYN_ACK 65535) ≫= fun sent =>
        (if sent : bool then
           set_conn child (Some (new_tcb TCP_SYN_RECEIVED (sg_dst sg) (sg_dport sg) (sg_src sg) (sg_sport sg) isn (u32_add isn 1)
             (seq_advance (sg_seq sg) 0 1) false MAX_RETRIES RETRY_INTERVAL))
         else mret tt) ≫= fun _ => mret true
    end
  else mret true.

Definition handle_receive (e : Entropy) (iface_idx : nat) (src_ip dst_ip segment : bytes) : T bool :=
  match parse_segment src_ip dst_ip segment with
  | None => mret false
  | Some sg =>
      get (find_conn sg) ≫= fun o =>
      match o with
      | None =>
          (if negb (has TCP_FLAG_RST sg) && negb (has TCP_FLAG_SYN sg) then send_all iface_idx src_ip [reset_of sg] else mret tt) ≫= fun _ =>
          mret false
      | Some i =>
          get (fun cs => conn cs i) ≫= fun c =>
          match c with
          | None => mret false
          | Some t =>
              if negb (has TCP_FLAG_RST sg) && state_is (state t) TCP_LISTEN then on_listen e iface_idx sg
              else
                let '(t, out) := tcb_receive (counter e) sg t in
                set_conn i (Some t) ≫= fun _ => send_all iface_idx src_ip out ≫= fun _ => mret true
          end
      end
  end.

(** One turn of the loop of [poll_retransmit]; [now] is the tick count it reads. *)
Definition poll_conn (now : nat -> Z) (iface_idx i : nat) : T unit :=
  get (fun cs => conn cs i) ≫= fun c =>
  match c with
  | None => mret tt
  | Some t =>
      let '(o, out) := poll_tcb (now i) t in
      set_conn i o ≫= fun _ => send_all iface_idx (remote_ip t) out
  end.

Fixpoint poll_conns (now : nat -> Z) (iface_idx : nat) (is_ : list nat) : T unit :=
  match is_ with
  | [] => mret tt
  | i :: is_ => poll_conn now iface_idx i ≫= fun _ => poll_conns now iface_idx is_
  end.

Definition poll_retransmit (now : nat -> Z) (iface_idx : nat) : T unit := poll_conns now iface_idx (seq 0 MAX_CONNS).

(** *** The calls of the socket layer *)

Definition is_open (t : Tcb) : bool := state_is (state t) TCP_ESTABLISHED || state_is (state t) TCP_CLOSE_WAIT.

(** Runs [f] on an open block. *)
Definition with_open {A} (c : nat) (none : A) (f : Tcb -> T A) : T A :=
  if (MAX_CONNS <=? c)%nat then mret none
  else
    get (fun cs => conn cs c) ≫= fun o =>
    match o with
    | Some t => if is_open t then f t else mret none
    | None => mret none
    end.

Definition send_data (c : nat) (data : bytes) : T bool :=
  with_open c false (fun t =>
    let '(copy_len, t) := queue_data data t in
    (if (0 <? copy_len)%nat then set_conn c (Some t) else mret tt) ≫= fun _ => mret (0 <? copy_len)%nat).

Definition flush_tx (c : nat) (iface_idx : nat) : T bool :=
  with_open c false (fun t =>
    if (tx_data_len t =? 0)%nat then mret true
    else
      ip_out iface_idx (remote_ip t) (data_segment t) ≫= fun result =>
      (if result : bool then set_conn c (Some (flushed t)) else mret tt) ≫= fun _ => mret result).

Definition receive_data (c : nat) (buf_len : nat) : T (option bytes) :=
  if (MAX_CONNS <=? c)%nat then mret None
  else
    get (fun cs => conn cs c) ≫= fun o =>
    match o with
    | Some t =>
        if (rx_data_len t =? 0)%nat then mret None
        else let '(data, t) := read_rx buf_len t in set_conn c (Some t) ≫= fun _ => mret (Some data)
    | None => mret None
    end.

Definition close (c : nat) (iface_idx : nat) : T bool :=
  with_open c false (fun t =>
    ip_out iface_idx (remote_ip t) (fin_segment t) ≫= fun result =>
    (if result : bool then set_conn c (Some (finished t)) else mret tt) ≫= fun _ => mret result).

Definition close_conn (c : nat) : T unit := if (MAX_CONNS <=? c)%nat then mret tt else set_conn c None.

Definition is_connected (c : nat) : T bool := with_open c false (fun _ => mret true).

Definition has_data (c : nat) : T bool :=
  if (MAX_CONNS <=? c)%nat then mret false
  else get (fun cs => match conn cs c with Some t => (0 <? rx_data_len t)%nat | None => false end).

Definition get_conn_info (c : nat) : T (option (Z * bytes * Z * bytes * Z)) :=
  if (MAX_CONNS <=? c)%nat then mret None
  else
    get (fun cs => (fun t => (state_code (state t), remote_ip t, remote_port t, local_ip t, local_port t)) <$> conn cs c).

Definition state_str (s : TcbState) : string :=
  match s with
  | TCP_CLOSED => "CLOSED"
  | TCP_LISTEN => "LISTEN"
  | TCP_SYN_SENT => "SYN_SENT"
  | TCP_SYN_RECEIVED => "SYN_RCVD"
  | TCP_ESTABLISHED => "ESTAB"
  | TCP_FIN_WAIT1 => "FIN_WAIT1"
  | TCP_FIN_WAIT2 => "FIN_WAIT2"
  | TCP_CLOSE_WAIT => "CLOSE_WAIT"
  | TCP_CLOSING => "CLOSING"
  | TCP_LAST_ACK => "LAST_ACK"
  | TCP_TIME_WAIT => "TIME_WAIT"
  end.

Definition state_name (c : nat) : T string :=
  if (MAX_CONNS <=? c)%nat then mret "NONE"%string
  else get (fun cs => match conn cs c with Some t => state_str (state t) | None => "NONE"%string end).

Definition tcp_status : T (list TcpConnInfo) :=
  get (fun cs => map (fun i =>
    match conn cs i with
    | Some t =>
        {| ci_active := true; ci_local_port := local_port t; ci_local_ip := local_ip t; ci_remote_port := remote_port t;
           ci_remote_ip := remote_ip t; ci_state := state_code (state t) |}
    | None =>
        {| ci_active := false; ci_local_port := 0; ci_local_ip := [0; 0; 0; 0]; ci_remote_port := 0; ci_remote_ip := [0; 0; 0; 0]; ci_state := 0 |}
    end) (seq 0 MAX_CONNS)).

Definition connection_count : T nat :=
  get (fun cs => length (List.filter (fun i => negb (is_free (conn cs i))) (seq 0 MAX_CONNS))).

End calls.
