(* ===== verification/TcpProofs.v ===== *)
(** Theorems about the control blocks and segments of Tcp.v.

    What is built is parsed back, checksum included; the steps of one block and of
    two blocks that talk to each other follow from the transition functions; and the calls
    keep a table of blocks well-formed over every lawful layer below ([call_spec]). *)

From S2P Require Import Prelude Bytes Wire Tcp.

Import WireProofs.

Lemma be32_bytes_ok v : bytes_ok (be32_bytes v).
Proof. repeat constructor; apply Z.mod_pos_bound; lia. Qed.

(** Bytes of strings put together. *)
Ltac ok_app :=
  lazymatch goal with
  | |- bytes_ok (_ ++ _) => apply Forall_app_2; ok_app
  | |- Forall is_u8 (_ ++ _) => apply Forall_app_2; ok_app
  | |- _ => first [assumption | apply be16_bytes_ok | apply be32_bytes_ok | by repeat constructor
              | solve [repeat (apply Forall_cons_2; [assumption|]); apply Forall_nil_2] | idtac]
  end.

(** ** Checksums *)

(** The pseudo header the checksum covers. *)
Definition pseudo (src dst : bytes) (len : nat) : bytes := src ++ dst ++ [0; 6] ++ be16_bytes (Z.of_nat len mod 65536).

Lemma checksum_pseudo src dst seg : length src = 4%nat -> length dst = 4%nat ->
  checksum src dst seg = internet_checksum (pseudo src dst (length seg) ++ seg).
Proof.
  intros (a&b&c&d&->)%length_4_inv (e&f&g&h&->)%length_4_inv. unfold checksum, internet_checksum, pseudo, be16_bytes.
  set (v := Z.of_nat (length seg) mod 65536). assert (is_u16 v) as Hv by (unfold is_u16, v; apply Z.mod_pos_bound; lia).
  cbn [app sum_words]. rewrite be16_of_bytes by done. change (be16 0 6) with 6.
  change (be16_at [a; b; c; d] 0) with (be16 a b). change (be16_at [a; b; c; d] 2) with (be16 c d).
  change (be16_at [e; f; g; h] 0) with (be16 e f). change (be16_at [e; f; g; h] 2) with (be16 g h).
  unfold U32. rewrite Z.add_0_l, (Zplus_mod_idemp_l (be16 a b)). done.
Qed.

Lemma pseudo_ok src dst n : bytes_ok src -> bytes_ok dst -> bytes_ok (pseudo src dst n).
Proof.
  intros Hs Hd. unfold pseudo. ok_app.
Qed.

(** A segment with its checksum at byte 16 verifies. *)
Lemma checksum_verifies src dst x y :
  length src = 4%nat -> length dst = 4%nat -> bytes_ok src -> bytes_ok dst -> bytes_ok (x ++ y) -> length x = 16%nat -> (length y <= 2000)%nat ->
  is_u16 (checksum src dst (x ++ [0; 0] ++ y)) /\
  checksum src dst (x ++ be16_bytes (checksum src dst (x ++ [0; 0] ++ y)) ++ y) = 0.
Proof.
  intros Hs Hd Hso Hdo Hok Hx Hy. rewrite !checksum_pseudo by done. rewrite !length_app. cbn [be16_bytes length].
  set (p := pseudo src dst (length x + (2 + length y))).
  assert (bytes_ok p) as Hp by by apply pseudo_ok.
  assert (length p = 12%nat) as Hl by (unfold p, pseudo; rewrite !length_app, Hs, Hd; done).
  apply Forall_app in Hok as [Hxo Hyo].
  assert (bytes_ok (p ++ x ++ [0; 0] ++ y)) as Hall by ok_app.
  split.
  - apply internet_checksum_range; [done|]. unfold fits_u32. rewrite !length_app, Hl, Hx. cbn [length]. lia.
  - rewrite !app_assoc. rewrite <-!(app_assoc (p ++ x)). apply checksum_inserted.
    + ok_app.
    + rewrite length_app, Hl, Hx. by exists 14%nat.
    + rewrite length_app, Hl, Hx. lia.
Qed.

(** ** Segments are parsed back *)

(** The header as bytes; [off] is the byte of the data offset and [c0], [c1] the checksum. *)
Definition hdr (sport dport seq ack off flags window c0 c1 : Z) : bytes :=
  be16_bytes sport ++ be16_bytes dport ++ be32_bytes seq ++ be32_bytes ack ++ [off; flags] ++ be16_bytes window ++ [c0; c1; 0; 0].

Lemma build_layout sport dport seq ack flags window payload : (length payload <= 1480)%nat ->
  build_segment sport dport seq ack flags window payload =
  hdr sport dport seq ack 0x50 flags window 0 0 ++ payload ++ replicate (1480 - length payload) 0.
Proof.
  intros Hl. unfold build_segment. rewrite Nat.min_l, take_ge by lia. change (replicate 1500 0) with (replicate 20 0 ++ replicate 1480 0).
  assert (replicate (1480 - length payload) 0 = drop (length payload) (replicate 1480 0)) as -> by (by rewrite drop_replicate).
  generalize (replicate 1480 0). intros r. unfold hdr, be16_bytes, be32_bytes. reflexivity.
Qed.

(** Filling in the checksum. *)
Lemma sealed_layout src dst sport dport seq ack off flags window body rest n : n = (20 + length body)%nat ->
  let c := checksum src dst (hdr sport dport seq ack off flags window 0 0 ++ body) in
  sealed src dst n (hdr sport dport seq ack off flags window 0 0 ++ body ++ rest) =
  hdr sport dport seq ack off flags window (Z.shiftr c 8) (Z.land c 0xFF) ++ body.
Proof.
  intros -> c. unfold sealed.
  assert (take (20 + length body) (hdr sport dport seq ack off flags window 0 0 ++ body ++ rest) =
    hdr sport dport seq ack off flags window 0 0 ++ body) as ->.
  { rewrite app_assoc. apply take_app_length'. rewrite length_app. done. }
  fold c.
  assert (splice 16 [Z.shiftr c 8; Z.land c 0xFF] (hdr sport dport seq ack off flags window 0 0 ++ body ++ rest) =
    (hdr sport dport seq ack off flags window (Z.shiftr c 8) (Z.land c 0xFF) ++ body) ++ rest) as ->.
  { unfold hdr, be16_bytes, be32_bytes. reflexivity. }
  apply take_app_length'. rewrite length_app. done.
Qed.

(** Parsing a sealed header and what follows it. *)
Lemma parse_sealed src dst sport dport seq ack off flags window body opts payload rest n :
  length src = 4%nat -> length dst = 4%nat -> bytes_ok src -> bytes_ok dst ->
  is_u16 sport -> is_u16 dport -> is_u32 seq -> is_u32 ack -> is_u8 off -> is_u8 flags -> is_u16 window ->
  bytes_ok body -> (length body <= 1480)%nat -> n = (20 + length body)%nat ->
  body = opts ++ payload -> Z.shiftr off 4 * 4 = Z.of_nat (20 + length opts) ->
  parse_segment src dst (sealed src dst n (hdr sport dport seq ack off flags window 0 0 ++ body ++ rest)) =
  Some {| sg_src := src; sg_dst := dst; sg_sport := sport; sg_dport := dport; sg_seq := seq; sg_ack := ack;
          sg_flags := flags; sg_window := window; sg_payload := payload |}.
Proof.
  intros Hs Hd Hso Hdo Hsp Hdp Hsq Hak Hof Hfl Hwi Hbo Hbl Hn Hb Ho. rewrite sealed_layout by done.
  set (x := be16_bytes sport ++ be16_bytes dport ++ be32_bytes seq ++ be32_bytes ack ++ [off; flags] ++ be16_bytes window).
  assert (forall c0 c1, hdr sport dport seq ack off flags window c0 c1 ++ body = x ++ [c0; c1] ++ ([0; 0] ++ body)) as Hh by done.
  rewrite !Hh. destruct (checksum_verifies src dst x ([0; 0] ++ body)) as [Hc Hv]; [done|done|done|done| |done|rewrite length_app; cbn [length]; lia|].
  { unfold x. ok_app. }
  set (c := checksum src dst _) in *. rewrite csum_bytes by done. unfold parse_segment. rewrite Hv.
  assert (length (x ++ be16_bytes c ++ [0; 0] ++ body) = (20 + length body)%nat) as -> by done.
  unfold x, be16_bytes, be32_bytes. cbn [app negb Z.eqb].
  change (byte_at _ 12) with off. rewrite Ho, Nat2Z.id. rewrite !(proj2 (Nat.ltb_ge _ 20)) by lia.
  rewrite (proj2 (Nat.ltb_ge _ _)) by (rewrite Hb, length_app; lia). cbn [orb]. f_equal.
  change (be16_at _ 0) with (be16 (sport / 256 mod 256) (sport mod 256)).
  change (be16_at _ 2) with (be16 (dport / 256 mod 256) (dport mod 256)).
  change (be16_at _ 14) with (be16 (window / 256 mod 256) (window mod 256)).
  change (be32_at _ 4) with (be16 (seq / 2 ^ 24 mod 256) (seq / 2 ^ 16 mod 256) * 65536 + be16 (seq / 256 mod 256) (seq mod 256)).
  change (be32_at _ 8) with (be16 (ack / 2 ^ 24 mod 256) (ack / 2 ^ 16 mod 256) * 65536 + be16 (ack / 256 mod 256) (ack mod 256)).
  rewrite (be16_of_bytes sport), (be16_of_bytes dport), (be16_of_bytes window), (be32_of_bytes seq), (be32_of_bytes ack) by done.
  f_equal. cbn [Nat.add drop]. by rewrite Hb, drop_app_length.
Qed.

(** A segment of [build_segment]. *)
Lemma parse_built src dst sport dport seq ack flags window payload n :
  length src = 4%nat -> length dst = 4%nat -> bytes_ok src -> bytes_ok dst ->
  is_u16 sport -> is_u16 dport -> is_u32 seq -> is_u32 ack -> is_u8 flags -> is_u16 window ->
  bytes_ok payload -> (length payload <= 1480)%nat -> n = (20 + length payload)%nat ->
  parse_segment src dst (sealed src dst n (build_segment sport dport seq ack flags window payload)) =
  Some {| sg_src := src; sg_dst := dst; sg_sport := sport; sg_dport := dport; sg_seq := seq; sg_ack := ack;
          sg_flags := flags; sg_window := window; sg_payload := payload |}.
Proof. intros. rewrite build_layout by done. by apply (parse_sealed _ _ _ _ _ _ _ _ _ payload [] payload). Qed.

Lemma parse_syn src dst sport dport seq ack flags window :
  length src = 4%nat -> length dst = 4%nat -> bytes_ok src -> bytes_ok dst ->
  is_u16 sport -> is_u16 dport -> is_u32 seq -> is_u32 ack -> is_u8 flags -> is_u16 window ->
  parse_segment src dst (sealed src dst 32 (build_syn_segment sport dport seq ack flags window)) =
  Some {| sg_src := src; sg_dst := dst; sg_sport := sport; sg_dport := dport; sg_seq := seq; sg_ack := ack;
          sg_flags := flags; sg_window := window; sg_payload := [] |}.
Proof.
  intros. unfold build_syn_segment. rewrite build_layout by (cbn; lia). cbn [length app].
  set (opts := [2; 4; Z.shiftr MSS 8; Z.land MSS 0xFF; 3; 3; 7; 4; 2; 1; 1; 1]).
  assert (splice 12 [0x80] (splice 20 opts (hdr sport dport seq ack 0x50 flags window 0 0 ++ replicate (1480 - 0) 0)) =
    hdr sport dport seq ack 0x80 flags window 0 0 ++ opts ++ replicate 1468 0) as -> by (unfold hdr, be16_bytes, be32_bytes; reflexivity).
  apply (parse_sealed _ _ _ _ _ _ _ _ _ opts opts []); try done; [by repeat constructor|cbn; lia].
Qed.

(** ** Well-formed blocks *)

Definition is_ip (a : bytes) : Prop := length a = 4%nat /\ bytes_ok a.

Definition addr_ok (t : Tcb) : Prop :=
  is_ip (local_ip t) /\ is_ip (remote_ip t) /\ is_u16 (local_port t) /\ is_u16 (remote_port t).

Definition core_ok (t : Tcb) : Prop :=
  is_u32 (send_una t) /\ is_u32 (send_nxt t) /\ is_u32 (recv_nxt t) /\ is_u16 (peer_window t) /\
  (listening t = true -> state t = TCP_LISTEN \/ state t = TCP_CLOSED) /\ (state t = TCP_LISTEN -> listening t = true).

Definition buf_ok (d : bytes) (n size : nat) : Prop := length d = size /\ (n <= size)%nat /\ bytes_ok d.

Definition bufs_ok (t : Tcb) : Prop :=
  buf_ok (rx_data t) (rx_data_len t) RX_BUF_LEN /\ buf_ok (tx_data t) (tx_data_len t) TX_BUF_LEN /\
  length (sack_blocks t) = 4%nat /\ Forall (fun b => is_u32 b.1 /\ is_u32 b.2) (sack_blocks t).

Definition timers_ok (t : Tcb) : Prop :=
  0 <= retry_count t <= MAX_RETRIES /\ 0 <= retry_ticks t <= RETRY_INTERVAL /\ 0 <= time_wait_ticks t <= 20 /\
  MSS <= cwnd t <= 65535 /\ MSS <= ssthresh t <= 65535 /\ 0 <= dupack_count t <= 255 /\ is_u32 (last_ack_seq t) /\
  0 <= keepalive_probes t <= KEEPALIVE_PROBES /\ is_u64 (keepalive_due t).

Definition tcb_ok (t : Tcb) : Prop := addr_ok t /\ core_ok t /\ bufs_ok t /\ timers_ok t.

Definition seg_ok (sg : Seg) : Prop :=
  is_ip (sg_src sg) /\ is_ip (sg_dst sg) /\ is_u16 (sg_sport sg) /\ is_u16 (sg_dport sg) /\ is_u32 (sg_seq sg) /\ is_u32 (sg_ack sg) /\
  is_u8 (sg_flags sg) /\ is_u16 (sg_window sg) /\ bytes_ok (sg_payload sg).

Lemma u32_add_ok a b : is_u32 (u32_add a b).
Proof. apply Z.mod_pos_bound. done. Qed.
Lemma u32_sub_ok a b : is_u32 (u32_sub a b).
Proof. apply Z.mod_pos_bound. done. Qed.
Lemma seq_advance_ok a n x : is_u32 (seq_advance a n x).
Proof. apply u32_add_ok. Qed.
Lemma win_ok n : is_u16 (advertised_window n).
Proof. unfold is_u16, advertised_window. lia. Qed.
Lemma deadline_ok now x : is_u64 now -> 0 <= x -> is_u64 (saturating_add now x).
Proof. unfold saturating_add. word_lia. Qed.

#[export] Hint Resolve u32_add_ok u32_sub_ok seq_advance_ok win_ok : zenus.

Lemma be32_at_ok l n : bytes_ok l -> is_u32 (be32_at l n).
Proof.
  intros H. unfold be32_at, is_u32. pose proof (be16_at_ok l n H). pose proof (be16_at_ok l (n + 2) H).
  unfold is_u16 in *. change (2 ^ 32) with 4294967296. lia.
Qed.

Lemma parse_ok src dst segment sg :
  is_ip src -> is_ip dst -> bytes_ok segment -> parse_segment src dst segment = Some sg ->
  seg_ok sg /\ sg_src sg = src /\ sg_dst sg = dst.
Proof.
  intros Hs Hd Hok. unfold parse_segment. case_if; [done|]. case_if; [done|]. case_if; [done|]. intros [= <-].
  split; [|done]. unfold seg_ok. cbn. split_and!; try done; try apply be16_at_ok; try apply be32_at_ok; try done.
  - by apply byte_at_ok.
  - by apply Forall_drop.
Qed.

(** *** Assignments *)

Lemma set_core_ok st una nxt rcv peer t : tcb_ok t -> is_u32 una -> is_u32 nxt -> is_u32 rcv -> is_u16 peer ->
  (listening t = true -> st = TCP_LISTEN \/ st = TCP_CLOSED) -> (st = TCP_LISTEN -> listening t = true) ->
  tcb_ok (with_core st una nxt rcv peer t).
Proof.
  intros (Ha & Hc & Hb & Ht) H1 H2 H3 H4 H5 H6. split; [done|]. split; [|done].
  exact (conj H1 (conj H2 (conj H3 (conj H4 (conj H5 H6))))).
Qed.

Lemma set_bufs_ok rx rxl tx txl sack t : tcb_ok t -> buf_ok rx rxl RX_BUF_LEN -> buf_ok tx txl TX_BUF_LEN ->
  length sack = 4%nat -> Forall (fun b => is_u32 b.1 /\ is_u32 b.2) sack -> tcb_ok (with_bufs rx rxl tx txl sack t).
Proof.
  intros (Ha & Hc & Hb & Ht) H1 H2 H3 H4. split; [done|]. split; [done|]. split; [|done].
  exact (conj H1 (conj H2 (conj H3 H4))).
Qed.

Lemma set_timers_ok rc rt tw cw ss dup last kp kd t : tcb_ok t ->
  0 <= rc <= MAX_RETRIES -> 0 <= rt <= RETRY_INTERVAL -> 0 <= tw <= 20 -> MSS <= cw <= 65535 -> MSS <= ss <= 65535 -> 0 <= dup <= 255 ->
  is_u32 last -> 0 <= kp <= KEEPALIVE_PROBES -> is_u64 kd -> tcb_ok (with_timers rc rt tw cw ss dup last kp kd t).
Proof.
  intros (Ha & Hc & Hb & Ht) H1 H2 H3 H4 H5 H6 H7 H8 H9. split; [done|]. split; [done|]. split; [done|].
  exact (conj H1 (conj H2 (conj H3 (conj H4 (conj H5 (conj H6 (conj H7 (conj H8 H9)))))))).
Qed.

Section setters.
Context (t : Tcb) (Hok : tcb_ok t).

Let Hc := proj1 (proj2 Hok).
Let Hb := proj1 (proj2 (proj2 Hok)).
Let Ht := proj2 (proj2 (proj2 Hok)).

Lemma with_state_ok st : listening t = false -> st <> TCP_LISTEN -> tcb_ok (with_state st t).
Proof. destruct Hc as (H1 & H2 & H3 & H4 & _). intros Hl Hst. apply set_core_ok; try done. by rewrite Hl. Qed.

Lemma with_closed_ok : tcb_ok (with_state TCP_CLOSED t).
Proof. destruct Hc as (H1 & H2 & H3 & H4 & _). apply set_core_ok; try done. by right. Qed.

Lemma with_una_ok x : is_u32 x -> tcb_ok (with_una x t).
Proof. destruct Hc as (H1 & H2 & H3 & H4 & H5 & H6). intros. by apply set_core_ok. Qed.

Lemma with_nxt_ok x : is_u32 x -> tcb_ok (with_nxt x t).
Proof. destruct Hc as (H1 & H2 & H3 & H4 & H5 & H6). intros. by apply set_core_ok. Qed.

Lemma with_recv_ok x : is_u32 x -> tcb_ok (with_recv x t).
Proof. destruct Hc as (H1 & H2 & H3 & H4 & H5 & H6). intros. by apply set_core_ok. Qed.

Lemma with_peer_ok x : is_u16 x -> tcb_ok (with_peer x t).
Proof. destruct Hc as (H1 & H2 & H3 & H4 & H5 & H6). intros. by apply set_core_ok. Qed.

Lemma with_rx_ok d n : buf_ok d n RX_BUF_LEN -> tcb_ok (with_rx d n t).
Proof. destruct Hb as (H1 & H2 & H3 & H4). intros. by apply set_bufs_ok. Qed.

Lemma with_tx_ok d n : buf_ok d n TX_BUF_LEN -> tcb_ok (with_tx d n t).
Proof. destruct Hb as (H1 & H2 & H3 & H4). intros. by apply set_bufs_ok. Qed.

Lemma with_sack_ok b : length b = 4%nat -> Forall (fun b => is_u32 b.1 /\ is_u32 b.2) b -> tcb_ok (with_sack b t).
Proof. destruct Hb as (H1 & H2 & H3 & H4). intros. by apply set_bufs_ok. Qed.

Lemma with_retry_ok rc rt : 0 <= rc <= MAX_RETRIES -> 0 <= rt <= RETRY_INTERVAL -> tcb_ok (with_retry rc rt t).
Proof. destruct Ht as (H1 & H2 & H3 & H4 & H5 & H6 & H7 & H8 & H9). intros. by apply set_timers_ok. Qed.

Lemma with_time_wait_ok tw : 0 <= tw <= 20 -> tcb_ok (with_time_wait tw t).
Proof. destruct Ht as (H1 & H2 & H3 & H4 & H5 & H6 & H7 & H8 & H9). intros. by apply set_timers_ok. Qed.

Lemma with_cwnd_ok cw ss : MSS <= cw <= 65535 -> MSS <= ss <= 65535 -> tcb_ok (with_cwnd cw ss t).
Proof. destruct Ht as (H1 & H2 & H3 & H4 & H5 & H6 & H7 & H8 & H9). intros. by apply set_timers_ok. Qed.

Lemma with_dup_ok dup last : 0 <= dup <= 255 -> is_u32 last -> tcb_ok (with_dup dup last t).
Proof. destruct Ht as (H1 & H2 & H3 & H4 & H5 & H6 & H7 & H8 & H9). intros. by apply set_timers_ok. Qed.

Lemma with_keepalive_ok kp kd : 0 <= kp <= KEEPALIVE_PROBES -> is_u64 kd -> tcb_ok (with_keepalive kp kd t).
Proof. destruct Ht as (H1 & H2 & H3 & H4 & H5 & H6 & H7 & H8 & H9). intros. by apply set_timers_ok. Qed.

End setters.

Lemma new_tcb_ok st lip lport rip rport una nxt rcv lis retries ticks :
  is_ip lip -> is_ip rip -> is_u16 lport -> is_u16 rport -> is_u32 una -> is_u32 nxt -> is_u32 rcv ->
  (lis = true -> st = TCP_LISTEN) -> (st = TCP_LISTEN -> lis = true) ->
  0 <= retries <= MAX_RETRIES -> 0 <= ticks <= RETRY_INTERVAL ->
  tcb_ok (new_tcb st lip lport rip rport una nxt rcv lis retries ticks).
Proof.
  intros H1 H2 H3 H4 H5 H6 H7 H8 H9 H10 H11.
  assert (forall n, bytes_ok (replicate n 0)) as Hz by (intros n; apply Forall_replicate; unfold is_u8; lia).
  split; [|split; [|split]].
  - exact (conj H1 (conj H2 (conj H3 H4))).
  - refine (conj H5 (conj H6 (conj H7 (conj _ (conj _ H9))))); [unfold is_u16; cbn; lia|]. intros Hl. left. by apply H8.
  - split; [|split; [|split]]; [split; [apply length_replicate|split; [apply Nat.le_0_l|apply Hz]]..|done|].
    cbn. repeat constructor; unfold is_u32; cbn; lia.
  - refine (conj H10 (conj H11 _)). cbn. unfold INIT_CWND, INIT_SSTHRESH, is_u32, is_u64, MSS, KEEPALIVE_PROBES, U64. lia.
Qed.

(** Copying into and moving within a buffer. *)
Lemma buf_append d n x size : buf_ok d n size -> bytes_ok x -> (n + length x <= size)%nat -> buf_ok (splice n x d) (n + length x) size.
Proof.
  intros (Hl & Hn & Hd) Hx Hs. split; [rewrite length_splice; lia|]. split; [done|].
  unfold splice. apply Forall_app_2; [by apply Forall_take|]. apply Forall_app_2; [done|by apply Forall_drop].
Qed.

Lemma buf_shift d n k size : buf_ok d n size -> (k <= n)%nat ->
  buf_ok (if (k <? n)%nat then splice 0 (slice k n d) d else d) (n - k) size.
Proof.
  intros (Hl & Hn & Hd) Hk. destruct (Nat.ltb_spec k n); [|split; [done|split; [lia|done]]].
  assert (length (slice k n d) = (n - k)%nat) as Hs by (rewrite length_slice; lia).
  destruct (buf_append d 0 (slice k n d) size) as (H1 & H2 & H3); [split; [done|split; [lia|done]]| |rewrite Hs; lia|].
  - unfold slice. by apply Forall_take, Forall_drop.
  - rewrite Nat.add_0_l, Hs in H2. by split_and!.
Qed.

(** ** The steps keep blocks well-formed *)

Lemma take_payload_ok sg t : tcb_ok t -> seg_ok sg -> tcb_ok (take_payload sg t).
Proof.
  intros Hok (_&_&_&_&_&_&_&_&Hp). unfold take_payload. apply with_recv_ok; [|apply seq_advance_ok]. apply with_rx_ok; [done|].
  destruct Hok as (_ & _ & (Hrx & _) & _). pose proof Hrx as (_ & Hn & _).
  set (k := Nat.min _ _). assert (length (take k (sg_payload sg)) = k) as Hl by (rewrite length_take; lia).
  rewrite <-Hl at 2. apply buf_append; [done|by apply Forall_take|]. rewrite Hl. unfold k, rx_free. clear -Hn. lia.
Qed.

Lemma count_dupack_ok sg t : tcb_ok t -> seg_ok sg -> tcb_ok (count_dupack sg t).
Proof.
  intros Hok (_&_&_&_&_&Ha&_&_&_). unfold count_dupack. set (t1 := if _ && _ then _ else _).
  assert (tcb_ok t1) as H1.
  { pose proof Hok as (_ & _ & _ & Ht). destruct Ht as (_ & _ & _ & _ & _ & Hd & Hl & _). unfold t1. case_if; [|case_if; [|done]].
    - assert (tcb_ok (with_dup (Z.min 255 (dupack_count t + 1)) (last_ack_seq t) t)) as H2 by (apply with_dup_ok; [done|lia|done]).
      case_if; [|done]. apply with_retry_ok; [done|unfold MAX_RETRIES; lia|unfold RETRY_INTERVAL; lia].
    - apply with_dup_ok; [done|lia|done]. }
  case_if; [|done]. apply with_dup_ok; [done| |done]. destruct H1 as (_ & _ & _ & Ht). apply Ht.
Qed.

Lemma take_ack_ok sg t : tcb_ok t -> seg_ok sg -> tcb_ok (take_ack sg t).2.
Proof.
  intros Hok (_&_&_&_&_&Ha&_&_&_). unfold take_ack. case_if; [|done]. cbn [snd].
  set (x := u32_sub (sg_ack sg) (send_una t)). pose proof (u32_sub_ok (sg_ack sg) (send_una t)) as Hx. fold x in Hx. unfold is_u32 in Hx.
  assert (tcb_ok (with_una (sg_ack sg) t)) as H1 by by apply with_una_ok.
  set (t2 := if x <=? _ then _ else _). assert (tcb_ok t2) as H2.
  { unfold t2. destruct (Z.leb_spec x (Z.of_nat (tx_data_len (with_una (sg_ack sg) t)))) as [Hle|]; [|done].
    apply with_tx_ok; [done|]. apply buf_shift; [by destruct H1 as (_ & _ & (_ & Htx & _) & _)|lia]. }
  case_if; [|done]. apply with_retry_ok; [done|unfold MAX_RETRIES; lia|unfold RETRY_INTERVAL; lia].
Qed.

Lemma on_ack_ok now sg t : tcb_ok t -> seg_ok sg -> is_u64 now -> tcb_ok (on_ack now sg t).
Proof.
  intros Hok Hsg Hnow. unfold on_ack. pose proof (take_ack_ok sg _ (count_dupack_ok sg t Hok Hsg) Hsg) as H1.
  destruct (take_ack sg (count_dupack sg t)) as [n t1]. cbn [snd] in H1.
  pose proof Hsg as (_&_&_&_&_&_&_&Hw&_). apply with_peer_ok; [|done].
  assert (tcb_ok (with_keepalive 0 (keepalive_idle_deadline now) t1)) as H2.
  { apply with_keepalive_ok; [done|unfold KEEPALIVE_PROBES; lia|]. by apply deadline_ok. }
  set (t2 := with_keepalive _ _ t1) in *. pose proof H2 as (_ & _ & _ & Ht). destruct Ht as (_ & _ & _ & Hcw & Hss & _).
  case_if; [|case_if; [|done]]; (apply with_cwnd_ok; [done|unfold MSS in *; lia|done]).
Qed.

Lemma merge_blocks_ok bs : forall l r, Forall (fun b => is_u32 b.1 /\ is_u32 b.2) bs -> is_u32 l -> is_u32 r ->
  let '(bs', l', r') := merge_blocks bs l r in
  length bs' = length bs /\ Forall (fun b => is_u32 b.1 /\ is_u32 b.2) bs' /\ is_u32 l' /\ is_u32 r'.
Proof.
  induction bs as [|[x y] bs IH]; intros l r Hf Hl Hr; [done|]. apply Forall_cons in Hf as [[Hx Hy] Hf]. cbn [merge_blocks fst snd] in *.
  case_if.
  - specialize (IH (Z.min l x) (Z.max r y) Hf). destruct (merge_blocks bs _ _) as [[bs' l'] r'].
    destruct IH as (J1 & J2 & J3); [unfold is_u32 in *; lia..|]. split; [by cbn; rewrite J1|]. split; [|done].
    constructor; [|done]. unfold is_u32. cbn. lia.
  - specialize (IH l r Hf Hl Hr). destruct (merge_blocks bs _ _) as [[bs' l'] r']. destruct IH as (H1 & H2 & H3).
    split; [by cbn; rewrite H1|]. split; [|done]. by constructor.
Qed.

Lemma place_block_ok bs b bs' : place_block bs b = Some bs' -> Forall (fun b => is_u32 b.1 /\ is_u32 b.2) bs -> is_u32 b.1 -> is_u32 b.2 ->
  length bs' = length bs /\ Forall (fun b => is_u32 b.1 /\ is_u32 b.2) bs'.
Proof.
  revert bs'. induction bs as [|c bs IH]; intros bs' Hp Hf H1 H2; [done|]. cbn [place_block] in Hp. apply Forall_cons in Hf as [Hc Hf].
  case_if_in Hp; [injection Hp as <-; split; [done|by constructor]|].
  destruct (place_block bs b) as [bs1|]; [|done]. injection Hp as <-. destruct (IH bs1 eq_refl Hf H1 H2) as [EL HF].
  split; [by cbn; rewrite EL|by constructor].
Qed.

Lemma add_sack_block_ok bs l r : length bs = 4%nat -> Forall (fun b => is_u32 b.1 /\ is_u32 b.2) bs -> is_u32 l -> is_u32 r ->
  length (add_sack_block bs l r) = 4%nat /\ Forall (fun b => is_u32 b.1 /\ is_u32 b.2) (add_sack_block bs l r).
Proof.
  intros Hlen Hf Hl Hr. unfold add_sack_block. pose proof (merge_blocks_ok bs l r Hf Hl Hr) as Hm.
  destruct (merge_blocks bs l r) as [[bs1 l1] r1]. destruct Hm as (H1 & H2 & H3 & H4).
  destruct (place_block bs1 (l1, r1)) as [bs2|] eqn:Ep.
  - destruct (place_block_ok _ _ _ Ep H2 H3 H4) as [E H]. split; [congruence|done].
  - split; [rewrite length_app, length_drop; cbn; lia|]. apply Forall_app_2; [by apply Forall_drop|by apply Forall_singleton].
Qed.

Lemma on_payload_ok sg t : tcb_ok t -> seg_ok sg -> tcb_ok (on_payload sg t).1.
Proof.
  intros Hok Hsg. unfold on_payload. case_if; cbn [fst].
  - pose proof (take_payload_ok sg t Hok Hsg) as H1. set (t1 := take_payload sg t) in *.
    pose proof H1 as (_ & _ & (_ & _ & Hl & Hf) & _). apply with_sack_ok; [done|by rewrite length_map|].
    apply Forall_fmap. eapply Forall_impl; [exact Hf|]. intros [x y] [Hx Hy]. cbn. case_if; [|done]. unfold is_u32. cbn. lia.
  - pose proof Hok as (_ & _ & (_ & _ & Hl & Hf) & _). pose proof Hsg as (_&_&_&_&Hs&_).
    destruct (add_sack_block_ok (sack_blocks t) (sg_seq sg) (u32_add (sg_seq sg) (Z.of_nat (length (sg_payload sg)) mod U32)) Hl Hf Hs (u32_add_ok _ _)).
    by apply with_sack_ok.
Qed.

Definition ends (t : Tcb) : bytes * Z * bytes * Z * bool := (local_ip t, local_port t, remote_ip t, remote_port t, listening t).

(** A step that keeps the block well-formed and belongs to the same connection. *)
Definition keeps (t t' : Tcb) : Prop := tcb_ok t' /\ ends t' = ends t.

Lemma not_listening t : tcb_ok t -> state t <> TCP_LISTEN -> state t <> TCP_CLOSED -> listening t = false.
Proof. intros (_ & (_ & _ & _ & _ & Hl & _) & _) H1 H2. destruct (listening t); [|done]. by destruct (Hl eq_refl). Qed.

Lemma ends_listening t t' : ends t' = ends t -> listening t' = listening t.
Proof. by intros [= ]. Qed.

Lemma on_ack_ends now sg t : ends (on_ack now sg t) = ends t /\ state (on_ack now sg t) = state t.
Proof.
  unfold on_ack. assert (ends (count_dupack sg t) = ends t /\ state (count_dupack sg t) = state t) as [E1 E2].
  { unfold count_dupack. by repeat case_if. }
  set (t1 := count_dupack sg t) in *.
  assert (ends (take_ack sg t1).2 = ends t1 /\ state (take_ack sg t1).2 = state t1) as [E3 E4].
  { unfold take_ack. case_if; [|done]. cbn [snd]. by repeat case_if. }
  destruct (take_ack sg t1) as [n t2]. cbn [snd] in *. rewrite <-E1, <-E2, <-E3, <-E4. clear. by repeat case_if.
Qed.

Lemma on_payload_ends sg t : ends (on_payload sg t).1 = ends t /\ state (on_payload sg t).1 = state t.
Proof. unfold on_payload. by case_if. Qed.

Lemma on_fin_keeps sg t : tcb_ok t -> listening t = false -> keeps t (on_fin sg t).1.
Proof.
  intros Hok Hl. unfold on_fin. assert (tcb_ok (with_recv (u32_add (recv_nxt t) 1) t)) as H1 by (apply with_recv_ok; [done|apply u32_add_ok]).
  case_if; cbn [fst]; (split; [|done]); [|done]. by apply with_state_ok.
Qed.

Lemma on_established_keeps now sg t : tcb_ok t -> seg_ok sg -> is_u64 now -> listening t = false -> keeps t (on_established now sg t).1.
Proof.
  intros Hok Hsg Hnow Hl. unfold on_established.
  set (t1 := if has TCP_FLAG_ACK sg then on_ack now sg t else t).
  assert (tcb_ok t1 /\ ends t1 = ends t) as [H1 E1].
  { unfold t1. case_if; [|done]. split; [by apply on_ack_ok|apply on_ack_ends]. }
  set (r1 := if _ && _ then on_payload sg t1 else (t1, [])).
  assert (tcb_ok r1.1 /\ ends r1.1 = ends t) as [H2 E2].
  { unfold r1. case_if; [|done]. split; [by apply on_payload_ok|]. by rewrite (proj1 (on_payload_ends sg t1)). }
  destruct r1 as [t2 o1]. cbn [fst] in *.
  assert (keeps t (if has TCP_FLAG_FIN sg then on_fin sg t2 else (t2, [])).1) as [H3 E3].
  { case_if; [|by split]. destruct (on_fin_keeps sg t2 H2) as [H3 E3]; [by rewrite (ends_listening t t2)|]. split; [done|congruence]. }
  destruct (if has TCP_FLAG_FIN sg then on_fin sg t2 else (t2, [])) as [t3 o2]. by split.
Qed.

(** Every segment keeps a block well-formed. *)
Lemma tcb_receive_keeps now sg t : tcb_ok t -> seg_ok sg -> is_u64 now -> keeps t (tcb_receive now sg t).1.
Proof.
  intros Hok Hsg Hnow. unfold tcb_receive. case_if; [split; [by apply with_closed_ok|done]|].
  pose proof Hsg as (_&_&_&_&Hs&Ha&_&Hw&_).
  destruct (state t) eqn:Est; try (by split); (assert (listening t = false) as Hl by (apply not_listening; congruence)).
  - unfold on_syn_sent. repeat case_if; cbn [fst]; (split; [|done]); try done.
    apply with_retry_ok; [|unfold MAX_RETRIES; lia|unfold RETRY_INTERVAL; lia]. apply with_state_ok; [|done|done].
    apply with_peer_ok; [|done]. apply with_una_ok; [|done]. apply with_recv_ok; [done|apply seq_advance_ok].
  - unfold on_syn_received. set (t4 := with_retry 0 0 _). assert (tcb_ok t4) as H4.
    { apply with_retry_ok; [|unfold MAX_RETRIES; lia|unfold RETRY_INTERVAL; lia].
      apply with_peer_ok; [|done]. apply with_una_ok; [|done]. by apply with_state_ok. }
    repeat case_if; cbn [fst]; (split; [|done]); try done. by apply take_payload_ok.
  - by apply on_established_keeps.
  - unfold on_fin_wait1. set (t1 := if has TCP_FLAG_RST sg then _ else _). assert (keeps t t1) as [H1 E1].
    { unfold t1. repeat case_if; (split; [|done]); try done; by apply with_state_ok. }
    case_if; cbn [fst]; [|by split]. split; [|done]. apply with_state_ok; [|by rewrite <-Hl; apply (ends_listening t t1)|done].
    apply with_recv_ok; [done|apply seq_advance_ok].
  - unfold on_fin_wait2. repeat case_if; cbn [fst]; (split; [|done]); try done; try (by apply with_closed_ok).
    apply with_time_wait_ok; [|lia]. apply with_state_ok; [|done|done]. apply with_recv_ok; [done|apply seq_advance_ok].
  - by apply on_established_keeps.
  - unfold on_closing. case_if; cbn [fst]; (split; [|done]); [|done]. apply with_time_wait_ok; [|lia]. by apply with_state_ok.
  - unfold on_last_ack. repeat case_if; cbn [fst]; (split; [|done]); try done; by apply with_closed_ok.
  - unfold on_time_wait. case_if; by split.
Qed.

Lemma poll_idle_keeps now t : tcb_ok t -> is_u64 now -> keeps t (poll_idle now t).1.
Proof.
  intros Hok Hnow. unfold poll_idle. assert (tcb_ok (with_retry 0 0 t)) as H1
    by (apply with_retry_ok; [done|unfold MAX_RETRIES; lia|unfold RETRY_INTERVAL; lia]).
  case_if; [|by split]. unfold keepalive_action. repeat case_if; cbn [fst]; (split; [|done]); try done; [by apply with_closed_ok|].
  pose proof H1 as (_ & _ & _ & (_ & _ & _ & _ & _ & _ & _ & Hp & _)).
  apply with_keepalive_ok; [done|unfold KEEPALIVE_PROBES in *; lia|by apply deadline_ok].
Qed.

Lemma poll_tcb_keeps now t t' : tcb_ok t -> is_u64 now -> (poll_tcb now t).1 = Some t' -> keeps t t'.
Proof.
  intros Hok Hnow. pose proof Hok as (_ & _ & _ & (Hrc & Hrt & Htw & Hcw & Hss & Hdu & Hla & _)). unfold poll_tcb.
  case_if; [done|]. case_if; [by intros [= <-]|]. case_if.
  { cbn [fst]. intros [= <-]. case_if; [split; [apply with_time_wait_ok; [done|lia]|done]|].
    assert (tcb_ok (with_time_wait (time_wait_ticks t - 1) t)) as H1 by (apply with_time_wait_ok; [done|lia]).
    case_if; (split; [|done]); [by apply with_closed_ok|done]. }
  case_if; [by intros [= <-]|]. case_if.
  { pose proof (poll_idle_keeps now t Hok Hnow) as H. destruct (poll_idle now t) as [t1 o]. by intros [= <-]. }
  case_if; [by intros [= <-]|]. case_if.
  { intros [= <-]. split; [|done]. apply with_retry_ok; [done|done|lia]. }
  destruct (retransmission t) as [seg|]; intros [= <-].
  - assert (tcb_ok (with_retry (retry_count t - 1) RETRY_INTERVAL t)) as H1 by (apply with_retry_ok; [done|lia|unfold RETRY_INTERVAL; lia]).
    case_if; (split; [|done]); [by apply with_closed_ok|].
    apply with_dup_ok; [|lia|done]. apply with_cwnd_ok; [done|unfold MSS; lia|].
    change (cwnd (with_retry (retry_count t - 1) RETRY_INTERVAL t)) with (cwnd t). unfold MSS in *.
    split; [lia|]. apply Z.max_lub; [|lia]. transitivity (cwnd t); [|lia]. apply Z.div_le_upper_bound; lia.
  - split; [|done]. apply with_retry_ok; [done|done|unfold RETRY_INTERVAL; lia].
Qed.

Lemma queue_data_keeps data t : tcb_ok t -> bytes_ok data -> keeps t (queue_data data t).2.
Proof.
  intros Hok Hd. split; [|done]. unfold queue_data. cbn [snd]. apply with_tx_ok; [done|].
  pose proof Hok as (_ & _ & (_ & Htx & _) & _). pose proof Htx as (_ & Hn & _).
  set (k := Nat.min _ _). assert (length (take k data) = k) as Hl by (rewrite length_take; lia).
  rewrite <-Hl at 2. apply buf_append; [done|by apply Forall_take|]. rewrite Hl. unfold k. clear -Hn. lia.
Qed.

Lemma flushed_keeps t : tcb_ok t -> keeps t (flushed t).
Proof.
  intros Hok. split; [|done]. apply with_retry_ok; [|unfold MAX_RETRIES; lia|unfold RETRY_INTERVAL; lia].
  apply with_nxt_ok; [done|apply u32_add_ok].
Qed.

Lemma read_rx_keeps n t : tcb_ok t -> keeps t (read_rx n t).2.
Proof.
  intros Hok. split; [|done]. unfold read_rx. cbn [snd]. apply with_rx_ok; [done|].
  pose proof Hok as (_ & _ & (Hrx & _) & _). apply buf_shift; [done|lia].
Qed.

Lemma finished_keeps t : tcb_ok t -> listening t = false -> keeps t (finished t).
Proof.
  intros Hok Hl. split; [|done]. apply with_retry_ok; [|unfold MAX_RETRIES; lia|unfold RETRY_INTERVAL; lia].
  apply with_state_ok; [apply with_nxt_ok; [done|apply u32_add_ok]|done|]. by case_if.
Qed.

(** ** Well-formed tables *)

(** Blocks are well-formed, and no port has two listeners. *)
Definition table_ok (cs : list (option Tcb)) : Prop :=
  length cs = MAX_CONNS /\ (forall i t, conn cs i = Some t -> tcb_ok t) /\
  (forall i j t u, conn cs i = Some t -> conn cs j = Some u -> listening t = true -> listening u = true ->
     local_port t = local_port u -> i = j).

Lemma conn_insert_eq cs i o : (i < length cs)%nat -> conn (<[i := o]> cs) i = o.
Proof. intros Hi. unfold conn. by rewrite list_lookup_insert_eq. Qed.

Lemma conn_insert_ne cs i j o : i <> j -> conn (<[i := o]> cs) j = conn cs j.
Proof. intros Hi. unfold conn. by rewrite list_lookup_insert_ne. Qed.

(** A slot gets a block that does not listen, or nothing. *)
Lemma table_set cs i o : table_ok cs -> (forall t, o = Some t -> tcb_ok t /\ listening t = false) -> table_ok (<[i := o]> cs).
Proof.
  intros (Hl & Hb & Hu) Ho. split; [by rewrite length_insert|].
  assert (forall j t, conn (<[i := o]> cs) j = Some t -> conn cs j = Some t \/ (tcb_ok t /\ listening t = false)) as Hj.
  { intros j t Hjt. destruct (decide (i = j)) as [<-|Hne]; [|rewrite conn_insert_ne in Hjt by done; by left].
    destruct (decide (i < length cs)%nat) as [Hlt|Hge].
    - rewrite conn_insert_eq in Hjt by done. right. by apply Ho.
    - left. unfold conn in *. by rewrite list_insert_ge in Hjt by lia. }
  split.
  - intros j t [H|[H _]]%Hj; [by apply (Hb j)|done].
  - intros j k t u [Ht|[_ Ht]]%Hj [H|[_ H]]%Hj Hlt Hlu; [by apply (Hu j k t u)|congruence..].
Qed.

(** A block takes a step. *)
Lemma table_step cs i t t' : table_ok cs -> conn cs i = Some t -> keeps t t' -> table_ok (<[i := Some t']> cs).
Proof.
  intros (Hl & Hb & Hu) Hi [Hok He]. split; [by rewrite length_insert|].
  assert (forall j u, conn (<[i := Some t']> cs) j = Some u -> tcb_ok u /\ exists u', conn cs j = Some u' /\ ends u = ends u') as Hj.
  { intros j u Hju. destruct (decide (i = j)) as [<-|Hne].
    - assert (i < length cs)%nat as Hlt.
      { unfold conn in Hi. destruct (cs !! i) as [o|] eqn:E; [|done]. by apply lookup_lt_Some in E. }
      rewrite conn_insert_eq in Hju by done. injection Hju as <-. split; [done|]. by exists t.
    - rewrite conn_insert_ne in Hju by done. split; [by apply (Hb j)|by exists u]. }
  split; [intros j u Hju; apply (Hj j u Hju)|].
  intros j k u v Hu1 Hv1 Hlu Hlv Hp. destruct (Hj j u Hu1) as (_ & u' & Hu' & Eu). destruct (Hj k v Hv1) as (_ & v' & Hv' & Ev).
  unfold ends in *. simplify_eq. apply (Hu j k u' v'); congruence.
Qed.

(** ** The calls keep the table well-formed *)

(** What the lemmas ask of the layer below: it has states [ip_up], in which an address has four bytes and which a send
    leaves only by hanging; and [ip_hangs] says whether a send from such a state may hang at all. *)
Class LawfulIp (W : Type) `{!IpLayer W} := {
  ip_up : W -> Prop;
  ip_hangs : Prop;
  ip_sends : forall idx dst seg (w : W), ip_up w ->
    match ip_send idx dst PROTO_TCP seg w with Some (_, w') => ip_up w' | None => ip_hangs end;
  ip_typed : forall idx (w : W) a, ip_up w -> iface_ip idx w = Some a -> is_ip a;
}.

Section tables.
Context {W : Type} `{!IpLayer W, !LawfulIp W}.

(** From a table with [P] the call hangs in the layer below, or returns and its result and the table then satisfy [Q]. *)
Definition spec {A} (P : list (option Tcb) -> Prop) (m : Tcp W A) (Q : A -> list (option Tcb) -> Prop) : Prop :=
  forall s, ip_up (world s) -> P (conns s) ->
  match m s with Some (a, s') => ip_up (world s') /\ Q a (conns s') | None => ip_hangs end.

Lemma spec_ret {A} (P : list (option Tcb) -> Prop) (a : A) (Q : A -> list (option Tcb) -> Prop) :
  (forall cs, P cs -> Q a cs) -> spec P (mret a) Q.
Proof. intros H s Hw Hs. split; [done|]. by apply H. Qed.

Lemma spec_bind {A B} P (m : Tcp W A) R (f : A -> Tcp W B) Q :
  spec P m R -> (forall a, spec (R a) (f a) Q) -> spec P (m ≫= f) Q.
Proof.
  intros Hm Hf s Hw Hs. specialize (Hm s Hw Hs). unfold mbind, Tcp_bind. destruct (m s) as [[a s1]|]; [|done].
  destruct Hm as [H1 H2]. by apply Hf.
Qed.

Lemma spec_get {A B} P (g : list (option Tcb) -> A) (f : A -> Tcp W B) Q :
  (forall a, spec (fun cs => P cs /\ g cs = a) (f a) Q) -> spec P (get g ≫= f) Q.
Proof. intros H s Hw Hs. apply (H (g (conns s)) s); [done|]. by split. Qed.

Lemma spec_set P i o : spec P (set_conn i o) (fun _ cs => exists cs0, P cs0 /\ cs = <[i := o]> cs0).
Proof. intros s Hw Hs. split; [done|]. by exists (conns s). Qed.

Lemma spec_send P idx dst seg : spec P (ip_out idx dst seg) (fun _ cs => P cs).
Proof.
  intros s Hw Hs. pose proof (ip_sends idx dst seg (world s) Hw) as H. unfold ip_out. by destruct (ip_send _ _ _ _ _) as [[b w]|].
Qed.

Lemma spec_send_all P idx dst segs : spec P (send_all idx dst segs) (fun _ cs => P cs).
Proof.
  induction segs as [|seg segs IH]; [by apply spec_ret|]. eapply spec_bind; [apply spec_send|]. intros b. exact IH.
Qed.

Lemma spec_local_address P idx : spec P (local_address (W := W) idx) (fun a cs => P cs /\ is_ip a).
Proof.
  intros s Hw Hs. split; [done|]. split; [done|].
  destruct (iface_ip idx (world s)) as [a|] eqn:E; [by apply (ip_typed idx (world s))|]. cbn. split; [done|by repeat constructor].
Qed.

Lemma spec_pre {A} (P P' : list (option Tcb) -> Prop) (m : Tcp W A) Q : (forall cs, P cs -> P' cs) -> spec P' m Q -> spec P m Q.
Proof. intros H Hm s Hw Hs. by apply Hm, H. Qed.

(** A call of a layer that does not hang. *)
Lemma spec_returns {A} P (m : Tcp W A) Q s : spec P m Q -> ~ ip_hangs -> ip_up (world s) -> P (conns s) ->
  exists a s', m s = Some (a, s') /\ ip_up (world s') /\ Q a (conns s').
Proof. intros Hm Hn Hw Hs. specialize (Hm s Hw Hs). destruct (m s) as [[a s']|]; [by exists a, s'|done]. Qed.

Lemma spec_skip {A} P (m : Tcp W A) Q : spec P m Q -> spec P (mret tt ≫= fun _ => m) Q.
Proof. done. Qed.

(** Storing a block and going on. *)
Lemma spec_store {A} P i o (a : A) : (forall cs, P cs -> table_ok (<[i := o]> cs)) ->
  spec P (set_conn i o ≫= fun _ => mret a) (fun _ cs => table_ok cs).
Proof. intros H. eapply spec_bind; [apply spec_set|]. intros u. apply spec_ret. intros cs (cs0 & H0 & ->). by apply H. Qed.

Lemma first_conn_Some p cs i : first_conn p cs = Some i -> p (conn cs i) = true.
Proof. unfold first_conn. intros H%find_some. apply H. Qed.

Lemma conn_by_port_None port cs i t : table_ok cs -> conn_by_port port cs = None -> conn cs i = Some t -> listening t = true ->
  local_port t <> port.
Proof.
  intros (Hl & _) Hn Hi Hlis Hp. unfold conn_by_port, first_conn in Hn.
  assert (i < length cs)%nat as Hlt by (unfold conn in Hi; destruct (cs !! i) eqn:E; [by apply lookup_lt_Some in E|done]).
  assert (In i (seq 0 MAX_CONNS)) as Hin by (apply in_seq; lia). pose proof (find_none _ _ Hn i Hin) as H. cbn beta in H.
  by rewrite Hi, Hlis, Hp, Z.eqb_refl in H.
Qed.

Lemma listen_spec port : is_u16 port -> spec table_ok (listen port) (fun _ cs => table_ok cs).
Proof.
  intros Hp. apply spec_get. intros [j|]; [apply spec_ret; by intros cs [? _]|]. apply spec_get. intros [i|]; [|apply spec_ret; by intros cs [[? _] _]].
  apply spec_store. intros cs [[Hok Hn] _]. pose proof Hok as (Hl & Hb & Hu).
  set (t := new_tcb _ _ _ _ _ _ _ _ _ _ _). assert (tcb_ok t) as Ht.
  { apply new_tcb_ok; try done; try (split; [done|by repeat constructor]); unfold is_u32, is_u16, MAX_RETRIES, RETRY_INTERVAL; lia. }
  split; [by rewrite length_insert|].
  assert (forall j u, conn (<[i := Some t]> cs) j = Some u -> (j = i /\ u = t) \/ conn cs j = Some u) as Hj.
  { intros j u Hju. destruct (decide (i = j)) as [<-|Hne]; [|rewrite conn_insert_ne in Hju by done; by right].
    destruct (decide (i < length cs)%nat) as [Hlt|Hge].
    - rewrite conn_insert_eq in Hju by done. injection Hju as <-. by left.
    - right. unfold conn in *. by rewrite list_insert_ge in Hju by lia. }
  split.
  - intros j u [[_ ->]|H]%Hj; [done|by apply (Hb j)].
  - intros j k u v [[-> ->]|H1]%Hj [[-> ->]|H2]%Hj Hlu Hlv Hpp; [done| | |by apply (Hu j k u v)].
    + by destruct (conn_by_port_None port cs k v Hok Hn H2 Hlv).
    + by destruct (conn_by_port_None port cs j u Hok Hn H1 Hlu).
Qed.

Lemma rand_isn_ok e : is_u32 (rand_isn e).
Proof. apply Z.mod_pos_bound. done. Qed.

Lemma fresh_conn_ok st lip lport rip rport isn rcv :
  is_ip lip -> is_ip rip -> is_u16 lport -> is_u16 rport -> is_u32 isn -> is_u32 rcv -> st <> TCP_LISTEN ->
  tcb_ok (new_tcb st lip lport rip rport isn (u32_add isn 1) rcv false MAX_RETRIES RETRY_INTERVAL).
Proof. intros. apply new_tcb_ok; try done. apply u32_add_ok. Qed.

Lemma connect_spec e idx lport dst dport : is_u16 lport -> is_ip dst -> is_u16 dport ->
  spec table_ok (connect e idx lport dst dport) (fun _ cs => table_ok cs).
Proof.
  intros H1 H2 H3. apply spec_get. intros [i|]; [|apply spec_ret; by intros cs [? _]].
  eapply spec_bind; [apply spec_local_address|]. intros lip. cbn beta. case_if; [apply spec_ret; by intros cs [[? _] _]|].
  eapply spec_bind; [apply spec_send|]. intros sent. case_if; [apply spec_ret; by intros cs [[? _] _]|].
  apply spec_store. intros cs [[Hok _] Hip]. apply table_set; [done|]. intros t [= <-]. split; [|done].
  apply fresh_conn_ok; try done; apply rand_isn_ok.
Qed.

Lemma on_listen_spec e idx sg P : seg_ok sg -> (forall cs, P cs -> table_ok cs) -> spec P (on_listen e idx sg) (fun _ cs => table_ok cs).
Proof.
  intros (Hs & Hd & Hsp & Hdp & _) HP. unfold on_listen. case_if; [|by apply spec_ret]. apply spec_get.
  intros [i|]; [|apply spec_ret; intros cs [? _]; by apply HP].
  eapply spec_bind; [apply spec_send|]. intros [|]; [|apply spec_skip, spec_ret; intros cs [? _]; by apply HP].
  apply spec_store. intros cs [Hok _]. apply table_set; [by apply HP|]. intros t [= <-]. split; [|done].
  apply fresh_conn_ok; try done; [apply rand_isn_ok|apply seq_advance_ok].
Qed.

Definition entropy_ok (e : Entropy) : Prop := is_u64 (random e) /\ is_u64 (tsc e) /\ is_u64 (counter e).

Lemma handle_receive_spec e idx src dst segment : entropy_ok e -> is_ip src -> is_ip dst -> bytes_ok segment ->
  spec table_ok (handle_receive e idx src dst segment) (fun _ cs => table_ok cs).
Proof.
  intros (_ & _ & He) Hs Hd Hok. unfold handle_receive. destruct (parse_segment src dst segment) as [sg|] eqn:Ep; [|by apply spec_ret].
  destruct (parse_ok src dst segment sg Hs Hd Hok Ep) as (Hsg & _ & _). apply spec_get. intros [i|].
  - apply spec_get. intros [t|]; [|apply spec_ret; by intros cs [[? _] _]]. case_if; [apply on_listen_spec; [done|by intros cs [[? _] _]]|].
    pose proof (tcb_receive_keeps (counter e) sg t) as Hk. destruct (tcb_receive (counter e) sg t) as [t' out]. cbn [fst] in Hk.
    eapply spec_bind; [apply spec_set|]. intros u. eapply spec_bind; [apply spec_send_all|]. intros v. apply spec_ret.
    intros cs (cs0 & [[H0 _] Ht] & ->). apply (table_step cs0 i t); [done|done|]. apply Hk; [|done|done]. destruct H0 as (_ & Hb & _). by apply (Hb i).
  - eapply (spec_bind _ _ (fun _ cs => table_ok cs)); [|intros u; by apply spec_ret]. case_if; [|apply spec_ret; by intros cs [? _]].
    eapply spec_pre; [|apply (spec_send_all table_ok)]. by intros cs [? _].
Qed.

Lemma poll_conn_spec now idx i : is_u64 (now i) -> spec table_ok (poll_conn now idx i) (fun _ cs => table_ok cs).
Proof.
  intros Hn. unfold poll_conn. apply spec_get. intros [t|]; [|apply spec_ret; by intros cs [? _]].
  destruct (poll_tcb (now i) t) as [o out] eqn:Eo.
  eapply spec_bind; [apply spec_set|]. intros u. eapply spec_pre; [|apply (spec_send_all table_ok)].
  intros cs (cs0 & [H0 Ht] & ->). destruct o as [t'|]; [|by apply table_set].
  apply (table_step cs0 i t); [done|done|]. apply (poll_tcb_keeps (now i)); [|done|by rewrite Eo].
  destruct H0 as (_ & Hb & _). by apply (Hb i).
Qed.

Lemma poll_conns_spec now idx is_ : (forall i, is_u64 (now i)) -> spec table_ok (poll_conns now idx is_) (fun _ cs => table_ok cs).
Proof.
  intros Hn. induction is_ as [|i is_ IH]; [by apply spec_ret|]. eapply spec_bind; [by apply poll_conn_spec|]. intros u. exact IH.
Qed.

(** A call on an open block. *)
Lemma with_open_spec {A} c (none : A) f :
  (forall t, is_open t = true -> spec (fun cs => table_ok cs /\ conn cs c = Some t /\ tcb_ok t) (f t) (fun _ cs => table_ok cs)) ->
  spec table_ok (with_open c none f) (fun _ cs => table_ok cs).
Proof.
  intros Hf. unfold with_open. case_if; [by apply spec_ret|]. apply spec_get. intros [t|]; [|apply spec_ret; by intros cs [? _]].
  case_if; [|apply spec_ret; by intros cs [? _]]. eapply spec_pre; [|by apply Hf].
  intros cs [H0 Ht]. split; [done|]. split; [done|]. destruct H0 as (_ & Hb & _). by apply (Hb c).
Qed.

(** Storing a step of the block, or nothing. *)
Lemma spec_step {A} c t t' (b : bool) (a : A) : keeps t t' ->
  spec (fun cs => table_ok cs /\ conn cs c = Some t /\ tcb_ok t) ((if b then set_conn c (Some t') else mret tt) ≫= fun _ => mret a)
    (fun _ cs => table_ok cs).
Proof.
  intros Hk. destruct b.
  - apply spec_store. intros cs (H0 & Ht & _). by apply (table_step cs c t).
  - apply spec_skip, spec_ret. by intros cs (H0 & _).
Qed.

Lemma open_not_listening t : tcb_ok t -> is_open t = true -> listening t = false.
Proof.
  intros Hok Ho. apply not_listening; [done|..]; intros E; unfold is_open, state_is in Ho; by rewrite E in Ho.
Qed.

Lemma send_data_spec c data : bytes_ok data -> spec table_ok (send_data c data) (fun _ cs => table_ok cs).
Proof.
  intros Hd. apply with_open_spec. intros t Ho. destruct (queue_data data t) as [n t'] eqn:E.
  intros s Hw Hs. apply (spec_step c t t'); [|done|done]. destruct Hs as (_ & _ & Hok).
  pose proof (queue_data_keeps data t Hok Hd) as H. by rewrite E in H.
Qed.

Lemma flush_tx_spec c idx : spec table_ok (flush_tx c idx) (fun _ cs => table_ok cs).
Proof.
  apply with_open_spec. intros t Ho. case_if; [apply spec_ret; by intros cs (H0 & _)|].
  eapply spec_bind; [apply spec_send|]. intros b s Hw Hs. apply (spec_step c t); [|done|done]. apply flushed_keeps, Hs.
Qed.

Lemma close_spec c idx : spec table_ok (close c idx) (fun _ cs => table_ok cs).
Proof.
  apply with_open_spec. intros t Ho. eapply spec_bind; [apply spec_send|]. intros b s Hw Hs. apply (spec_step c t); [|done|done].
  destruct Hs as (_ & _ & Hok). apply finished_keeps; [done|]. by apply open_not_listening.
Qed.

Lemma receive_data_spec c n : spec table_ok (receive_data c n) (fun _ cs => table_ok cs).
Proof.
  unfold receive_data. case_if; [by apply spec_ret|]. apply spec_get. intros [t|]; [|apply spec_ret; by intros cs [? _]].
  case_if; [apply spec_ret; by intros cs [? _]|]. destruct (read_rx n t) as [d t'] eqn:Er. apply spec_store.
  intros cs [H0 Ht]. apply (table_step cs c t); [done|done|]. pose proof (read_rx_keeps n t) as H. rewrite Er in H. apply H.
  destruct H0 as (_ & Hb & _). by apply (Hb c).
Qed.

Lemma close_conn_spec c : spec table_ok (close_conn c) (fun _ cs => table_ok cs).
Proof.
  unfold close_conn. case_if; [by apply spec_ret|]. intros s Hw Hs. split; [done|]. by apply table_set.
Qed.

(** *** Sequences of calls *)

Inductive TcpCall :=
  | Listen (port : Z)
  | Connect (e : Entropy) (idx : nat) (lport : Z) (dst : bytes) (dport : Z)
  | Receive (e : Entropy) (idx : nat) (src dst segment : bytes)
  | Poll (now : nat -> Z) (idx : nat)
  | SendData (c : nat) (data : bytes)
  | Flush (c idx : nat)
  | ReceiveData (c n : nat)
  | Close (c idx : nat)
  | CloseConn (c : nat).

(** Arguments in the range of their types. *)
Definition call_ok (c : TcpCall) : Prop :=
  match c with
  | Listen p => is_u16 p
  | Connect e _ lp dst dp => is_u16 lp /\ is_ip dst /\ is_u16 dp
  | Receive e _ src dst segment => entropy_ok e /\ is_ip src /\ is_ip dst /\ bytes_ok segment
  | Poll now _ => forall i, is_u64 (now i)
  | SendData _ d => bytes_ok d
  | _ => True
  end.

Definition call (c : TcpCall) : Tcp W unit :=
  match c with
  | Listen p => listen p ≫= fun _ => mret tt
  | Connect e idx lp dst dp => connect e idx lp dst dp ≫= fun _ => mret tt
  | Receive e idx src dst segment => handle_receive e idx src dst segment ≫= fun _ => mret tt
  | Poll now idx => poll_retransmit now idx
  | SendData c d => send_data c d ≫= fun _ => mret tt
  | Flush c idx => flush_tx c idx ≫= fun _ => mret tt
  | ReceiveData c n => receive_data c n ≫= fun _ => mret tt
  | Close c idx => close c idx ≫= fun _ => mret tt
  | CloseConn c => close_conn c
  end.

Fixpoint calls (cs : list TcpCall) : Tcp W unit :=
  match cs with
  | [] => mret tt
  | c :: cs => call c ≫= fun _ => calls cs
  end.

Lemma spec_ignore {A} P (m : Tcp W A) : spec P m (fun _ cs => table_ok cs) -> spec P (m ≫= fun _ => mret tt) (fun _ cs => table_ok cs).
Proof. intros H. eapply spec_bind; [exact H|]. intros a. by apply spec_ret. Qed.

Lemma call_spec c : call_ok c -> spec table_ok (call c) (fun _ cs => table_ok cs).
Proof.
  destruct c; cbn [call_ok call]; intros Hc; try apply spec_ignore.
  - by apply listen_spec.
  - destruct Hc as (H1 & H2 & H3). by apply connect_spec.
  - destruct Hc as (H1 & H2 & H3 & H4). by apply handle_receive_spec.
  - by apply poll_conns_spec.
  - by apply send_data_spec.
  - apply flush_tx_spec.
  - apply receive_data_spec.
  - apply close_spec.
  - apply close_conn_spec.
Qed.

Lemma calls_spec cs : Forall call_ok cs -> spec table_ok (calls cs) (fun _ cs => table_ok cs).
Proof.
  induction 1 as [|c cs Hc _ IH]; [by apply spec_ret|]. eapply spec_bind; [by apply call_spec|]. intros u. exact IH.
Qed.

End tables.

Definition empty_table : list (option Tcb) := replicate MAX_CONNS None.

Lemma empty_conn i : conn empty_table i = None.
Proof.
  unfold conn, empty_table. destruct (replicate MAX_CONNS None !! i) as [o|] eqn:E; [|done]. by apply lookup_replicate in E as [-> _].
Qed.

Lemma empty_table_ok : table_ok empty_table.
Proof.
  split; [apply length_replicate|]. split; [intros i t H; by rewrite empty_conn in H|intros i j t u H; by rewrite empty_conn in H].
Qed.
