(* ===== verification/TcpStream.v ===== *)
(** The byte stream of a connection.

    Theorems about one block that receives segments in any order, and about two blocks
    that send segments to each other: a message, the end of a connection, and the cases in which
    the stream goes wrong. *)

From S2P Require Import Prelude Bytes Wire Tcp TcpProofs.

(** ** Sequence numbers *)

Lemma as_i32_neg x : is_u32 x -> (as_i32 x <? 0) = (2 ^ 31 <=? x).
Proof.
  unfold is_u32, as_i32, U32. intros Hx. change (2 ^ 32) with 4294967296 in *. change (2 ^ 31) with 2147483648.
  destruct (Z.leb_spec 2147483648 x).
  - rewrite Z.ltb_lt. rewrite (Z.mod_eq (x + 2147483648)) by lia.
    replace ((x + 2147483648) / 4294967296) with 1; [lia|]. apply Z.div_unique with (x - 2147483648); lia.
  - rewrite Z.ltb_ge. rewrite Z.mod_small; lia.
Qed.

Lemma seq_before_spec a b : seq_before a b = (2 ^ 31 <=? u32_sub a b).
Proof. unfold seq_before. apply as_i32_neg, u32_sub_ok. Qed.

Lemma u32_sub_diag a : u32_sub a a = 0.
Proof. unfold u32_sub. by rewrite Z.sub_diag. Qed.

Lemma seq_before_refl a : seq_before a a = false.
Proof. rewrite seq_before_spec, u32_sub_diag. done. Qed.

Lemma u32_sub_add a n : 0 <= n < U32 -> u32_sub (u32_add a n) a = n.
Proof.
  intros Hn. unfold u32_sub, u32_add. rewrite Zminus_mod_idemp_l. replace (a + n - a) with n by lia. by apply Z.mod_small.
Qed.

Lemma seq_before_add a n : 0 < n < 2 ^ 31 -> seq_before a (u32_add a n) = true.
Proof.
  intros Hn. rewrite seq_before_spec. apply Z.leb_le. unfold u32_sub, u32_add. rewrite Zminus_mod_idemp_r.
  replace (a - (a + n)) with (U32 - n + -1 * U32) by lia. rewrite Z.mod_add by done. change U32 with 4294967296. change (2 ^ 31) with 2147483648 in *.
  rewrite Z.mod_small; lia.
Qed.

Lemma seq_before_eq_refl a : seq_before_eq a a = true.
Proof. unfold seq_before_eq. by rewrite Z.eqb_refl. Qed.

Lemma seq_advance_0 a n : (Z.of_nat n < U32) -> seq_advance a n 0 = u32_add a (Z.of_nat n).
Proof.
  intros Hn. unfold seq_advance, u32_add. rewrite Z.add_0_r, (Z.mod_small (Z.of_nat n)) by lia. apply Z.mod_mod. done.
Qed.

Lemma u32_add_assoc a m n : u32_add (u32_add a m) n = u32_add a (m + n).
Proof. unfold u32_add. rewrite Zplus_mod_idemp_l. f_equal. lia. Qed.

Lemma u32_add_0 a : is_u32 a -> u32_add a 0 = a.
Proof. intros Ha. unfold u32_add. rewrite Z.add_0_r. by apply Z.mod_small. Qed.

(** ** Buffers *)

Lemma RX_BUF_LEN_eq : Z.of_nat RX_BUF_LEN = 4096.
Proof. reflexivity. Qed.

Lemma TX_BUF_LEN_eq : Z.of_nat TX_BUF_LEN = 4096.
Proof. reflexivity. Qed.

#[local] Opaque RX_BUF_LEN TX_BUF_LEN.

Definition buffered (t : Tcb) : bytes := take (rx_data_len t) (rx_data t).

Lemma take_splice n x (d : bytes) : (n + length x <= length d)%nat -> take (n + length x) (splice n x d) = take n d ++ x.
Proof.
  intros Hl. unfold splice. rewrite app_assoc. apply take_app_length'. rewrite length_app, length_take. lia.
Qed.

Lemma buffered_length t : tcb_ok t -> length (buffered t) = rx_data_len t.
Proof. intros (_ & _ & ((Hl & Hn & _) & _) & _). unfold buffered. rewrite length_take. lia. Qed.

(** How much of a payload fits. *)
Definition accepted (sg : Seg) (t : Tcb) : nat := Nat.min (length (sg_payload sg)) (rx_free (rx_data_len t)).

Lemma take_payload_buffered sg t : tcb_ok t -> buffered (take_payload sg t) = buffered t ++ take (accepted sg t) (sg_payload sg).
Proof.
  intros (_ & _ & ((Hl & Hn & _) & _) & _). unfold buffered, take_payload, accepted. cbn [rx_data rx_data_len with_recv with_core with_rx with_bufs].
  set (k := Nat.min _ _). assert (length (take k (sg_payload sg)) = k) as Hk by (rewrite length_take; lia).
  rewrite <-Hk at 1. rewrite take_splice; [done|]. rewrite Hk, Hl. unfold k, rx_free. clear -Hn. lia.
Qed.

Lemma read_rx_data n t : (read_rx n t).1 = take n (buffered t).
Proof. unfold read_rx, buffered. cbn [fst]. rewrite take_take. f_equal. lia. Qed.

Lemma read_rx_rest n t : tcb_ok t -> buffered (read_rx n t).2 = drop n (buffered t).
Proof.
  intros (_ & _ & ((Hl & Hn & _) & _) & _). unfold read_rx, buffered. cbn [snd rx_data rx_data_len with_rx with_bufs].
  set (k := Nat.min (rx_data_len t) n). destruct (Nat.ltb_spec k (rx_data_len t)) as [Hlt|Hge].
  - assert (length (slice k (rx_data_len t) (rx_data t)) = (rx_data_len t - k)%nat) as Hs by (rewrite length_slice; lia).
    rewrite <-Hs, <-(Nat.add_0_l (length _)). rewrite take_splice by (rewrite Hs; lia). cbn [app]. rewrite firstn_O, app_nil_l.
    unfold slice. assert (k = n) as -> by lia. by rewrite skipn_firstn_comm.
  - replace (rx_data_len t - k)%nat with 0%nat by lia. rewrite firstn_O, drop_ge; [done|]. rewrite length_take. lia.
Qed.

(** ** An open block receives *)

(** What an acknowledgement leaves alone. *)
Definition rx_part (t : Tcb) : bytes * nat * Z := (rx_data t, rx_data_len t, recv_nxt t).

Lemma on_ack_rx now sg t : rx_part (on_ack now sg t) = rx_part t.
Proof.
  unfold on_ack. assert (rx_part (count_dupack sg t) = rx_part t) as E1 by (unfold count_dupack; by repeat case_if).
  set (t1 := count_dupack sg t) in *.
  assert (rx_part (take_ack sg t1).2 = rx_part t1) as E2 by (unfold take_ack; case_if; [|done]; cbn [snd]; by repeat case_if).
  destruct (take_ack sg t1) as [n t2]. cbn [snd] in *. rewrite <-E1, <-E2. clear. by repeat case_if.
Qed.

Definition in_order (sg : Seg) (t : Tcb) : bool :=
  negb (bool_decide (sg_payload sg = [])) && has TCP_FLAG_ACK sg && (sg_seq sg =? recv_nxt t).

(** The receive side of an open block after a segment without FIN and RST. *)
Lemma open_receive now sg t :
  tcb_ok t -> seg_ok sg -> is_u64 now -> is_open t = true -> has TCP_FLAG_RST sg = false -> has TCP_FLAG_FIN sg = false ->
  let t' := (tcb_receive now sg t).1 in
  state t' = state t /\
  buffered t' = buffered t ++ (if in_order sg t then take (accepted sg t) (sg_payload sg) else []) /\
  recv_nxt t' = (if in_order sg t then seq_advance (sg_seq sg) (accepted sg t) 0 else recv_nxt t).
Proof.
  intros Hok Hsg Hnow Ho Hr Hf. cbv zeta.
  assert (tcb_receive now sg t = on_established now sg t) as ->.
  { unfold tcb_receive. rewrite Hr. unfold is_open, state_is in Ho. by destruct (state t). }
  unfold on_established, in_order. rewrite Hf. set (t1 := if has TCP_FLAG_ACK sg then on_ack now sg t else t).
  assert (tcb_ok t1 /\ rx_part t1 = rx_part t /\ state t1 = state t) as (H1 & E1 & Es).
  { unfold t1. case_if; [|done]. split; [by apply on_ack_ok|]. split; [apply on_ack_rx|apply on_ack_ends]. }
  assert (buffered t1 = buffered t /\ recv_nxt t1 = recv_nxt t /\ accepted sg t1 = accepted sg t) as (Eb & En & Ea).
  { unfold rx_part in E1. simplify_eq. unfold buffered, accepted. split_and!; congruence. }
  destruct (negb (bool_decide (sg_payload sg = [])) && has TCP_FLAG_ACK sg) eqn:Ep; cbn [andb].
  - unfold on_payload. rewrite En. destruct (sg_seq sg =? recv_nxt t); cbn [fst].
    + split; [by rewrite <-Es|]. split.
      * change (buffered (with_sack ?b ?u)) with (buffered u). rewrite take_payload_buffered by done. by rewrite Eb, Ea.
      * by rewrite <-Ea.
    + rewrite app_nil_r. split; [by rewrite <-Es|]. by split; [rewrite <-Eb|].
  - cbn [fst]. rewrite app_nil_r. by split.
Qed.

(** *** Segments in any order *)

Inductive RxEvent :=
  | Arrive (now : Z) (sg : Seg)
  | Read (n : nat).

(** The bytes read, and the block. *)
Fixpoint rx_run (es : list RxEvent) (t : Tcb) : bytes * Tcb :=
  match es with
  | [] => ([], t)
  | Arrive now sg :: es => rx_run es (tcb_receive now sg t).1
  | Read n :: es => let '(d, t) := read_rx n t in let '(ds, t) := rx_run es t in (d ++ ds, t)
  end.

(** A piece of the stream [D] whose first byte has the number [base]. *)
Definition piece_of (D : bytes) (base : Z) (sg : Seg) : Prop :=
  exists off, sg_seq sg = u32_add base (Z.of_nat off) /\ (off + length (sg_payload sg) <= length D)%nat /\
    sg_payload sg = slice off (off + length (sg_payload sg)) D.

Definition event_ok (D : bytes) (base : Z) (e : RxEvent) : Prop :=
  match e with
  | Arrive now sg => is_u64 now /\ seg_ok sg /\ has TCP_FLAG_RST sg = false /\ has TCP_FLAG_FIN sg = false /\ piece_of D base sg
  | Read _ => True
  end.

(** [n] bytes of the stream have been taken. *)
Definition taken (D : bytes) (base : Z) (n : nat) (before : bytes) (t : Tcb) : Prop :=
  before ++ buffered t = take n D /\ (n <= length D)%nat /\ recv_nxt t = u32_add base (Z.of_nat n).

Lemma u32_add_inj base m n : 0 <= m < U32 -> 0 <= n < U32 -> u32_add base m = u32_add base n -> m = n.
Proof. intros Hm Hn E. rewrite <-(u32_sub_add base m), <-(u32_sub_add base n) by done. by rewrite E. Qed.

Lemma arrive_taken D base n before now sg t :
  Z.of_nat (length D) < U32 -> tcb_ok t -> is_open t = true -> taken D base n before t -> event_ok D base (Arrive now sg) ->
  exists m, (n <= m)%nat /\ taken D base m before (tcb_receive now sg t).1 /\
    (in_order sg t = true -> m = (n + accepted sg t)%nat).
Proof.
  intros HD Hok Ho (Hb & Hn & Hr) (Hnow & Hsg & H1 & H2 & off & Hs & Hl & Hp).
  destruct (open_receive now sg t Hok Hsg Hnow Ho H1 H2) as (_ & Eb & Er).
  destruct (in_order sg t) eqn:Ei; [|exists n; split; [done|]; split; [|done]; split_and!; [by rewrite Eb, app_nil_r|done|congruence]].
  unfold in_order in Ei. bsplit. assert (off = n) as ->.
  { apply Nat2Z.inj, (u32_add_inj base); [lia|lia|congruence]. }
  set (k := accepted sg t) in *. assert (k <= length (sg_payload sg))%nat as Hk by (unfold k, accepted; lia).
  exists (n + k)%nat. split; [lia|]. split; [|done]. split_and!; [|lia|].
  - rewrite Eb, app_assoc, Hb, Hp. unfold slice. rewrite take_take. replace (Nat.min k _) with k by lia.
    by rewrite take_take_drop.
  - rewrite Er, seq_advance_0 by lia. rewrite Hs, u32_add_assoc. f_equal. lia.
Qed.

Lemma is_open_state t t' : state t' = state t -> is_open t' = is_open t.
Proof. unfold is_open. by intros ->. Qed.

Lemma rx_run_taken D base es : Z.of_nat (length D) < U32 -> Forall (event_ok D base) es -> forall n before t,
  tcb_ok t -> is_open t = true -> taken D base n before t ->
  exists m, (n <= m)%nat /\ taken D base m (before ++ (rx_run es t).1) (rx_run es t).2.
Proof.
  intros HD Hes. induction Hes as [|e es He Hes IH]; intros n before t Hok Ho Ht.
  - exists n. split; [done|]. cbn. by rewrite app_nil_r.
  - destruct e as [now sg|k]; cbn [rx_run].
    + destruct (arrive_taken D base n before now sg t HD Hok Ho Ht He) as (m & Hm & Ht' & _).
      destruct He as (Hnow & Hsg & H1 & H2 & _). destruct (open_receive now sg t Hok Hsg Hnow Ho H1 H2) as (Es & _).
      destruct (IH m before (tcb_receive now sg t).1) as (m' & Hm' & H); [by apply tcb_receive_keeps|by rewrite (is_open_state t)|done|].
      exists m'. split; [lia|done].
    + pose proof (read_rx_data k t) as Ed. pose proof (read_rx_rest k t Hok) as Eb. destruct (read_rx_keeps k t Hok) as [Hok' _].
      assert (is_open (read_rx k t).2 = true /\ recv_nxt (read_rx k t).2 = recv_nxt t) as [Ho' Er] by done.
      destruct (read_rx k t) as [d t']. cbn [fst snd] in *. destruct Ht as (H1 & H2 & H3).
      destruct (IH n (before ++ d) t' Hok' Ho') as (m & Hm & H).
      { split; [|by rewrite Er]. rewrite <-app_assoc, Ed, Eb, take_drop. done. }
      destruct (rx_run es t') as [ds t'']. cbn [fst snd] in *. exists m. split; [done|]. by rewrite app_assoc.
Qed.

(** ** Two blocks *)

(** [b] is the other end of [a], and each expects what the other sends next. *)
Record linked (a b : Tcb) : Prop := {
  lk_a : tcb_ok a;
  lk_b : tcb_ok b;
  lk_ip : local_ip b = remote_ip a;
  lk_ip' : remote_ip b = local_ip a;
  lk_port : local_port b = remote_port a;
  lk_port' : remote_port b = local_port a;
  lk_seq : recv_nxt b = send_nxt a;
  lk_seq' : recv_nxt a = send_nxt b;
}.

(** Nothing is queued and everything sent is acknowledged. *)
Definition quiet (t : Tcb) : Prop := send_una t = send_nxt t /\ tx_data_len t = 0%nat.

Lemma linked_sym a b : linked a b -> linked b a.
Proof. by intros []. Qed.

(** A segment on its way from one address to another. *)
Definition arrive (now : Z) (from to seg : bytes) (t : Tcb) : Tcb * list bytes :=
  match parse_segment from to seg with
  | Some sg => tcb_receive now sg t
  | None => (t, [])
  end.

(** The segment of [t] as its receiver reads it. *)
Definition own_seg (t : Tcb) (seq flags : Z) (payload : bytes) : Seg :=
  {| sg_src := local_ip t; sg_dst := remote_ip t; sg_sport := local_port t; sg_dport := remote_port t; sg_seq := seq; sg_ack := recv_nxt t;
     sg_flags := flags; sg_window := win t; sg_payload := payload |}.

Lemma own_seg_ok t seq flags payload : tcb_ok t -> is_u32 seq -> is_u8 flags -> bytes_ok payload -> seg_ok (own_seg t seq flags payload).
Proof.
  intros ((H1 & H2 & H3 & H4) & (_ & _ & H5 & _) & _) Hs Hf Hp. unfold seg_ok. cbn.
  exact (conj H1 (conj H2 (conj H3 (conj H4 (conj Hs (conj H5 (conj Hf (conj (win_ok _) Hp)))))))).
Qed.

Lemma deliver_own now t seq flags payload n u : tcb_ok t -> is_u32 seq -> is_u8 flags -> bytes_ok payload -> (length payload <= 1480)%nat ->
  n = (20 + length payload)%nat ->
  arrive now (local_ip t) (remote_ip t) (own_segment t seq flags payload n) u = tcb_receive now (own_seg t seq flags payload) u.
Proof.
  intros (((Hl1 & Hl2) & (Hr1 & Hr2) & H3 & H4) & (_ & _ & H5 & _) & _) Hs Hf Hp Hl Hn. unfold arrive, own_segment.
  rewrite parse_built; [done|done..|apply win_ok|done|done|done].
Qed.

(** An answer to a segment of [a] is a segment of [b]. *)
Lemma reply_own a b seq0 flags0 payload0 t flags : linked a b -> ends t = ends b ->
  reply (own_seg a seq0 flags0 payload0) (send_nxt t) (recv_nxt t) flags (win t) = own_segment t (send_nxt t) flags [] 20.
Proof.
  intros [_ _ H1 H2 H3 H4 _ _] He. unfold reply, own_segment, own_seg. cbn [sg_dst sg_src sg_dport sg_sport].
  unfold ends in He. simplify_eq. congruence.
Qed.

Definition tx_part (t : Tcb) : Z * Z * bytes * nat := (send_una t, send_nxt t, tx_data t, tx_data_len t).

Lemma count_dupack_tx sg t : tx_part (count_dupack sg t) = tx_part t.
Proof. unfold count_dupack. by repeat case_if. Qed.

Lemma on_ack_tx now sg t : tx_part (on_ack now sg t) = tx_part (take_ack sg (count_dupack sg t)).2.
Proof. unfold on_ack. destruct (take_ack sg (count_dupack sg t)) as [n t2]. cbn [snd]. by repeat case_if. Qed.

(** An acknowledgement of nothing new. *)
Lemma on_ack_idle now sg t : send_una t = send_nxt t -> sg_ack sg = send_nxt t -> tx_part (on_ack now sg t) = tx_part t.
Proof.
  intros Hq Ha. rewrite on_ack_tx. pose proof (count_dupack_tx sg t) as E. set (t1 := count_dupack sg t) in *.
  assert (send_una t1 = send_nxt t) as Eu by (unfold tx_part in E; simplify_eq; congruence).
  unfold take_ack. rewrite Eu, Ha, seq_before_refl. done.
Qed.

(** An acknowledgement of all that is queued and sent. *)
Lemma on_ack_all now sg t : (0 < tx_data_len t <= TX_BUF_LEN)%nat -> send_nxt t = u32_add (send_una t) (Z.of_nat (tx_data_len t)) ->
  sg_ack sg = send_nxt t ->
  let t' := on_ack now sg t in send_una t' = send_nxt t /\ send_nxt t' = send_nxt t /\ tx_data_len t' = 0%nat.
Proof.
  intros Hn Hx Ha t'. pose proof (on_ack_tx now sg t) as Et. fold t' in Et. pose proof (count_dupack_tx sg t) as E.
  set (t1 := count_dupack sg t) in *. clearbody t1. unfold tx_part in E. injection E as Eu Enx Ed El.
  assert (Z.of_nat (tx_data_len t) < 2 ^ 31) as Hlt by (pose proof TX_BUF_LEN_eq; lia).
  assert (u32_sub (sg_ack sg) (send_una t1) = Z.of_nat (tx_data_len t)) as Es.
  { rewrite Ha, Hx, Eu. apply u32_sub_add. unfold U32. lia. }
  unfold take_ack in Et. change (tx_data_len (with_una (sg_ack sg) t1)) with (tx_data_len t1) in Et. rewrite Es, Eu, Enx, El, Ha in Et.
  assert (seq_before (send_una t) (send_nxt t) = true) as Hb by (rewrite Hx; apply seq_before_add; lia).
  rewrite Hb, seq_before_eq_refl in Et. cbn [andb snd] in Et.
  rewrite Z.leb_refl, Nat2Z.id, Nat.ltb_irrefl, Nat.sub_diag in Et.
  destruct (negb _) in Et; unfold tx_part in Et; cbn in Et; rewrite Enx in Et; simplify_eq; by split_and!.
Qed.

Lemma win_def t : advertised_window (rx_data_len t) = win t.
Proof. unfold win. reflexivity. Qed.

(** Data in order arrives at an open block that has nothing in flight itself. *)
Lemma data_arrives now a b d :
  linked a b -> is_open b = true -> send_una b = send_nxt b -> bytes_ok d -> d <> [] -> (length d <= rx_free (rx_data_len b))%nat -> is_u64 now ->
  exists b', tcb_receive now (own_seg a (send_nxt a) ACK_PSH d) b = (b', [own_segment b' (send_nxt b') TCP_FLAG_ACK [] 20]) /\
    keeps b b' /\ state b' = state b /\ buffered b' = buffered b ++ d /\
    recv_nxt b' = u32_add (recv_nxt b) (Z.of_nat (length d)) /\ tx_part b' = tx_part b.
Proof.
  intros Hl Ho Hq Hd Hne Hfit Hnow. set (sg := own_seg a (send_nxt a) ACK_PSH d).
  assert (seg_ok sg) as Hsg by (apply own_seg_ok; [apply Hl|apply (lk_a _ _ Hl)|done|done]).
  pose proof (lk_b _ _ Hl) as Hok.
  destruct (open_receive now sg b Hok Hsg Hnow Ho eq_refl eq_refl) as (Es & Eb & Er).
  assert (in_order sg b = true) as Hi.
  { unfold in_order. cbn [sg own_seg sg_payload sg_seq]. rewrite bool_decide_eq_false_2 by done. by rewrite (lk_seq _ _ Hl), Z.eqb_refl. }
  assert (accepted sg b = length d) as Ha by (unfold accepted; cbn [sg own_seg sg_payload]; lia).
  rewrite Hi, Ha in Eb, Er. cbn [sg own_seg sg_payload] in Eb. rewrite take_ge in Eb by done.
  pose proof (tcb_receive_keeps now sg b Hok Hsg Hnow) as Hk. exists (tcb_receive now sg b).1.
  assert (tcb_receive now sg b = on_established now sg b) as E.
  { unfold tcb_receive. cbn. unfold is_open, state_is in Ho. by destruct (state b). }
  assert (on_established now sg b = on_payload sg (on_ack now sg b)) as E'.
  { unfold on_established. change (has TCP_FLAG_ACK sg) with true. change (has TCP_FLAG_FIN sg) with false.
    cbn [sg own_seg sg_payload]. rewrite bool_decide_eq_false_2 by done. cbn [negb andb].
    fold (own_seg a (send_nxt a) ACK_PSH d). fold sg. destruct (on_payload sg (on_ack now sg b)). by rewrite app_nil_r. }
  assert (tx_part (on_ack now sg b) = tx_part b) as Et by (apply on_ack_idle; [done|apply Hl]).
  assert (recv_nxt (on_ack now sg b) = recv_nxt b) as En by (pose proof (on_ack_rx now sg b) as H; unfold rx_part in H; congruence).
  rewrite E, E' in Hk, Es, Eb, Er |- *. unfold on_payload in *. rewrite En in *. cbn [sg own_seg sg_seq] in *. rewrite (lk_seq _ _ Hl), Z.eqb_refl in *.
  cbn [fst] in *. set (t1 := take_payload sg (on_ack now sg b)) in *. set (b' := with_sack _ t1) in *. rewrite win_def.
  split; [|split; [exact Hk|split; [exact Es|split; [exact Eb|split; [|exact Et]]]]].
  - unfold sg. rewrite (reply_own a b (send_nxt a) ACK_PSH d b' TCP_FLAG_ACK Hl (proj2 Hk)). reflexivity.
  - rewrite Er, seq_advance_0; [done|]. pose proof (lk_b _ _ Hl) as (_ & _ & ((_ & Hn & _) & _) & _).
    pose proof RX_BUF_LEN_eq as Hrx. unfold rx_free in Hfit. unfold U32. lia.
Qed.

(** An acknowledgement of all that is in flight arrives. *)
Lemma ack_arrives now a b :
  linked a b -> is_open a = true -> (0 < tx_data_len a)%nat -> send_nxt a = u32_add (send_una a) (Z.of_nat (tx_data_len a)) -> is_u64 now ->
  exists a', tcb_receive now (own_seg b (send_nxt b) TCP_FLAG_ACK []) a = (a', []) /\
    keeps a a' /\ state a' = state a /\ rx_part a' = rx_part a /\ send_nxt a' = send_nxt a /\ quiet a'.
Proof.
  intros Hl Ho Hn Hx Hnow. set (sg := own_seg b (send_nxt b) TCP_FLAG_ACK []).
  assert (seg_ok sg) as Hsg by (apply own_seg_ok; [apply Hl|apply (lk_b _ _ Hl)|done|by constructor]).
  pose proof (lk_a _ _ Hl) as Hok. exists (on_ack now sg a).
  assert (tcb_receive now sg a = (on_ack now sg a, [])) as E.
  { unfold tcb_receive. cbn. unfold is_open, state_is in Ho. by destruct (state a). }
  split; [done|]. pose proof (tcb_receive_keeps now sg a Hok Hsg Hnow) as Hk. rewrite E in Hk. split; [done|].
  split; [apply on_ack_ends|]. split; [apply on_ack_rx|].
  destruct (on_ack_all now sg a) as (H1 & H2 & H3); [|done|apply Hl|].
  - destruct Hok as (_ & _ & (_ & (_ & Ht & _) & _) & _). done.
  - unfold quiet. rewrite H1, H2, H3. done.
Qed.

Definition queued (t : Tcb) : bytes := take (tx_data_len t) (tx_data t).

Lemma queue_data_queued d t : tcb_ok t -> (tx_data_len t + length d <= TX_BUF_LEN)%nat ->
  let t' := (queue_data d t).2 in (queue_data d t).1 = length d /\ queued t' = queued t ++ d /\ tx_data_len t' = (tx_data_len t + length d)%nat.
Proof.
  intros (_ & _ & (_ & (Hl & Hn & _) & _) & _) Hd. unfold queue_data, queued. cbn [fst snd tx_data tx_data_len with_tx with_bufs].
  replace (Nat.min (length d) (TX_BUF_LEN - tx_data_len t)) with (length d) by lia. rewrite (take_ge d) by done.
  split_and!; [done| |done]. apply take_splice. lia.
Qed.

Lemma flush_payload t : take (flush_len t) (tx_data t) = take 1460 (queued t).
Proof. unfold flush_len, queued. rewrite take_take. f_equal. lia. Qed.

(** The data segment as its receiver reads it. *)
Lemma deliver_data now t u : tcb_ok t ->
  arrive now (local_ip t) (remote_ip t) (data_segment t) u = tcb_receive now (own_seg t (send_nxt t) ACK_PSH (take 1460 (queued t))) u.
Proof.
  intros Hok. pose proof Hok as (_ & (_ & Hx & _) & (_ & (Hl & Hn & Hb) & _) & _). unfold data_segment. rewrite <-flush_payload.
  apply deliver_own; [done|done|done|by apply Forall_take| |]; rewrite length_take; unfold flush_len; lia.
Qed.

(** *** Messages *)

(** The calls of [socket::send], the segment on its way, and the answer on its way back. *)
Definition send_message (now : Z) (p : Tcb * Tcb) (d : bytes) : Tcb * Tcb :=
  let '(a, b) := p in
  let a := (queue_data d a).2 in
  let '(b, out) := arrive now (local_ip a) (remote_ip a) (data_segment a) b in
  (foldl (fun a seg => (arrive now (local_ip b) (remote_ip b) seg a).1) (flushed a) out, b).

Lemma ends_eq t t' : ends t' = ends t ->
  local_ip t' = local_ip t /\ local_port t' = local_port t /\ remote_ip t' = remote_ip t /\ remote_port t' = remote_port t.
Proof. by intros [= -> -> -> -> _]. Qed.

(** A block that takes a step stays linked when the numbers agree. *)
Lemma linked_step a b a' b' : linked a b -> keeps a a' -> keeps b b' -> recv_nxt b' = send_nxt a' -> recv_nxt a' = send_nxt b' -> linked a' b'.
Proof.
  intros [_ _ H1 H2 H3 H4 _ _] [Ha (A1 & A2 & A3 & A4)%ends_eq] [Hb (B1 & B2 & B3 & B4)%ends_eq] E1 E2. split; congruence.
Qed.

(** What [queue_data] and [flushed] do not change. *)
Lemma queue_data_same d t : let t' := (queue_data d t).2 in
  state t' = state t /\ rx_part t' = rx_part t /\ send_una t' = send_una t /\ send_nxt t' = send_nxt t.
Proof. done. Qed.

(** A segment with all that is queued arrives. *)
Lemma flush_arrives now a b :
  linked a b -> is_open b = true -> send_una b = send_nxt b -> queued a <> [] -> (length (queued a) <= 1460)%nat ->
  (length (queued a) <= rx_free (rx_data_len b))%nat -> is_u64 now ->
  exists b', arrive now (local_ip a) (remote_ip a) (data_segment a) b = (b', [own_segment b' (send_nxt b') TCP_FLAG_ACK [] 20]) /\
    linked (flushed a) b' /\ keeps b b' /\ state b' = state b /\ buffered b' = buffered b ++ queued a /\ tx_part b' = tx_part b.
Proof.
  intros Hl Ho Hq Hne Hlen Hfit Hnow. pose proof (lk_a _ _ Hl) as Ha. rewrite deliver_data, take_ge by done.
  assert (bytes_ok (queued a)) as Hok by (destruct Ha as (_ & _ & (_ & (_ & _ & Hb) & _) & _); by apply Forall_take).
  destruct (data_arrives now a b (queued a) Hl Ho Hq Hok Hne Hfit Hnow) as (b' & E & Hk & Es & Eb & Er & Et).
  exists b'. split; [done|]. split; [|done]. apply (linked_step a b); [done|by apply flushed_keeps|done| |].
  - rewrite Er, (lk_seq _ _ Hl). cbn [flushed with_retry with_timers send_nxt with_nxt with_core]. do 2 f_equal.
    unfold queued, flush_len in *. destruct Ha as (_ & _ & (_ & (Hx & Hy & _) & _) & _). rewrite length_take in *. lia.
  - unfold tx_part in Et. change (recv_nxt (flushed a)) with (recv_nxt a). rewrite (lk_seq' _ _ Hl). congruence.
Qed.

(** A message arrives and is acknowledged. *)
Lemma message_arrives now a b d :
  linked a b -> is_open a = true -> is_open b = true -> quiet a -> quiet b -> is_u64 now ->
  bytes_ok d -> (0 < length d <= 1460)%nat -> (length d <= rx_free (rx_data_len b))%nat ->
  let p := send_message now (a, b) d in
  linked p.1 p.2 /\ state p.1 = state a /\ state p.2 = state b /\ quiet p.1 /\ quiet p.2 /\
  rx_part p.1 = rx_part a /\ buffered p.2 = buffered b ++ d.
Proof.
  intros Hl Hoa Hob [Qa Ta] [Qb Tb] Hnow Hd Hlen Hfit. unfold send_message. pose proof (lk_a _ _ Hl) as Ha.
  pose proof TX_BUF_LEN_eq as Htx. pose proof (queue_data_queued d a Ha) as Hqd. destruct Hqd as (_ & Eq & El); [lia|].
  pose proof (queue_data_keeps d a Ha Hd) as Hk. destruct (queue_data_same d a) as (Es & Ex & Eu & En).
  set (a1 := (queue_data d a).2) in *. clearbody a1.
  assert (queued a = []) as Q0 by (unfold queued; rewrite Ta; apply firstn_O). rewrite Q0, app_nil_l in Eq. rewrite Ta, Nat.add_0_l in El.
  assert (linked a1 b) as Hl1.
  { apply (linked_step a b); [done|done|split; [apply Hl|done]|rewrite En; apply Hl|]. unfold rx_part in Ex. rewrite <-(lk_seq' _ _ Hl). congruence. }
  destruct (flush_arrives now a1 b Hl1 Hob Qb) as (b' & E & Hl' & Hkb & Esb & Ebb & Etb); [rewrite Eq; intros ->; cbn in Hlen; lia|rewrite Eq; lia|by rewrite Eq|done|].
  rewrite E. cbn [foldl]. pose proof (lk_b _ _ Hl') as Hb'.
  rewrite deliver_own; [|done|apply Hb'|done|by constructor|cbn; lia|done].
  destruct (ack_arrives now (flushed a1) b' Hl') as (a2 & E2 & Hk2 & Es2 & Ex2 & En2 & Hq2).
  - rewrite (is_open_state a); [done|]. by rewrite <-Es.
  - change (tx_data_len (flushed a1)) with (tx_data_len a1). lia.
  - cbn [flushed with_retry with_timers with_nxt with_core send_nxt send_una tx_data_len]. rewrite Eu, En, Qa. do 2 f_equal. unfold flush_len. lia.
  - done.
  - rewrite E2. cbn [fst snd]. unfold tx_part in Etb. injection Etb as B1 B2 B3 B4.
    split; [|split; [by rewrite Es2|split; [done|split; [done|split; [|split; [by rewrite Ex2|by rewrite Ebb, Eq]]]]]].
    + apply (linked_step (flushed a1) b'); [done|done|by split|by rewrite En2; apply Hl'|].
      unfold rx_part in Ex2. rewrite <-(lk_seq' _ _ Hl'). congruence.
    + split; congruence.
Qed.

(** *** The end of a connection *)

(** A FIN in order arrives at an established block that has nothing in flight. *)
Lemma fin_arrives now a b :
  linked a b -> is_open a = true -> state b = TCP_ESTABLISHED -> quiet b -> is_u64 now ->
  exists b', arrive now (local_ip a) (remote_ip a) (fin_segment a) b = (b', [own_segment b' (send_nxt b') TCP_FLAG_ACK [] 20]) /\
    linked (finished a) b' /\ keeps b b' /\ state b' = TCP_CLOSE_WAIT /\ quiet b' /\ buffered b' = buffered b.
Proof.
  intros Hl Hoa Hs [Hq Ht] Hnow. pose proof (lk_a _ _ Hl) as Ha. pose proof (lk_b _ _ Hl) as Hb. unfold fin_segment.
  rewrite deliver_own; [|done|apply Ha|done|by constructor|cbn; lia|done]. set (sg := own_seg a (send_nxt a) FIN_ACK []).
  assert (seg_ok sg) as Hsg by (apply own_seg_ok; [done|apply Ha|done|by constructor]).
  pose proof (tcb_receive_keeps now sg b Hb Hsg Hnow) as Hk. set (b1 := on_ack now sg b).
  set (b' := with_state TCP_CLOSE_WAIT (with_recv (u32_add (recv_nxt b1) 1) b1)).
  assert (state b1 = TCP_ESTABLISHED) as Es by (unfold b1; rewrite <-Hs; apply on_ack_ends).
  assert (tcb_receive now sg b = (b', [ack_of sg b'])) as E.
  { unfold tcb_receive. change (has TCP_FLAG_RST sg) with false. rewrite Hs. unfold on_established.
    change (has TCP_FLAG_ACK sg) with true. change (has TCP_FLAG_FIN sg) with true. change (sg_payload sg) with (@nil Z).
    rewrite bool_decide_eq_true_2 by done. cbn [negb andb]. fold b1. unfold on_fin.
    change (state (with_recv (u32_add (recv_nxt b1) 1) b1)) with (state b1). rewrite Es. done. }
  rewrite E in Hk |- *. cbn [fst] in Hk. exists b'.
  assert (ack_of sg b' = own_segment b' (send_nxt b') TCP_FLAG_ACK [] 20) as <-
    by exact (reply_own a b (send_nxt a) FIN_ACK [] b' TCP_FLAG_ACK Hl (proj2 Hk)).
  assert (tx_part b1 = tx_part b) as Et by (apply on_ack_idle; [done|apply Hl]).
  assert (rx_part b1 = rx_part b) as Ex by apply on_ack_rx.
  unfold tx_part in Et. injection Et as T1 T2 T3 T4. unfold rx_part in Ex. injection Ex as X1 X2 X3.
  assert (recv_nxt b' = u32_add (send_nxt a) 1) as Er by (change (recv_nxt b') with (u32_add (recv_nxt b1) 1); by rewrite X3, (lk_seq _ _ Hl)).
  assert (send_nxt b' = send_nxt b /\ send_una b' = send_una b /\ tx_data_len b' = tx_data_len b) as (N1 & N2 & N3) by by split_and!.
  split; [done|]. split; [|split; [done|split; [done|split; [split; congruence|]]]].
  - apply (linked_step a b); [done|apply finished_keeps; [done|by apply open_not_listening]|done|done|].
    change (recv_nxt (finished a)) with (recv_nxt a). rewrite N1. apply Hl.
  - unfold buffered. change (rx_data_len b') with (rx_data_len b1). change (rx_data b') with (rx_data b1). by rewrite X1, X2.
Qed.

Definition deliver_all (now : Z) (from to : bytes) (segs : list bytes) (t : Tcb) : Tcb :=
  foldl (fun t seg => (arrive now from to seg t).1) t segs.

(** [a] closes, then [b]; every segment arrives. *)
Definition close_both (now : Z) (a b : Tcb) : Tcb * Tcb :=
  let '(b, out) := arrive now (local_ip a) (remote_ip a) (fin_segment a) b in
  let a := deliver_all now (local_ip b) (remote_ip b) out (finished a) in
  let '(a, out) := arrive now (local_ip b) (remote_ip b) (fin_segment b) a in
  (a, deliver_all now (local_ip a) (remote_ip a) out (finished b)).

(** The acknowledgement of a FIN. *)
Lemma fin_wait1_acked now a b : linked a b -> state a = TCP_FIN_WAIT1 ->
  arrive now (local_ip b) (remote_ip b) (own_segment b (send_nxt b) TCP_FLAG_ACK [] 20) a = (with_state TCP_FIN_WAIT2 a, []).
Proof.
  intros Hl Hs. pose proof (lk_b _ _ Hl) as Hb. rewrite deliver_own; [|done|apply Hb|done|by constructor|cbn; lia|done].
  set (sg := own_seg b (send_nxt b) TCP_FLAG_ACK []). unfold tcb_receive. change (has TCP_FLAG_RST sg) with false. rewrite Hs.
  unfold on_fin_wait1. change (has TCP_FLAG_RST sg) with false. change (has TCP_FLAG_ACK sg) with true. change (has TCP_FLAG_FIN sg) with false.
  change (sg_ack sg) with (recv_nxt b). rewrite (lk_seq _ _ Hl), Z.leb_refl. done.
Qed.

Lemma last_acked now a b : linked a b -> state b = TCP_LAST_ACK ->
  arrive now (local_ip a) (remote_ip a) (own_segment a (send_nxt a) TCP_FLAG_ACK [] 20) b = (with_state TCP_CLOSED b, []).
Proof.
  intros Hl Hs. pose proof (lk_a _ _ Hl) as Ha. rewrite deliver_own; [|done|apply Ha|done|by constructor|cbn; lia|done].
  set (sg := own_seg a (send_nxt a) TCP_FLAG_ACK []). unfold tcb_receive. change (has TCP_FLAG_RST sg) with false. rewrite Hs.
  unfold on_last_ack. change (has TCP_FLAG_RST sg) with false. change (has TCP_FLAG_ACK sg) with true.
  change (sg_ack sg) with (recv_nxt a). rewrite (lk_seq' _ _ Hl), Z.leb_refl. done.
Qed.

(** The FIN of the other end. *)
Lemma fin_wait2_fin now a b : linked a b -> state a = TCP_FIN_WAIT2 -> listening b = false ->
  exists a', arrive now (local_ip b) (remote_ip b) (fin_segment b) a = (a', [own_segment a' (send_nxt a') TCP_FLAG_ACK [] 20]) /\
    keeps a a' /\ state a' = TCP_TIME_WAIT /\ time_wait_ticks a' = 20 /\ linked a' (finished b).
Proof.
  intros Hl Hs Hlis. pose proof (lk_a _ _ Hl) as Ha. pose proof (lk_b _ _ Hl) as Hb. unfold fin_segment.
  rewrite deliver_own; [|done|apply Hb|done|by constructor|cbn; lia|done].
  set (sg := own_seg b (send_nxt b) FIN_ACK []).
  assert (seg_ok sg) as Hsg by (apply own_seg_ok; [done|apply Hb|done|by constructor]).
  pose proof (tcb_receive_keeps 0 sg a Ha Hsg) as Hk. set (a1 := ack_fin sg a).
  set (a' := with_time_wait 20 (with_state TCP_TIME_WAIT a1)).
  assert (forall n, tcb_receive n sg a = (a', [ack_of sg a1])) as E.
  { intros n. unfold tcb_receive. change (has TCP_FLAG_RST sg) with false. rewrite Hs. unfold on_fin_wait2.
    change (has TCP_FLAG_RST sg) with false. change (has TCP_FLAG_FIN sg) with true. done. }
  rewrite E in Hk |- *. cbn [fst] in Hk. assert (keeps a a') as Hka by (apply Hk; word_lia). exists a'.
  assert (ack_of sg a1 = own_segment a' (send_nxt a') TCP_FLAG_ACK [] 20) as <-
    by exact (reply_own b a (send_nxt b) FIN_ACK [] a' TCP_FLAG_ACK (linked_sym _ _ Hl) (proj2 Hka)).
  split; [done|]. split; [done|]. split; [done|]. split; [done|].
  apply (linked_step a b); [done|done|by apply finished_keeps| |].
  - change (recv_nxt (finished b)) with (recv_nxt b). change (send_nxt a') with (send_nxt a). apply Hl.
  - change (recv_nxt a') with (u32_add (u32_add (send_nxt b) 0) 1). change (send_nxt (finished b)) with (u32_add (send_nxt b) 1).
    by rewrite (u32_add_assoc (send_nxt b) 0 1).
Qed.

(** *** Polling *)

(** A block polled at several times, and the segments it sends; a freed slot stays free. *)
Fixpoint polls (times : list Z) (t : Tcb) : option Tcb * list bytes :=
  match times with
  | [] => (Some t, [])
  | now :: times =>
      match poll_tcb now t with
      | (None, out) => (None, out)
      | (Some t, out) => prod_map id (app out) (polls times t)
      end
  end.

Lemma polls_app xs ys t : polls (xs ++ ys) t =
  match polls xs t with
  | (None, out) => (None, out)
  | (Some t', out) => prod_map id (app out) (polls ys t')
  end.
Proof.
  revert t. induction xs as [|now xs IH]; intros t; [by cbn; destruct (polls ys t)|]. cbn [app polls].
  destruct (poll_tcb now t) as [[t1|] out]; [|done]. rewrite IH. destruct (polls xs t1) as [[t2|] out2]; [|done].
  cbn. destruct (polls ys t2) as [o out3]. cbn. by rewrite app_assoc.
Qed.

(** TIME_WAIT is left after as many polls as it has ticks. *)
Lemma time_wait_polls times t : state t = TCP_TIME_WAIT -> listening t = false -> times <> [] ->
  time_wait_ticks t = Z.of_nat (length times) -> exists t', polls times t = (Some t', []) /\ state t' = TCP_CLOSED.
Proof.
  intros Hs Hl Hne. revert t Hs Hl. induction times as [|now times IH]; intros t Hs Hl Ht; [done|].
  cbn [polls length] in *. unfold poll_tcb. rewrite Hs, Hl, Ht.
  change (state_is TCP_TIME_WAIT TCP_CLOSED) with false. change (state_is TCP_TIME_WAIT TCP_TIME_WAIT) with true. cbv iota.
  rewrite (proj2 (Z.eqb_neq _ 0)) by lia. change (time_wait_ticks (with_time_wait ?x t)) with x.
  destruct times as [|now' times].
  - exists (with_state TCP_CLOSED (with_time_wait 0 t)). done.
  - rewrite (proj2 (Z.eqb_neq _ 0)) by (cbn [length]; lia).
    destruct (IH ltac:(done) (with_time_wait (Z.of_nat (S (length (now' :: times))) - 1) t) Hs Hl) as (t' & E & H'); [cbn; lia|].
    exists t'. split; [|done]. by rewrite E.
Qed.

(** Polls that only count down to the next retransmission. *)
Definition pending (t : Tcb) : Prop :=
  listening t = false /\ retransmits (state t) = true /\ seq_before (send_una t) (send_nxt t) = true.

Lemma poll_pending now t c k : pending t -> c <> 0 ->
  poll_tcb now (with_retry c k t) =
  if 0 <? k then (Some (with_retry c (k - 1) t), [])
  else
    match retransmission t with
    | None => (Some (with_retry c 1 t), [])
    | Some seg =>
        (Some (if c - 1 =? 0 then with_state TCP_CLOSED (with_retry (c - 1) RETRY_INTERVAL t)
               else with_dup 0 (last_ack_seq t) (with_cwnd MSS (Z.max (cwnd t / 2) MSS) (with_retry (c - 1) RETRY_INTERVAL t))), [seg])
    end.
Proof.
  intros (Hl & Hr & Hb) Hc. unfold poll_tcb. change (state (with_retry c k t)) with (state t).
  change (listening (with_retry c k t)) with (listening t). change (send_una (with_retry c k t)) with (send_una t).
  change (send_nxt (with_retry c k t)) with (send_nxt t). change (retry_count (with_retry c k t)) with c.
  change (retry_ticks (with_retry c k t)) with k. rewrite Hl, Hr, Hb, (proj2 (Z.eqb_neq _ _) Hc).
  assert (state_is (state t) TCP_CLOSED = false /\ state_is (state t) TCP_TIME_WAIT = false) as [-> ->] by (by destruct (state t)).
  cbn [negb]. done.
Qed.

Lemma count_down times t c : pending t -> c <> 0 ->
  polls times (with_retry c (Z.of_nat (length times)) t) = (Some (with_retry c 0 t), []).
Proof.
  intros Hp Hc. induction times as [|now times IH]; [done|]. cbn [polls length]. rewrite poll_pending by done.
  rewrite (proj2 (Z.ltb_lt 0 _)) by lia. replace (Z.of_nat (S (length times)) - 1) with (Z.of_nat (length times)) by lia. by rewrite IH.
Qed.

Lemma retry_eta t : with_retry (retry_count t) (retry_ticks t) t = t.
Proof. by destruct t. Qed.

(** States in which a control segment is sent again. *)
Definition control (s : TcbState) : bool :=
  match s with
  | TCP_SYN_SENT | TCP_SYN_RECEIVED | TCP_LAST_ACK | TCP_FIN_WAIT1 | TCP_CLOSING => true
  | _ => false
  end.

(** A round of retransmission. *)
Lemma retry_round now times t c seg : pending t -> retransmission t = Some seg -> c <> 0 ->
  polls (times ++ [now]) (with_retry c (Z.of_nat (length times)) t) =
  (Some (if c - 1 =? 0 then with_state TCP_CLOSED (with_retry (c - 1) RETRY_INTERVAL t)
         else with_dup 0 (last_ack_seq t) (with_cwnd MSS (Z.max (cwnd t / 2) MSS) (with_retry (c - 1) RETRY_INTERVAL t))), [seg]).
Proof.
  intros Hp Hs Hc. rewrite polls_app, count_down by done. cbn [polls]. rewrite poll_pending, Hs by done. done.
Qed.

Lemma retries_polls n : forall t k times seg, pending t -> control (state t) = true -> retransmission t = Some seg ->
  length times = (k + 1 + n * 11)%nat ->
  exists t', polls times (with_retry (Z.of_nat (S n)) (Z.of_nat k) t) = (Some t', replicate (S n) seg) /\ state t' = TCP_CLOSED.
Proof.
  induction n as [|n IH]; intros t k times seg Hp Hc Hs Hlen.
  - destruct times as [|now times _] using rev_ind; [cbn in Hlen; lia|]. rewrite length_app in Hlen. cbn in Hlen.
    replace k with (length times) by lia. rewrite (retry_round now times t _ seg) by (done || lia). eexists. split; [reflexivity|done].
  - rewrite <-(take_drop k times). destruct (drop k times) as [|now rest] eqn:Ed.
    { apply (f_equal length) in Ed. rewrite length_drop in Ed. cbn in Ed. lia. }
    assert (length (take k times) = k) as Hk by (rewrite length_take; lia).
    assert (length rest = (10 + 1 + n * 11)%nat) as Hr by (apply (f_equal length) in Ed; rewrite length_drop in Ed; cbn in Ed; lia).
    rewrite cons_middle, app_assoc, polls_app. replace (Z.of_nat k) with (Z.of_nat (length (take k times))) by (by rewrite Hk). rewrite (retry_round now (take k times) t _ seg) by (done || lia).
    rewrite (proj2 (Z.eqb_neq _ 0)) by lia.
    set (t1 := with_dup 0 (last_ack_seq t) (with_cwnd MSS (Z.max (cwnd t / 2) MSS) t)).
    destruct (IH t1 10%nat rest seg) as (t' & E & H'); [done|done| |done|].
    + rewrite <-Hs. unfold retransmission. change (state t1) with (state t). by destruct (state t).
    + exists t'. split; [|done].
      replace (Z.of_nat (S (S n)) - 1) with (Z.of_nat (S n)) by lia.
      change (with_dup 0 (last_ack_seq t) (with_cwnd MSS (Z.max (cwnd t / 2) MSS) (with_retry (Z.of_nat (S n)) RETRY_INTERVAL t)))
        with (with_retry (Z.of_nat (S n)) (Z.of_nat 10) t1).
      rewrite E. done.
Qed.

(** A block whose window is full only counts. *)
Lemma full_window_polls times t c : pending t -> is_open t = true -> cwnd t <= u32_sub (send_nxt t) (send_una t) -> c <> 0 ->
  forall k, exists k', polls times (with_retry c k t) = (Some (with_retry c k' t), []).
Proof.
  intros Hp Ho Hw Hc. induction times as [|now times IH]; intros k; [by exists k|]. cbn [polls]. rewrite poll_pending by done.
  assert (retransmission t = None) as ->.
  { unfold retransmission. assert (send_limit t = 0%nat) as Hl by (unfold send_limit; lia). unfold is_open, state_is in Ho.
    rewrite Hl. by destruct (state t). }
  case_if; [destruct (IH (k - 1)) as [k' EQ]|destruct (IH 1) as [k' EQ]]; exists k'; by rewrite EQ.
Qed.

(** *** Keepalive *)

(** Times at which each probe is due. *)
Fixpoint spaced (due : Z) (times : list Z) : Prop :=
  match times with
  | [] => True
  | now :: times => due <= now /\ spaced (keepalive_probe_deadline now) times
  end.

Definition idle (t : Tcb) : Prop := listening t = false /\ state t = TCP_ESTABLISHED /\ send_una t = send_nxt t.

Definition probe_segment (t : Tcb) : bytes := own_segment t (send_nxt t) TCP_FLAG_ACK [] 20.

Lemma poll_idle_tcb now t : idle t -> keepalive_due t <= now ->
  poll_tcb now t =
  if KEEPALIVE_PROBES <=? keepalive_probes t then (Some (with_state TCP_CLOSED (with_retry 0 0 t)), [])
  else (Some (with_keepalive (keepalive_probes t + 1) (keepalive_probe_deadline now) (with_retry 0 0 t)), [probe_segment t]).
Proof.
  intros (Hl & Hs & Hq) Hn. unfold poll_tcb. rewrite Hl, Hs, Hq, seq_before_refl.
  change (state_is TCP_ESTABLISHED TCP_CLOSED) with false. change (state_is TCP_ESTABLISHED TCP_TIME_WAIT) with false.
  cbn [retransmits negb]. unfold poll_idle. change (state (with_retry 0 0 t)) with (state t). rewrite Hs.
  change (state_is TCP_ESTABLISHED TCP_ESTABLISHED) with true. unfold keepalive_action.
  change (keepalive_due (with_retry 0 0 t)) with (keepalive_due t). rewrite (proj2 (Z.ltb_ge _ _) Hn).
  change (keepalive_probes (with_retry 0 0 t)) with (keepalive_probes t). case_if; [done|]. by unfold probe_segment.
Qed.

Lemma keepalive_polls n : forall t times, idle t -> keepalive_probes t = KEEPALIVE_PROBES - Z.of_nat n -> (n <= 9)%nat ->
  length times = S n -> spaced (keepalive_due t) times ->
  exists t', polls times t = (Some t', replicate n (probe_segment t)) /\ state t' = TCP_CLOSED.
Proof.
  induction n as [|n IH]; intros t times Hi Hk Hn Hlen Hsp; (destruct times as [|now times]; [done|]); destruct Hsp as [Hd Hsp];
    cbn [polls]; rewrite poll_idle_tcb by done.
  - rewrite (proj2 (Z.leb_le _ _)) by lia. destruct times; [|done]. by eexists.
  - rewrite (proj2 (Z.leb_gt _ _)) by lia.
    set (t1 := with_keepalive _ _ _). destruct (IH t1 times) as (t' & E & H'); [done|cbn; lia|lia|cbn in Hlen; lia|done|].
    exists t'. split; [|done]. rewrite E. done.
Qed.

(** A segment with neither data nor FIN gets no answer from an open block. *)
Lemma bare_ack_unanswered now a b seq : linked a b -> is_open b = true -> is_u32 seq ->
  (arrive now (local_ip a) (remote_ip a) (own_segment a seq TCP_FLAG_ACK [] 20) b).2 = [] /\
  state (arrive now (local_ip a) (remote_ip a) (own_segment a seq TCP_FLAG_ACK [] 20) b).1 = state b.
Proof.
  intros Hl Ho Hs. pose proof (lk_a _ _ Hl) as Ha. rewrite deliver_own; [|done|done|done|by constructor|cbn; lia|done].
  set (sg := own_seg a seq TCP_FLAG_ACK []). assert (tcb_receive now sg b = (on_ack now sg b, [])) as ->.
  { unfold tcb_receive. cbn. unfold is_open, state_is in Ho. by destruct (state b). }
  split; [done|apply on_ack_ends].
Qed.

(** A FIN without data, whatever its sequence number. *)
Lemma stray_fin now sg t : is_open t = true -> has TCP_FLAG_FIN sg = true -> has TCP_FLAG_RST sg = false -> sg_payload sg = [] ->
  let t' := (tcb_receive now sg t).1 in
  state t' = TCP_CLOSE_WAIT /\ rx_part t' = (rx_data t, rx_data_len t, u32_add (recv_nxt t) 1).
Proof.
  intros Ho F1 F2 F3. set (u := if has TCP_FLAG_ACK sg then on_ack now sg t else t).
  assert (state u = state t /\ rx_part u = rx_part t) as [E1 E2].
  { unfold u. case_if; [|done]. split; [apply on_ack_ends|apply on_ack_rx]. }
  assert ((tcb_receive now sg t).1 = (on_fin sg u).1) as ->.
  { unfold tcb_receive. rewrite F2. transitivity (on_established now sg t).1.
    - unfold is_open, state_is in Ho. by destruct (state t).
    - unfold on_established. rewrite F1, F3, bool_decide_eq_true_2 by done. cbn [negb andb]. fold u. by destruct (on_fin sg u). }
  unfold rx_part in E2. injection E2 as <- <- <-. clearbody u. unfold is_open, state_is in Ho. rewrite <-E1 in Ho. unfold on_fin.
  change (state (with_recv ?x u)) with (state u). destruct (state u) eqn:Es; done.
Qed.

(** Two ends of an established connection. *)
Definition demo_a : Tcb := new_tcb TCP_ESTABLISHED [10; 0; 2; 15] 49152 [10; 0; 2; 2] 80 1000 1000 5000 false 0 0.
Definition demo_b : Tcb := new_tcb TCP_ESTABLISHED [10; 0; 2; 2] 80 [10; 0; 2; 15] 49152 5000 5000 1000 false 0 0.

Lemma demo_tcb_ok lip lport rip rport una rcv : is_ip lip -> is_ip rip -> is_u16 lport -> is_u16 rport -> is_u32 una -> is_u32 rcv ->
  tcb_ok (new_tcb TCP_ESTABLISHED lip lport rip rport una una rcv false 0 0).
Proof. intros. apply new_tcb_ok; try done. Qed.

Lemma demo_linked : linked demo_a demo_b.
Proof.
  assert (is_ip [10; 0; 2; 15] /\ is_ip [10; 0; 2; 2]) as [H1 H2] by (split; split; [done| |done|]; by repeat constructor).
  split; try done; apply demo_tcb_ok; try done.
Qed.

(** [demo_a] with a full window in flight, and an unanswered FIN. *)
Definition full_a : Tcb := flushed (queue_data (replicate 1460 7) demo_a).2.
Definition fin_a : Tcb := finished demo_a.

(** ** Theorems *)

Module StreamProofs.

(** C13: The receiver gives the application a prefix of what was sent.  An open block
    receives segments that are pieces of a stream, in any order, with repetitions and losses, and the
    application reads when it likes.  The bytes read and the bytes buffered are then together the first
    [m] bytes of the stream, and the block acknowledges exactly these. *)
Theorem tcp_receiver_prefix D base es t :
  Z.of_nat (length D) < U32 -> Forall (event_ok D base) es -> tcb_ok t -> is_open t = true ->
  buffered t = [] -> recv_nxt t = base ->
  exists m, (rx_run es t).1 ++ buffered (rx_run es t).2 = take m D /\ (m <= length D)%nat /\
    recv_nxt (rx_run es t).2 = u32_add base (Z.of_nat m).
Proof.
  intros HD Hes Hok Ho Hb Hr.
  destruct (rx_run_taken D base es HD Hes 0 [] t Hok Ho) as (m & _ & H); [|by exists m].
  split; [by rewrite Hb|]. split; [lia|]. rewrite <-Hr. symmetry. apply u32_add_0. apply Hok.
Qed.

Lemma tcp_receiver_prefix_witness :
  let sg seq d := own_seg demo_a seq ACK_PSH d in
  let es := [Arrive 0 (sg 1002 [3; 4]); Arrive 0 (sg 1000 [1; 2]); Read 1; Arrive 0 (sg 1000 [1; 2]); Arrive 0 (sg 1002 [3; 4])] in
  (exists m, (rx_run es demo_b).1 ++ buffered (rx_run es demo_b).2 = take m [1; 2; 3; 4] /\ (m <= 4)%nat /\
    recv_nxt (rx_run es demo_b).2 = u32_add 1000 (Z.of_nat m)) /\
  (rx_run es demo_b).1 ++ buffered (rx_run es demo_b).2 = [1; 2; 3; 4].
Proof.
  intros sg es. split; [|by vm_compute]. apply (tcp_receiver_prefix [1; 2; 3; 4] 1000 es demo_b); [done| |apply demo_linked|done|done|done].
  assert (event_ok [1; 2; 3; 4] 1000 (Arrive 0 (sg 1002 [3; 4])) /\ event_ok [1; 2; 3; 4] 1000 (Arrive 0 (sg 1000 [1; 2]))) as [H1 H2].
  { split; (split; [done|]; split; [apply own_seg_ok; [apply demo_linked|done|done|by repeat constructor]|]; split; [done|]; split; [done|]);
      [exists 2%nat|exists 0%nat]; (split; [done|]; split; [cbn; lia|done]). }
  subst es. by repeat (apply Forall_cons; split).
Defined.

(** C14: Messages arrive.  Two open blocks that are linked and have nothing in flight exchange messages of at most
    1460 bytes, each sent, delivered, acknowledged and the acknowledgement delivered, as real segments
    with checksums.  The receive buffer of the other end then holds them all, in order, and the
    blocks are linked again with nothing in flight. *)
Theorem tcp_messages_delivered now ds a b :
  linked a b -> is_open a = true -> is_open b = true -> quiet a -> quiet b -> is_u64 now ->
  Forall (fun d => bytes_ok d /\ (0 < length d <= 1460)%nat) ds -> (length (concat ds) <= rx_free (rx_data_len b))%nat ->
  let p := foldl (send_message now) (a, b) ds in
  buffered p.2 = buffered b ++ concat ds /\ linked p.1 p.2 /\ quiet p.1 /\ quiet p.2.
Proof.
  intros Hl Hoa Hob Hqa Hqb Hnow Hds. revert a b Hl Hoa Hob Hqa Hqb. induction Hds as [|d ds [Hd Hlen] _ IH]; intros a b Hl Hoa Hob Hqa Hqb Hfit.
  - cbn. by rewrite app_nil_r.
  - cbn [concat] in Hfit. rewrite length_app in Hfit. cbn [foldl].
    destruct (message_arrives now a b d) as (Hl' & Sa & Sb & Qa & Qb & _ & Eb); [done..|lia|].
    destruct (send_message now (a, b) d) as [a1 b1]. cbn [fst snd] in *.
    destruct (IH a1 b1) as (E & H); [done|by rewrite (is_open_state a)|by rewrite (is_open_state b)|done|done| |].
    + apply (f_equal length) in Eb. rewrite length_app, !buffered_length in Eb by apply Hl || apply Hl'.
      unfold rx_free in *. lia.
    + split; [|done]. rewrite E, Eb. cbn [concat]. by rewrite app_assoc.
Qed.

Lemma tcp_messages_delivered_witness :
  let p := foldl (send_message 0) (demo_a, demo_b) [[1; 2]; [3]] in
  buffered p.2 = buffered demo_b ++ [1; 2; 3] /\ linked p.1 p.2 /\ quiet p.1 /\ quiet p.2.
Proof.
  apply (tcp_messages_delivered 0 [[1; 2]; [3]] demo_a demo_b); [apply demo_linked|done..| |vm_compute; lia].
  repeat (apply Forall_cons; split); [split; [by repeat constructor|cbn; lia]..|done].
Defined.

(** Data sent before the acknowledgement of earlier data repeats it.  The transmit buffer starts at the first
    unacknowledged byte, but a flush sends it from its start under the next sequence number: two
    messages [d1] and [d2] sent one after the other reach the application of the other end as [d1 d1 d2]. *)
Theorem tcp_unacked_data_repeated now a b d1 d2 :
  linked a b -> is_open a = true -> is_open b = true -> quiet a -> quiet b -> is_u64 now ->
  bytes_ok d1 -> bytes_ok d2 -> d1 <> [] -> (length d1 + length d2 <= 1460)%nat ->
  (length d1 + length d1 + length d2 <= rx_free (rx_data_len b))%nat ->
  let a1 := (queue_data d1 a).2 in
  let b1 := (arrive now (local_ip a1) (remote_ip a1) (data_segment a1) b).1 in
  let a2 := (queue_data d2 (flushed a1)).2 in
  let b2 := (arrive now (local_ip a2) (remote_ip a2) (data_segment a2) b1).1 in
  buffered b2 = buffered b ++ d1 ++ d1 ++ d2.
Proof.
  intros Hl Hoa Hob [Qa Ta] [Qb Tb] Hnow Hd1 Hd2 Hne Hlen Hfit a1 b1 a2 b2. pose proof (lk_a _ _ Hl) as Ha.
  pose proof TX_BUF_LEN_eq as Htx. destruct (queue_data_queued d1 a Ha) as (_ & E1 & L1); [lia|]. fold a1 in E1, L1.
  assert (queued a = []) as Q0 by (unfold queued; rewrite Ta; apply firstn_O). rewrite Q0, app_nil_l in E1. rewrite Ta, Nat.add_0_l in L1.
  assert (linked a1 b) as Hl1 by (apply (linked_step a b); [done|by apply queue_data_keeps|split; [apply Hl|done]|apply Hl|apply Hl]).
  destruct (flush_arrives now a1 b Hl1 Hob Qb) as (b' & Eb & Hl2 & _ & Es & Ebuf & Et); [by rewrite E1|rewrite E1; lia|rewrite E1; lia|done|].
  assert (b1 = b') as Eb1 by (unfold b1; by rewrite Eb). clearbody b1. subst b'.
  destruct (queue_data_queued d2 (flushed a1)) as (_ & E2 & L2); [apply Hl2|change (tx_data_len (flushed a1)) with (tx_data_len a1); lia|].
  fold a2 in E2, L2. change (queued (flushed a1)) with (queued a1) in E2. rewrite E1 in E2.
  assert (linked a2 b1) as Hl3 by (apply (linked_step (flushed a1) b1); [done|apply queue_data_keeps; [apply Hl2|done]|split; [apply Hl2|done]|apply Hl2|apply Hl2]).
  unfold tx_part in Et. injection Et as T1 T2 _ _.
  assert (length (buffered b1) = (length (buffered b) + length d1)%nat) as Hbl by (by rewrite Ebuf, E1, length_app).
  rewrite !buffered_length in Hbl by apply Hl || apply Hl2.
  destruct (flush_arrives now a2 b1 Hl3) as (b'' & Eb2 & _ & _ & _ & Ebuf2 & _);
    [by rewrite (is_open_state b)|congruence|rewrite E2; by destruct d1|rewrite E2, length_app; lia|rewrite E2, length_app; unfold rx_free in *; lia|done|].
  unfold b2. rewrite Eb2. cbn [fst]. by rewrite Ebuf2, Ebuf, E1, E2, <-app_assoc.
Qed.

Lemma tcp_unacked_data_repeated_witness :
  let a1 := (queue_data [1; 2] demo_a).2 in
  let b1 := (arrive 0 (local_ip a1) (remote_ip a1) (data_segment a1) demo_b).1 in
  let a2 := (queue_data [3] (flushed a1)).2 in
  let b2 := (arrive 0 (local_ip a2) (remote_ip a2) (data_segment a2) b1).1 in
  buffered b2 = buffered demo_b ++ [1; 2] ++ [1; 2] ++ [3].
Proof.
  apply (tcp_unacked_data_repeated 0 demo_a demo_b [1; 2] [3]); [apply demo_linked|done..|by repeat constructor|by repeat constructor|done|cbn; lia|].
  vm_compute. lia.
Defined.

(** A FIN is counted wherever it is.  An open block that gets a FIN with any sequence number takes its own next
    expected number to be one higher, so the data that the FIN has overtaken is refused when it arrives. *)
Theorem tcp_fin_overtakes_data now fin data t :
  tcb_ok t -> is_open t = true -> is_u64 now -> seg_ok fin -> seg_ok data ->
  has TCP_FLAG_FIN fin = true -> has TCP_FLAG_RST fin = false -> sg_payload fin = [] ->
  has TCP_FLAG_FIN data = false -> has TCP_FLAG_RST data = false -> sg_seq data = recv_nxt t ->
  let t1 := (tcb_receive now fin t).1 in
  let t2 := (tcb_receive now data t1).1 in
  state t1 = TCP_CLOSE_WAIT /\ recv_nxt t1 = u32_add (recv_nxt t) 1 /\ buffered t2 = buffered t /\ recv_nxt t2 = recv_nxt t1.
Proof.
  intros Hok Ho Hnow Hf Hd F1 F2 F3 D1 D2 D3 t1 t2.
  destruct (stray_fin now fin t Ho F1 F2 F3) as [Hs Hx]. fold t1 in Hs, Hx.
  unfold rx_part in Hx. injection Hx as X1 X2 X3. split; [done|]. split; [done|].
  assert (is_open t1 = true) as Ho1 by (unfold is_open; by rewrite Hs).
  destruct (open_receive now data t1) as (_ & Eb & Er); [by apply tcb_receive_keeps|done|done|done|done|done|].
  assert (in_order data t1 = false) as Ei.
  { unfold in_order. rewrite X3, D3, (proj2 (Z.eqb_neq _ _)); [by rewrite andb_false_r|]. intros E.
    assert (0 = 1) as ?; [|done]. apply (u32_add_inj (recv_nxt t)); [done|done|]. rewrite u32_add_0; [done|apply Hok]. }
  fold t2 in Eb, Er. rewrite Ei in Eb, Er. split; [|done]. rewrite Eb, app_nil_r. unfold buffered. by rewrite X1, X2.
Qed.

Lemma tcp_fin_overtakes_data_witness :
  let t1 := (tcb_receive 0 (own_seg demo_a 1002 FIN_ACK []) demo_b).1 in
  let t2 := (tcb_receive 0 (own_seg demo_a 1000 ACK_PSH [1; 2]) t1).1 in
  state t1 = TCP_CLOSE_WAIT /\ recv_nxt t1 = u32_add 1000 1 /\ buffered t2 = buffered demo_b /\ recv_nxt t2 = recv_nxt t1.
Proof.
  apply (tcp_fin_overtakes_data 0 (own_seg demo_a 1002 FIN_ACK []) (own_seg demo_a 1000 ACK_PSH [1; 2]) demo_b); try done;
    [apply demo_linked|apply own_seg_ok..]; try done; [apply demo_linked|by constructor|apply demo_linked|by repeat constructor].
Defined.

(** C36: A connection is closed in order.  Of two established blocks that are linked and have nothing in flight, one closes
    and then the other; when every segment arrives, the second ends closed, and the first waits and
    is closed by the twentieth poll. *)
Theorem tcp_orderly_close now a b times :
  linked a b -> state a = TCP_ESTABLISHED -> state b = TCP_ESTABLISHED -> quiet b -> is_u64 now -> length times = 20%nat ->
  let p := close_both now a b in
  state p.1 = TCP_TIME_WAIT /\ state p.2 = TCP_CLOSED /\
  exists a', polls times p.1 = (Some a', []) /\ state a' = TCP_CLOSED.
Proof.
  intros Hl Sa Sb Qb Hnow Htimes. unfold close_both, deliver_all.
  assert (is_open a = true) as Hoa by (unfold is_open; by rewrite Sa).
  destruct (fin_arrives now a b Hl Hoa Sb Qb Hnow) as (b1 & E1 & Hl1 & Hk1 & S1 & Q1 & _). rewrite E1. cbn [foldl].
  assert (state (finished a) = TCP_FIN_WAIT1) as Sf by (cbn; by rewrite Sa).
  rewrite (fin_wait1_acked now (finished a) b1 Hl1 Sf). cbn [fst].
  assert (listening a = false) as Hla by (apply open_not_listening; [apply Hl|done]).
  assert (listening b1 = false) as Hlb by (apply open_not_listening; [apply Hl1|unfold is_open; by rewrite S1]).
  set (a1 := with_state TCP_FIN_WAIT2 (finished a)).
  assert (linked a1 b1) as Hl2.
  { apply (linked_step (finished a) b1); [done| |split; [apply Hl1|done]|apply Hl1|apply Hl1]. split; [|done]. apply with_state_ok; [apply Hl1|done|done]. }
  destruct (fin_wait2_fin now a1 b1 Hl2 eq_refl Hlb) as (a2 & E2 & Hk2 & S2 & T2 & Hl3). rewrite E2. cbn [foldl fst snd].
  rewrite (last_acked now a2 (finished b1) Hl3) by (cbn; by rewrite S1). split; [done|]. split; [done|].
  apply time_wait_polls; [done| |by intros ->|by rewrite T2, Htimes].
  rewrite (ends_listening a1 a2 (proj2 Hk2)). done.
Qed.

Lemma tcp_orderly_close_witness :
  let p := close_both 0 demo_a demo_b in
  state p.1 = TCP_TIME_WAIT /\ state p.2 = TCP_CLOSED /\
  exists a', polls (replicate 20 0) p.1 = (Some a', []) /\ state a' = TCP_CLOSED.
Proof. apply (tcp_orderly_close 0 demo_a demo_b (replicate 20 0)); [apply demo_linked|done..]. Defined.

(** Retransmission of a control segment ends.  A block with an unacknowledged SYN or FIN and [n] retries left
    that hears nothing sends the segment [n] times, every eleven polls, is then closed, and its slot
    is freed by the next poll. *)
Theorem tcp_retries_end n t k times last seg :
  pending t -> control (state t) = true -> retransmission t = Some seg ->
  retry_count t = Z.of_nat (S n) -> retry_ticks t = Z.of_nat k -> length times = (k + 1 + n * 11)%nat ->
  (exists t', polls times t = (Some t', replicate (S n) seg) /\ state t' = TCP_CLOSED) /\
  polls (times ++ [last]) t = (None, replicate (S n) seg).
Proof.
  intros Hp Hc Hs Hrc Hrt Hlen. rewrite <-(retry_eta t), Hrc, Hrt.
  destruct (retries_polls n t k times seg Hp Hc Hs Hlen) as (t' & E & H'). split; [by exists t'|].
  rewrite polls_app, E. cbn [polls]. unfold poll_tcb. rewrite H'. unfold prod_map. cbn. by rewrite app_nil_r.
Qed.

Lemma tcp_retries_end_witness :
  let seg := own_segment fin_a 1000 FIN_ACK [] 20 in
  (exists t', polls (replicate 55 0) fin_a = (Some t', replicate 5 seg) /\ state t' = TCP_CLOSED) /\
  polls (replicate 55 0 ++ [0]) fin_a = (None, replicate 5 seg).
Proof. apply (tcp_retries_end 4 fin_a 10 (replicate 55 0) 0); done. Defined.

(** A full window is never sent again.  The bytes in flight count against the congestion window of their own
    retransmission: once they fill it, as the first 1460 bytes on a connection do, polling sends nothing and
    gives up nothing, however often it is called. *)
Theorem tcp_full_window_stalls times t :
  pending t -> is_open t = true -> retry_count t <> 0 -> cwnd t <= u32_sub (send_nxt t) (send_una t) ->
  exists k, polls times t = (Some (with_retry (retry_count t) k t), []).
Proof.
  intros Hp Ho Hc Hw. pose proof (full_window_polls times t (retry_count t) Hp Ho Hw Hc (retry_ticks t)) as H. by rewrite retry_eta in H.
Qed.

Lemma tcp_full_window_stalls_witness : exists k, polls (replicate 1000 0) full_a = (Some (with_retry (retry_count full_a) k full_a), []).
Proof. apply (tcp_full_window_stalls (replicate 1000 0) full_a); [done|done|done|]. vm_compute. done. Defined.

(** Keepalive closes connections whose other end is alive.  Probes carry the next sequence number and no data; an
    open block does not answer such a segment, so an idle connection sends nine probes and is closed
    while its other end stays open. *)
Theorem tcp_keepalive_kills_idle a b times :
  linked a b -> idle a -> keepalive_probes a = 0 -> is_open b = true -> length times = 10%nat -> spaced (keepalive_due a) times ->
  (exists a', polls times a = (Some a', replicate 9 (probe_segment a)) /\ state a' = TCP_CLOSED) /\
  forall now, (arrive now (local_ip a) (remote_ip a) (probe_segment a) b).2 = [] /\
    state (arrive now (local_ip a) (remote_ip a) (probe_segment a) b).1 = state b.
Proof.
  intros Hl Hi Hp Ho Hlen Hsp. split; [apply keepalive_polls; [done|by rewrite Hp|lia|done|done]|].
  intros now. apply bare_ack_unanswered; [done|done|apply Hl].
Qed.

Lemma tcp_keepalive_kills_idle_witness :
  (exists a', polls (Z.mul 1000000 <$> seqZ 0 10) demo_a = (Some a', replicate 9 (probe_segment demo_a)) /\ state a' = TCP_CLOSED) /\
  forall now, (arrive now (local_ip demo_a) (remote_ip demo_a) (probe_segment demo_a) demo_b).2 = [] /\
    state (arrive now (local_ip demo_a) (remote_ip demo_a) (probe_segment demo_a) demo_b).1 = state demo_b.
Proof.
  apply (tcp_keepalive_kills_idle demo_a demo_b (Z.mul 1000000 <$> seqZ 0 10)); [apply demo_linked|done..|].
  vm_compute. repeat (split; [discriminate|]). done.
Defined.

End StreamProofs.
