(* ===== verification/TcpTable.v ===== *)
(** The table of connections.

    Theorems about the calls on whole tables: polling, the handshake of two hosts on a network that loses nothing, and what the search for the
    block of a segment gets wrong. *)

From S2P Require Import Prelude Bytes Wire Tcp TcpProofs TcpStream.

#[local] Opaque RX_BUF_LEN TX_BUF_LEN sealed build_segment build_syn_segment.

(** ** Finding the block of a segment *)

Section search.
Variable sg : Seg.

#[local] Notation pick cs := (fun found i => if matches sg (conn cs i) then Some i else found).

Lemma pick_none cs is_ o : (forall i, i ∈ is_ -> matches sg (conn cs i) = false) -> foldl (pick cs) o is_ = o.
Proof.
  revert o. induction is_ as [|i is_ IH]; intros o H; [done|]. cbn [foldl]. rewrite (H i) by apply list_elem_of_here.
  apply IH. intros j Hj. apply H. by apply list_elem_of_further.
Qed.

(** The last match is taken. *)
Lemma find_conn_last cs i : (i < MAX_CONNS)%nat -> matches sg (conn cs i) = true ->
  (forall k, (i < k)%nat -> matches sg (conn cs k) = false) -> find_conn sg cs = Some i.
Proof.
  intros Hi Hm Hlast. unfold find_conn. replace MAX_CONNS with (i + S (MAX_CONNS - S i))%nat by lia.
  rewrite seq_app, foldl_app. cbn [seq foldl]. rewrite Nat.add_0_l, Hm. apply pick_none.
  intros k Hk%elem_of_seq. apply Hlast. lia.
Qed.

Lemma find_conn_none cs : (forall k, matches sg (conn cs k) = false) -> find_conn sg cs = None.
Proof. intros H. by apply pick_none. Qed.

End search.

(** Whether a segment from [src], from its port [sport] to ours [dport], belongs to the slot. *)
Definition addressed (dport sport : Z) (src : bytes) (o : option Tcb) : bool :=
  match o with
  | Some t =>
      if listening t then local_port t =? dport
      else (local_port t =? dport) && (remote_port t =? sport) && bytes_eqb (remote_ip t) src
  | None => false
  end.

Lemma matches_addressed sg o : matches sg o = addressed (sg_dport sg) (sg_sport sg) (sg_src sg) o.
Proof. done. Qed.

Lemma conn_lt cs i t : table_ok cs -> conn cs i = Some t -> (i < MAX_CONNS)%nat.
Proof.
  intros (Hl & _) Hi. rewrite <-Hl. unfold conn in Hi. destruct (cs !! i) eqn:E; [by apply lookup_lt_Some in E|done].
Qed.

(** The slot of a new block holds no listener, and nothing that is open. *)
Lemma find_slot_free cs i : find_slot cs = Some i -> (i < MAX_CONNS)%nat /\ forall t, conn cs i = Some t -> state t = TCP_CLOSED.
Proof.
  unfold find_slot, first_conn. destruct (List.find _ _) as [j|] eqn:E; [intros [= ->]|intros E'].
  - apply find_some in E as [Hin%in_seq H]. split; [lia|]. intros t Ht. by rewrite Ht in H.
  - apply find_some in E' as [Hin%in_seq H]. split; [lia|]. intros t Ht. rewrite Ht in H. unfold is_closed, state_is in H. by destruct (state t).
Qed.

(** ** Networks that lose nothing *)

(** A layer below that sends everything, and keeps what it sent. *)
Class Wired (W : Type) `{!IpLayer W} := {
  sent : W -> list (bytes * bytes);
  wire_send : forall idx dst seg (w : W), exists w', ip_send idx dst PROTO_TCP seg w = Some (true, w') /\ sent w' = sent w ++ [(dst, seg)];
}.

Section wire.
Context {W : Type} `{!IpLayer W, !Wired W}.

Lemma send_wired idx dst seg (s : TcpSys W) :
  exists w', ip_out idx dst seg s = Some (true, {| conns := conns s; world := w' |}) /\ sent w' = sent (world s) ++ [(dst, seg)].
Proof.
  destruct (wire_send idx dst seg (world s)) as (w' & E & Hw). exists w'. split; [|done]. unfold ip_out. by rewrite E.
Qed.

Lemma send_all_wired idx dst segs (s : TcpSys W) :
  exists w', send_all idx dst segs s = Some (tt, {| conns := conns s; world := w' |}) /\ sent w' = sent (world s) ++ (pair dst <$> segs).
Proof.
  revert s. induction segs as [|seg segs IH]; intros s.
  - exists (world s). split; [by destruct s|by rewrite app_nil_r].
  - destruct (send_wired idx dst seg s) as (w1 & E1 & H1). destruct (IH {| conns := conns s; world := w1 |}) as (w2 & E2 & H2).
    exists w2. split; [|by rewrite H2; cbn [world fmap list_fmap]; rewrite H1, <-app_assoc]. cbn [send_all]. unfold mbind, Tcp_bind. by rewrite E1.
Qed.

(** The segments sent since. *)
Definition news (w w' : W) : list (bytes * bytes) := drop (length (sent w)) (sent w').

Lemma news_app w w' l : sent w' = sent w ++ l -> news w w' = l.
Proof. intros E. unfold news. by rewrite E, drop_app_length. Qed.

(** Segments arrive from the host at [src]. *)
Fixpoint receive_all (e : Entropy) (idx : nat) (src : bytes) (segs : list (bytes * bytes)) : Tcp W unit :=
  match segs with
  | [] => mret tt
  | (dst, seg) :: segs => handle_receive e idx src dst seg ≫= fun _ => receive_all e idx src segs
  end.

(** A segment arrives for the block at [i]. *)
Lemma receive_at e idx src dst seg sg i t s :
  parse_segment src dst seg = Some sg -> find_conn sg (conns s) = Some i -> conn (conns s) i = Some t -> state t <> TCP_LISTEN ->
  exists w', receive_all e idx src [(dst, seg)] s =
    Some (tt, {| conns := <[i := Some (tcb_receive (counter e) sg t).1]> (conns s); world := w' |}) /\
    sent w' = sent (world s) ++ (pair src <$> (tcb_receive (counter e) sg t).2).
Proof.
  intros Hp Hf Hi Hs. destruct (tcb_receive (counter e) sg t) as [t' out] eqn:Er.
  destruct (send_all_wired idx src out {| conns := <[i := Some t']> (conns s); world := world s |}) as (w' & Es & Hw).
  exists w'. split; [|done]. cbn [receive_all]. unfold handle_receive. rewrite Hp. unfold mbind, Tcp_bind, get. rewrite Hf, Hi.
  assert (state_is (state t) TCP_LISTEN = false) as -> by (by destruct (state t)). rewrite andb_false_r, Er. unfold set_conn. by rewrite Es.
Qed.

End wire.

(** ** The handshake *)

Section handshake.
Context {C : Type} `{!IpLayer C, !Wired C} {S : Type} `{!IpLayer S, !Wired S}.
Variables (ec es : Entropy) (ic is_ : nat) (cip sip : bytes) (lport dport : Z).

(** A client connects to a server, and every segment arrives. *)
Definition handshake (c : TcpSys C) (s : TcpSys S) : option (TcpSys C * TcpSys S) :=
  r ← connect ec ic lport sip dport c; let c1 : TcpSys C := r.2 in
  r ← receive_all es is_ cip (news (world c) (world c1)) s; let s1 : TcpSys S := r.2 in
  r ← receive_all ec ic sip (news (world s) (world s1)) c1; let c2 : TcpSys C := r.2 in
  r ← receive_all es is_ cip (news (world c1) (world c2)) s1; let s2 : TcpSys S := r.2 in
  Some (c2, s2).

(** The client has an address and a free slot [k], and no later slot takes its segments; the server listens on the
    port in slot [i], has a free slot [j], and nothing else of it takes the segments of this client. *)
Record can_connect (c : TcpSys C) (k : nat) (s : TcpSys S) (i j : nat) (l : Tcb) : Prop := {
  cc_client : table_ok (conns c);
  cc_server : table_ok (conns s);
  cc_addr : iface_ip ic (world c) = Some cip;
  cc_cip : is_ip cip;
  cc_host : cip <> [0; 0; 0; 0] /\ cip <> [127; 0; 0; 1];
  cc_sip : is_ip sip;
  cc_ports : is_u16 lport /\ is_u16 dport;
  cc_k : find_slot (conns c) = Some k;
  cc_k_last : forall m, (k < m)%nat -> addressed lport dport sip (conn (conns c) m) = false;
  cc_i : conn (conns s) i = Some l;
  cc_l : state l = TCP_LISTEN;
  cc_port : local_port l = dport;
  cc_j : find_slot (conns s) = Some j;
  cc_only : forall m, m <> i -> addressed dport lport cip (conn (conns s) m) = false;
}.

(** The blocks of the two ends: in the client before and after the answer, in the server before and after the
    last segment. *)
Definition client_syn : Tcb :=
  new_tcb TCP_SYN_SENT cip lport sip dport (rand_isn ec) (u32_add (rand_isn ec) 1) 0 false MAX_RETRIES RETRY_INTERVAL.
Definition server_syn : Tcb :=
  new_tcb TCP_SYN_RECEIVED sip dport cip lport (rand_isn es) (u32_add (rand_isn es) 1) (u32_add (rand_isn ec) 1) false MAX_RETRIES RETRY_INTERVAL.
Definition client_open : Tcb :=
  with_retry 0 0 (with_state TCP_ESTABLISHED (with_peer 65535 (with_una (u32_add (rand_isn ec) 1) (with_recv (u32_add (rand_isn es) 1) client_syn)))).
Definition server_open : Tcb :=
  with_retry 0 0 (with_peer (win client_open) (with_una (u32_add (rand_isn es) 1) (with_state TCP_ESTABLISHED server_syn))).

Definition syn_seg : Seg :=
  {| sg_src := cip; sg_dst := sip; sg_sport := lport; sg_dport := dport; sg_seq := rand_isn ec; sg_ack := 0;
     sg_flags := TCP_FLAG_SYN; sg_window := 65535; sg_payload := [] |}.
Definition syn_ack_seg : Seg :=
  {| sg_src := sip; sg_dst := cip; sg_sport := dport; sg_dport := lport; sg_seq := rand_isn es; sg_ack := u32_add (rand_isn ec) 1;
     sg_flags := SYN_ACK; sg_window := 65535; sg_payload := [] |}.
Definition last_ack_seg : Seg :=
  {| sg_src := cip; sg_dst := sip; sg_sport := lport; sg_dport := dport; sg_seq := u32_add (rand_isn ec) 1; sg_ack := u32_add (rand_isn es) 1;
     sg_flags := TCP_FLAG_ACK; sg_window := win client_open; sg_payload := [] |}.

Lemma seq_advance_1 a : seq_advance a 0 1 = u32_add a 1.
Proof. unfold seq_advance. cbn. unfold u32_add. rewrite Z.add_0_r. by rewrite Zplus_mod_idemp_l. Qed.

Lemma ack_of_eq sg t t' : send_nxt t = send_nxt t' -> recv_nxt t = recv_nxt t' -> rx_data_len t = rx_data_len t' -> ack_of sg t = ack_of sg t'.
Proof. unfold ack_of, win. by intros -> -> ->. Qed.

Section run.
Context (c : TcpSys C) (k : nat) (s : TcpSys S) (i j : nat) (l : Tcb) (CC : can_connect c k s i j l).

Lemma not_local : bytes_eqb cip [0; 0; 0; 0] || bytes_eqb cip [127; 0; 0; 1] = false.
Proof.
  destruct CC as [_ _ _ _ [H1 H2] _ _ _ _ _ _ _ _ _]. apply orb_false_iff. by split; apply bytes_eqb_neq.
Qed.

Lemma connect_sends : exists w seg,
  connect ec ic lport sip dport c = Some (Some k, {| conns := <[k := Some client_syn]> (conns c); world := w |}) /\
  sent w = sent (world c) ++ [(sip, seg)] /\ parse_segment cip sip seg = Some syn_seg.
Proof.
  set (seg := sealed cip sip 32 (build_syn_segment lport dport (rand_isn ec) 0 TCP_FLAG_SYN 65535)).
  destruct (send_wired ic sip seg c) as (w & E & Hw). exists w, seg. split; [|split; [done|]].
  - unfold connect. unfold mbind, Tcp_bind, get, local_address. rewrite (cc_k _ _ _ _ _ _ CC), (cc_addr _ _ _ _ _ _ CC). cbn [from_option id].
    rewrite not_local. fold seg. by rewrite E.
  - destruct (cc_cip _ _ _ _ _ _ CC), (cc_sip _ _ _ _ _ _ CC), (cc_ports _ _ _ _ _ _ CC).
    apply parse_syn; try done. apply rand_isn_ok.
Qed.

Lemma listener_found : find_conn syn_seg (conns s) = Some i.
Proof.
  pose proof (cc_server _ _ _ _ _ _ CC) as Hok. pose proof (cc_i _ _ _ _ _ _ CC) as Hi.
  assert (listening l = true) as Hl by (destruct Hok as (_ & Hb & _); apply (Hb i l Hi), CC).
  apply find_conn_last; [by apply (conn_lt (conns s) i l)|rewrite matches_addressed, Hi; cbn; rewrite Hl; apply Z.eqb_eq, CC|].
  intros m Hm. rewrite matches_addressed. apply (cc_only _ _ _ _ _ _ CC). lia.
Qed.

Lemma syn_answered seg : parse_segment cip sip seg = Some syn_seg -> exists (w : S) seg',
  receive_all es is_ cip [(sip, seg)] s = Some (tt, {| conns := <[j := Some server_syn]> (conns s); world := w |}) /\
  sent w = sent (world s) ++ [(cip, seg')] /\ parse_segment sip cip seg' = Some syn_ack_seg.
Proof.
  intros Hp. set (seg' := reply syn_seg (rand_isn es) (u32_add (rand_isn ec) 1) SYN_ACK 65535).
  destruct (send_wired is_ cip seg' s) as (w & E & Hw). exists w, seg'. split; [|split; [done|]].
  - cbn [receive_all]. unfold handle_receive. rewrite Hp. unfold mbind, Tcp_bind, get.
    rewrite listener_found, (cc_i _ _ _ _ _ _ CC), (cc_l _ _ _ _ _ _ CC).
    change (negb (has TCP_FLAG_RST syn_seg) && state_is TCP_LISTEN TCP_LISTEN) with true. unfold on_listen.
    change (has TCP_FLAG_SYN syn_seg && negb (has TCP_FLAG_ACK syn_seg)) with true. unfold mbind, Tcp_bind, get.
    rewrite (cc_j _ _ _ _ _ _ CC). change (sg_seq syn_seg) with (rand_isn ec). rewrite seq_advance_1. change (sg_src syn_seg) with cip.
    fold seg'. by rewrite E.
  - destruct (cc_cip _ _ _ _ _ _ CC), (cc_sip _ _ _ _ _ _ CC), (cc_ports _ _ _ _ _ _ CC). apply parse_built; try done.
    + apply rand_isn_ok.
    + apply u32_add_ok.
    + by constructor.
    + cbn. lia.
Qed.

Lemma last_ack_parses : parse_segment cip sip (ack_of syn_ack_seg client_open) = Some last_ack_seg.
Proof.
  destruct (cc_cip _ _ _ _ _ _ CC) as [A1 A2], (cc_sip _ _ _ _ _ _ CC) as [B1 B2], (cc_ports _ _ _ _ _ _ CC) as [P1 P2]. clear CC.
  unfold ack_of, last_ack_seg. assert (is_u16 (win client_open)) as Hw by exact (win_ok _). generalize dependent (win client_open). intros x Hx.
  change (send_nxt client_open) with (u32_add (rand_isn ec) 1). change (recv_nxt client_open) with (u32_add (rand_isn es) 1).
  unfold reply. cbn [sg_dst sg_src sg_dport sg_sport syn_ack_seg].
  apply parse_built; [exact A1|exact B1|exact A2|exact B2|exact P1|exact P2|apply u32_add_ok|apply u32_add_ok|done|exact Hx|by constructor|cbn; lia|done].
Qed.

(** The client is found by the answer. *)
Lemma client_receives cs (w : C) seg : cs = <[k := Some client_syn]> (conns c) -> parse_segment sip cip seg = Some syn_ack_seg ->
  exists (w' : C) seg', receive_all ec ic sip [(cip, seg)] {| conns := cs; world := w |} =
    Some (tt, {| conns := <[k := Some client_open]> cs; world := w' |}) /\
  sent w' = sent w ++ [(sip, seg')] /\ parse_segment cip sip seg' = Some last_ack_seg.
Proof.
  intros -> Hp. destruct (find_slot_free _ _ (cc_k _ _ _ _ _ _ CC)) as [Hk _].
  assert (length (conns c) = MAX_CONNS) as Hlen by apply CC.
  assert (conn (<[k := Some client_syn]> (conns c)) k = Some client_syn) as Hc by (apply conn_insert_eq; lia).
  destruct (receive_at ec ic sip cip seg syn_ack_seg k client_syn {| conns := <[k := Some client_syn]> (conns c); world := w |}) as (w' & E & Hw);
    [done| |done|done|].
  { apply find_conn_last; [done|cbn [conns]; rewrite Hc; cbn; by rewrite !Z.eqb_refl, bytes_eqb_refl|].
    intros m Hm. cbn [conns]. rewrite conn_insert_ne by lia. by apply (cc_k_last _ _ _ _ _ _ CC). }
  assert (tcb_receive (counter ec) syn_ack_seg client_syn = (client_open, [ack_of syn_ack_seg client_open])) as Er.
  { unfold tcb_receive. change (has TCP_FLAG_RST syn_ack_seg) with false. cbn [state client_syn new_tcb]. unfold on_syn_sent.
    change (has TCP_FLAG_SYN syn_ack_seg && has TCP_FLAG_ACK syn_ack_seg) with true.
    change (sg_seq syn_ack_seg) with (rand_isn es). rewrite seq_advance_1.
    rewrite (ack_of_eq _ _ client_open); reflexivity. }
  rewrite Er in E, Hw. exists w', (ack_of syn_ack_seg client_open). split; [done|]. split; [done|].
  exact last_ack_parses.
Qed.

Lemma server_at : conn (<[j := Some server_syn]> (conns s)) j = Some server_syn /\ (j < MAX_CONNS)%nat /\ i <> j.
Proof.
  destruct (find_slot_free _ _ (cc_j _ _ _ _ _ _ CC)) as [Hj Hcl]. assert (length (conns s) = MAX_CONNS) as Hlen by apply CC.
  split; [apply conn_insert_eq; lia|]. split; [done|]. intros ->. pose proof (Hcl l (cc_i _ _ _ _ _ _ CC)) as H. by rewrite (cc_l _ _ _ _ _ _ CC) in H.
Qed.

(** A segment of the client that arrives after its SYN. *)
Lemma server_lookup sg : sg_src sg = cip -> sg_sport sg = lport -> sg_dport sg = dport ->
  find_conn sg (<[j := Some server_syn]> (conns s)) = Some (if (i <? j)%nat then j else i).
Proof.
  intros E1 E2 E3. destruct server_at as (Hj & Hlt & Hne). pose proof (cc_i _ _ _ _ _ _ CC) as Hi.
  assert (listening l = true) as Hl by (destruct (cc_server _ _ _ _ _ _ CC) as (_ & Hb & _); apply (Hb i l Hi), CC).
  assert (matches sg (conn (<[j := Some server_syn]> (conns s)) j) = true) as Mj.
  { rewrite matches_addressed, Hj, E1, E2, E3. cbn. by rewrite !Z.eqb_refl, bytes_eqb_refl. }
  assert (matches sg (conn (<[j := Some server_syn]> (conns s)) i) = true) as Mi.
  { rewrite conn_insert_ne, matches_addressed, Hi, E3 by done. cbn. rewrite Hl. apply Z.eqb_eq, CC. }
  assert (forall m, m <> i -> m <> j -> matches sg (conn (<[j := Some server_syn]> (conns s)) m) = false) as Hm.
  { intros m H1 H2. rewrite conn_insert_ne, matches_addressed, E1, E2, E3 by done. by apply (cc_only _ _ _ _ _ _ CC). }
  pose proof (conn_lt _ _ _ (cc_server _ _ _ _ _ _ CC) Hi) as Hilt.
  destruct (Nat.ltb_spec i j); apply find_conn_last; try done; intros m Hm'; apply Hm; lia.
Qed.

(** The last segment reaches the new block when this comes after the listener. *)
Lemma server_receives (w : S) seg : parse_segment cip sip seg = Some last_ack_seg ->
  exists w', receive_all es is_ cip [(sip, seg)] {| conns := <[j := Some server_syn]> (conns s); world := w |} =
    Some (tt, {| conns := <[j := Some (if (i <? j)%nat then server_open else server_syn)]> (conns s); world := w' |}).
Proof.
  intros Hp. destruct server_at as (Hj & Hlt & Hne).
  pose proof (server_lookup last_ack_seg eq_refl eq_refl eq_refl) as Hf. destruct (Nat.ltb_spec i j).
  - destruct (receive_at es is_ cip sip seg last_ack_seg j server_syn {| conns := <[j := Some server_syn]> (conns s); world := w |}) as (w' & E & _); [done..|].
    exists w'. rewrite E. cbn [conns]. rewrite list_insert_insert_eq. do 5 f_equal. unfold tcb_receive.
    change (has TCP_FLAG_RST last_ack_seg) with false. cbn [state server_syn new_tcb]. unfold on_syn_received.
    change (has TCP_FLAG_ACK last_ack_seg) with true. cbn [sg_seq last_ack_seg recv_nxt server_syn new_tcb]. by rewrite Z.eqb_refl.
  - exists w. cbn [receive_all]. unfold handle_receive. rewrite Hp. unfold mbind, Tcp_bind, get. cbn [conns]. rewrite Hf.
    cbn [conns]. rewrite conn_insert_ne, (cc_i _ _ _ _ _ _ CC), (cc_l _ _ _ _ _ _ CC) by done. done.
Qed.

Lemma handshake_run : exists w w',
  handshake c s = Some ({| conns := <[k := Some client_open]> (conns c); world := w |},
    {| conns := <[j := Some (if (i <? j)%nat then server_open else server_syn)]> (conns s); world := w' |}).
Proof.
  destruct connect_sends as (w1 & seg1 & E1 & H1 & P1). destruct (syn_answered seg1 P1) as (v1 & seg2 & E2 & H2 & P2).
  destruct (client_receives _ w1 seg2 eq_refl P2) as (w2 & seg3 & E3 & H3 & P3). destruct (server_receives v1 seg3 P3) as (v2 & E4).
  exists w2, v2. unfold handshake. rewrite E1. cbn [mbind option_bind snd world]. rewrite (news_app _ _ _ H1), E2. cbn [mbind option_bind snd world].
  rewrite (news_app _ _ _ H2), E3. cbn [mbind option_bind snd world]. rewrite (news_app _ _ _ H3), E4. cbn [mbind option_bind snd world].
  by rewrite list_insert_insert_eq.
Qed.

Lemma ends_linked : linked client_open server_open /\ quiet client_open /\ quiet server_open.
Proof.
  destruct (cc_ports _ _ _ _ _ _ CC) as [Hp Hd]. pose proof (cc_cip _ _ _ _ _ _ CC) as Hc. pose proof (cc_sip _ _ _ _ _ _ CC) as Hs.
  assert (tcb_ok client_syn) as H1 by (apply fresh_conn_ok; try done; apply rand_isn_ok).
  assert (tcb_ok server_syn) as H2 by (apply fresh_conn_ok; try done; [apply rand_isn_ok|apply u32_add_ok]).
  split; [|done]. split; try done.
  - apply with_retry_ok; [|done|done]. apply with_state_ok; [|done|done]. apply with_peer_ok; [|done]. apply with_una_ok; [|apply u32_add_ok].
    apply with_recv_ok; [done|apply u32_add_ok].
  - apply with_retry_ok; [|done|done]. apply with_peer_ok; [|exact (win_ok _)]. apply with_una_ok; [|apply u32_add_ok]. by apply with_state_ok.
Qed.

End run.
End handshake.

(** ** Polling *)

Section polling.
Context {W : Type} `{!IpLayer W, !LawfulIp W} (Hret : ~ ip_hangs).

(** What a poll makes of a slot. *)
Definition polled (now : nat -> Z) (i : nat) (o : option Tcb) : option Tcb := o ≫= fun t => (poll_tcb (now i) t).1.

Lemma send_all_returns idx dst segs (s : TcpSys W) : ip_up (world s) ->
  exists w, send_all idx dst segs s = Some (tt, {| conns := conns s; world := w |}) /\ ip_up w.
Proof.
  intros Hw. destruct (spec_returns _ _ _ s (spec_send_all (fun cs => cs = conns s) idx dst segs) Hret Hw eq_refl) as ([] & [cs w] & E & Hu & Hc).
  cbn in Hc, Hu. subst cs. by exists w.
Qed.

Lemma poll_conn_slot now idx i (s : TcpSys W) : ip_up (world s) -> (i < length (conns s))%nat ->
  exists w, poll_conn now idx i s = Some (tt, {| conns := <[i := polled now i (conn (conns s) i)]> (conns s); world := w |}) /\ ip_up w.
Proof.
  intros Hw Hi. unfold poll_conn, polled. unfold mbind, Tcp_bind, get. destruct (conn (conns s) i) as [t|] eqn:E.
  - cbn [mbind option_bind]. destruct (poll_tcb (now i) t) as [o out]. unfold set_conn.
    destruct (send_all_returns idx (remote_ip t) out {| conns := <[i := o]> (conns s); world := world s |} Hw) as (w & Ew & Hw'). by exists w.
  - exists (world s). split; [|done]. cbn [mbind option_bind]. unfold conn in E. apply lookup_lt_is_Some in Hi as [o Ho]. rewrite Ho in E. cbn in E. subst o.
    rewrite list_insert_id by done. by destruct s.
Qed.

Lemma poll_conns_slots now idx is_ : NoDup is_ -> forall s : TcpSys W, ip_up (world s) -> (forall i, i ∈ is_ -> (i < length (conns s))%nat) ->
  exists s', poll_conns now idx is_ s = Some (tt, s') /\
    forall i, conn (conns s') i = if bool_decide (i ∈ is_) then polled now i (conn (conns s) i) else conn (conns s) i.
Proof.
  induction 1 as [|i is_ Hni _ IH]; intros s Hw Hlt; [by exists s|].
  destruct (poll_conn_slot now idx i s Hw) as (w & E & Hw'); [apply Hlt, list_elem_of_here|].
  destruct (IH {| conns := <[i := polled now i (conn (conns s) i)]> (conns s); world := w |} Hw') as (s' & E' & H').
  { cbn [conns]. rewrite length_insert. intros j Hj. by apply Hlt, list_elem_of_further. }
  exists s'. split; [cbn [poll_conns]; unfold mbind, Tcp_bind; by rewrite E|]. intros j. rewrite H'. cbn [conns]. destruct (decide (i = j)) as [<-|Hne].
  - rewrite (bool_decide_eq_false_2 _ Hni), bool_decide_eq_true_2 by apply list_elem_of_here. apply conn_insert_eq. apply Hlt, list_elem_of_here.
  - rewrite conn_insert_ne by done. erewrite bool_decide_ext; [reflexivity|]. rewrite elem_of_cons. naive_solver.
Qed.

(** Every slot is polled once. *)
Lemma poll_retransmit_slots now idx (s : TcpSys W) : ip_up (world s) -> length (conns s) = MAX_CONNS ->
  exists s', poll_retransmit now idx s = Some (tt, s') /\ forall i, conn (conns s') i = polled now i (conn (conns s) i).
Proof.
  intros Hw Hl. destruct (poll_conns_slots now idx (seq 0 MAX_CONNS) (NoDup_seq _ _) s Hw) as (s' & E & H').
  { intros i Hi%elem_of_seq. lia. }
  exists s'. split; [done|]. intros i. rewrite H'. case_bool_decide as Hi; [done|]. rewrite elem_of_seq in Hi.
  unfold conn. by rewrite lookup_ge_None_2 by lia.
Qed.

(** A segment that the listener takes: nothing happens, unless it is a SYN or a RST. *)
Lemma listener_ignores e idx src dst seg sg i t (s : TcpSys W) :
  parse_segment src dst seg = Some sg -> find_conn sg (conns s) = Some i -> conn (conns s) i = Some t -> state t = TCP_LISTEN ->
  has TCP_FLAG_SYN sg = false -> has TCP_FLAG_RST sg = false -> handle_receive e idx src dst seg s = Some (true, s).
Proof.
  intros Hp Hf Hi Hs H1 H2. unfold handle_receive. rewrite Hp. unfold mbind, Tcp_bind, get. rewrite Hf, Hi, Hs, H2. unfold on_listen. by rewrite H1.
Qed.

(** A RST closes whatever takes it. *)
Lemma reset_closes e idx src dst seg sg i t (s : TcpSys W) :
  parse_segment src dst seg = Some sg -> find_conn sg (conns s) = Some i -> conn (conns s) i = Some t -> has TCP_FLAG_RST sg = true ->
  handle_receive e idx src dst seg s = Some (true, {| conns := <[i := Some (with_state TCP_CLOSED t)]> (conns s); world := world s |}).
Proof.
  intros Hp Hf Hi H1. unfold handle_receive. rewrite Hp. unfold mbind, Tcp_bind, get. rewrite Hf, Hi, H1. unfold tcb_receive. by rewrite H1.
Qed.

Lemma closed_freed now i t : state t = TCP_CLOSED -> polled now i (Some t) = None.
Proof. intros H. unfold polled, poll_tcb. cbn [mbind option_bind]. by rewrite H. Qed.

End polling.

(** ** A layer below for the examples *)

(** A host with one address that keeps what it sends. *)
Definition Host (a : bytes) : Type := list (bytes * bytes).

#[export] Instance host_ip a : IpLayer (Host a) := {
  ip_send _ dst _ seg w := Some (true, w ++ [(dst, seg)]);
  iface_ip _ _ := Some a;
}.

#[export] Instance host_wired a : Wired (Host a).
Proof. refine {| sent w := w |}. intros idx dst seg w. by exists (w ++ [(dst, seg)]). Defined.

Definition client_ip : bytes := [10; 0; 2; 15].
Definition server_ip : bytes := [10; 0; 2; 2].

Lemma client_ip_ok : is_ip client_ip.
Proof. split; [done|by repeat constructor]. Qed.

Lemma server_ip_ok : is_ip server_ip.
Proof. split; [done|by repeat constructor]. Qed.

#[export] Instance client_lawful : LawfulIp (Host client_ip).
Proof. refine {| ip_up _ := True; ip_hangs := False |}; [done|]. intros idx w a _ [= <-]. apply client_ip_ok. Defined.

#[export] Instance server_lawful : LawfulIp (Host server_ip).
Proof. refine {| ip_up _ := True; ip_hangs := False |}; [done|]. intros idx w a _ [= <-]. apply server_ip_ok. Defined.

Definition demo_entropy : Entropy := {| random := 1; tsc := 2; counter := 3 |}.

(** A client with an empty table, and servers that listen in slot 0 or in slot 1. *)
Definition demo_client : TcpSys (Host client_ip) := {| conns := empty_table; world := [] |}.
Definition listener : Tcb := new_tcb TCP_LISTEN [0; 0; 0; 0] 80 [0; 0; 0; 0] 0 0 0 0 true 0 0.
Definition demo_server (i : nat) : TcpSys (Host server_ip) := {| conns := <[i := Some listener]> empty_table; world := [] |}.

(** A table with one block. *)
Lemma single_conn i t m u : conn (<[i := Some t]> empty_table) m = Some u -> m = i /\ u = t.
Proof.
  destruct (decide (i = m)) as [<-|Hne]; [|by rewrite conn_insert_ne, empty_conn].
  destruct (decide (i < length empty_table)%nat) as [Hlt|Hge]; [rewrite conn_insert_eq by done; by intros [= <-]|].
  rewrite list_insert_ge by lia. by rewrite empty_conn.
Qed.

Lemma single_table_ok i t : tcb_ok t -> table_ok (<[i := Some t]> empty_table).
Proof.
  intros Ht. split; [by rewrite length_insert|]. split.
  - by intros m u [_ ->]%single_conn.
  - by intros m n u v [-> _]%single_conn [-> _]%single_conn.
Qed.

Lemma demo_can_connect i j : (i = 0%nat /\ j = 1%nat) \/ (i = 1%nat /\ j = 0%nat) ->
  can_connect 0 client_ip server_ip 49152 80 demo_client 0 (demo_server i) i j listener.
Proof.
  intros Hij. assert (tcb_ok listener) as Hok by (apply new_tcb_ok; try done; split; [done|by repeat constructor|done|by repeat constructor]).
  split; try done.
  - apply empty_table_ok.
  - by apply single_table_ok.
  - apply client_ip_ok.
  - apply server_ip_ok.
  - intros m _. unfold demo_client. cbn [conns]. by rewrite empty_conn.
  - unfold demo_server. cbn [conns]. apply conn_insert_eq. unfold empty_table. rewrite length_replicate. unfold MAX_CONNS. lia.
  - by destruct Hij as [[-> ->]|[-> ->]].
  - intros m Hm. unfold demo_server. cbn [conns]. by rewrite conn_insert_ne, empty_conn.
Qed.

(** A segment with RST from anyone. *)
Definition demo_reset : bytes := sealed client_ip server_ip 20 (build_segment 1234 80 7 0 TCP_FLAG_RST 0 []).

(** ** Theorems *)

Module TableProofs.

(** C17: The handshake makes a connection.  A host connects to a port on which another listens, on a network that
    loses nothing, and the server's new block comes after the listener in its table.  Then both ends are
    established, expect each other's next sequence numbers and have nothing in flight, and the listener is still there. *)
Theorem tcp_handshake C `{!IpLayer C, !Wired C} S `{!IpLayer S, !Wired S} ec es ic is_ cip sip lport dport
    (c : TcpSys C) k (s : TcpSys S) i j l :
  can_connect ic cip sip lport dport c k s i j l -> (i < j)%nat ->
  exists c' s' a b, handshake ec es ic is_ cip sip lport dport c s = Some (c', s') /\
    conn (conns c') k = Some a /\ conn (conns s') j = Some b /\ conn (conns s') i = Some l /\
    state a = TCP_ESTABLISHED /\ state b = TCP_ESTABLISHED /\ linked a b /\ quiet a /\ quiet b.
Proof.
  intros CC Hij. destruct (handshake_run ec es ic is_ cip sip lport dport c k s i j l CC) as (w & w' & E).
  rewrite (proj2 (Nat.ltb_lt _ _) Hij) in E. eexists _, _, _, _. split; [exact E|]. cbn [conns].
  destruct (find_slot_free _ _ (cc_k _ _ _ _ _ _ _ _ _ _ _ CC)) as [Hk _]. destruct (find_slot_free _ _ (cc_j _ _ _ _ _ _ _ _ _ _ _ CC)) as [Hj _].
  assert (length (conns c) = MAX_CONNS) as L1 by apply CC. assert (length (conns s) = MAX_CONNS) as L2 by apply CC.
  split; [apply conn_insert_eq; lia|]. split; [apply conn_insert_eq; lia|]. split; [rewrite conn_insert_ne by lia; apply CC|].
  split; [done|]. split; [done|]. by apply (ends_linked ec es ic cip sip lport dport c k s i j l).
Qed.

Lemma tcp_handshake_witness :
  exists c' s' a b, handshake demo_entropy demo_entropy 0 0 client_ip server_ip 49152 80 demo_client (demo_server 0) = Some (c', s') /\
    conn (conns c') 0 = Some a /\ conn (conns s') 1 = Some b /\ conn (conns s') 0 = Some listener /\
    state a = TCP_ESTABLISHED /\ state b = TCP_ESTABLISHED /\ linked a b /\ quiet a /\ quiet b.
Proof.
  apply (tcp_handshake (Host client_ip) (Host server_ip) demo_entropy demo_entropy 0 0 client_ip server_ip 49152 80
    demo_client 0 (demo_server 0) 0 1 listener); [apply demo_can_connect; by left|lia].
Defined.

(** A listener hides the connections in earlier slots.  When the new block comes before the listener in the
    server's table, the client ends established and the server's block in SYN_RECEIVED; and whatever the client sends on
    the connection then, except SYN and RST, reaches the listener and changes nothing. *)
Theorem tcp_listener_hides_connection C `{!IpLayer C, !Wired C} S `{!IpLayer S, !Wired S} ec es ic is_ cip sip lport dport
    (c : TcpSys C) k (s : TcpSys S) i j l :
  can_connect ic cip sip lport dport c k s i j l -> (j < i)%nat ->
  exists c' s' a b, handshake ec es ic is_ cip sip lport dport c s = Some (c', s') /\
    conn (conns c') k = Some a /\ state a = TCP_ESTABLISHED /\ conn (conns s') j = Some b /\ state b = TCP_SYN_RECEIVED /\
    forall e seg sg, parse_segment cip sip seg = Some sg -> sg_src sg = cip -> sg_sport sg = lport -> sg_dport sg = dport ->
      has TCP_FLAG_SYN sg = false -> has TCP_FLAG_RST sg = false -> handle_receive e is_ cip sip seg s' = Some (true, s').
Proof.
  intros CC Hij. destruct (handshake_run ec es ic is_ cip sip lport dport c k s i j l CC) as (w & w' & E).
  assert ((i <? j)%nat = false) as Eij by (apply Nat.ltb_ge; lia). rewrite Eij in E. eexists _, _, _, _. split; [exact E|]. cbn [conns].
  destruct (find_slot_free _ _ (cc_k _ _ _ _ _ _ _ _ _ _ _ CC)) as [Hk _]. destruct (find_slot_free _ _ (cc_j _ _ _ _ _ _ _ _ _ _ _ CC)) as [Hj _].
  assert (length (conns c) = MAX_CONNS) as L1 by apply CC. assert (length (conns s) = MAX_CONNS) as L2 by apply CC.
  split; [apply conn_insert_eq; lia|]. split; [done|]. split; [apply conn_insert_eq; lia|]. split; [done|].
  intros e seg sg Hp E1 E2 E3 H1 H2.
  apply (listener_ignores e is_ cip sip seg sg i l); [done| |cbn [conns]; rewrite conn_insert_ne by lia; apply CC|apply CC|done|done].
  cbn [conns]. rewrite (server_lookup ec es ic cip sip lport dport c k s i j l CC sg E1 E2 E3). by rewrite Eij.
Qed.

Lemma tcp_listener_hides_connection_witness :
  exists c' s' a b, handshake demo_entropy demo_entropy 0 0 client_ip server_ip 49152 80 demo_client (demo_server 1) = Some (c', s') /\
    conn (conns c') 0 = Some a /\ state a = TCP_ESTABLISHED /\ conn (conns s') 0 = Some b /\ state b = TCP_SYN_RECEIVED /\
    forall e seg sg, parse_segment client_ip server_ip seg = Some sg -> sg_src sg = client_ip -> sg_sport sg = 49152 -> sg_dport sg = 80 ->
      has TCP_FLAG_SYN sg = false -> has TCP_FLAG_RST sg = false -> handle_receive e 0 client_ip server_ip seg s' = Some (true, s').
Proof.
  apply (tcp_listener_hides_connection (Host client_ip) (Host server_ip) demo_entropy demo_entropy 0 0 client_ip server_ip 49152 80
    demo_client 0 (demo_server 1) 1 0 listener); [apply demo_can_connect; by right|lia].
Defined.

(** Anyone can stop a server.  A segment with RST that is addressed to a port with a listener, whatever its
    source and sequence number, closes the listener when no block after it matches, and the next poll frees it. *)
Theorem tcp_reset_stops_listener W `{!IpLayer W, !LawfulIp W} e idx src dst seg sg i l now (s : TcpSys W) :
  ~ ip_hangs -> ip_up (world s) -> table_ok (conns s) -> conn (conns s) i = Some l -> state l = TCP_LISTEN ->
  parse_segment src dst seg = Some sg -> has TCP_FLAG_RST sg = true -> sg_dport sg = local_port l ->
  (forall m, (i < m)%nat -> addressed (sg_dport sg) (sg_sport sg) (sg_src sg) (conn (conns s) m) = false) ->
  exists s1 s2, handle_receive e idx src dst seg s = Some (true, s1) /\ poll_retransmit now idx s1 = Some (tt, s2) /\
    conn (conns s2) i = None.
Proof.
  intros Hret Hw Hok Hi Hl Hp Hr Hd Hlast. pose proof (conn_lt _ _ _ Hok Hi) as Hlt. assert (length (conns s) = MAX_CONNS) as Hlen by apply Hok.
  assert (listening l = true) as Hli by (destruct Hok as (_ & Hb & _); by apply (Hb i l Hi)).
  assert (find_conn sg (conns s) = Some i) as Hf.
  { apply find_conn_last; [done|rewrite matches_addressed, Hi; cbn; rewrite Hli; by apply Z.eqb_eq|]. intros m Hm. by apply Hlast. }
  pose proof (reset_closes e idx src dst seg sg i l s Hp Hf Hi Hr) as E.
  destruct (poll_retransmit_slots Hret now idx {| conns := <[i := Some (with_state TCP_CLOSED l)]> (conns s); world := world s |}) as (s2 & E2 & H2);
    [done|cbn [conns]; by rewrite length_insert|].
  eexists _, s2. split; [exact E|]. split; [done|]. rewrite H2. cbn [conns]. rewrite conn_insert_eq by lia. by apply closed_freed.
Qed.

Lemma tcp_reset_stops_listener_witness :
  exists s1 s2, handle_receive demo_entropy 0 client_ip server_ip demo_reset (demo_server 0) = Some (true, s1) /\
    poll_retransmit (fun _ => 0) 0 s1 = Some (tt, s2) /\ conn (conns s2) 0 = None.
Proof.
  destruct (demo_can_connect 0 1) as [_ Hok _ _ _ _ _ _ _ Hi _ _ _ Hm]; [by left|].
  destruct client_ip_ok as [A1 A2], server_ip_ok as [B1 B2].
  eapply (tcp_reset_stops_listener (Host server_ip) demo_entropy 0 client_ip server_ip demo_reset _ 0 listener (fun _ => 0) (demo_server 0));
    [by intros []|done|done|done|done|by apply parse_built; [..|constructor|cbn; lia|]|done|done|].
  intros m Hlt. unfold demo_server. cbn [conns]. by rewrite conn_insert_ne, empty_conn by lia.
Defined.

End TableProofs.
