(* ===== verification/TcpNic.v ===== *)
(** TCP over the network cards.

    The layer below of Tcp.v is instantiated with the model of [ipv4::send] and
    [nic::get_iface] in Nic.v.  Whether a call returns depends on who holds the lock of
    the card: calls made while nobody holds it return, and an answer sent from the
    receive path, which holds it, does not. *)

From S2P Require Import Prelude Bytes Wire Nic Tcp TcpProofs TcpStream TcpTable.

#[export] Instance nic_layer : IpLayer Net := {
  ip_send := Nic.ip_send;
  iface_ip idx n := if_ip <$> Nic.get_iface idx n;
}.

(** Every interface has an address of four bytes. *)
Definition ifaces_ok (n : Net) : Prop := forall i f, Nic.get_iface i n = Some f -> is_ip (if_ip f).

Lemma iface_typed idx (n : Net) a : ifaces_ok n -> iface_ip idx n = Some a -> is_ip a.
Proof. intros Hn H. cbn in H. destruct (Nic.get_iface idx n) as [f|] eqn:E; [|done]. injection H as <-. by apply (Hn idx). Qed.

Lemma keeps_ifaces_ok n n' : NicProofs.keeps_ifaces n n' -> ifaces_ok n -> ifaces_ok n'.
Proof. intros H Hn i f Hf. rewrite H in Hf. by apply (Hn i). Qed.

Lemma leads_ifaces_ok {A} (m : M A) n a n' : NicProofs.leads NicProofs.keeps_ifaces m -> m n = Some (a, n') -> ifaces_ok n -> ifaces_ok n'.
Proof. intros H E. eapply keeps_ifaces_ok, H, E. Qed.

(** The layer in any state: a send may hang. *)
Definition nic_any : LawfulIp Net.
Proof.
  refine {| ip_up := ifaces_ok; ip_hangs := True; ip_typed := iface_typed |}.
  intros idx dst seg n Hn. cbn. destruct (Nic.ip_send _ _ _ _ n) as [[b n']|] eqn:E; [|done]. by eapply leads_ifaces_ok; [apply NicProofs.ip_send_ifaces|..].
Defined.

(** The layer while nobody holds a card: sends return. *)
Definition nic_free : LawfulIp Net.
Proof.
  refine {| ip_up n := ifaces_ok n /\ NicProofs.card_free n; ip_hangs := False |}.
  - intros idx dst seg n [Hn Hf]. cbn. destruct (NicProofs.free_ip_send idx dst PROTO_TCP seg n Hf) as (b & n' & E & Hf').
    rewrite E. split; [by eapply leads_ifaces_ok; [apply NicProofs.ip_send_ifaces|..]|done].
  - intros idx n a [Hn _]. by apply iface_typed.
Defined.

(** The tables of connections the kernel can have: each call runs in whatever state the network is then in, a card
    locked by the receive path included, and returns. *)
Inductive tcp_reached : list (option Tcb) -> Prop :=
| reached_empty : tcp_reached empty_table
| reached_call c n t s' : tcp_reached t -> call_ok c -> ifaces_ok n ->
    call c {| conns := t; world := n |} = Some (tt, s') -> tcp_reached (conns s').

Lemma reached_ok t : tcp_reached t -> table_ok t.
Proof.
  induction 1 as [|c n t s' _ IH Hc Hn E]; [apply empty_table_ok|].
  pose proof (call_spec (LawfulIp0 := nic_any) c Hc {| conns := t; world := n |} Hn IH) as H. rewrite E in H. apply H.
Qed.

(** The card of the interface is being polled: its lock is held. *)
Record polling (idx : nat) (f : NetworkInterface) (n : Net) : Prop := {
  po_iface : Nic.get_iface idx n = Some f;
  po_idx : idx <> 0%nat;
  po_type : nic_type f <> Loopback;
  po_lock : rtl_lock n = true;
  po_ip : is_ip (if_ip f);
}.

Lemma send_locked idx f dst seg (s : TcpSys Net) : polling idx f (world s) -> is_ip dst -> (length seg <= 1480)%nat -> ip_out idx dst seg s = None.
Proof.
  intros [H1 H2 H3 H4 [H5 H6]] [H7 H8] Hl. unfold ip_out. cbn [ip_send nic_layer]. by rewrite (NicProofs.ip_send_locked idx f dst).
Qed.

Lemma sealed_length src dst n seg : (length (sealed src dst n seg) <= n)%nat.
Proof. unfold sealed. rewrite length_take. lia. Qed.

Lemma reply_locked idx f dst sg seq ack flags window (s : TcpSys Net) :
  polling idx f (world s) -> is_ip dst -> ip_out idx dst (reply sg seq ack flags window) s = None.
Proof. intros Hp Hd. apply (send_locked idx f); [done|done|]. unfold reply. etrans; [apply sealed_length|lia]. Qed.

Lemma parse_src src dst seg sg : parse_segment src dst seg = Some sg -> sg_src sg = src.
Proof.
  unfold parse_segment. destruct (length seg <? 20)%nat; [done|]. destruct (negb _); [done|]. destruct (_ || _); [done|]. by intros [= <-].
Qed.

(** A card that is being polled, and a server. *)
Definition demo_iface : NetworkInterface :=
  default Nic.loopback (Nic.get_iface 1 (NicProofs.boot (Some NicProofs.demo_rtl) None)).
Definition polled_net : Net := set_locks true false (NicProofs.boot (Some NicProofs.demo_rtl) None).
Definition polled_server : TcpSys Net := {| conns := <[0%nat := Some listener]> empty_table; world := polled_net |}.
Definition demo_syn : bytes := sealed client_ip server_ip 32 (build_syn_segment 49152 80 7 0 TCP_FLAG_SYN 65535).

Module NicTcpProofs.



(** A server on an RTL8139 cannot be connected to.  The receive path of the card calls [handle_receive] with the
    lock of the card held, and every answer takes this lock again: a SYN for a port that
    has a listener, and any other segment for a port that has none, stop the machine. *)
Theorem tcp_answer_deadlock e idx f src dst seg sg (s : TcpSys Net) :
  polling idx f (world s) -> is_ip src -> parse_segment src dst seg = Some sg -> has TCP_FLAG_RST sg = false ->
  (exists i l j, find_conn sg (conns s) = Some i /\ conn (conns s) i = Some l /\ state l = TCP_LISTEN /\
     has TCP_FLAG_SYN sg = true /\ has TCP_FLAG_ACK sg = false /\ find_slot (conns s) = Some j) \/
  (find_conn sg (conns s) = None /\ has TCP_FLAG_SYN sg = false) ->
  handle_receive e idx src dst seg s = None.
Proof.
  intros Hp Hs Hsg Hr H. pose proof (parse_src _ _ _ _ Hsg) as Hsrc.
  unfold handle_receive. rewrite Hsg. unfold mbind, Tcp_bind, get. destruct H as [(i & l & j & -> & Hl & Hst & H1 & H2 & Hj)|[-> H1]].
  - rewrite Hl, Hst, Hr. change (negb false && state_is TCP_LISTEN TCP_LISTEN) with true. cbv iota. unfold on_listen. rewrite H1, H2. cbn [negb andb].
    unfold mbind, Tcp_bind, get. rewrite Hj, Hsrc. by rewrite (reply_locked idx f).
  - rewrite Hr, H1. cbn [negb andb send_all]. unfold mbind, Tcp_bind. unfold reset_of. by rewrite (reply_locked idx f).
Qed.

Lemma tcp_answer_deadlock_witness : handle_receive demo_entropy 1 client_ip server_ip demo_syn polled_server = None.
Proof.
  destruct client_ip_ok as [A1 A2], server_ip_ok as [B1 B2].
  eapply (tcp_answer_deadlock demo_entropy 1 demo_iface client_ip server_ip demo_syn _ polled_server);
    [|done|by apply parse_syn|done|left].
  - split; [done|done|done|done|split; [done|by repeat constructor]].
  - exists 0%nat, listener, 1%nat. split_and!; done.
Defined.

End NicTcpProofs.
