(* ===== verification/Socket.v ===== *)
(** Sockets: [crates/zenus-net/src/socket.rs].

    The pool of sockets over the table of connections of Tcp.v.  [SockSys] has the pool, the next
    ephemeral port and the state of TCP with the layer below; a call returns its result and
    the next state, or [None] when it does not return: an index out of the pool panics, and the layer below may
    hang.  [udp::send] is one of the calls of the class [UdpLayer], and [nic::net_poll] an argument of
    [poll_all]; NetStack.v supplies both. *)

From S2P Require Import Prelude Bytes Wire Tcp.

Definition AF_INET : Z := 2.
Definition SOCK_STREAM : Z := 1.
Definition SOCK_DGRAM : Z := 2.
Definition MAX_SOCKETS : nat := 128.
Definition MAX_UDP_RECV : nat := 8.

Inductive SocketState := Free | Created | Bound | Listening | Connected | Closing.

#[export] Instance SocketState_eq_dec : EqDecision SocketState.
Proof. solve_decision. Defined.

Record UdpBuffer := { ub_data : bytes; ub_len : nat }.

Record UdpSocket := {
  us_local_port : Z;
  us_dst_ip : bytes;
  us_dst_port : Z;
  us_connected : bool;
  us_recv_buf : list UdpBuffer;
  us_recv_count : nat;
  us_recv_head : nat;
}.

Inductive SocketKind := KTcp (conn : nat) | KUdp (us : UdpSocket).

Record Socket := { s_state : SocketState; s_domain : Z; s_kind : SocketKind }.

Definition empty_socket : Socket := {| s_state := Free; s_domain := 0; s_kind := KTcp 0 |}.
Definition SOCKET_POOL : list Socket := replicate MAX_SOCKETS empty_socket.

Definition new_udp : UdpSocket :=
  {| us_local_port := 0; us_dst_ip := [0; 0; 0; 0]; us_dst_port := 0; us_connected := false;
     us_recv_buf := replicate MAX_UDP_RECV {| ub_data := replicate 1500 0; ub_len := 0 |}; us_recv_count := 0; us_recv_head := 0 |}.

(** *** Assignments to fields *)

Definition with_sstate (st : SocketState) (s : Socket) : Socket := {| s_state := st; s_domain := s_domain s; s_kind := s_kind s |}.
Definition with_kind (k : SocketKind) (s : Socket) : Socket := {| s_state := s_state s; s_domain := s_domain s; s_kind := k |}.
Definition with_port (p : Z) (u : UdpSocket) : UdpSocket :=
  {| us_local_port := p; us_dst_ip := us_dst_ip u; us_dst_port := us_dst_port u; us_connected := us_connected u;
     us_recv_buf := us_recv_buf u; us_recv_count := us_recv_count u; us_recv_head := us_recv_head u |}.
Definition with_dst (ip : bytes) (p : Z) (u : UdpSocket) : UdpSocket :=
  {| us_local_port := us_local_port u; us_dst_ip := ip; us_dst_port := p; us_connected := true;
     us_recv_buf := us_recv_buf u; us_recv_count := us_recv_count u; us_recv_head := us_recv_head u |}.
Definition with_queue (b : list UdpBuffer) (count head : nat) (u : UdpSocket) : UdpSocket :=
  {| us_local_port := us_local_port u; us_dst_ip := us_dst_ip u; us_dst_port := us_dst_port u; us_connected := us_connected u;
     us_recv_buf := b; us_recv_count := count; us_recv_head := head |}.

(** *** The queue of a UDP socket *)

(** A datagram goes to the end of the queue; a full queue drops it. *)
Definition enqueue (data : bytes) (u : UdpSocket) : UdpSocket :=
  if (MAX_UDP_RECV <=? us_recv_count u)%nat then u
  else
    let tail := ((us_recv_head u + us_recv_count u) mod MAX_UDP_RECV)%nat in
    let copy_len := Nat.min (length data) 1500 in
    let entry b := {| ub_data := splice 0 (take copy_len data) (ub_data b); ub_len := copy_len |} in
    with_queue (alter entry tail (us_recv_buf u)) (us_recv_count u + 1) (us_recv_head u) u.

(** The first datagram leaves the queue. *)
Definition dequeue (buf_len : nat) (u : UdpSocket) : option (option bytes * UdpSocket) :=
  if (us_recv_count u =? 0)%nat then Some (None, u)
  else
    entry ← us_recv_buf u !! us_recv_head u;
    let copy_len := Nat.min (ub_len entry) buf_len in
    Some (Some (take copy_len (ub_data entry)),
      with_queue (us_recv_buf u) (us_recv_count u - 1) ((us_recv_head u + 1) mod MAX_UDP_RECV)%nat u).

(** ** The calls *)

Class UdpLayer (W : Type) := {
  udp_send : nat -> Z -> Z -> bytes -> bytes -> bytes -> W -> option (bool * W);
}.

Record SockSys (W : Type) := { sockets : list Socket; next_ephemeral : Z; tcp : TcpSys W }.

#[global] Arguments sockets {W}.
#[global] Arguments next_ephemeral {W}.
#[global] Arguments tcp {W}.
#[global] Arguments Build_SockSys {W}.

Definition Sk (W A : Type) : Type := SockSys W -> option (A * SockSys W).

#[global] Instance Sk_ret W : MRet (Sk W) := fun A a s => Some (a, s).
#[global] Instance Sk_bind W : MBind (Sk W) := fun A B f m s =>
  match m s with Some (a, s') => f a s' | None => None end.

Module Sockets.
Section calls.
Context {W : Type} `{!IpLayer W, !UdpLayer W}.

(** A call of tcp.rs. *)
Definition on_tcp {A} (m : Tcp W A) : Sk W A := fun s =>
  (fun r => (r.1, {| sockets := sockets s; next_ephemeral := next_ephemeral s; tcp := r.2 |})) <$> m (tcp s).

(** [SOCKET_POOL.sockets[fd]] *)
Definition sock (fd : nat) : Sk W Socket := fun s => (fun x => (x, s)) <$> sockets s !! fd.
Definition set_sock (fd : nat) (x : Socket) : Sk W unit := fun s =>
  if (fd <? length (sockets s))%nat
  then Some (tt, {| sockets := <[fd := x]> (sockets s); next_ephemeral := next_ephemeral s; tcp := tcp s |}) else None.

Definition udp_out (idx : nat) (sport dport : Z) (src dst data : bytes) : Sk W bool :=
  on_tcp (fun t => (fun r => (r.1, {| conns := conns t; world := r.2 |})) <$> udp_send idx sport dport src dst data (world t)).

Definition pool {A} (f : list Socket -> A) : Sk W A := fun s => Some (f (sockets s), s).

Definition free_sock (ss : list Socket) : option nat := find_index (fun s => bool_decide (s_state s = Free)) ss.

Definition alloc_sock : Sk W (option nat) :=
  pool free_sock ≫= fun o =>
  match o with
  | Some i => sock i ≫= fun s => set_sock i (with_sstate Created s) ≫= fun _ => mret (Some i)
  | None => mret None
  end.

Definition state_of (fd : nat) : Sk W SocketState :=
  if (MAX_SOCKETS <=? fd)%nat then mret Free else sock fd ≫= fun s => mret (s_state s).

Definition find_tcp_listener_port (fd : nat) : Sk W (option Z) :=
  sock fd ≫= fun s =>
  if negb (bool_decide (s_state s = Listening)) then mret None
  else
    match s_kind s with
    | KTcp conn =>
        on_tcp (get_conn_info conn) ≫= fun o =>
        match o with
        | Some (_, _, _, _, local_port) => mret (Some local_port)
        | None => mret None
        end
    | KUdp _ => mret None
    end.

Definition socket (domain type_ : Z) : Sk W (option nat) :=
  if negb (domain =? AF_INET) then mret None
  else
    alloc_sock ≫= fun o =>
    match o with
    | None => mret None
    | Some fd =>
        sock fd ≫= fun s =>
        let s := {| s_state := s_state s; s_domain := domain; s_kind := s_kind s |} in
        if type_ =? SOCK_STREAM then set_sock fd (with_kind (KTcp 0) s) ≫= fun _ => mret (Some fd)
        else if type_ =? SOCK_DGRAM then set_sock fd (with_kind (KUdp new_udp) s) ≫= fun _ => mret (Some fd)
        else set_sock fd (with_sstate Free s) ≫= fun _ => mret None
    end.

Definition bind (fd : nat) (port : Z) : Sk W bool :=
  state_of fd ≫= fun st =>
  if negb (bool_decide (st = Created)) then mret false
  else
    sock fd ≫= fun s =>
    match s_kind s with
    | KTcp _ =>
        on_tcp (Tcp.listen port) ≫= fun o =>
        match o with
        | Some c => set_sock fd (with_sstate Bound (with_kind (KTcp c) s)) ≫= fun _ => mret true
        | None => mret false
        end
    | KUdp us => set_sock fd (with_sstate Bound (with_kind (KUdp (with_port port us)) s)) ≫= fun _ => mret true
    end.

Definition listen (fd : nat) : Sk W bool :=
  state_of fd ≫= fun st =>
  if negb (bool_decide (st = Bound)) then mret false
  else
    sock fd ≫= fun s =>
    match s_kind s with
    | KTcp _ => set_sock fd (with_sstate Listening s) ≫= fun _ => mret true
    | KUdp _ => mret false
    end.

Definition uses_conn (conn : nat) (s : Socket) : bool :=
  match s_kind s with
  | KTcp c => (c =? conn)%nat && (bool_decide (s_state s = Connected) || bool_decide (s_state s = Closing))
  | KUdp _ => false
  end.

Definition is_socket_for_conn (conn : nat) (ss : list Socket) : bool := existsb (uses_conn conn) ss.

(** The loop of [accept]; [now] is the tick count of the poll. *)
Fixpoint accept_loop (now : nat -> Z) (iface_idx : nat) (is_ : list nat) : Sk W (option nat) :=
  match is_ with
  | [] => on_tcp (poll_retransmit now iface_idx) ≫= fun _ => mret None
  | i :: is_ =>
      on_tcp (get_conn_info i) ≫= fun info =>
      pool (is_socket_for_conn i) ≫= fun used =>
      match info with
      | Some (state, _, _, _, _) =>
          if (state =? 4) && negb used then
            alloc_sock ≫= fun o =>
            match o with
            | None => mret None
            | Some new_fd =>
                sock new_fd ≫= fun s => set_sock new_fd (with_kind (KTcp i) (with_sstate Connected s)) ≫= fun _ =>
                on_tcp (poll_retransmit now iface_idx) ≫= fun _ => mret (Some new_fd)
            end
          else accept_loop now iface_idx is_
      | None => accept_loop now iface_idx is_
      end
  end.

Definition accept (now : nat -> Z) (fd iface_idx : nat) : Sk W (option nat) :=
  state_of fd ≫= fun st =>
  if negb (bool_decide (st = Listening)) then mret None
  else
    find_tcp_listener_port fd ≫= fun o =>
    match o with
    | None => mret None
    | Some _ => accept_loop now iface_idx (seq 0 16)
    end.

Definition allocate_ephemeral_port : Sk W Z := fun s =>
  let p := next_ephemeral s in
  Some (p, {| sockets := sockets s; next_ephemeral := if 65534 <=? p then 49152 else p + 1; tcp := tcp s |}).

(** The local port of a connection to be made: that of the bound listener, or of a new one. *)
Definition connect_port (fd : nat) (s : Socket) (conn : nat) : Sk W (option Z) :=
  if bool_decide (s_state s = Bound) then
    on_tcp (get_conn_info conn) ≫= fun o =>
    match o with
    | Some (_, _, _, _, p) => mret (Some p)
    | None => mret None
    end
  else
    allocate_ephemeral_port ≫= fun port =>
    on_tcp (Tcp.listen port) ≫= fun o =>
    match o with
    | Some c => set_sock fd (with_kind (KTcp c) s) ≫= fun _ => mret (Some port)
    | None => mret None
    end.

Definition connect (e : Entropy) (fd iface_idx : nat) (dst_ip : bytes) (dst_port : Z) : Sk W bool :=
  state_of fd ≫= fun st =>
  if negb (bool_decide (st = Created)) && negb (bool_decide (st = Bound)) then mret false
  else
    sock fd ≫= fun s =>
    match s_kind s with
    | KTcp conn =>
        connect_port fd s conn ≫= fun o =>
        match o with
        | None => mret false
        | Some local_port =>
            on_tcp (Tcp.connect e iface_idx local_port dst_ip dst_port) ≫= fun o =>
            match o with
            | None => mret false
            | Some c => set_sock fd (with_sstate Connected (with_kind (KTcp c) s)) ≫= fun _ => mret true
            end
        end
    | KUdp us => set_sock fd (with_sstate Connected (with_kind (KUdp (with_dst dst_ip dst_port us)) s)) ≫= fun _ => mret true
    end.

Definition send (fd : nat) (data : bytes) (iface_idx : nat) : Sk W bool :=
  sock fd ≫= fun s =>
  match s_kind s with
  | KTcp conn =>
      if negb (bool_decide (s_state s = Connected)) && negb (bool_decide (s_state s = Bound)) then mret false
      else
        on_tcp (send_data conn data) ≫= fun ok =>
        if ok : bool then on_tcp (flush_tx conn iface_idx) else mret false
  | KUdp us =>
      if negb (us_connected us) then mret false
      else
        on_tcp (local_address iface_idx) ≫= fun local_ip =>
        udp_out iface_idx (us_local_port us) (us_dst_port us) local_ip (us_dst_ip us) data
  end.

Definition sendto (fd : nat) (data : bytes) (iface_idx : nat) (dst_ip : bytes) (dst_port : Z) : Sk W bool :=
  sock fd ≫= fun s =>
  match s_kind s with
  | KUdp us =>
      on_tcp (local_address iface_idx) ≫= fun local_ip => udp_out iface_idx (us_local_port us) dst_port local_ip dst_ip data
  | KTcp _ => mret false
  end.

Definition recv (fd buf_len : nat) : Sk W (option bytes) :=
  sock fd ≫= fun s =>
  match s_kind s with
  | KTcp conn => on_tcp (receive_data conn buf_len)
  | KUdp us =>
      match dequeue buf_len us with
      | Some (data, us) => set_sock fd (with_kind (KUdp us) s) ≫= fun _ => mret data
      | None => fun _ => None
      end
  end.

Definition close (fd iface_idx : nat) : Sk W bool :=
  sock fd ≫= fun s =>
  set_sock fd (with_sstate Free s) ≫= fun _ =>
  match s_kind s with
  | KTcp conn => on_tcp (Tcp.close conn iface_idx)
  | KUdp _ => mret true
  end.

(** The flushes of [poll_all]. *)
Fixpoint flush_sockets (iface_idx : nat) (fds : list nat) : Sk W unit :=
  match fds with
  | [] => mret tt
  | fd :: fds =>
      sock fd ≫= fun s =>
      match s_kind s with
      | KTcp conn => if bool_decide (s_state s = Connected) then on_tcp (flush_tx conn iface_idx) ≫= fun _ => mret tt else mret tt
      | KUdp _ => mret tt
      end ≫= fun _ => flush_sockets iface_idx fds
  end.

Definition poll_all (net_poll : Sk W unit) (now : nat -> Z) (iface_idx : nat) : Sk W unit :=
  net_poll ≫= fun _ => net_poll ≫= fun _ => net_poll ≫= fun _ => net_poll ≫= fun _ =>
  on_tcp (poll_retransmit now iface_idx) ≫= fun _ => flush_sockets iface_idx (seq 0 MAX_SOCKETS).

Definition takes_port (port : Z) (s : Socket) : bool :=
  match s_kind s with
  | KUdp us => (us_local_port us =? port) && negb (bool_decide (s_state s = Free))
  | KTcp _ => false
  end.

Definition udp_enqueue (port : Z) (data : bytes) : Sk W bool :=
  pool (find_index (takes_port port)) ≫= fun o =>
  match o with
  | None => mret false
  | Some i =>
      sock i ≫= fun s =>
      match s_kind s with
      | KUdp us => set_sock i (with_kind (KUdp (enqueue data us)) s) ≫= fun _ => mret true
      | KTcp _ => mret true
      end
  end.

Definition is_connected (fd : nat) : Sk W bool :=
  if (MAX_SOCKETS <=? fd)%nat then mret false
  else
    sock fd ≫= fun s =>
    match s_kind s with
    | KTcp conn => on_tcp (Tcp.is_connected conn)
    | KUdp _ => mret false
    end.

End calls.
End Sockets.
