(* ===== verification/SocketProofs.v ===== *)
(** Proofs about sockets.

    The queue of a UDP socket refines a list, the pool stays well-formed, and what the calls do with
    connections that are not theirs. *)

From S2P Require Import Prelude Bytes Wire Tcp TcpProofs TcpStream TcpTable Socket.

#[local] Opaque RX_BUF_LEN TX_BUF_LEN.

(** ** The queue of a UDP socket *)

Definition ring_ok (u : UdpSocket) : Prop :=
  length (us_recv_buf u) = MAX_UDP_RECV /\ Forall (fun b => length (ub_data b) = 1500%nat /\ (ub_len b <= 1500)%nat) (us_recv_buf u) /\
  (us_recv_count u <= MAX_UDP_RECV)%nat /\ (us_recv_head u < MAX_UDP_RECV)%nat.

(** The datagram in the [k]-th place of the queue. *)
Definition datagram_at (u : UdpSocket) (k : nat) : bytes :=
  match us_recv_buf u !! ((us_recv_head u + k) mod MAX_UDP_RECV)%nat with
  | Some b => take (ub_len b) (ub_data b)
  | None => []
  end.

Definition datagrams (u : UdpSocket) : list bytes := datagram_at u <$> seq 0 (us_recv_count u).

(** A bounded queue of datagrams that drops what does not fit. *)
Definition push (d : bytes) (q : list bytes) : list bytes := if (MAX_UDP_RECV <=? length q)%nat then q else q ++ [take 1500 d].
Definition pop (buf_len : nat) (q : list bytes) : option bytes * list bytes :=
  match q with
  | [] => (None, [])
  | d :: q => (Some (take buf_len d), q)
  end.

Lemma datagrams_length u : length (datagrams u) = us_recv_count u.
Proof. unfold datagrams. by rewrite length_fmap, length_seq. Qed.

Lemma slot_inj h i j : (i < MAX_UDP_RECV)%nat -> (j < MAX_UDP_RECV)%nat -> ((h + i) mod MAX_UDP_RECV = (h + j) mod MAX_UDP_RECV)%nat -> i = j.
Proof.
  intros Hi Hj E. unfold MAX_UDP_RECV in *. pose proof (Nat.div_mod (h + i) 8). pose proof (Nat.div_mod (h + j) 8). lia.
Qed.

Lemma enqueue_ok d u : ring_ok u -> ring_ok (enqueue d u).
Proof.
  intros Hr. pose proof Hr as (H1 & H2 & H3 & H4). unfold enqueue. case_if; [done|]. split; [cbn; by rewrite length_alter|].
  split; [|cbn; lia]. cbn [us_recv_buf with_queue]. apply Forall_alter; [done|]. intros b _ [Hl _]. cbn [ub_data ub_len].
  rewrite length_splice_eq with (n := 1500%nat); [lia|done|rewrite length_take; lia].
Qed.

Lemma enqueue_refines d u : ring_ok u -> datagrams (enqueue d u) = push d (datagrams u).
Proof.
  intros (H1 & H2 & H3 & H4). unfold push. rewrite datagrams_length. unfold enqueue. case_if; [done|]. unfold datagrams. cbn [us_recv_count with_queue].
  rewrite seq_app, fmap_app. cbn [seq fmap list_fmap]. rewrite Nat.add_0_l.
  set (tail := ((us_recv_head u + us_recv_count u) mod MAX_UDP_RECV)%nat).
  assert (tail < MAX_UDP_RECV)%nat as Ht by (apply Nat.mod_upper_bound; done). f_equal.
  - apply list_fmap_ext. intros i k Hk. apply lookup_seq in Hk as [-> Hk]. unfold datagram_at. cbn [us_recv_buf us_recv_head with_queue].
    rewrite list_lookup_alter_ne; [done|]. unfold tail. intros Hs. apply slot_inj in Hs; lia.
  - f_equal. unfold datagram_at. cbn [us_recv_buf us_recv_head with_queue]. fold tail. rewrite list_lookup_alter_eq.
    destruct (lookup_lt_is_Some_2 (us_recv_buf u) tail) as [b Hb]; [by rewrite H1|]. rewrite Hb. cbn [fmap option_fmap option_map ub_len ub_data].
    rewrite Forall_lookup in H2. destruct (H2 _ _ Hb) as [Hl _]. set (x := take (Nat.min (length d) 1500) d).
    assert (length x = Nat.min (length d) 1500) as Hx by (unfold x; rewrite length_take; lia).
    rewrite <-Hx. pose proof (take_splice 0 x (ub_data b)) as Hs. rewrite Nat.add_0_l in Hs. rewrite Hs by lia. cbn [app take]. unfold x.
    rewrite firstn_O, app_nil_l. destruct (Nat.min_spec (length d) 1500) as [[? ->]|[? ->]]; [by rewrite !take_ge by lia|done].
Qed.

Lemma dequeue_ok n u : ring_ok u -> exists r u', dequeue n u = Some (r, u') /\ ring_ok u' /\ (r, datagrams u') = pop n (datagrams u).
Proof.
  intros Hr. pose proof Hr as (H1 & H2 & H3 & H4). unfold dequeue. destruct (us_recv_count u) as [|c] eqn:Ec.
  - exists None, u. split; [done|]. split; [done|]. unfold datagrams. by rewrite Ec.
  - destruct (lookup_lt_is_Some_2 (us_recv_buf u) (us_recv_head u)) as [b Hb]; [by rewrite H1|]. rewrite Hb. cbn [Nat.eqb mbind option_bind].
    eexists _, _. split; [reflexivity|]. split.
    + split; [done|]. split; [done|]. cbn [us_recv_count us_recv_head with_queue]. split; [lia|]. apply Nat.mod_upper_bound. done.
    + unfold datagrams. rewrite Ec. cbn [us_recv_count with_queue seq fmap list_fmap pop]. rewrite Nat.sub_succ, Nat.sub_0_r. f_equal.
      * unfold datagram_at at 1. rewrite Nat.add_0_r, Nat.mod_small, Hb by done. by rewrite take_take, Nat.min_comm.
      * rewrite <-seq_shift, <-list_fmap_compose. apply list_fmap_ext. intros i k Hk. apply lookup_seq in Hk as [-> Hk]. cbn [compose].
        unfold datagram_at. cbn [us_recv_buf us_recv_head with_queue]. rewrite Nat.Div0.add_mod_idemp_l, <-Nat.add_assoc. done.
Qed.

Lemma enqueue_port d u : us_local_port (enqueue d u) = us_local_port u.
Proof. unfold enqueue. by case_if. Qed.

Lemma dequeue_same n u :
  match dequeue n u with
  | Some (_, u') => us_local_port u' = us_local_port u /\ us_dst_port u' = us_dst_port u /\ us_dst_ip u' = us_dst_ip u
  | None => True
  end.
Proof. unfold dequeue. case_if; [done|]. by destruct (_ !! _). Qed.

(** ** The pool *)

Definition sock_ok (s : Socket) : Prop :=
  match s_kind s with
  | KTcp c => (c < MAX_CONNS)%nat
  | KUdp u => ring_ok u /\ is_u16 (us_local_port u) /\ is_u16 (us_dst_port u) /\ is_ip (us_dst_ip u)
  end.

Definition sys_ok {W} (s : SockSys W) : Prop :=
  length (sockets s) = MAX_SOCKETS /\ Forall sock_ok (sockets s) /\ 49152 <= next_ephemeral s <= 65534 /\ table_ok (conns (tcp s)).

Lemma sock_ok_kind s s' : s_kind s' = s_kind s -> sock_ok s -> sock_ok s'.
Proof. unfold sock_ok. by intros ->. Qed.

Lemma new_udp_ok : ring_ok new_udp.
Proof.
  split; [done|]. split; [|cbn; unfold MAX_UDP_RECV; lia]. apply Forall_replicate. cbn [ub_data ub_len]. rewrite length_replicate. lia.
Qed.

(** What the lemmas ask of [udp::send]: like [ipv4::send], it leaves the states [ip_up] only by hanging. *)
Class LawfulUdp (W : Type) `{!IpLayer W, !LawfulIp W, !UdpLayer W} := {
  udp_sends : forall idx sport dport src dst data (w : W), ip_up w ->
    match udp_send idx sport dport src dst data w with Some (_, w') => ip_up w' | None => ip_hangs end;
}.

Section calls.
Context {W : Type} `{!IpLayer W, !LawfulIp W, !UdpLayer W, !LawfulUdp W}.

(** From every well-formed state the call hangs in the layer below, or returns with a result in [R] and a
    well-formed state. *)
Definition safe {A} (m : Sk W A) (R : A -> Prop) : Prop := forall s, ip_up (world (tcp s)) -> sys_ok s ->
  match m s with Some (a, s') => ip_up (world (tcp s')) /\ sys_ok s' /\ R a | None => ip_hangs end.

Lemma safe_ret {A} (a : A) (R : A -> Prop) : R a -> safe (mret a) R.
Proof. by intros H s Hw Hs. Qed.

Lemma safe_bind {A B} (m : Sk W A) R (f : A -> Sk W B) Q : safe m R -> (forall a, R a -> safe (f a) Q) -> safe (m ≫= f) Q.
Proof.
  intros Hm Hf s Hw Hs. specialize (Hm s Hw Hs). unfold mbind, Sk_bind. destruct (m s) as [[a s1]|]; [|done].
  destruct Hm as (H1 & H2 & H3). by apply Hf.
Qed.

Lemma safe_if {A} (b : bool) (m n : Sk W A) R : safe m R -> safe n R -> safe (if b then m else n) R.
Proof. by destruct b. Qed.

Lemma safe_tcp {A} (m : Tcp W A) (R : A -> Prop) :
  spec table_ok m (fun _ cs => table_ok cs) -> (forall s a s', table_ok (conns s) -> m s = Some (a, s') -> R a) -> safe (Sockets.on_tcp m) R.
Proof.
  intros Hm HR s Hw (H1 & H2 & H3 & H4). specialize (Hm (tcp s) Hw H4). unfold Sockets.on_tcp.
  destruct (m (tcp s)) as [[a t]|] eqn:E; [|done]. destruct Hm as [Hw' Ht]. split; [done|]. split; [done|]. by apply (HR (tcp s) a t).
Qed.

Lemma spec_read {A} (f : list (option Tcb) -> A) : spec (W := W) table_ok (get f) (fun _ cs => table_ok cs).
Proof. by intros s Hw Hs. Qed.

Lemma safe_sock fd : (fd < MAX_SOCKETS)%nat -> safe (Sockets.sock fd) sock_ok.
Proof.
  intros Hf s Hw Hs. pose proof Hs as (H1 & H2 & _). destruct (lookup_lt_is_Some_2 (sockets s) fd) as [x Hx]; [lia|].
  unfold Sockets.sock. rewrite Hx. split; [done|]. split; [done|]. by eapply Forall_lookup_1.
Qed.

Lemma safe_set fd x : (fd < MAX_SOCKETS)%nat -> sock_ok x -> safe (Sockets.set_sock fd x) (fun _ => True).
Proof.
  intros Hf Hx s Hw (H1 & H2 & H3). unfold Sockets.set_sock. rewrite (proj2 (Nat.ltb_lt _ _)) by lia. split; [done|]. split; [|done].
  split; [cbn; by rewrite length_insert|]. split; [by apply Forall_insert|done].
Qed.

(** Storing a socket and returning. *)
Lemma safe_store {A} fd x (a : A) R : (fd < MAX_SOCKETS)%nat -> sock_ok x -> R a -> safe (Sockets.set_sock fd x ≫= fun _ => mret a) R.
Proof. intros Hf Hx Ha. eapply safe_bind; [by apply safe_set|]. intros _ _. by apply safe_ret. Qed.

Definition fd_ok (o : option nat) : Prop := forall fd, o = Some fd -> (fd < MAX_SOCKETS)%nat.

Lemma safe_alloc : safe Sockets.alloc_sock fd_ok.
Proof.
  eapply (safe_bind _ fd_ok).
  - intros s Hw Hs. split; [done|]. split; [done|]. intros fd Hfd. destruct Hs as [<- _].
    apply find_index_Some in Hfd as [(x & Hx & _) _]. by eapply lookup_lt_Some.
  - intros [i|] Hi; [|by apply safe_ret]. specialize (Hi i eq_refl). eapply safe_bind; [by apply safe_sock|]. intros s Hs.
    apply safe_store; [done|by apply (sock_ok_kind s)|by intros fd [= <-]].
Qed.

Lemma safe_state fd : safe (Sockets.state_of fd) (fun st => st <> Free -> (fd < MAX_SOCKETS)%nat).
Proof.
  unfold Sockets.state_of. destruct (Nat.leb_spec MAX_SOCKETS fd); [by apply safe_ret|]. eapply safe_bind; [by apply safe_sock|]. intros s _. by apply safe_ret.
Qed.

Definition conn_ok (o : option nat) : Prop := forall c, o = Some c -> (c < MAX_CONNS)%nat.

Lemma listen_conn port s o s' : table_ok (conns s) -> Tcp.listen (W := W) port s = Some (o, s') -> conn_ok o.
Proof.
  intros _. unfold Tcp.listen. unfold mbind, Tcp_bind, get. destruct (conn_by_port port (conns s)); [by intros [= <- _]|].
  destruct (find_slot (conns s)) as [i|] eqn:E; [|by intros [= <- _]]. intros [= <- _] c [= <-]. by apply (find_slot_free _ _ E).
Qed.

Lemma connect_conn e idx lport dst dport s o s' : table_ok (conns s) -> Tcp.connect (W := W) e idx lport dst dport s = Some (o, s') -> conn_ok o.
Proof.
  intros _. unfold Tcp.connect. unfold mbind, Tcp_bind, get. destruct (find_slot (conns s)) as [i|] eqn:E; [|by intros [= <- _]].
  destruct (local_address idx s) as [[lip s1]|]; [|done]. destruct (_ || _); [by intros [= <- _]|].
  destruct (ip_out _ _ _ s1) as [[[] s2]|]; [|by intros [= <- _]|done]. intros [= <- _] c [= <-]. by apply (find_slot_free _ _ E).
Qed.

Lemma info_port c s st a p b q s' : table_ok (conns s) -> get_conn_info (W := W) c s = Some (Some (st, a, p, b, q), s') -> is_u16 q.
Proof.
  intros (_ & Hb & _). unfold get_conn_info, get. destruct (_ <=? _)%nat; [done|]. destruct (conn (conns s) c) as [t|] eqn:E; [|done].
  intros [= <- <- <- <- <- _]. apply (Hb c t E).
Qed.

Lemma info_spec c : spec (W := W) table_ok (get_conn_info c) (fun _ cs => table_ok cs).
Proof. unfold get_conn_info. case_if; [by apply spec_ret|apply spec_read]. Qed.

Lemma safe_info c : safe (Sockets.on_tcp (get_conn_info c)) (fun o => forall st a p b q, o = Some (st, a, p, b, q) -> is_u16 q).
Proof. apply safe_tcp; [apply info_spec|]. intros s o s' Ht E st a p b q ->. exact (info_port c s st a p b q s' Ht E). Qed.

Lemma safe_poll now idx : (forall i, is_u64 (now i)) -> safe (Sockets.on_tcp (poll_retransmit now idx)) (fun _ => True).
Proof. intros Hn. apply safe_tcp; [by apply poll_conns_spec|done]. Qed.

Lemma socket_safe domain type_ : safe (Sockets.socket domain type_) fd_ok.
Proof.
  unfold Sockets.socket. apply safe_if; [by apply safe_ret|]. eapply safe_bind; [apply safe_alloc|]. intros [fd|] Hfd; [|by apply safe_ret].
  pose proof (Hfd fd eq_refl) as Hlt. eapply safe_bind; [by apply safe_sock|]. intros s Hs. cbn beta zeta. apply safe_if; [|apply safe_if]; apply safe_store; try done.
  - unfold sock_ok. cbn. unfold MAX_CONNS. lia.
  - unfold sock_ok. cbn. split; [apply new_udp_ok|]. by repeat constructor.
Qed.

Lemma bind_safe fd port : is_u16 port -> safe (Sockets.bind fd port) (fun _ => True).
Proof.
  intros Hp. unfold Sockets.bind. eapply safe_bind; [apply safe_state|]. intros st Hst. destruct (decide (st = Created)) as [->|]; cbn [negb bool_decide]; [|rewrite bool_decide_eq_false_2 by done; by apply safe_ret].
  specialize (Hst ltac:(done)). eapply safe_bind; [by apply safe_sock|]. intros s Hs. destruct (s_kind s) as [c|us] eqn:Ek.
  - eapply (safe_bind _ conn_ok); [apply safe_tcp; [by apply listen_spec|apply listen_conn]|]. intros [c'|] Hc; [|by apply safe_ret].
    apply safe_store; [done|by apply Hc|done].
  - apply safe_store; [done| |done]. unfold sock_ok in *. rewrite Ek in Hs. cbn. by destruct Hs as (H1 & H2 & H3 & H4).
Qed.

Lemma listen_safe fd : safe (Sockets.listen fd) (fun _ => True).
Proof.
  unfold Sockets.listen. eapply safe_bind; [apply safe_state|]. intros st Hst. destruct (decide (st = Bound)) as [->|]; [|rewrite bool_decide_eq_false_2 by done; by apply safe_ret].
  specialize (Hst ltac:(done)). cbn [negb bool_decide]. eapply safe_bind; [by apply safe_sock|]. intros s Hs.
  destruct (s_kind s); [|by apply safe_ret]. apply safe_store; [done|by apply (sock_ok_kind s)|done].
Qed.

Lemma safe_pool {A} (f : list Socket -> A) : safe (Sockets.pool f) (fun _ => True).
Proof. by intros s Hw Hs. Qed.

Lemma accept_loop_safe now idx is_ : (forall i, is_u64 (now i)) -> Forall (fun i => (i < MAX_CONNS)%nat) is_ -> safe (Sockets.accept_loop now idx is_) fd_ok.
Proof.
  intros Hn. induction 1 as [|i is_ Hi _ IH]; cbn [Sockets.accept_loop].
  - eapply safe_bind; [by apply safe_poll|]. intros _ _. by apply safe_ret.
  - eapply safe_bind; [apply safe_info|]. intros info _. eapply safe_bind; [apply safe_pool|]. intros used _.
    destruct info as [[[[[st a] p] b] q]|]; [|done]. apply safe_if; [|done].
    eapply safe_bind; [apply safe_alloc|]. intros [fd|] Hfd; [|by apply safe_ret]. pose proof (Hfd fd eq_refl) as Hlt.
    eapply safe_bind; [by apply safe_sock|]. intros s Hs. eapply safe_bind; [by apply safe_set|]. intros _ _.
    eapply safe_bind; [by apply safe_poll|]. intros _ _. by apply safe_ret.
Qed.

Lemma accept_safe now fd idx : (forall i, is_u64 (now i)) -> safe (Sockets.accept now fd idx) fd_ok.
Proof.
  intros Hn. unfold Sockets.accept. eapply safe_bind; [apply safe_state|]. intros st Hst. destruct (decide (st = Listening)) as [->|]; [|rewrite bool_decide_eq_false_2 by done; by apply safe_ret].
  specialize (Hst ltac:(done)). cbn [negb bool_decide]. eapply (safe_bind _ (fun _ => True)).
  - unfold Sockets.find_tcp_listener_port. eapply safe_bind; [by apply safe_sock|]. intros s Hs. apply safe_if; [by apply safe_ret|].
    destruct (s_kind s); [|by apply safe_ret]. eapply safe_bind; [apply safe_info|]. intros [[[[[]]]]|] _; by apply safe_ret.
  - intros [p|] _; [|by apply safe_ret]. apply accept_loop_safe; [done|]. apply Forall_forall. intros i Hi%elem_of_seq. unfold MAX_CONNS. lia.
Qed.

Lemma safe_ephemeral : safe Sockets.allocate_ephemeral_port is_u16.
Proof.
  intros s Hw (H1 & H2 & H3 & H4). split; [done|]. split; [|unfold is_u16; lia]. split; [done|]. split; [done|]. split; [|done].
  cbn [next_ephemeral]. case_if; lia.
Qed.

Lemma connect_safe e fd idx dst dport : is_ip dst -> is_u16 dport -> safe (Sockets.connect e fd idx dst dport) (fun _ => True).
Proof.
  intros Hd Hp. unfold Sockets.connect. eapply safe_bind; [apply safe_state|]. intros st Hst.
  destruct (negb (bool_decide (st = Created)) && negb (bool_decide (st = Bound))) eqn:Ec; [by apply safe_ret|].
  assert (fd < MAX_SOCKETS)%nat as Hlt by (apply Hst; intros ->; done). clear Hst Ec. eapply safe_bind; [by apply safe_sock|]. intros s Hs.
  destruct (s_kind s) as [c|us] eqn:Ek.
  - eapply (safe_bind _ (fun o => forall p, o = Some p -> is_u16 p)).
    + unfold Sockets.connect_port. apply safe_if.
      * eapply safe_bind; [apply safe_info|]. intros [[[[[st' a] p] b] q]|] H; [|by apply safe_ret]. apply safe_ret. intros x [= <-]. by eapply H.
      * eapply safe_bind; [apply safe_ephemeral|]. intros port Hport. eapply (safe_bind _ conn_ok); [apply safe_tcp; [by apply listen_spec|apply listen_conn]|].
        intros [c'|] Hc; [|by apply safe_ret]. apply safe_store; [done|by apply Hc|by intros x [= <-]].
    + intros [p|] H; [|by apply safe_ret]. eapply (safe_bind _ conn_ok); [apply safe_tcp; [apply connect_spec; [by apply H|done|done]|apply connect_conn]|].
      intros [c'|] Hc; [|by apply safe_ret]. apply safe_store; [done|by apply Hc|done].
  - apply safe_store; [done| |done]. unfold sock_ok in *. rewrite Ek in Hs. cbn. by destruct Hs as (H1 & H2 & H3 & H4).
Qed.

Lemma safe_udp_out idx sport dport src dst data : safe (Sockets.udp_out idx sport dport src dst data) (fun _ => True).
Proof.
  apply safe_tcp; [|done]. intros t Hw Ht. pose proof (udp_sends idx sport dport src dst data (world t) Hw) as H.
  by destruct (udp_send _ _ _ _ _ _ _) as [[b w]|].
Qed.

Lemma safe_local_address idx : safe (Sockets.on_tcp (local_address idx)) (fun _ => True).
Proof. apply safe_tcp; [|done]. by intros t Hw Ht. Qed.

Lemma send_safe fd data idx : (fd < MAX_SOCKETS)%nat -> bytes_ok data -> safe (Sockets.send fd data idx) (fun _ => True).
Proof.
  intros Hf Hd. unfold Sockets.send. eapply safe_bind; [by apply safe_sock|]. intros s Hs. destruct (s_kind s) as [c|us].
  - apply safe_if; [by apply safe_ret|]. eapply (safe_bind _ (fun _ => True)); [apply safe_tcp; [by apply send_data_spec|done]|].
    intros ok _. apply safe_if; [|by apply safe_ret]. apply safe_tcp; [apply flush_tx_spec|done].
  - apply safe_if; [by apply safe_ret|]. eapply safe_bind; [apply safe_local_address|]. intros a _. apply safe_udp_out.
Qed.

Lemma sendto_safe fd data idx dst dport : (fd < MAX_SOCKETS)%nat -> safe (Sockets.sendto fd data idx dst dport) (fun _ => True).
Proof.
  intros Hf. unfold Sockets.sendto. eapply safe_bind; [by apply safe_sock|]. intros s Hs. destruct (s_kind s); [by apply safe_ret|].
  eapply safe_bind; [apply safe_local_address|]. intros a _. apply safe_udp_out.
Qed.

Lemma recv_safe fd n : (fd < MAX_SOCKETS)%nat -> safe (Sockets.recv fd n) (fun _ => True).
Proof.
  intros Hf. unfold Sockets.recv. eapply safe_bind; [by apply safe_sock|]. intros s Hs. destruct (s_kind s) as [c|us] eqn:Ek.
  - apply safe_tcp; [apply receive_data_spec|done].
  - unfold sock_ok in Hs. rewrite Ek in Hs. destruct Hs as (H1 & H2 & H3 & H4). pose proof (dequeue_same n us) as Hsame.
    destruct (dequeue_ok n us H1) as (r & u' & E & Hr & _). rewrite E in Hsame |- *. destruct Hsame as (S1 & S2 & S3).
    apply safe_store; [done| |done]. unfold sock_ok. cbn [s_kind with_kind]. rewrite S1, S2, S3. done.
Qed.

Lemma close_safe fd idx : (fd < MAX_SOCKETS)%nat -> safe (Sockets.close fd idx) (fun _ => True).
Proof.
  intros Hf. unfold Sockets.close. eapply safe_bind; [by apply safe_sock|]. intros s Hs. eapply safe_bind; [apply safe_set; [done|by apply (sock_ok_kind s)]|].
  intros _ _. destruct (s_kind s); [apply safe_tcp; [apply close_spec|done]|by apply safe_ret].
Qed.

Lemma flush_sockets_safe idx fds : Forall (fun fd => (fd < MAX_SOCKETS)%nat) fds -> safe (Sockets.flush_sockets idx fds) (fun _ => True).
Proof.
  induction 1 as [|fd fds Hf _ IH]; cbn [Sockets.flush_sockets]; [by apply safe_ret|]. eapply safe_bind; [by apply safe_sock|]. intros s Hs.
  eapply (safe_bind _ (fun _ => True)); [|by intros _ _]. destruct (s_kind s); [|by apply safe_ret]. apply safe_if; [|by apply safe_ret].
  eapply (safe_bind _ (fun _ => True)); [apply safe_tcp; [apply flush_tx_spec|done]|]. intros b _. by apply safe_ret.
Qed.

Lemma poll_all_safe net_poll now idx : safe net_poll (fun _ => True) -> (forall i, is_u64 (now i)) -> safe (Sockets.poll_all net_poll now idx) (fun _ => True).
Proof.
  intros Hp Hn. unfold Sockets.poll_all. do 4 (eapply safe_bind; [exact Hp|intros _ _]). eapply safe_bind; [by apply safe_poll|]. intros _ _.
  apply flush_sockets_safe. apply Forall_forall. intros fd Hfd%elem_of_seq. lia.
Qed.

Lemma udp_enqueue_safe port data : safe (Sockets.udp_enqueue port data) (fun _ => True).
Proof.
  unfold Sockets.udp_enqueue. eapply (safe_bind _ fd_ok).
  - intros s Hw Hs. split; [done|]. split; [done|]. intros fd Hfd. destruct Hs as [<- _].
    apply find_index_Some in Hfd as [(x & Hx & _) _]. by eapply lookup_lt_Some.
  - intros [i|] Hi; [|by apply safe_ret]. specialize (Hi i eq_refl). eapply safe_bind; [by apply safe_sock|]. intros s Hs.
    destruct (s_kind s) as [c|us] eqn:Ek; [by apply safe_ret|]. apply safe_store; [done| |done]. unfold sock_ok in *. rewrite Ek in Hs. cbn [s_kind with_kind].
    destruct Hs as (H1 & H2). split; [by apply enqueue_ok|]. unfold enqueue. by case_if.
Qed.

Lemma is_connected_safe fd : safe (Sockets.is_connected fd) (fun _ => True).
Proof.
  unfold Sockets.is_connected. destruct (Nat.leb_spec MAX_SOCKETS fd); [by apply safe_ret|]. eapply safe_bind; [by apply safe_sock|]. intros s Hs.
  destruct (s_kind s) as [c|us]; [|by apply safe_ret]. apply safe_tcp; [|done]. apply with_open_spec. intros t Ho. apply spec_ret. by intros cs (H0 & _).
Qed.

(** *** Sequences of calls *)

Inductive SockCall :=
  | CSocket (domain type_ : Z)
  | CBind (fd : nat) (port : Z)
  | CListen (fd : nat)
  | CAccept (now : nat -> Z) (fd idx : nat)
  | CConnect (e : Entropy) (fd idx : nat) (dst : bytes) (dport : Z)
  | CSend (fd : nat) (data : bytes) (idx : nat)
  | CSendto (fd : nat) (data : bytes) (idx : nat) (dst : bytes) (dport : Z)
  | CRecv (fd n : nat)
  | CClose (fd idx : nat)
  | CPoll (now : nat -> Z) (idx : nat)
  | CDatagram (port : Z) (data : bytes)
  | CConnected (fd : nat).

(** Arguments in the range of their types; the calls that do not test their descriptor get one of the pool. *)
Definition sock_call_ok (c : SockCall) : Prop :=
  match c with
  | CBind _ port => is_u16 port
  | CAccept now _ _ | CPoll now _ => forall i, is_u64 (now i)
  | CConnect _ _ _ dst dport => is_ip dst /\ is_u16 dport
  | CSend fd data _ => (fd < MAX_SOCKETS)%nat /\ bytes_ok data
  | CSendto fd _ _ _ _ | CRecv fd _ | CClose fd _ => (fd < MAX_SOCKETS)%nat
  | _ => True
  end.

Definition ignore {A} (m : Sk W A) : Sk W unit := m ≫= fun _ => mret tt.

Definition sock_call (net_poll : Sk W unit) (c : SockCall) : Sk W unit :=
  match c with
  | CSocket domain type_ => ignore (Sockets.socket domain type_)
  | CBind fd port => ignore (Sockets.bind fd port)
  | CListen fd => ignore (Sockets.listen fd)
  | CAccept now fd idx => ignore (Sockets.accept now fd idx)
  | CConnect e fd idx dst dport => ignore (Sockets.connect e fd idx dst dport)
  | CSend fd data idx => ignore (Sockets.send fd data idx)
  | CSendto fd data idx dst dport => ignore (Sockets.sendto fd data idx dst dport)
  | CRecv fd n => ignore (Sockets.recv fd n)
  | CClose fd idx => ignore (Sockets.close fd idx)
  | CPoll now idx => Sockets.poll_all net_poll now idx
  | CDatagram port data => ignore (Sockets.udp_enqueue port data)
  | CConnected fd => ignore (Sockets.is_connected fd)
  end.

Fixpoint sock_calls (net_poll : Sk W unit) (cs : list SockCall) : Sk W unit :=
  match cs with
  | [] => mret tt
  | c :: cs => sock_call net_poll c ≫= fun _ => sock_calls net_poll cs
  end.

Lemma safe_ignore {A} (m : Sk W A) R : safe m R -> safe (ignore m) (fun _ => True).
Proof. intros H. eapply safe_bind; [exact H|]. intros a _. by apply safe_ret. Qed.

Lemma sock_call_safe net_poll c : safe net_poll (fun _ => True) -> sock_call_ok c -> safe (sock_call net_poll c) (fun _ => True).
Proof.
  intros Hp Hc. destruct c; cbn [sock_call sock_call_ok] in *; try (eapply safe_ignore).
  - apply socket_safe.
  - by apply bind_safe.
  - apply listen_safe.
  - by apply accept_safe.
  - destruct Hc. by apply connect_safe.
  - destruct Hc. by apply send_safe.
  - by apply sendto_safe.
  - by apply recv_safe.
  - by apply close_safe.
  - by apply poll_all_safe.
  - apply udp_enqueue_safe.
  - apply is_connected_safe.
Qed.

Lemma sock_calls_safe net_poll cs : safe net_poll (fun _ => True) -> Forall sock_call_ok cs -> safe (sock_calls net_poll cs) (fun _ => True).
Proof.
  intros Hp. induction 1 as [|c cs Hc _ IH]; cbn [sock_calls]; [by apply safe_ret|]. eapply safe_bind; [by apply sock_call_safe|]. by intros _ _.
Qed.

End calls.

Definition boot_sockets {W} (w : W) : SockSys W :=
  {| sockets := SOCKET_POOL; next_ephemeral := 49152; tcp := {| conns := empty_table; world := w |} |}.

Lemma boot_ok {W} (w : W) : sys_ok (boot_sockets w).
Proof.
  split; [apply length_replicate|]. split; [apply Forall_replicate; unfold sock_ok; cbn; unfold MAX_CONNS; lia|]. split; [cbn; lia|apply empty_table_ok].
Qed.

(** ** Datagrams of a socket *)

Section evaluation.
Context {W : Type} `{!IpLayer W, !UdpLayer W}.

Lemma sock_eq fd x (s : SockSys W) : sockets s !! fd = Some x -> Sockets.sock fd s = Some (x, s).
Proof. intros H. unfold Sockets.sock. by rewrite H. Qed.

Lemma on_tcp_eq {A} (m : Tcp W A) (s : SockSys W) a t : m (tcp s) = Some (a, t) ->
  Sockets.on_tcp m s = Some (a, {| sockets := sockets s; next_ephemeral := next_ephemeral s; tcp := t |}).
Proof. intros E. unfold Sockets.on_tcp. by rewrite E. Qed.

Definition put (fd : nat) (x : Socket) (s : SockSys W) : SockSys W :=
  {| sockets := <[fd := x]> (sockets s); next_ephemeral := next_ephemeral s; tcp := tcp s |}.

Lemma set_sock_eq fd x y (s : SockSys W) : sockets s !! fd = Some x -> Sockets.set_sock fd y s = Some (tt, put fd y s).
Proof. intros H%lookup_lt_Some. unfold Sockets.set_sock. by rewrite (proj2 (Nat.ltb_lt _ _) H). Qed.

Lemma put_here fd x y (s : SockSys W) : sockets s !! fd = Some x -> sockets (put fd y s) !! fd = Some y.
Proof. intros H%lookup_lt_Some. cbn. by apply list_lookup_insert_eq. Qed.

Lemma state_of_eq fd x (s : SockSys W) : length (sockets s) = MAX_SOCKETS -> sockets s !! fd = Some x -> Sockets.state_of fd s = Some (s_state x, s).
Proof.
  intros Hl H. pose proof (lookup_lt_Some _ _ _ H) as Hlt. unfold Sockets.state_of. rewrite (proj2 (Nat.leb_gt _ _)) by lia.
  unfold mbind, Sk_bind. by rewrite (sock_eq _ _ _ H).
Qed.

Inductive UdpEvent := Datagram (d : bytes) | Recv (n : nat).

(** Datagrams for [port] arrive and the owner of [fd] receives. *)
Fixpoint udp_run (port : Z) (fd : nat) (es : list UdpEvent) : Sk W (list (option bytes)) :=
  match es with
  | [] => mret []
  | Datagram d :: es => Sockets.udp_enqueue port d ≫= fun _ => udp_run port fd es
  | Recv n :: es => Sockets.recv fd n ≫= fun r => udp_run port fd es ≫= fun rs => mret (r :: rs)
  end.

Fixpoint queue_run (es : list UdpEvent) (q : list bytes) : list (option bytes) * list bytes :=
  match es with
  | [] => ([], q)
  | Datagram d :: es => queue_run es (push d q)
  | Recv n :: es => let '(r, q) := pop n q in let '(rs, q) := queue_run es q in (r :: rs, q)
  end.

(** [fd] is the socket that takes the datagrams for [port], and [q] is its queue. *)
Definition udp_at (port : Z) (fd : nat) (q : list bytes) (s : SockSys W) : Prop :=
  exists x u, sockets s !! fd = Some x /\ s_kind x = KUdp u /\ ring_ok u /\ datagrams u = q /\
    find_index (Sockets.takes_port port) (sockets s) = Some fd.

Lemma takes_put port fd x y (s : SockSys W) : sockets s !! fd = Some x -> find_index (Sockets.takes_port port) (sockets s) = Some fd ->
  Sockets.takes_port port y = true -> find_index (Sockets.takes_port port) (sockets (put fd y s)) = Some fd.
Proof.
  intros Hx H Hy. apply find_index_Some in H as [_ H]. apply find_index_Some. split; [exists y; split; [by eapply put_here|done]|].
  intros j z Hj Hz. cbn in Hz. rewrite list_lookup_insert_ne in Hz by lia. by apply (H j).
Qed.

Lemma enqueue_at port fd q d s : udp_at port fd q s -> exists s', Sockets.udp_enqueue port d s = Some (true, s') /\ udp_at port fd (push d q) s'.
Proof.
  intros (x & u & Hx & Hk & Hr & Hq & Hf). exists (put fd (with_kind (KUdp (enqueue d u)) x) s). split.
  - unfold Sockets.udp_enqueue, Sockets.pool. unfold mbind, Sk_bind. rewrite Hf, (sock_eq _ _ _ Hx), Hk. by rewrite (set_sock_eq _ x).
  - eexists _, _. split; [by eapply put_here|]. split; [done|]. split; [by apply enqueue_ok|]. split; [rewrite enqueue_refines; congruence|].
    eapply takes_put; [done|done|]. apply find_index_Some in Hf as [(z & Hz & Ht) _]. rewrite Hx in Hz. injection Hz as <-.
    unfold Sockets.takes_port in *. rewrite Hk in Ht. cbn. by rewrite enqueue_port.
Qed.

Lemma recv_at port fd q n s : udp_at port fd q s ->
  exists s', Sockets.recv fd n s = Some ((pop n q).1, s') /\ udp_at port fd (pop n q).2 s'.
Proof.
  intros (x & u & Hx & Hk & Hr & Hq & Hf). pose proof (dequeue_same n u) as Hsame. destruct (dequeue_ok n u Hr) as (r & u' & E & Hr' & Ep).
  rewrite E in Hsame. destruct Hsame as (S1 & _). rewrite Hq in Ep. rewrite <-Ep. cbn [fst snd]. exists (put fd (with_kind (KUdp u') x) s). split.
  - unfold Sockets.recv. unfold mbind, Sk_bind. rewrite (sock_eq _ _ _ Hx), Hk, E. by rewrite (set_sock_eq _ x).
  - eexists _, _. split; [by eapply put_here|]. split; [done|]. split; [done|]. split; [done|]. eapply takes_put; [done|done|].
    apply find_index_Some in Hf as [(z & Hz & Ht) _]. rewrite Hx in Hz. injection Hz as <-. unfold Sockets.takes_port in *. rewrite Hk in Ht. cbn.
    by rewrite S1.
Qed.

Lemma udp_run_at port fd es : forall q s, udp_at port fd q s ->
  exists s', udp_run port fd es s = Some ((queue_run es q).1, s') /\ udp_at port fd (queue_run es q).2 s'.
Proof.
  induction es as [|[d|n] es IH]; intros q s Hs; cbn [udp_run queue_run].
  - by exists s.
  - destruct (enqueue_at port fd q d s Hs) as (s1 & E1 & H1). destruct (IH _ s1 H1) as (s2 & E2 & H2). exists s2. split; [|done].
    unfold mbind, Sk_bind. by rewrite E1.
  - destruct (recv_at port fd q n s Hs) as (s1 & E1 & H1). destruct (pop n q) as [r q1]. cbn [fst snd] in *.
    destruct (IH _ s1 H1) as (s2 & E2 & H2). exists s2. destruct (queue_run es q1) as [rs q2]. split; [|done].
    unfold mbind, Sk_bind. rewrite E1, E2. done.
Qed.

(** ** Connections of others *)

Lemma alloc_some fd x (s : SockSys W) : Sockets.free_sock (sockets s) = Some fd -> sockets s !! fd = Some x ->
  Sockets.alloc_sock s = Some (Some fd, put fd (with_sstate Created x) s).
Proof.
  intros Hf Hx. unfold Sockets.alloc_sock, Sockets.pool. unfold mbind, Sk_bind. rewrite Hf, (sock_eq _ _ _ Hx), (set_sock_eq _ _ _ _ Hx). done.
Qed.

Lemma alloc_none (s : SockSys W) : Sockets.free_sock (sockets s) = None -> Sockets.alloc_sock s = Some (None, s).
Proof. intros Hf. unfold Sockets.alloc_sock, Sockets.pool. unfold mbind, Sk_bind. by rewrite Hf. Qed.

Lemma put_put fd x y (s : SockSys W) : put fd y (put fd x s) = put fd y s.
Proof. unfold put. cbn. by rewrite list_insert_insert_eq. Qed.

Lemma socket_new fd x (s : SockSys W) : Sockets.free_sock (sockets s) = Some fd -> sockets s !! fd = Some x ->
  Sockets.socket AF_INET SOCK_STREAM s =
  Some (Some fd, put fd {| s_state := Created; s_domain := AF_INET; s_kind := KTcp 0 |} s).
Proof.
  intros Hf Hx. unfold Sockets.socket. change (negb (AF_INET =? AF_INET)) with false. cbv iota. unfold mbind, Sk_bind. rewrite (alloc_some _ _ _ Hf Hx).
  pose proof (put_here fd x (with_sstate Created x) s Hx) as H1. rewrite (sock_eq _ _ _ H1). change (SOCK_STREAM =? SOCK_STREAM) with true. cbv beta iota.
  by rewrite (set_sock_eq _ _ _ _ H1), put_put.
Qed.

Lemma recv_tcp fd x c n (s : SockSys W) : sockets s !! fd = Some x -> s_kind x = KTcp c ->
  Sockets.recv fd n s = Sockets.on_tcp (receive_data c n) s.
Proof. intros Hx Hk. unfold Sockets.recv. unfold mbind, Sk_bind. by rewrite (sock_eq _ _ _ Hx), Hk. Qed.

Lemma close_tcp fd x c idx (s : SockSys W) : sockets s !! fd = Some x -> s_kind x = KTcp c ->
  Sockets.close fd idx s = Sockets.on_tcp (Tcp.close c idx) (put fd (with_sstate Free x) s).
Proof. intros Hx Hk. unfold Sockets.close. unfold mbind, Sk_bind. by rewrite (sock_eq _ _ _ Hx), (set_sock_eq _ _ _ _ Hx), Hk. Qed.

(** Closing a connection that is not open does nothing. *)
Lemma close_not_open c idx t (s : TcpSys W) : conn (conns s) c = Some t -> is_open t = false -> Tcp.close c idx s = Some (false, s).
Proof. intros Hc Ho. unfold Tcp.close, with_open. case_if; [done|]. unfold mbind, Tcp_bind, get. by rewrite Hc, Ho. Qed.

Lemma close_open `{!Wired W} c idx t (s : TcpSys W) : (c < MAX_CONNS)%nat -> conn (conns s) c = Some t -> is_open t = true ->
  exists w, Tcp.close c idx s = Some (true, {| conns := <[c := Some (finished t)]> (conns s); world := w |}).
Proof.
  intros Hlt Hc Ho. destruct (send_wired idx (remote_ip t) (fin_segment t) s) as (w & E & _). exists w.
  unfold Tcp.close, with_open. rewrite (proj2 (Nat.leb_gt _ _) Hlt). unfold mbind, Tcp_bind, get. rewrite Hc, Ho, E. done.
Qed.

Lemma receive_some c n t (s : TcpSys W) : (c < MAX_CONNS)%nat -> conn (conns s) c = Some t -> (0 < rx_data_len t)%nat ->
  receive_data c n s = Some (Some (take n (buffered t)), {| conns := <[c := Some (read_rx n t).2]> (conns s); world := world s |}).
Proof.
  intros Hlt Hc Hd. unfold receive_data. rewrite (proj2 (Nat.leb_gt _ _) Hlt). unfold mbind, Tcp_bind, get. rewrite Hc.
  rewrite (proj2 (Nat.eqb_neq _ _)) by lia. rewrite <-(read_rx_data n t). by destruct (read_rx n t).
Qed.

(** A port that has a listener. *)
Lemma listen_taken port c t (s : TcpSys W) : table_ok (conns s) -> conn (conns s) c = Some t -> listening t = true -> local_port t = port ->
  Tcp.listen port s = Some (None, s).
Proof.
  intros Hok Hc Hl Hp. unfold Tcp.listen. unfold mbind, Tcp_bind, get. destruct (conn_by_port port (conns s)) as [j|] eqn:E; [done|].
  by destruct (conn_by_port_None port (conns s) c t Hok E Hc Hl).
Qed.

(** A free slot takes the listener, which is then found. *)
Lemma listen_free port i (s : TcpSys W) : conn_by_port port (conns s) = None -> find_slot (conns s) = Some i ->
  Tcp.listen port s = Some (Some i, {| conns := <[i := Some (new_tcb TCP_LISTEN [0; 0; 0; 0] port [0; 0; 0; 0] 0 0 0 0 true 0 0)]> (conns s); world := world s |}).
Proof. intros H1 H2. unfold Tcp.listen. unfold mbind, Tcp_bind, get. by rewrite H1, H2. Qed.

(** A host that has only the loopback address, or none, does not connect. *)
Lemma connect_loopback e idx lport dst dport (s : TcpSys W) : default [0; 0; 0; 0] (iface_ip idx (world s)) ∈ [[0; 0; 0; 0]; [127; 0; 0; 1]] ->
  Tcp.connect e idx lport dst dport s = Some (None, s).
Proof.
  intros H. unfold Tcp.connect. unfold mbind, Tcp_bind, get. destruct (find_slot (conns s)); [|done]. unfold local_address. cbv beta iota.
  rewrite !elem_of_cons in H. destruct H as [H|[H|H%elem_of_nil]]; [| |done]; rewrite H; done.
Qed.

End evaluation.

(** The connection that [accept] takes. *)
Definition acceptable (cs : list (option Tcb)) (ss : list Socket) (i : nat) : bool :=
  match conn cs i with
  | Some t => state_is (state t) TCP_ESTABLISHED && negb (Sockets.is_socket_for_conn i ss)
  | None => false
  end.

Lemma established_code s : (state_code s =? 4) = state_is s TCP_ESTABLISHED.
Proof. by destruct s. Qed.

Lemma insert_alter_lookup {A} (f : A -> A) (l : list A) i x : l !! i = Some x -> <[i := f x]> l = alter f i l.
Proof. revert i. induction l as [|y l IH]; intros [|i]; cbn; [done|done|by intros [= ->]|]. intros H. f_equal. by apply IH. Qed.

Section accepting.
Context {W : Type} `{!IpLayer W, !LawfulIp W} (Hret : ~ ip_hangs).

Lemma poll_keeps_pool now idx (s : SockSys W) : ip_up (world (tcp s)) -> length (conns (tcp s)) = MAX_CONNS ->
  exists t, Sockets.on_tcp (poll_retransmit now idx) s = Some (tt, {| sockets := sockets s; next_ephemeral := next_ephemeral s; tcp := t |}).
Proof.
  intros Hw Hl. destruct (poll_retransmit_slots Hret now idx (tcp s) Hw Hl) as (t & E & _). exists t. unfold Sockets.on_tcp. by rewrite E.
Qed.

Lemma info_eq i (s : SockSys W) : (i < MAX_CONNS)%nat -> Sockets.on_tcp (get_conn_info i) s =
  Some ((fun t => (state_code (state t), remote_ip t, remote_port t, local_ip t, local_port t)) <$> conn (conns (tcp s)) i, s).
Proof.
  intros Hi. unfold Sockets.on_tcp, get_conn_info. rewrite (proj2 (Nat.leb_gt _ _) Hi). unfold get. cbn. by destruct s as [? ? []].
Qed.

Lemma accept_loop_eq now idx is_ (s : SockSys W) : ip_up (world (tcp s)) -> sys_ok s -> Forall (fun i => (i < MAX_CONNS)%nat) is_ ->
  exists t, Sockets.accept_loop now idx is_ s =
    match List.find (acceptable (conns (tcp s)) (sockets s)) is_ with
    | None => Some (None, {| sockets := sockets s; next_ephemeral := next_ephemeral s; tcp := t |})
    | Some i =>
        match Sockets.free_sock (sockets s) with
        | None => Some (None, s)
        | Some fd =>
            Some (Some fd, {| sockets := alter (fun x => with_kind (KTcp i) (with_sstate Connected x)) fd (sockets s);
                              next_ephemeral := next_ephemeral s; tcp := t |})
        end
    end.
Proof.
  intros Hw Hs. induction 1 as [|i is_ Hi _ IH]; cbn [Sockets.accept_loop List.find].
  - destruct (poll_keeps_pool now idx s Hw) as [t E]; [apply Hs|]. exists t. unfold mbind, Sk_bind. by rewrite E.
  - unfold mbind at 1 2, Sk_bind at 1 2. rewrite info_eq by done. cbv beta iota. unfold Sockets.pool at 1. unfold acceptable at 1.
    destruct (conn (conns (tcp s)) i) as [t|]; [|exact IH]. cbn [fmap option_fmap option_map]. rewrite established_code.
    destruct (state_is (state t) TCP_ESTABLISHED && negb (Sockets.is_socket_for_conn i (sockets s))); [|exact IH].
    unfold mbind, Sk_bind. destruct (Sockets.free_sock (sockets s)) as [fd|] eqn:Ef; [|exists (tcp s); by rewrite alloc_none].
    pose proof Ef as [(x & Hx & _) _]%find_index_Some. rewrite (alloc_some fd x) by done. pose proof (put_here fd x (with_sstate Created x) s Hx) as H1.
    rewrite (sock_eq _ _ _ H1), (set_sock_eq _ _ _ _ H1), put_put.
    set (y := with_kind (KTcp i) (with_sstate Connected (with_sstate Created x))).
    destruct (poll_keeps_pool now idx (put fd y s) Hw) as [t' Et]; [apply Hs|]. exists t'. rewrite Et. cbn [mret Sk_ret put sockets next_ephemeral].
    by rewrite <-(insert_alter_lookup (fun x => with_kind (KTcp i) (with_sstate Connected x)) (sockets s) fd x Hx).
Qed.

End accepting.

#[export] Instance host_udp a : UdpLayer (Host a) := { udp_send _ _ _ _ _ _ w := Some (true, w) }.

(** A bound UDP socket on a host. *)
Definition demo_udp : SockSys (Host client_ip) :=
  {| sockets := <[0%nat := {| s_state := Bound; s_domain := AF_INET; s_kind := KUdp (with_port 5000 new_udp) |}]> SOCKET_POOL;
     next_ephemeral := 49152; tcp := {| conns := empty_table; world := [] |} |}.

(** A connection with data in slot 0 of the table. *)
Definition demo_data : Tcb := with_rx (splice 0 [115; 101; 99] (rx_data demo_a)) 3 demo_a.
Definition demo_open : SockSys (Host client_ip) :=
  {| sockets := <[0%nat := {| s_state := Connected; s_domain := AF_INET; s_kind := KTcp 0 |}]> SOCKET_POOL;
     next_ephemeral := 49152; tcp := {| conns := <[0%nat := Some demo_data]> empty_table; world := [] |} |}.

(** A listening socket on port 80. *)
Definition demo_listening : SockSys (Host client_ip) :=
  {| sockets := <[0%nat := {| s_state := Listening; s_domain := AF_INET; s_kind := KTcp 0 |}]>
       (<[1%nat := {| s_state := Created; s_domain := AF_INET; s_kind := KTcp 0 |}]> SOCKET_POOL);
     next_ephemeral := 49152; tcp := {| conns := <[0%nat := Some listener]> empty_table; world := [] |} |}.

(** A new socket on a host with the loopback address, and a listening socket on a host with a connection of
    another port. *)
Definition demo_fresh : SockSys (Host [127; 0; 0; 1]) :=
  {| sockets := <[0%nat := {| s_state := Created; s_domain := AF_INET; s_kind := KTcp 0 |}]> SOCKET_POOL;
     next_ephemeral := 49152; tcp := {| conns := empty_table; world := [] |} |}.
Definition demo_accept : SockSys (Host client_ip) :=
  {| sockets := <[0%nat := {| s_state := Listening; s_domain := AF_INET; s_kind := KTcp 0 |}]> SOCKET_POOL;
     next_ephemeral := 49152; tcp := {| conns := <[1%nat := Some demo_a]> (<[0%nat := Some listener]> empty_table); world := [] |} |}.

(** ** Theorems *)

Module SocketProofs.

(** C38: The queue of a UDP socket is a queue.  Whatever order datagrams for its port arrive in and receives are made in, the
    receives get what a list of at most eight datagrams of at most 1500 bytes gives, first in first out, each
    cut to the buffer of the caller. *)
Theorem udp_socket_is_queue W `{!IpLayer W, !UdpLayer W} port fd es q (s : SockSys W) :
  udp_at port fd q s ->
  exists s', udp_run port fd es s = Some ((queue_run es q).1, s') /\ udp_at port fd (queue_run es q).2 s'.
Proof. apply udp_run_at. Qed.

Lemma udp_socket_is_queue_witness :
  let es := [Datagram [1; 2; 3]; Datagram [4]; Recv 2; Datagram [5]; Recv 9; Recv 9; Recv 9] in
  (exists s', udp_run 5000 0 es demo_udp = Some ((queue_run es []).1, s') /\ udp_at 5000 0 (queue_run es []).2 s') /\
  (queue_run es []).1 = [Some [1; 2]; Some [4]; Some [5]; None].
Proof.
  intros es. split; [|by vm_compute]. apply (udp_socket_is_queue (Host client_ip) 5000 0 es [] demo_udp).
  eexists _, _. split; [reflexivity|]. split; [reflexivity|]. split; [apply new_udp_ok|]. by split.
Defined.

(** A new socket is connected to connection 0.  A stream socket that is neither bound nor connected refers to slot 0
    of the table: receiving on it takes the data of the connection there, which belongs to another socket, and
    closing it closes that connection. *)
Theorem fresh_socket_reaches_connection_0 W `{!IpLayer W, !Wired W, !UdpLayer W} (s : SockSys W) fd t n idx :
  sys_ok s -> Sockets.free_sock (sockets s) = Some fd -> conn (conns (tcp s)) 0 = Some t -> is_open t = true -> (0 < rx_data_len t)%nat ->
  exists s1 s2 s3, Sockets.socket AF_INET SOCK_STREAM s = Some (Some fd, s1) /\
    Sockets.recv fd n s1 = Some (Some (take n (buffered t)), s2) /\
    Sockets.close fd idx s1 = Some (true, s3) /\ conn (conns (tcp s3)) 0 = Some (finished t).
Proof.
  intros Hs Hf Ht Ho Hd. pose proof Hf as [(x & Hx & _) _]%find_index_Some. set (y := {| s_state := Created; s_domain := AF_INET; s_kind := KTcp 0 |}).
  pose proof (put_here fd x y s Hx) as Hy. assert (0 < MAX_CONNS)%nat as H0 by (unfold MAX_CONNS; lia).
  destruct (close_open 0 idx t (tcp s) H0 Ht Ho) as [w Ew]. eexists (put fd y s), _, _. split; [by apply (socket_new fd x)|].
  split; [rewrite (recv_tcp fd y 0) by done; unfold Sockets.on_tcp; cbn [put tcp]; by rewrite (receive_some 0 n t)|].
  split; [rewrite (close_tcp fd y 0) by done; unfold Sockets.on_tcp; cbn [put tcp]; by rewrite Ew|]. apply conn_insert_eq.
  destruct Hs as (_ & _ & _ & Hl & _). lia.
Qed.

Lemma fresh_socket_reaches_connection_0_witness :
  exists s1 s2 s3, Sockets.socket AF_INET SOCK_STREAM demo_open = Some (Some 1%nat, s1) /\
    Sockets.recv 1 10 s1 = Some (Some (take 10 (buffered demo_data)), s2) /\
    Sockets.close 1 1 s1 = Some (true, s3) /\ conn (conns (tcp s3)) 0 = Some (finished demo_data).
Proof.
  apply (fresh_socket_reaches_connection_0 (Host client_ip) demo_open 1 demo_data 10 1); [|done..|cbn; lia].
  split; [done|]. split; [|split; [cbn; lia|]].
  - apply Forall_insert; [apply boot_ok with (w := tt)|unfold sock_ok; cbn; unfold MAX_CONNS; lia].
  - apply single_table_ok. apply with_rx_ok; [apply demo_linked|]. apply (buf_append _ 0 [115; 101; 99]); [apply demo_linked|by repeat constructor|cbn; pose proof RX_BUF_LEN_eq; lia].
Defined.

(** A port is never given back.  Closing a bound or listening socket frees the socket and leaves its listener
    in the table, so that no socket can be bound to the port again. *)
Theorem closed_listener_keeps_port W `{!IpLayer W, !UdpLayer W} (s : SockSys W) fd x c l idx port :
  sys_ok s -> sockets s !! fd = Some x -> s_kind x = KTcp c -> conn (conns (tcp s)) c = Some l -> state l = TCP_LISTEN -> local_port l = port ->
  exists s1, Sockets.close fd idx s = Some (false, s1) /\ (s_state <$> sockets s1 !! fd) = Some Free /\ conn (conns (tcp s1)) c = Some l /\
    forall fd' y c', sockets s1 !! fd' = Some y -> s_state y = Created -> s_kind y = KTcp c' -> Sockets.bind fd' port s1 = Some (false, s1).
Proof.
  intros (Hlen & _ & _ & Hok) Hx Hk Hc Hl Hp. exists (put fd (with_sstate Free x) s).
  assert (listening l = true) as Hli by (destruct Hok as (_ & Hb & _); by apply (Hb c l Hc)).
  split; [rewrite (close_tcp fd x c) by done; unfold Sockets.on_tcp; cbn [put tcp]; rewrite (close_not_open c idx l); [done|done|unfold is_open; by rewrite Hl]|].
  split; [by rewrite (put_here fd x)|]. split; [done|]. intros fd' y c' Hy Hst Hky. unfold Sockets.bind. unfold mbind, Sk_bind.
  rewrite (state_of_eq fd' y) by (done || cbn; by rewrite length_insert). rewrite Hst. cbn [negb bool_decide decide]. rewrite bool_decide_eq_true_2 by done. cbn [negb].
  rewrite (sock_eq _ _ _ Hy), Hky. unfold Sockets.on_tcp at 1. cbn [put tcp]. by rewrite (listen_taken port c l).
Qed.

Lemma closed_listener_keeps_port_witness :
  exists s1, Sockets.close 0 1 demo_listening = Some (false, s1) /\ (s_state <$> sockets s1 !! 0%nat) = Some Free /\ conn (conns (tcp s1)) 0 = Some listener /\
    forall fd' y c', sockets s1 !! fd' = Some y -> s_state y = Created -> s_kind y = KTcp c' -> Sockets.bind fd' 80 s1 = Some (false, s1).
Proof.
  eapply (closed_listener_keeps_port (Host client_ip) demo_listening 0 _ 0 listener 1 80); [|reflexivity|done|done|done|done].
  split; [done|]. split; [|split; [cbn; lia|apply (cc_server _ _ _ _ _ _ _ _ _ _ _ (demo_can_connect 0 1 ltac:(by left)))]].
  assert (forall st, sock_ok {| s_state := st; s_domain := AF_INET; s_kind := KTcp 0 |}) as H by (intros st; unfold sock_ok; cbn; unfold MAX_CONNS; lia).
  apply Forall_insert; [apply Forall_insert; [apply boot_ok with (w := tt)|apply H]|apply H].
Defined.

(** Connecting over the loopback interface fails and leaves a listener.  The system calls name interface 0: a
    stream socket connects nowhere, and the ephemeral port it was given has a listener in the table from then on. *)
Theorem loopback_connect_leaks W `{!IpLayer W, !UdpLayer W} (s : SockSys W) e fd x c idx dst dport i :
  sys_ok s -> sockets s !! fd = Some x -> s_state x = Created -> s_kind x = KTcp c ->
  iface_ip idx (world (tcp s)) = Some [127; 0; 0; 1] ->
  conn_by_port (next_ephemeral s) (conns (tcp s)) = None -> find_slot (conns (tcp s)) = Some i ->
  exists s' l, Sockets.connect e fd idx dst dport s = Some (false, s') /\
    conn (conns (tcp s')) i = Some l /\ state l = TCP_LISTEN /\ local_port l = next_ephemeral s /\ (s_state <$> sockets s' !! fd) = Some Created.
Proof.
  intros (Hlen & _ & _ & Hok) Hx Hst Hk Hip Hp Hi. set (l := new_tcb TCP_LISTEN [0; 0; 0; 0] (next_ephemeral s) [0; 0; 0; 0] 0 0 0 0 true 0 0).
  set (t1 := {| conns := <[i := Some l]> (conns (tcp s)); world := world (tcp s) |}).
  set (s1 := {| sockets := sockets s; next_ephemeral := if 65534 <=? next_ephemeral s then 49152 else next_ephemeral s + 1; tcp := t1 |}).
  exists (put fd (with_kind (KTcp i) x) s1), l. split.
  - unfold Sockets.connect. unfold mbind at 1, Sk_bind at 1. rewrite (state_of_eq fd x) by done. rewrite Hst. cbn [negb andb bool_decide decide].
    rewrite (bool_decide_eq_true_2 (Created = Created)) by done. cbn [negb andb]. unfold mbind at 1, Sk_bind at 1. rewrite (sock_eq _ _ _ Hx), Hk.
    unfold Sockets.connect_port. rewrite bool_decide_eq_false_2 by (by rewrite Hst). unfold mbind, Sk_bind, Sockets.allocate_ephemeral_port.
    rewrite (on_tcp_eq (Tcp.listen _) _ (Some i) t1) by (by apply listen_free). cbn [sockets next_ephemeral]. fold s1.
    rewrite (set_sock_eq fd x) by done. unfold mret, Sk_ret.
    rewrite (on_tcp_eq (Tcp.connect _ _ _ _ _) _ None t1); [done|]. apply connect_loopback. cbn. rewrite Hip. cbn. set_solver.
  - cbn [put tcp s1 conns t1]. split; [apply conn_insert_eq; destruct Hok as (-> & _); by apply (find_slot_free _ _ Hi)|]. split; [done|]. split; [done|].
    rewrite (put_here fd x) by done. cbn. by rewrite Hst.
Qed.

Lemma loopback_connect_leaks_witness :
  exists s' l, Sockets.connect demo_entropy 0 0 [10; 0; 2; 2] 80 demo_fresh = Some (false, s') /\
    conn (conns (tcp s')) 0 = Some l /\ state l = TCP_LISTEN /\ local_port l = 49152 /\ (s_state <$> sockets s' !! 0%nat) = Some Created.
Proof.
  eapply (loopback_connect_leaks (Host [127; 0; 0; 1]) demo_fresh demo_entropy 0 _ 0 0 [10; 0; 2; 2] 80 0); [|reflexivity|done..].
  split; [done|]. split; [|split; [cbn; lia|apply empty_table_ok]].
  apply Forall_insert; [apply boot_ok with (w := tt)|unfold sock_ok; cbn; unfold MAX_CONNS; lia].
Defined.

(** What [accept] gives.  On a listening socket whose listener is in the table it takes the first established connection
    among slots 0 to 15 that no socket has, whichever port that connection is on, gives it the first free
    socket, and otherwise returns nothing. *)
Theorem accept_takes_first_established W `{!IpLayer W, !LawfulIp W, !UdpLayer W} (s : SockSys W) now fd x c l idx :
  ~ ip_hangs -> ip_up (world (tcp s)) -> sys_ok s -> sockets s !! fd = Some x -> s_state x = Listening -> s_kind x = KTcp c -> conn (conns (tcp s)) c = Some l ->
  exists t, Sockets.accept now fd idx s =
    match List.find (acceptable (conns (tcp s)) (sockets s)) (seq 0 16) with
    | None => Some (None, {| sockets := sockets s; next_ephemeral := next_ephemeral s; tcp := t |})
    | Some i =>
        match Sockets.free_sock (sockets s) with
        | None => Some (None, s)
        | Some fd' =>
            Some (Some fd', {| sockets := alter (fun x => with_kind (KTcp i) (with_sstate Connected x)) fd' (sockets s);
                               next_ephemeral := next_ephemeral s; tcp := t |})
        end
    end.
Proof.
  intros Hret Hw Hs Hx Hst Hk Hc. destruct (accept_loop_eq Hret now idx (seq 0 16) s Hw Hs) as [t E].
  { apply Forall_forall. intros i Hi%elem_of_seq. unfold MAX_CONNS. lia. }
  exists t. rewrite <-E. unfold Sockets.accept. unfold mbind at 1, Sk_bind at 1. rewrite (state_of_eq fd x) by (done || apply Hs). rewrite Hst.
  rewrite (bool_decide_eq_true_2 (Listening = Listening)) by done. cbn [negb]. unfold Sockets.find_tcp_listener_port. unfold mbind, Sk_bind.
  rewrite (sock_eq _ _ _ Hx), Hst, (bool_decide_eq_true_2 (Listening = Listening)), Hk by done. cbn [negb].
  rewrite info_eq, Hc by (apply (conn_lt (conns (tcp s)) c l); [apply Hs|done]). done.
Qed.

Lemma accept_takes_first_established_witness :
  (exists t, Sockets.accept (fun _ => 0) 0 1 demo_accept =
    match List.find (acceptable (conns (tcp demo_accept)) (sockets demo_accept)) (seq 0 16) with
    | None => Some (None, {| sockets := sockets demo_accept; next_ephemeral := next_ephemeral demo_accept; tcp := t |})
    | Some i =>
        match Sockets.free_sock (sockets demo_accept) with
        | None => Some (None, demo_accept)
        | Some fd' =>
            Some (Some fd', {| sockets := alter (fun x => with_kind (KTcp i) (with_sstate Connected x)) fd' (sockets demo_accept);
                               next_ephemeral := next_ephemeral demo_accept; tcp := t |})
        end
    end) /\
  List.find (acceptable (conns (tcp demo_accept)) (sockets demo_accept)) (seq 0 16) = Some 1%nat /\ local_port demo_a <> local_port listener.
Proof.
  split; [|by vm_compute]. eapply (accept_takes_first_established (Host client_ip) demo_accept (fun _ => 0) 0 _ 0 listener 1); [by intros []|done| |reflexivity|done..].
  split; [done|]. split; [apply Forall_insert; [apply boot_ok with (w := tt)|unfold sock_ok; cbn; unfold MAX_CONNS; lia]|]. split; [cbn; lia|].
  apply table_set; [apply (cc_server _ _ _ _ _ _ _ _ _ _ _ (demo_can_connect 0 1 ltac:(by left)))|]. intros t [= <-]. split; [apply demo_linked|done].
Defined.

End SocketProofs.
