(* ===== verification/NetStack.v ===== *)
(** The network code of a machine as a whole: [nic::net_poll] with the protocol handlers it calls.

    [rtl8139.rs] calls the handlers of TCP, of UDP and through the latter those of DHCP, DNS and the
    sockets while it holds the lock of the card.  Nic.v records such a call, which is
    always the last thing done with a frame, and this file makes it: [net_poll] here runs each
    handler where the code does, with the lock held.  [poll_all] of socket.rs and the calls
    of sockets then run over this machine. *)

From S2P Require Import Prelude Bytes Wire NetTables Nic Dns Dhcp Tcp TcpProofs TcpStream TcpTable TcpNic Socket SocketProofs.

(** What the network code keeps besides the connections and the sockets.  The port of the resolver is in [m_net],
    where the receive path reads it; [m_polls] counts the polls. *)
Record Machine := {
  m_net : Net;
  m_leases : list (option Lease);
  m_dhcp : DhcpInner;
  m_dns : DnsState;
  m_polls : nat;
}.

Definition with_net (n : Net) (m : Machine) : Machine :=
  {| m_net := n; m_leases := m_leases m; m_dhcp := m_dhcp m; m_dns := m_dns m; m_polls := m_polls m |}.
Definition with_leases (t : list (option Lease)) (m : Machine) : Machine :=
  {| m_net := m_net m; m_leases := t; m_dhcp := m_dhcp m; m_dns := m_dns m; m_polls := m_polls m |}.
Definition with_dhcp (d : DhcpInner) (m : Machine) : Machine :=
  {| m_net := m_net m; m_leases := m_leases m; m_dhcp := d; m_dns := m_dns m; m_polls := m_polls m |}.
Definition with_dns (d : DnsState) (m : Machine) : Machine :=
  {| m_net := m_net m; m_leases := m_leases m; m_dhcp := m_dhcp m; m_dns := d; m_polls := m_polls m |}.
Definition count_poll (m : Machine) : Machine :=
  {| m_net := m_net m; m_leases := m_leases m; m_dhcp := m_dhcp m; m_dns := m_dns m; m_polls := S (m_polls m) |}.

(** A computation of Nic.v on the network of the machine. *)
Definition on_net {A} (c : M A) (m : Machine) : option (A * Machine) :=
  match c (m_net m) with Some (a, n) => Some (a, with_net n m) | None => None end.

#[export] Instance machine_ip : IpLayer Machine := {
  ip_send idx dst proto seg := on_net (Nic.ip_send idx dst proto seg);
  iface_ip idx m := if_ip <$> Nic.get_iface idx (m_net m);
}.

#[export] Instance machine_udp : UdpLayer Machine := {
  udp_send idx sport dport src dst data := on_net (Nic.udp_send idx sport dport src dst data);
}.

(** What comes from outside: the frames in the ring of the card at the k-th poll, what the random number generator
    gives to the handler of the j-th of them, and the clock readings of the DHCP server during this call. *)
Record Inputs := {
  in_rx : nat -> list bytes;
  in_entropy : nat -> nat -> Entropy;
  in_clock : nat -> nat -> nat -> Z;
}.

Module Stack.

Definition on_world {A} (f : Machine -> option (A * Machine)) : Sk Machine A :=
  Sockets.on_tcp (fun t => match f (world t) with Some (a, m) => Some (a, {| conns := conns t; world := m |}) | None => None end).

Definition machine {A} (f : Machine -> A) : Sk Machine A := on_world (fun m => Some (f m, m)).
Definition update (f : Machine -> Machine) : Sk Machine unit := on_world (fun m => Some (tt, f m)).
Definition net {A} (c : M A) : Sk Machine A := on_world (on_net c).

Section polling.
Context (inp : Inputs).

(** The call of a protocol handler, made in place. *)
Definition upcall (k j : nat) (u : Upcall) : Sk Machine unit :=
  match u with
  | TcpUp idx src dst segment =>
      Sockets.on_tcp (Tcp.handle_receive (in_entropy inp k j) idx src dst segment) ≫= fun _ => mret tt
  | DhcpServerUp idx _ packet =>
      machine m_leases ≫= fun t =>
      net (Server.handle_receive (in_clock inp k j) idx packet t) ≫= fun r => update (with_leases r.2)
  | DhcpUp _ _ packet => update (fun m => with_dhcp (Client.handle_receive packet (m_dhcp m)).2 m)
  | DnsUp _ _ packet => update (fun m => with_dns (Dns.handle_receive packet (m_dns m)).2 m)
  | SocketUp port _ _ packet => Sockets.udp_enqueue port packet ≫= fun _ => mret tt
  end.

Fixpoint upcalls (k j : nat) (us : list Upcall) : Sk Machine unit :=
  match us with
  | [] => mret tt
  | u :: us => upcall k j u ≫= fun _ => upcalls k j us
  end.

(** The calls recorded since [n]. *)
Definition news (n n' : Net) : list Upcall := rev (take (length (up n') - length (up n)) (up n')).

(** [Rtl8139::handle_packet] with the handlers it calls. *)
Definition handle_packet (k j : nat) (r : RtlNic) (data : bytes) : Sk Machine unit :=
  machine m_net ≫= fun n =>
  net (Nic.rtl_handle_packet r data) ≫= fun _ =>
  machine m_net ≫= fun n' => upcalls k j (news n n').

Fixpoint process_rx (k j : nat) (r : RtlNic) (frames : list bytes) : Sk Machine unit :=
  match frames with
  | [] => mret tt
  | f :: rest => handle_packet k j r f ≫= fun _ => process_rx k (S j) r rest
  end.

(** The virtio card is as in Nic.v: where there is one its driver locks itself out before it has a frame. *)
Definition net_poll : Sk Machine unit :=
  machine m_polls ≫= fun k => update count_poll ≫= fun _ =>
  net lock_rtl ≫= fun _ => net (Nic.get rtl) ≫= fun r =>
  match r with
  | Some r => process_rx k 0 r (take 256 (in_rx inp k))
  | None => mret tt
  end ≫= fun _ => net unlock_rtl ≫= fun _ =>
  net (Nic.virtio_with_nic (fun v => Nic.virtio_poll ≫= fun _ => Nic.virtio_loop (S (length (v_rx v))) v 0)) ≫= fun _ => mret tt.

(** [socket::poll_all] *)
Definition poll_all (now : nat -> Z) (iface_idx : nat) : Sk Machine unit := Sockets.poll_all net_poll now iface_idx.

End polling.
End Stack.

(** ** What the receive path hands over *)

(** A handler gets addresses of four bytes, and bytes. *)
Definition upcall_ok (u : Upcall) : Prop :=
  match u with
  | TcpUp _ src dst segment => is_ip src /\ is_ip dst /\ bytes_ok segment
  | _ => True
  end.

Definition hands_over (n n' : Net) : Prop := exists us, up n' = us ++ up n /\ Forall upcall_ok us.

#[local] Instance hands_over_preorder : PreOrder hands_over.
Proof.
  split; [intros n; by exists []|]. intros a b c (us & E & H) (vs & E' & H'). exists (vs ++ us).
  rewrite E', E. split; [by rewrite app_assoc|by apply Forall_app].
Qed.

Lemma hands_over_same n n' : up n' = up n -> hands_over n n'.
Proof. intros E. by exists []. Qed.

Lemma hands_over_push u n : upcall_ok u -> hands_over n (push_up u n).
Proof. intros H. exists [u]. split; [done|by repeat constructor]. Qed.

Lemma news_ok n n' : hands_over n n' -> Forall upcall_ok (Stack.news n n').
Proof.
  intros (us & E & H). unfold Stack.news. rewrite E, length_app. replace (length us + length (up n) - length (up n))%nat with (length us) by lia.
  rewrite take_app_length. by apply Forall_rev.
Qed.

Lemma udp_hands_over idx src dst packet : NicProofs.leads hands_over (Nic.udp_handle_receive idx src dst packet).
Proof.
  unfold Nic.udp_handle_receive.
  NicProofs.split_comp (@NicProofs.leads_bind);
    first [ exact hands_over_preorder | apply NicProofs.leads_ret; apply _ | apply NicProofs.leads_get; apply _
          | apply NicProofs.leads_modify; intros; by apply hands_over_push
          | apply (NicProofs.unmoved_send_frame hands_over); intros; by apply hands_over_same ].
Qed.

Lemma parse_typed p h payload : bytes_ok p -> Ipv4.parse p = Some (h, payload) -> is_ip (src_ip h) /\ is_ip (dst_ip h) /\ bytes_ok payload.
Proof.
  intros Hp. unfold Ipv4.parse. destruct (Nat.ltb_spec (length p) 20); [done|]. do 4 (destruct (_ : bool); [done|]).
  intros [= <- <-]. cbn [src_ip dst_ip]. unfold slice, is_ip, bytes_ok in *.
  split_and!; first [by apply Forall_take, Forall_drop | rewrite length_take, length_drop; lia].
Qed.

Lemma frame_typed data eth p : bytes_ok data -> Ethernet.parse data = Some (eth, p) -> bytes_ok p.
Proof. intros Hd. unfold Ethernet.parse. destruct (_ <? _)%nat; [done|]. intros [= <- <-]. by apply Forall_drop. Qed.

Lemma rtl_hands_over r data : bytes_ok data -> NicProofs.leads hands_over (Nic.rtl_handle_packet r data).
Proof.
  intros Hd. unfold Nic.rtl_handle_packet. destruct (_ <? 14)%nat; [apply NicProofs.leads_ret; apply _|].
  destruct (Ethernet.parse data) as [[eth p]|] eqn:Ee; [|apply NicProofs.leads_ret; apply _].
  assert (forall m : M bool, NicProofs.leads hands_over m -> NicProofs.leads hands_over (m ≫= fun _ => mret tt)) as Hskip.
  { intros m Hm. apply (NicProofs.leads_bind hands_over); [done|]. intros b. apply NicProofs.leads_ret. apply _. }
  assert (forall reply, NicProofs.leads hands_over (Nic.rtl_send_raw r reply)) as Hraw.
  { intros reply. apply (NicProofs.unmoved_rtl_send_raw hands_over). intros. by apply hands_over_same. }
  destruct (_ =? ETH_ARP).
  { apply (NicProofs.leads_bind hands_over); [apply NicProofs.leads_get; apply _|]. intros a. destruct (Arp.handle _ _ _ _) as [reply a'].
    apply (NicProofs.leads_bind hands_over); [apply NicProofs.leads_modify; intros n; by apply hands_over_same|]. intros _.
    destruct reply; [by apply Hskip|apply NicProofs.leads_ret; apply _]. }
  destruct (_ =? ETH_IPV4); [|apply NicProofs.leads_ret; apply _].
  destruct (Ipv4.parse p) as [[h payload]|] eqn:Ep; [|apply NicProofs.leads_ret; apply _].
  pose proof (parse_typed p h payload (frame_typed _ _ _ Hd Ee) Ep) as (H1 & H2 & H3).
  destruct (_ && _); [apply NicProofs.leads_ret; apply _|]. destruct (_ =? PROTO_ICMP).
  { destruct (Icmp.handle_echo _ _ _ _ _); [by apply Hskip|apply NicProofs.leads_ret; apply _]. }
  destruct (_ =? PROTO_TCP); [apply NicProofs.leads_modify; intros n; by apply hands_over_push|].
  destruct (_ =? PROTO_UDP); [apply udp_hands_over|apply NicProofs.leads_ret; apply _].
Qed.

(** ** The laws of the layers, on a machine *)

Section lift.
Context (L : LawfulIp Net).

(** A law of the network is one of the machine. *)
Definition lift : LawfulIp Machine.
Proof.
  refine {| ip_up m := ip_up (LawfulIp := L) (m_net m); ip_hangs := ip_hangs (LawfulIp := L) |}.
  - intros idx dst seg m Hm. pose proof (ip_sends (LawfulIp := L) idx dst seg (m_net m) Hm) as H. cbn in *. unfold on_net.
    by destruct (Nic.ip_send _ _ _ _ _) as [[b n]|].
  - intros idx m a Hm. apply (ip_typed (LawfulIp := L) idx (m_net m) a Hm).
Defined.

#[local] Existing Instance lift.

Lemma safe_world {A} (f : Machine -> option (A * Machine)) :
  (forall m, ip_up m -> match f m with Some (_, m') => ip_up m' | None => ip_hangs end) -> safe (Stack.on_world f) (fun _ => True).
Proof.
  intros Hf. apply safe_tcp; [|done]. intros t Hw Ht. specialize (Hf (world t) Hw). by destruct (f (world t)) as [[a m]|].
Qed.

Lemma safe_update f : (forall m, m_net (f m) = m_net m) -> safe (Stack.update f) (fun _ => True).
Proof. intros Hf. apply safe_world. intros m Hm. cbn. by rewrite Hf. Qed.

Lemma safe_machine {A} (f : Machine -> A) : safe (Stack.machine f) (fun _ => True).
Proof. by apply safe_world. Qed.

Lemma safe_net {A} (c : M A) :
  (forall n, ip_up (LawfulIp := L) n -> match c n with Some (_, n') => ip_up (LawfulIp := L) n' | None => ip_hangs (LawfulIp := L) end) ->
  safe (Stack.net c) (fun _ => True).
Proof.
  intros Hc. apply safe_world. intros m Hm. specialize (Hc (m_net m) Hm). unfold on_net. by destruct (c (m_net m)) as [[a n]|].
Qed.

End lift.

(** A machine in any state, and one whose cards nobody holds. *)
Definition machine_any : LawfulIp Machine := lift nic_any.
Definition machine_free : LawfulIp Machine := lift nic_free.

Definition machine_any_udp : LawfulUdp (LawfulIp0 := machine_any) Machine.
Proof.
  constructor. intros idx sport dport src dst data m Hm. cbn. unfold on_net.
  destruct (Nic.udp_send _ _ _ _ _ _ _) as [[b n]|] eqn:E; [|done]. by eapply leads_ifaces_ok; [apply NicProofs.udp_send_ifaces|..].
Defined.

Definition machine_free_udp : LawfulUdp (LawfulIp0 := machine_free) Machine.
Proof.
  constructor. intros idx sport dport src dst data m [Hm Hf]. cbn. unfold on_net.
  destruct (NicProofs.free_udp_send idx sport dport src dst data (m_net m) Hf) as (b & n & E & Hf'). rewrite E.
  split; [by eapply leads_ifaces_ok; [apply NicProofs.udp_send_ifaces|..]|done].
Defined.

(** *** Polling, in any state *)

#[local] Existing Instance NicProofs.keeps_ifaces_preorder.

Record inputs_ok (inp : Inputs) : Prop := {
  io_rx : forall k, Forall bytes_ok (in_rx inp k);
  io_entropy : forall k j, entropy_ok (in_entropy inp k j);
}.

Section any.
#[local] Existing Instance machine_any.
#[local] Existing Instance machine_any_udp.

Lemma any_net {A} (c : M A) : NicProofs.leads NicProofs.keeps_ifaces c -> safe (Stack.net c) (fun _ => True).
Proof.
  intros Hc. apply safe_net. intros n Hn. destruct (c n) as [[a n']|] eqn:E; [|done]. by eapply leads_ifaces_ok.
Qed.

Context (inp : Inputs) (Hinp : inputs_ok inp).

Lemma serve_ifaces clk idx packet t : NicProofs.leads NicProofs.keeps_ifaces (Server.handle_receive clk idx packet t).
Proof.
  unfold Server.handle_receive, Server.on_discover, Server.on_request.
  NicProofs.split_comp (@NicProofs.leads_bind);
    first [ exact NicProofs.keeps_ifaces_preorder | apply NicProofs.leads_ret; apply _ | apply NicProofs.leads_get; apply _
          | apply (NicProofs.unmoved_send_frame NicProofs.keeps_ifaces); by repeat intro ].
Qed.

Lemma upcall_safe k j u : upcall_ok u -> safe (Stack.upcall inp k j u) (fun _ => True).
Proof.
  intros Hu. destruct u as [idx src dst segment|idx src packet|idx src packet|idx src packet|port src sport packet]; cbn [Stack.upcall].
  - destruct Hu as (H1 & H2 & H3). eapply safe_bind; [|intros b _; by apply safe_ret].
    apply (safe_tcp _ (fun _ => True)); [|done]. apply handle_receive_spec; try done. apply Hinp.
  - eapply safe_bind; [apply safe_machine|]. intros t _. eapply safe_bind; [apply any_net, serve_ifaces|]. intros r _. by apply safe_update.
  - by apply safe_update.
  - by apply safe_update.
  - eapply safe_bind; [apply udp_enqueue_safe|]. intros b _. by apply safe_ret.
Qed.

Lemma upcalls_safe k j us : Forall upcall_ok us -> safe (Stack.upcalls inp k j us) (fun _ => True).
Proof.
  induction 1 as [|u us Hu _ IH]; cbn [Stack.upcalls]; [by apply safe_ret|]. eapply safe_bind; [by apply upcall_safe|]. by intros _ _.
Qed.

Lemma handle_packet_safe k j r data : bytes_ok data -> safe (Stack.handle_packet inp k j r data) (fun _ => True).
Proof.
  intros Hd s Hw Hs. pose proof (any_net _ (NicProofs.rtl_handle_packet_ifaces r data) s Hw Hs) as H.
  unfold Stack.handle_packet. unfold mbind, Sk_bind, Stack.machine, Stack.net, Stack.on_world, Sockets.on_tcp in *. cbn in *. unfold on_net in *.
  destruct (Nic.rtl_handle_packet r data _) as [[[] n']|] eqn:E; [|done]. cbn in *. destruct H as (H1 & H2 & _).
  apply upcalls_safe; [|done|done]. apply news_ok. by eapply rtl_hands_over.
Qed.

Lemma process_rx_safe k j r frames : Forall bytes_ok frames -> safe (Stack.process_rx inp k j r frames) (fun _ => True).
Proof.
  intros Hf. revert j. induction Hf as [|f frames Hf _ IH]; intros j; cbn [Stack.process_rx]; [by apply safe_ret|].
  eapply safe_bind; [by apply handle_packet_safe|]. by intros _ _.
Qed.

Lemma net_poll_any : safe (Stack.net_poll inp) (fun _ => True).
Proof.
  unfold Stack.net_poll. eapply safe_bind; [apply safe_machine|]. intros k _. eapply safe_bind; [by apply safe_update|]. intros _ _.
  eapply safe_bind; [apply any_net; by apply NicProofs.unmoved_lock_rtl|]. intros _ _.
  eapply safe_bind; [apply any_net, NicProofs.leads_get; apply _|]. intros r _.
  eapply (safe_bind _ (fun _ => True)).
  { destruct r; [|by apply safe_ret]. apply process_rx_safe, Forall_take, Hinp. }
  intros _ _. eapply safe_bind; [apply any_net; by apply NicProofs.unmoved_unlock_rtl|]. intros _ _.
  eapply safe_bind; [|intros b _; by apply safe_ret]. apply safe_net. intros n Hn.
  set (f := fun v => _). destruct (virtio n) as [v|] eqn:Ev.
  - rewrite NicProofs.virtio_with_nic_hangs; [done|by rewrite Ev|]. intros v' n1 Hl. unfold f. rewrite NicProofs.bind_eq.
    by rewrite NicProofs.virtio_poll_hangs.
  - unfold Nic.virtio_with_nic. rewrite NicProofs.bind_eq. unfold lock_net. destruct (net_lock n); [done|].
    rewrite NicProofs.bind_eq. cbn. by rewrite Ev.
Qed.
End any.

(** *** Polling, when nobody holds a card *)

Definition machine_of (s : SockSys Machine) : Machine := world (tcp s).
Definition with_machine (m : Machine) (s : SockSys Machine) : SockSys Machine :=
  {| sockets := sockets s; next_ephemeral := next_ephemeral s; tcp := {| conns := conns (tcp s); world := m |} |}.

Lemma net_poll_quiet inp s :
  NicProofs.card_free (m_net (machine_of s)) -> in_rx inp (m_polls (machine_of s)) = [] ->
  Stack.net_poll inp s = Some (tt, with_machine (count_poll (machine_of s)) s).
Proof.
  destruct s as [ss e [cs [n t d dn k]]]. unfold machine_of. cbn [tcp world m_net m_polls]. intros (H1 & H2 & H3) Hrx. destruct n. cbn in H1, H2, H3. subst.
  unfold Stack.net_poll. cbv [mbind Sk_bind Stack.machine Stack.update Stack.net Stack.on_world Sockets.on_tcp on_net]. cbn.
  destruct rtl as [r|]; cbn; [rewrite Hrx|]; reflexivity.
Qed.

Lemma update_eq f s : Stack.update f s = Some (tt, with_machine (f (machine_of s)) s).
Proof. done. Qed.

Lemma machine_eq {A} (f : Machine -> A) s : Stack.machine f s = Some (f (machine_of s), s).
Proof. by destruct s as [? ? []]. Qed.

Lemma net_eq {A} (c : M A) s :
  Stack.net c s = match c (m_net (machine_of s)) with Some (a, n) => Some (a, with_machine (with_net n (machine_of s)) s) | None => None end.
Proof.
  unfold Stack.net, Stack.on_world, Sockets.on_tcp, on_net, machine_of. by destruct (c (m_net (world (tcp s)))) as [[a n]|].
Qed.

(** One frame, and a poll of a card that nobody holds. *)
Lemma handle_packet_eq inp k j r data s :
  Stack.handle_packet inp k j r data s =
  match Nic.rtl_handle_packet r data (m_net (machine_of s)) with
  | Some (_, n') => Stack.upcalls inp k j (Stack.news (m_net (machine_of s)) n') (with_machine (with_net n' (machine_of s)) s)
  | None => None
  end.
Proof.
  unfold Stack.handle_packet. cbv [mbind Sk_bind Stack.machine Stack.net Stack.on_world Sockets.on_tcp on_net machine_of].
  cbn [fmap option_fmap option_map fst snd tcp world]. by destruct (Nic.rtl_handle_packet r data (m_net (world (tcp s)))) as [[[] n']|].
Qed.

(** The end of a poll. *)
Definition poll_end : Sk Machine unit :=
  Stack.net unlock_rtl ≫= fun _ =>
  Stack.net (Nic.virtio_with_nic (fun v => Nic.virtio_poll ≫= fun _ => Nic.virtio_loop (S (length (v_rx v))) v 0)) ≫= fun _ => mret tt.

Lemma net_poll_eq inp s r :
  rtl_lock (m_net (machine_of s)) = false -> rtl (m_net (machine_of s)) = Some r ->
  Stack.net_poll inp s =
  (Stack.process_rx inp (m_polls (machine_of s)) 0 r (take 256 (in_rx inp (m_polls (machine_of s)))) ≫= fun _ => poll_end)
    (with_machine (with_net (set_locks true (net_lock (m_net (machine_of s))) (m_net (machine_of s))) (count_poll (machine_of s))) s).
Proof.
  intros Hl Hr. unfold Stack.net_poll, poll_end. cbv [mbind Sk_bind Stack.machine Stack.update Stack.net Stack.on_world Sockets.on_tcp on_net machine_of] in *.
  cbn [fmap option_fmap option_map fst snd tcp world]. unfold lock_rtl. cbn [m_net count_poll]. rewrite Hl. cbn. by rewrite Hr.
Qed.

Lemma poll_end_free s :
  net_lock (m_net (machine_of s)) = false -> virtio (m_net (machine_of s)) = None ->
  poll_end s = Some (tt, with_machine (with_net (set_locks false false (m_net (machine_of s))) (machine_of s)) s).
Proof.
  destruct s as [ss e [cs [n t d dn k]]]. unfold machine_of. cbn [tcp world m_net]. intros Hl Hv. destruct n. cbn in Hl, Hv. by subst.
Qed.

Section free.
#[local] Existing Instance machine_free.
#[local] Existing Instance machine_free_udp.

Lemma net_poll_free inp : (forall k, in_rx inp k = []) -> safe (Stack.net_poll inp) (fun _ => True).
Proof. intros Hrx s [Hi Hf] Hs. by rewrite net_poll_quiet. Qed.

End free.

Definition is_poll (c : SockCall) : bool := match c with CPoll _ _ => true | _ => false end.

Lemma sock_calls_no_poll (p q : Sk Machine unit) cs s : Forall (fun c => is_poll c = false) cs -> sock_calls p cs s = sock_calls q cs s.
Proof.
  intros Hc. revert s. induction Hc as [|c cs Hc _ IH]; intros s; [done|]. cbn [sock_calls]. unfold mbind, Sk_bind.
  replace (sock_call p c s) with (sock_call q c s) by (by destruct c). destruct (sock_call q c s) as [[[] s1]|]; [apply IH|done].
Qed.

(** A machine with an RTL8139, and a datagram for port 5000 of it. *)
Definition demo_machine : Machine :=
  {| m_net := NicProofs.boot (Some NicProofs.demo_rtl) None; m_leases := Server.init; m_dhcp := Client.init; m_dns := Dns.init; m_polls := 0 |}.
Definition demo_datagram : bytes :=
  WireProofs.eth_header (rtl_mac NicProofs.demo_rtl) [0x52; 0x55; 10; 0; 2; 2] ETH_IPV4 ++
  default [] (Ipv4.raw_packet server_ip client_ip PROTO_UDP (default [] (Udp.datagram 4000 5000 [104; 105]))).
Definition demo_inputs (rx : nat -> list bytes) : Inputs :=
  {| in_rx := rx; in_entropy _ _ := demo_entropy; in_clock _ _ _ := 1000 |}.

Lemma demo_ifaces : ifaces_ok (m_net demo_machine).
Proof. intros [|[|i]] f [= <-]; (split; [done|by repeat constructor]). Qed.

Module StackProofs.



End StackProofs.
