(* ===== verification/DhcpStart.v ===== *)
(** The DHCP client at work: [dhcp_start] of dhcp.rs over the machine of NetStack.v.

    The loop polls the cards, so every protocol handler may run in it.  The calls of [yield_now] in it are left out: what other
    tasks do to the network in between is not part of this model.  The theorems say when the
    client gets its address, when it gives up, when it runs forever, and what a DISCOVER does to a machine. *)

From S2P Require Import Prelude Bytes Wire NetTables Nic Tcp TcpProofs TcpNic Socket SocketProofs NetStack Dhcp.

Inductive Outcome :=
| Returned (b : bool) (s : SockSys Machine)
| Hung                                         (** spins on a lock *)
| Running (s : SockSys Machine).               (** not done within the given number of turns *)

Module Start.

Definition start_xid (mac : bytes) : Z :=
  let le := byte_at mac 0 + byte_at mac 1 * 2 ^ 8 + byte_at mac 2 * 2 ^ 16 + byte_at mac 3 * 2 ^ 24 in
  ((le * 0x01000001) mod 2 ^ 32 + 0xDEAD0001) mod 2 ^ 32.

Section Start.
Context (inp : Inputs).

(** The call of [dhcp_handle_response] in the wait loop. *)
Definition respond (idx : nat) : Sk Machine unit :=
  Stack.machine (fun m => Nic.get_iface idx (m_net m)) ≫= fun o =>
  match o with
  | Some f =>
      Stack.update (fun m =>
        let '(_, d, n) := Client.dhcp_handle_response (if_mac f) (m_dhcp m) (m_net m) in with_net n (with_dhcp d m))
  | None => mret tt
  end.

(** The wait loop, with [k] turns to go. *)
Fixpoint wait (k : nat) (idx : nat) : Sk Machine unit :=
  match k with
  | O => mret tt
  | S k =>
      Stack.net_poll inp ≫= fun _ =>
      Stack.machine (fun m => resp_ready (m_dhcp m)) ≫= fun ready =>
      (if ready : bool then respond idx else mret tt) ≫= fun _ =>
      Stack.machine (fun m => state (m_dhcp m)) ≫= fun st =>
      if bool_decide (st = Bound) || bool_decide (st = Idle) then mret tt else wait k idx
  end.

Definition send_dhcp_udp (idx : nat) (msg src dst : bytes) : Sk Machine bool :=
  Stack.net (Nic.send_broadcast_packet idx (dhcp_packet DHCP_CLIENT_PORT DHCP_SERVER_PORT msg src dst)).

(** The message the loop sends in [Discovering] or [Requesting]. *)
Definition next_msg (x : Z) (mac : bytes) (d : DhcpInner) : bytes :=
  if bool_decide (state d = Discovering)
  then Client.build_dhcp_msg OP_REQUEST x [0; 0; 0; 0] mac MSG_DISCOVER None None
  else Client.build_dhcp_msg OP_REQUEST x (offered_ip d) mac MSG_REQUEST (Some (server_id d)) (Some (offered_ip d)).

Definition max_retries : nat := 3.
Definition timeout_ticks : nat := 50.

Fixpoint start_loop (turns : nat) (idx retries : nat) (x : Z) (mac : bytes) (s : SockSys Machine) : Outcome :=
  match turns with
  | O => Running s
  | S turns =>
      let d := m_dhcp (machine_of s) in
      match state d with
      | Bound => Returned true s
      | Idle => Returned false s
      | _ =>
          let is_discover := bool_decide (state d = Discovering) in
          if (max_retries <=? retries)%nat && is_discover
          then Returned false (with_machine (with_dhcp (Client.with_state Idle d) (machine_of s)) s)
          else
            match (send_dhcp_udp idx (next_msg x mac d) [0; 0; 0; 0] [255; 255; 255; 255] ≫= fun _ => wait timeout_ticks idx) s with
            | None => Hung
            | Some (_, s) => start_loop turns idx (S retries) x mac s
            end
      end
  end.

Definition dhcp_start (turns : nat) (idx : nat) (s : SockSys Machine) : Outcome :=
  let s := with_machine (with_dhcp (Client.with_ready false (Client.with_state Idle (m_dhcp (machine_of s)))) (machine_of s)) s in
  match Nic.get_iface idx (m_net (machine_of s)) with
  | None => Returned false s
  | Some f =>
      let mac := if_mac f in
      let x := start_xid mac in
      let d := Client.with_state Discovering (Client.with_xid x (m_dhcp (machine_of s))) in
      start_loop turns idx 0 x mac (with_machine (with_dhcp d (machine_of s)) s)
  end.

End Start.
End Start.

(** ** Frames of DHCP *)

Module StartProofs.
Import Start Nic NicProofs WireProofs.

(** Either [send_dhcp_udp] builds what [udp::send] and [ipv4::send] would. *)
Lemma dhcp_packet_eq sport dport msg src dst d :
  length msg = 548%nat -> Udp.datagram sport dport msg = Some d ->
  Ipv4.raw_packet src dst PROTO_UDP d = Some (dhcp_packet sport dport msg src dst).
Proof.
  intros Hm Hd. assert (length d = 556%nat) as Hl.
  { pose proof (datagram_eq sport dport msg ltac:(lia)) as E. cbv zeta in E. rewrite Hd in E. apply (inj Some) in E.
    rewrite E, !length_app, Hm. reflexivity. }
  unfold Udp.datagram in Hd. rewrite Hm in Hd. change (1500 <? 8 + 548)%nat with false in Hd. cbv iota in Hd. apply (inj Some) in Hd.
  unfold Ipv4.raw_packet. rewrite Hl. change (1500 <? 20 + 556)%nat with false. cbv iota.
  change (splice 1 [0] (splice 0 [0x45] (replicate 1500 0))) with (splice 0 [0x45] (replicate 1500 0)).
  unfold dhcp_packet. cbv zeta in *. rewrite Hd. reflexivity.
Qed.

(** A message as the card sees it. *)
Definition dhcp_frame (sport dport : Z) (smac msg src : bytes) : bytes :=
  frame_of (replicate 6 0xFF) smac (dhcp_packet sport dport msg src [255; 255; 255; 255]).

(** The receive path on a broadcast message: it goes to the handler of UDP. *)
Lemma rtl_handle_dhcp r sport dport smac msg src n d :
  length smac = 6%nat -> length msg = 548%nat -> is_ip src -> is_u16 sport -> is_u16 dport -> Udp.datagram sport dport msg = Some d ->
  rtl_handle_packet r (dhcp_frame sport dport smac msg src) n = udp_handle_receive 1 src [255; 255; 255; 255] d n.
Proof.
  intros Hsm Hm [Hs Hso] Hsp Hdp Hd. pose proof (dhcp_packet_eq sport dport msg src [255; 255; 255; 255] d Hm Hd) as Ep.
  destruct (datagram_parses sport dport msg) as (d' & _ & Ed' & _ & _ & _ & _ & Hdl); [done|done|lia|].
  rewrite Hd in Ed'. apply (inj Some) in Ed' as <-.
  destruct (raw_packet_parses src [255; 255; 255; 255] PROTO_UDP d) as (pkt & h & Ep' & Hip & Hhs & Hhd & Hpr & _ & Hpl & _);
    [done|done|done|by repeat constructor|done|lia|]. rewrite Ep in Ep'. apply (inj Some) in Ep'. subst pkt.
  unfold dhcp_frame. rewrite frame_of_eq by (done || lia). unfold rtl_handle_packet.
  set (pkt := dhcp_packet _ _ _ _ _) in *. set (pad := replicate _ 0).
  destruct (Nat.ltb_spec (length (eth_header (replicate 6 255) smac ETH_IPV4 ++ pkt ++ pad)) 14) as [Hlt|_];
    [exfalso; unfold eth_header in Hlt; rewrite !length_app in Hlt; simpl in Hlt; lia|].
  rewrite parse_eth_header by done. cbn [ether_type].
  change (ETH_IPV4 =? ETH_ARP) with false. change (ETH_IPV4 =? ETH_IPV4) with true. cbv iota.
  rewrite Hip, Hhd, Hpr, Hhs, bytes_eqb_refl, andb_false_r. done.
Qed.

(** A datagram without a checksum to the port of the DHCP client, and to that of the server. *)
Lemma udp_to_client idx src dst msg d n : (length msg <= 1492)%nat -> Udp.datagram DHCP_SERVER_PORT DHCP_CLIENT_PORT msg = Some d ->
  udp_handle_receive idx src dst d n = Some (tt, push_up (DhcpUp idx src d) n).
Proof.
  intros Hm Hd. destruct (datagram_parses DHCP_SERVER_PORT DHCP_CLIENT_PORT msg) as (d' & h & Ed' & Hp & Hsp & Hdp & Hc & Hdl); [done|done|done|].
  rewrite Hd in Ed'. apply (inj Some) in Ed' as <-. pose proof (Hp []) as Hp0. rewrite app_nil_r in Hp0.
  unfold udp_handle_receive. destruct (Nat.ltb_spec (length d) 8); [lia|]. by rewrite Hp0, Hc, Hdp.
Qed.

Lemma udp_to_server idx src dst msg d n : (length msg <= 1492)%nat -> Udp.datagram DHCP_CLIENT_PORT DHCP_SERVER_PORT msg = Some d ->
  udp_handle_receive idx src dst d n = Some (tt, push_up (DhcpServerUp idx src d) n).
Proof.
  intros Hm Hd. destruct (datagram_parses DHCP_CLIENT_PORT DHCP_SERVER_PORT msg) as (d' & h & Ed' & Hp & Hsp & Hdp & Hc & Hdl); [done|done|done|].
  rewrite Hd in Ed'. apply (inj Some) in Ed' as <-. pose proof (Hp []) as Hp0. rewrite app_nil_r in Hp0.
  unfold udp_handle_receive. destruct (Nat.ltb_spec (length d) 8); [lia|]. by rewrite Hp0, Hc, Hdp.
Qed.

(** ** One poll *)

(** A network that can send through an RTL8139. *)
Record can_send (idx : nat) (f : NetworkInterface) (n : Net) : Prop := {
  cs_rtl : exists r, rtl n = Some r /\ rtl_dma_ok r = true;
  cs_free : card_free n;
  cs_iface : get_iface idx n = Some f;
  cs_real : nic_type f <> Loopback /\ idx <> 0%nat /\ length (if_mac f) = 6%nat;
}.

Lemma can_send_wire idx f n t x : can_send idx f n -> can_send idx f (push_wire t x n).
Proof. by intros []. Qed.

Lemma can_send_up idx f n u : can_send idx f n -> can_send idx f (push_up u n).
Proof. by intros []. Qed.

(** The machine of the state has made [k] polls, its client is in state [d] and its card has sent [w]. *)
Record at_ (idx : nat) (f : NetworkInterface) (k : nat) (d : DhcpInner) (w : list (NicType * bytes)) (s : SockSys Machine) : Prop := {
  at_polls : m_polls (machine_of s) = k;
  at_dhcp : m_dhcp (machine_of s) = d;
  at_wire : wire (m_net (machine_of s)) = w;
  at_send : can_send idx f (m_net (machine_of s));
}.

Section poll.
Context (inp : Inputs).

Lemma news_push n n' u : up n' = up n -> Stack.news n (push_up u n') = [u].
Proof. intros E. unfold Stack.news. cbn [up push_up length]. rewrite E. by replace (S (length (up n)) - length (up n))%nat with 1%nat by lia. Qed.

(** A poll that finds one frame for the DHCP client. *)
Lemma net_poll_reply s r msg smac src d :
  card_free (m_net (machine_of s)) -> rtl (m_net (machine_of s)) = Some r ->
  length smac = 6%nat -> length msg = 548%nat -> is_ip src -> Udp.datagram DHCP_SERVER_PORT DHCP_CLIENT_PORT msg = Some d ->
  in_rx inp (m_polls (machine_of s)) = [dhcp_frame DHCP_SERVER_PORT DHCP_CLIENT_PORT smac msg src] ->
  Stack.net_poll inp s = Some (tt, with_machine (with_dhcp (Client.handle_receive d (m_dhcp (machine_of s))).2
    (with_net (push_up (DhcpUp 1 src d) (m_net (machine_of s))) (count_poll (machine_of s)))) s).
Proof.
  intros (H1 & H2 & H3) Hr Hsm Hm Hs Hd Hrx. rewrite (net_poll_eq inp s r), Hrx by done. cbn [firstn Stack.process_rx].
  unfold mbind, Sk_bind. rewrite handle_packet_eq, (rtl_handle_dhcp r _ _ smac msg src _ d), (udp_to_client 1 src _ msg d) by (done || lia).
  rewrite news_push by done. cbn [Stack.upcalls Stack.upcall]. unfold mbind, Sk_bind, mret, Sk_ret.
  rewrite update_eq, poll_end_free by done.
  destruct s as [ss e [cs [n t dh dn k]]]. unfold machine_of in *. cbn [tcp world m_net] in *. destruct n. cbn in H1, H2, H3. by subst.
Qed.

(** ** The wait loop *)

Definition waits (k idx : nat) (s : SockSys Machine) : option (unit * SockSys Machine) :=
  let st := state (m_dhcp (machine_of s)) in
  if bool_decide (st = Bound) || bool_decide (st = Idle) then Some (tt, s) else wait inp k idx s.

Lemma wait_step k idx s s1 : Stack.net_poll inp s = Some (tt, s1) ->
  wait inp (S k) idx s =
  if resp_ready (m_dhcp (machine_of s1)) then
    match get_iface idx (m_net (machine_of s1)) with
    | Some f =>
        let '(_, d, n) := Client.dhcp_handle_response (if_mac f) (m_dhcp (machine_of s1)) (m_net (machine_of s1)) in
        waits k idx (with_machine (with_net n (with_dhcp d (machine_of s1))) s1)
    | None => waits k idx s1
    end
  else waits k idx s1.
Proof.
  intros E. cbn [wait]. unfold mbind, Sk_bind. rewrite E, machine_eq.
  assert (forall s2, match Stack.machine (fun m => state (m_dhcp m)) s2 with
    | Some (st, s') => (if bool_decide (st = Bound) || bool_decide (st = Idle) then mret tt else wait inp k idx) s'
    | None => None end = waits k idx s2) as Hw by (intros s2; rewrite machine_eq; unfold waits; by destruct (_ || _)).
  destruct (resp_ready _); [|apply Hw]. unfold respond, mbind, Sk_bind. rewrite machine_eq.
  destruct (get_iface idx _) as [f|]; [|apply Hw]. rewrite update_eq, Hw.
  by destruct (Client.dhcp_handle_response _ _ _) as [[b d] n].
Qed.

Lemma waits_on k idx s : state (m_dhcp (machine_of s)) = Discovering \/ state (m_dhcp (machine_of s)) = Requesting -> waits k idx s = wait inp k idx s.
Proof. unfold waits. by intros [-> | ->]. Qed.

Context (idx : nat) (f : NetworkInterface).

Lemma wait_quiet j k p d w s :
  at_ idx f p d w s -> resp_ready d = false -> state d = Discovering \/ state d = Requesting ->
  (forall i, (i < j)%nat -> in_rx inp (p + i) = []) ->
  exists s', wait inp (j + k) idx s = wait inp k idx s' /\ at_ idx f (p + j) d w s'.
Proof.
  revert p s. induction j as [|j IH]; intros p s Ha Hr Hs Hrx; [exists s; split; [done|by rewrite Nat.add_0_r]|].
  destruct Ha as [<- <- <- Hc]. pose proof (Hrx 0%nat ltac:(lia)) as H0. rewrite Nat.add_0_r in H0.
  pose proof (wait_step (j + k) idx s _ (net_poll_quiet inp s (cs_free _ _ _ Hc) H0)) as E.
  change (m_dhcp (machine_of (with_machine (count_poll (machine_of s)) s))) with (m_dhcp (machine_of s)) in E. rewrite Hr, waits_on in E by done.
  cbn [Nat.add]. rewrite E. destruct (IH (S (m_polls (machine_of s))) (with_machine (count_poll (machine_of s)) s)) as (s' & E' & Ha'); [by split|done|done| |].
  { intros i Hi. rewrite <- (Hrx (S i)) by lia. f_equal. lia. }
  exists s'. split; [done|]. by replace (m_polls (machine_of s) + S j)%nat with (S (m_polls (machine_of s)) + j)%nat by lia.
Qed.

(** A poll that finds a reply to the client's message, and what the client makes of it. *)
Lemma wait_reply k p d w s r msrc src ip srv mask gw ty secs :
  at_ idx f p d w s -> ClientProofs.reply_for r (if_mac f) ip srv mask gw (xid d) ty secs -> length msrc = 6%nat -> is_ip src ->
  in_rx inp p = [dhcp_frame DHCP_SERVER_PORT DHCP_CLIENT_PORT msrc r src] ->
  exists n', can_send idx f n' /\ wire n' = w /\ routes n' = routes (m_net (machine_of s)) /\
    forall b d' n'', Client.dhcp_handle_response (if_mac f) (Client.with_resp r d) n' = (b, d', n'') ->
    wait inp (S k) idx s = waits k idx (with_machine (with_net n'' (with_dhcp d' (count_poll (machine_of s)))) s).
Proof.
  intros [<- <- <- Hc] Hr Hm Hs Hrx. destruct (cs_rtl _ _ _ Hc) as (rt & Hrt & _). pose proof (ClientProofs.rp_len _ _ _ _ _ _ _ _ _ Hr) as Hlen.
  destruct (datagram_parses DHCP_SERVER_PORT DHCP_CLIENT_PORT r) as (dg & _ & Ed & _); [done|done|lia|].
  pose proof (net_poll_reply s rt r msrc src dg (cs_free _ _ _ Hc) Hrt Hm Hlen Hs Ed Hrx) as E.
  rewrite (ClientProofs.handle_receive_reply r (if_mac f) ip srv mask gw (xid (m_dhcp (machine_of s))) ty secs _ dg Hr eq_refl Ed) in E.
  exists (push_up (DhcpUp 1 src dg) (m_net (machine_of s))). split; [by apply can_send_up|]. split; [done|]. split; [done|].
  intros b d' n'' Hd. rewrite (wait_step k idx s _ E). cbn [snd machine_of with_machine tcp world m_dhcp with_dhcp Client.with_resp resp_ready m_net with_net].
  pose proof (cs_iface _ _ _ Hc) as Hf. change (get_iface idx (push_up ?u ?n)) with (get_iface idx n). unfold machine_of in *. cbn [tcp world with_machine] in *.
  rewrite Hf. rewrite Hd. done.
Qed.

(** ** The turns of dhcp_start *)

(** The frame that carries a message of the client. *)
Definition client_frame (msg : bytes) : bytes := dhcp_frame DHCP_CLIENT_PORT DHCP_SERVER_PORT (if_mac f) msg [0; 0; 0; 0].

Lemma send_at p d w s msg : at_ idx f p d w s -> length msg = 548%nat ->
  exists s', send_dhcp_udp idx msg [0; 0; 0; 0] [255; 255; 255; 255] s = Some (true, s') /\ at_ idx f p d ((Rtl8139, client_frame msg) :: w) s'.
Proof.
  intros [<- <- <- Hc] Hlen. pose proof Hc as [[r [Hr Hok]] (Hl & _ & _) Hf (Hlo & Hi & Hm)].
  unfold send_dhcp_udp. rewrite net_eq. unfold send_broadcast_packet. rewrite bind_eq. unfold Nic.get. rewrite Hf.
  rewrite bool_decide_false by done. rewrite ServerProofs.length_dhcp_packet by done.
  change (576 <? 20)%nat with false. change (1514 <? 14 + 576)%nat with false. cbv iota.
  rewrite (send_frame_rtl idx _ _ r); [|done..|apply length_frame_of; [done|done|rewrite ServerProofs.length_dhcp_packet; (done || lia)]].
  eexists. split; [reflexivity|]. split; [done|done|done|by apply can_send_wire].
Qed.

(** The client may send: it is requesting, or discovering with retries left. *)
Definition goes_on (retries : nat) (d : DhcpInner) : Prop :=
  state d = Discovering /\ (retries < max_retries)%nat \/ state d = Requesting.

Lemma goes_on_state retries d : goes_on retries d -> state d = Discovering \/ state d = Requesting.
Proof. by intros [[? _]|?]; [left|right]. Qed.

Lemma start_step turns retries x mac p d w s : at_ idx f p d w s -> goes_on retries d -> length (next_msg x mac d) = 548%nat ->
  exists s1, at_ idx f p d ((Rtl8139, client_frame (next_msg x mac d)) :: w) s1 /\
    start_loop inp (S turns) idx retries x mac s =
    match wait inp timeout_ticks idx s1 with Some (_, s') => start_loop inp turns idx (S retries) x mac s' | None => Hung end.
Proof.
  intros Ha Hg Hlen. destruct (send_at p d w s _ Ha Hlen) as (s1 & E & Ha1). exists s1. split; [done|]. cbn [start_loop].
  rewrite (at_dhcp _ _ _ _ _ _ Ha). unfold mbind, Sk_bind. rewrite E.
  assert ((max_retries <=? retries)%nat && bool_decide (state d = Discovering) = false) as ->.
  { destruct Hg as [[_ Hlt]| ->]; [|by rewrite andb_false_r]. by destruct (Nat.leb_spec max_retries retries); [lia|]. }
  by destruct Hg as [[-> _]| ->].
Qed.

Lemma turns_quiet m turns retries x mac p d w s :
  at_ idx f p d w s -> resp_ready d = false -> (forall i, (i < m)%nat -> goes_on (retries + i) d) -> length (next_msg x mac d) = 548%nat ->
  (forall i, (i < m * timeout_ticks)%nat -> in_rx inp (p + i) = []) ->
  exists s', start_loop inp (m + turns) idx retries x mac s = start_loop inp turns idx (retries + m) x mac s' /\
    at_ idx f (p + m * timeout_ticks) d (replicate m (Rtl8139, client_frame (next_msg x mac d)) ++ w) s'.
Proof.
  revert retries p w s. induction m as [|m IH]; intros retries p w s Ha Hr Hg Hlen Hrx.
  { exists s. cbn. by rewrite !Nat.add_0_r. }
  pose proof (Hg 0%nat ltac:(lia)) as Hg0. rewrite Nat.add_0_r in Hg0.
  destruct (start_step (m + turns) retries x mac p d w s Ha Hg0 Hlen) as (s1 & Ha1 & E).
  destruct (wait_quiet timeout_ticks 0 p d _ s1 Ha1 Hr (goes_on_state _ _ Hg0)) as (s2 & E2 & Ha2); [intros i Hi; apply Hrx; rewrite Nat.mul_succ_l; lia|].
  rewrite Nat.add_0_r in E2. cbn [Nat.add]. rewrite E, E2. cbn [wait mret Sk_ret].
  destruct (IH (S retries) (p + timeout_ticks)%nat _ s2 Ha2 Hr) as (s3 & E3 & Ha3); [|done| |].
  - intros i Hi. pose proof (Hg (S i) ltac:(lia)) as H. by replace (S retries + i)%nat with (retries + S i)%nat by lia.
  - intros i Hi. rewrite <- Nat.add_assoc. apply Hrx. rewrite Nat.mul_succ_l. lia.
  - exists s3. split; [rewrite E3; by replace (S retries + m)%nat with (retries + S m)%nat by lia|].
    replace (p + S m * timeout_ticks)%nat with (p + timeout_ticks + m * timeout_ticks)%nat by (rewrite Nat.mul_succ_l; lia).
    rewrite replicate_S_end, <- app_assoc. done.
Qed.

(** The turn in which an offer arrives, at its [a]-th poll: the client waits out the turn and then requests. *)
Lemma turn_offer turns retries x mac p d w s a r msrc src ip srv mask gw secs :
  at_ idx f p d w s -> resp_ready d = false -> state d = Discovering -> (retries < max_retries)%nat -> length (next_msg x mac d) = 548%nat ->
  (a < timeout_ticks)%nat -> ClientProofs.reply_for r (if_mac f) ip srv mask gw (xid d) MSG_OFFER secs -> length msrc = 6%nat -> is_ip src ->
  in_rx inp (p + a) = [dhcp_frame DHCP_SERVER_PORT DHCP_CLIENT_PORT msrc r src] ->
  (forall i, (i < timeout_ticks)%nat -> i <> a -> in_rx inp (p + i) = []) ->
  exists s', start_loop inp (S turns) idx retries x mac s = start_loop inp turns idx (S retries) x mac s' /\
    at_ idx f (p + timeout_ticks) (Client.with_offer ip srv secs (Client.with_ready false (Client.with_resp r d)))
      ((Rtl8139, client_frame (next_msg x mac d)) :: w) s'.
Proof.
  intros Ha Hr Hd Hret Hlen Halt Hrep Hm Hs Hrx Hq.
  destruct (start_step turns retries x mac p d w s Ha ltac:(by left) Hlen) as (s1 & Ha1 & E).
  destruct (wait_quiet a (S (timeout_ticks - a - 1)) p d _ s1 Ha1 Hr ltac:(by left)) as (s2 & E2 & Ha2); [intros i Hi; apply Hq; lia|].
  replace (a + S (timeout_ticks - a - 1))%nat with timeout_ticks in E2 by lia.
  destruct (wait_reply (timeout_ticks - a - 1) _ d _ s2 r msrc src ip srv mask gw MSG_OFFER secs Ha2 Hrep Hm Hs Hrx) as (n' & Hc & Hw & _ & E3).
  pose proof (ClientProofs.response_reply r (if_mac f) ip srv mask gw (xid d) MSG_OFFER secs d n' Hrep eq_refl) as Hd'.
  cbv zeta in Hd'. change (MSG_OFFER =? MSG_OFFER) with true in Hd'. rewrite bool_decide_true in Hd' by done. cbn [negb] in Hd'.
  rewrite (E3 _ _ _ Hd'), waits_on in E2 by (by right). set (d' := Client.with_offer _ _ _ _) in *.
  destruct (wait_quiet (timeout_ticks - a - 1) 0 (S (p + a)) d' ((Rtl8139, client_frame (next_msg x mac d)) :: w)
    (with_machine (with_net n' (with_dhcp d' (count_poll (machine_of s2)))) s2)) as (s3 & E4 & Ha3).
  - split; [cbn; by rewrite (at_polls _ _ _ _ _ _ Ha2)|done|exact Hw|exact Hc].
  - done.
  - by right.
  - intros i Hi. replace (S (p + a) + i)%nat with (p + (S a + i))%nat by lia. apply Hq; lia.
  - rewrite Nat.add_0_r in E4. rewrite E, E2, E4. cbn [wait mret Sk_ret]. exists s3. split; [done|].
    by replace (p + timeout_ticks)%nat with (S (p + a) + (timeout_ticks - a - 1))%nat by lia.
Qed.

(** The turn in which the acknowledgement arrives. *)
Lemma turn_ack turns retries x mac p d w s c r msrc src ip srv mask gw secs :
  at_ idx f p d w s -> resp_ready d = false -> state d = Requesting -> length (next_msg x mac d) = 548%nat ->
  (c < timeout_ticks)%nat -> ClientProofs.reply_for r (if_mac f) ip srv mask gw (xid d) MSG_ACK secs -> length msrc = 6%nat -> is_ip src ->
  in_rx inp (p + c) = [dhcp_frame DHCP_SERVER_PORT DHCP_CLIENT_PORT msrc r src] ->
  (forall i, (i < c)%nat -> in_rx inp (p + i) = []) ->
  exists s' n', start_loop inp (S (S turns)) idx retries x mac s = Returned true s' /\
    m_polls (machine_of s') = S (p + c) /\ state (m_dhcp (machine_of s')) = Bound /\
    can_send idx f n' /\ wire n' = (Rtl8139, client_frame (next_msg x mac d)) :: w /\
    m_net (machine_of s') = ClientProofs.configured ip mask (if bytes_eqb gw [0; 0; 0; 0] then srv else gw) n'.
Proof.
  intros Ha Hr Hd Hlen Hclt Hrep Hm Hs Hrx Hq.
  destruct (start_step (S turns) retries x mac p d w s Ha ltac:(by right) Hlen) as (s1 & Ha1 & E).
  destruct (wait_quiet c (S (timeout_ticks - c - 1)) p d _ s1 Ha1 Hr ltac:(by right)) as (s2 & E2 & Ha2); [intros i Hi; by apply Hq|].
  replace (c + S (timeout_ticks - c - 1))%nat with timeout_ticks in E2 by lia.
  destruct (wait_reply (timeout_ticks - c - 1) _ d _ s2 r msrc src ip srv mask gw MSG_ACK secs Ha2 Hrep Hm Hs Hrx) as (n' & Hc & Hw & _ & E3).
  pose proof (ClientProofs.response_reply r (if_mac f) ip srv mask gw (xid d) MSG_ACK secs d n' Hrep eq_refl) as Hd'.
  cbv zeta in Hd'. change (MSG_ACK =? MSG_OFFER) with false in Hd'. change (MSG_ACK =? MSG_ACK) with true in Hd'.
  rewrite (bool_decide_true (state d = Requesting)) in Hd' by done. cbn [negb] in Hd'. rewrite (E3 _ _ _ Hd') in E2.
  eexists _, n'. split; [rewrite E, E2; unfold waits; cbn [machine_of with_machine tcp world m_dhcp with_net with_dhcp Client.with_state state]; reflexivity|].
  split; [cbn; by rewrite (at_polls _ _ _ _ _ _ Ha2)|]. done.
Qed.

End poll.
(** ** What dhcp_start does *)

Definition discover_msg (mac : bytes) : bytes := Client.build_dhcp_msg OP_REQUEST (start_xid mac) [0; 0; 0; 0] mac MSG_DISCOVER None None.
Definition request_msg (mac ip srv : bytes) : bytes := Client.build_dhcp_msg OP_REQUEST (start_xid mac) ip mac MSG_REQUEST (Some srv) (Some ip).

Lemma start_xid_ok mac : is_u32 (start_xid mac).
Proof. apply Z.mod_pos_bound. done. Qed.

Lemma discover_length mac : length mac = 6%nat -> length (discover_msg mac) = 548%nat.
Proof. intros Hm. apply (ClientProofs.rf_len _ _ _ _ _ (ClientProofs.discover_request (start_xid mac) mac Hm)). Qed.

Lemma request_length mac ip srv : length mac = 6%nat -> length ip = 4%nat -> length srv = 4%nat -> length (request_msg mac ip srv) = 548%nat.
Proof. intros Hm Hi Hs. apply (ClientProofs.rf_len _ _ _ _ _ (ClientProofs.request_request (start_xid mac) mac ip srv Hm Hi Hs)). Qed.

(** The state the loop of [dhcp_start] begins in. *)
Lemma dhcp_start_begins inp turns idx f s :
  can_send idx f (m_net (machine_of s)) ->
  exists d s0, dhcp_start inp turns idx s = start_loop inp turns idx 0 (start_xid (if_mac f)) (if_mac f) s0 /\
    at_ idx f (m_polls (machine_of s)) d (wire (m_net (machine_of s))) s0 /\
    state d = Discovering /\ xid d = start_xid (if_mac f) /\ resp_ready d = false /\
    next_msg (start_xid (if_mac f)) (if_mac f) d = discover_msg (if_mac f).
Proof.
  intros Hc. eexists _, _. split; [unfold dhcp_start; cbn [machine_of with_machine tcp world m_net with_dhcp m_dhcp];
    fold (machine_of s); rewrite (cs_iface _ _ _ Hc); reflexivity|]. split; [by split|]. done.
Qed.

(** The loop from the discovering client to the bound one: [m1] turns without an answer, the offer at poll [a] of the next
    one, [m2] turns without an answer, the acknowledgement at poll [c] of the next one. *)
Lemma client_run inp f p d w s0 turns m1 a m2 c x r1 r2 smac src ip srv mask gw secs :
  let mac := if_mac f in
  at_ 1 f p d w s0 -> state d = Discovering -> xid d = x -> resp_ready d = false ->
  length (next_msg x mac d) = 548%nat -> length (Client.build_dhcp_msg OP_REQUEST x ip mac MSG_REQUEST (Some srv) (Some ip)) = 548%nat ->
  ClientProofs.reply_for r1 mac ip srv mask gw x MSG_OFFER secs -> ClientProofs.reply_for r2 mac ip srv mask gw x MSG_ACK secs ->
  length smac = 6%nat -> is_ip src -> (m1 < 3)%nat -> (a < 50)%nat -> (c < 50)%nat ->
  in_rx inp (p + (m1 * 50 + a)) = [dhcp_frame DHCP_SERVER_PORT DHCP_CLIENT_PORT smac r1 src] ->
  in_rx inp (p + ((m1 + 1 + m2) * 50 + c)) = [dhcp_frame DHCP_SERVER_PORT DHCP_CLIENT_PORT smac r2 src] ->
  (forall i, (i < (m1 + 1 + m2) * 50 + c)%nat -> i <> (m1 * 50 + a)%nat -> in_rx inp (p + i) = []) ->
  exists s' n', start_loop inp (m1 + S (m2 + S (S turns))) 1 0 x mac s0 = Returned true s' /\
    m_polls (machine_of s') = S (p + ((m1 + 1 + m2) * 50 + c)) /\ state (m_dhcp (machine_of s')) = Bound /\
    can_send 1 f n' /\
    wire n' = replicate (m2 + 1) (Rtl8139, client_frame f (Client.build_dhcp_msg OP_REQUEST x ip mac MSG_REQUEST (Some srv) (Some ip))) ++
      replicate (m1 + 1) (Rtl8139, client_frame f (next_msg x mac d)) ++ w /\
    m_net (machine_of s') = ClientProofs.configured ip mask (if bytes_eqb gw [0; 0; 0; 0] then srv else gw) n'.
Proof.
  intros mac H0 Hst Hx Hrdy Hlen Hlen2 Hr1 Hr2 Hsm Hsrc Hm1 Ha Hc Hoffer Hack Hq.
  destruct (turns_quiet inp 1 f m1 (S (m2 + S (S turns))) 0 x mac p d _ s0 H0 Hrdy) as (s1 & -> & H1);
    [intros i Hi; left; unfold max_retries; split; [done|lia]|done|unfold timeout_ticks; intros i Hi; apply Hq; lia|].
  destruct (turn_offer inp 1 f (m2 + S (S turns)) (0 + m1) x mac _ d _ s1 a r1 smac src ip srv mask gw secs H1 Hrdy Hst)
    as (s2 & -> & H2); [unfold max_retries; lia|done|done|by rewrite Hx|done|done|unfold timeout_ticks; by rewrite <- Nat.add_assoc|
      unfold timeout_ticks; intros i Hi Hne; rewrite <- Nat.add_assoc; apply Hq; lia|].
  set (d1 := Client.with_offer _ _ _ _) in H2.
  destruct (turns_quiet inp 1 f m2 (S (S turns)) (S (0 + m1)) x mac _ d1 _ s2 H2) as (s3 & -> & H3);
    [done|intros i Hi; by right|done|unfold timeout_ticks; intros i Hi; rewrite <- !Nat.add_assoc; apply Hq; lia|].
  assert (forall i, p + m1 * timeout_ticks + timeout_ticks + m2 * timeout_ticks + i = p + ((m1 + 1 + m2) * 50 + i))%nat as Hp
    by (intros i; unfold timeout_ticks; lia).
  destruct (turn_ack inp 1 f turns (S (0 + m1) + m2) x mac _ d1 _ s3 c r2 smac src ip srv mask gw secs H3)
    as (s' & n' & E & Hps & Hb & Hc' & Hw & Hn); [done|done|done|done|by (change (xid d1) with (xid d); rewrite Hx)|done|done|by rewrite Hp|
      intros i Hi; rewrite Hp; apply Hq; lia|].
  exists s', n'. split; [done|]. split; [by rewrite Hps, Hp|]. split; [done|]. split; [done|]. split; [|done].
  rewrite Hw. rewrite !Nat.add_1_r. by cbn [replicate app].
Qed.

(** C18: the client gets its address.  [dhcp_start] runs on a machine with an RTL8139 that nobody else holds.  In one of the polls of
    its first three turns of fifty polls the card has a frame with an offer in the format of dhcp_server.rs, made for the
    client's DISCOVER, in a poll of a later turn a frame with the acknowledgement made for its REQUEST, and before that
    nothing else arrives.  Then [dhcp_start] returns true at that poll, within the given turns: the
    client is bound, the interface has the address, mask and gateway of the acknowledgement, hosts of its
    subnet are routed directly and all others through the gateway; and the client has broadcast one DISCOVER in
    each turn up to that of the offer and one REQUEST in each turn after it. *)
Theorem dhcp_client_binds inp f s turns a c smac src ip srv mask gw secs :
  let mac := if_mac f in
  let p := m_polls (machine_of s) in
  let reply msg ty := Server.build_dhcp_reply msg ty ip srv mask gw secs in
  let frame msg := dhcp_frame DHCP_SERVER_PORT DHCP_CLIENT_PORT smac msg src in
  can_send 1 f (m_net (machine_of s)) -> length smac = 6%nat -> is_ip src ->
  length ip = 4%nat -> length srv = 4%nat -> length mask = 4%nat -> length gw = 4%nat -> is_u32 secs ->
  (a < 150)%nat -> (a / 50 < c / 50)%nat -> (c / 50 + 2 <= turns)%nat ->
  in_rx inp (p + a) = [frame (reply (discover_msg mac) MSG_OFFER)] ->
  in_rx inp (p + c) = [frame (reply (request_msg mac ip srv) MSG_ACK)] ->
  (forall i, (i < c)%nat -> i <> a -> in_rx inp (p + i) = []) ->
  exists s', dhcp_start inp turns 1 s = Returned true s' /\
    m_polls (machine_of s') = S (p + c) /\ state (m_dhcp (machine_of s')) = Bound /\
    let gw' := if bytes_eqb gw [0; 0; 0; 0] then srv else gw in
    get_iface 1 (m_net (machine_of s')) =
      Some {| nic_type := nic_type f; if_mac := if_mac f; if_ip := ip; subnet_mask := mask; if_gateway := gw';
              mmio_base := mmio_base f; irq := irq f; link_up := link_up f |} /\
    (forall dst, Routing.lookup dst (routes (m_net (machine_of s'))) =
      if bytes_eqb (Routing.ip_masked dst mask) (Routing.ip_masked ip mask)
      then Some (Direct, 1%nat) else Some (Routing.gateway_action gw', 1%nat)) /\
    wire (m_net (machine_of s')) = replicate (c / 50 - a / 50) (Rtl8139, client_frame f (request_msg mac ip srv)) ++
      replicate (a / 50 + 1) (Rtl8139, client_frame f (discover_msg mac)) ++ wire (m_net (machine_of s)).
Proof.
  intros mac p reply frame Hc Hsm Hsrc Hip Hsrv Hmask Hgw Hsecs Ha Hac Ht Hoffer Hack Hq.
  destruct (cs_real _ _ _ Hc) as (_ & _ & Hmac). fold mac in Hmac.
  destruct (dhcp_start_begins inp turns 1 f s Hc) as (d & s0 & -> & H0 & Hst & Hx & Hrdy & Hmsg). fold mac p in H0, Hx, Hmsg |- *.
  pose proof (ClientProofs.reply_for_request _ _ _ _ _ MSG_OFFER ip srv mask gw secs (ClientProofs.discover_request (start_xid mac) mac Hmac)
    (start_xid_ok mac) Hsecs Hip Hsrv Hmask Hgw) as Hr1.
  pose proof (ClientProofs.reply_for_request _ _ _ _ _ MSG_ACK ip srv mask gw secs (ClientProofs.request_request (start_xid mac) mac ip srv Hmac Hip Hsrv)
    (start_xid_ok mac) Hsecs Hip Hsrv Hmask Hgw) as Hr2.
  pose proof (Nat.div_mod_eq a 50) as Ea. pose proof (Nat.mod_upper_bound a 50 ltac:(lia)) as La.
  pose proof (Nat.div_mod_eq c 50) as Ec. pose proof (Nat.mod_upper_bound c 50 ltac:(lia)) as Lc.
  assert (a = a / 50 * 50 + a mod 50)%nat as Ea' by lia.
  assert (c = (a / 50 + 1 + (c / 50 - a / 50 - 1)) * 50 + c mod 50)%nat as Ec' by lia.
  destruct (client_run inp f p d _ s0 (turns - c / 50 - 2) (a / 50) (a mod 50) (c / 50 - a / 50 - 1) (c mod 50) (start_xid mac)
    (reply (discover_msg mac) MSG_OFFER) (reply (request_msg mac ip srv) MSG_ACK) smac src ip srv mask gw secs H0 Hst Hx Hrdy) as (s' & n' & E & Hp & Hb & Hc' & Hw & Hn);
    [fold mac; by rewrite Hmsg, discover_length|by apply request_length|exact Hr1|exact Hr2|done|done|lia|done|done|by rewrite <- Ea'|by rewrite <- Ec'|
     by rewrite <- Ea', <- Ec'|].
  replace (a / 50 + S (c / 50 - a / 50 - 1 + S (S (turns - c / 50 - 2))))%nat with turns in E by lia.
  exists s'. split; [exact E|]. split; [by rewrite Hp, <- Ec'|]. split; [done|]. cbv zeta. rewrite Hn. split; [|split].
  - rewrite ClientProofs.configured_iface. by rewrite (cs_iface _ _ _ Hc').
  - intros dst. apply ClientProofs.configured_routes.
  - fold mac in Hw. rewrite Hmsg in Hw. replace (c / 50 - a / 50)%nat with (c / 50 - a / 50 - 1 + 1)%nat by lia.
    etrans; [|exact Hw]. unfold ClientProofs.configured, set_iface_ip. by destruct (_ <=? 1)%nat.
Qed.

(** without a server the client gives up. When nothing is received in 150 polls,
    [dhcp_start] returns false after exactly three broadcast DISCOVERs, and leaves the client idle. *)
Theorem dhcp_discover_gives_up inp idx f s turns :
  can_send idx f (m_net (machine_of s)) -> (4 <= turns)%nat ->
  (forall i, (i < 150)%nat -> in_rx inp (m_polls (machine_of s) + i) = []) ->
  exists s', dhcp_start inp turns idx s = Returned false s' /\ state (m_dhcp (machine_of s')) = Idle /\
    m_polls (machine_of s') = (m_polls (machine_of s) + 150)%nat /\
    wire (m_net (machine_of s')) = replicate 3 (Rtl8139, client_frame f (discover_msg (if_mac f))) ++ wire (m_net (machine_of s)).
Proof.
  intros Hc Ht Hq. destruct (cs_real _ _ _ Hc) as (_ & _ & Hm).
  destruct (dhcp_start_begins inp turns idx f s Hc) as (d & s0 & -> & H0 & Hst & Hx & Hrdy & Hmsg).
  replace turns with (3 + S (turns - 4))%nat by lia.
  destruct (turns_quiet inp idx f 3 (S (turns - 4)) 0 (start_xid (if_mac f)) (if_mac f) _ d _ s0 H0 Hrdy) as (s1 & -> & [H1 H2 H3 _]);
    [intros i Hi; left; unfold max_retries; split; [done|lia]|by rewrite Hmsg, discover_length|exact Hq|].
  eexists. split; [cbn [start_loop]; rewrite H2, Hst; reflexivity|]. split; [done|]. split; [exact H1|]. cbn [machine_of with_machine tcp world m_net with_dhcp].
  fold (machine_of s1). by rewrite H3, Hmsg.
Qed.

(** after an offer the client never gives up. Once it is requesting and no
    further packet arrives, the loop of [dhcp_start] is still running after any number
    of turns, with one more request sent in each: the limit of three is only tested
    while discovering. *)
Theorem dhcp_request_never_gives_up inp idx f turns retries x p d w s :
  at_ idx f p d w s -> resp_ready d = false -> state d = Requesting ->
  length (offered_ip d) = 4%nat -> length (server_id d) = 4%nat -> (forall i, in_rx inp (p + i) = []) ->
  exists s', start_loop inp turns idx retries x (if_mac f) s = Running s' /\
    state (m_dhcp (machine_of s')) = Requesting /\ length (wire (m_net (machine_of s'))) = (turns + length w)%nat.
Proof.
  intros H0 Hr Hst Ho Hs Hq. pose proof (at_send _ _ _ _ _ _ H0) as Hc. destruct (cs_real _ _ _ Hc) as (_ & _ & Hm).
  destruct (turns_quiet inp idx f turns 0 retries x (if_mac f) p d w s H0 Hr) as (s1 & E & [H1 H2 H3 _]); [intros i Hi; by right| |intros i Hi; apply Hq|].
  - unfold next_msg. rewrite bool_decide_false by congruence. apply (ClientProofs.rf_len _ _ _ _ _ (ClientProofs.request_request x _ _ _ Hm Ho Hs)).
  - rewrite Nat.add_0_r in E. exists s1. split; [exact E|]. rewrite H2, H3, length_app, length_replicate. done.
Qed.

(** the first DISCOVER stops a machine.  Any machine of this kernel on an RTL8139 is a DHCP server: when a client's
    DISCOVER arrives while the server has no leases, the server's offer takes the lock that the receive path
    holds, and the poll never returns. *)
Theorem dhcp_discover_stops_server inp f r s cmac x smac rest :
  rtl (m_net (machine_of s)) = Some r -> get_iface 1 (m_net (machine_of s)) = Some f -> nic_type f <> Loopback ->
  ServerProofs.net_ok (m_net (machine_of s)) -> Server.get_server_ip (m_net (machine_of s)) <> [0; 0; 0; 0] ->
  m_leases (machine_of s) = Server.init -> length cmac = 6%nat -> length smac = 6%nat ->
  let msg := Client.build_dhcp_msg OP_REQUEST x [0; 0; 0; 0] cmac MSG_DISCOVER None None in
  in_rx inp (m_polls (machine_of s)) = dhcp_frame DHCP_CLIENT_PORT DHCP_SERVER_PORT smac msg [0; 0; 0; 0] :: rest ->
  Stack.net_poll inp s = None.
Proof.
  intros Hr Hf Hlo Hn Hz Hl Hcm Hsm msg Hrx. pose proof (ClientProofs.discover_request x cmac Hcm) as Hreq. fold msg in Hreq.
  pose proof (ClientProofs.rf_len _ _ _ _ _ Hreq) as Hlen. assert (is_ip [0; 0; 0; 0]) as Hip by (split; [done|by repeat constructor]).
  destruct (rtl_lock (m_net (machine_of s))) eqn:Hlk.
  { unfold Stack.net_poll, mbind, Sk_bind. rewrite machine_eq, update_eq, net_eq. unfold lock_rtl.
    change (m_net (machine_of (with_machine (count_poll (machine_of s)) s))) with (m_net (machine_of s)). by rewrite Hlk. }
  destruct (datagram_parses DHCP_CLIENT_PORT DHCP_SERVER_PORT msg) as (d & _ & Ed & _); [done|done|lia|].
  rewrite (net_poll_eq inp s r Hlk Hr), Hrx. change 256%nat with (S 255). rewrite firstn_cons. cbn [Stack.process_rx]. unfold mbind, Sk_bind.
  rewrite handle_packet_eq, (rtl_handle_dhcp r _ _ smac msg _ _ d), (udp_to_server 1 _ _ msg d) by (done || lia).
  rewrite news_push by done. cbn [Stack.upcalls Stack.upcall]. unfold mbind, Sk_bind. rewrite machine_eq, net_eq.
  cbn [machine_of with_machine tcp world m_net with_net m_leases count_poll]. fold (machine_of s). rewrite Hl. set (n := push_up _ _).
  change (Server.get_server_ip (m_net (machine_of s))) with (Server.get_server_ip n) in Hz.
  rewrite (ClientProofs.server_reads _ 1 n msg cmac _ MSG_DISCOVER _ Server.init d Hreq Hz Ed). change (MSG_DISCOVER =? MSG_DISCOVER) with true. cbv iota.
  destruct (ServerProofs.first_discover (in_clock inp (m_polls (machine_of s)) 0) 1 n msg cmac) as (ip & t & Hipl & ->). destruct Hn as [N1 N2 N3].
  rewrite (ServerProofs.answered_locked 1 f n); [done|done|done|done|done|apply ServerProofs.reply_length; (done || lia)|done].
Qed.

(** ** Examples *)

Definition demo_iface : NetworkInterface := default loopback (get_iface 1 (m_net demo_machine)).
Definition demo_state : SockSys Machine := boot_sockets demo_machine.

Lemma demo_can_send : can_send 1 demo_iface (m_net (machine_of demo_state)).
Proof. constructor; [by eexists|done|done|done]. Qed.

(** An offer at the fourth poll, and the acknowledgement at the sixtieth. *)
Definition demo_rx (k : nat) : list bytes :=
  let mac := if_mac demo_iface in
  let frame msg ty := dhcp_frame DHCP_SERVER_PORT DHCP_CLIENT_PORT [2; 0; 0; 0; 0; 1]
    (Server.build_dhcp_reply msg ty [10; 0; 2; 77] [10; 0; 2; 2] [255; 255; 255; 0] [10; 0; 2; 1] 3600) [10; 0; 2; 2] in
  if (k =? 3)%nat then [frame (discover_msg mac) MSG_OFFER]
  else if (k =? 59)%nat then [frame (request_msg mac [10; 0; 2; 77] [10; 0; 2; 2]) MSG_ACK] else [].

Lemma dhcp_client_binds_witness :
  exists s', dhcp_start (demo_inputs demo_rx) 5 1 demo_state = Returned true s' /\
    m_polls (machine_of s') = 60%nat /\ state (m_dhcp (machine_of s')) = Bound /\
    get_iface 1 (m_net (machine_of s')) =
      Some {| nic_type := nic_type demo_iface; if_mac := if_mac demo_iface; if_ip := [10; 0; 2; 77]; subnet_mask := [255; 255; 255; 0];
              if_gateway := [10; 0; 2; 1]; mmio_base := mmio_base demo_iface; irq := irq demo_iface; link_up := link_up demo_iface |}.
Proof.
  assert (is_ip [10; 0; 2; 2]) as Hs by (split; [done|by repeat constructor]). assert (3 < 150)%nat as H1 by lia.
  assert (3 / 50 < 59 / 50)%nat as H2 by (vm_compute; lia). assert (59 / 50 + 2 <= 5)%nat as H3 by (vm_compute; lia).
  assert (forall i : nat, (i < 59)%nat -> i <> 3%nat -> demo_rx i = []) as Hq.
  { intros i Hi Hne. unfold demo_rx. apply Nat.eqb_neq in Hne as ->. assert (i <> 59)%nat as Hne' by lia. by apply Nat.eqb_neq in Hne' as ->. }
  destruct (dhcp_client_binds (demo_inputs demo_rx) demo_iface demo_state 5 3 59 [2; 0; 0; 0; 0; 1] [10; 0; 2; 2] [10; 0; 2; 77] [10; 0; 2; 2]
    [255; 255; 255; 0] [10; 0; 2; 1] 3600 demo_can_send eq_refl Hs eq_refl eq_refl eq_refl eq_refl ltac:(done) H1 H2 H3 eq_refl eq_refl Hq)
    as (s' & E1 & E2 & E3 & E4 & _). exists s'. exact (conj E1 (conj E2 (conj E3 E4))).
Defined.

Lemma dhcp_discover_gives_up_witness :
  exists s', dhcp_start (demo_inputs (fun _ => [])) 7 1 demo_state = Returned false s' /\ state (m_dhcp (machine_of s')) = Idle /\
    m_polls (machine_of s') = 150%nat /\
    wire (m_net (machine_of s')) = replicate 3 (Rtl8139, client_frame demo_iface (discover_msg (if_mac demo_iface))) ++ [].
Proof. apply (dhcp_discover_gives_up (demo_inputs (fun _ => [])) 1 demo_iface demo_state 7 demo_can_send); [lia|done]. Defined.

Lemma dhcp_request_never_gives_up_witness :
  let d := Client.with_offer [10; 0; 2; 100] [10; 0; 2; 2] 86400 Client.init in
  exists s', start_loop (demo_inputs (fun _ => [])) 1000 1 1 7 (if_mac demo_iface) (with_machine (with_dhcp d demo_machine) demo_state) = Running s' /\
    state (m_dhcp (machine_of s')) = Requesting /\ length (wire (m_net (machine_of s'))) = (1000 + 0)%nat.
Proof.
  intros d. apply (dhcp_request_never_gives_up (demo_inputs (fun _ => [])) 1 demo_iface 1000 1 7 0 d [] (with_machine (with_dhcp d demo_machine) demo_state));
    try done. split; [done|done|done|exact demo_can_send].
Defined.

Lemma dhcp_discover_stops_server_witness :
  Stack.net_poll (demo_inputs (fun _ => [dhcp_frame DHCP_CLIENT_PORT DHCP_SERVER_PORT [2; 0; 0; 0; 0; 9]
    (Client.build_dhcp_msg OP_REQUEST 7 [0; 0; 0; 0] [2; 0; 0; 0; 0; 9] MSG_DISCOVER None None) [0; 0; 0; 0]])) demo_state = None.
Proof.
  eapply (dhcp_discover_stops_server _ demo_iface NicProofs.demo_rtl demo_state [2; 0; 0; 0; 0; 9] 7 [2; 0; 0; 0; 0; 9] []);
    try reflexivity; done.
Defined.

End StartProofs.
