(* ===== verification/Ns.v ===== *)
(** Namespaces: [crates/zenus-ns/src].

    The six kinds of namespaces keep their own tables with the same layout: slots, of which the first [count] are
    used.  [NsTable A] is such a table, where [A] is what a namespace of the kind holds besides its number; the numbers of all
    kinds come from one counter.  [NsSys] has the six tables and the counter. *)

From S2P Require Import Prelude Bytes.

Definition NS_ROOT : Z := 0.
Definition MAX_NAMESPACES : nat := 16.

Definition CLONE_NEWUTS : Z := 0x04000000.
Definition CLONE_NEWPID : Z := 0x20000000.
Definition CLONE_NEWNS : Z := 0x00020000.
Definition CLONE_NEWNET : Z := 0x40000000.
Definition CLONE_NEWUSER : Z := 0x10000000.
Definition CLONE_NEWIPC : Z := 0x08000000.

(** ** Tables *)

Record Namespace (A : Type) := { ns_id : Z; ns_body : A }.
#[global] Arguments ns_id {A}.
#[global] Arguments ns_body {A}.
#[global] Arguments Build_Namespace {A}.

Record NsTable (A : Type) := { namespaces : list (option (Namespace A)); ns_live : nat }.
#[global] Arguments namespaces {A}.
#[global] Arguments ns_live {A}.
#[global] Arguments Build_NsTable {A}.

(** [slots[i] = slots[i + 1].take()] for [i] from [i] up to the last but one of [n] slots *)
Definition take_next {A} (l : list (option A)) (i : nat) : list (option A) := <[S i := None]> (<[i := mjoin (l !! S i)]> l).
Definition shift_down {A} (i n : nat) (l : list (option A)) : list (option A) := foldl take_next l (seq i (n - 1 - i)).

Section table.
Context {A : Type}.

Definition new_ns_table : NsTable A := {| namespaces := replicate MAX_NAMESPACES None; ns_live := 0 |}.

Definition init_table (root : A) (t : NsTable A) : NsTable A :=
  {| namespaces := <[0%nat := Some {| ns_id := NS_ROOT; ns_body := root |}]> (namespaces t); ns_live := 1 |}.

Definition has_id (id : Z) (o : option (Namespace A)) : bool := match o with Some ns => ns_id ns =? id | None => false end.

Definition find_idx (id : Z) (t : NsTable A) : option nat := find_index (has_id id) (take (ns_live t) (namespaces t)).

(** The namespace itself; the code looks its index up and then at the slot. *)
Definition find_namespace (id : Z) (t : NsTable A) : option (Namespace A) := find_idx id t ≫= fun i => mjoin (namespaces t !! i).

Definition create_table (body : A) (next : Z) (t : NsTable A) : option Z * Z * NsTable A :=
  if (MAX_NAMESPACES <=? ns_live t)%nat then (None, next, t)
  else
    (Some next, (next + 1) mod 2 ^ 32,
     {| namespaces := <[ns_live t := Some {| ns_id := next; ns_body := body |}]> (namespaces t); ns_live := ns_live t + 1 |}).

Definition destroy_table (id : Z) (t : NsTable A) : NsTable A :=
  if id =? NS_ROOT then t
  else
    match find_idx id t with
    | None => t
    | Some i => {| namespaces := shift_down i (ns_live t) (namespaces t); ns_live := ns_live t - 1 |}
    end.

(** A change of one namespace, with an answer. *)
Definition update_table {B} (id : Z) (none : B) (f : A -> B * A) (t : NsTable A) : B * NsTable A :=
  match find_idx id t with
  | None => (none, t)
  | Some i =>
      match mjoin (namespaces t !! i) with
      | None => (none, t)
      | Some ns =>
          let r := f (ns_body ns) in
          (r.1, {| namespaces := <[i := Some {| ns_id := ns_id ns; ns_body := r.2 |}]> (namespaces t); ns_live := ns_live t |})
      end
  end.

End table.

(** ** The kinds *)

Definition MAX_HOSTNAME : nat := 64.
Definition MAX_UID_MAP : nat := 16.
Definition MAX_PID_ENTRIES : nat := 64.

Record UtsNamespace := { hostname : bytes; domainname : bytes }.
Record PidEntry := { pe_local : Z; pe_global : Z }.
Record PidNamespace := { next_local_pid : Z; entries : list (option PidEntry); entry_count : nat }.
Record NetNamespace := { interfaces : list Z }.
Record UserNamespace := { uid_map : list (Z * Z); uid_count : nat }.

Definition new_uts : UtsNamespace := {| hostname := replicate MAX_HOSTNAME 0; domainname := replicate MAX_HOSTNAME 0 |}.
Definition new_pid : PidNamespace := {| next_local_pid := 1; entries := replicate MAX_PID_ENTRIES None; entry_count := 0 |}.
Definition new_net : NetNamespace := {| interfaces := replicate 8 0 |}.
Definition new_user : UserNamespace := {| uid_map := replicate MAX_UID_MAP (0, 0); uid_count := 0 |}.

Record NsSys := {
  next_ns_id : Z;
  uts_table : NsTable UtsNamespace;
  pid_table : NsTable PidNamespace;
  net_table : NsTable NetNamespace;
  user_table : NsTable UserNamespace;
  ipc_table : NsTable unit;
  mnt_table : NsTable unit;
}.

(** [b"zenus\0"] and [b"(none)\0"] *)
Definition root_uts : UtsNamespace :=
  {| hostname := splice 0 [122; 101; 110; 117; 115; 0] (replicate MAX_HOSTNAME 0);
     domainname := splice 0 [40; 110; 111; 110; 101; 41; 0] (replicate MAX_HOSTNAME 0) |}.
Definition root_user : UserNamespace := {| uid_map := <[0%nat := (0, 0)]> (uid_map new_user); uid_count := 1 |}.

(** The statics, and the six [init] functions. *)
Definition boot_ns : NsSys :=
  {| next_ns_id := 1; uts_table := new_ns_table; pid_table := new_ns_table; net_table := new_ns_table; user_table := new_ns_table;
     ipc_table := new_ns_table; mnt_table := new_ns_table |}.
Definition init_ns (s : NsSys) : NsSys :=
  {| next_ns_id := next_ns_id s; uts_table := init_table root_uts (uts_table s); pid_table := init_table new_pid (pid_table s);
     net_table := init_table new_net (net_table s); user_table := init_table root_user (user_table s);
     ipc_table := init_table tt (ipc_table s); mnt_table := init_table tt (mnt_table s) |}.

(** *** Names *)

Definition padded (name : bytes) : bytes := let len := Nat.min (length name) (MAX_HOSTNAME - 1) in splice 0 (take len name) (replicate MAX_HOSTNAME 0).

Definition set_hostname (id : Z) (name : bytes) : NsTable UtsNamespace -> bool * NsTable UtsNamespace :=
  update_table id false (fun u => (true, {| hostname := padded name; domainname := domainname u |})).
Definition set_domainname (id : Z) (name : bytes) : NsTable UtsNamespace -> bool * NsTable UtsNamespace :=
  update_table id false (fun u => (true, {| hostname := hostname u; domainname := padded name |})).
Definition get_hostname (id : Z) (t : NsTable UtsNamespace) : bytes :=
  match find_namespace id t with Some ns => hostname (ns_body ns) | None => replicate MAX_HOSTNAME 0 end.
Definition get_domainname (id : Z) (t : NsTable UtsNamespace) : bytes :=
  match find_namespace id t with Some ns => domainname (ns_body ns) | None => replicate MAX_HOSTNAME 0 end.

(** *** Interfaces *)

Definition get_interfaces (id : Z) (t : NsTable NetNamespace) : list Z :=
  match find_namespace id t with Some ns => interfaces (ns_body ns) | None => replicate 8 0 end.
Definition add_interface (id iface : Z) (t : NsTable NetNamespace) : bool * NsTable NetNamespace :=
  if 64 <=? iface then (false, t)
  else update_table id false (fun n => (true, {| interfaces := alter (fun b => Z.lor b (Z.shiftl 1 (iface mod 8))) (Z.to_nat (iface / 8)) (interfaces n) |})) t.

(** *** Users *)

Definition maps_uid (inside : Z) (p : Z * Z) : bool := p.1 =? inside.
Definition map_uid (id inside outside : Z) : NsTable UserNamespace -> bool * NsTable UserNamespace :=
  update_table id false (fun u =>
    if (MAX_UID_MAP <=? uid_count u)%nat then (false, u)
    else if existsb (maps_uid inside) (take (uid_count u) (uid_map u)) then (false, u)
    else (true, {| uid_map := <[uid_count u := (inside, outside)]> (uid_map u); uid_count := uid_count u + 1 |})).
Definition translate_uid (id inside : Z) (t : NsTable UserNamespace) : option Z :=
  ns ← find_namespace id t; snd <$> List.find (maps_uid inside) (take (uid_count (ns_body ns)) (uid_map (ns_body ns))).

(** *** Tasks *)

Definition register_task (id tid : Z) : NsTable PidNamespace -> option Z * NsTable PidNamespace :=
  update_table id None (fun p =>
    if (MAX_PID_ENTRIES <=? entry_count p)%nat then (None, p)
    else
      (Some (next_local_pid p),
       {| next_local_pid := u64_add (next_local_pid p) 1;
          entries := <[entry_count p := Some {| pe_local := next_local_pid p; pe_global := tid |}]> (entries p);
          entry_count := entry_count p + 1 |})).

Definition entry_with (f : PidEntry -> bool) (o : option PidEntry) : bool := match o with Some e => f e | None => false end.
Definition find_pid_entry (f : PidEntry -> bool) (p : PidNamespace) : option PidEntry :=
  mjoin (List.find (entry_with f) (take (entry_count p) (entries p))).

Definition global_tid (id local : Z) (t : NsTable PidNamespace) : option Z :=
  ns ← find_namespace id t; pe_global <$> find_pid_entry (fun e => pe_local e =? local) (ns_body ns).
Definition local_pid (id tid : Z) (t : NsTable PidNamespace) : option Z :=
  ns ← find_namespace id t; pe_local <$> find_pid_entry (fun e => pe_global e =? tid) (ns_body ns).

Definition remove_entry (tid : Z) (p : PidNamespace) : PidNamespace :=
  match find_index (entry_with (fun e => pe_global e =? tid)) (take (entry_count p) (entries p)) with
  | None => p
  | Some i => {| next_local_pid := next_local_pid p; entries := shift_down i (entry_count p) (<[i := None]> (entries p)); entry_count := entry_count p - 1 |}
  end.
Definition unregister_task (id tid : Z) (t : NsTable PidNamespace) : NsTable PidNamespace := (update_table id tt (fun p => (tt, remove_entry tid p)) t).2.

(** *** The calls on the system *)

Definition uts_create (s : NsSys) : option Z * NsSys :=
  let '(r, n, t) := create_table new_uts (next_ns_id s) (uts_table s) in
  (r, {| next_ns_id := n; uts_table := t; pid_table := pid_table s; net_table := net_table s; user_table := user_table s; ipc_table := ipc_table s; mnt_table := mnt_table s |}).
Definition pid_create (s : NsSys) : option Z * NsSys :=
  let '(r, n, t) := create_table new_pid (next_ns_id s) (pid_table s) in
  (r, {| next_ns_id := n; uts_table := uts_table s; pid_table := t; net_table := net_table s; user_table := user_table s; ipc_table := ipc_table s; mnt_table := mnt_table s |}).
Definition net_create (s : NsSys) : option Z * NsSys :=
  let '(r, n, t) := create_table new_net (next_ns_id s) (net_table s) in
  (r, {| next_ns_id := n; uts_table := uts_table s; pid_table := pid_table s; net_table := t; user_table := user_table s; ipc_table := ipc_table s; mnt_table := mnt_table s |}).
Definition user_create (s : NsSys) : option Z * NsSys :=
  let '(r, n, t) := create_table new_user (next_ns_id s) (user_table s) in
  (r, {| next_ns_id := n; uts_table := uts_table s; pid_table := pid_table s; net_table := net_table s; user_table := t; ipc_table := ipc_table s; mnt_table := mnt_table s |}).
Definition ipc_create (s : NsSys) : option Z * NsSys :=
  let '(r, n, t) := create_table tt (next_ns_id s) (ipc_table s) in
  (r, {| next_ns_id := n; uts_table := uts_table s; pid_table := pid_table s; net_table := net_table s; user_table := user_table s; ipc_table := t; mnt_table := mnt_table s |}).
Definition mnt_create (s : NsSys) : option Z * NsSys :=
  let '(r, n, t) := create_table tt (next_ns_id s) (mnt_table s) in
  (r, {| next_ns_id := n; uts_table := uts_table s; pid_table := pid_table s; net_table := net_table s; user_table := user_table s; ipc_table := ipc_table s; mnt_table := t |}).

Definition with_pids (t : NsTable PidNamespace) (s : NsSys) : NsSys :=
  {| next_ns_id := next_ns_id s; uts_table := uts_table s; pid_table := t; net_table := net_table s; user_table := user_table s; ipc_table := ipc_table s; mnt_table := mnt_table s |}.

Definition net_destroy : Z -> NsTable NetNamespace -> NsTable NetNamespace := destroy_table.
Definition user_destroy : Z -> NsTable UserNamespace -> NsTable UserNamespace := destroy_table.
Definition ipc_destroy : Z -> NsTable unit -> NsTable unit := destroy_table.
Definition mnt_destroy : Z -> NsTable unit -> NsTable unit := destroy_table.

Definition exists_ns (id : Z) (t : NsTable unit) : bool := match find_idx id t with Some _ => true | None => false end.
