(* ===== verification/NsProofs.v ===== *)
(** Proofs about namespaces: a table is a finite map from numbers to namespaces ([ns_table_refines_map]), and the
    numbers of tasks in a namespace. *)

From S2P Require Import Prelude Bytes Ns.

(** ** Shifting slots down *)

Lemma take_next_length {A} (l : list (option A)) i : length (take_next l i) = length l.
Proof. unfold take_next. by rewrite !length_insert. Qed.

Lemma take_next_lookup {A} (l : list (option A)) i j : (S i < length l)%nat ->
  take_next l i !! j = if decide (j = i) then l !! S i else if decide (j = S i) then Some None else l !! j.
Proof.
  intros Hi. unfold take_next. destruct (decide (j = i)) as [->|H1].
  - rewrite list_lookup_insert_ne by lia. rewrite list_lookup_insert_eq by lia. destruct (lookup_lt_is_Some_2 l (S i) Hi) as [o ->]. done.
  - destruct (decide (j = S i)) as [->|H2]; [apply list_lookup_insert_eq; rewrite length_insert; lia|]. by rewrite !list_lookup_insert_ne by lia.
Qed.

Lemma shift_down_spec {A} k : forall (l : list (option A)) i n, n = (S i + k)%nat -> (n <= length l)%nat ->
  length (shift_down i n l) = length l /\
  forall j, (j < n - 1)%nat -> shift_down i n l !! j = if decide (j < i)%nat then l !! j else l !! S j.
Proof.
  induction k as [|k IH]; intros l i n -> Hl; unfold shift_down.
  - replace (S i + 0 - 1 - i)%nat with 0%nat by lia. cbn. split; [done|]. intros j Hj. by rewrite decide_True by lia.
  - replace (S i + S k - 1 - i)%nat with (S k) by lia. cbn [seq foldl]. destruct (IH (take_next l i) (S i) (S i + S k)%nat) as [H1 H2]; [lia|by rewrite take_next_length|].
    unfold shift_down in H1, H2. replace (S i + S k - 1 - S i)%nat with k in * by lia. rewrite H1, take_next_length. split; [done|]. intros j Hj.
    rewrite H2 by lia. rewrite !take_next_lookup by lia. repeat case_decide; try lia; try done. subst. done.
Qed.

(** Slots that hold a list, whatever slot [i] holds, hold the list without its [i]th element after the shift. *)
Lemma shift_down_delete {A} (slots : list (option A)) (l : list A) i : (i < length l <= length slots)%nat ->
  (forall j, (j < length l)%nat -> j <> i -> slots !! j = Some (l !! j)) ->
  length (shift_down i (length l) slots) = length slots /\ take (length l - 1) (shift_down i (length l) slots) = map Some (delete i l).
Proof.
  intros Hl Hs. destruct (shift_down_spec (length l - 1 - i) slots i (length l)) as [S1 S2]; [lia|lia|]. split; [done|].
  apply list_eq. intros j. rewrite list_lookup_fmap. destruct (decide (j < length l - 1)%nat) as [Hj|Hj].
  - rewrite lookup_take_lt by done. rewrite S2 by done. case_decide as Hd; rewrite Hs by lia.
    + rewrite list_lookup_delete_lt by done. destruct (lookup_lt_is_Some_2 l j) as [x ->]; [lia|done].
    + rewrite list_lookup_delete_ge by lia. destruct (lookup_lt_is_Some_2 l (S j)) as [x ->]; [lia|done].
  - rewrite lookup_take_ge by lia. destruct (lookup_lt_is_Some_2 l i) as [x Hx]; [lia|]. rewrite lookup_ge_None_2; [done|]. rewrite length_delete by (by exists x). lia.
Qed.

Lemma slots_lookup {A} (slots : list (option A)) (l : list A) j : take (length l) slots = map Some l -> (j < length l)%nat -> slots !! j = Some (l !! j).
Proof.
  intros H Hj. rewrite <-(lookup_take_lt _ (length l)) by lia. rewrite H, list_lookup_fmap. destruct (lookup_lt_is_Some_2 l j Hj) as [n ->]. done.
Qed.

Lemma slots_length {A} (slots : list (option A)) (l : list A) : take (length l) slots = map Some l -> (length l <= length slots)%nat.
Proof. intros H%(f_equal length). rewrite length_take, length_map in H. lia. Qed.

(** ** Tables as lists and maps *)

Section refinement.
Context {A : Type}.
Implicit Types (t : NsTable A) (l : list (Namespace A)) (M : gmap Z A).

(** The live namespaces of a table, in order. *)
Record ns_sim t l (next : Z) : Prop := {
  ns_len : length (namespaces t) = MAX_NAMESPACES;
  ns_slots : take (ns_live t) (namespaces t) = map Some l;
  ns_count : ns_live t = length l;
  ns_nodup : NoDup (map ns_id l);
  ns_below : Forall (fun ns => ns_id ns < next) l;
}.

Definition ns_map l : gmap Z A := list_to_map (map (fun ns => (ns_id ns, ns_body ns)) l).

Lemma keys_fst l : map ns_id l = (map (fun ns => (ns_id ns, ns_body ns)) l).*1.
Proof. induction l as [|n l IH]; [done|]. cbn. by f_equal. Qed.

Lemma ns_map_lookup l k b : NoDup (map ns_id l) -> ns_map l !! k = Some b <-> {| ns_id := k; ns_body := b |} ∈ l.
Proof.
  intros Hn. unfold ns_map. rewrite <-elem_of_list_to_map by (by rewrite <-keys_fst). rewrite list_elem_of_fmap. split.
  - intros ([k' b'] & [= -> ->] & H). done.
  - intros H. by exists {| ns_id := k; ns_body := b |}.
Qed.

Lemma ns_map_size t l next : ns_sim t l next -> size (ns_map l) = length l.
Proof.
  intros [_ _ _ Hn _]. unfold ns_map. rewrite keys_fst in Hn. rewrite map_size_list_to_map by done. apply length_map.
Qed.

Lemma ns_lookup t l next i : ns_sim t l next -> (i < length l)%nat -> namespaces t !! i = Some (l !! i).
Proof. intros [_ H2 H3 _ _] Hi. apply slots_lookup; [|done]. by rewrite <-H3. Qed.

Lemma find_idx_sim t l next id : ns_sim t l next -> find_idx id t = find_index (fun ns => ns_id ns =? id) l.
Proof.
  intros H. unfold find_idx. rewrite (ns_slots _ _ _ H). unfold find_index. clear H. generalize 0%nat. induction l as [|n l IH]; intros k; cbn; [done|]. by rewrite IH.
Qed.

(** The index of a number, and what the map says of it. *)
Lemma find_idx_cases t l next id : ns_sim t l next ->
  match find_idx id t with
  | Some i => exists ns, l !! i = Some ns /\ ns_id ns = id /\ ns_map l !! id = Some (ns_body ns) /\ mjoin (namespaces t !! i) = Some ns
  | None => ns_map l !! id = None
  end.
Proof.
  intros H. rewrite (find_idx_sim t l next id H). destruct (find_index _ l) as [i|] eqn:E.
  - apply find_index_Some in E as [(ns & Hi & Hid%Z.eqb_eq) _]. exists ns. split; [done|]. split; [done|]. split.
    + apply ns_map_lookup; [apply H|]. subst id. apply list_elem_of_lookup. exists i. by destruct ns.
    + rewrite (ns_lookup t l next i H) by (by eapply lookup_lt_Some). by rewrite Hi.
  - apply find_index_None in E. destruct (ns_map l !! id) as [b|] eqn:Eb; [|done]. apply ns_map_lookup in Eb; [|apply H].
    eapply Forall_forall in E; [|exact Eb]. cbn in E. by rewrite Z.eqb_refl in E.
Qed.

Lemma create_sim t l next body : ns_sim t l next -> 0 <= next -> next + 1 < 2 ^ 32 ->
  let r := create_table body next t in
  if (MAX_NAMESPACES <=? length l)%nat then r = (None, next, t)
  else r.1 = (Some next, next + 1) /\ ns_sim r.2 (l ++ [{| ns_id := next; ns_body := body |}]) (next + 1) /\
    ns_map (l ++ [{| ns_id := next; ns_body := body |}]) = <[next := body]> (ns_map l).
Proof.
  intros H Hn0 Hn. unfold create_table. rewrite (ns_count _ _ _ H). destruct (Nat.leb_spec MAX_NAMESPACES (length l)) as [|Hlt]; [done|]. cbn [fst snd].
  split; [by rewrite Z.mod_small by lia|]. destruct H as [H1 H2 H3 H4 H5]. rewrite H3 in H2.
  assert (next ∉ map ns_id l) as Hfresh. { intros (n & -> & Hin)%list_elem_of_fmap. eapply Forall_forall in H5; [|exact Hin]. lia. }
  assert (NoDup (map ns_id (l ++ [{| ns_id := next; ns_body := body |}]))) as Hnd.
  { rewrite map_app. apply NoDup_app. split; [done|]. split; [intros x Hx; cbn; rewrite list_elem_of_singleton; by intros ->|apply NoDup_singleton]. }
  split; [split; cbn [namespaces ns_live]; [by rewrite length_insert| |rewrite length_app; cbn; lia|done|]|].
  - rewrite Nat.add_1_r, (take_S_r _ _ (Some {| ns_id := next; ns_body := body |})) by (apply list_lookup_insert_eq; lia). rewrite take_insert_ge by lia.
    by rewrite H2, map_app.
  - apply Forall_app. split; [eapply List.Forall_impl; [|exact H5]; intros ns ?; cbn in *; lia|]. apply Forall_singleton. cbn. lia.
  - apply map_eq. intros k. apply option_eq. intros b. rewrite (ns_map_lookup _ _ _ Hnd), elem_of_app, list_elem_of_singleton, lookup_insert_Some.
    rewrite <-(ns_map_lookup _ _ _ H4). split.
    + intros [Hk|[= -> ->]]; [right|by left]. split; [|done]. intros <-. apply ns_map_lookup in Hk; [|done]. apply Hfresh. apply list_elem_of_fmap. by exists {| ns_id := next; ns_body := b |}.
    + intros [[-> ->]|[_ Hk]]; [by right|by left].
Qed.

Lemma ns_map_delete l i ns : NoDup (map ns_id l) -> l !! i = Some ns ->
  NoDup (map ns_id (delete i l)) /\ ns_map (delete i l) = delete (ns_id ns) (ns_map l).
Proof.
  intros Hn (l1 & l2 & -> & ->)%list_elem_of_split_length. rewrite delete_middle. rewrite keys_fst in Hn |- *. rewrite !fmap_app in Hn |- *. cbn in Hn.
  apply NoDup_app in Hn as (H1 & Hd & [H3 H4]%NoDup_cons). split.
  { apply NoDup_app. split; [done|]. split; [|done]. intros x Hx Hx'. apply (Hd x Hx). by right. }
  unfold ns_map. rewrite !map_app. cbn [map]. rewrite !list_to_map_app. cbn [list_to_map foldr uncurry fst snd]. rewrite <-insert_union_r.
  2:{ apply not_elem_of_list_to_map_1. intros Hx. apply (Hd _ Hx). by left. }
  rewrite delete_insert_id; [done|]. apply lookup_union_None. split; apply not_elem_of_list_to_map_1; [|done]. intros Hx. apply (Hd _ Hx). by left.
Qed.

Lemma destroy_sim t l next id : ns_sim t l next -> id <> NS_ROOT ->
  exists l', ns_sim (destroy_table id t) l' next /\ ns_map l' = delete id (ns_map l).
Proof.
  intros H Hid. unfold destroy_table. rewrite (proj2 (Z.eqb_neq _ _)) by done. pose proof (find_idx_cases t l next id H) as Hc. destruct (find_idx id t) as [i|].
  2:{ exists l. split; [done|]. by rewrite delete_id. }
  destruct Hc as (ns & Hi & Hns & _ & _). pose proof (lookup_lt_Some _ _ _ Hi) as Hlt.
  destruct H as [H1 H2 H3 H4 H5]. exists (delete i l). destruct (ns_map_delete l i ns H4 Hi) as [Hnd Hm]. subst id. split; [|exact Hm]. rewrite H3 in H2.
  pose proof (slots_length _ _ H2). destruct (shift_down_delete (namespaces t) l i) as [S1 S2]; [lia|intros; by apply slots_lookup|].
  split; cbn [namespaces ns_live]; rewrite ?H3; [by rewrite S1|done|by rewrite length_delete by (by exists ns)|done|by apply Forall_delete].
Qed.

Lemma find_namespace_sim t l next id : ns_sim t l next -> ns_body <$> find_namespace id t = ns_map l !! id.
Proof.
  intros H. unfold find_namespace. pose proof (find_idx_cases t l next id H) as Hc. destruct (find_idx id t) as [i|]; [|by rewrite Hc].
  destruct Hc as (ns & _ & _ & -> & Hs). cbn. by rewrite Hs.
Qed.

Lemma update_sim {B} t l next id (none : B) (f : A -> B * A) : ns_sim t l next ->
  let r := update_table id none f t in
  match ns_map l !! id with
  | None => r = (none, t)
  | Some b => r.1 = (f b).1 /\ exists l', ns_sim r.2 l' next /\ ns_map l' = <[id := (f b).2]> (ns_map l)
  end.
Proof.
  intros H. unfold update_table. pose proof (find_idx_cases t l next id H) as Hc. destruct (find_idx id t) as [i|]; [|by rewrite Hc].
  destruct Hc as (ns & Hi & <- & -> & ->). cbn [fst snd]. split; [done|]. pose proof (lookup_lt_Some _ _ _ Hi) as Hlt.
  destruct H as [H1 H2 H3 H4 H5]. set (ns' := {| ns_id := ns_id ns; ns_body := (f (ns_body ns)).2 |}).
  assert (map ns_id (<[i := ns']> l) = map ns_id l) as Hids.
  { change (map ns_id (<[i := ns']> l)) with (ns_id <$> <[i := ns']> l). rewrite list_fmap_insert. apply list_insert_id. by rewrite list_lookup_fmap, Hi. }
  exists (<[i := ns']> l). split; [split; cbn [namespaces ns_live]|].
  - by rewrite length_insert.
  - rewrite take_insert_lt by lia. rewrite H2. change (map Some (<[i := ns']> l)) with (Some <$> <[i := ns']> l). by rewrite list_fmap_insert.
  - by rewrite length_insert.
  - by rewrite Hids.
  - apply Forall_insert; [done|]. eapply Forall_lookup_1 in H5; [|exact Hi]. done.
  - apply map_eq. intros k. apply option_eq. intros b. rewrite ns_map_lookup by (by rewrite Hids). rewrite lookup_insert_Some, (ns_map_lookup _ _ _ H4).
    rewrite !list_elem_of_lookup. split.
    + intros [j [(Ej & Eb & _)|[Hj Ej]]%list_lookup_insert_Some]; [left; by injection Eb|]. right. split; [|by exists j]. intros <-. apply Hj.
      eapply (NoDup_lookup (map ns_id l)); [done|..]; by rewrite list_lookup_fmap, ?Hi, ?Ej.
    + intros [[<- <-]|[Hk [j Ej]]]; [exists i; by rewrite list_lookup_insert_eq|]. exists j. rewrite list_lookup_insert_ne; [done|]. intros ->. by simplify_eq.
Qed.

(** *** Sequences of calls *)

(** What the code does to a table: the calls on it, and creations of the other kinds, which take numbers from the
    same counter. *)
Inductive NsCall : Type :=
  | NsCreate (body : A)
  | NsElsewhere
  | NsDestroy (id : Z)
  | NsChange (id : Z) (f : A -> A)
  | NsLook (id : Z).

Inductive NsAnswer : Type :=
  | NsNumber (o : option Z)
  | NsDone (b : bool)
  | NsBody (o : option A).

Definition ns_call (c : NsCall) (s : Z * NsTable A) : NsAnswer * (Z * NsTable A) :=
  match c with
  | NsCreate body => let r := create_table body s.1 s.2 in (NsNumber r.1.1, (r.1.2, r.2))
  | NsElsewhere => (NsDone true, ((s.1 + 1) mod 2 ^ 32, s.2))
  | NsDestroy id => (NsDone true, (s.1, destroy_table id s.2))
  | NsChange id f => let r := update_table id false (fun b => (true, f b)) s.2 in (NsDone r.1, (s.1, r.2))
  | NsLook id => (NsBody (ns_body <$> find_namespace id s.2), s)
  end.

(** The same calls on a finite map. *)
Definition ns_spec (c : NsCall) (s : Z * gmap Z A) : NsAnswer * (Z * gmap Z A) :=
  let '(next, M) := s in
  match c with
  | NsCreate body => if (16 <=? size M)%nat then (NsNumber None, s) else (NsNumber (Some next), (next + 1, <[next := body]> M))
  | NsElsewhere => (NsDone true, (next + 1, M))
  | NsDestroy id => (NsDone true, (next, if id =? 0 then M else delete id M))
  | NsChange id f => match M !! id with None => (NsDone false, s) | Some b => (NsDone true, (next, <[id := f b]> M)) end
  | NsLook id => (NsBody (M !! id), s)
  end.

Fixpoint run_calls {S : Type} (call : NsCall -> S -> NsAnswer * S) (cs : list NsCall) (s : S) : list NsAnswer :=
  match cs with [] => [] | c :: cs => let r := call c s in r.1 :: run_calls call cs r.2 end.

Lemma ns_call_sim c t l next : ns_sim t l next -> 0 <= next -> next + 1 < 2 ^ 32 ->
  exists l' next', next <= next' <= next + 1 /\ (ns_call c (next, t)).1 = (ns_spec c (next, ns_map l)).1 /\
    (ns_call c (next, t)).2.1 = next' /\ ns_sim (ns_call c (next, t)).2.2 l' next' /\ (ns_spec c (next, ns_map l)).2 = (next', ns_map l').
Proof.
  intros H H0 H1. destruct c as [body| |id|id f|id]; cbn [ns_call ns_spec fst snd].
  - pose proof (create_sim t l next body H H0 H1) as Hc. cbv zeta in Hc. rewrite (ns_map_size _ _ _ H). change 16%nat with MAX_NAMESPACES.
    destruct (_ <=? _)%nat; [rewrite Hc; by exists l, next; split; [lia|]|]. destruct Hc as (E1 & E2 & E3). rewrite E1.
    eexists _, (next + 1). split; [lia|]. split; [done|]. split; [done|]. split; [exact E2|]. cbn. by rewrite E3.
  - exists l, (next + 1). split; [lia|]. rewrite Z.mod_small by lia. split; [done|]. split; [done|]. split; [|done]. destruct H as [? ? ? ? H5]. split; try done.
    eapply List.Forall_impl; [|exact H5]. intros ns ?. cbn in *. lia.
  - destruct (Z.eqb_spec id 0) as [->|Hid]; [by exists l, next; split; [lia|]|]. destruct (destroy_sim t l next id H Hid) as (l' & E1 & E2). exists l', next. split; [lia|]. cbn.
    by rewrite E2.
  - pose proof (update_sim t l next id false (fun b => (true, f b)) H) as Hu. cbn in Hu. destruct (ns_map l !! id) as [b|].
    + destruct Hu as (E1 & l' & E2 & E3). rewrite E1. exists l', next. split; [lia|]. by rewrite E3.
    + rewrite Hu. by exists l, next; split; [lia|].
  - rewrite (find_namespace_sim t l next id H). by exists l, next; split; [lia|].
Qed.

Lemma ns_run_sim cs : forall t l next, ns_sim t l next -> 0 <= next -> next + Z.of_nat (length cs) < 2 ^ 32 ->
  run_calls ns_call cs (next, t) = run_calls ns_spec cs (next, ns_map l).
Proof.
  induction cs as [|c cs IH]; intros t l next H H0 Hlen; [done|]. cbn [length] in Hlen. cbn [run_calls].
  destruct (ns_call_sim c t l next H H0) as (l' & next' & Hb & E1 & E2 & E3 & E4); [lia|]. rewrite E1, E4. f_equal.
  rewrite (surjective_pairing (ns_call c (next, t)).2), E2. apply IH; [done|lia|lia].
Qed.

Lemma init_sim (root : A) : ns_sim (init_table root new_ns_table) [{| ns_id := NS_ROOT; ns_body := root |}] 1.
Proof. split; try done; [apply NoDup_singleton|]. apply Forall_singleton. done. Qed.

End refinement.

(** ** Numbers of tasks *)

Section pids.
Implicit Types (p : PidNamespace) (l : list PidEntry) (t : NsTable PidNamespace).

(** The registered tasks of a namespace, in order. *)
Record pid_ok p l : Prop := {
  pid_len : length (entries p) = MAX_PID_ENTRIES;
  pid_slots : take (entry_count p) (entries p) = map Some l;
  pid_count : entry_count p = length l;
  pid_locals : NoDup (map pe_local l);
  pid_globals : NoDup (map pe_global l);
  pid_below : Forall (fun e => pe_local e < next_local_pid p) l;
}.

Lemma pid_ok_new : pid_ok new_pid [].
Proof. split; try done; apply NoDup_nil_2. Qed.

Lemma find_pid_entry_list f p l : pid_ok p l -> find_pid_entry f p = List.find f l.
Proof.
  intros [_ H2 _ _ _ _]. unfold find_pid_entry. rewrite H2. clear H2. induction l as [|e l IH]; [done|]. cbn. by destruct (f e).
Qed.

(** The entry a key belongs to, when keys are not shared. *)
Lemma find_by_key (key : PidEntry -> Z) k l e : NoDup (map key l) -> List.find (fun e => key e =? k) l = Some e <-> e ∈ l /\ key e = k.
Proof.
  intros Hn. split.
  - intros [Hin Hk]%List.find_some. split; [by apply list_elem_of_In|lia].
  - intros [Hin <-]. induction l as [|x l IH]; [by apply not_elem_of_nil in Hin|]. cbn. apply NoDup_cons in Hn as [Hx Hn].
    apply elem_of_cons in Hin as [->|Hin]; [by rewrite Z.eqb_refl|]. destruct (Z.eqb_spec (key x) (key e)) as [E|_]; [|by apply IH].
    exfalso. apply Hx. rewrite E. apply list_elem_of_fmap. by exists e.
Qed.

Lemma pid_register p l tid : pid_ok p l -> (length l < MAX_PID_ENTRIES)%nat -> tid ∉ map pe_global l -> 0 <= next_local_pid p -> next_local_pid p + 1 < 2 ^ 64 ->
  pid_ok {| next_local_pid := u64_add (next_local_pid p) 1;
            entries := <[entry_count p := Some {| pe_local := next_local_pid p; pe_global := tid |}]> (entries p);
            entry_count := entry_count p + 1 |}
         (l ++ [{| pe_local := next_local_pid p; pe_global := tid |}]).
Proof.
  intros [H1 H2 H3 H4 H5 H6] Hl Hf Hn0 Hn. split; cbn [entries entry_count next_local_pid].
  - by rewrite length_insert.
  - rewrite Nat.add_1_r, (take_S_r _ _ (Some {| pe_local := next_local_pid p; pe_global := tid |})) by (apply list_lookup_insert_eq; lia).
    rewrite take_insert_ge by lia. by rewrite H2, map_app.
  - rewrite length_app. cbn. lia.
  - rewrite map_app. apply NoDup_app. split; [done|]. split; [|apply NoDup_singleton]. intros x (e & -> & He)%list_elem_of_fmap.
    eapply Forall_forall in H6; [|exact He]. cbn. rewrite list_elem_of_singleton. cbn in H6. lia.
  - rewrite map_app. apply NoDup_app. split; [done|]. split; [|apply NoDup_singleton]. intros x Hx. cbn. rewrite list_elem_of_singleton. by intros ->.
  - assert (u64_add (next_local_pid p) 1 = next_local_pid p + 1) as -> by (apply u64_add_small; unfold U64; lia).
    apply Forall_app. split; [eapply List.Forall_impl; [|exact H6]; intros e ?; cbn in *; lia|]. apply Forall_singleton. cbn. lia.
Qed.

Lemma pid_unregister p l tid : pid_ok p l ->
  match find_index (fun e => pe_global e =? tid) l with
  | None => remove_entry tid p = p
  | Some i => next_local_pid (remove_entry tid p) = next_local_pid p /\ pid_ok (remove_entry tid p) (delete i l)
  end.
Proof.
  intros H. unfold remove_entry. rewrite (pid_slots _ _ H).
  assert (find_index (entry_with (fun e => pe_global e =? tid)) (map Some l) = find_index (fun e => pe_global e =? tid) l) as ->.
  { unfold find_index. clear H. generalize 0%nat. induction l as [|e l IH]; intros k; cbn; [done|]. by rewrite IH. }
  destruct (find_index _ l) as [i|] eqn:E; [|done]. apply find_index_Some in E as [(e & Hi & _) _]. split; [done|]. pose proof (lookup_lt_Some _ _ _ Hi) as Hlt.
  destruct H as [H1 H2 H3 H4 H5 H6]. rewrite H3 in H2 |- *. pose proof (slots_length _ _ H2).
  destruct (shift_down_delete (<[i := None]> (entries p)) l i) as [S1 S2].
  { rewrite length_insert. lia. }
  { intros j Hj Hne. rewrite list_lookup_insert_ne by done. by apply slots_lookup. }
  assert (forall k : PidEntry -> Z, NoDup (map k l) -> NoDup (map k (delete i l))) as Hnd.
  { intros k Hk. eapply sublist_NoDup; [exact Hk|]. apply (fmap_sublist k), sublist_delete. }
  split; cbn [entries entry_count next_local_pid].
  - by rewrite S1, length_insert.
  - done.
  - by rewrite length_delete by (by exists e).
  - by apply Hnd.
  - by apply Hnd.
  - by apply Forall_delete.
Qed.

(** *** Sequences of calls *)

Inductive PidCall : Type := Register (tid : Z) | Unregister (tid : Z).

Definition pid_call (id : Z) (c : PidCall) (t : NsTable PidNamespace) : option Z * NsTable PidNamespace :=
  match c with
  | Register tid => register_task id tid t
  | Unregister tid => (None, unregister_task id tid t)
  end.

Fixpoint pid_run (id : Z) (cs : list PidCall) (t : NsTable PidNamespace) : list (option Z) * NsTable PidNamespace :=
  match cs with [] => ([], t) | c :: cs => let r := pid_call id c t in let r' := pid_run id cs r.2 in (r.1 :: r'.1, r'.2) end.

(** The calls on a map from tasks to their numbers; a task is registered once at a time. *)
Fixpoint pid_use (cs : list PidCall) (next : Z) (M : gmap Z Z) : option (list (option Z) * gmap Z Z) :=
  match cs with
  | [] => Some ([], M)
  | Register tid :: cs =>
      if decide (is_Some (M !! tid)) then None
      else if (64 <=? size M)%nat then prod_map (cons None) id <$> pid_use cs next M
      else prod_map (cons (Some next)) id <$> pid_use cs (next + 1) (<[tid := next]> M)
  | Unregister tid :: cs => prod_map (cons None) id <$> pid_use cs next (delete tid M)
  end.

Definition as_ns (e : PidEntry) : Namespace Z := {| ns_id := pe_global e; ns_body := pe_local e |}.
Definition pid_map l : gmap Z Z := ns_map (map as_ns l).

Lemma as_ns_ids l : map ns_id (map as_ns l) = map pe_global l.
Proof. rewrite map_map. by apply map_ext. Qed.

Lemma pid_map_lookup p l tid lp : pid_ok p l -> pid_map l !! tid = Some lp <-> {| pe_local := lp; pe_global := tid |} ∈ l.
Proof.
  intros H. unfold pid_map. rewrite ns_map_lookup by (rewrite as_ns_ids; apply H). rewrite list_elem_of_fmap. split.
  - intros ([a b] & [= -> ->] & Hin). done.
  - intros Hin. by exists {| pe_local := lp; pe_global := tid |}.
Qed.

Lemma pid_map_size p l : pid_ok p l -> size (pid_map l) = length l.
Proof.
  intros H. unfold pid_map, ns_map. rewrite map_size_list_to_map; [by rewrite !length_map|]. rewrite <-keys_fst, as_ns_ids. apply H.
Qed.

(** The namespace [id] of a table has the tasks of a map, and gives the number [next] next. *)
Definition pid_sim (id : Z) t (next : Z) (M : gmap Z Z) : Prop :=
  exists L nx p l, ns_sim t L nx /\ ns_map L !! id = Some p /\ pid_ok p l /\ next_local_pid p = next /\ pid_map l = M.

Lemma local_pid_sim id t next M tid : pid_sim id t next M -> local_pid id tid t = M !! tid.
Proof.
  intros (L & nx & p & l & Ht & Hp & Hl & _ & <-). pose proof (find_namespace_sim t L nx id Ht) as Hf. rewrite Hp in Hf. unfold local_pid.
  destruct (find_namespace id t) as [ns|]; [|done]. cbn in Hf |- *. injection Hf as ->. rewrite (find_pid_entry_list _ p l Hl). apply option_eq. intros lp.
  rewrite (pid_map_lookup p l _ _ Hl), fmap_Some. split.
  - intros ([a b] & [Hin E]%find_by_key & ->); [|apply Hl]. cbn in E |- *. by subst.
  - intros Hin. exists {| pe_local := lp; pe_global := tid |}. split; [|done]. apply find_by_key; [apply Hl|done].
Qed.

Lemma global_tid_sim id t next M tid lp : pid_sim id t next M -> global_tid id lp t = Some tid <-> M !! tid = Some lp.
Proof.
  intros (L & nx & p & l & Ht & Hp & Hl & _ & <-). pose proof (find_namespace_sim t L nx id Ht) as Hf. rewrite Hp in Hf. unfold global_tid.
  destruct (find_namespace id t) as [ns|]; [|done]. cbn in Hf |- *. injection Hf as ->. rewrite (find_pid_entry_list _ p l Hl), (pid_map_lookup p l _ _ Hl), fmap_Some. split.
  - intros ([a b] & [Hin E]%find_by_key & ->); [|apply Hl]. cbn in E |- *. by subst.
  - intros Hin. exists {| pe_local := lp; pe_global := tid |}. split; [|done]. apply find_by_key; [apply Hl|done].
Qed.

Lemma register_sim id t next M tid : pid_sim id t next M -> M !! tid = None -> 0 <= next -> next + 1 < 2 ^ 64 ->
  let r := register_task id tid t in
  if (64 <=? size M)%nat then r.1 = None /\ pid_sim id r.2 next M else r.1 = Some next /\ pid_sim id r.2 (next + 1) (<[tid := next]> M).
Proof.
  intros (L & nx & p & l & Ht & Hp & Hl & <- & <-) Hf H0 H1. unfold register_task. cbv zeta.
  match goal with |- context [update_table id None ?f t] => pose proof (update_sim t L nx id None f Ht) as Hu end. cbv zeta in Hu. rewrite Hp in Hu.
  destruct Hu as (-> & L' & Ht' & HL'). rewrite (pid_map_size p l Hl), (pid_count p l Hl) in *. change 64%nat with MAX_PID_ENTRIES.
  destruct (Nat.leb_spec MAX_PID_ENTRIES (length l)) as [Hfull|Hroom]; cbn [fst snd] in *; split; try done.
  - exists L', nx, p, l. split; [done|]. split; [by rewrite HL', lookup_insert_eq|]. by split; [|split].
  - assert (tid ∉ map pe_global l) as Hn.
    { intros ([lp g] & -> & Hin)%list_elem_of_fmap. cbn in Hf. apply (pid_map_lookup p l g lp Hl) in Hin. by rewrite Hin in Hf. }
    pose proof (pid_register p l tid Hl Hroom Hn H0 H1) as Hl'. eexists L', nx, _, _. split; [exact Ht'|]. split; [by rewrite HL', lookup_insert_eq|].
    rewrite <-(pid_count p l Hl). split; [exact Hl'|]. split; [cbn; apply u64_add_small; unfold U64; lia|].
    apply map_eq. intros k. apply option_eq. intros lp. rewrite (pid_map_lookup _ _ _ _ Hl'), elem_of_app, list_elem_of_singleton, lookup_insert_Some, (pid_map_lookup p l _ _ Hl).
    split.
    + intros [Hin|[= -> ->]]; [right|by left]. split; [|done]. intros <-. apply Hn, list_elem_of_fmap. by exists {| pe_local := lp; pe_global := tid |}.
    + intros [[-> ->]|[_ Hin]]; [by right|by left].
Qed.

Lemma unregister_sim id t next M tid : pid_sim id t next M -> pid_sim id (unregister_task id tid t) next (delete tid M).
Proof.
  intros (L & nx & p & l & Ht & Hp & Hl & <- & <-). unfold unregister_task.
  pose proof (update_sim t L nx id tt (fun p => (tt, remove_entry tid p)) Ht) as Hu. cbv zeta in Hu. rewrite Hp in Hu. destruct Hu as (_ & L' & Ht' & HL'). cbn [fst snd] in HL'.
  pose proof (pid_unregister p l tid Hl) as Hr. destruct (find_index _ l) as [i|] eqn:E.
  - destruct Hr as [Hnx Hr]. eexists L', nx, _, (delete i l). split; [exact Ht'|]. split; [by rewrite HL', lookup_insert_eq|]. split; [done|]. split; [done|].
    apply find_index_Some in E as [(e & Hi & Heq%Z.eqb_eq) _]. unfold pid_map. change (map as_ns (delete i l)) with (as_ns <$> delete i l). rewrite list_fmap_delete.
    change (delete tid) with (delete (M := gmap Z Z) tid). rewrite <-Heq. apply (ns_map_delete (map as_ns l) i (as_ns e)); [rewrite as_ns_ids; apply Hl|].
    change (map as_ns l) with (as_ns <$> l). by rewrite list_lookup_fmap, Hi.
  - rewrite Hr in HL'. exists L', nx, p, l. split; [exact Ht'|]. split; [by rewrite HL', lookup_insert_eq|]. split; [done|]. split; [done|].
    symmetry. apply delete_id. destruct (pid_map l !! tid) as [lp|] eqn:Em; [|done]. apply (pid_map_lookup p l _ _ Hl) in Em. apply find_index_None in E.
    eapply Forall_forall in E; [|exact Em]. cbn in E. by rewrite Z.eqb_refl in E.
Qed.

End pids.

Lemma pid_run_sim id cs : forall t next M ans M', pid_sim id t next M -> 0 <= next -> next + Z.of_nat (length cs) < 2 ^ 64 -> pid_use cs next M = Some (ans, M') ->
  (pid_run id cs t).1 = ans /\ exists next', pid_sim id (pid_run id cs t).2 next' M'.
Proof.
  induction cs as [|[tid|tid] cs IH]; intros t next M ans M' Hs H0 Hlen Hu; cbn [length] in Hlen; cbn [pid_use] in Hu.
  - injection Hu as <- <-. split; [done|]. by exists next.
  - destruct (decide (is_Some (M !! tid))) as [|Hf]; [done|]. apply eq_None_not_Some in Hf. pose proof (register_sim id t next M tid Hs Hf H0) as Hr. cbv zeta in Hr.
    destruct (64 <=? size M)%nat; apply fmap_Some in Hu as ([ans' M1] & Hu & [= -> ->]); destruct Hr as [Hr1 Hr2]; try lia; cbn [pid_run pid_call fst snd]; rewrite Hr1.
    + destruct (IH _ _ _ _ _ Hr2 H0 ltac:(lia) Hu) as [-> Hs']. done.
    + destruct (IH _ _ _ _ _ Hr2 ltac:(lia) ltac:(lia) Hu) as [-> Hs']. done.
  - apply fmap_Some in Hu as ([ans' M1] & Hu & [= -> ->]). cbn [pid_run pid_call fst snd].
    destruct (IH _ _ _ _ _ (unregister_sim id t next M tid Hs) H0 ltac:(lia) Hu) as [-> Hs']. done.
Qed.

(** ** Names and users *)

(** A host name that was set is read back, cut to 63 bytes, and the names of other namespaces stay. *)
Lemma hostname_set t l next id name : ns_sim t l next -> is_Some (ns_map l !! id) ->
  (set_hostname id name t).1 = true /\ get_hostname id (set_hostname id name t).2 = padded name /\
  forall id', id' <> id -> get_hostname id' (set_hostname id name t).2 = get_hostname id' t.
Proof.
  intros H [u Hu]. unfold set_hostname. match goal with |- context [update_table id false ?f t] => pose proof (update_sim t l next id false f H) as Hs end. cbv zeta in Hs.
  rewrite Hu in Hs. destruct Hs as (-> & l' & Ht' & Hl'). split; [done|]. assert (forall i tb lb, ns_sim tb lb next -> get_hostname i tb = from_option hostname (replicate MAX_HOSTNAME 0) (ns_map lb !! i)) as Hg.
  { intros i tb lb Hb. unfold get_hostname. rewrite <-(find_namespace_sim tb lb next i Hb). by destruct (find_namespace i tb). }
  split; [by rewrite (Hg _ _ _ Ht'), Hl', lookup_insert_eq|]. intros id' Hne. by rewrite (Hg _ _ _ Ht'), Hl', lookup_insert_ne, (Hg _ _ _ H).
Qed.

(** A user that was mapped is translated as mapped, and a second mapping of it is refused. *)
Lemma map_uid_once t l next id inside outside : ns_sim t l next -> Forall (fun ns => length (uid_map (ns_body ns)) = MAX_UID_MAP) l ->
  (map_uid id inside outside t).1 = true ->
  translate_uid id inside (map_uid id inside outside t).2 = Some outside /\ forall o, (map_uid id inside o (map_uid id inside outside t).2).1 = false.
Proof.
  intros H Hlen. unfold map_uid at 1 2 4. match goal with |- context [update_table id false ?f t] => pose proof (update_sim t l next id false f H) as Hs end. cbv zeta in Hs.
  destruct (ns_map l !! id) as [u|] eqn:Eu; [|by rewrite Hs]. destruct Hs as (-> & l' & Ht' & Hl').
  apply ns_map_lookup in Eu; [|apply H]. eapply Forall_forall in Hlen; [|exact Eu]. cbn in Hlen.
  destruct (Nat.leb_spec MAX_UID_MAP (uid_count u)) as [|Hc]; [done|]. destruct (existsb _ _) eqn:Ex; [done|]. intros _. cbn [fst snd] in Hl'.
  assert (forall n (m : list (Z * Z)), (n < length m)%nat -> take (n + 1) (<[n := (inside, outside)]> m) = take n m ++ [(inside, outside)]) as Htk.
  { intros n m Hn. rewrite Nat.add_1_r, (take_S_r _ _ (inside, outside)) by (by apply list_lookup_insert_eq). by rewrite take_insert_ge by lia. }
  split.
  - unfold translate_uid. pose proof (find_namespace_sim _ _ _ id Ht') as Hf. rewrite Hl', lookup_insert_eq in Hf. destruct (find_namespace id _) as [ns|]; [|done].
    cbn in Hf |- *. injection Hf as ->. cbn. rewrite Htk by lia. induction (take _ _) as [|x m IH]; cbn in Ex |- *; [unfold maps_uid; cbn; by rewrite Z.eqb_refl|].
    apply orb_false_iff in Ex as [-> Ex]. by apply IH.
  - intros o. unfold map_uid. match goal with |- context [update_table id false ?f ?tb] => pose proof (update_sim tb l' next id false f Ht') as Hs end. cbv zeta in Hs.
    rewrite Hl', lookup_insert_eq in Hs. destruct Hs as [-> _]. cbn [uid_count uid_map]. destruct (_ <=? _)%nat; [done|]. rewrite Htk by lia. rewrite existsb_app. cbn.
    unfold maps_uid at 2. cbn. by rewrite Z.eqb_refl, orb_true_r.
Qed.

(** ** The theorems *)

Module NsMain.

(** C31: A table of namespaces is a finite map.  Calls on a table, and creations of namespaces of other kinds between them, give the
    answers the same calls give on a map from numbers to namespaces that holds at most 16: a creation answers the next number of the
    counter and fails only when 16 namespaces exist, a destroyed namespace is gone and no other is touched, though the code
    moves the slots behind it, the root namespace is never destroyed, and a change is seen by later calls on the same
    number and by no others.  The counter has 32 bits and is assumed not to wrap. *)
Theorem ns_table_refines_map {A : Type} (root : A) (cs : list (@NsCall A)) : 1 + Z.of_nat (length cs) < 2 ^ 32 ->
  run_calls ns_call cs (1, init_table root new_ns_table) = run_calls ns_spec cs (1, {[ 0 := root ]}).
Proof.
  intros Hlen. rewrite (ns_run_sim cs _ _ 1 (init_sim root) ltac:(lia) Hlen). by rewrite <-insert_empty.
Qed.

Definition demo_calls : list (@NsCall Z) :=
  [NsCreate 10; NsElsewhere; NsCreate 30; NsCreate 40; NsDestroy 1; NsLook 3; NsChange 4 (fun b => b + 1); NsLook 4; NsLook 1; NsDestroy 0; NsLook 0].

Lemma ns_table_refines_map_witness :
  run_calls ns_call demo_calls (1, init_table 7 new_ns_table) =
  [NsNumber (Some 1); NsDone true; NsNumber (Some 3); NsNumber (Some 4); NsDone true; NsBody (Some 30); NsDone true; NsBody (Some 41);
   NsBody None; NsDone true; NsBody (Some 7)].
Proof. rewrite (ns_table_refines_map 7 demo_calls) by done. by vm_compute. Defined.

(** C32: The numbers of tasks in a namespace.  Registrations and removals of tasks in a namespace, where no task is registered twice at
    a time, answer as on a map from tasks to numbers: a registration gives the next number, which no task had before, and
    is refused only when 64 tasks are registered.  Afterwards the number of a task and the task of a number are those of the map,
    so the two look-ups are inverse to each other, though removals move the entries behind. *)
Theorem pid_numbers (t : NsTable PidNamespace) l nx (id : Z) (cs : list PidCall) ans M :
  ns_sim t l nx -> ns_map l !! id = Some new_pid -> Z.of_nat (length cs) < 2 ^ 64 - 1 -> pid_use cs 1 ∅ = Some (ans, M) ->
  (pid_run id cs t).1 = ans /\
  (forall tid, local_pid id tid (pid_run id cs t).2 = M !! tid) /\
  (forall tid lp, global_tid id lp (pid_run id cs t).2 = Some tid <-> local_pid id tid (pid_run id cs t).2 = Some lp).
Proof.
  intros Ht Hid Hlen Hu. assert (pid_sim id t 1 ∅) as Hs by (exists l, nx, new_pid, []; split; [done|]; split; [done|]; split; [apply pid_ok_new|done]).
  destruct (pid_run_sim id cs t 1 ∅ ans M Hs ltac:(lia) ltac:(lia) Hu) as [Ha [next' Hs']]. split; [done|].
  split; [intros tid; by apply (local_pid_sim _ _ next')|]. intros tid lp. by rewrite (local_pid_sim _ _ next' M _ Hs'), (global_tid_sim _ _ next' M).
Qed.

Definition demo_tasks : list PidCall := [Register 100; Register 200; Register 300; Unregister 100; Register 400; Unregister 200].

Lemma pid_numbers_witness :
  let t := (pid_run 0 demo_tasks (init_table new_pid new_ns_table)).2 in
  (pid_run 0 demo_tasks (init_table new_pid new_ns_table)).1 = [Some 1; Some 2; Some 3; None; Some 4; None] /\
  local_pid 0 300 t = Some 3 /\ global_tid 0 4 t = Some 400 /\ local_pid 0 200 t = None.
Proof.
  destruct (pid_numbers (init_table new_pid new_ns_table) _ 1 0 demo_tasks [Some 1; Some 2; Some 3; None; Some 4; None] {[ 300 := 3; 400 := 4 ]} (init_sim new_pid)) as (H1 & H2 & H3);
    [done|done|by vm_compute|].
  cbv zeta. split; [exact H1|]. split; [rewrite H2; by vm_compute|]. split; [|rewrite H2; by vm_compute]. apply H3. rewrite H2. by vm_compute.
Defined.

End NsMain.
