(* ===== verification/VfsTree.v ===== *)
(** The virtual file system: [crates/zenus-fs/src/vfs.rs].

    Mount tables, the resolution of paths with symbolic links, and the operations on paths.
    A path is the list of its bytes.  The trait [FileSystem] is a record of operations over the state
    [W] of all file systems; an operation returns [None] when it does not return.  [VfsSys] has the
    tables of the mounts and the state of the file systems.  The recursion of the resolution is on the number
    of links it may still follow. *)

From S2P Require Import Ns Prelude Bytes Text Vfs.

(** ** Paths *)

Definition SLASH : Z := 47.
Definition is_slash (c : Z) : bool := c =? SLASH.
Definition dot : bytes := [46].
Definition dot_dot : bytes := [46; 46].

(** [trim_start_matches('/')] and [trim_end_matches('/')] *)
Fixpoint trim_left (p : bytes) : bytes :=
  match p with
  | c :: p' => if is_slash c then trim_left p' else p
  | [] => []
  end.
Definition trim_right (p : bytes) : bytes := reverse (trim_left (reverse p)).

(** [split('/')] *)
Fixpoint split (p : bytes) : list bytes :=
  match p with
  | [] => [[]]
  | c :: p =>
      if is_slash c then [] :: split p
      else match split p with
           | part :: parts => (c :: part) :: parts
           | [] => [[c]]
           end
  end.

(** [rfind('/')] *)
Fixpoint rfind (p : bytes) : option nat :=
  match p with
  | [] => None
  | c :: p =>
      match rfind p with
      | Some k => Some (S k)
      | None => if is_slash c then Some 0%nat else None
      end
  end.

Definition starts_with (p m : bytes) : bool := bytes_eqb (take (length m) p) m.
Definition strip_prefix (p m : bytes) : option bytes := if starts_with p m then Some (drop (length m) p) else None.
Definition starts_slash (p : bytes) : bool := match p with c :: _ => is_slash c | [] => false end.
Definition is_empty (p : bytes) : bool := match p with [] => true | _ => false end.
Definition is_root (p : bytes) : bool := bytes_eqb p [SLASH].

Definition parent_dir (path : bytes) : option bytes :=
  let trimmed := trim_right path in
  if is_empty trimmed then None
  else
    match rfind trimmed with
    | Some pos => if (pos =? 0)%nat then Some [SLASH] else Some (take pos trimmed)
    | None => Some [SLASH]
    end.

Definition file_name (path : bytes) : bytes :=
  let trimmed := trim_right path in
  match rfind trimmed with
  | Some pos => drop (pos + 1) trimmed
  | None => trimmed
  end.

Definition mount_covers (path mount : bytes) : bool :=
  if is_root mount || is_empty mount then starts_slash path
  else
    let mount := trim_right mount in
    if is_empty mount then starts_slash path
    else if negb (starts_with path mount) then false
    else
      match path !! length mount with
      | None => true
      | Some c => is_slash c
      end.

Definition mount_prefix_len (path mount : bytes) : nat :=
  if mount_covers path mount then
    if is_root mount || is_empty mount then 1%nat else length (trim_right mount)
  else 0%nat.

Definition normalise_mount_path (path : bytes) : bytes :=
  let trimmed := trim_right path in
  if is_empty trimmed then [SLASH]
  else if starts_slash trimmed then trimmed
  else SLASH :: trimmed.

Definition paths_equal (a b : bytes) : bool :=
  let a := trim_right a in
  let b := trim_right b in
  if is_empty a && is_empty b then true else bytes_eqb a b.

Definition MS_RDONLY : Z := 1.

Definition rdonly (flags : Z) : bool := negb (Z.land flags MS_RDONLY =? 0).

Definition mount_is_read_only (path mount : bytes) (flags : Z) : bool := mount_covers path mount && rdonly flags.

(** *** The path a link leads to *)

Definition MAX_PATH_SEGMENTS : nat := 32.
Definition MAX_SYMLINK_DEPTH : nat := 8.
Definition MAX_RESOLVED_PATH : nat := 256.

Definition push_byte (b : Z) (buf : bytes) : option bytes :=
  if (MAX_RESOLVED_PATH <=? length buf)%nat then None else Some (buf ++ [b]).

Fixpoint push_bytes (bs buf : bytes) : option bytes :=
  match bs with
  | [] => Some buf
  | b :: bs => push_byte b buf ≫= push_bytes bs
  end.

Fixpoint push_dirs (parts : list bytes) (buf : bytes) : option bytes :=
  match parts with
  | [] => Some buf
  | part :: parts =>
      if is_empty part then push_dirs parts buf
      else buf ← push_bytes part buf; buf ← push_byte SLASH buf; push_dirs parts buf
  end.

Fixpoint push_tail (parts : list bytes) (buf : bytes) : option bytes :=
  match parts with
  | [] => Some buf
  | part :: parts =>
      buf ← match last buf with
            | Some c => if is_slash c then Some buf else push_byte SLASH buf
            | None => push_byte SLASH buf
            end;
      buf ← push_bytes part buf;
      push_tail parts buf
  end.

Definition join_link_target (mount_prefix : bytes) (prefix : list bytes) (target : bytes) (tail : list bytes) : option bytes :=
  if is_empty target then None
  else
    buf ← (if negb (starts_slash target) then push_byte SLASH [] ≫= push_dirs (split mount_prefix ++ prefix) else Some []);
    buf ← push_bytes target buf;
    buf ← push_tail tail buf;
    _ ← from_utf8 buf;
    Some buf.

(** ** File systems and mounts *)

Record FileSystem (W : Type) := {
  root_inode : nat;
  fs_read : nat -> Z -> nat -> W -> option (option bytes);
  fs_write : nat -> Z -> bytes -> W -> option (option nat * W);
  fs_truncate : nat -> Z -> W -> option (bool * W);
  fs_lookup : nat -> bytes -> W -> option (option nat);
  fs_read_dir : nat -> W -> option (list (bytes * FileType * nat));
  fs_stat : nat -> W -> option FileStat;
  fs_readlink : nat -> nat -> W -> option (option bytes);
  fs_create : nat -> bytes -> FileType -> W -> option (option nat * W);
  fs_unlink : nat -> bytes -> W -> option (bool * W);
  fs_symlink : nat -> bytes -> bytes -> W -> option (option nat * W);
  fs_chmod : nat -> Z -> W -> option (bool * W);
  fs_chown : nat -> Z -> Z -> W -> option (bool * W);
}.

#[global] Arguments root_inode {W}.
#[global] Arguments fs_read {W}.
#[global] Arguments fs_write {W}.
#[global] Arguments fs_truncate {W}.
#[global] Arguments fs_lookup {W}.
#[global] Arguments fs_read_dir {W}.
#[global] Arguments fs_stat {W}.
#[global] Arguments fs_readlink {W}.
#[global] Arguments fs_create {W}.
#[global] Arguments fs_unlink {W}.
#[global] Arguments fs_symlink {W}.
#[global] Arguments fs_chmod {W}.
#[global] Arguments fs_chown {W}.

Definition MAX_MOUNTS : nat := 32.
Definition MAX_MNT_NS : nat := 8.

Section vfs.
Context {W : Type}.

Record VfsNode := { v_fs : FileSystem W; v_inode : nat; v_read_only : bool }.

Record Mount := { m_path : bytes; m_fs : FileSystem W; m_flags : Z }.

Record MountTable := { mt_mounts : list Mount; mt_count : nat }.

Record VfsSys := {
  mount_table : MountTable;
  ns_entries : list (option (Z * MountTable));
  ns_count : nat;
  vfs_root : option VfsNode;
  files : W;
}.

(** [for i in 0..count] over a table *)
Definition live (mt : MountTable) : list Mount := take (mt_count mt) (mt_mounts mt).

Definition with_table (mt : MountTable) (s : VfsSys) : VfsSys :=
  {| mount_table := mt; ns_entries := ns_entries s; ns_count := ns_count s; vfs_root := vfs_root s; files := files s |}.
Definition with_ns (es : list (option (Z * MountTable))) (n : nat) (s : VfsSys) : VfsSys :=
  {| mount_table := mount_table s; ns_entries := es; ns_count := n; vfs_root := vfs_root s; files := files s |}.
Definition with_files (w : W) (s : VfsSys) : VfsSys :=
  {| mount_table := mount_table s; ns_entries := ns_entries s; ns_count := ns_count s; vfs_root := vfs_root s; files := w |}.

(** The static tables; unused mounts name the device file system. *)
Definition empty_mount (devfs : FileSystem W) : Mount := {| m_path := []; m_fs := devfs; m_flags := 0 |}.
Definition new_table (devfs : FileSystem W) : MountTable := {| mt_mounts := replicate MAX_MOUNTS (empty_mount devfs); mt_count := 0 |}.

Definition init (tmp_fs : FileSystem W) (new_fs : W -> W) (s : VfsSys) : VfsSys :=
  {| mount_table := {| mt_mounts := <[0%nat := {| m_path := [SLASH]; m_fs := tmp_fs; m_flags := 0 |}]> (mt_mounts (mount_table s)); mt_count := 1 |};
     ns_entries := ns_entries s; ns_count := ns_count s;
     vfs_root := Some {| v_fs := tmp_fs; v_inode := root_inode tmp_fs; v_read_only := false |}; files := new_fs (files s) |}.

Definition create_mnt_ns (ns_id : Z) (s : VfsSys) : bool * VfsSys :=
  if (MAX_MNT_NS <=? ns_count s)%nat then (false, s)
  else (true, with_ns (<[ns_count s := Some (ns_id, mount_table s)]> (ns_entries s)) (ns_count s + 1) s).

(** The entry of a namespace. *)
Definition is_ns (ns_id : Z) (o : option (Z * MountTable)) : bool := match o with Some (id, _) => id =? ns_id | None => false end.
Definition find_ns (ns_id : Z) (es : list (option (Z * MountTable))) : option nat := find_index (is_ns ns_id) es.

(** Longest-prefix selection over a table. *)
Definition best_mount (path : bytes) (ms : list Mount) : option Mount :=
  (foldl (fun best m =>
    let len := mount_prefix_len path (m_path m) in
    if (best.2 <? len)%nat then (Some m, len) else best) (None, 0%nat) ms).1.

(** The table in use for a namespace. *)
Definition table_for (ns_id : Z) (s : VfsSys) : MountTable :=
  if ns_id =? NS_ROOT then mount_table s
  else
    match find_ns ns_id (take (ns_count s) (ns_entries s)) with
    | Some i =>
        match ns_entries s !! i with
        | Some (Some (_, mt)) => mt
        | _ => mount_table s
        end
    | None => mount_table s
    end.

Definition find_mount_in_table (ns_id : Z) (path : bytes) (s : VfsSys) : option Mount := best_mount path (live (table_for ns_id s)).

Definition push_mount (m : Mount) (mt : MountTable) : option MountTable :=
  if (MAX_MOUNTS <=? mt_count mt)%nat then None
  else Some {| mt_mounts := <[mt_count mt := m]> (mt_mounts mt); mt_count := mt_count mt + 1 |}.

Definition mount_in_ns_inner (ns_id : Z) (path : bytes) (fs : FileSystem W) (flags : Z) (s : VfsSys) : bool * VfsSys :=
  let m := {| m_path := normalise_mount_path path; m_fs := fs; m_flags := flags |} in
  let to_root :=
    match push_mount m (mount_table s) with
    | Some mt => (true, with_table mt s)
    | None => (false, s)
    end in
  if ns_id =? NS_ROOT then to_root
  else
    match find_ns ns_id (take (ns_count s) (ns_entries s)) with
    | Some i =>
        match ns_entries s !! i with
        | Some (Some (id, mt)) =>
            match push_mount m mt with
            | Some mt => (true, with_ns (<[i := Some (id, mt)]> (ns_entries s)) (ns_count s) s)
            | None => (false, s)
            end
        | _ => to_root
        end
    | None => to_root
    end.

Definition mount_with_flags := mount_in_ns_inner.
Definition mount_in_ns (ns_id : Z) (path : bytes) (fs : FileSystem W) : VfsSys -> bool * VfsSys := mount_in_ns_inner ns_id path fs 0.
Definition mount (path : bytes) (fs : FileSystem W) : VfsSys -> bool * VfsSys := mount_with_flags NS_ROOT path fs 0.

(** The first mount after the root with this path leaves the table, and the later ones move down. *)
Definition remove_mount (target : bytes) (mt : MountTable) : option MountTable :=
  if (mt_count mt <=? 1)%nat then None
  else
    i ← find_index (fun m => paths_equal (m_path m) target) (drop 1 (live mt));
    let i := S i in
    Some {| mt_mounts := take i (mt_mounts mt) ++ take (mt_count mt - S i) (drop (S i) (mt_mounts mt)) ++ drop (mt_count mt - 1) (mt_mounts mt);
            mt_count := mt_count mt - 1 |}.

Definition umount_in_ns (ns_id : Z) (path : bytes) (s : VfsSys) : bool * VfsSys :=
  let trimmed := trim_right path in
  let target := if is_empty trimmed then [SLASH] else trimmed in
  if ns_id =? NS_ROOT then
    match remove_mount target (mount_table s) with
    | Some mt => (true, with_table mt s)
    | None => (false, s)
    end
  else
    match find_ns ns_id (ns_entries s) with
    | Some i =>
        match ns_entries s !! i with
        | Some (Some (id, mt)) =>
            match remove_mount target mt with
            | Some mt => (true, with_ns (<[i := Some (id, mt)]> (ns_entries s)) (ns_count s) s)
            | None => (false, s)
            end
        | _ => (false, s)
        end
    | None => (false, s)
    end.

Definition umount (path : bytes) : VfsSys -> bool * VfsSys := umount_in_ns NS_ROOT path.

(** ** Resolution *)

(** The path below the mount. *)
Definition relative (mount_prefix path : bytes) : bytes :=
  if is_empty mount_prefix || is_root mount_prefix then path
  else
    match strip_prefix path mount_prefix with
    | Some rest => if is_empty rest then [SLASH] else rest
    | None => path
    end.

(** The components to walk; [current] is the node the walk starts from, that of the mount. *)
Fixpoint collect (current root : nat) (parts segs : list bytes) : option (list bytes) :=
  match parts with
  | [] => Some segs
  | part :: parts =>
      if is_empty part || bytes_eqb part dot then collect current root parts segs
      else if bytes_eqb part dot_dot then
        if (0 <? length segs)%nat then
          if (length segs =? 1)%nat && (current =? root)%nat then collect current root parts segs
          else collect current root parts (take (length segs - 1) segs)
        else collect current root parts segs
      else if (MAX_PATH_SEGMENTS <=? length segs)%nat then None
      else collect current root parts (segs ++ [part])
  end.

(** The walk; [jump] starts again with the path a link leads to, when links may still be followed. *)
Fixpoint walk (jump : option (bytes -> option (option VfsNode))) (mount_prefix : bytes) (read_only follow_final : bool) (w : W)
    (current : VfsNode) (before rest : list bytes) : option (option VfsNode) :=
  match rest with
  | [] => Some (Some current)
  | part :: rest =>
      o ← fs_lookup (v_fs current) (v_inode current) part w;
      match o with
      | None => Some None
      | Some inode =>
          st ← fs_stat (v_fs current) inode w;
          let is_final := match rest with [] => true | _ => false end in
          if bool_decide (st_type st = Symlink) && (follow_final || negb is_final) then
            match jump with
            | None => Some None
            | Some jump =>
                o ← fs_readlink (v_fs current) inode MAX_RESOLVED_PATH w;
                match o with
                | None => Some None
                | Some target =>
                    match from_utf8 target ≫= (fun _ => join_link_target mount_prefix before target rest) with
                    | None => Some None
                    | Some joined => jump joined
                    end
                end
            end
          else
            walk jump mount_prefix read_only follow_final w
              {| v_fs := v_fs current; v_inode := inode; v_read_only := read_only |} (before ++ [part]) rest
      end
  end.

Fixpoint open_in_ns_depth (ns_id : Z) (depth : nat) (follow_final : bool) (s : VfsSys) (path : bytes) : option (option VfsNode) :=
  if is_root path || is_empty path then Some (vfs_root s)
  else
    match find_mount_in_table ns_id path s with
    | None => Some None
    | Some m =>
        let fs := m_fs m in
        let read_only := rdonly (m_flags m) in
        let rel_path := relative (m_path m) path in
        let current := {| v_fs := fs; v_inode := root_inode fs; v_read_only := read_only |} in
        if is_root rel_path || is_empty rel_path then Some (Some current)
        else
          match collect (v_inode current) (root_inode fs) (split (trim_left rel_path)) [] with
          | None => Some None
          | Some segs =>
              let jump := match depth with O => None | S depth => Some (open_in_ns_depth ns_id depth follow_final s) end in
              walk jump (m_path m) read_only follow_final (files s) current [] segs
          end
    end.

Definition open_in_ns (ns_id : Z) (path : bytes) (s : VfsSys) : option (option VfsNode) := open_in_ns_depth ns_id MAX_SYMLINK_DEPTH true s path.
Definition open_in_ns_nofollow (ns_id : Z) (path : bytes) (s : VfsSys) : option (option VfsNode) := open_in_ns_depth ns_id MAX_SYMLINK_DEPTH false s path.

Definition stat_in_ns (ns_id : Z) (path : bytes) (s : VfsSys) : option (option FileStat) :=
  o ← open_in_ns ns_id path s;
  match o with
  | Some node => Some <$> fs_stat (v_fs node) (v_inode node) (files s)
  | None => Some None
  end.

Definition readlink (path : bytes) (n : nat) (s : VfsSys) : option (option bytes) :=
  o ← open_in_ns_nofollow NS_ROOT path s;
  match o with
  | Some node => fs_readlink (v_fs node) (v_inode node) n (files s)
  | None => Some None
  end.

(** ** Operations on paths *)

(** An operation on the directory a path names the parent of. *)
Definition on_parent {A} (ns_id : Z) (path : bytes) (op : VfsNode -> bytes -> W -> option (A * W)) (ok : A -> bool) (s : VfsSys) : option (bool * VfsSys) :=
  match parent_dir path with
  | None => Some (false, s)
  | Some parent =>
      o ← open_in_ns ns_id parent s;
      match o with
      | None => Some (false, s)
      | Some node => r ← op node (file_name path) (files s); Some (ok r.1, with_files r.2 s)
      end
  end.

Definition is_some {A} (o : option A) : bool := match o with Some _ => true | None => false end.

Definition create_file_in_ns (ns_id : Z) (path : bytes) : VfsSys -> option (bool * VfsSys) :=
  on_parent ns_id path (fun node name => fs_create (v_fs node) (v_inode node) name File) is_some.
Definition create_dir_in_ns (ns_id : Z) (path : bytes) : VfsSys -> option (bool * VfsSys) :=
  on_parent ns_id path (fun node name => fs_create (v_fs node) (v_inode node) name Directory) is_some.
Definition symlink_in_ns (ns_id : Z) (path target : bytes) : VfsSys -> option (bool * VfsSys) :=
  on_parent ns_id path (fun node name => fs_symlink (v_fs node) (v_inode node) name target) is_some.
Definition remove_in_ns (ns_id : Z) (path : bytes) : VfsSys -> option (bool * VfsSys) :=
  on_parent ns_id path (fun node name => fs_unlink (v_fs node) (v_inode node) name) id.

Definition create_file := create_file_in_ns NS_ROOT.
Definition create_dir := create_dir_in_ns NS_ROOT.
Definition symlink := symlink_in_ns NS_ROOT.
Definition remove_path := remove_in_ns NS_ROOT.

(** The mounts shown in the root directory. *)
Definition show_mount (entries : list (bytes * FileType * nat)) (m : Mount) : list (bytes * FileType * nat) :=
  let dir_name := trim_left (m_path m) in
  if is_empty dir_name then entries
  else if existsb (fun e => bytes_eqb e.1.1 dir_name) entries then entries
  else entries ++ [(dir_name, Directory, 0%nat)].

Definition read_dir_root_in_ns (ns_id : Z) (s : VfsSys) : option (list (bytes * FileType * nat)) :=
  entries ← match vfs_root s with
            | Some node => fs_read_dir (v_fs node) (v_inode node) (files s)
            | None => Some []
            end;
  let ms :=
    if ns_id =? NS_ROOT then live (mount_table s)
    else
      match find_ns ns_id (take (ns_count s) (ns_entries s)) with
      | Some i => match ns_entries s !! i with Some (Some (_, mt)) => live mt | _ => [] end
      | None => []
      end in
  Some (foldl show_mount entries (drop 1 ms)).

Definition read_dir_in_ns (ns_id : Z) (path : bytes) (s : VfsSys) : option (list (bytes * FileType * nat)) :=
  if is_root path || is_empty path then read_dir_root_in_ns ns_id s
  else
    o ← open_in_ns ns_id path s;
    match o with
    | Some node => fs_read_dir (v_fs node) (v_inode node) (files s)
    | None => Some []
    end.

End vfs.

#[global] Arguments VfsNode : clear implicits.
#[global] Arguments Mount : clear implicits.
#[global] Arguments MountTable : clear implicits.
#[global] Arguments VfsSys : clear implicits.
