(* ===== verification/VfsPerm.v ===== *)
(** Permissions on paths: the second half of [crates/zenus-fs/src/vfs.rs]. *)

From S2P Require Import Ns Prelude Bytes Text Vfs VfsTree.

Definition S_IRUSR : Z := 0x100.
Definition S_IWUSR : Z := 0x080.
Definition S_IXUSR : Z := 0x040.
Definition S_IRGRP : Z := 0x020.
Definition S_IWGRP : Z := 0x010.
Definition S_IXGRP : Z := 0x008.
Definition S_IROTH : Z := 0x004.
Definition S_IWOTH : Z := 0x002.
Definition S_IXOTH : Z := 0x001.

(** [mode & bit != 0] *)
Definition bit_set (mode bit : Z) : bool := negb (Z.land mode bit =? 0).
Definition is_dir (st : FileStat) : bool := bool_decide (st_type st = Directory).

Record Credentials := { c_uid : Z; c_gid : Z; euid : Z; egid : Z; dac_override : bool; dac_read_search : bool }.

Definition new_credentials (u g eu eg : Z) : Credentials :=
  {| c_uid := u; c_gid := g; euid := eu; egid := eg; dac_override := false; dac_read_search := false |}.

Definition with_caps (o r : bool) (c : Credentials) : Credentials :=
  {| c_uid := c_uid c; c_gid := c_gid c; euid := euid c; egid := egid c; dac_override := o; dac_read_search := r |}.

(** One class of [access_check]. *)
Definition class_check (st : FileStat) (r w x : Z) (want_write : bool) : bool :=
  if want_write then
    if negb (bit_set (st_mode st) w) then false
    else if negb (bit_set (st_mode st) x) && is_dir st then false
    else true
  else bit_set (st_mode st) r.

Definition access_check (cred : Credentials) (st : FileStat) (want_write : bool) : bool :=
  if dac_override cred then true
  else if dac_read_search cred && negb want_write then true
  else if euid cred =? st_uid st then class_check st S_IRUSR S_IWUSR S_IXUSR want_write
  else if egid cred =? st_gid st then class_check st S_IRGRP S_IWGRP S_IXGRP want_write
  else class_check st S_IROTH S_IWOTH S_IXOTH want_write.

Definition decode_access_mode (mode : Z) : option (bool * bool * bool) :=
  if negb (Z.land mode (Z.ldiff (2 ^ 32 - 1) 7) =? 0) then None
  else Some (bit_set mode 4, bit_set mode 2, bit_set mode 1).

Definition owns (eu : Z) (st : FileStat) : bool := (eu =? 0) || (eu =? st_uid st).

Definition access_check_bits (eu eg : Z) (override read_search : bool) (st : FileStat) (want_read want_write want_exec : bool) : bool :=
  if override then true
  else if read_search && negb want_write && (negb want_exec || is_dir st) then true
  else
    let '(r, w, x) :=
      if eu =? st_uid st then (S_IRUSR, S_IWUSR, S_IXUSR)
      else if eg =? st_gid st then (S_IRGRP, S_IWGRP, S_IXGRP)
      else (S_IROTH, S_IWOTH, S_IXOTH) in
    if want_read && negb (bit_set (st_mode st) r) then false
    else if want_write && negb (bit_set (st_mode st) w) then false
    else if want_exec && negb (bit_set (st_mode st) x) then false
    else true.

Definition may (cred : Credentials) (st : FileStat) (want_read want_write want_exec : bool) : bool :=
  access_check_bits (euid cred) (egid cred) (dac_override cred) (dac_read_search cred) st want_read want_write want_exec.

Definition may_modify_parent (parent_stat : FileStat) (cred : Credentials) : bool :=
  if dac_override cred then true
  else if negb (is_dir parent_stat) then false
  else may cred parent_stat false true true.

Section calls.
Context {W : Type}.

Definition create_dir_permitted (ns_id : Z) (path : bytes) (cred : Credentials) (s : VfsSys W) : option (bool * VfsSys W) :=
  match parent_dir path with
  | None => Some (false, s)
  | Some parent =>
      o ← stat_in_ns ns_id parent s;
      match o with
      | Some st => if may_modify_parent st cred then create_dir_in_ns ns_id path s else Some (false, s)
      | None => Some (false, s)
      end
  end.

Definition remove_permitted (ns_id : Z) (path : bytes) (cred : Credentials) (s : VfsSys W) : option (bool * VfsSys W) :=
  match parent_dir path with
  | None => Some (false, s)
  | Some parent =>
      o ← stat_in_ns ns_id path s;
      match o with
      | None => Some (false, s)
      | Some _ =>
          o ← stat_in_ns ns_id parent s;
          match o with
          | None => Some (false, s)
          | Some parent_stat => if negb (may_modify_parent parent_stat cred) then Some (false, s) else remove_in_ns ns_id path s
          end
      end
  end.

(** An operation on the node a path names. *)
Definition on_node (ns_id : Z) (path : bytes) (op : VfsNode W -> W -> option (bool * W)) (s : VfsSys W) : option (bool * VfsSys W) :=
  o ← open_in_ns ns_id path s;
  match o with
  | None => Some (false, s)
  | Some node => r ← op node (files s); Some (r.1, with_files r.2 s)
  end.

Definition chmod_permitted (ns_id : Z) (path : bytes) (mode : Z) (cred : Credentials) (s : VfsSys W) : option (bool * VfsSys W) :=
  o ← stat_in_ns ns_id path s;
  match o with
  | None => Some (false, s)
  | Some st =>
      if negb (owns (euid cred) st) then Some (false, s)
      else on_node ns_id path (fun node => fs_chmod (v_fs node) (v_inode node) mode) s
  end.

Definition chown_permitted (ns_id : Z) (path : bytes) (owner group : Z) (cred : Credentials) (s : VfsSys W) : option (bool * VfsSys W) :=
  o ← stat_in_ns ns_id path s;
  match o with
  | None => Some (false, s)
  | Some st =>
      let changes_owner := (0 <=? owner) && negb (owner mod 2 ^ 32 =? st_uid st) in
      if changes_owner && negb (euid cred =? 0) then Some (false, s)
      else if negb changes_owner && negb (owns (euid cred) st) then Some (false, s)
      else
        let new_uid := if 0 <=? owner then owner mod 2 ^ 32 else st_uid st in
        let new_gid := if 0 <=? group then group mod 2 ^ 32 else st_gid st in
        on_node ns_id path (fun node => fs_chown (v_fs node) (v_inode node) new_uid new_gid) s
  end.

Definition access_permitted (ns_id : Z) (path : bytes) (mode : Z) (cred : Credentials) (s : VfsSys W) : option bool :=
  match decode_access_mode mode with
  | None => Some false
  | Some (want_read, want_write, want_exec) =>
      o ← stat_in_ns ns_id path s;
      match o with
      | Some st => Some (may cred st want_read want_write want_exec)
      | None => Some false
      end
  end.

End calls.

(** The letters of a mode. *)
Definition perm_str (mode : Z) : bytes :=
  let ft := Z.land (Z.shiftr mode 12) 0xF in
  let kind := if ft =? 4 then 100 else if ft =? 8 then 45 else if ft =? 2 then 99 else if ft =? 6 then 98 else if ft =? 10 then 108 else 63 in
  let letter bit c := if bit_set mode bit then c else 45 in
  [kind; letter S_IRUSR 114; letter S_IWUSR 119; letter S_IXUSR 120; letter S_IRGRP 114; letter S_IWGRP 119; letter S_IXGRP 120;
   letter S_IROTH 114; letter S_IWOTH 119; letter S_IXOTH 120].
