(* ===== verification/VfsProofs.v ===== *)
(** Proofs about paths, mounts and permissions. *)

From S2P Require Import Ns Prelude Bytes Text Vfs VfsTree VfsPerm.

(** ** Components *)

(** A name that is a component of its own: not empty, not a dot name, without a slash. *)
Definition plain_name (c : bytes) : Prop := c <> [] /\ (SLASH ∉ c) /\ c <> dot /\ c <> dot_dot.

(** [/a/b/c] *)
Definition path_of (cs : list bytes) : bytes := concat (map (cons SLASH) cs).
Definition mount_path (cs : list bytes) : bytes := if bool_decide (cs = []) then [SLASH] else path_of cs.

Lemma path_of_app a b : path_of (a ++ b) = path_of a ++ path_of b.
Proof. unfold path_of. by rewrite map_app, concat_app. Qed.

Lemma path_of_snoc cs c : path_of (cs ++ [c]) = path_of cs ++ SLASH :: c.
Proof. rewrite path_of_app. cbn. by rewrite app_nil_r. Qed.

Lemma not_slash (c : bytes) x : SLASH ∉ c -> x ∈ c -> is_slash x = false.
Proof. intros H Hx. apply Z.eqb_neq. by intros ->. Qed.

Lemma plain_first c : plain_name c -> exists x r, c = x :: r /\ is_slash x = false.
Proof.
  intros (Hne & Hs & _). destruct c as [|x r]; [done|]. exists x, r. split; [done|]. by apply (not_slash (x :: r)); [|apply list_elem_of_here].
Qed.

Lemma plain_last c : plain_name c -> exists x r, c = r ++ [x] /\ is_slash x = false.
Proof.
  intros (Hne & Hs & _). destruct c as [|x r _] using rev_ind; [done|]. exists x, r. split; [done|].
  apply (not_slash (r ++ [x])); [done|]. apply elem_of_app. right. by apply list_elem_of_singleton.
Qed.

(** *** Trimming, splitting and searching *)

Lemma trim_right_plain r x : is_slash x = false -> trim_right (r ++ [x]) = r ++ [x].
Proof. intros H. unfold trim_right. rewrite reverse_snoc. cbn [trim_left]. by rewrite H, reverse_cons, reverse_involutive. Qed.

Lemma path_last cs : Forall plain_name cs -> cs <> [] -> exists r x, path_of cs = r ++ [x] /\ is_slash x = false.
Proof.
  intros Hc Hne. destruct cs as [|c cs _] using rev_ind; [done|]. apply Forall_app in Hc as [_ Hc]. apply Forall_cons in Hc as [Hc _].
  destruct (plain_last c Hc) as (x & r & -> & Hx). rewrite path_of_snoc. exists (path_of cs ++ SLASH :: r), x. split; [|done].
  by rewrite <-app_assoc.
Qed.

Lemma trim_right_path cs : Forall plain_name cs -> trim_right (path_of cs) = path_of cs.
Proof.
  intros Hc. destruct (decide (cs = [])) as [->|Hne]; [done|]. destruct (path_last cs Hc Hne) as (r & x & -> & Hx). by apply trim_right_plain.
Qed.

Lemma split_plain (c : bytes) rest : SLASH ∉ c -> split (c ++ rest) = match split rest with p :: ps => (c ++ p) :: ps | [] => [c] end.
Proof.
  intros Hc. induction c as [|x c IH]; cbn [app split].
  - destruct (split rest) eqn:E; [|done]. destruct rest as [|y rest]; [done|]. cbn in E. destruct (is_slash y); [done|]. by destruct (split rest).
  - rewrite (not_slash (x :: c) x Hc) by apply list_elem_of_here. rewrite IH by (intros H; apply Hc; by apply list_elem_of_further).
    by destruct (split rest).
Qed.

(** A name without a slash, which may be a dot name. *)
Definition is_name (c : bytes) : Prop := c <> [] /\ SLASH ∉ c.

Lemma plain_is_name cs : Forall plain_name cs -> Forall is_name cs.
Proof. intros H. eapply List.Forall_impl; [|exact H]. by intros c (H1 & H2 & _). Qed.

Lemma split_path cs : Forall is_name cs -> split (path_of cs) = [] :: cs.
Proof.
  induction 1 as [|c cs Hc _ IH]; [done|]. change (path_of (c :: cs)) with (SLASH :: c ++ path_of cs). cbn [split].
  change (is_slash SLASH) with true. cbv iota. f_equal. rewrite split_plain by apply Hc. rewrite IH. by rewrite app_nil_r.
Qed.

(** The components of a path, after its first slash. *)
Lemma split_trimmed c cs : Forall is_name (c :: cs) -> split (trim_left (path_of (c :: cs))) = c :: cs.
Proof.
  intros H. apply Forall_cons in H as [Hc Hcs]. change (path_of (c :: cs)) with (SLASH :: c ++ path_of cs). destruct c as [|x r]; [by destruct Hc|].
  assert (is_slash x = false) as Hx by (apply (not_slash (x :: r)); [apply Hc|apply list_elem_of_here]).
  cbn [trim_left app]. change (is_slash SLASH) with true. cbv iota. rewrite Hx. change (x :: r ++ path_of cs) with ((x :: r) ++ path_of cs).
  rewrite split_plain by apply Hc. rewrite split_path by done. by rewrite app_nil_r.
Qed.

Lemma rfind_none (c : bytes) : SLASH ∉ c -> rfind c = None.
Proof.
  induction c as [|x c IH]; intros H; [done|]. cbn [rfind]. rewrite IH by (intros Hin; apply H; by apply list_elem_of_further).
  by rewrite (not_slash (x :: c) x H) by apply list_elem_of_here.
Qed.

Lemma rfind_last (p c : bytes) : SLASH ∉ c -> rfind (p ++ SLASH :: c) = Some (length p).
Proof.
  intros Hc. induction p as [|x p IH]; cbn [app rfind length]; [by rewrite rfind_none|by rewrite IH].
Qed.

Lemma path_snoc_trim cs c : Forall plain_name (cs ++ [c]) -> trim_right (path_of cs ++ SLASH :: c) = path_of cs ++ SLASH :: c.
Proof. intros H. rewrite <-path_of_snoc. by apply trim_right_path. Qed.

Lemma parent_path cs c : Forall plain_name (cs ++ [c]) -> parent_dir (path_of (cs ++ [c])) = Some (mount_path cs).
Proof.
  intros H. pose proof H as [_ Hc]%Forall_app. apply Forall_cons in Hc as [Hc _]. rewrite path_of_snoc. unfold parent_dir. rewrite path_snoc_trim by done.
  destruct (path_of cs ++ SLASH :: c) eqn:E; [by destruct (path_of cs)|]. cbn [is_empty]. rewrite <-E, rfind_last by apply Hc. unfold mount_path.
  destruct (decide (cs = [])) as [->|Hne]; [done|]. rewrite bool_decide_eq_false_2 by done. destruct cs as [|d cs]; [done|]. cbn [Nat.eqb length path_of map concat app].
  f_equal. change (SLASH :: (d ++ concat (map (cons SLASH) cs)) ++ SLASH :: c) with (path_of (d :: cs) ++ SLASH :: c). apply take_app_length'. done.
Qed.

Lemma name_of_path cs c : Forall plain_name (cs ++ [c]) -> file_name (path_of (cs ++ [c])) = c.
Proof.
  intros H. pose proof H as [_ Hc]%Forall_app. apply Forall_cons in Hc as [Hc _]. rewrite path_of_snoc. unfold file_name. rewrite path_snoc_trim by done.
  rewrite rfind_last by apply Hc. rewrite cons_middle, app_assoc. apply drop_app_length'. rewrite length_app. done.
Qed.

Lemma is_root_path c cs : plain_name c -> is_root (path_of (c :: cs)) = false /\ is_empty (path_of (c :: cs)) = false.
Proof. intros Hc. destruct (plain_first c Hc) as (x & r & -> & _). split; [|done]. apply bytes_eqb_neq. done. Qed.

(** Collecting plain components. *)
Lemma collect_plain a b cs segs : Forall plain_name cs -> (length segs + length cs <= MAX_PATH_SEGMENTS)%nat -> collect a b cs segs = Some (segs ++ cs).
Proof.
  intros H. revert segs. induction H as [|c cs (H1 & _ & H3 & H4) _ IH]; intros segs Hl; cbn [collect]; [by rewrite app_nil_r|].
  rewrite (proj2 (bytes_eqb_neq c dot)), (proj2 (bytes_eqb_neq c dot_dot)) by done. assert (is_empty c = false) as -> by (by destruct c). cbn [orb].
  cbn [length] in Hl. rewrite (proj2 (Nat.leb_gt _ _)) by lia. rewrite IH by (rewrite length_app; cbn; lia). by rewrite <-app_assoc.
Qed.

(** ** Mounts *)

(** Nothing, or something below a slash. *)
Definition slashed (t : bytes) : Prop := match t with [] => True | x :: _ => x = SLASH end.

Lemma plain_cut (c m X Y : bytes) : SLASH ∉ c -> SLASH ∉ m -> slashed X -> slashed Y -> c ++ X = m ++ Y -> c = m /\ X = Y.
Proof.
  revert m. induction c as [|x c IH]; intros [|y m] Hc Hm HX HY E; cbn in E.
  - done.
  - exfalso. subst X. cbn in HX. subst y. apply Hm, list_elem_of_here.
  - exfalso. subst Y. cbn in HY. subst x. apply Hc, list_elem_of_here.
  - injection E as -> E. destruct (IH m) as [-> ->]; [..|done]; try done; intros H; [apply Hc|apply Hm]; by apply list_elem_of_further.
Qed.

Lemma slashed_path cs t : slashed t -> slashed (path_of cs ++ t).
Proof. by destruct cs. Qed.

Lemma path_prefix ms cs t : Forall plain_name ms -> Forall plain_name cs -> slashed t -> path_of cs = path_of ms ++ t -> ms `prefix_of` cs.
Proof.
  intros Hm. revert cs. induction Hm as [|m ms Hm _ IH]; intros cs Hc Ht E; [by apply prefix_nil|]. destruct Hc as [|c cs Hc Hcs]; [done|].
  change (path_of (m :: ms)) with (SLASH :: m ++ path_of ms) in E. change (path_of (c :: cs)) with (SLASH :: c ++ path_of cs) in E. injection E as E.
  rewrite <-app_assoc in E. destruct (plain_cut c m (path_of cs) (path_of ms ++ t)) as [-> E']; try done; [apply Hc|apply Hm| |by apply slashed_path|].
  - rewrite <-(app_nil_r (path_of cs)). by apply slashed_path.
  - apply prefix_cons. by apply IH.
Qed.

(** A mount covers the paths whose components begin with its own. *)
Lemma covers_components cs ms : Forall plain_name cs -> Forall plain_name ms -> ms <> [] ->
  mount_covers (path_of cs) (path_of ms) = true <-> ms `prefix_of` cs.
Proof.
  intros Hc Hm Hne. unfold mount_covers. rewrite trim_right_path by done. destruct ms as [|m ms]; [done|].
  pose proof Hm as [Hm1 _]%Forall_cons. destruct (is_root_path m ms Hm1) as [-> ->]. cbn [orb]. unfold starts_with.
  split.
  - destruct (bytes_eqb _ _) eqn:E; [|done]. apply bytes_eqb_eq in E. cbn [negb]. intros Hs.
    apply (path_prefix _ _ (drop (length (path_of (m :: ms))) (path_of cs))); [done|done| |rewrite <-E at 1; by rewrite take_drop].
    destruct (drop _ _) as [|x r] eqn:Ed; [done|]. assert (path_of cs !! length (path_of (m :: ms)) = Some x) as Hx.
    { rewrite <-(Nat.add_0_r (length _)), <-lookup_drop, Ed. done. }
    rewrite Hx in Hs. cbn. by apply Z.eqb_eq.
  - intros [r ->]. rewrite path_of_app, take_app_length, bytes_eqb_refl. cbn [negb]. rewrite lookup_app_r, Nat.sub_diag by done. by destruct r.
Qed.

(** The length by which mounts are compared. *)
Definition weight (ms : list bytes) : nat := if bool_decide (ms = []) then 1%nat else length (path_of ms).

Lemma path_length_app a b : length (path_of (a ++ b)) = (length (path_of a) + length (path_of b))%nat.
Proof. by rewrite path_of_app, length_app. Qed.

Lemma path_length_pos c cs : plain_name c -> (2 <= length (path_of (c :: cs)))%nat.
Proof. intros (Hne & _). destruct c; [done|]. cbn. lia. Qed.

(** Of two mounts that cover a path the heavier has more components. *)
Lemma weight_prefix ms ms' cs : Forall plain_name ms -> Forall plain_name ms' -> ms `prefix_of` cs -> ms' `prefix_of` cs ->
  (weight ms' <= weight ms)%nat -> ms' `prefix_of` ms.
Proof.
  intros H1 H2 P1 P2 Hw. destruct (prefix_weak_total _ _ _ P1 P2) as [[r ->]|?]; [|done]. unfold weight in Hw.
  apply Forall_app in H2 as [_ H2]. destruct H2 as [|c r Hc _]; [by rewrite app_nil_r|]. exfalso.
  rewrite bool_decide_eq_false_2 in Hw by (by destruct ms). rewrite path_length_app in Hw. pose proof (path_length_pos c r Hc). case_bool_decide; lia.
Qed.

Lemma prefix_len_spec cs ms : Forall plain_name cs -> Forall plain_name ms -> cs <> [] ->
  mount_prefix_len (path_of cs) (mount_path ms) = if bool_decide (ms `prefix_of` cs) then weight ms else 0%nat.
Proof.
  intros Hc Hm Hne. unfold mount_prefix_len, mount_path, weight. destruct (decide (ms = [])) as [->|Hms].
  - rewrite !bool_decide_eq_true_2; [|apply prefix_nil|done]. destruct cs; done.
  - rewrite (bool_decide_eq_false_2 (ms = [])) by done. destruct ms as [|m ms]; [done|]. pose proof Hm as [Hm1 _]%Forall_cons.
    destruct (is_root_path m ms Hm1) as [E1 E2]. rewrite E1, E2, trim_right_path by done. cbn [orb].
    destruct (mount_covers _ _) eqn:E; [rewrite bool_decide_eq_true_2; [done|by apply covers_components]|].
    rewrite bool_decide_eq_false_2; [done|]. intros H%covers_components; [congruence|done..].
Qed.

Section mounts.
Context {W : Type}.
Implicit Types (m : Mount W) (l : list (Mount W)) (s : VfsSys W).

Lemma best_fold p l : let b := foldl (fun best m => let len := mount_prefix_len p (m_path m) in
    if (best.2 <? len)%nat then (Some m, len) else best) (None, 0%nat) l in
  match b.1 with
  | Some m => m ∈ l /\ b.2 = mount_prefix_len p (m_path m) /\ (0 < b.2)%nat
  | None => b.2 = 0%nat
  end /\ forall m', m' ∈ l -> (mount_prefix_len p (m_path m') <= b.2)%nat.
Proof.
  induction l as [|m l IH] using rev_ind; [split; [done|]; intros m' H; by apply elem_of_nil in H|]. rewrite foldl_app. cbn [foldl].
  set (b := foldl _ _ _) in *. destruct IH as [IH1 IH2]. destruct (Nat.ltb_spec b.2 (mount_prefix_len p (m_path m))) as [Hlt|Hge]; cbn [fst snd].
  - split; [split; [apply elem_of_app; right; by apply list_elem_of_singleton|lia]|].
    intros m' [H|H%list_elem_of_singleton]%elem_of_app; [specialize (IH2 _ H); lia|by subst].
  - split; [destruct b.1; [|done]; destruct IH1 as [H1 H2]; split; [apply elem_of_app; by left|done]|].
    intros m' [H|H%list_elem_of_singleton]%elem_of_app; [by apply IH2|by subst].
Qed.

(** [best_mount] gives a mount that covers the path, of the greatest length. *)
Lemma best_mount_spec p l :
  match best_mount p l with
  | Some m => m ∈ l /\ (0 < mount_prefix_len p (m_path m))%nat /\
      forall m', m' ∈ l -> (mount_prefix_len p (m_path m') <= mount_prefix_len p (m_path m))%nat
  | None => forall m', m' ∈ l -> mount_prefix_len p (m_path m') = 0%nat
  end.
Proof.
  unfold best_mount. destruct (best_fold p l) as [H1 H2]. set (b := foldl _ _ _) in *. destruct b.1.
  - destruct H1 as (Hm & E & Hp). rewrite <-E. done.
  - intros m' Hm'. specialize (H2 m' Hm'). lia.
Qed.

Lemma best_mount_ext p q l : (forall m, m ∈ l -> mount_prefix_len p (m_path m) = mount_prefix_len q (m_path m)) -> best_mount p l = best_mount q l.
Proof.
  intros H. unfold best_mount. f_equal. induction l as [|m l IH] using rev_ind; [done|]. rewrite !foldl_app. cbn [foldl].
  rewrite IH by (intros x Hx; apply H, elem_of_app; by left). rewrite (H m); [done|]. apply elem_of_app. right. by apply list_elem_of_singleton.
Qed.

(** The mounts of a table have paths in normal form. *)
Definition normal_mount m : Prop := exists ms, Forall plain_name ms /\ m_path m = mount_path ms.
Definition normal_table (mt : MountTable W) : Prop := Forall normal_mount (live mt).

(** The mount of a path is the one whose components are its longest prefix. *)
Lemma find_mount_prefix ns cs s m : normal_table (table_for ns s) -> Forall plain_name cs -> cs <> [] ->
  find_mount_in_table ns (path_of cs) s = Some m ->
  exists ms, Forall plain_name ms /\ m_path m = mount_path ms /\ ms `prefix_of` cs /\
    forall m' ms', m' ∈ live (table_for ns s) -> Forall plain_name ms' -> m_path m' = mount_path ms' -> ms' `prefix_of` cs -> ms' `prefix_of` ms.
Proof.
  intros Hn Hc Hne E. unfold find_mount_in_table in E. pose proof (best_mount_spec (path_of cs) (live (table_for ns s))) as H. rewrite E in H.
  destruct H as (Hin & Hpos & Hmax). pose proof (proj1 (Forall_forall _ _) Hn _ Hin) as (ms & Hms & Em). exists ms. rewrite Em, prefix_len_spec in Hpos, Hmax by done.
  case_bool_decide as Hp; [|lia]. split; [done|]. split; [done|]. split; [done|]. intros m' ms' Hin' Hms' Em' Hp'. apply (weight_prefix ms ms' cs); try done.
  specialize (Hmax m' Hin'). rewrite Em', prefix_len_spec, bool_decide_eq_true_2 in Hmax by done. done.
Qed.

Lemma find_mount_none ns cs s : normal_table (table_for ns s) -> Forall plain_name cs -> cs <> [] ->
  find_mount_in_table ns (path_of cs) s = None ->
  forall m ms, m ∈ live (table_for ns s) -> Forall plain_name ms -> m_path m = mount_path ms -> ~ ms `prefix_of` cs.
Proof.
  intros Hn Hc Hne E m ms Hin Hms Em Hp. unfold find_mount_in_table in E. pose proof (best_mount_spec (path_of cs) (live (table_for ns s))) as H.
  rewrite E in H. specialize (H m Hin). rewrite Em, prefix_len_spec, bool_decide_eq_true_2 in H by done. unfold weight in H.
  case_bool_decide as Hms0; [done|]. destruct ms as [|c ms]; [done|]. pose proof Hms as [Hc1 _]%Forall_cons. pose proof (path_length_pos c ms Hc1). lia.
Qed.

(** The directory of a path has the same mount, unless the path is a mount point. *)
Lemma find_mount_parent ns cs c s m : normal_table (table_for ns s) -> Forall plain_name (cs ++ [c]) -> cs <> [] ->
  find_mount_in_table ns (path_of (cs ++ [c])) s = Some m -> m_path m <> path_of (cs ++ [c]) ->
  find_mount_in_table ns (path_of cs) s = Some m.
Proof.
  intros Hn Hc Hne E Hm. pose proof Hc as [Hcs _]%Forall_app. destruct (find_mount_prefix ns (cs ++ [c]) s m Hn Hc) as (ms & Hms & Em & Hp & Hmax); [by destruct cs|done|].
  rewrite <-E. unfold find_mount_in_table. apply best_mount_ext. intros m' Hin. pose proof (proj1 (Forall_forall _ _) Hn _ Hin) as (ms' & Hms' & Em').
  rewrite Em', !prefix_len_spec by (done || by destruct cs). assert (ms' `prefix_of` cs <-> ms' `prefix_of` (cs ++ [c])) as Hiff; [|by rewrite (bool_decide_ext _ _ Hiff)].
  split; [intros [r ->]; exists (r ++ [c]); by rewrite app_assoc|]. intros Hp'. pose proof (Hmax m' ms' Hin Hms' Em' Hp') as Hpp.
  assert (ms <> cs ++ [c]) as Hneq. { intros ->. apply Hm. rewrite Em. unfold mount_path. rewrite bool_decide_eq_false_2; [done|by destruct cs]. }
  destruct Hp as [r Er]. destruct r as [|d r _] using rev_ind; [rewrite app_nil_r in Er; by destruct Hneq|].
  rewrite app_assoc in Er. apply app_inj_tail in Er as [-> _]. etrans; [exact Hpp|]. by exists r.
Qed.

(** ** Walks *)

(** The inode that a sequence of names leads to when none of them is a link. *)
Fixpoint descend (fs : FileSystem W) (w : W) (inode : nat) (names : list bytes) : option nat :=
  match names with
  | [] => Some inode
  | c :: names =>
      match fs_lookup fs inode c w with
      | Some (Some j) =>
          match fs_stat fs j w with
          | Some st => if bool_decide (st_type st = Symlink) then None else descend fs w j names
          | None => None
          end
      | _ => None
      end
  end.

Lemma walk_descends jump prefix ro follow w fs names : forall ro0 inode before j, descend fs w inode names = Some j ->
  walk jump prefix ro follow w {| v_fs := fs; v_inode := inode; v_read_only := ro0 |} before names =
  Some (Some {| v_fs := fs; v_inode := j; v_read_only := if bool_decide (names = []) then ro0 else ro |}).
Proof.
  induction names as [|c names IH]; intros ro0 inode before j; cbn [descend walk v_fs v_inode]; [by intros [= ->]|].
  destruct (fs_lookup fs inode c w) as [[i|]|]; [|done|done]. cbn [mbind option_bind]. destruct (fs_stat fs i w) as [st|]; [|done]. cbn [mbind option_bind].
  destruct (bool_decide (st_type st = Symlink)); [done|]. cbn [andb]. intros Hd. rewrite (IH ro i (before ++ [c]) j Hd). rewrite (bool_decide_eq_false_2 (c :: names = [])) by done. by case_bool_decide.
Qed.

Lemma relative_path ms rest : Forall plain_name ms -> relative (mount_path ms) (path_of (ms ++ rest)) = if bool_decide (ms <> [] /\ rest = []) then [SLASH] else path_of rest.
Proof.
  intros Hms. unfold relative, mount_path. destruct ms as [|c ms].
  - rewrite bool_decide_eq_true_2 by done. change (is_empty [SLASH] || is_root [SLASH]) with true. cbv iota. rewrite bool_decide_eq_false_2; [done|]. by intros [].
  - rewrite (bool_decide_eq_false_2 (c :: ms = [])) by done. pose proof Hms as [Hc _]%Forall_cons. destruct (is_root_path c ms Hc) as [-> ->]. cbn [orb].
    unfold strip_prefix, starts_with. rewrite path_of_app, take_app_length, bytes_eqb_refl, drop_app_length. destruct rest as [|d rest]; [by rewrite bool_decide_eq_true_2|]. cbn [path_of map concat app is_empty].
    rewrite bool_decide_eq_false_2; [done|]. by intros [].
Qed.

Definition node_of m (inode : nat) : VfsNode W := {| v_fs := m_fs m; v_inode := inode; v_read_only := rdonly (m_flags m) |}.

(** Opening a path without links. *)
Lemma open_descends ns depth follow ms rest s m j : Forall plain_name (ms ++ rest) -> ms ++ rest <> [] -> (length rest <= MAX_PATH_SEGMENTS)%nat ->
  find_mount_in_table ns (path_of (ms ++ rest)) s = Some m -> m_path m = mount_path ms ->
  descend (m_fs m) (files s) (root_inode (m_fs m)) rest = Some j ->
  open_in_ns_depth ns depth follow s (path_of (ms ++ rest)) = Some (Some (node_of m j)).
Proof.
  intros Hc Hne Hl Hf Em Hd. pose proof Hc as [Hms Hrest]%Forall_app.
  assert (is_root (path_of (ms ++ rest)) = false /\ is_empty (path_of (ms ++ rest)) = false) as [E1 E2].
  { destruct (ms ++ rest) as [|c cs]; [done|]. apply is_root_path. by apply Forall_cons in Hc as [? _]. }
  assert (forall X, (if is_root (path_of (ms ++ rest)) || is_empty (path_of (ms ++ rest)) then Some (vfs_root s) else X) = X) as Hif by (by rewrite E1, E2).
  destruct depth; cbn [open_in_ns_depth]; rewrite Hif, Hf, Em, relative_path by done.
  all: destruct rest as [|d rest].
  all: try (injection Hd as <-; rewrite app_nil_r in Hne; rewrite bool_decide_eq_true_2 by done; done).
  all: rewrite bool_decide_eq_false_2 by (by intros []); pose proof Hrest as [Hd1 _]%Forall_cons; destruct (is_root_path d rest Hd1) as [-> ->]; cbn [orb].
  all: rewrite split_trimmed, collect_plain by (done || by apply plain_is_name); rewrite app_nil_l; by apply walk_descends.
Qed.

End mounts.

(** ** Creation *)

(** What a file system promises about [create]: the new name is found, of the type asked for, and nothing else changes.  It promises so for
    the names it stores as they are, [name_fits]; a file system may also accept other names, as the memory
    file system does, which cuts a name after 63 bytes and then does not find it. *)
Class CreateLaws {W : Type} (fs : FileSystem W) := {
  fs_inv : W -> Prop;
  name_fits : bytes -> Prop;
  create_new : forall p n t i w w', fs_inv w -> name_fits n -> fs_create fs p n t w = Some (Some i, w') -> fs_lookup fs p n w = Some None;
  create_found : forall p n t i w w', fs_inv w -> name_fits n -> fs_create fs p n t w = Some (Some i, w') ->
    fs_lookup fs p n w' = Some (Some i) /\ (st_type <$> fs_stat fs i w') = Some t /\
    (forall q m, (q, m) <> (p, n) -> fs_lookup fs q m w' = fs_lookup fs q m w) /\
    (forall j, j <> i -> (st_type <$> fs_stat fs j w') = (st_type <$> fs_stat fs j w));
}.

Section creation.
Context {W : Type} (fs : FileSystem W) `{!CreateLaws fs}.

Lemma descend_created p n t i w w' : fs_inv w -> name_fits n -> fs_create fs p n t w = Some (Some i, w') -> t <> Symlink ->
  forall names inode j, descend fs w inode names = Some j -> descend fs w' inode names = Some j.
Proof.
  intros Hi Hn Hc Ht. destruct (create_found p n t i w w' Hi Hn Hc) as (_ & Hti & Hl & Hs). pose proof (create_new p n t i w w' Hi Hn Hc) as Hnew.
  induction names as [|c names IH]; intros inode j; cbn [descend]; [done|]. destruct (fs_lookup fs inode c w) as [[k|]|] eqn:E; [|done|done].
  rewrite (Hl inode c), E; [|by intros [= -> ->]; congruence]. destruct (fs_stat fs k w) as [st|] eqn:Es; [|done]. case_bool_decide as Hst; [done|]. intros Hd.
  destruct (decide (k = i)) as [->|Hne].
  - destruct (fs_stat fs i w') as [st'|]; [|done]. cbn in Hti. injection Hti as Hti. rewrite bool_decide_eq_false_2 by congruence. by apply IH.
  - specialize (Hs k Hne). rewrite Es in Hs. destruct (fs_stat fs k w') as [st'|]; [|done]. cbn in Hs. injection Hs as Hs.
    rewrite bool_decide_eq_false_2 by congruence. by apply IH.
Qed.

Lemma descend_snoc w names c : forall inode p, descend fs w inode names = Some p -> descend fs w inode (names ++ [c]) = descend fs w p [c].
Proof.
  induction names as [|d names IH]; intros inode p; cbn [descend app]; [by intros [= ->]|]. destruct (fs_lookup fs inode d w) as [[k|]|]; [|done|done].
  destruct (fs_stat fs k w) as [st|]; [|done]. case_bool_decide; [done|]. apply IH.
Qed.

End creation.

(** ** Read-only mounts *)

Section flags.
Context {W : Type} (f : Z).
Implicit Types (s : VfsSys W).

(** The same system with every mount mounted with the flags [f]. *)
Definition mark_mount (m : Mount W) : Mount W := {| m_path := m_path m; m_fs := m_fs m; m_flags := f |}.
Definition mark_table (mt : MountTable W) : MountTable W := {| mt_mounts := map mark_mount (mt_mounts mt); mt_count := mt_count mt |}.
Definition mark_node (n : VfsNode W) : VfsNode W := {| v_fs := v_fs n; v_inode := v_inode n; v_read_only := rdonly f |}.
Definition mark s : VfsSys W :=
  {| mount_table := mark_table (mount_table s); ns_entries := map (fmap (prod_map id mark_table)) (ns_entries s); ns_count := ns_count s;
     vfs_root := mark_node <$> vfs_root s; files := files s |}.

Lemma live_mark mt : live (mark_table mt) = map mark_mount (live mt).
Proof. unfold live. cbn. apply firstn_map. Qed.

Lemma find_index_from_map {A} (g : A -> A) p l : (forall x, p (g x) = p x) -> forall i, find_index_from i p (map g l) = find_index_from i p l.
Proof. intros H. induction l as [|x l IH]; intros i; cbn; [done|]. rewrite H. by destruct (p x). Qed.

Lemma find_ns_mark ns es : find_ns ns (map (fmap (prod_map id mark_table)) es) = find_ns ns es.
Proof. apply find_index_from_map. by intros [[]|]. Qed.

Lemma table_for_mark ns s : table_for ns (mark s) = mark_table (table_for ns s).
Proof.
  unfold table_for. case_if; [done|]. cbn [mark ns_count ns_entries]. rewrite firstn_map, find_ns_mark. destruct (find_ns _ _) as [i|]; [|done].
  rewrite list_lookup_fmap. by destruct (ns_entries s !! i) as [[[]|]|].
Qed.

Lemma best_mark p l : best_mount p (map mark_mount l) = mark_mount <$> best_mount p l.
Proof.
  unfold best_mount. assert (forall b, foldl (fun best m => let len := mount_prefix_len p (m_path m) in if (best.2 <? len)%nat then (Some m, len) else best)
      (prod_map (fmap mark_mount) id b) (map mark_mount l) =
    prod_map (fmap mark_mount) id (foldl (fun best m => let len := mount_prefix_len p (m_path m) in if (best.2 <? len)%nat then (Some m, len) else best) b l)) as H.
  { induction l as [|m l IH]; intros b; [done|]. cbn [map foldl]. rewrite <-IH. f_equal. destruct b as [o k]. cbn [prod_map fst snd mark_mount m_path id].
    by destruct (k <? mount_prefix_len p (m_path m))%nat. }
  etrans; [exact (f_equal fst (H (None, 0%nat)))|]. by destruct (foldl _ _ _).
Qed.

Lemma find_mount_mark ns p s : find_mount_in_table ns p (mark s) = mark_mount <$> find_mount_in_table ns p s.
Proof. unfold find_mount_in_table. by rewrite table_for_mark, live_mark, best_mark. Qed.

Definition mark_opened (r : option (option (VfsNode W))) : option (option (VfsNode W)) := option_map (option_map mark_node) r.

Lemma walk_mark (jump jump' : option (bytes -> option (option (VfsNode W)))) prefix ro follow w names :
  match jump, jump' with
  | Some j, Some j' => forall p, j' p = mark_opened (j p)
  | None, None => True
  | _, _ => False
  end -> forall cur before,
  walk jump' prefix (rdonly f) follow w (mark_node cur) before names = mark_opened (walk jump prefix ro follow w cur before names).
Proof.
  intros Hj. induction names as [|c names IH]; intros cur before; cbn [walk]; [done|]. cbn [mark_node v_fs v_inode].
  destruct (fs_lookup _ _ _ _) as [[i|]|]; [|done|done]. cbn [mbind option_bind]. destruct (fs_stat _ _ _) as [st|]; [|done]. cbn [mbind option_bind].
  case_if; [|apply (IH {| v_fs := v_fs cur; v_inode := i; v_read_only := ro |})].
  destruct jump as [j|], jump' as [j'|]; try done. destruct (fs_readlink _ _ _ _) as [[t|]|]; [|done|done]. cbn [mbind option_bind].
  destruct (from_utf8 t); [|done]. cbn [mbind option_bind]. by destruct (join_link_target _ _ _ _).
Qed.

Lemma open_mark ns follow s depth : forall p, open_in_ns_depth ns depth follow (mark s) p = mark_opened (open_in_ns_depth ns depth follow s p).
Proof.
  induction depth as [|depth IH]; intros p; cbn [open_in_ns_depth]; (case_if; [done|]); rewrite find_mount_mark;
    (destruct (find_mount_in_table ns p s) as [m|]; [|done]); cbn [fmap option_fmap option_map mark_mount m_fs m_path m_flags v_inode]; (case_if; [done|]);
    (destruct (collect _ _ _ _) as [segs|]; [|done]).
  - by apply (walk_mark None None (m_path m) (rdonly (m_flags m)) follow (files s) segs I
      {| v_fs := m_fs m; v_inode := root_inode (m_fs m); v_read_only := rdonly (m_flags m) |}).
  - by apply (walk_mark (Some (open_in_ns_depth ns depth follow s)) (Some (open_in_ns_depth ns depth follow (mark s)))
      (m_path m) (rdonly (m_flags m)) follow (files s) segs IH {| v_fs := m_fs m; v_inode := root_inode (m_fs m); v_read_only := rdonly (m_flags m) |}).
Qed.

Lemma stat_mark ns p s : stat_in_ns ns p (mark s) = stat_in_ns ns p s.
Proof. unfold stat_in_ns, open_in_ns. rewrite open_mark. by destruct (open_in_ns_depth _ _ _ _ _) as [[n|]|]. Qed.

(** The answer of an operation and the marked state after it. *)
Definition marked (r : option (bool * VfsSys W)) : option (bool * VfsSys W) := prod_map id mark <$> r.

Lemma on_parent_mark {A} ns p (op : VfsNode W -> bytes -> W -> option (A * W)) ok s : (forall n c w, op (mark_node n) c w = op n c w) ->
  on_parent ns p op ok (mark s) = marked (on_parent ns p op ok s).
Proof.
  intros Hop. unfold on_parent, open_in_ns. destruct (parent_dir p); [|done]. rewrite open_mark. destruct (open_in_ns_depth _ _ _ _ _) as [[n|]|]; [|done|done].
  cbn [fmap option_fmap option_map mbind option_bind mark_opened]. rewrite Hop. cbn [mark files]. by destruct (op n _ _).
Qed.

Lemma on_node_mark ns p op s : (forall n w, op (mark_node n) w = op n w) -> on_node ns p op (mark s) = marked (on_node ns p op s).
Proof.
  intros Hop. unfold on_node, open_in_ns. rewrite open_mark. destruct (open_in_ns_depth _ _ _ _ _) as [[n|]|]; [|done|done].
  cbn [fmap option_fmap option_map mbind option_bind mark_opened]. rewrite Hop. cbn [mark files]. by destruct (op n _).
Qed.

End flags.
