(* ===== verification/VfsTmpfs.v ===== *)
(** The memory file system behind the [FileSystem] trait: the operations of Tmpfs.v as a
    [FileSystem], and the laws of creation that TmpfsProofs.v gives for it.  Module
    [VfsMain] has the theorems on paths and permissions. *)

From S2P Require Import Tmpfs TmpfsProofs.
From S2P Require Import Ns Prelude Bytes Text Vfs VfsTree VfsPerm VfsProofs.

Definition tmp_fs : FileSystem Tmpfs.Tmp := {|
  root_inode := 0;
  fs_read := fun i o n t => Some (Tmpfs.read t i o n);
  fs_write := fun i o b t => Some (Tmpfs.write i o b t);
  fs_truncate := fun i n t => Some (Tmpfs.truncate i n t);
  fs_lookup := fun i n t => Tmpfs.lookup t i n;
  fs_read_dir := fun i t => Tmpfs.read_dir t i;
  fs_stat := fun i t => Some (Tmpfs.stat t i);
  fs_readlink := fun i n t => Some (Tmpfs.readlink t i n);
  fs_create := Tmpfs.create;
  fs_unlink := Tmpfs.unlink;
  fs_symlink := Tmpfs.symlink;
  fs_chmod := fun i m t => Some (Tmpfs.chmod i m t);
  fs_chown := fun i u g t => Some (Tmpfs.chown i u g t);
|}.

(** The names the table stores and shows as they are. *)
Definition stored_name (nm : bytes) : Prop := (0 < length nm <= 63)%nat /\ is_Some (from_utf8 nm) /\ nm <> [SLASH].

Section laws.
Import Tmpfs TmpfsProofs.

Lemma tmp_create_new p nm ft i t t' : TmpProofs.reached t -> stored_name nm -> create p nm ft t = Some (Some i, t') -> lookup t p nm = Some None.
Proof.
  intros (s & Hs)%TmpProofs.reached_sim (Hl & _ & Hn) Hc. destruct (create_inv t s p nm ft i t' Hs Hc) as (d & Hp & _ & Hf & _).
  unfold lookup. rewrite (read_dir_refines t s p Hs). unfold TmpSpec.read_dir. rewrite Hp. cbn [fmap option_fmap option_map].
  rewrite (find_none_shown s nm (m_kids d)); [done|done|intros ->; cbn in Hl; lia|done].
Qed.

Lemma tmp_create_types p nm ft i t t' j : TmpProofs.reached t -> create p nm ft t = Some (Some i, t') -> j <> i -> st_type (stat t' j) = st_type (stat t j).
Proof.
  intros (s & Hs)%TmpProofs.reached_sim Hc Hj. destruct (create_inv t s p nm ft i t' Hs Hc) as (d & Hp & _ & _ & -> & _ & Hs').
  rewrite (stat_refines _ _ j Hs'), (stat_refines _ _ j Hs). unfold TmpSpec.stat. destruct (decide (j < length s)%nat) as [Hlt|Hge].
  - rewrite lookup_app_l by (by rewrite length_insert). destruct (decide (j = p)) as [->|Hne]; [|by rewrite list_lookup_insert_ne].
    by rewrite list_lookup_insert_eq, Hp.
  - rewrite (lookup_ge_None_2 s j) by lia. rewrite lookup_ge_None_2; [done|]. rewrite length_app, length_insert. cbn. lia.
Qed.

#[export] Program Instance tmp_create_laws : CreateLaws tmp_fs := {| fs_inv := TmpProofs.reached; name_fits := stored_name |}.
Next Obligation. intros p n ft i w w'. apply tmp_create_new. Qed.
Next Obligation.
  intros p n ft i w w' Hw Hn Hc. destruct Hn as (Hl & Hu & Hs).
  destruct (TmpProofs.tmpfs_created_entry_found w p n ft i w' Hw Hl Hu Hs Hc) as (H1 & H2 & _ & _ & H3). split_and!; [done|cbn; by f_equal|done|].
  intros j Hj. cbn. f_equal. by apply (tmp_create_types p n ft i).
Qed.

End laws.

(** Opening a path below a mount is a walk over its collected components. *)
Lemma open_below {W} ns depth follow ms names (s : VfsSys W) m : Forall plain_name ms -> Forall is_name names -> names <> [] ->
  find_mount_in_table ns (path_of (ms ++ names)) s = Some m -> m_path m = mount_path ms ->
  open_in_ns_depth ns depth follow s (path_of (ms ++ names)) =
  match collect (root_inode (m_fs m)) (root_inode (m_fs m)) names [] with
  | None => Some None
  | Some segs =>
      walk match depth with O => None | S depth => Some (open_in_ns_depth ns depth follow s) end (mount_path ms) (rdonly (m_flags m)) follow (files s)
        (node_of m (root_inode (m_fs m))) [] segs
  end.
Proof.
  intros Hms Hn Hne Hf Em. assert (forall c cs, is_name c -> is_root (path_of (c :: cs)) || is_empty (path_of (c :: cs)) = false) as Hroot.
  { intros [|x c] cs [? _]; [done|]. cbn [path_of map concat app is_empty]. by rewrite orb_false_r. }
  assert (is_root (path_of (ms ++ names)) || is_empty (path_of (ms ++ names)) = false) as E.
  { destruct ms as [|c ms]; [destruct names as [|c names]; [done|]|]; apply Hroot; [by apply Forall_cons in Hn as [? _]|].
    by apply plain_is_name, Forall_cons in Hms as [? _]. }
  destruct depth; cbn [open_in_ns_depth]; rewrite E, Hf, Em, relative_path by done; rewrite bool_decide_eq_false_2 by (by intros []);
    (destruct names as [|c names]; [done|]); pose proof Hn as [Hc _]%Forall_cons; rewrite Hroot, split_trimmed by done; reflexivity.
Qed.

(** Two dots after one component are dropped. *)
Lemma collect_dotdot root a rest : plain_name a -> collect root root (a :: dot_dot :: rest) [] = collect root root (a :: rest) [].
Proof.
  intros (H1 & _ & H3 & H4). cbn [collect]. rewrite (proj2 (bytes_eqb_neq a dot)), (proj2 (bytes_eqb_neq a dot_dot)) by done.
  assert (is_empty a = false) as -> by (by destruct a). cbn. by rewrite Nat.eqb_refl.
Qed.

(** *** Links *)

Lemma push_bytes_fits bs : forall buf, (length buf + length bs <= MAX_RESOLVED_PATH)%nat -> push_bytes bs buf = Some (buf ++ bs).
Proof.
  induction bs as [|b bs IH]; intros buf H; cbn [push_bytes length] in *; [by rewrite app_nil_r|]. unfold push_byte.
  rewrite (proj2 (Nat.leb_gt _ _)) by lia. cbn [mbind option_bind]. rewrite IH; [by rewrite <-app_assoc|]. rewrite length_app. cbn. lia.
Qed.

(** In the root directory the name [a] is a link with this target. *)
Definition links_to {W} (fs : FileSystem W) (w : W) (a target : bytes) : Prop :=
  exists i st, fs_lookup fs (root_inode fs) a w = Some (Some i) /\ fs_stat fs i w = Some st /\ st_type st = Symlink /\
    fs_readlink fs i MAX_RESOLVED_PATH w = Some (Some target) /\ from_utf8 target = Some target /\ (length target <= MAX_RESOLVED_PATH)%nat.

Lemma open_link {W} ns depth (s : VfsSys W) m a : plain_name a -> m_path m = [SLASH] -> find_mount_in_table ns (path_of [a]) s = Some m ->
  open_in_ns_depth ns depth true s (path_of [a]) =
  walk match depth with O => None | S depth => Some (open_in_ns_depth ns depth true s) end [SLASH] (rdonly (m_flags m)) true (files s)
    (node_of m (root_inode (m_fs m))) [] [a].
Proof.
  intros Ha Em Hf. assert (Forall plain_name [a]) as Hfa by (by apply Forall_singleton).
  change (path_of [a]) with (path_of ([] ++ [a])). rewrite (open_below ns depth true [] [a] s m) by (done || by apply plain_is_name). rewrite collect_plain; [done|done|]. cbn. unfold MAX_PATH_SEGMENTS. lia.
Qed.

(** A walk that ends with an absolute link goes on with its target. *)
Lemma walk_link {W} jump prefix ro (w : W) m a target : links_to (m_fs m) w a target -> starts_slash target = true ->
  walk (Some jump) prefix ro true w (node_of m (root_inode (m_fs m))) [] [a] = jump target.
Proof.
  intros (i & st & Hl & Hst & Hty & Hr & Hu & Hlen) Hs. cbn [walk node_of v_fs v_inode]. rewrite Hl. cbn [mbind option_bind]. rewrite Hst. cbn [mbind option_bind].
  rewrite bool_decide_eq_true_2 by done. cbn [andb orb]. rewrite Hr. cbn [mbind option_bind]. rewrite Hu. cbn [mbind option_bind]. unfold join_link_target.
  rewrite Hs. destruct (is_empty target) eqn:E; [by destruct target|]. cbn [negb mbind option_bind]. rewrite push_bytes_fits by done.
  cbn [app mbind option_bind push_tail]. by rewrite Hu.
Qed.

(** *** Mounting *)

Lemma normal_path ms : Forall plain_name ms -> ms <> [] -> normalise_mount_path (path_of ms) = path_of ms.
Proof. intros H Hne. unfold normalise_mount_path. rewrite trim_right_path by done. by destruct ms. Qed.

Lemma paths_equal_normal {W} (m : Mount W) ms : normal_mount m -> Forall plain_name ms -> ms <> [] ->
  paths_equal (m_path m) (path_of ms) = bool_decide (m_path m = path_of ms).
Proof.
  intros (cs & Hcs & ->) Hms Hne. unfold paths_equal, mount_path. rewrite (trim_right_path ms) by done. destruct (decide (cs = [])) as [->|Hc].
  - rewrite bool_decide_eq_true_2 by done. destruct ms as [|[|x c] ms]; [done|by apply Forall_cons in Hms as [[? _] _]|]. by rewrite bool_decide_eq_false_2.
  - rewrite (bool_decide_eq_false_2 (cs = [])), trim_right_path by done. destruct cs as [|c cs]; [done|]. change (is_empty (path_of (c :: cs))) with false. cbn [andb].
    case_bool_decide as E; [rewrite E; apply bytes_eqb_refl|by apply bytes_eqb_neq].
Qed.

Lemma push_live {W} (m : Mount W) mt mt1 : push_mount m mt = Some mt1 -> length (mt_mounts mt) = MAX_MOUNTS ->
  live mt1 = live mt ++ [m] /\ mt_count mt1 = S (mt_count mt) /\ length (mt_mounts mt1) = MAX_MOUNTS /\ (mt_count mt < MAX_MOUNTS)%nat.
Proof.
  unfold push_mount. destruct (Nat.leb_spec MAX_MOUNTS (mt_count mt)) as [|Hlt]; [done|]. intros [= <-] Hl. cbn [mt_count mt_mounts].
  split; [|split; [lia|split; [by rewrite length_insert|done]]]. unfold live. cbn. rewrite Nat.add_1_r.
  erewrite take_S_r by (apply list_lookup_insert_eq; lia). by rewrite take_insert_ge by lia.
Qed.

(** Removing the first mount after the root with a path. *)
Lemma remove_live {W} target (mt : MountTable W) i : (1 < mt_count mt <= length (mt_mounts mt))%nat ->
  find_index (fun m => paths_equal (m_path m) target) (drop 1 (live mt)) = Some i ->
  exists mt2, remove_mount target mt = Some mt2 /\ live mt2 = take (S i) (live mt) ++ drop (S (S i)) (live mt).
Proof.
  intros Hc Hi. pose proof Hi as [(m & Hm & _) _]%find_index_Some. rewrite lookup_drop in Hm. apply lookup_lt_Some in Hm.
  assert (length (live mt) = mt_count mt) as Hll by (unfold live; rewrite length_take; lia). unfold remove_mount.
  rewrite (proj2 (Nat.leb_gt _ _)), Hi by lia. cbn [mbind option_bind]. eexists. split; [done|]. unfold live. cbn [mt_mounts mt_count].
  rewrite app_assoc, take_app_length' by (rewrite length_app, !length_take, length_drop; lia).
  by rewrite take_take, Nat.min_l, skipn_firstn_comm by lia.
Qed.

(** The first element with a property in a list that ends with one. *)
Lemma find_first {A} (P : A -> Prop) `{!forall x, Decision (P x)} (l : list A) x (p : A -> bool) : P x ->
  (forall y, y ∈ l ++ [x] -> p y = bool_decide (P y)) ->
  exists i, find_index p (l ++ [x]) = Some i /\ ((forall y, y ∈ l -> ~ P y) -> i = length l) /\
    (forall k y, l !! k = Some y -> P y -> (forall j z, (j < k)%nat -> l !! j = Some z -> ~ P z) -> i = k).
Proof.
  intros Hx Hp. assert (forall k y, (l ++ [x]) !! k = Some y -> p y = bool_decide (P y)) as Hpk by (intros k y Hk; apply Hp; by eapply list_elem_of_lookup_2).
  destruct (find_index p (l ++ [x])) as [i|] eqn:E.
  2: { apply find_index_None in E. rewrite Forall_forall in E. specialize (E x ltac:(set_solver)). rewrite Hp in E by set_solver. by apply bool_decide_eq_false in E. }
  exists i. split; [done|]. apply find_index_Some in E as [(y & Hy & Hpy) Hmin]. rewrite (Hpk i y Hy) in Hpy. apply bool_decide_eq_true in Hpy. split.
  - intros Hno. apply lookup_snoc_Some in Hy as [[Hlt Hy]|[-> _]]; [|done]. exfalso. apply (Hno y); [by eapply list_elem_of_lookup_2|done].
  - intros k z Hk Hz Hfirst. destruct (Nat.lt_trichotomy i k) as [Hlt|[->|Hgt]]; [|done|].
    + exfalso. apply (Hfirst i y Hlt); [|done]. rewrite lookup_app_l in Hy by (apply lookup_lt_Some in Hk; lia). done.
    + pose proof (lookup_app_l_Some l [x] k z Hk) as Hk'. specialize (Hmin k z Hgt Hk'). rewrite (Hpk k z Hk') in Hmin. by apply bool_decide_eq_false in Hmin.
Qed.

Lemma mount_above ms rest c : plain_name c -> mount_path ms <> path_of ((ms ++ rest) ++ [c]).
Proof.
  intros (Hc & _) E%(f_equal length). rewrite path_of_snoc, path_of_app, !length_app in E. cbn [length] in E. unfold mount_path in E.
  destruct c as [|x c]; [done|]. cbn [length] in E. case_bool_decide; cbn [length] in E; lia.
Qed.

(** What a creation by path did, when the directory is reached without links. *)
Lemma create_on_parent {W} (fs : FileSystem W) ns ms rest c (s s' : VfsSys W) m p ro ft :
  normal_table (table_for ns s) -> Forall plain_name ((ms ++ rest) ++ [c]) -> (length (rest ++ [c]) <= MAX_PATH_SEGMENTS)%nat ->
  find_mount_in_table ns (path_of ((ms ++ rest) ++ [c])) s = Some m -> m_path m = mount_path ms -> m_fs m = fs ->
  (ms ++ rest = [] -> vfs_root s = Some {| v_fs := fs; v_inode := root_inode fs; v_read_only := ro |}) ->
  descend fs (files s) (root_inode fs) rest = Some p ->
  on_parent ns (path_of ((ms ++ rest) ++ [c])) (fun node name => fs_create (v_fs node) (v_inode node) name ft) is_some s = Some (true, s') ->
  exists i, fs_create fs p c ft (files s) = Some (Some i, files s') /\ s' = with_files (files s') s.
Proof.
  intros Hn Hc Hl Hf Em <- Hroot Hd Hcr. unfold on_parent in Hcr. rewrite parent_path, name_of_path in Hcr by done.
  assert (exists ro', open_in_ns ns (mount_path (ms ++ rest)) s = Some (Some {| v_fs := m_fs m; v_inode := p; v_read_only := ro' |})) as [ro' Ho].
  { destruct (decide (ms ++ rest = [])) as [E|Hne].
    - apply app_nil in E as [-> ->]. injection Hd as <-. exists ro. unfold open_in_ns. cbn [open_in_ns_depth MAX_SYMLINK_DEPTH]. f_equal. by apply Hroot.
    - exists (rdonly (m_flags m)). unfold mount_path. rewrite bool_decide_eq_false_2 by done. pose proof Hc as [Hcs _]%Forall_app.
      rewrite length_app in Hl. cbn in Hl. apply open_descends; try done; [lia|]. apply (find_mount_parent ns (ms ++ rest) c); try done.
      rewrite Em. apply mount_above. by apply Forall_app in Hc as [_ [? _]%Forall_cons]. }
  rewrite Ho in Hcr. cbn [mbind option_bind v_fs v_inode] in Hcr. destruct (fs_create (m_fs m) p c ft (files s)) as [[[i|] w']|]; [|done|done].
  cbn in Hcr. injection Hcr as <-. by exists i.
Qed.

(** ** Theorems *)

Module VfsMain.

(** C34: A path belongs to the mount of its longest prefix.  In a table whose mounts have normal paths, the mount that a path
    resolves in has as components a prefix of those of the path, and every other mount with that
    property has a prefix of them; no mount is found only when none has it. *)
Theorem vfs_longest_mount {W} ns cs (s : VfsSys W) : normal_table (table_for ns s) -> Forall plain_name cs -> cs <> [] ->
  match find_mount_in_table ns (path_of cs) s with
  | Some m => exists ms, Forall plain_name ms /\ m_path m = mount_path ms /\ ms `prefix_of` cs /\
      forall m' ms', m' ∈ live (table_for ns s) -> Forall plain_name ms' -> m_path m' = mount_path ms' -> ms' `prefix_of` cs -> ms' `prefix_of` ms
  | None => forall m ms, m ∈ live (table_for ns s) -> Forall plain_name ms -> m_path m = mount_path ms -> ~ ms `prefix_of` cs
  end.
Proof.
  intros Hn Hc Hne. destruct (find_mount_in_table ns (path_of cs) s) as [m|] eqn:E; [by apply find_mount_prefix|by apply find_mount_none].
Qed.


(** A parent step after the first name is lost.  Below a mount, a path that goes into a directory and back out with
    two dots is resolved as if the dots were absent: [/a/../b] opens [/a/b] and not [/b]. *)
Theorem vfs_dotdot_lost {W} ns depth follow ms a rest (s : VfsSys W) m :
  Forall plain_name (ms ++ a :: rest) -> m_path m = mount_path ms ->
  find_mount_in_table ns (path_of (ms ++ a :: dot_dot :: rest)) s = Some m -> find_mount_in_table ns (path_of (ms ++ a :: rest)) s = Some m ->
  open_in_ns_depth ns depth follow s (path_of (ms ++ a :: dot_dot :: rest)) = open_in_ns_depth ns depth follow s (path_of (ms ++ a :: rest)).
Proof.
  intros Hc Em H1 H2. pose proof Hc as [Hms Hrest]%Forall_app. pose proof Hrest as [Ha Hr]%Forall_cons.
  assert (Forall is_name (a :: dot_dot :: rest)) as Hnames.
  { apply Forall_cons; split; [by destruct Ha as (? & ? & _)|]. apply Forall_cons; split; [|by apply plain_is_name].
    split; [done|]. unfold dot_dot. set_solver. }
  rewrite (open_below ns depth follow ms (a :: dot_dot :: rest) s m), (open_below ns depth follow ms (a :: rest) s m) by (done || by apply plain_is_name).
  rewrite collect_dotdot by done. done.
Qed.

(** Read-only mounts are changed like the others.  Creating a file or a directory, removing, linking and changing
    the mode or the owner by path answer and act the same whatever the flags of the mounts. *)
Theorem vfs_read_only_not_enforced {W} f ns path (cred : Credentials) (s : VfsSys W) :
  create_file_in_ns ns path (mark f s) = marked f (create_file_in_ns ns path s) /\
  create_dir_permitted ns path cred (mark f s) = marked f (create_dir_permitted ns path cred s) /\
  remove_permitted ns path cred (mark f s) = marked f (remove_permitted ns path cred s) /\
  (forall target, symlink_in_ns ns path target (mark f s) = marked f (symlink_in_ns ns path target s)) /\
  (forall mode, chmod_permitted ns path mode cred (mark f s) = marked f (chmod_permitted ns path mode cred s)) /\
  forall owner group, chown_permitted ns path owner group cred (mark f s) = marked f (chown_permitted ns path owner group cred s).
Proof.
  split_and!; intros; unfold create_dir_permitted, remove_permitted, chmod_permitted, chown_permitted.
  1, 4: by apply on_parent_mark.
  1, 2: destruct (parent_dir path); [|done].
  all: rewrite !stat_mark; repeat match goal with |- (?r ≫= _) = _ => destruct r as [[?|]|]; [cbn [mbind option_bind]|done|done] end.
  all: repeat match goal with |- (if ?b then _ else _) = _ => destruct b end; first [done|by apply on_parent_mark|by apply on_node_mark].
Qed.

(** The two permission checks agree.  The check used on open files is the check used on paths, asked to read or to write,
    and to search as well when a directory is written. *)
Theorem access_checks_agree cred st want_write :
  access_check cred st want_write =
  access_check_bits (euid cred) (egid cred) (dac_override cred) (dac_read_search cred) st (negb want_write) want_write (want_write && is_dir st).
Proof.
  unfold access_check, access_check_bits, class_check. destruct (dac_override cred); [done|]. destruct (dac_read_search cred), want_write, (is_dir st); cbn [negb andb orb]; try done.
  all: destruct (euid cred =? st_uid st), (egid cred =? st_gid st); cbn [negb andb].
  all: by repeat match goal with |- context [bit_set ?a ?b] => destruct (bit_set a b) end.
Qed.

(** Links that lead in a circle are refused.  When each name of a set of names in the root directory is a link to the path of a name
    of the set, opening any of them ends with no node, whatever the depth allowed. *)
Theorem vfs_link_loop_refused {W} ns (s : VfsSys W) m (names : list bytes) :
  Forall plain_name names -> m_path m = [SLASH] -> (forall a, a ∈ names -> find_mount_in_table ns (path_of [a]) s = Some m) ->
  (forall a, a ∈ names -> exists b, b ∈ names /\ links_to (m_fs m) (files s) a (path_of [b])) ->
  forall depth a, a ∈ names -> open_in_ns_depth ns depth true s (path_of [a]) = Some None.
Proof.
  intros Hp Em Hf Hlinks. induction depth as [|depth IH]; intros a Ha; pose proof (proj1 (Forall_forall _ _) Hp a Ha) as Hpa;
    rewrite (open_link ns _ s m a) by (done || by apply Hf); [|destruct (Hlinks a Ha) as (b & Hb & Hl)].
  - destruct (Hlinks a Ha) as (b & Hb & i & st & Hlk & Hst & Hty & _). cbn [walk node_of v_fs v_inode]. rewrite Hlk. cbn [mbind option_bind]. rewrite Hst.
    cbn [mbind option_bind]. by rewrite bool_decide_eq_true_2.
  - rewrite (walk_link _ _ _ _ m a (path_of [b])) by done. by apply IH.
Qed.

(** C35: What mounting at a path and unmounting it again does.  The mount at a path other than the root goes to the end of the table, and the unmount
    succeeds.  When no mount after the first has the path already, the table then lists the mounts it listed before, and every path
    resolves in the mount it resolved in.  When one has, the first of them leaves the table in place of the new one, which stays. *)
Theorem vfs_mount_umount {W} ms fs flags (s s1 : VfsSys W) : Forall plain_name ms -> ms <> [] ->
  normal_table (mount_table s) -> (1 <= mt_count (mount_table s))%nat -> length (mt_mounts (mount_table s)) = MAX_MOUNTS ->
  mount_with_flags NS_ROOT (path_of ms) fs flags s = (true, s1) ->
  let new := {| m_path := path_of ms; m_fs := fs; m_flags := flags |} in
  let here m := m_path m = path_of ms in
  live (mount_table s1) = live (mount_table s) ++ [new] /\
  exists s2, umount (path_of ms) s1 = (true, s2) /\ files s2 = files s /\
    ((forall m, m ∈ drop 1 (live (mount_table s)) -> ~ here m) ->
     live (mount_table s2) = live (mount_table s) /\
     forall path, find_mount_in_table NS_ROOT path s2 = find_mount_in_table NS_ROOT path s) /\
    (forall i m, drop 1 (live (mount_table s)) !! i = Some m -> here m ->
     (forall j m', (j < i)%nat -> drop 1 (live (mount_table s)) !! j = Some m' -> ~ here m') ->
     live (mount_table s2) = take (S i) (live (mount_table s)) ++ drop (S (S i)) (live (mount_table s)) ++ [new]).
Proof.
  intros Hms Hne Hn Hcnt Hlen. unfold mount_with_flags, mount_in_ns_inner, umount, umount_in_ns. cbn [Z.eqb NS_ROOT].
  rewrite normal_path, trim_right_path by done. set (m := {| m_path := _; m_fs := fs; m_flags := flags |}).
  destruct (push_mount m (mount_table s)) as [mt|] eqn:Ep; [|done]. intros [= <-]. pose (here := fun m : Mount W => m_path m = path_of ms). assert (is_empty (path_of ms) = false) as -> by (by destruct ms).
  destruct (push_live m (mount_table s) mt Ep Hlen) as (Hlive & Hc1 & Hl1 & Hlt). split; [exact Hlive|]. cbn [with_table mount_table].
  assert (length (live (mount_table s)) = mt_count (mount_table s)) as Hll by (unfold live; rewrite length_take; lia).
  assert (drop 1 (live mt) = drop 1 (live (mount_table s)) ++ [m]) as Hd by (by rewrite Hlive, drop_app_le by lia).
  assert (forall m', m' ∈ drop 1 (live mt) -> paths_equal (m_path m') (path_of ms) = bool_decide (here m')) as Heq.
  { intros m' Hm'. apply paths_equal_normal; [|done|done]. rewrite Hd in Hm'. apply elem_of_app in Hm' as [Hm'|Hm'].
    - exact (proj1 (Forall_forall _ _) (Forall_drop _ 1 _ Hn) m' Hm').
    - apply list_elem_of_singleton in Hm' as ->. exists ms. split; [done|]. unfold mount_path. by rewrite bool_decide_eq_false_2. }
  destruct (find_first here (drop 1 (live (mount_table s))) m _ eq_refl (fun m' Hm' => Heq m' (eq_ind_r _ Hm' Hd))) as (i & Ei & Hlast & Hfirst).
  rewrite <-Hd in Ei. destruct (remove_live (path_of ms) mt i ltac:(lia) Ei) as (mt2 & Hr & Hl2). rewrite Hr. eexists. split; [reflexivity|].
  cbn [with_table mount_table]. split; [done|]. rewrite Hl2, Hlive. split.
  - intros Hno. rewrite (Hlast Hno), length_drop. rewrite take_app_length', drop_ge, app_nil_r by (rewrite ?length_app; cbn; lia). split; [done|].
    intros path. unfold find_mount_in_table. cbn. by rewrite Hl2, Hlive, (Hlast Hno), length_drop, take_app_length', drop_ge, app_nil_r by (rewrite ?length_app; cbn; lia).
  - intros k m' Hk Hm' Hmin. rewrite (Hfirst k m' Hk Hm' Hmin). apply lookup_lt_Some in Hk. rewrite length_drop in Hk.
    by rewrite take_app_le, drop_app_le by lia.
Qed.

(** *** Witnesses *)

(** A directory [/a], and a read-only mount of the same table at [/a/m]. *)
Definition demo_files : Tmpfs.Tmp :=
  TmpfsProofs.TmpProofs.table_after [TmpfsProofs.Mount; TmpfsProofs.Create 0 [97] Directory; TmpfsProofs.Link 0 [108] [47; 112]; TmpfsProofs.Link 0 [112] [47; 108]].
Definition demo_vfs : VfsSys Tmpfs.Tmp :=
  (mount_with_flags NS_ROOT [47; 97; 47; 109] tmp_fs MS_RDONLY
    {| mount_table := {| mt_mounts := {| m_path := [SLASH]; m_fs := tmp_fs; m_flags := 0 |} :: replicate 31 (empty_mount tmp_fs); mt_count := 1 |};
       ns_entries := replicate MAX_MNT_NS None; ns_count := 0;
       vfs_root := Some {| v_fs := tmp_fs; v_inode := 0; v_read_only := false |}; files := demo_files |}).2.

Definition demo_root : Mount Tmpfs.Tmp := {| m_path := [SLASH]; m_fs := tmp_fs; m_flags := 0 |}.
Definition demo_mounted : Mount Tmpfs.Tmp := {| m_path := [47; 97; 47; 109]; m_fs := tmp_fs; m_flags := MS_RDONLY |}.

Lemma demo_reached : TmpfsProofs.TmpProofs.reached demo_files.
Proof. apply TmpfsProofs.TmpProofs.reached_after. repeat constructor; cbn; lia. Qed.

Lemma demo_plain c : c ∈ [[97]; [98]; [108]; [109]; [112]] -> plain_name c.
Proof. unfold plain_name, SLASH, dot, dot_dot. intros H. repeat (apply elem_of_cons in H as [->|H]; [set_solver|]). by apply elem_of_nil in H. Qed.

Lemma demo_normal : normal_table (table_for NS_ROOT demo_vfs).
Proof.
  repeat constructor; [by exists []|]. exists [[97]; [109]]. split; [|done]. repeat constructor; apply demo_plain; set_solver.
Qed.

Lemma vfs_longest_mount_witness : exists ms, ms `prefix_of` [[97]; [109]; [98]] /\ mount_path ms = [47; 97; 47; 109].
Proof.
  assert (find_mount_in_table NS_ROOT (path_of [[97]; [109]; [98]]) demo_vfs = Some demo_mounted) as E by reflexivity.
  pose proof (vfs_longest_mount NS_ROOT [[97]; [109]; [98]] demo_vfs demo_normal) as H. rewrite E in H. destruct H as (ms & _ & Hm & Hp & _); [|done|].
  - repeat constructor; apply demo_plain; set_solver.
  - exists ms. split; [exact Hp|]. symmetry. exact Hm.
Defined.

(** The system after the creation of [/a/b]. *)
Definition demo_created : VfsSys Tmpfs.Tmp :=
  match create_file_in_ns NS_ROOT (path_of [[97]; [98]]) demo_vfs with Some (_, s) => s | None => demo_vfs end.

Lemma demo_descend : descend tmp_fs (files demo_vfs) 0 [[97]] = Some 1%nat.
Proof. vm_compute. reflexivity. Qed.

Lemma demo_creates : create_file_in_ns NS_ROOT (path_of [[97]; [98]]) demo_vfs = Some (true, demo_created).
Proof.
  assert ((fst <$> create_file_in_ns NS_ROOT (path_of [[97]; [98]]) demo_vfs) = Some true) as E by (vm_compute; reflexivity).
  unfold demo_created. destruct (create_file_in_ns _ _ _) as [[b s]|]; [|done]. by injection E as ->.
Qed.

Lemma demo_fits : stored_name [98].
Proof. split; [cbn; lia|]. split; [by exists [98]|done]. Qed.

Lemma demo_names l : Forall (fun c => c ∈ [[97]; [98]; [108]; [109]; [112]]) l -> Forall plain_name l.
Proof. intros H. eapply List.Forall_impl; [|exact H]. exact demo_plain. Qed.


Lemma vfs_dotdot_lost_witness :
  path_of [[97]; dot_dot; [98]] = [47; 97; 47; 46; 46; 47; 98] /\
  open_in_ns_depth NS_ROOT 8 true demo_vfs (path_of [[97]; dot_dot; [98]]) = open_in_ns_depth NS_ROOT 8 true demo_vfs (path_of [[97]; [98]]).
Proof.
  split; [reflexivity|]. refine (vfs_dotdot_lost NS_ROOT 8 true [] [97] [[98]] demo_vfs demo_root _ _ _ _); [|reflexivity..].
  apply demo_names. repeat constructor; set_solver.
Defined.

Lemma demo_links : links_to tmp_fs demo_files [108] (path_of [[112]]) /\ links_to tmp_fs demo_files [112] (path_of [[108]]).
Proof.
  split; [exists 2%nat, (Tmpfs.stat demo_files 2)|exists 3%nat, (Tmpfs.stat demo_files 3)]; split_and!;
    first [reflexivity|vm_compute; reflexivity|unfold MAX_RESOLVED_PATH; cbn; lia].
Qed.

Lemma vfs_link_loop_refused_witness : open_in_ns_depth NS_ROOT MAX_SYMLINK_DEPTH true demo_vfs (path_of [[108]]) = Some None.
Proof.
  refine (vfs_link_loop_refused NS_ROOT demo_vfs demo_root [[108]; [112]] _ eq_refl _ _ MAX_SYMLINK_DEPTH [108] (list_elem_of_here _ _)).
  - apply demo_names. repeat constructor; set_solver.
  - intros a [->| ->%list_elem_of_singleton]%elem_of_cons; reflexivity.
  - intros a [->| ->%list_elem_of_singleton]%elem_of_cons; [exists [112]|exists [108]]; (split; [set_solver|apply demo_links]).
Defined.

(** A second mount at [/m], and what unmounting it gives. *)
(** A mount at a new path is undone; one at [/a/m], which has a mount, is not: the older one goes. *)
Lemma vfs_mount_umount_witness :
  (exists s2, umount (path_of [[109]]) (mount_with_flags NS_ROOT (path_of [[109]]) tmp_fs 0 demo_vfs).2 = (true, s2) /\
    live (mount_table s2) = live (mount_table demo_vfs)) /\
  (exists s2, umount (path_of [[97]; [109]]) (mount_with_flags NS_ROOT (path_of [[97]; [109]]) tmp_fs 0 demo_vfs).2 = (true, s2) /\
    live (mount_table s2) = [demo_root; {| m_path := path_of [[97]; [109]]; m_fs := tmp_fs; m_flags := 0 |}]).
Proof.
  split.
  - destruct (vfs_mount_umount [[109]] tmp_fs 0 demo_vfs (mount_with_flags NS_ROOT (path_of [[109]]) tmp_fs 0 demo_vfs).2) as (_ & s2 & Hu & _ & Hl & _);
      [apply demo_names; repeat constructor; set_solver|done|apply demo_normal|cbn; lia|done|reflexivity|].
    exists s2. split; [exact Hu|]. apply Hl. intros m Hm. cbn in Hm. apply list_elem_of_singleton in Hm as ->. discriminate.
  - destruct (vfs_mount_umount [[97]; [109]] tmp_fs 0 demo_vfs (mount_with_flags NS_ROOT (path_of [[97]; [109]]) tmp_fs 0 demo_vfs).2) as (_ & s2 & Hu & _ & _ & Hl);
      [apply demo_names; repeat constructor; set_solver|done|apply demo_normal|cbn; lia|done|reflexivity|].
    exists s2. split; [exact Hu|]. apply (Hl 0%nat demo_mounted); [reflexivity|reflexivity|]. intros j m' Hj. lia.
Defined.

End VfsMain.
