(* ===== verification/Fd.v ===== *)
(** Open files: [crates/zenus-syscall/src/syscall/fd.rs].

    [FdSys] has the one table of descriptors, which all tasks share, the table of pipes, the virtual file system, and
    the console: the bytes that will be typed, in the order the code takes them, and the bytes sent to the serial port.
    A call returns [None] when it does not return: an index out of range, or a read of the console when nothing
    more is typed.  The task that calls and its credentials, which the code asks the scheduler for, are arguments. *)

From S2P Require Import Ns Prelude Bytes Text Vfs VfsTree VfsPerm.

Definition MAX_FDS : nat := 256.
Definition PIPE_BUF_SIZE : nat := 4096.
Definition MAX_PIPES : nat := 64.

(** [u64::MAX], for no pipe and no socket *)
Definition NONE_ID : Z := U64_MAX.

(** ** Pipes *)

Record PipeBuffer := { pb_data : bytes; pb_read_pos : nat; pb_write_pos : nat; pb_count : nat; pb_read_open : bool; pb_write_open : bool }.

Definition new_pipe : PipeBuffer :=
  {| pb_data := replicate PIPE_BUF_SIZE 0; pb_read_pos := 0; pb_write_pos := 0; pb_count := 0; pb_read_open := false; pb_write_open := false |}.

Definition with_ends (r w : bool) (p : PipeBuffer) : PipeBuffer :=
  {| pb_data := pb_data p; pb_read_pos := pb_read_pos p; pb_write_pos := pb_write_pos p; pb_count := pb_count p; pb_read_open := r; pb_write_open := w |}.

Definition push_pipe (b : Z) (p : PipeBuffer) : PipeBuffer :=
  {| pb_data := <[pb_write_pos p := b]> (pb_data p); pb_read_pos := pb_read_pos p; pb_write_pos := (pb_write_pos p + 1) `mod` PIPE_BUF_SIZE;
     pb_count := pb_count p + 1; pb_read_open := pb_read_open p; pb_write_open := pb_write_open p |}.

Definition pop_pipe (p : PipeBuffer) : PipeBuffer :=
  {| pb_data := pb_data p; pb_read_pos := (pb_read_pos p + 1) `mod` PIPE_BUF_SIZE; pb_write_pos := pb_write_pos p;
     pb_count := pb_count p - 1; pb_read_open := pb_read_open p; pb_write_open := pb_write_open p |}.

(** The loop over the buffer, with the number of bytes written. *)
Fixpoint write_loop (buf : bytes) (written : nat) (p : PipeBuffer) : nat * PipeBuffer :=
  match buf with
  | [] => (written, p)
  | b :: buf => if (PIPE_BUF_SIZE <=? pb_count p)%nat then (written, p) else write_loop buf (written + 1) (push_pipe b p)
  end.

Definition pipe_write (buf : bytes) (p : PipeBuffer) : option nat * PipeBuffer :=
  if negb (pb_write_open p) || negb (pb_read_open p) then (None, p)
  else let r := write_loop buf 0 p in (Some r.1, r.2).

(** The loop over a buffer of [n] bytes, with the bytes read. *)
Fixpoint read_loop (n : nat) (out : bytes) (p : PipeBuffer) : bytes * PipeBuffer :=
  match n with
  | O => (out, p)
  | S n =>
      if (pb_count p =? 0)%nat then (out, p)
      else read_loop n (out ++ [default 0 (pb_data p !! pb_read_pos p)]) (pop_pipe p)
  end.

Definition pipe_read (n : nat) (p : PipeBuffer) : option bytes * PipeBuffer :=
  if negb (pb_read_open p) then (None, p)
  else if (pb_count p =? 0)%nat && negb (pb_write_open p) then (Some [], p)
  else if (pb_count p =? 0)%nat then (None, p)
  else let r := read_loop n [] p in (Some r.1, r.2).

(** ** Descriptors *)

Section fd.
Context {W : Type}.

Record FdEntry := {
  fe_task : Z;
  fe_fs : option (FileSystem W);
  fe_inode : nat;
  fe_offset : Z;
  fe_type : FileType;
  fe_pipe : Z;
  fe_socket : Z;
  fe_read_only : bool;
  fe_path : bytes;
}.

Record FdSys := { fds : list (option FdEntry); pipes : list (option PipeBuffer); vfs : VfsSys W; typed : bytes; shown : bytes }.

Definition boot_fds (v : VfsSys W) (input : bytes) : FdSys :=
  {| fds := replicate MAX_FDS None; pipes := replicate MAX_PIPES None; vfs := v; typed := input; shown := [] |}.

Definition with_fds (t : list (option FdEntry)) (s : FdSys) : FdSys :=
  {| fds := t; pipes := pipes s; vfs := vfs s; typed := typed s; shown := shown s |}.
Definition with_pipes (t : list (option PipeBuffer)) (s : FdSys) : FdSys :=
  {| fds := fds s; pipes := t; vfs := vfs s; typed := typed s; shown := shown s |}.
Definition with_vfs (v : VfsSys W) (s : FdSys) : FdSys :=
  {| fds := fds s; pipes := pipes s; vfs := v; typed := typed s; shown := shown s |}.
Definition with_console (i o : bytes) (s : FdSys) : FdSys :=
  {| fds := fds s; pipes := pipes s; vfs := vfs s; typed := i; shown := o |}.

Definition with_offset (o : Z) (e : FdEntry) : FdEntry :=
  {| fe_task := fe_task e; fe_fs := fe_fs e; fe_inode := fe_inode e; fe_offset := o; fe_type := fe_type e;
     fe_pipe := fe_pipe e; fe_socket := fe_socket e; fe_read_only := fe_read_only e; fe_path := fe_path e |}.
Definition with_task (t : Z) (e : FdEntry) : FdEntry :=
  {| fe_task := t; fe_fs := fe_fs e; fe_inode := fe_inode e; fe_offset := fe_offset e; fe_type := fe_type e;
     fe_pipe := fe_pipe e; fe_socket := fe_socket e; fe_read_only := fe_read_only e; fe_path := fe_path e |}.

Definition path_buf (path : bytes) : bytes :=
  let n := Nat.min (length path) 255 in take n path ++ replicate (256 - n) 0.

Definition path_as_str (path : bytes) : bytes :=
  let n := default 256%nat (find_index (Z.eqb 0) path) in
  match from_utf8 (take n path) with Some s => s | None => [] end.

Definition is_free (o : option FdEntry) : bool := match o with None => true | Some _ => false end.

(** The three allocations differ in the entry they store. *)
Definition store_entry (e : FdEntry) (t : list (option FdEntry)) : option nat * list (option FdEntry) :=
  match find_index is_free t with
  | Some i => (Some i, <[i := Some e]> t)
  | None => (None, t)
  end.

Definition file_entry (task : Z) (node : VfsNode W) (ft : FileType) (path : bytes) : FdEntry :=
  {| fe_task := task; fe_fs := Some (v_fs node); fe_inode := v_inode node; fe_offset := 0; fe_type := ft;
     fe_pipe := NONE_ID; fe_socket := NONE_ID; fe_read_only := v_read_only node; fe_path := path_buf path |}.
Definition pipe_entry (task pipe_id : Z) : FdEntry :=
  {| fe_task := task; fe_fs := None; fe_inode := 0; fe_offset := 0; fe_type := CharDevice;
     fe_pipe := pipe_id; fe_socket := NONE_ID; fe_read_only := false; fe_path := replicate 256 0 |}.
Definition socket_entry (task socket_id : Z) : FdEntry :=
  {| fe_task := task; fe_fs := None; fe_inode := 0; fe_offset := 0; fe_type := CharDevice;
     fe_pipe := NONE_ID; fe_socket := socket_id; fe_read_only := false; fe_path := replicate 256 0 |}.

Definition alloc (task : Z) (node : VfsNode W) (ft : FileType) (path : bytes) : list (option FdEntry) -> option nat * list (option FdEntry) :=
  store_entry (file_entry task node ft path).
Definition alloc_pipe (task pipe_id : Z) : list (option FdEntry) -> option nat * list (option FdEntry) := store_entry (pipe_entry task pipe_id).
Definition alloc_socket (task socket_id : Z) : list (option FdEntry) -> option nat * list (option FdEntry) := store_entry (socket_entry task socket_id).

Definition get (fd : nat) (t : list (option FdEntry)) : option FdEntry := if (MAX_FDS <=? fd)%nat then None else mjoin (t !! fd).

(** [FdTable::close]: which end of a pipe is closed depends on the number of the descriptor. *)
Definition close_end (fd : nat) (p : PipeBuffer) : PipeBuffer :=
  if (fd `mod` 2 =? 0)%nat then with_ends false (pb_write_open p) p else with_ends (pb_read_open p) false p.

Definition close_fd (fd : nat) (s : FdSys) : option (bool * FdSys) :=
  match get fd (fds s) with
  | None => Some (false, s)
  | Some e =>
      s ← (if fe_pipe e =? NONE_ID then Some s
           else
             o ← pipes s !! Z.to_nat (fe_pipe e);
             Some (with_pipes (<[Z.to_nat (fe_pipe e) := close_end fd <$> o]> (pipes s)) s));
      Some (true, with_fds (<[fd := None]> (fds s)) s)
  end.

Definition close_all_for_task (task : Z) (t : list (option FdEntry)) : list (option FdEntry) :=
  map (fun o => match o with Some e => if fe_task e =? task then None else Some e | None => None end) t.

(** The allocation of a copy of an entry, for [dup] and for the child of a fork. *)
Definition alloc_copy (task : Z) (e : FdEntry) (t : list (option FdEntry)) : option nat * list (option FdEntry) :=
  if negb (fe_pipe e =? NONE_ID) then alloc_pipe task (fe_pipe e) t
  else if negb (fe_socket e =? NONE_ID) then alloc_socket task (fe_socket e) t
  else
    match fe_fs e with
    | Some fs => alloc task {| v_fs := fs; v_inode := fe_inode e; v_read_only := fe_read_only e |} (fe_type e) (path_as_str (fe_path e)) t
    | None => (None, t)
    end.

Definition dup (task : Z) (fd : nat) (t : list (option FdEntry)) : option nat * list (option FdEntry) :=
  match get fd t with
  | None => (None, t)
  | Some e => if negb (fe_task e =? task) then (None, t) else alloc_copy task e t
  end.

Definition owned (task : Z) (t : list (option FdEntry)) : list FdEntry :=
  omap (fun o => match o with Some e => if fe_task e =? task then Some e else None | None => None end) t.

Definition clone_all_for_task (src dst : Z) (t : list (option FdEntry)) : list (option FdEntry) :=
  foldl (fun t e => (alloc_copy dst e t).2) t (owned src t).

(** ** The calls *)

Definition fd_pipe (task : Z) (s : FdSys) : option (nat * nat) * FdSys :=
  match find_index (fun o => match o with None => true | Some _ => false end) (pipes s) with
  | None => (None, s)
  | Some id =>
      let s := with_pipes (<[id := Some (with_ends true true new_pipe)]> (pipes s)) s in
      let '(read_fd, t) := alloc_pipe task (Z.of_nat id) (fds s) in
      let '(write_fd, t) := alloc_pipe task (Z.of_nat id) t in
      let s := with_fds t s in
      match read_fd, write_fd with
      | Some r, Some w => (Some (r, w), s)
      | _, _ => (None, with_pipes (<[id := None]> (pipes s)) s)
      end
  end.

Definition fd_socket (task socket_id : Z) (s : FdSys) : option nat * FdSys :=
  let '(fd, t) := alloc_socket task socket_id (fds s) in (fd, with_fds t s).

Definition fd_open (task : Z) (cred : Credentials) (path : bytes) (s : FdSys) : option (option nat * FdSys) :=
  o ← open_in_ns NS_ROOT path (vfs s);
  match o with
  | None => Some (None, s)
  | Some node =>
      st ← fs_stat (v_fs node) (v_inode node) (files (vfs s));
      if negb (access_check cred st false) then Some (None, s)
      else let '(fd, t) := alloc task node (st_type st) path (fds s) in Some (fd, with_fds t s)
  end.

(** The entry of a descriptor the calling task owns. *)
Definition own (task : Z) (fd : nat) (s : FdSys) : option FdEntry :=
  match get fd (fds s) with
  | Some e => if fe_task e =? task then Some e else None
  | None => None
  end.

Definition fd_path (task : Z) (fd : nat) (s : FdSys) : option (bytes * FileType) := (fun e => (fe_path e, fe_type e)) <$> own task fd s.

Definition fd_close (task : Z) (fd : nat) (s : FdSys) : option (bool * FdSys) :=
  match own task fd s with
  | Some _ => close_fd fd s
  | None => Some (false, s)
  end.

(** Reading the console: up to [n] bytes, to the end of a line. *)
Fixpoint read_console (n : nat) (out input : bytes) : option (bytes * bytes) :=
  match n with
  | O => Some (out, input)
  | S n =>
      match input with
      | [] => None
      | b :: input => if (b =? 10) || (b =? 13) then Some (out ++ [b], input) else read_console n (out ++ [b]) input
      end
  end.

Definition fd_read (task : Z) (fd n : nat) (s : FdSys) : option (option bytes * FdSys) :=
  if (fd =? 0)%nat then
    r ← read_console n [] (typed s);
    Some (Some r.1, with_console r.2 (shown s) s)
  else
    match own task fd s with
    | None => Some (None, s)
    | Some e =>
        if negb (fe_pipe e =? NONE_ID) then
          o ← pipes s !! Z.to_nat (fe_pipe e);
          match o with
          | None => Some (None, s)
          | Some p => let r := pipe_read n p in Some (r.1, with_pipes (<[Z.to_nat (fe_pipe e) := Some r.2]> (pipes s)) s)
          end
        else
          match fe_fs e with
          | None => Some (None, s)
          | Some fs =>
              o ← fs_read fs (fe_inode e) (fe_offset e) n (files (vfs s));
              match o with
              | Some b => Some (Some b, with_fds (<[fd := Some (with_offset (u64_add (fe_offset e) (Z.of_nat (length b))) e)]> (fds s)) s)
              | None => Some (None, s)
              end
          end
    end.

Definition fd_write (task : Z) (fd : nat) (buf : bytes) (s : FdSys) : option (option nat * FdSys) :=
  if (fd =? 1)%nat || (fd =? 2)%nat then Some (Some (length buf), with_console (typed s) (shown s ++ buf) s)
  else
    match own task fd s with
    | None => Some (None, s)
    | Some e =>
        if negb (fe_pipe e =? NONE_ID) then
          o ← pipes s !! Z.to_nat (fe_pipe e);
          match o with
          | None => Some (None, s)
          | Some p => let r := pipe_write buf p in Some (r.1, with_pipes (<[Z.to_nat (fe_pipe e) := Some r.2]> (pipes s)) s)
          end
        else if fe_read_only e then Some (None, s)
        else
          match fe_fs e with
          | None => Some (None, s)
          | Some fs =>
              r ← fs_write fs (fe_inode e) (fe_offset e) buf (files (vfs s));
              let s := with_vfs (with_files r.2 (vfs s)) s in
              match r.1 with
              | Some n => Some (Some n, with_fds (<[fd := Some (with_offset (u64_add (fe_offset e) (Z.of_nat n)) e)]> (fds s)) s)
              | None => Some (None, s)
              end
          end
    end.

(** [offset] is signed; both the cast and [wrapping_add_signed] wrap. *)
Definition fd_seek (task : Z) (fd : nat) (offset whence : Z) (s : FdSys) : option (option Z * FdSys) :=
  match own task fd s with
  | None => Some (None, s)
  | Some e =>
      if negb (fe_pipe e =? NONE_ID) then Some (None, s)
      else
        let moved o := Some (Some o, with_fds (<[fd := Some (with_offset o e)]> (fds s)) s) in
        if whence =? 0 then moved (offset mod U64)
        else if whence =? 1 then moved (u64_add (fe_offset e) offset)
        else if whence =? 2 then
          match fe_fs e with
          | None => Some (None, s)
          | Some fs => st ← fs_stat fs (fe_inode e) (files (vfs s)); moved (u64_add (st_size st) offset)
          end
        else Some (None, s)
  end.

Definition fd_dup (task : Z) (fd : nat) (s : FdSys) : option nat * FdSys :=
  let '(r, t) := dup task fd (fds s) in (r, with_fds t s).

Definition pipe_stat : FileStat :=
  {| st_size := 0; st_type := CharDevice; st_inode := 0; st_blocks := 0; st_uid := 0; st_gid := 0; st_mode := 0x21A4 |}.

Definition fd_stat (task : Z) (fd : nat) (s : FdSys) : option (option FileStat) :=
  match own task fd s with
  | None => Some None
  | Some e =>
      if negb (fe_pipe e =? NONE_ID) then Some (Some pipe_stat)
      else
        match fe_fs e with
        | None => Some None
        | Some fs => Some <$> fs_stat fs (fe_inode e) (files (vfs s))
        end
  end.

Definition fd_close_all_for_task (task : Z) (s : FdSys) : FdSys := with_fds (close_all_for_task task (fds s)) s.
Definition fd_clone_all_for_task (src dst : Z) (s : FdSys) : FdSys := with_fds (clone_all_for_task src dst (fds s)) s.

Definition fd_readdir (task : Z) (fd : nat) (s : FdSys) : option (list (bytes * FileType * nat)) :=
  match own task fd s with
  | None => Some []
  | Some e =>
      match fe_fs e with
      | None => Some []
      | Some fs =>
          if negb (bool_decide (fe_type e = Directory)) then Some []
          else fs_read_dir fs (fe_inode e) (files (vfs s))
      end
  end.

Definition fd_get (task : Z) (fd : nat) (s : FdSys) : option FdEntry := own task fd s.

Definition fd_dup2 (task : Z) (oldfd newfd : nat) (s : FdSys) : option (option nat * FdSys) :=
  if (256 <=? newfd)%nat then Some (None, s)
  else
    match get oldfd (fds s) with
    | None => Some (None, s)
    | Some e =>
        if negb (fe_task e =? task) then Some (None, s)
        else
          s ← match fds s !! newfd with
              | Some (Some _) => snd <$> close_fd newfd s
              | _ => Some s
              end;
          Some (Some newfd, with_fds (<[newfd := Some (with_task task e)]> (fds s)) s)
    end.

(** ** Calls on paths *)

(** A call that only changes the file systems. *)
Definition on_vfs (op : VfsSys W -> option (bool * VfsSys W)) (s : FdSys) : option (bool * FdSys) :=
  r ← op (vfs s); Some (r.1, with_vfs r.2 s).

Definition vfs_mkdir (cred : Credentials) (path : bytes) : FdSys -> option (bool * FdSys) := on_vfs (create_dir_permitted NS_ROOT path cred).
Definition vfs_unlink (cred : Credentials) (path : bytes) : FdSys -> option (bool * FdSys) := on_vfs (remove_permitted NS_ROOT path cred).

Definition vfs_rmdir (cred : Credentials) (path : bytes) (s : FdSys) : option (bool * FdSys) :=
  o ← open_in_ns NS_ROOT path (vfs s);
  match o with
  | None => Some (false, s)
  | Some node =>
      es ← fs_read_dir (v_fs node) (v_inode node) (files (vfs s));
      match es with
      | [] => on_vfs (remove_permitted NS_ROOT path cred) s
      | _ => Some (false, s)
      end
  end.

Definition vfs_rename (old new : bytes) : bool := false.

Definition vfs_chmod (cred : Credentials) (path : bytes) (mode : Z) : FdSys -> option (bool * FdSys) := on_vfs (chmod_permitted NS_ROOT path mode cred).

(** [u32::MAX] leaves the owner or the group as it is. *)
Definition unless_max (x : Z) : Z := if x =? 2 ^ 32 - 1 then -1 else x.
Definition vfs_chown (cred : Credentials) (path : bytes) (owner group : Z) : FdSys -> option (bool * FdSys) :=
  on_vfs (chown_permitted NS_ROOT path (unless_max owner) (unless_max group) cred).

Definition vfs_access (cred : Credentials) (path : bytes) (mode : Z) (s : FdSys) : option bool := access_permitted NS_ROOT path mode cred (vfs s).

End fd.

#[global] Arguments FdEntry : clear implicits.
#[global] Arguments FdSys : clear implicits.
