(* ===== verification/FdProofs.v ===== *)
(** Proofs about open files.

    [queue] is what a pipe holds, in order; [fd_ok] the invariant of the tables; [FdCall] the calls of all tasks
    and [reachable] the states they lead to.  The theorems are in Module [FdMain]. *)

From S2P Require Import Ns Prelude Bytes Text Vfs VfsTree VfsPerm VfsProofs Fd.

(** ** Pipes *)

#[local] Opaque PIPE_BUF_SIZE.

Lemma pipe_size_pos : (0 < PIPE_BUF_SIZE)%nat.
Proof. with_strategy transparent [PIPE_BUF_SIZE] unfold PIPE_BUF_SIZE. lia. Qed.

(** The position of the [k]th byte. *)
Definition ring (p : PipeBuffer) (k : nat) : nat := (pb_read_pos p + k) `mod` PIPE_BUF_SIZE.

Record pipe_ok (p : PipeBuffer) : Prop := {
  pipe_len : length (pb_data p) = PIPE_BUF_SIZE;
  pipe_read_pos : (pb_read_pos p < PIPE_BUF_SIZE)%nat;
  pipe_count : (pb_count p <= PIPE_BUF_SIZE)%nat;
  pipe_write_pos : pb_write_pos p = ring p (pb_count p);
}.

(** The bytes written and not yet read. *)
Definition queue (p : PipeBuffer) : bytes := map (fun k => default 0 (pb_data p !! ring p k)) (seq 0 (pb_count p)).

Lemma queue_length p : length (queue p) = pb_count p.
Proof. unfold queue. by rewrite length_map, length_seq. Qed.

Lemma new_pipe_ok r w : pipe_ok (with_ends r w new_pipe).
Proof.
  pose proof pipe_size_pos. split; unfold ring; cbn [with_ends new_pipe pb_data pb_read_pos pb_write_pos pb_count]; [apply length_replicate|lia|lia|].
  by rewrite Nat.Div0.mod_0_l.
Qed.

Lemma ring_lt p k : (ring p k < PIPE_BUF_SIZE)%nat.
Proof. pose proof pipe_size_pos. apply Nat.mod_upper_bound. lia. Qed.

Lemma ring_inj p j k : (j < PIPE_BUF_SIZE)%nat -> (k < PIPE_BUF_SIZE)%nat -> ring p j = ring p k -> j = k.
Proof.
  unfold ring. intros Hj Hk E. pose proof (Nat.div_mod_eq (pb_read_pos p + j) PIPE_BUF_SIZE). pose proof (Nat.div_mod_eq (pb_read_pos p + k) PIPE_BUF_SIZE).
  rewrite E in *. set (a := ((_ + j) / _)%nat) in *. set (b := ((_ + k) / _)%nat) in *. destruct (Nat.lt_trichotomy a b) as [?|[?|?]]; nia.
Qed.

Lemma push_pipe_queue b p : pipe_ok p -> (pb_count p < PIPE_BUF_SIZE)%nat -> pipe_ok (push_pipe b p) /\ queue (push_pipe b p) = queue p ++ [b].
Proof.
  intros [Hl Hr Hc Hw] Hlt. split.
  - split; cbn; [by rewrite length_insert|done|lia|]. rewrite Hw. unfold ring. cbn. rewrite Nat.Div0.add_mod_idemp_l. f_equal. lia.
  - unfold queue. cbn [push_pipe pb_count pb_data]. rewrite seq_app, map_app. cbn [seq map Nat.add]. change (ring (push_pipe b p)) with (ring p). f_equal.
    + apply map_ext_in. intros k Hk%in_seq. rewrite list_lookup_insert_ne; [done|]. rewrite Hw. intros E%ring_inj; lia.
    + rewrite Hw, list_lookup_insert_eq; [done|]. rewrite Hl. apply ring_lt.
Qed.

Lemma pop_pipe_queue p x q : pipe_ok p -> queue p = x :: q ->
  default 0 (pb_data p !! pb_read_pos p) = x /\ pipe_ok (pop_pipe p) /\ queue (pop_pipe p) = q.
Proof.
  intros [Hl Hr Hc Hw] E. pose proof (queue_length p) as Hq. rewrite E in Hq. cbn in Hq. unfold queue in E. rewrite <-Hq in E. cbn [seq map] in E. injection E as Ex Eq.
  assert (forall k, ring (pop_pipe p) k = ring p (S k)) as Hring.
  { intros k. unfold ring. cbn. rewrite Nat.Div0.add_mod_idemp_l. f_equal. lia. }
  split_and!.
  - rewrite <-Ex. unfold ring. by rewrite Nat.add_0_r, Nat.mod_small.
  - split; cbn [pop_pipe pb_data pb_read_pos pb_write_pos pb_count]; [done|apply Nat.mod_upper_bound; lia|lia|]. rewrite Hring, Hw. f_equal. lia.
  - unfold queue. cbn [pop_pipe pb_data pb_count]. rewrite <-Hq. replace (S (length q) - 1)%nat with (length q) by lia.
    etrans; [|exact Eq]. rewrite <-seq_shift, map_map. apply map_ext. intros k. by rewrite Hring.
Qed.

Lemma write_loop_spec buf : forall n p, pipe_ok p ->
  let r := write_loop buf n p in let k := Nat.min (length buf) (PIPE_BUF_SIZE - pb_count p) in
  r.1 = (n + k)%nat /\ pipe_ok r.2 /\ queue r.2 = queue p ++ take k buf /\
  pb_read_open r.2 = pb_read_open p /\ pb_write_open r.2 = pb_write_open p.
Proof.
  induction buf as [|b buf IH]; intros n p Hp; cbn [write_loop length].
  - cbn. rewrite app_nil_r. split_and!; [lia|done..].
  - destruct (Nat.leb_spec PIPE_BUF_SIZE (pb_count p)) as [Hge|Hlt].
    + replace (PIPE_BUF_SIZE - pb_count p)%nat with 0%nat by lia. rewrite Nat.min_0_r, app_nil_r. split_and!; [cbn; lia|done..].
    + destruct (push_pipe_queue b p Hp Hlt) as [Hp' Hq']. destruct (IH (n + 1)%nat (push_pipe b p) Hp') as (H1 & H2 & H3 & H4 & H5).
      cbn zeta in *. rewrite H1, H3, Hq', H4, H5. cbn [push_pipe pb_count pb_read_open pb_write_open].
      replace (Nat.min (S (length buf)) (PIPE_BUF_SIZE - pb_count p)) with (S (Nat.min (length buf) (PIPE_BUF_SIZE - (pb_count p + 1)))) by lia.
      split_and!; [lia|done| |done|done]. by rewrite <-app_assoc.
Qed.

Lemma read_loop_spec n : forall out p, pipe_ok p ->
  let r := read_loop n out p in
  r.1 = out ++ take n (queue p) /\ pipe_ok r.2 /\ queue r.2 = drop n (queue p) /\ pb_read_open r.2 = pb_read_open p /\ pb_write_open r.2 = pb_write_open p.
Proof.
  induction n as [|n IH]; intros out p Hp; cbn [read_loop]; [by rewrite app_nil_r, drop_0|].
  pose proof (queue_length p) as Hl. destruct (queue p) as [|x q] eqn:E; cbn in Hl.
  - rewrite <-Hl. cbn. by rewrite app_nil_r, E.
  - rewrite <-Hl. cbn [Nat.eqb]. destruct (pop_pipe_queue p x q Hp E) as (-> & Hp' & Hq'). destruct (IH (out ++ [x]) (pop_pipe p) Hp') as (H1 & H2 & H3 & H4 & H5).
    cbn zeta in *. rewrite H1, H3, H4, H5, Hq'. cbn [take drop]. by rewrite <-app_assoc.
Qed.

(** ** File systems that return *)

Section safety.
Context {W : Type} (I : W -> Prop).
Implicit Types (v : VfsSys W) (s : FdSys W) (e : FdEntry W) (t : list (option (FdEntry W))).

(** A result that comes with a state in which [I] still holds. *)
Definition keeps {A} (o : option (A * W)) : Prop := exists a w, o = Some (a, w) /\ I w.

(** In states with [I] every operation returns and keeps [I]. *)
Record returns (fs : FileSystem W) : Prop := {
  ret_read : forall i o n w, I w -> is_u64 o -> is_Some (fs_read fs i o n w);
  ret_write : forall i o b w, I w -> is_u64 o -> keeps (fs_write fs i o b w);
  ret_lookup : forall i n w, I w -> is_Some (fs_lookup fs i n w);
  ret_read_dir : forall i w, I w -> is_Some (fs_read_dir fs i w);
  ret_stat : forall i w, I w -> is_Some (fs_stat fs i w);
  ret_readlink : forall i n w, I w -> is_Some (fs_readlink fs i n w);
  ret_create : forall i n ft w, I w -> keeps (fs_create fs i n ft w);
  ret_unlink : forall i n w, I w -> keeps (fs_unlink fs i n w);
  ret_chmod : forall i m w, I w -> keeps (fs_chmod fs i m w);
  ret_chown : forall i u g w, I w -> keeps (fs_chown fs i u g w);
}.

Record vfs_ok v : Prop := {
  vo_files : I (files v);
  vo_root : forall n, vfs_root v = Some n -> returns (v_fs n);
  vo_mounts : forall m, m ∈ live (table_for NS_ROOT v) -> returns (m_fs m);
}.

Lemma vfs_ok_files v w : vfs_ok v -> I w -> vfs_ok (with_files w v).
Proof. intros [H1 H2 H3] Hw. by split. Qed.

(** Opening returns, and the node it gives is on a file system that returns. *)
Definition opens (r : option (option (VfsNode W))) : Prop := exists o, r = Some o /\ forall n, o = Some n -> returns (v_fs n).

Lemma walk_opens jump prefix ro follow w names : I w ->
  match jump with Some j => forall p, opens (j p) | None => True end ->
  forall cur before, returns (v_fs cur) -> opens (walk jump prefix ro follow w cur before names).
Proof.
  intros Hw Hj. induction names as [|c names IH]; intros cur before Hr; cbn [walk]; [exists (Some cur); split; [done|]; by intros n [= <-]|].
  destruct (ret_lookup _ Hr (v_inode cur) c w Hw) as [o ->]. cbn [mbind option_bind]. destruct o as [i|]; [|by exists None].
  destruct (ret_stat _ Hr i w Hw) as [st ->]. cbn [mbind option_bind]. destruct (_ && _); [|by apply IH].
  destruct jump as [j|]; [|by exists None]. destruct (ret_readlink _ Hr i MAX_RESOLVED_PATH w Hw) as [[target|] ->]; [|by exists None]. cbn [mbind option_bind].
  destruct (from_utf8 target) as [u|]; [|by exists None]. cbn [mbind option_bind]. destruct (join_link_target _ _ _ _); [apply Hj|by exists None].
Qed.

Lemma open_opens v depth follow : vfs_ok v -> forall p, opens (open_in_ns_depth NS_ROOT depth follow v p).
Proof.
  intros Hv. pose proof (vo_files _ Hv) as Hw. induction depth as [|depth IH]; intros p; cbn [open_in_ns_depth].
  all: destruct (is_root p || is_empty p); [exists (vfs_root v); split; [done|]; apply (vo_root _ Hv)|].
  all: pose proof (best_mount_spec p (live (table_for NS_ROOT v))) as Hm; unfold find_mount_in_table.
  all: destruct (best_mount p _) as [m|]; [|by exists None]; destruct Hm as [Hm _]; pose proof (vo_mounts _ Hv m Hm) as Hr.
  all: destruct (is_root _ || is_empty _); [eexists; split; [done|]; by intros n [= <-]|].
  all: destruct (collect _ _ _ _); [|by exists None]; by apply walk_opens.
Qed.

(** ** The invariant *)

Definition all {A} (P : A -> Prop) : option A -> Prop := from_option P True.

Record entry_ok e : Prop := {
  eo_offset : is_u64 (fe_offset e);
  eo_path : length (fe_path e) = 256%nat;
  eo_pipe : fe_pipe e = NONE_ID \/ (0 <= fe_pipe e < Z.of_nat MAX_PIPES /\ fe_fs e = None /\ fe_socket e = NONE_ID);
  eo_fs : all returns (fe_fs e);
}.

Definition table_ok t : Prop := length t = MAX_FDS /\ Forall (all entry_ok) t.
Definition pipes_ok (l : list (option PipeBuffer)) : Prop := length l = MAX_PIPES /\ Forall (all pipe_ok) l.
Record fd_ok s : Prop := { fo_fds : table_ok (fds s); fo_pipes : pipes_ok (pipes s); fo_vfs : vfs_ok (vfs s) }.

Lemma insert_ok i o t : table_ok t -> all entry_ok o -> table_ok (<[i := o]> t).
Proof. intros [H1 H2] Ho. split; [by rewrite length_insert|by apply Forall_insert]. Qed.

Lemma insert_pipe_ok i o l : pipes_ok l -> all pipe_ok o -> pipes_ok (<[i := o]> l).
Proof. intros [H1 H2] Ho. split; [by rewrite length_insert|by apply Forall_insert]. Qed.

Lemma store_ok e t : table_ok t -> entry_ok e -> table_ok (store_entry e t).2.
Proof. intros Ht He. unfold store_entry. destruct (find_index is_free t); [by apply insert_ok|done]. Qed.

Lemma path_buf_length path : length (path_buf path) = 256%nat.
Proof. unfold path_buf. rewrite length_app, length_take, length_replicate. lia. Qed.

Lemma file_entry_ok task node ft path : returns (v_fs node) -> entry_ok (file_entry task node ft path).
Proof. intros Hr. split; cbn; [word_lia|apply path_buf_length|by left|done]. Qed.

Lemma pipe_entry_ok task id : 0 <= id < Z.of_nat MAX_PIPES -> entry_ok (pipe_entry task id).
Proof. intros Hi. split; cbn; [word_lia|done|by right|done]. Qed.

Lemma socket_entry_ok task id : entry_ok (socket_entry task id).
Proof. split; cbn; [word_lia|done|by left|done]. Qed.

Lemma with_offset_ok o e : entry_ok e -> is_u64 o -> entry_ok (with_offset o e).
Proof. by intros [H1 H2 H3 H4] Ho; split. Qed.

Lemma with_task_ok task e : entry_ok e -> entry_ok (with_task task e).
Proof. by intros [H1 H2 H3 H4]; split. Qed.

Lemma get_ok fd t e : table_ok t -> get fd t = Some e -> entry_ok e.
Proof.
  intros [_ H] Hg. unfold get in Hg. case_if_in Hg; [done|]. destruct (t !! fd) as [[e'|]|] eqn:El; try done. injection Hg as ->.
  by apply (Forall_lookup_1 _ _ _ _ H El).
Qed.

Lemma own_ok task fd s e : fd_ok s -> own task fd s = Some e -> entry_ok e /\ fe_task e = task.
Proof.
  intros Hs Ho. unfold own in Ho. destruct (get fd (fds s)) as [e'|] eqn:Eg; [|done]. case_if_in Ho; [|done]. injection Ho as ->.
  split; [|done]. by eapply get_ok; [apply fo_fds|].
Qed.

Lemma copy_ok task e t : table_ok t -> entry_ok e -> table_ok (alloc_copy task e t).2.
Proof.
  intros Ht He. unfold alloc_copy. destruct (Z.eqb_spec (fe_pipe e) NONE_ID) as [|Hp]; cbn [negb].
  - case_if; [by apply store_ok, socket_entry_ok|]. pose proof (eo_fs _ He) as Hf. destruct (fe_fs e); [|done]. by apply store_ok, file_entry_ok.
  - destruct (eo_pipe _ He) as [|[? _]]; [done|]. by apply store_ok, pipe_entry_ok.
Qed.

Lemma with_fds_ok t s : fd_ok s -> table_ok t -> fd_ok (with_fds t s).
Proof. by intros [H1 H2 H3] H; split. Qed.
Lemma with_pipes_ok l s : fd_ok s -> pipes_ok l -> fd_ok (with_pipes l s).
Proof. by intros [H1 H2 H3] H; split. Qed.
Lemma with_files_ok w s : fd_ok s -> I w -> fd_ok (with_vfs (with_files w (vfs s)) s).
Proof. intros [H1 H2 H3] H; split; [done|done|]. by apply vfs_ok_files. Qed.
Lemma with_console_ok i o s : fd_ok s -> fd_ok (with_console i o s).
Proof. by intros [H1 H2 H3]; split. Qed.

(** The pipe of an entry is in the table. *)
Lemma pipe_there s e : fd_ok s -> entry_ok e -> fe_pipe e <> NONE_ID -> exists o, pipes s !! Z.to_nat (fe_pipe e) = Some o /\ all pipe_ok o.
Proof.
  intros Hs He Hp. destruct (eo_pipe _ He) as [|[Hr _]]; [done|]. destruct (fo_pipes _ Hs) as [Hl Hf].
  destruct (lookup_lt_is_Some_2 (pipes s) (Z.to_nat (fe_pipe e))) as [o Ho]; [lia|]. exists o. split; [done|]. by eapply Forall_lookup_1 in Hf.
Qed.

(** A call that returns and keeps the invariant. *)
Definition fine {A} (r : option (A * FdSys W)) : Prop := exists a s, r = Some (a, s) /\ fd_ok s.

Lemma fine_ret {A} (a : A) s : fd_ok s -> fine (Some (a, s)).
Proof. intros H. by exists a, s. Qed.

Lemma close_end_ok fd p : pipe_ok p -> pipe_ok (close_end fd p).
Proof. intros [H1 H2 H3 H4]. unfold close_end. by destruct (_ =? _)%nat; split. Qed.

Lemma close_fine fd s : fd_ok s -> fine (close_fd fd s).
Proof.
  intros Hs. unfold close_fd. destruct (get fd (fds s)) as [e|] eqn:Eg; [|by apply fine_ret]. pose proof (get_ok _ _ _ (fo_fds _ Hs) Eg) as He.
  destruct (Z.eqb_spec (fe_pipe e) NONE_ID) as [|Hp]; cbn [mbind option_bind]; [apply fine_ret, with_fds_ok; [done|]; apply insert_ok; [by apply fo_fds|done]|].
  destruct (pipe_there s e Hs He Hp) as (o & -> & Ho). cbn [mbind option_bind]. apply fine_ret, with_fds_ok; [|by apply insert_ok; [exact (fo_fds _ Hs)|]].
  apply with_pipes_ok; [done|]. apply insert_pipe_ok; [by apply fo_pipes|]. destruct o; [|done]. by apply close_end_ok.
Qed.

(** ** Every call returns and keeps the invariant *)

Lemma fd_pipe_ok task s : fd_ok s -> fd_ok (fd_pipe task s).2.
Proof.
  intros Hs. unfold fd_pipe. destruct (find_index _ (pipes s)) as [id|] eqn:Ef; [|done]. apply find_index_Some in Ef as [(x & Hx & _) _].
  apply lookup_lt_Some in Hx. rewrite (proj1 (fo_pipes _ Hs)) in Hx. set (s1 := with_pipes _ s).
  assert (fd_ok s1) as Hs1. { apply with_pipes_ok; [done|]. apply insert_pipe_ok; [by apply fo_pipes|apply new_pipe_ok]. }
  assert (entry_ok (pipe_entry task (Z.of_nat id))) as He by (apply pipe_entry_ok; lia). unfold alloc_pipe.
  pose proof (store_ok _ _ (fo_fds _ Hs1) He) as Ht1. destruct (store_entry _ (fds s1)) as [r t1]. cbn [snd] in Ht1.
  pose proof (store_ok _ _ Ht1 He) as Ht2. destruct (store_entry _ t1) as [w t2]. cbn [snd] in Ht2. pose proof (with_fds_ok t2 s1 Hs1 Ht2) as Hs2.
  destruct r, w; cbn [snd]; [done|..]; (apply with_pipes_ok; [done|]; apply insert_pipe_ok; [by apply fo_pipes|done]).
Qed.

Lemma fd_open_fine task cred path s : fd_ok s -> fine (fd_open task cred path s).
Proof.
  intros Hs. unfold fd_open, open_in_ns. destruct (open_opens (vfs s) MAX_SYMLINK_DEPTH true (fo_vfs _ Hs) path) as (o & -> & Hn). cbn [mbind option_bind].
  destruct o as [n|]; [|by apply fine_ret]. pose proof (Hn n eq_refl) as Hr. destruct (ret_stat _ Hr (v_inode n) _ (vo_files _ (fo_vfs _ Hs))) as [st ->].
  cbn [mbind option_bind]. case_if; [by apply fine_ret|]. pose proof (store_ok _ _ (fo_fds _ Hs) (file_entry_ok task n (st_type st) path Hr)) as Ht.
  unfold alloc. destruct (store_entry _ _) as [r t]. by apply fine_ret, with_fds_ok.
Qed.

Lemma fd_close_fine task fd s : fd_ok s -> fine (fd_close task fd s).
Proof. intros Hs. unfold fd_close. destruct (own task fd s); [by apply close_fine|by apply fine_ret]. Qed.

Lemma pipe_read_ok n p : pipe_ok p -> pipe_ok (pipe_read n p).2.
Proof. intros Hp. unfold pipe_read. repeat case_if; try done. apply (read_loop_spec n [] p Hp). Qed.

Lemma pipe_write_ok buf p : pipe_ok p -> pipe_ok (pipe_write buf p).2.
Proof. intros Hp. unfold pipe_write. case_if; try done. apply (write_loop_spec buf 0 p Hp). Qed.

Lemma moved_ok fd e o s : fd_ok s -> entry_ok e -> is_u64 o -> fd_ok (with_fds (<[fd := Some (with_offset o e)]> (fds s)) s).
Proof. intros Hs He Ho. apply with_fds_ok; [done|]. apply insert_ok; [by apply fo_fds|by apply with_offset_ok]. Qed.

(** A read of the console waits when nothing is typed. *)
Lemma fd_read_fine task fd n s : fd_ok s -> fine (fd_read task fd n s) \/ (fd = 0%nat /\ read_console n [] (typed s) = None).
Proof.
  intros Hs. unfold fd_read. destruct (Nat.eqb_spec fd 0) as [->|_].
  { destruct (read_console n [] (typed s)) as [[o i]|]; [left|by right]. by apply fine_ret, with_console_ok. }
  left. destruct (own task fd s) as [e|] eqn:Eo; [|by apply fine_ret]. destruct (own_ok _ _ _ _ Hs Eo) as [He _]. destruct (Z.eqb_spec (fe_pipe e) NONE_ID) as [_|Hp]; cbn [negb].
  - pose proof (eo_fs _ He) as Hr. destruct (fe_fs e) as [fs|]; [|by apply fine_ret].
    destruct (ret_read _ Hr (fe_inode e) (fe_offset e) n _ (vo_files _ (fo_vfs _ Hs)) (eo_offset _ He)) as [b ->]. cbn [mbind option_bind].
    destruct b; [|by apply fine_ret]. apply fine_ret, moved_ok; [done|done|apply u64_add_range].
  - destruct (pipe_there s e Hs He Hp) as (o & -> & Ho). cbn [mbind option_bind]. destruct o as [p|]; [|by apply fine_ret].
    apply fine_ret, with_pipes_ok; [done|]. apply insert_pipe_ok; [by apply fo_pipes|by apply pipe_read_ok].
Qed.

Lemma fd_write_fine task fd buf s : fd_ok s -> fine (fd_write task fd buf s).
Proof.
  intros Hs. unfold fd_write. case_if; [by apply fine_ret, with_console_ok|].
  destruct (own task fd s) as [e|] eqn:Eo; [|by apply fine_ret]. destruct (own_ok _ _ _ _ Hs Eo) as [He _]. destruct (Z.eqb_spec (fe_pipe e) NONE_ID) as [_|Hp]; cbn [negb].
  - case_if; [by apply fine_ret|]. pose proof (eo_fs _ He) as Hr. destruct (fe_fs e) as [fs|]; [|by apply fine_ret].
    destruct (ret_write _ Hr (fe_inode e) (fe_offset e) buf _ (vo_files _ (fo_vfs _ Hs)) (eo_offset _ He)) as (r & w & -> & Hw). cbn [mbind option_bind fst snd].
    pose proof (with_files_ok w s Hs Hw) as Hs'. destruct r; [|by apply fine_ret]. apply fine_ret, moved_ok; [done|done|apply u64_add_range].
  - destruct (pipe_there s e Hs He Hp) as (o & -> & Ho). cbn [mbind option_bind]. destruct o as [p|]; [|by apply fine_ret].
    apply fine_ret, with_pipes_ok; [done|]. apply insert_pipe_ok; [by apply fo_pipes|by apply pipe_write_ok].
Qed.

Lemma fd_seek_fine task fd offset whence s : fd_ok s -> fine (fd_seek task fd offset whence s).
Proof.
  intros Hs. unfold fd_seek. destruct (own task fd s) as [e|] eqn:Eo; [|by apply fine_ret]. destruct (own_ok _ _ _ _ Hs Eo) as [He _].
  case_if; [by apply fine_ret|]. case_if; [apply fine_ret, moved_ok; [done|done|apply Z.mod_pos_bound; done]|].
  case_if; [apply fine_ret, moved_ok; [done|done|apply u64_add_range]|]. case_if; [|by apply fine_ret]. pose proof (eo_fs _ He) as Hr. destruct (fe_fs e) as [fs|]; [|by apply fine_ret].
  destruct (ret_stat _ Hr (fe_inode e) _ (vo_files _ (fo_vfs _ Hs))) as [st ->]. cbn [mbind option_bind]. apply fine_ret, moved_ok; [done|done|apply u64_add_range].
Qed.

Lemma dup_ok task fd t : table_ok t -> table_ok (dup task fd t).2.
Proof. intros Ht. unfold dup. destruct (get fd t) as [e|] eqn:Eg; [|done]. case_if; [done|]. apply copy_ok; [done|by eapply get_ok]. Qed.

Lemma fd_dup2_fine task old new s : fd_ok s -> fine (fd_dup2 task old new s).
Proof.
  intros Hs. unfold fd_dup2. case_if; [by apply fine_ret|]. destruct (get old (fds s)) as [e|] eqn:Eg; [|by apply fine_ret]. pose proof (get_ok _ _ _ (fo_fds _ Hs) Eg) as He.
  case_if; [by apply fine_ret|]. assert (exists s1, match fds s !! new with Some (Some _) => snd <$> close_fd new s | _ => Some s end = Some s1 /\ fd_ok s1) as (s1 & -> & Hs1).
  { destruct (fds s !! new) as [[?|]|]; [|by exists s..]. destruct (close_fine new s Hs) as (b & s1 & -> & Hs1). by exists s1. }
  cbn [mbind option_bind]. apply fine_ret, with_fds_ok; [done|]. apply insert_ok; [by apply fo_fds|by apply with_task_ok].
Qed.

Lemma close_all_ok task t : table_ok t -> table_ok (close_all_for_task task t).
Proof.
  intros [H1 H2]. split; [unfold close_all_for_task; by rewrite length_map|]. apply Forall_map. eapply List.Forall_impl; [|exact H2]. intros [e|] He; [|done]. by case_if.
Qed.

Lemma clone_all_ok src dst t : table_ok t -> table_ok (clone_all_for_task src dst t).
Proof.
  intros Ht. unfold clone_all_for_task. assert (Forall entry_ok (owned src t)) as Ho.
  { destruct Ht as [_ Hf]. unfold owned. induction Hf as [|o t Ho _ IH]; cbn; [done|]. destruct o as [e|]; [|done]. case_if; [by constructor|done]. }
  generalize dependent (owned src t). intros l Hl. revert t Ht. induction Hl as [|e l He _ IH]; intros t Ht; [done|]. by apply IH, copy_ok.
Qed.

(** A call on paths that only changes the files. *)
Definition vfs_fine v (r : option (bool * VfsSys W)) : Prop := exists b w, r = Some (b, with_files w v) /\ I w.

Lemma vfs_fine_same v b : vfs_ok v -> vfs_fine v (Some (b, v)).
Proof. intros Hv. exists b, (files v). split; [by destruct v|apply (vo_files _ Hv)]. Qed.

Lemma on_vfs_fine op s : fd_ok s -> vfs_fine (vfs s) (op (vfs s)) -> fine (on_vfs op s).
Proof. intros Hs (b & w & E & Hw). unfold on_vfs. rewrite E. apply fine_ret. by apply with_files_ok. Qed.

Lemma stat_returns path v : vfs_ok v -> is_Some (stat_in_ns NS_ROOT path v).
Proof.
  intros Hv. unfold stat_in_ns, open_in_ns. destruct (open_opens v MAX_SYMLINK_DEPTH true Hv path) as (o & -> & Hn). cbn [mbind option_bind]. destruct o as [n|]; [|done].
  destruct (ret_stat _ (Hn n eq_refl) (v_inode n) _ (vo_files _ Hv)) as [st ->]. done.
Qed.

Lemma on_parent_fine {A} path (op : VfsNode W -> bytes -> W -> option (A * W)) good v : vfs_ok v ->
  (forall n c w, returns (v_fs n) -> I w -> keeps (op n c w)) -> vfs_fine v (on_parent NS_ROOT path op good v).
Proof.
  intros Hv Hop. unfold on_parent, open_in_ns. destruct (parent_dir path); [|by apply vfs_fine_same]. destruct (open_opens v MAX_SYMLINK_DEPTH true Hv l) as (o & -> & Hn).
  cbn [mbind option_bind]. destruct o as [n|]; [|by apply vfs_fine_same]. destruct (Hop n (file_name path) _ (Hn n eq_refl) (vo_files _ Hv)) as (a & w & -> & Hw).
  cbn [mbind option_bind]. by exists (good a), w.
Qed.

Lemma on_node_fine path op v : vfs_ok v -> (forall n w, returns (v_fs n) -> I w -> keeps (op n w)) -> vfs_fine v (on_node NS_ROOT path op v).
Proof.
  intros Hv Hop. unfold on_node, open_in_ns. destruct (open_opens v MAX_SYMLINK_DEPTH true Hv path) as (o & -> & Hn).
  cbn [mbind option_bind]. destruct o as [n|]; [|by apply vfs_fine_same]. destruct (Hop n _ (Hn n eq_refl) (vo_files _ Hv)) as (a & w & -> & Hw).
  cbn [mbind option_bind]. by exists a, w.
Qed.

Lemma mkdir_fine path cred v : vfs_ok v -> vfs_fine v (create_dir_permitted NS_ROOT path cred v).
Proof.
  intros Hv. unfold create_dir_permitted. destruct (parent_dir path) as [pd|]; [|by apply vfs_fine_same]. destruct (stat_returns pd v Hv) as [o ->]. cbn [mbind option_bind].
  destruct o as [st|]; [|by apply vfs_fine_same]. case_if; [|by apply vfs_fine_same]. apply on_parent_fine; [done|]. intros n c w Hr Hw. by apply ret_create.
Qed.

Lemma remove_fine path cred v : vfs_ok v -> vfs_fine v (remove_permitted NS_ROOT path cred v).
Proof.
  intros Hv. unfold remove_permitted. destruct (parent_dir path) as [pd|]; [|by apply vfs_fine_same]. destruct (stat_returns path v Hv) as [o ->]. cbn [mbind option_bind].
  destruct o as [st|]; [|by apply vfs_fine_same]. destruct (stat_returns pd v Hv) as [o ->]. cbn [mbind option_bind]. destruct o as [st'|]; [|by apply vfs_fine_same].
  case_if; [by apply vfs_fine_same|]. apply on_parent_fine; [done|]. intros n c w Hr Hw. by apply ret_unlink.
Qed.

Lemma chmod_fine path mode cred v : vfs_ok v -> vfs_fine v (chmod_permitted NS_ROOT path mode cred v).
Proof.
  intros Hv. unfold chmod_permitted. destruct (stat_returns path v Hv) as [o ->]. cbn [mbind option_bind]. destruct o as [st|]; [|by apply vfs_fine_same].
  case_if; [by apply vfs_fine_same|]. apply on_node_fine; [done|]. intros n w Hr Hw. by apply ret_chmod.
Qed.

Lemma chown_fine path owner group cred v : vfs_ok v -> vfs_fine v (chown_permitted NS_ROOT path owner group cred v).
Proof.
  intros Hv. unfold chown_permitted. destruct (stat_returns path v Hv) as [o ->]. cbn [mbind option_bind]. destruct o as [st|]; [|by apply vfs_fine_same]. cbn zeta.
  repeat (case_if; [by apply vfs_fine_same|]). apply on_node_fine; [done|]. intros n w Hr Hw. by apply ret_chown.
Qed.

Lemma rmdir_fine cred path s : fd_ok s -> fine (vfs_rmdir cred path s).
Proof.
  intros Hs. unfold vfs_rmdir, open_in_ns. destruct (open_opens (vfs s) MAX_SYMLINK_DEPTH true (fo_vfs _ Hs) path) as (o & -> & Hn). cbn [mbind option_bind].
  destruct o as [n|]; [|by apply fine_ret]. destruct (ret_read_dir _ (Hn n eq_refl) (v_inode n) _ (vo_files _ (fo_vfs _ Hs))) as [es ->]. cbn [mbind option_bind].
  destruct es; [|by apply fine_ret]. apply on_vfs_fine; [done|]. by apply remove_fine, fo_vfs.
Qed.

End safety.

(** ** Sequences of calls *)

Inductive FdCall :=
  | CPipe (task : Z)
  | CSocket (task id : Z)
  | COpen (task : Z) (cred : Credentials) (path : bytes)
  | CClose (task : Z) (fd : nat)
  | CRead (task : Z) (fd n : nat)
  | CWrite (task : Z) (fd : nat) (buf : bytes)
  | CSeek (task : Z) (fd : nat) (offset whence : Z)
  | CDup (task : Z) (fd : nat)
  | CDup2 (task : Z) (old new : nat)
  | CExit (task : Z)
  | CFork (src dst : Z)
  | CMkdir (cred : Credentials) (path : bytes)
  | CUnlink (cred : Credentials) (path : bytes)
  | CRmdir (cred : Credentials) (path : bytes)
  | CChmod (cred : Credentials) (path : bytes) (mode : Z)
  | CChown (cred : Credentials) (path : bytes) (owner group : Z).

(** The task whose descriptors a call may touch. *)
Definition caller (c : FdCall) : option Z :=
  match c with
  | CPipe t | CSocket t _ | COpen t _ _ | CClose t _ | CRead t _ _ | CWrite t _ _ | CSeek t _ _ _ | CDup t _ | CDup2 t _ _ | CExit t => Some t
  | _ => None
  end.

Section steps.
Context {W : Type}.
Implicit Types (s : FdSys W) (e : FdEntry W) (t : list (option (FdEntry W))).

Definition step (c : FdCall) (s : FdSys W) : option (FdSys W) :=
  match c with
  | CPipe task => Some (fd_pipe task s).2
  | CSocket task id => Some (fd_socket task id s).2
  | COpen task cred path => snd <$> fd_open task cred path s
  | CClose task fd => snd <$> fd_close task fd s
  | CRead task fd n => snd <$> fd_read task fd n s
  | CWrite task fd buf => snd <$> fd_write task fd buf s
  | CSeek task fd offset whence => snd <$> fd_seek task fd offset whence s
  | CDup task fd => Some (fd_dup task fd s).2
  | CDup2 task old new => snd <$> fd_dup2 task old new s
  | CExit task => Some (fd_close_all_for_task task s)
  | CFork src dst => Some (fd_clone_all_for_task src dst s)
  | CMkdir cred path => snd <$> vfs_mkdir cred path s
  | CUnlink cred path => snd <$> vfs_unlink cred path s
  | CRmdir cred path => snd <$> vfs_rmdir cred path s
  | CChmod cred path mode => snd <$> vfs_chmod cred path mode s
  | CChown cred path owner group => snd <$> vfs_chown cred path owner group s
  end.

Inductive reachable (s0 : FdSys W) : FdSys W -> Prop :=
  | reach_here : reachable s0 s0
  | reach_step s c s' : reachable s0 s -> step c s = Some s' -> reachable s0 s'.

(** A read of the console with nothing typed. *)
Definition waits (c : FdCall) s : Prop := exists task n, c = CRead task 0 n /\ read_console n [] (typed s) = None.

Lemma fine_step {A} I (r : option (A * FdSys W)) : fine I r -> exists s, snd <$> r = Some s /\ fd_ok I s.
Proof. intros (a & s & -> & Hs). by exists s. Qed.

Lemma step_ok I c s : fd_ok I s -> (exists s', step c s = Some s' /\ fd_ok I s') \/ waits c s.
Proof.
  intros Hs. destruct c; cbn [step].
  - left. eexists. split; [done|]. by apply fd_pipe_ok.
  - left. eexists. split; [done|]. unfold fd_socket, alloc_socket. pose proof (store_ok I _ _ (fo_fds _ _ Hs) (socket_entry_ok I task id)) as Ht.
    destruct (store_entry _ _). by apply with_fds_ok.
  - left. apply fine_step. by apply fd_open_fine.
  - left. apply fine_step. by apply fd_close_fine.
  - destruct (fd_read_fine I task fd n s Hs) as [Hf|[-> Hw]]; [left; by apply fine_step|right]. by exists task, n.
  - left. apply fine_step. by apply fd_write_fine.
  - left. apply fine_step. by apply fd_seek_fine.
  - left. eexists. split; [done|]. unfold fd_dup. pose proof (dup_ok I task fd _ (fo_fds _ _ Hs)) as Ht. destruct (dup _ _ _). by apply with_fds_ok.
  - left. apply fine_step. by apply fd_dup2_fine.
  - left. eexists. split; [done|]. apply with_fds_ok; [done|]. by apply close_all_ok, fo_fds.
  - left. eexists. split; [done|]. apply with_fds_ok; [done|]. by apply clone_all_ok, fo_fds.
  - left. apply fine_step. apply on_vfs_fine; [done|]. by apply mkdir_fine, fo_vfs.
  - left. apply fine_step. apply on_vfs_fine; [done|]. by apply remove_fine, fo_vfs.
  - left. apply fine_step. by apply rmdir_fine.
  - left. apply fine_step. apply on_vfs_fine; [done|]. by apply chmod_fine, fo_vfs.
  - left. apply fine_step. apply on_vfs_fine; [done|]. by apply chown_fine, fo_vfs.
Qed.

Lemma boot_fds_ok I (v : VfsSys W) input : vfs_ok I v -> fd_ok I (boot_fds v input).
Proof. intros Hv. split; [split; [apply length_replicate|by apply Forall_replicate]..|done]. Qed.

(** *** Entries of other tasks *)

(** The entries of the table stay where they are, unless [P] holds of them. *)
Definition kept (P : nat -> FdEntry W -> Prop) t t' : Prop := forall fd e, t !! fd = Some (Some e) -> ~ P fd e -> t' !! fd = Some (Some e).

Lemma kept_refl P t : kept P t t.
Proof. by intros fd e. Qed.

Lemma kept_insert (P : nat -> FdEntry W -> Prop) i o t : (forall e, t !! i = Some (Some e) -> P i e) -> kept P t (<[i := o]> t).
Proof. intros H fd e He Hn. destruct (decide (fd = i)) as [->|Hne]; [by destruct Hn; apply H|by rewrite list_lookup_insert_ne]. Qed.

Lemma kept_store P e0 t : kept P t (store_entry e0 t).2.
Proof.
  unfold store_entry. destruct (find_index is_free t) as [i|] eqn:Ef; [|apply kept_refl]. apply find_index_Some in Ef as [(o & Ho & Hf) _].
  apply kept_insert. intros e He. rewrite Ho in He. by injection He as ->.
Qed.

Lemma kept_trans P t1 t2 t3 : kept P t1 t2 -> kept P t2 t3 -> kept P t1 t3.
Proof. intros H1 H2 fd e He Hn. by apply H2, Hn; apply H1. Qed.

Lemma kept_copy P task e0 t : kept P t (alloc_copy task e0 t).2.
Proof. unfold alloc_copy. repeat case_if; try apply kept_store. destruct (fe_fs e0); [apply kept_store|apply kept_refl]. Qed.

Lemma get_lookup fd t e : get fd t = Some e -> t !! fd = Some (Some e).
Proof. unfold get. case_if; [done|]. by destruct (t !! fd) as [[?|]|]; intros; simplify_eq/=. Qed.

(** The entries of one task. *)
Definition of_task (task : Z) (_ : nat) (e : FdEntry W) : Prop := fe_task e = task.

Lemma own_lookup task fd s e : own task fd s = Some e -> fds s !! fd = Some (Some e) /\ fe_task e = task.
Proof.
  unfold own. destruct (get fd (fds s)) as [e'|] eqn:Eg; [|done]. case_if; [|done]. intros [= <-]. split; [by apply get_lookup|done].
Qed.

Lemma kept_own task fd s e o : own task fd s = Some e -> kept (of_task task) (fds s) (<[fd := o]> (fds s)).
Proof. intros (Hl & Ht)%own_lookup. apply kept_insert. intros e' He'. rewrite Hl in He'. by injection He' as <-. Qed.

Lemma close_fds fd s b s' : close_fd fd s = Some (b, s') -> fds s' = fds s \/ fds s' = <[fd := None]> (fds s).
Proof.
  unfold close_fd. destruct (get fd (fds s)) as [e|]; [|intros [= _ <-]; by left]. destruct (fe_pipe e =? NONE_ID); cbn [mbind option_bind].
  - intros [= _ <-]. by right.
  - destruct (pipes s !! _); [|done]. cbn [mbind option_bind]. intros [= _ <-]. by right.
Qed.

Lemma on_vfs_fds op s b s' : on_vfs op s = Some (b, s') -> fds s' = fds s /\ pipes s' = pipes s.
Proof. unfold on_vfs. destruct (op (vfs s)); [|done]. by intros [= _ <-]. Qed.

(** Slots of pipes that are in use. *)
Definition occupied (l : list (option PipeBuffer)) (i : nat) : Prop := exists p, l !! i = Some (Some p).

Lemma occupied_insert l i o j : occupied l j -> (i = j -> is_Some o) -> occupied (<[i := o]> l) j.
Proof.
  intros (p & Hp) Ho. destruct (decide (i = j)) as [->|Hne]; [|exists p; by rewrite list_lookup_insert_ne].
  destruct (Ho eq_refl) as [q ->]. exists q. apply list_lookup_insert_eq. by eapply lookup_lt_Some.
Qed.

(** What a call on one descriptor changes: that entry, if the task owns it, and the contents of pipes. *)
Definition touches task fd s s' : Prop :=
  (fds s' = fds s \/ exists e o, own task fd s = Some e /\ fds s' = <[fd := o]> (fds s)) /\ forall j, occupied (pipes s) j -> occupied (pipes s') j.

Lemma touches_nothing task fd s : touches task fd s s.
Proof. split; [by left|done]. Qed.

Lemma touches_entry task fd s e o s' : own task fd s = Some e -> fds s' = <[fd := o]> (fds s) -> pipes s' = pipes s -> touches task fd s s'.
Proof. intros He Hf Hp. split; [right; by exists e, o|by rewrite Hp]. Qed.

Lemma touches_pipe task fd s i p q s' : pipes s !! i = Some (Some p) -> fds s' = fds s -> pipes s' = <[i := Some q]> (pipes s) -> touches task fd s s'.
Proof. intros Hi Hf Hp. split; [by left|]. intros j Hj. rewrite Hp. by apply occupied_insert. Qed.

Lemma read_touches task fd n s r s' : fd_read task fd n s = Some (r, s') -> touches task fd s s'.
Proof.
  unfold fd_read. destruct (fd =? 0)%nat.
  { destruct (read_console n [] (typed s)) as [[o i]|]; [|done]. intros [= _ <-]. split; [by left|done]. }
  destruct (own task fd s) as [e|] eqn:Eo; [|intros [= _ <-]; apply touches_nothing]. destruct (negb _).
  - destruct (pipes s !! _) as [[p|]|] eqn:Ep; [..|done]; cbn [mbind option_bind]; [|intros [= _ <-]; apply touches_nothing].
    intros [= _ <-]. by eapply touches_pipe.
  - destruct (fe_fs e) as [fs|]; [|intros [= _ <-]; apply touches_nothing]. destruct (fs_read _ _ _ _ _) as [[b|]|]; [..|done]; cbn [mbind option_bind].
    + intros [= _ <-]. by eapply touches_entry.
    + intros [= _ <-]. apply touches_nothing.
Qed.

Lemma write_touches task fd buf s r s' : fd_write task fd buf s = Some (r, s') -> touches task fd s s'.
Proof.
  unfold fd_write. destruct (_ || _); [intros [= _ <-]; split; [by left|done]|].
  destruct (own task fd s) as [e|] eqn:Eo; [|intros [= _ <-]; apply touches_nothing]. destruct (negb _).
  - destruct (pipes s !! _) as [[p|]|] eqn:Ep; [..|done]; cbn [mbind option_bind]; [|intros [= _ <-]; apply touches_nothing].
    intros [= _ <-]. by eapply touches_pipe.
  - destruct (fe_read_only e); [intros [= _ <-]; apply touches_nothing|]. destruct (fe_fs e) as [fs|]; [|intros [= _ <-]; apply touches_nothing].
    destruct (fs_write _ _ _ _ _) as [[[b|] w]|]; [..|done]; cbn [mbind option_bind fst snd].
    + intros [= _ <-]. by eapply touches_entry.
    + intros [= _ <-]. split; [by left|done].
Qed.

Lemma seek_touches task fd offset whence s r s' : fd_seek task fd offset whence s = Some (r, s') -> touches task fd s s'.
Proof.
  unfold fd_seek. destruct (own task fd s) as [e|] eqn:Eo; [|intros [= _ <-]; apply touches_nothing]. destruct (negb _); [intros [= _ <-]; apply touches_nothing|].
  destruct (whence =? 0); [intros [= _ <-]; by eapply touches_entry|]. destruct (whence =? 1); [intros [= _ <-]; by eapply touches_entry|].
  destruct (whence =? 2); [|intros [= _ <-]; apply touches_nothing]. destruct (fe_fs e) as [fs|]; [|intros [= _ <-]; apply touches_nothing].
  destruct (fs_stat _ _ _); [|done]. cbn [mbind option_bind]. intros [= _ <-]. by eapply touches_entry.
Qed.

Lemma close_pipes fd s b s' j : close_fd fd s = Some (b, s') -> occupied (pipes s) j -> occupied (pipes s') j.
Proof.
  unfold close_fd. destruct (get fd (fds s)) as [e|]; [|by intros [= _ <-]]. destruct (fe_pipe e =? NONE_ID); cbn [mbind option_bind]; [by intros [= _ <-]|].
  destruct (pipes s !! _) as [o|] eqn:Ep; [|done]. cbn [mbind option_bind]. intros [= _ <-] Hj. cbn. apply occupied_insert; [done|]. intros <-.
  destruct Hj as [p Hp]. rewrite Ep in Hp. injection Hp as ->. done.
Qed.

Lemma close_touches task fd s r s' : fd_close task fd s = Some (r, s') -> touches task fd s s'.
Proof.
  unfold fd_close. destruct (own task fd s) as [e|] eqn:Eo; [|intros [= _ <-]; apply touches_nothing]. intros Hc. split; [|intros j; by apply (close_pipes fd s r)].
  destruct (close_fds fd s r s' Hc) as [->| ->]; [by left|right; by exists e, None].
Qed.

Lemma touches_kept task fd s s' : touches task fd s s' -> kept (of_task task) (fds s) (fds s').
Proof. intros [[->|(e & o & He & ->)] _]; [apply kept_refl|by eapply kept_own]. Qed.

Lemma fmap_snd {A} (r : option (A * FdSys W)) s : snd <$> r = Some s -> exists a, r = Some (a, s).
Proof. destruct r as [[a s']|]; [|done]. intros [= <-]. by exists a. Qed.

Lemma pipe_kept P task s : kept P (fds s) (fds (fd_pipe task s).2) /\ forall j, occupied (pipes s) j -> occupied (pipes (fd_pipe task s).2) j.
Proof.
  unfold fd_pipe. destruct (find_index _ (pipes s)) as [id|] eqn:Ef; [|split; [apply kept_refl|done]]. apply find_index_Some in Ef as [(x & Hx & Hn) _].
  set (e0 := pipe_entry (W := W) task (Z.of_nat id)). set (s1 := with_pipes _ s). pose proof (kept_store P e0 (fds s1)) as H1. unfold alloc_pipe. fold e0.
  destruct (store_entry e0 (fds s1)) as [r t1]. pose proof (kept_store P e0 t1) as H2. destruct (store_entry e0 t1) as [w t2]. cbn [snd] in H1, H2.
  pose proof (kept_trans P _ _ _ H1 H2) as Hk. assert (forall j, occupied (pipes s) j -> j <> id) as Hne by (intros j [p Hp] ->; rewrite Hx in Hp; by injection Hp as ->).
  destruct r, w; (split; [exact Hk|]); intros j Hj; cbn; repeat apply occupied_insert; try done; by intros <-; destruct (Hne _ Hj).
Qed.

Lemma open_fds task cred path s r s' P : fd_open task cred path s = Some (r, s') -> kept P (fds s) (fds s') /\ pipes s' = pipes s.
Proof.
  unfold fd_open. destruct (open_in_ns _ _ _) as [[n|]|]; [..|done]; cbn [mbind option_bind]; [|intros [= _ <-]; split; [apply kept_refl|done]].
  destruct (fs_stat _ _ _) as [st|]; [|done]. cbn [mbind option_bind]. destruct (negb _); [intros [= _ <-]; split; [apply kept_refl|done]|]. unfold alloc.
  pose proof (kept_store P (file_entry task n (st_type st) path) (fds s)) as H. destruct (store_entry _ _) as [i t]. by intros [= _ <-].
Qed.

Lemma rmdir_fds cred path s b s' : vfs_rmdir cred path s = Some (b, s') -> fds s' = fds s /\ pipes s' = pipes s.
Proof.
  unfold vfs_rmdir. destruct (open_in_ns _ _ _) as [[n|]|]; [..|done]; cbn [mbind option_bind]; [|by intros [= _ <-]].
  destruct (fs_read_dir _ _ _) as [[|? ?]|]; [..|done]; cbn [mbind option_bind]; [apply on_vfs_fds|by intros [= _ <-]].
Qed.

Lemma kept_clone P src dst t : kept P t (clone_all_for_task src dst t).
Proof.
  unfold clone_all_for_task. generalize (owned src t). intros l. revert t. induction l as [|e l IH]; intros t; [apply kept_refl|]. cbn [foldl].
  eapply kept_trans; [apply (kept_copy P dst e)|apply IH].
Qed.

Lemma kept_exit task t : kept (of_task task) t (close_all_for_task task t).
Proof. intros fd e He Hn. unfold close_all_for_task. rewrite list_lookup_fmap, He. cbn. by rewrite (proj2 (Z.eqb_neq _ _)). Qed.

Lemma kept_dup P task fd t : kept P t (dup task fd t).2.
Proof. unfold dup. destruct (get fd t); [|apply kept_refl]. case_if; [apply kept_refl|apply kept_copy]. Qed.

Lemma dup2_fds task old new s r s' : fd_dup2 task old new s = Some (r, s') ->
  kept (fun fd _ => fd = new) (fds s) (fds s') /\ forall j, occupied (pipes s) j -> occupied (pipes s') j.
Proof.
  unfold fd_dup2. destruct (256 <=? new)%nat; [intros [= _ <-]; split; [apply kept_refl|done]|]. destruct (get old (fds s)) as [e|]; [|intros [= _ <-]; split; [apply kept_refl|done]].
  destruct (negb _); [intros [= _ <-]; split; [apply kept_refl|done]|].
  destruct (match fds s !! new with Some (Some _) => snd <$> close_fd new s | _ => Some s end) as [s1|] eqn:E1; [|done]. cbn [mbind option_bind]. intros [= _ <-].
  assert (kept (fun fd _ => fd = new) (fds s) (fds s1) /\ forall j, occupied (pipes s) j -> occupied (pipes s1) j) as [H1 H2].
  { destruct (fds s !! new) as [[e1|]|]; [|injection E1 as <-; split; [apply kept_refl|done]..]. apply fmap_snd in E1 as [b E1].
    split; [|intros j; by apply (close_pipes new s b)]. destruct (close_fds new s b s1 E1) as [->| ->]; [apply kept_refl|by apply kept_insert]. }
  split; [|done]. eapply kept_trans; [exact H1|]. by apply kept_insert.
Qed.

End steps.
