(* ===== verification/FdMain.v ===== *)
(** Theorems about open files and pipes, and the memory file system as a file system whose calls return. *)

From S2P Require Import Tmpfs TmpfsProofs.
From S2P Require Import Ns Prelude Bytes Text Vfs VfsTree VfsPerm VfsProofs VfsTmpfs Fd FdProofs.

Definition tmp_inv (t : Tmpfs.Tmp) : Prop := exists s, TmpfsProofs.sim t s.

(** The calls of the memory file system return. *)
Lemma tmp_returns : returns tmp_inv tmp_fs.
Proof.
  split; try done; unfold keeps; cbn [tmp_fs fs_write fs_lookup fs_read_dir fs_create fs_unlink fs_chmod fs_chown].
  - intros i o b w [s Hs] [Ho _]. destruct (Tmpfs.write i o b w) as [r w'] eqn:E. exists r, w'. split; [done|].
    destruct (TmpfsProofs.write_refines w s i o b Hs Ho) as [_ Hs']. rewrite E in Hs'. by eexists.
  - intros i n w [s Hs]. unfold Tmpfs.lookup. by rewrite (TmpfsProofs.read_dir_refines w s i Hs).
  - intros i w [s Hs]. by rewrite (TmpfsProofs.read_dir_refines w s i Hs).
  - intros i n ft w [s Hs]. destruct (TmpfsProofs.make_refines w s i n true (Tmpfs.fresh_node n ft) (TmpfsProofs.TmpSpec.new_node n ft) Hs) as (t' & E & Hs');
      [intros _; apply TmpfsProofs.fresh_node_rel|done|done|done|]. do 2 eexists. split; [exact E|by eexists].
  - intros i n w [s Hs]. destruct (TmpfsProofs.unlink_refines w s i n Hs) as (t' & E & Hs'). do 2 eexists. split; [exact E|by eexists].
  - intros i m w [s Hs]. destruct (Tmpfs.chmod i m w) as [r w'] eqn:E. exists r, w'. split; [done|].
    destruct (TmpfsProofs.chmod_refines w s i m Hs) as [_ Hs']. rewrite E in Hs'. by eexists.
  - intros i u g w [s Hs]. destruct (Tmpfs.chown i u g w) as [r w'] eqn:E. exists r, w'. split; [done|].
    destruct (TmpfsProofs.chown_refines w s i u g Hs) as [_ Hs']. rewrite E in Hs'. by eexists.
Qed.

(** *** Pipes as queues *)

Inductive PipeOp := PWrite (buf : bytes) | PRead (n : nat).

(** The answers of a pipe with both ends open. *)
Fixpoint pipe_run (ops : list PipeOp) (p : PipeBuffer) : list (option nat + option bytes) * PipeBuffer :=
  match ops with
  | [] => ([], p)
  | PWrite buf :: ops => let '(a, p) := pipe_write buf p in let '(l, p) := pipe_run ops p in (inl a :: l, p)
  | PRead n :: ops => let '(a, p) := pipe_read n p in let '(l, p) := pipe_run ops p in (inr a :: l, p)
  end.

(** The answers of a list of at most [PIPE_BUF_SIZE] bytes: a write appends what fits, a read takes from the front and
    fails when there is nothing. *)
Fixpoint queue_run (ops : list PipeOp) (q : bytes) : list (option nat + option bytes) * bytes :=
  match ops with
  | [] => ([], q)
  | PWrite buf :: ops =>
      let k := Nat.min (length buf) (PIPE_BUF_SIZE - length q) in
      let '(l, q) := queue_run ops (q ++ take k buf) in (inl (Some k) :: l, q)
  | PRead n :: ops =>
      match q with
      | [] => let '(l, q) := queue_run ops q in (inr None :: l, q)
      | _ => let '(l, q') := queue_run ops (drop n q) in (inr (Some (take n q)) :: l, q')
      end
  end.

#[local] Opaque PIPE_BUF_SIZE.

Definition both_open (p : PipeBuffer) : Prop := pb_read_open p = true /\ pb_write_open p = true.

Lemma write_open p buf : pipe_ok p -> both_open p -> let k := Nat.min (length buf) (PIPE_BUF_SIZE - length (queue p)) in
  (pipe_write buf p).1 = Some k /\ pipe_ok (pipe_write buf p).2 /\ both_open (pipe_write buf p).2 /\ queue (pipe_write buf p).2 = queue p ++ take k buf.
Proof.
  intros Hp [Hr Hw]. unfold pipe_write. rewrite Hr, Hw, queue_length. cbn [negb orb fst snd]. destruct (write_loop_spec buf 0 p Hp) as (H1 & H2 & H3 & H4 & H5).
  rewrite H1, H3. split_and!; [done|done| |done]. split; [by rewrite H4|by rewrite H5].
Qed.

Lemma read_open p n : pipe_ok p -> both_open p ->
  (pipe_read n p).1 = (if bool_decide (queue p = []) then None else Some (take n (queue p))) /\ pipe_ok (pipe_read n p).2 /\ both_open (pipe_read n p).2 /\
  queue (pipe_read n p).2 = drop n (queue p).
Proof.
  intros Hp [Hr Hw]. unfold pipe_read. rewrite Hr, Hw. cbn [negb]. rewrite andb_false_r. pose proof (queue_length p) as Hl.
  destruct (Nat.eqb_spec (pb_count p) 0) as [E|E].
  - rewrite E in Hl. apply nil_length_inv in Hl. rewrite Hl, bool_decide_eq_true_2, drop_nil by done. by split_and!.
  - rewrite bool_decide_eq_false_2 by (intros Hq; by rewrite Hq in Hl). cbn [fst snd]. destruct (read_loop_spec n [] p Hp) as (H1 & H2 & H3 & H4 & H5).
    rewrite H1, H3. split_and!; [done|done| |done]. split; [by rewrite H4|by rewrite H5].
Qed.

(** *** The two descriptors of a new pipe *)

Lemma store_made {W} (e : FdEntry W) t i t' : store_entry e t = (Some i, t') -> t' = <[i := Some e]> t /\ t !! i = Some None.
Proof.
  unfold store_entry. destruct (find_index is_free t) as [j|] eqn:Ef; [|done]. intros [= <- <-]. split; [done|].
  apply find_index_Some in Ef as [(o & Ho & Hf) _]. by destruct o.
Qed.

(** A descriptor of [task] on the pipe [id]. *)
Definition on_pipe {W} (task : Z) (id fd : nat) (s : FdSys W) : Prop :=
  (fd < MAX_FDS)%nat /\ fds s !! fd = Some (Some (pipe_entry task (Z.of_nat id))).

Lemma fd_pipe_made {W} task (s s1 : FdSys W) r w : length (fds s) = MAX_FDS -> length (pipes s) = MAX_PIPES -> fd_pipe task s = (Some (r, w), s1) ->
  exists id, (id < MAX_PIPES)%nat /\ r <> w /\ on_pipe task id r s1 /\ on_pipe task id w s1 /\ pipes s1 !! id = Some (Some (with_ends true true new_pipe)).
Proof.
  intros Hl Hlp. unfold fd_pipe. destruct (find_index _ (pipes s)) as [id|] eqn:Ef; [|done]. apply find_index_Some in Ef as [(x & Hx & _) _].
  apply lookup_lt_Some in Hx. unfold alloc_pipe. cbn [with_pipes fds]. destruct (store_entry _ (fds s)) as [[r'|] t1] eqn:E1; [|by destruct (store_entry _ t1) as [[]]].
  destruct (store_entry _ t1) as [[w'|] t2] eqn:E2; [|done]. intros [= -> -> <-]. exists id.
  apply store_made in E1 as [-> Hr]. apply store_made in E2 as [-> Hw]. pose proof (lookup_lt_Some _ _ _ Hr) as Hr'. pose proof (lookup_lt_Some _ _ _ Hw) as Hw'.
  rewrite length_insert in Hw'. assert (r <> w) as Hne. { intros ->. by rewrite list_lookup_insert_eq in Hw. }
  unfold on_pipe. cbn [with_fds with_pipes fds pipes]. split_and!; try done; try lia.
  - rewrite list_lookup_insert_ne by done. by apply list_lookup_insert_eq.
  - apply list_lookup_insert_eq. by rewrite length_insert.
  - by apply list_lookup_insert_eq.
Qed.

Lemma on_pipe_own {W} task id fd (s : FdSys W) : on_pipe task id fd s -> own task fd s = Some (pipe_entry task (Z.of_nat id)).
Proof. intros [H1 H2]. unfold own, get. rewrite (proj2 (Nat.leb_gt _ _)), H2 by done. cbn. by rewrite Z.eqb_refl. Qed.

Lemma pipe_id_real id : (id < MAX_PIPES)%nat -> (Z.of_nat id =? NONE_ID) = false.
Proof. intros H. apply Z.eqb_neq. unfold MAX_PIPES in H. unfold NONE_ID, U64_MAX, U64. lia. Qed.

Lemma read_on_pipe {W} task id fd n (s : FdSys W) p : (id < MAX_PIPES)%nat -> fd <> 0%nat -> on_pipe task id fd s -> pipes s !! id = Some (Some p) ->
  fd_read task fd n s = Some ((pipe_read n p).1, with_pipes (<[id := Some (pipe_read n p).2]> (pipes s)) s).
Proof.
  intros Hid Hfd Ho Hp. unfold fd_read. rewrite (proj2 (Nat.eqb_neq _ _)), (on_pipe_own _ _ _ _ Ho) by done. cbn [pipe_entry fe_pipe].
  rewrite pipe_id_real by done. cbn [negb]. rewrite Nat2Z.id, Hp. done.
Qed.

Lemma write_on_pipe {W} task id fd buf (s : FdSys W) p : (id < MAX_PIPES)%nat -> fd <> 1%nat -> fd <> 2%nat -> on_pipe task id fd s -> pipes s !! id = Some (Some p) ->
  fd_write task fd buf s = Some ((pipe_write buf p).1, with_pipes (<[id := Some (pipe_write buf p).2]> (pipes s)) s).
Proof.
  intros Hid H1 H2 Ho Hp. unfold fd_write. rewrite !(proj2 (Nat.eqb_neq _ _)), (on_pipe_own _ _ _ _ Ho) by done. cbn [orb pipe_entry fe_pipe].
  rewrite pipe_id_real by done. cbn [negb]. rewrite Nat2Z.id, Hp. done.
Qed.

Lemma close_on_pipe {W} task id fd (s : FdSys W) p : (id < MAX_PIPES)%nat -> on_pipe task id fd s -> pipes s !! id = Some (Some p) ->
  fd_close task fd s = Some (true, with_fds (<[fd := None]> (fds s)) (with_pipes (<[id := Some (close_end fd p)]> (pipes s)) s)).
Proof.
  intros Hid Ho Hp. unfold fd_close, close_fd. rewrite (on_pipe_own _ _ _ _ Ho). destruct Ho as [H1 H2]. unfold get. rewrite (proj2 (Nat.leb_gt _ _)), H2 by done.
  cbn [mjoin option_join pipe_entry fe_pipe]. rewrite pipe_id_real by done. rewrite Nat2Z.id, Hp. done.
Qed.

Lemma new_pipe_queue r w : queue (with_ends r w new_pipe) = [].
Proof. done. Qed.

(** Reading after the write descriptor [w] was closed. *)
Lemma read_after_close {W} task id r w n (s : FdSys W) p buf : (id < MAX_PIPES)%nat -> r <> 0%nat -> on_pipe task id r s -> pipes s !! id = Some (Some (close_end w p)) ->
  pipe_ok p -> both_open p -> queue p = buf -> (0 < length buf)%nat -> (length buf <= n)%nat ->
  if (w `mod` 2 =? 0)%nat then forall k, exists s4, fd_read task r k s = Some (None, s4)
  else exists s4 s5, fd_read task r n s = Some (Some buf, s4) /\ fd_read task r n s4 = Some (Some [], s5).
Proof.
  intros Hid Hr Ho Hp Hok [Hro Hwo] Hq Hb Hn. unfold close_end in Hp. destruct (_ =? 0)%nat.
  { intros k. eexists. rewrite (read_on_pipe task id r k s _ Hid Hr Ho Hp). done. }
  set (p3 := with_ends (pb_read_open p) false p) in *. assert (pipe_ok p3) as Hok3 by (by destruct Hok; split). assert (queue p3 = buf) as Hq3 by done.
  pose proof (queue_length p3) as Hl3. rewrite Hq3 in Hl3. destruct (read_loop_spec n [] p3 Hok3) as (R1 & R2 & R3 & R4 & R5). rewrite Hq3 in R1, R3.
  rewrite take_ge in R1 by done. rewrite drop_ge in R3 by done. set (p4 := (read_loop n [] p3).2) in *.
  assert (pipe_read n p3 = (Some buf, p4)) as E3.
  { unfold pipe_read. change (pb_read_open p3) with (pb_read_open p). rewrite Hro, <-Hl3, (proj2 (Nat.eqb_neq _ _)) by lia. cbn [negb andb]. by rewrite R1. }
  assert (pipe_read n p4 = (Some [], p4)) as E4.
  { unfold pipe_read. rewrite R4, R5. change (pb_read_open p3) with (pb_read_open p). rewrite Hro. pose proof (queue_length p4) as Hl4. rewrite R3 in Hl4. by rewrite <-Hl4. }
  do 2 eexists. rewrite (read_on_pipe task id r n s _ Hid Hr Ho Hp), E3. split; [done|].
  rewrite (read_on_pipe task id r n _ p4 Hid Hr); [by rewrite E4|done|]. cbn. apply list_lookup_insert_eq. by eapply lookup_lt_Some.
Qed.

Lemma step_pipes {W} c (s s' : FdSys W) j : step c s = Some s' -> occupied (pipes s) j -> occupied (pipes s') j.
Proof.
  intros Hs Hj. destruct c; cbn [step] in Hs; try (apply fmap_snd in Hs as [a Hs]); try (injection Hs as <-).
  - by apply (pipe_kept (fun _ _ => False) task s).
  - unfold fd_socket. by destruct (alloc_socket _ _ _).
  - by rewrite (proj2 (open_fds task cred path s a s' (fun _ _ => False) Hs)).
  - by apply (proj2 (close_touches _ _ _ _ _ Hs)).
  - by apply (proj2 (read_touches _ _ _ _ _ _ Hs)).
  - by apply (proj2 (write_touches _ _ _ _ _ _ Hs)).
  - by apply (proj2 (seek_touches _ _ _ _ _ _ _ Hs)).
  - unfold fd_dup. by destruct (dup _ _ _).
  - by apply (proj2 (dup2_fds task old new s a s' Hs)).
  - done.
  - done.
  - by rewrite (proj2 (on_vfs_fds _ _ _ _ Hs)).
  - by rewrite (proj2 (on_vfs_fds _ _ _ _ Hs)).
  - by rewrite (proj2 (rmdir_fds _ _ _ _ _ Hs)).
  - by rewrite (proj2 (on_vfs_fds _ _ _ _ Hs)).
  - by rewrite (proj2 (on_vfs_fds _ _ _ _ Hs)).
Qed.

Module FdMain.

(** C25: Every call on descriptors and paths returns.  In every state that calls of any tasks lead to from boot, over file systems
    whose calls return, the tables are well-formed, in particular every pipe number is in range and
    every buffer within its bounds, and each further call returns, except a read of the console when nothing is typed. *)
Theorem fd_calls_safe {W} (I : W -> Prop) (v : VfsSys W) input s : vfs_ok I v -> reachable (boot_fds v input) s ->
  fd_ok I s /\ forall c, is_Some (step c s) \/ waits c s.
Proof.
  intros Hv Hr. assert (fd_ok I s) as Hs.
  { induction Hr as [|s c s' _ IH Hstep]; [by apply boot_fds_ok|]. destruct (step_ok I c s IH) as [(s1 & E & Hs1)|(task & n & -> & E)]; [congruence|].
    cbn [step] in Hstep. unfold fd_read in Hstep. cbn [Nat.eqb] in Hstep. by rewrite E in Hstep. }
  split; [done|]. intros c. destruct (step_ok I c s Hs) as [(s1 & E & _)|Hw]; [left; by rewrite E|by right].
Qed.

(** C26: Descriptors are private, except for dup2.  A call leaves every descriptor of every other task as it is, with its file and its offset, unless
    the call is a dup2 onto that descriptor. *)
Theorem fd_isolation {W} c (s s' : FdSys W) fd e : step c s = Some s' -> fds s !! fd = Some (Some e) -> caller c <> Some (fe_task e) ->
  (forall task old, c <> CDup2 task old fd) -> fds s' !! fd = Some (Some e).
Proof.
  intros Hs He Hc Hd. assert (forall task, caller c = Some task -> ~ of_task task fd e) as Hn by (intros task E Ht; apply Hc; by rewrite E, Ht).
  destruct c; cbn [step] in Hs; try (apply fmap_snd in Hs as [a Hs]); cbn [caller] in Hn;
    try (injection Hs as <-); try specialize (Hn _ eq_refl).
  - by apply (pipe_kept (of_task task) task s).
  - unfold fd_socket, alloc_socket. pose proof (kept_store (of_task task) (socket_entry task id) (fds s)) as H. destruct (store_entry _ _). by apply H.
  - by apply (open_fds task cred path s a s' (of_task task) Hs).
  - by apply (touches_kept task fd0 s s' (close_touches _ _ _ _ _ Hs)).
  - by apply (touches_kept task fd0 s s' (read_touches _ _ _ _ _ _ Hs)).
  - by apply (touches_kept task fd0 s s' (write_touches _ _ _ _ _ _ Hs)).
  - by apply (touches_kept task fd0 s s' (seek_touches _ _ _ _ _ _ _ Hs)).
  - unfold fd_dup. pose proof (kept_dup (of_task task) task fd0 (fds s)) as H. destruct (dup _ _ _). by apply H.
  - apply (proj1 (dup2_fds task old new s a s' Hs)); [done|]. intros ->. by apply (Hd task old).
  - by apply (kept_exit task (fds s)).
  - apply (kept_clone (fun _ _ => False) src dst (fds s)); [done|by intros []].
  - destruct (on_vfs_fds _ _ _ _ Hs) as [-> _]. done.
  - destruct (on_vfs_fds _ _ _ _ Hs) as [-> _]. done.
  - destruct (rmdir_fds _ _ _ _ _ Hs) as [-> _]. done.
  - destruct (on_vfs_fds _ _ _ _ Hs) as [-> _]. done.
  - destruct (on_vfs_fds _ _ _ _ Hs) as [-> _]. done.
Qed.

(** C40: A pipe is a queue.  With both ends open, every sequence of writes and reads is answered as by a list of at most 4096 bytes, of which it
    holds the contents in a ring. *)
Theorem pipe_refines_queue ops p : pipe_ok p -> both_open p ->
  (pipe_run ops p).1 = (queue_run ops (queue p)).1 /\ queue (pipe_run ops p).2 = (queue_run ops (queue p)).2 /\ pipe_ok (pipe_run ops p).2.
Proof.
  revert p. induction ops as [|[buf|n] ops IH]; intros p Hp Ho; cbn [pipe_run queue_run]; [done|..].
  - destruct (write_open p buf Hp Ho) as (H1 & H2 & H3 & H4). cbn zeta in *. destruct (pipe_write buf p) as [a p']. cbn [fst snd] in *. subst a.
    destruct (IH p' H2 H3) as (IH1 & IH2 & IH3). rewrite <-H4. destruct (pipe_run ops p') as [l p'']. destruct (queue_run ops (queue p')) as [l' q']. cbn in *. by subst.
  - destruct (read_open p n Hp Ho) as (H1 & H2 & H3 & H4). destruct (pipe_read n p) as [a p']. cbn [fst snd] in *. subst a.
    destruct (IH p' H2 H3) as (IH1 & IH2 & IH3). rewrite H4 in IH1, IH2. destruct (pipe_run ops p') as [l p'']. cbn [fst snd] in *.
    destruct (queue p) as [|x q]; [rewrite drop_nil in IH1, IH2|]; destruct (queue_run ops _) as [l' q'] eqn:Er; cbn [fst snd] in *; rewrite IH1, IH2; done.
Qed.

(** The end of a pipe that is closed depends on the number of the descriptor.  Of a new pipe, what is written to the write descriptor is read from the
    read descriptor.  When the write descriptor, with an odd number, is closed the data can still be read and then the end of the
    file is reached; with an even number the data is lost and the reader never learns of the end. *)
Theorem pipe_close_by_parity {W} task (s s1 : FdSys W) r w buf n : length (fds s) = MAX_FDS -> length (pipes s) = MAX_PIPES ->
  fd_pipe task s = (Some (r, w), s1) -> r <> 0%nat -> w <> 1%nat -> w <> 2%nat -> (0 < length buf <= PIPE_BUF_SIZE)%nat -> (length buf <= n)%nat ->
  exists s2 s3, fd_write task w buf s1 = Some (Some (length buf), s2) /\ fd_close task w s2 = Some (true, s3) /\
    (exists s4, fd_read task r n s2 = Some (Some buf, s4)) /\
    if (w `mod` 2 =? 0)%nat then forall k, exists s4, fd_read task r k s3 = Some (None, s4)
    else exists s4 s5, fd_read task r n s3 = Some (Some buf, s4) /\ fd_read task r n s4 = Some (Some [], s5).
Proof.
  intros Hl Hlp Hp Hr Hw1 Hw2 Hb Hn. destruct (fd_pipe_made task s s1 r w Hl Hlp Hp) as (id & Hid & Hne & Hor & How & Hpipe).
  set (p := with_ends true true new_pipe) in *. pose proof (new_pipe_ok true true) as Hok. fold p in Hok.
  destruct (write_open p buf Hok) as (H1 & H2 & [H3 H3'] & H4); [done|]. cbn zeta in *. rewrite (new_pipe_queue true true : queue p = []) in *. cbn [length app] in *.
  rewrite Nat.min_l, take_ge in * by lia. set (p2 := (pipe_write buf p).2) in *.
  assert (exists s2, fd_write task w buf s1 = Some (Some (length buf), s2) /\ fds s2 = fds s1 /\ pipes s2 !! id = Some (Some p2)) as (s2 & E2 & F2 & P2).
  { eexists. split; [rewrite (write_on_pipe task id w buf s1 p) by done; by rewrite H1|]. split; [done|]. apply list_lookup_insert_eq. by eapply lookup_lt_Some. }
  assert (forall fd, on_pipe task id fd s1 -> on_pipe task id fd s2) as Hon by (unfold on_pipe; by rewrite F2).
  assert (exists s3, fd_close task w s2 = Some (true, s3) /\ on_pipe task id r s3 /\ pipes s3 !! id = Some (Some (close_end w p2))) as (s3 & E3 & O3 & P3).
  { eexists. split; [by apply (close_on_pipe task id w s2 p2); [done|by apply Hon|]|]. cbn. split; [|apply list_lookup_insert_eq; by eapply lookup_lt_Some].
    split; [apply Hor|]. cbn. rewrite list_lookup_insert_ne by done. by apply Hon. }
  exists s2, s3. split; [done|]. split; [done|]. split.
  - eexists. rewrite (read_on_pipe task id r n s2 p2) by (done || by apply Hon). destruct (read_open p2 n H2) as (R1 & _); [done|]. rewrite R1, H4.
    rewrite bool_decide_eq_false_2 by (intros ->; cbn in Hb; lia). by rewrite take_ge.
  - apply (read_after_close task id r w n s3 p2 buf); try done. lia.
Qed.

(** dup2 takes descriptors of other tasks.  A task that owns any descriptor can put it in the place of a descriptor of another task:
    the call succeeds, the other task loses its file and cannot use the number any more. *)
Theorem dup2_takes_descriptor {W} (I : W -> Prop) task old new (s : FdSys W) e victim : fd_ok I s -> own task old s = Some e ->
  own (fe_task victim) new s = Some victim -> fe_task victim <> task ->
  exists s', fd_dup2 task old new s = Some (Some new, s') /\ own task new s' = Some e /\ own (fe_task victim) new s' = None.
Proof.
  intros Hs He Hv Hne. destruct (own_lookup _ _ _ _ Hv) as [Hvl _]. destruct (own_ok _ _ _ _ _ Hs He) as [_ Het]. pose proof (lookup_lt_Some _ _ _ Hvl) as Hlt.
  pose proof (proj1 (fo_fds _ _ Hs)) as Hlen. rewrite Hlen in Hlt. unfold fd_dup2. rewrite (proj2 (Nat.leb_gt _ _)) by done.
  unfold own in He. destruct (get old (fds s)) as [e0|]; [|done]. case_if_in He; [|done]. injection He as ->. cbn [negb]. rewrite Hvl.
  destruct (close_fine I new s Hs) as (b & s1 & Ec & Hs1). rewrite Ec. cbn [fmap option_fmap option_map mbind option_bind snd]. eexists. split; [done|].
  assert (forall task', own task' new (with_fds (<[new := Some (with_task task e)]> (fds s1)) s1) = if task =? task' then Some (with_task task e) else None) as Ho.
  { intros task'. unfold own, get. rewrite (proj2 (Nat.leb_gt _ _)) by done. cbn [with_fds fds]. rewrite list_lookup_insert_eq by (by rewrite (proj1 (fo_fds _ _ Hs1))). done. }
  rewrite !Ho, Z.eqb_refl. split; [|by rewrite (proj2 (Z.eqb_neq _ _))]. f_equal. by destruct e; cbn in *; subst.
Qed.

(** Pipes are never given back.  A slot of the table of pipes that is in use stays in use through every sequence of calls, also when both ends are
    closed or their tasks exit; once the 64 slots are used no task can make a pipe again. *)
Theorem pipes_never_freed {W} (s s' : FdSys W) : reachable s s' ->
  (forall j, occupied (pipes s) j -> occupied (pipes s') j) /\
  ((forall j, (j < length (pipes s'))%nat -> occupied (pipes s) j) -> forall task, fd_pipe task s' = (None, s')).
Proof.
  intros Hr. assert (forall j, occupied (pipes s) j -> occupied (pipes s') j) as Hocc.
  { intros j Hj. induction Hr as [|s1 c s2 _ IH Hs]; [done|]. by apply (step_pipes c s1). }
  split; [done|]. intros Hall task. unfold fd_pipe. assert (find_index (fun o => match o with None => true | Some _ => false end) (pipes s') = None) as ->; [|done].
  apply find_index_None, Forall_lookup. intros j o Ho. destruct (Hocc j) as [q Hq]; [apply Hall; by eapply lookup_lt_Some|]. rewrite Ho in Hq. by injection Hq as ->.
Qed.

(** Files opened for reading are written without permission.  A descriptor that the read permission of a file allowed to open, on a mount that is not read-only,
    writes the file, although the permissions deny writing to the task. *)
Theorem fd_write_unchecked {W} task cred path (s s1 : FdSys W) node st fd buf k w' : length (fds s) = MAX_FDS ->
  open_in_ns NS_ROOT path (vfs s) = Some (Some node) -> fs_stat (v_fs node) (v_inode node) (files (vfs s)) = Some st ->
  access_check cred st true = false -> v_read_only node = false -> fd_open task cred path s = Some (Some fd, s1) -> (2 < fd)%nat ->
  fs_write (v_fs node) (v_inode node) 0 buf (files (vfs s)) = Some (Some k, w') ->
  exists s2, fd_write task fd buf s1 = Some (Some k, s2) /\ files (vfs s2) = w'.
Proof.
  intros Hl Ho Hst _ Hro Hop Hfd Hw. unfold fd_open in Hop. rewrite Ho in Hop. cbn [mbind option_bind] in Hop. rewrite Hst in Hop. cbn [mbind option_bind] in Hop.
  case_if_in Hop; [done|]. unfold alloc in Hop. destruct (store_entry _ _) as [r t] eqn:Es. injection Hop as -> <-. apply store_made in Es as [-> Hfree].
  pose proof (lookup_lt_Some _ _ _ Hfree) as Hlt. unfold fd_write. rewrite !(proj2 (Nat.eqb_neq _ _)) by lia. cbn [orb]. unfold own, get.
  rewrite (proj2 (Nat.leb_gt _ _)) by lia. cbn [with_fds fds vfs]. rewrite list_lookup_insert_eq by done. cbn [mjoin option_join file_entry fe_task].
  rewrite Z.eqb_refl. cbn [file_entry fe_pipe fe_read_only fe_fs fe_inode fe_offset negb]. rewrite Z.eqb_refl, Hro. cbn [negb]. rewrite Hw. cbn [mbind option_bind fst snd].
  by eexists.
Qed.

(** The first descriptor is the console.  The first file opened after boot has descriptor 0, and reading it
    gives what is typed. *)
Lemma first_file_is_console {W} task cred path (v : VfsSys W) input fd s1 : fd_open task cred path (boot_fds v input) = Some (Some fd, s1) ->
  fd = 0%nat /\ forall n, fd_read task fd n s1 = (fun r => (Some r.1, with_console r.2 [] s1)) <$> read_console n [] input.
Proof.
  unfold fd_open. cbn [boot_fds vfs]. destruct (open_in_ns _ _ _) as [[node|]|]; [..|done]; cbn [mbind option_bind]; [|done].
  destruct (fs_stat _ _ _) as [st|]; [|done]. cbn [mbind option_bind]. case_if; [done|]. cbn. intros [= <- <-]. split; [done|]. intros n. unfold fd_read. cbn.
  by destruct (read_console n [] input).
Qed.

(** A pipe that is refused leaves a descriptor.  When one slot of the table is free, fd_pipe fails and the
    slot is taken by a descriptor on a pipe that does not exist, which the next pipe with this number will be. *)
Lemma refused_pipe_leaves_descriptor {W} task (s : FdSys W) i id : find_index is_free (fds s) = Some i ->
  (forall j, j <> i -> fds s !! j <> Some None) -> find_index (fun o : option PipeBuffer => match o with None => true | Some _ => false end) (pipes s) = Some id ->
  exists s', fd_pipe task s = (None, s') /\ fds s' !! i = Some (Some (pipe_entry task (Z.of_nat id))) /\ pipes s' !! id = Some None.
Proof.
  intros Hi Hall Hid. unfold fd_pipe, alloc_pipe, store_entry. rewrite Hid. cbn [with_pipes fds]. rewrite Hi. pose proof Hi as Hi0. apply find_index_Some in Hi0 as [(o & Ho & _) _].
  assert (find_index is_free (<[i := Some (pipe_entry task (Z.of_nat id))]> (fds s)) = None) as ->.
  { apply find_index_None, Forall_lookup. intros j x Hx. destruct (decide (j = i)) as [->|Hne].
    - rewrite list_lookup_insert_eq in Hx by (by eapply lookup_lt_Some). by injection Hx as <-.
    - rewrite list_lookup_insert_ne in Hx by done. destruct x; [done|]. by destruct (Hall j Hne). }
  eexists. split; [done|]. cbn. apply find_index_Some in Hid as [(x & Hx & _) _]. split; [apply list_lookup_insert_eq; by eapply lookup_lt_Some|].
  rewrite list_insert_insert_eq. apply list_lookup_insert_eq. by eapply lookup_lt_Some.
Qed.

(** *** Witnesses *)

Import VfsTmpfs.VfsMain.

Lemma demo_vfs_ok : vfs_ok tmp_inv demo_vfs.
Proof.
  split; [apply TmpfsProofs.TmpProofs.reached_sim, demo_reached|intros n [= <-]; apply tmp_returns|].
  intros m Hm. assert (m = demo_root \/ m = demo_mounted) as [->| ->] by (cbn in Hm; set_solver); apply tmp_returns.
Qed.

(** One pipe of task 1, and then one of task 2. *)
Definition demo_one : FdSys Tmpfs.Tmp := (fd_pipe 1 (boot_fds demo_vfs [])).2.
Definition demo_two : FdSys Tmpfs.Tmp := (fd_pipe 2 demo_one).2.

Lemma demo_two_ok : fd_ok tmp_inv demo_two.
Proof. apply fd_pipe_ok, fd_pipe_ok, boot_fds_ok, demo_vfs_ok. Qed.

Lemma demo_one_reached : reachable (boot_fds demo_vfs []) demo_one.
Proof. eapply (reach_step _ _ (CPipe 1)); [apply reach_here|reflexivity]. Qed.

Lemma fd_calls_safe_witness : fd_ok tmp_inv demo_one.
Proof. exact (proj1 (fd_calls_safe tmp_inv demo_vfs [] demo_one demo_vfs_ok demo_one_reached)). Defined.

Lemma fd_isolation_witness : fds demo_two !! 0%nat = Some (Some (pipe_entry 1 0)).
Proof. refine (fd_isolation (CPipe 2) demo_one demo_two 0 (pipe_entry 1 0) eq_refl eq_refl _ _); [done|]. intros task old. discriminate. Defined.

Lemma pipe_refines_queue_witness :
  (pipe_run [PWrite [1; 2; 3]; PRead 2; PRead 2; PRead 1] (with_ends true true new_pipe)).1 = [inl (Some 3%nat); inr (Some [1; 2]); inr (Some [3]); inr None].
Proof.
  rewrite (proj1 (pipe_refines_queue [PWrite [1; 2; 3]; PRead 2; PRead 2; PRead 1] (with_ends true true new_pipe) (new_pipe_ok true true) (conj eq_refl eq_refl))).
  vm_compute. reflexivity.
Defined.

Lemma demo_pipe : exists s1, fd_pipe 2 demo_two = (Some (4%nat, 5%nat), s1).
Proof.
  assert ((fd_pipe 2 demo_two).1 = Some (4%nat, 5%nat)) as E by (vm_compute; reflexivity). exists (fd_pipe 2 demo_two).2.
  by rewrite <-E, <-surjective_pairing.
Qed.

Lemma pipe_close_by_parity_witness : exists s1 s2 s3 s4 : FdSys Tmpfs.Tmp,
  fd_pipe 2 demo_two = (Some (4%nat, 5%nat), s1) /\ fd_write 2 5 [7; 8] s1 = Some (Some 2%nat, s2) /\ fd_close 2 5 s2 = Some (true, s3) /\ fd_read 2 4 2 s3 = Some (Some [7; 8], s4).
Proof.
  destruct demo_pipe as [s1 E1]. destruct (pipe_close_by_parity 2 demo_two s1 4 5 [7; 8] 2) as (s2 & s3 & H1 & H2 & _ & s4 & _ & H3 & _);
    [reflexivity|reflexivity|exact E1|lia|lia|lia|split; [cbn; lia|apply Nat.leb_le; vm_compute; reflexivity]|cbn; lia|].
  exists s1, s2, s3, s4. split; [exact E1|]. split; [exact H1|]. split; [exact H2|exact H3].
Defined.

Lemma dup2_takes_descriptor_witness : exists s', fd_dup2 1 0 2 demo_two = Some (Some 2%nat, s') /\ own 2 2 s' = None.
Proof.
  destruct (dup2_takes_descriptor tmp_inv 1 0 2 demo_two (pipe_entry 1 0) (pipe_entry 2 1) demo_two_ok) as (s' & H1 & _ & H2); [reflexivity|reflexivity|done|].
  exists s'. split; [exact H1|exact H2].
Defined.

(** Task 1 makes 64 pipes and exits. *)
Definition demo_full : FdSys Tmpfs.Tmp := Nat.iter 64 (fun s => (fd_pipe 1 s).2) (boot_fds demo_vfs []).

Lemma demo_full_used j : (j < length (pipes demo_full))%nat -> occupied (pipes demo_full) j.
Proof.
  intros Hj. assert (forallb (fun o => match o with Some _ => true | None => false end) (pipes demo_full) = true) as Hall by (vm_compute; reflexivity).
  apply lookup_lt_is_Some_2 in Hj as [o Ho]. rewrite forallb_forall in Hall. specialize (Hall o (proj1 (list_elem_of_In _ _) (list_elem_of_lookup_2 _ _ _ Ho))).
  destruct o as [p|]; [by exists p|done].
Qed.

Lemma pipes_never_freed_witness : fd_pipe 2 (fd_close_all_for_task 1 demo_full) = (None, fd_close_all_for_task 1 demo_full).
Proof.
  refine (proj2 (pipes_never_freed demo_full (fd_close_all_for_task 1 demo_full) _) _ 2).
  - exact (reach_step _ _ (CExit 1) _ (reach_here _) eq_refl).
  - exact demo_full_used.
Defined.

(** A task that is not the owner of [/a/b]. *)
Definition demo_cred : Credentials := new_credentials 1000 1000 1000 1000.
Definition demo_open : FdSys Tmpfs.Tmp := with_vfs (with_files (files demo_created) demo_vfs) demo_two.

Lemma demo_opened : exists s1, fd_open 2 demo_cred (path_of [[97]; [98]]) demo_open = Some (Some 4%nat, s1).
Proof.
  assert ((fst <$> fd_open 2 demo_cred (path_of [[97]; [98]]) demo_open) = Some (Some 4%nat)) as E by (vm_compute; reflexivity).
  destruct (fd_open _ _ _ _) as [[r s1]|]; [|done]. exists s1. by injection E as ->.
Qed.

Lemma demo_node : open_in_ns NS_ROOT (path_of [[97]; [98]]) (vfs demo_open) = Some (Some (node_of demo_root 4)).
Proof.
  assert (descend tmp_fs (files demo_created) 0 [[97]; [98]] = Some 4%nat) as Hd by (vm_compute; reflexivity).
  apply (open_descends NS_ROOT MAX_SYMLINK_DEPTH true [] [[97]; [98]] (vfs demo_open) demo_root 4);
    [apply demo_names; repeat constructor; set_solver|done|unfold MAX_PATH_SEGMENTS; cbn; lia|reflexivity|reflexivity|exact Hd].
Qed.

Lemma demo_written : fs_write tmp_fs 4 0 [1; 2] (files (vfs demo_open)) = Some (Some 2%nat, (Tmpfs.write 4 0 [1; 2] (files demo_created)).2).
Proof.
  assert ((Tmpfs.write 4 0 [1; 2] (files demo_created)).1 = Some 2%nat) as E by (vm_compute; reflexivity).
  cbn [tmp_fs fs_write demo_open with_vfs vfs with_files files]. by rewrite <-E, <-surjective_pairing.
Qed.

Lemma fd_write_unchecked_witness : exists s1 s2 : FdSys Tmpfs.Tmp,
  access_check demo_cred (Tmpfs.stat (files demo_created) 4) true = false /\ fd_write 2 4 [1; 2] s1 = Some (Some 2%nat, s2).
Proof.
  destruct demo_opened as [s1 E1]. exists s1.
  assert (access_check demo_cred (Tmpfs.stat (files demo_created) 4) true = false) as Ha by (vm_compute; reflexivity).
  destruct (fd_write_unchecked 2 demo_cred (path_of [[97]; [98]]) demo_open s1 (node_of demo_root 4) (Tmpfs.stat (files demo_created) 4) 4 [1; 2] 2
    (Tmpfs.write 4 0 [1; 2] (files demo_created)).2) as (s2 & H & _); [reflexivity|exact demo_node|reflexivity|exact Ha|reflexivity|exact E1|lia|exact demo_written|].
  exists s2. split; [exact Ha|exact H].
Defined.

End FdMain.
