(* ===== verification/Task.v ===== *)
(** Tasks: [crates/zenus-sched/src/task.rs], [caps.rs], and the pure part of [signal.rs].

    The fields of the struct [Task] are grouped by what changes them: [Run] is what a switch saves and restores, [Stack] is fixed at
    creation, and so on. *)

From S2P Require Import Prelude Bytes Vma.

(** ** Capabilities *)

Module Caps.

Definition CAP_COUNT : Z := 17.
Definition CAP_KILL : Z := 5.
Definition CAP_SETGID : Z := 6.
Definition CAP_SETUID : Z := 7.
Definition CAP_SYS_ADMIN : Z := 13.

(** [CapSet] is a number of 64 bits. *)
Definition CapSet : Type := Z.

Definition all : CapSet := Z.shiftl 1 CAP_COUNT - 1.
Definition none : CapSet := 0.
Definition from_bits (bits : Z) : CapSet := Z.land bits (Z.shiftl 1 CAP_COUNT - 1).
Definition has (s : CapSet) (cap : Z) : bool := (cap <? CAP_COUNT) && (Z.land (Z.shiftr s cap) 1 =? 1).
Definition without (s : CapSet) (cap : Z) : CapSet := if cap <? CAP_COUNT then Z.land s (u64_not (Z.shiftl 1 cap)) else s.

Definition may_set_uid (euid : Z) (caps : CapSet) (new_uid : Z) : bool := (new_uid =? euid) || has caps CAP_SETUID.
Definition may_set_gid (egid : Z) (caps : CapSet) (new_gid : Z) : bool := (new_gid =? egid) || has caps CAP_SETGID.
Definition may_kill (uid : Z) (caps : CapSet) (target_uid : Z) : bool := (target_uid =? uid) || has caps CAP_KILL.

End Caps.

(** ** The struct *)

Inductive TaskState := Ready | Running | Waiting | Sleeping | Terminated | Stopped.
#[export] Instance TaskState_eq_dec : EqDecision TaskState.
Proof. solve_decision. Defined.

Definition SIG_MAX : nat := 64.
Definition MAX_TASKS : nat := 128.

Record SignalAction := { handler_fn : Z; sa_flags : Z; restorer : Z; sa_mask : list Z }.
Definition new_action : SignalAction := {| handler_fn := 0; sa_flags := 0; restorer := 0; sa_mask := [0; 0] |}.

Record SavedUserContext := {
  c_rax : Z; c_rbx : Z; c_rcx : Z; c_rdx : Z; c_rsi : Z; c_rdi : Z; c_rbp : Z; c_rsp : Z;
  c_r8 : Z; c_r9 : Z; c_r10 : Z; c_r11 : Z; c_r12 : Z; c_r13 : Z; c_r14 : Z; c_r15 : Z;
  c_rflags : Z; c_rip : Z; c_valid : bool;
}.
Definition new_context : SavedUserContext :=
  {| c_rax := 0; c_rbx := 0; c_rcx := 0; c_rdx := 0; c_rsi := 0; c_rdi := 0; c_rbp := 0; c_rsp := 0;
     c_r8 := 0; c_r9 := 0; c_r10 := 0; c_r11 := 0; c_r12 := 0; c_r13 := 0; c_r14 := 0; c_r15 := 0;
     c_rflags := 0; c_rip := 0; c_valid := false |}.

(** What a switch saves and restores. *)
Record Run := { state : TaskState; rsp : Z; ticks_left : Z; user_rsp : Z; cpu : nat; cr3 : Z; user_cr3 : Z }.
Record Stack := { stack_alloc : Z; stack_size : Z; kernel_rsp_top : Z }.
Record HeapArea := { heap_brk : Z; heap_floor : Z }.
Record Cred := {
  uid : Z; gid : Z; euid : Z; egid : Z; no_new_privs : bool; seccomp_mode : Z; seccomp_allowed : list Z; caps : Caps.CapSet;
}.
Record NsIds := { uts_ns : Z; pid_ns : Z; mnt_ns : Z; net_ns : Z; user_ns : Z; ipc_ns : Z }.
Record Signals := { pending_signals : Z; signal_mask : Z; signal_actions : list SignalAction; saved_context : SavedUserContext }.

Record Task := {
  t_id : Z; priority : Z; parent_pid : Z; exit_code : Z; cgroup : Z;
  run : Run; stack : Stack; heap : HeapArea; cred : Cred; ns : NsIds; sig : Signals;
  name : bytes; vma : VmaTable; cwd : bytes;
}.

(** A string cut to the [max] bytes that fit a zeroed buffer of [n]. *)
Definition name_buf (n max : nat) (b : bytes) : bytes := splice 0 (take (Nat.min (length b) max) b) (replicate n 0).

(** [Task::new] *)
Definition new_task (tid sp : Z) (nm : bytes) : Task :=
  {| t_id := tid; priority := 128; parent_pid := 0; exit_code := 0; cgroup := 0;
     run := {| state := Ready; rsp := sp; ticks_left := 50; user_rsp := 0; cpu := 0; cr3 := 0; user_cr3 := 0 |};
     stack := {| stack_alloc := 0; stack_size := 0; kernel_rsp_top := 0 |};
     heap := {| heap_brk := 0; heap_floor := 0 |};
     cred := {| uid := 0; gid := 0; euid := 0; egid := 0; no_new_privs := false; seccomp_mode := 0; seccomp_allowed := [0; 0; 0; 0]; caps := Caps.all |};
     ns := {| uts_ns := 0; pid_ns := 0; mnt_ns := 0; net_ns := 0; user_ns := 0; ipc_ns := 0 |};
     sig := {| pending_signals := 0; signal_mask := 0; signal_actions := replicate SIG_MAX new_action; saved_context := new_context |};
     name := name_buf 32 31 nm; vma := VmaTable.new; cwd := splice 0 [47] (replicate 256 0) |}.

(** *** Assignments to fields *)

Definition with_run (r : Run) (t : Task) : Task :=
  {| t_id := t_id t; priority := priority t; parent_pid := parent_pid t; exit_code := exit_code t; cgroup := cgroup t; run := r; stack := stack t;
     heap := heap t; cred := cred t; ns := ns t; sig := sig t; name := name t; vma := vma t; cwd := cwd t |}.
Definition with_exit_code (c : Z) (t : Task) : Task :=
  {| t_id := t_id t; priority := priority t; parent_pid := parent_pid t; exit_code := c; cgroup := cgroup t; run := run t; stack := stack t;
     heap := heap t; cred := cred t; ns := ns t; sig := sig t; name := name t; vma := vma t; cwd := cwd t |}.
Definition with_heap (h : HeapArea) (t : Task) : Task :=
  {| t_id := t_id t; priority := priority t; parent_pid := parent_pid t; exit_code := exit_code t; cgroup := cgroup t; run := run t; stack := stack t;
     heap := h; cred := cred t; ns := ns t; sig := sig t; name := name t; vma := vma t; cwd := cwd t |}.
Definition with_cred (c : Cred) (t : Task) : Task :=
  {| t_id := t_id t; priority := priority t; parent_pid := parent_pid t; exit_code := exit_code t; cgroup := cgroup t; run := run t; stack := stack t;
     heap := heap t; cred := c; ns := ns t; sig := sig t; name := name t; vma := vma t; cwd := cwd t |}.
Definition with_sig (g : Signals) (t : Task) : Task :=
  {| t_id := t_id t; priority := priority t; parent_pid := parent_pid t; exit_code := exit_code t; cgroup := cgroup t; run := run t; stack := stack t;
     heap := heap t; cred := cred t; ns := ns t; sig := g; name := name t; vma := vma t; cwd := cwd t |}.
Definition with_name (n : bytes) (t : Task) : Task :=
  {| t_id := t_id t; priority := priority t; parent_pid := parent_pid t; exit_code := exit_code t; cgroup := cgroup t; run := run t; stack := stack t;
     heap := heap t; cred := cred t; ns := ns t; sig := sig t; name := n; vma := vma t; cwd := cwd t |}.
Definition with_vma_table (v : VmaTable) (t : Task) : Task :=
  {| t_id := t_id t; priority := priority t; parent_pid := parent_pid t; exit_code := exit_code t; cgroup := cgroup t; run := run t; stack := stack t;
     heap := heap t; cred := cred t; ns := ns t; sig := sig t; name := name t; vma := v; cwd := cwd t |}.
Definition with_cwd (c : bytes) (t : Task) : Task :=
  {| t_id := t_id t; priority := priority t; parent_pid := parent_pid t; exit_code := exit_code t; cgroup := cgroup t; run := run t; stack := stack t;
     heap := heap t; cred := cred t; ns := ns t; sig := sig t; name := name t; vma := vma t; cwd := c |}.

Definition with_state (st : TaskState) (t : Task) : Task :=
  let r := run t in
  with_run {| state := st; rsp := rsp r; ticks_left := ticks_left r; user_rsp := user_rsp r; cpu := cpu r; cr3 := cr3 r; user_cr3 := user_cr3 r |} t.
Definition with_cpu (c : nat) (t : Task) : Task :=
  let r := run t in
  with_run {| state := state r; rsp := rsp r; ticks_left := ticks_left r; user_rsp := user_rsp r; cpu := c; cr3 := cr3 r; user_cr3 := user_cr3 r |} t.
Definition with_rsp (v : Z) (t : Task) : Task :=
  let r := run t in
  with_run {| state := state r; rsp := v; ticks_left := ticks_left r; user_rsp := user_rsp r; cpu := cpu r; cr3 := cr3 r; user_cr3 := user_cr3 r |} t.
Definition with_user_rsp (v : Z) (t : Task) : Task :=
  let r := run t in
  with_run {| state := state r; rsp := rsp r; ticks_left := ticks_left r; user_rsp := v; cpu := cpu r; cr3 := cr3 r; user_cr3 := user_cr3 r |} t.
Definition with_ticks (v : Z) (t : Task) : Task :=
  let r := run t in
  with_run {| state := state r; rsp := rsp r; ticks_left := v; user_rsp := user_rsp r; cpu := cpu r; cr3 := cr3 r; user_cr3 := user_cr3 r |} t.
Definition with_cr3 (v : Z) (t : Task) : Task :=
  let r := run t in
  with_run {| state := state r; rsp := rsp r; ticks_left := ticks_left r; user_rsp := user_rsp r; cpu := cpu r; cr3 := v; user_cr3 := user_cr3 r |} t.
Definition with_user_cr3 (v : Z) (t : Task) : Task :=
  let r := run t in
  with_run {| state := state r; rsp := rsp r; ticks_left := ticks_left r; user_rsp := user_rsp r; cpu := cpu r; cr3 := cr3 r; user_cr3 := v |} t.

(** *** Methods *)

Definition is_active (t : Task) : bool := match state (run t) with Ready | Running => true | _ => false end.

(** [u64::trailing_zeros] *)
Definition trailing_zeros (x : Z) : nat := default 64%nat (find_index (fun i => Z.testbit x (Z.of_nat i)) (seq 0 64)).

Definition unmasked (t : Task) : Z := Z.land (pending_signals (sig t)) (u64_not (signal_mask (sig t))).
Definition has_pending_signal (t : Task) : bool := negb (unmasked t =? 0).
Definition next_signal (t : Task) : option nat := if unmasked t =? 0 then None else Some (trailing_zeros (unmasked t)).

(** [1u64 << sig]; a release build takes the shift modulo 64. *)
Definition sig_bit (s : nat) : Z := Z.shiftl 1 (Z.of_nat (s mod 64)).
Definition with_pending (p : Z) (t : Task) : Task :=
  with_sig {| pending_signals := p; signal_mask := signal_mask (sig t); signal_actions := signal_actions (sig t); saved_context := saved_context (sig t) |} t.
Definition deliver_signal (s : nat) (t : Task) : Task := with_pending (Z.lor (pending_signals (sig t)) (sig_bit s)) t.
Definition clear_signal (s : nat) (t : Task) : Task := with_pending (Z.land (pending_signals (sig t)) (u64_not (sig_bit s))) t.

(** ** Dispositions of signals *)

Inductive SignalDisposition := Terminate | Core | Stop | Continue | Ignore | Handler.

Definition SIGKILL : nat := 9.
Definition SIGSEGV : nat := 11.
Definition SIGCHLD : nat := 17.
Definition SIGCONT : nat := 18.
Definition SIGSTOP : nat := 19.

Definition default_action (s : nat) : SignalDisposition :=
  if bool_decide (s ∈ [1; 2; 9; 13; 14; 15]%nat) then Terminate
  else if bool_decide (s ∈ [3; 4; 5; 6; 7; 8; 11]%nat) then Core
  else if bool_decide (s ∈ [19; 20; 21; 22]%nat) then Stop
  else if bool_decide (s = SIGCONT) then Continue
  else Ignore.

Definition check_pending (t : Task) : option (nat * SignalDisposition) :=
  if unmasked t =? 0 then None
  else
    let s := trailing_zeros (unmasked t) in
    if (SIG_MAX <=? s)%nat then None
    else
      a ← signal_actions (sig t) !! s;
      Some (s, if negb (handler_fn a =? 0) then Handler else default_action s).
