(* ===== verification/Sched.v ===== *)
(** The scheduler: [crates/zenus-sched/src/scheduler.rs].

    [Sched] has the statics of the file: the array of tasks, the list of zombies, the counters, and for each CPU its current task
    with the registers the scheduler sets.  Kernel stacks are the words of a memory ([words]); a saved context is a frame of 20 words.
    What the scheduler calls in other crates, apart from the namespaces of Ns.v, is the class [SchedEnv]: the stacks of the
    heap, address spaces, control groups and mount namespaces.

    Outputs to the log and the console are left out, and so are the end-of-interrupt writes and the tick counters of other
    crates. *)

From S2P Require Import Vma Ns Prelude Bytes Text Task.

Definition MAX_ZOMBIES : nat := 64.
Definition TIME_SLICE : Z := 5.
Definition MAX_CPUS : nat := 8.
Definition BSP_CPU_ID : nat := 0.
Definition STACK_GUARD : Z := 32 * 1024.
Definition MIN_TASK_STACK : Z := STACK_GUARD + 4 * 1024.
Definition FRAME_BYTES : Z := 160.
Definition ISR_DESCENT : Z := 40 + 15 * 8.
Definition DEFAULT_HEAP_BRK : Z := 0x600000000000.

Definition stack_size_is_valid (size : Z) : bool :=
  (MIN_TASK_STACK <=? size) && (size <=? 2 ^ 63 - 1) && (FRAME_BYTES <=? size - STACK_GUARD).
Definition frame_base (stack_top : Z) : Z := u64_sub stack_top STACK_GUARD.

(** ** Zombies *)

Record ZombieRecord := { child_pid : Z; z_parent : Z; z_code : Z }.
Record ZombieList := { records : list (option ZombieRecord); z_count : nat }.

Definition new_zombies : ZombieList := {| records := replicate MAX_ZOMBIES None; z_count := 0 |}.

Definition push_zombie (r : ZombieRecord) (z : ZombieList) : bool * ZombieList :=
  if (MAX_ZOMBIES <=? z_count z)%nat then (false, z)
  else (true, {| records := <[z_count z := Some r]> (records z); z_count := z_count z + 1 |}).

(** [records[i] = None; count -= 1; if i < count { records.swap(i, count) }] *)
Definition swap {A} (i j : nat) (l : list A) : list A :=
  match l !! i, l !! j with Some x, Some y => <[j := x]> (<[i := y]> l) | _, _ => l end.
Definition take_zombie (i : nat) (z : ZombieList) : ZombieList :=
  let c := (z_count z - 1)%nat in
  let l := <[i := None]> (records z) in
  {| records := if (i <? c)%nat then swap i c l else l; z_count := c |}.

Definition zombie_with (p : ZombieRecord -> bool) (o : option ZombieRecord) : bool := match o with Some r => p r | None => false end.
Definition find_zombie (p : ZombieRecord -> bool) (z : ZombieList) : option ZombieRecord * ZombieList :=
  match find_index (zombie_with p) (take (z_count z) (records z)) with
  | Some i => (mjoin (records z !! i), take_zombie i z)
  | None => (None, z)
  end.

Definition find_by_child (pid : Z) : ZombieList -> option ZombieRecord * ZombieList := find_zombie (fun r => child_pid r =? pid).
Definition find_any_child (parent : Z) : ZombieList -> option ZombieRecord * ZombieList := find_zombie (fun r => z_parent r =? parent).

(** Each turn moves past a record or drops one. *)
Fixpoint reap_loop (fuel : nat) (parent : Z) (i : nat) (z : ZombieList) : ZombieList :=
  match fuel with
  | O => z
  | S n =>
      if (z_count z <=? i)%nat then z
      else if zombie_with (fun r => z_parent r =? parent) (mjoin (records z !! i)) then reap_loop n parent i (take_zombie i z)
      else reap_loop n parent (S i) z
  end.
Definition reap_all_for_parent (parent : Z) (z : ZombieList) : ZombieList := reap_loop (z_count z) parent 0 z.

(** ** The array of tasks *)

Record TaskArray := { tasks : list (option Task); next_free : nat }.

Definition new_array : TaskArray := {| tasks := replicate MAX_TASKS None; next_free := 0 |}.

Definition is_free (o : option Task) : bool := match o with None => true | Some _ => false end.

Definition find_free (a : TaskArray) : option (nat * TaskArray) :=
  match find_index is_free (drop (next_free a) (tasks a)) with
  | Some k => let i := (next_free a + k)%nat in Some (i, {| tasks := tasks a; next_free := i + 1 |})
  | None =>
      match find_index is_free (take (next_free a) (tasks a)) with
      | Some i => Some (i, {| tasks := tasks a; next_free := i + 1 |})
      | None => None
      end
  end.

Definition mark_freed (i : nat) (a : TaskArray) : TaskArray :=
  if (i <? next_free a)%nat then {| tasks := tasks a; next_free := i |} else a.

Definition set_slot (i : nat) (o : option Task) (a : TaskArray) : TaskArray := {| tasks := <[i := o]> (tasks a); next_free := next_free a |}.
Definition slot (i : nat) (a : TaskArray) : option Task := mjoin (tasks a !! i).
(** [if let Some(t) = tasks[i].as_mut() { ... }] *)
Definition change_slot (i : nat) (f : Task -> Task) (a : TaskArray) : TaskArray :=
  match slot i a with Some t => set_slot i (Some (f t)) a | None => a end.

(** The first task with an id, which the code looks up in a loop over the slots. *)
Definition has_tid (tid : Z) (o : option Task) : bool := match o with Some t => t_id t =? tid | None => false end.
Definition find_slot (tid : Z) (a : TaskArray) : option nat := find_index (has_tid tid) (tasks a).
Definition find_task (tid : Z) (a : TaskArray) : option Task := find_slot tid a ≫= fun i => slot i a.
Definition change_task (tid : Z) (f : Task -> Task) (a : TaskArray) : TaskArray :=
  match find_slot tid a with Some i => change_slot i f a | None => a end.

(** *** Choosing the next task *)

Definition runs_on (c : nat) (o : option Task) : bool := match o with Some t => is_active t && (cpu (run t) =? c)%nat | None => false end.
Definition runs (o : option Task) : bool := match o with Some t => is_active t | None => false end.
(** [for idx in from..to] with a test of the slot *)
Definition scan (p : option Task -> bool) (from to : nat) (a : TaskArray) : option nat :=
  List.find (fun i => p (slot i a)) (seq from (to - from)).

Definition find_next_ready (a : TaskArray) (current c : nat) : nat :=
  match scan (runs_on c) (current + 1) MAX_TASKS a with
  | Some i => i
  | None =>
      match (if (1 <? current)%nat then scan (runs_on c) 1 current a else None) with
      | Some i => i
      | None =>
          match List.find (fun i => negb (i =? current)%nat && runs (slot i a)) (seq 1 (MAX_TASKS - 1)) with
          | Some i => i
          | None => if runs_on c (slot 0 a) then 0%nat else current
          end
      end
  end.

Definition migrate_task_to_cpu (i c : nat) : TaskArray -> TaskArray := change_slot i (with_cpu c).

(** ** Memory of kernel stacks *)

Definition words : Type := gmap Z Z.

(** 64-bit stores at [addr], [addr + 8], ... *)
Fixpoint store_words (addr : Z) (ws : list Z) (m : words) : words :=
  match ws with [] => m | w :: ws => store_words (addr + 8) ws (<[addr := w]> m) end.
Definition load_word (m : words) (addr : Z) : Z := default 0 (m !! addr).
Definition load_words (m : words) (addr : Z) (n : nat) : list Z := map (fun i => load_word m (addr + 8 * Z.of_nat i)) (seq 0 n).

(** A saved context: 15 registers, then RIP, CS, RFLAGS, RSP, SS. *)
Definition kernel_frame (entry base : Z) : list Z := replicate 15 0 ++ [entry; 0x08; 0x202; base; 0x10].
Definition user_frame (entry ursp : Z) : list Z := replicate 15 0 ++ [entry; 0x23; 0x202; ursp; 0x1b].

(** Zero the words from [addr] on as long as their address is below [limit]. *)
Definition clear_words (addr limit : Z) : words -> words := store_words addr (replicate (Z.to_nat ((limit - addr + 7) / 8)) 0).

(** The restore code resumes ring 0 or ring 3, by the code selector of a frame, and parks the CPU on any other. *)
Definition frame_cs (m : words) (sp : Z) : Z := load_word m (sp + 128).
Definition resumable (m : words) (sp : Z) : bool := (frame_cs m sp =? 0x08) || (frame_cs m sp =? 0x23).

(** ** The state *)

Record PerCpu := {
  current : nat;  (* CURRENT_TASK *)
  cpu_tasks : Z;  (* CPU_TASK_COUNT *)
  pc_user_rsp : Z;
  pc_kernel_rsp : Z;
  pc_tss : Z;
  pc_cr3 : Z;
}.

Record Counters := { task_count : Z; next_task_id : Z; sys_ticks : Z; child_exit_notify : Z; prng_state : Z }.

(** What the scheduler uses of other crates. *)
Class SchedEnv (W : Type) := {
  (** The heap's [alloc] of a stack, 0 when there is no room, and [dealloc]. *)
  heap_alloc : Z -> W -> Z * W;
  heap_dealloc : Z -> Z -> W -> W;
  (** The page tables of user mode, from the kernel's view of an address space. *)
  build_user_view : Z -> W -> option Z * W;
  destroy_user_view : Z -> W -> W;
  (** Given the CR3 in use, the next one. *)
  destroy_address_space : Z -> Z -> W -> Z * W;
  create_mnt_ns : Z -> W -> bool * W;
  attach_task : Z -> Z -> W -> bool * W;
  detach_task : Z -> W -> W;
}.

Record Sched (W : Type) := {
  arr : TaskArray;
  zombies : ZombieList;
  cpus : list PerCpu;
  ctr : Counters;
  cr3_slots : Z * Z;  (* kernel view, user view *)
  mem : words;
  nss : NsSys;
  world : W;
}.
#[global] Arguments arr {W}.
#[global] Arguments zombies {W}.
#[global] Arguments cpus {W}.
#[global] Arguments ctr {W}.
#[global] Arguments cr3_slots {W}.
#[global] Arguments mem {W}.
#[global] Arguments nss {W}.
#[global] Arguments world {W}.
#[global] Arguments Build_Sched {W}.

(** How a call of [yield_now] or a tick goes on: it returns, it waits for an interrupt and returns, or the CPU goes on with a frame. *)
Inductive Outcome := Returns | Waits | Resumes (sp : Z).

(** *** The random numbers of [zenus-arch/src/random.rs] *)

Definition prng_next (st : Z) : Z * Z :=
  let nxt := ((st * 6364136223846793005) mod U64 + 1442695040888963407) mod U64 in ((nxt * 2685821657736338717) mod U64, nxt).
Definition get_random_range (lo hi st : Z) : Z * Z :=
  if hi <=? lo then (lo, st) else let '(v, st) := prng_next st in (lo + v mod (hi - lo), st).
Definition get_random_page_aligned (lo hi st : Z) : Z * Z := let '(v, st) := get_random_range lo hi st in (Z.land v (u64_not 0xFFF), st).

Section sched.
Context {W : Type} `{!SchedEnv W}.
Implicit Types s : Sched W.

(** *** Assignments *)

Definition with_arr (a : TaskArray) s : Sched W :=
  {| arr := a; zombies := zombies s; cpus := cpus s; ctr := ctr s; cr3_slots := cr3_slots s; mem := mem s; nss := nss s; world := world s |}.
Definition with_zombies (z : ZombieList) s : Sched W :=
  {| arr := arr s; zombies := z; cpus := cpus s; ctr := ctr s; cr3_slots := cr3_slots s; mem := mem s; nss := nss s; world := world s |}.
Definition with_cpus (c : list PerCpu) s : Sched W :=
  {| arr := arr s; zombies := zombies s; cpus := c; ctr := ctr s; cr3_slots := cr3_slots s; mem := mem s; nss := nss s; world := world s |}.
Definition with_ctr (c : Counters) s : Sched W :=
  {| arr := arr s; zombies := zombies s; cpus := cpus s; ctr := c; cr3_slots := cr3_slots s; mem := mem s; nss := nss s; world := world s |}.
Definition with_slots (p : Z * Z) s : Sched W :=
  {| arr := arr s; zombies := zombies s; cpus := cpus s; ctr := ctr s; cr3_slots := p; mem := mem s; nss := nss s; world := world s |}.
Definition with_mem (m : words) s : Sched W :=
  {| arr := arr s; zombies := zombies s; cpus := cpus s; ctr := ctr s; cr3_slots := cr3_slots s; mem := m; nss := nss s; world := world s |}.
Definition with_nss (n : NsSys) s : Sched W :=
  {| arr := arr s; zombies := zombies s; cpus := cpus s; ctr := ctr s; cr3_slots := cr3_slots s; mem := mem s; nss := n; world := world s |}.
Definition with_world (w : W) s : Sched W :=
  {| arr := arr s; zombies := zombies s; cpus := cpus s; ctr := ctr s; cr3_slots := cr3_slots s; mem := mem s; nss := nss s; world := w |}.

Definition with_task_count (n : Z) s : Sched W :=
  with_ctr {| task_count := n; next_task_id := next_task_id (ctr s); sys_ticks := sys_ticks (ctr s); child_exit_notify := child_exit_notify (ctr s); prng_state := prng_state (ctr s) |} s.
Definition with_next_id (n : Z) s : Sched W :=
  with_ctr {| task_count := task_count (ctr s); next_task_id := n; sys_ticks := sys_ticks (ctr s); child_exit_notify := child_exit_notify (ctr s); prng_state := prng_state (ctr s) |} s.
Definition with_ticks_count (n : Z) s : Sched W :=
  with_ctr {| task_count := task_count (ctr s); next_task_id := next_task_id (ctr s); sys_ticks := n; child_exit_notify := child_exit_notify (ctr s); prng_state := prng_state (ctr s) |} s.
Definition with_notify (n : Z) s : Sched W :=
  with_ctr {| task_count := task_count (ctr s); next_task_id := next_task_id (ctr s); sys_ticks := sys_ticks (ctr s); child_exit_notify := n; prng_state := prng_state (ctr s) |} s.
Definition with_prng (n : Z) s : Sched W :=
  with_ctr {| task_count := task_count (ctr s); next_task_id := next_task_id (ctr s); sys_ticks := sys_ticks (ctr s); child_exit_notify := child_exit_notify (ctr s); prng_state := n |} s.

(** *** The running task *)

Definition U32 : Z := 2 ^ 32.

Definition change_cpu (c : nat) (f : PerCpu -> PerCpu) s : Sched W := with_cpus (alter f c (cpus s)) s.
Definition add_cpu_tasks (d : Z) (p : PerCpu) : PerCpu :=
  {| current := current p; cpu_tasks := (cpu_tasks p + d) mod U32; pc_user_rsp := pc_user_rsp p; pc_kernel_rsp := pc_kernel_rsp p; pc_tss := pc_tss p; pc_cr3 := pc_cr3 p |}.
Definition add_task_count (d : Z) s : Sched W := with_task_count ((task_count (ctr s) + d) mod U32) s.

Definition current_of (c : nat) s : nat := from_option current 0%nat (cpus s !! c).
Definition current_task (c : nat) s : option Task := slot (current_of c s) (arr s).
(** [get_level4_addr] *)
Definition cr3_of (c : nat) s : Z := page_down (from_option pc_cr3 0 (cpus s !! c)).
Definition user_rsp_of (c : nat) s : Z := from_option pc_user_rsp 0 (cpus s !! c).

Definition current_task_index (c : nat) s : nat := if (MAX_CPUS <=? c)%nat then 0 else current_of c s.
Definition current_task_id (c : nat) s : Z := from_option t_id 0 (current_task c s).
Definition current_cgroup (c : nat) s : Z := if (MAX_CPUS <=? c)%nat then 0 else from_option cgroup 0 (current_task c s).
Definition current_ns (f : NsIds -> Z) (c : nat) s : Z := from_option (fun t => f (ns t)) 0 (current_task c s).
Definition current_cred (f : Cred -> Z) (c : nat) s : Z := from_option (fun t => f (cred t)) 0 (current_task c s).
Definition current_local_pid (c : nat) s : Z :=
  match current_task c s with
  | None => 0
  | Some t => if pid_ns (ns t) =? NS_ROOT then t_id t else default (t_id t) (local_pid (pid_ns (ns t)) (t_id t) (pid_table (nss s)))
  end.

(** *** Fields of tasks *)

Definition on_task (tid : Z) (f : Task -> Task) s : Sched W := with_arr (change_task tid f (arr s)) s.
Definition get_task (tid : Z) s : option Task := find_task tid (arr s).

Definition set_no_new_privs (tid : Z) (v : bool) : Sched W -> Sched W := on_task tid (fun t =>
  let c := cred t in with_cred {| uid := uid c; gid := gid c; euid := euid c; egid := egid c; no_new_privs := v; seccomp_mode := seccomp_mode c; seccomp_allowed := seccomp_allowed c; caps := caps c |} t).
Definition get_no_new_privs (tid : Z) s : bool := from_option (fun t => no_new_privs (cred t)) false (get_task tid s).
Definition get_task_uid (tid : Z) s : option Z := (fun t => uid (cred t)) <$> get_task tid s.
Definition get_caps (tid : Z) s : option Caps.CapSet := (fun t => caps (cred t)) <$> get_task tid s.
Definition current_caps (c : nat) s : Caps.CapSet := default Caps.none (get_caps (current_task_id c s) s).
Definition set_caps (tid : Z) (v : Caps.CapSet) : Sched W -> Sched W := on_task tid (fun t =>
  let c := cred t in with_cred {| uid := uid c; gid := gid c; euid := euid c; egid := egid c; no_new_privs := no_new_privs c; seccomp_mode := seccomp_mode c; seccomp_allowed := seccomp_allowed c; caps := v |} t).
Definition set_seccomp (tid mode : Z) (allowed : list Z) : Sched W -> Sched W := on_task tid (fun t =>
  let c := cred t in with_cred {| uid := uid c; gid := gid c; euid := euid c; egid := egid c; no_new_privs := no_new_privs c; seccomp_mode := mode; seccomp_allowed := allowed; caps := caps c |} t).

Definition set_current_uid (c : nat) (v : Z) s : bool * Sched W :=
  match current_task c s with
  | Some t =>
      let k := cred t in
      if Caps.may_set_uid (euid k) (caps k) v then
        (true, with_arr (set_slot (current_of c s) (Some (with_cred {| uid := v; gid := gid k; euid := v; egid := egid k; no_new_privs := no_new_privs k; seccomp_mode := seccomp_mode k; seccomp_allowed := seccomp_allowed k; caps := caps k |} t)) (arr s)) s)
      else (false, s)
  | None => (false, s)
  end.
Definition set_current_gid (c : nat) (v : Z) s : bool * Sched W :=
  match current_task c s with
  | Some t =>
      let k := cred t in
      if Caps.may_set_gid (egid k) (caps k) v then
        (true, with_arr (set_slot (current_of c s) (Some (with_cred {| uid := uid k; gid := v; euid := euid k; egid := v; no_new_privs := no_new_privs k; seccomp_mode := seccomp_mode k; seccomp_allowed := seccomp_allowed k; caps := caps k |} t)) (arr s)) s)
      else (false, s)
  | None => (false, s)
  end.

Definition unless_zero (v : Z) : Z := if v =? 0 then DEFAULT_HEAP_BRK else v.
Definition get_task_heap_brk (tid : Z) s : Z := from_option (fun t => unless_zero (heap_brk (heap t))) DEFAULT_HEAP_BRK (get_task tid s).
Definition get_task_heap_floor (tid : Z) s : Z := from_option (fun t => unless_zero (heap_floor (heap t))) DEFAULT_HEAP_BRK (get_task tid s).
Definition reset_task_heap_floor (tid v : Z) : Sched W -> Sched W := on_task tid (fun t => with_heap {| heap_brk := heap_brk (heap t); heap_floor := v |} t).
Definition set_task_heap_brk (tid v : Z) : Sched W -> Sched W := on_task tid (fun t => with_heap {| heap_brk := v; heap_floor := heap_floor (heap t) |} t).
Definition set_task_name (tid : Z) (n : bytes) : Sched W -> Sched W := on_task tid (with_name (name_buf 32 31 n)).
Definition get_task_cwd (tid : Z) s : option bytes := cwd <$> get_task tid s.
Definition set_task_cwd (tid : Z) (p : bytes) : Sched W -> Sched W := on_task tid (with_cwd (name_buf 256 255 p)).
Definition get_task_cr3 (tid : Z) s : option Z := (fun t => cr3 (run t)) <$> get_task tid s.
Definition with_vma {B} (tid : Z) (f : VmaTable -> B) s : option B := (fun t => f (vma t)) <$> get_task tid s.
Definition with_vma_mut {B} (tid : Z) (f : VmaTable -> B * VmaTable) s : option B * Sched W :=
  match get_task tid s with
  | Some t => (Some (f (vma t)).1, on_task tid (with_vma_table (f (vma t)).2) s)
  | None => (None, s)
  end.

(** The view is built while the array is locked; an old one is freed before. *)
Definition set_view (tid v : Z) s : Sched W :=
  match get_task tid s with
  | None => s
  | Some _ =>
      let '(view, w) := build_user_view v (world s) in
      on_task tid (fun t => with_user_cr3 (default v view) (with_cr3 v t)) (with_world w s)
  end.
Definition set_task_cr3 (tid v : Z) s : Sched W :=
  match get_task tid s with
  | None => s
  | Some t =>
      let old := user_cr3 (run t) in
      if negb (old =? 0) && negb (old =? cr3 (run t)) then set_view tid v (with_world (destroy_user_view old (world s)) s) else set_view tid v s
  end.

(** *** Signals *)

Definition wake (t : Task) : Task := match state (run t) with Sleeping | Waiting => with_state Ready t | _ => t end.
Definition signal_deliver (tid : Z) (n : nat) : Sched W -> Sched W := on_task tid (fun t => wake (deliver_signal n t)).
Definition signal_force_kill (tid : Z) : Sched W -> Sched W := on_task tid (fun t => with_exit_code (9 * 256) (with_state Terminated t)).
Definition signal_clear (tid : Z) (n : nat) : Sched W -> Sched W := on_task tid (clear_signal n).
Definition task_set_state (tid : Z) (st : TaskState) : Sched W -> Sched W := on_task tid (with_state st).
Definition get_task_id_by_pid (pid : Z) s : option Z := t_id <$> get_task pid s.

(** An index past the array of actions panics: [None]. *)
Definition get_signal_action (tid : Z) (n : nat) s : option SignalAction :=
  match get_task tid s with Some t => signal_actions (sig t) !! n | None => Some new_action end.
Definition set_signal_action (tid : Z) (n : nat) (a : SignalAction) s : option (Sched W) :=
  match get_task tid s with
  | None => Some s
  | Some t =>
      if (n <? length (signal_actions (sig t)))%nat then
        Some (on_task tid (fun t => with_sig {| pending_signals := pending_signals (sig t); signal_mask := signal_mask (sig t); signal_actions := <[n := a]> (signal_actions (sig t)); saved_context := saved_context (sig t) |} t) s)
      else None
  end.
Definition get_signal_mask (tid : Z) s : Z := from_option (fun t => signal_mask (sig t)) 0 (get_task tid s).
Definition set_signal_mask (tid v : Z) : Sched W -> Sched W := on_task tid (fun t =>
  with_sig {| pending_signals := pending_signals (sig t); signal_mask := v; signal_actions := signal_actions (sig t); saved_context := saved_context (sig t) |} t).

(** *** Switching *)

(** A saved stack pointer outside the task's stack, or within 256 bytes of its end. *)
Definition bad_stack (t : Task) : bool :=
  let bottom := stack_alloc (stack t) in
  negb (bottom =? 0) && (0 <? stack_size (stack t)) &&
  ((rsp (run t) <? u64_add bottom 256) || (u64_add bottom (stack_size (stack t)) <=? rsp (run t))).

(** What the running task becomes; [sp] is where its context is saved. *)
Definition suspend (sp cr3_raw ursp : Z) (t : Task) : Task :=
  let st := match state (run t) with Terminated => Terminated | _ => Ready end in
  with_run {| state := st; rsp := sp; ticks_left := ticks_left (run t); user_rsp := ursp; cpu := cpu (run t); cr3 := cr3_raw; user_cr3 := user_cr3 (run t) |} t.
Definition resume (t : Task) : Task := with_ticks TIME_SLICE (with_state Running t).

(** The registers of a CPU that goes on with task [next]. *)
Definition enter (next : nat) (t : Task) (cr3_raw : Z) (p : PerCpu) : PerCpu :=
  let r := run t in
  let top := kernel_rsp_top (stack t) in
  {| current := next; cpu_tasks := cpu_tasks p; pc_user_rsp := user_rsp r;
     pc_kernel_rsp := if top =? 0 then pc_kernel_rsp p else top;
     pc_tss := if top =? 0 then pc_tss p else top;
     pc_cr3 := if negb (cr3 r =? 0) && negb (cr3 r =? cr3_raw) then cr3 r else pc_cr3 p |}.

(** From task [cur] to the task [t] in slot [next]; both functions that switch do this. *)
Definition switch (c cur next : nat) (t : Task) (sp : Z) s : Outcome * Sched W :=
  let raw := cr3_of c s in
  let a := change_slot cur (suspend sp raw (user_rsp_of c s)) (arr s) in
  let a := change_slot next resume a in
  let s := change_cpu c (enter next t raw) (with_arr a s) in
  (Resumes (rsp (run t)), with_slots (cr3 (run t), user_cr3 (run t)) s).

(** [frame] is the context of the caller, which the assembly stores on its stack at [sp]. *)
Definition yield_now (c : nat) (sp : Z) (frame : list Z) s : Outcome * Sched W :=
  if (MAX_CPUS <=? c)%nat then (Waits, s)
  else if task_count (ctr s) <=? 1 then (Waits, s)
  else
    let cur := current_of c s in
    match slot cur (arr s) with
    | None => (Returns, s)
    | Some _ =>
        let next := find_next_ready (arr s) cur c in
        if (next =? cur)%nat then (Waits, s)
        else
          match slot next (arr s) with
          | None => (Returns, s)
          | Some _ =>
              let s := with_arr (migrate_task_to_cpu next c (arr s)) s in
              match slot next (arr s) with
              | None => (Returns, s)
              | Some t =>
                  if bad_stack t then (Returns, s)
                  else
                    let '(o, s) := switch c cur next t sp s in
                    (o, with_mem (store_words sp frame (mem s)) s)
              end
          end
    end.

(** The timer interrupt: [sp] is where the stub has stored the context of the interrupted code, and [busy] whether that code
    holds the lock of the array.  The answer 0 of the code, no switch, is [Returns]. *)
Definition schedule_tick (c : nat) (sp : Z) (busy : bool) s : Outcome * Sched W :=
  let s := with_ticks_count (u64_add (sys_ticks (ctr s)) 1) s in
  if (MAX_CPUS <=? c)%nat then (Returns, s)
  else if negb (c =? BSP_CPU_ID)%nat then (Returns, s)
  else if task_count (ctr s) <=? 1 then (Returns, s)
  else if busy then (Returns, s)
  else
    let cur := current_of c s in
    if (MAX_TASKS <=? cur)%nat then (Returns, s)
    else
      match slot cur (arr s) with
      | None => (Returns, s)
      | Some _ =>
          let next := find_next_ready (arr s) cur c in
          if (next =? cur)%nat then (Returns, s)
          else if (MAX_TASKS <=? next)%nat then (Returns, s)
          else
            match slot next (arr s) with
            | None => (Returns, s)
            | Some _ =>
                let s := with_arr (migrate_task_to_cpu next c (arr s)) s in
                match slot next (arr s) with
                | None => (Returns, s)
                | Some t => if negb (next =? 0)%nat && bad_stack t then (Returns, s) else switch c cur next t sp s
                end
            end
      end.

(** *** Creating tasks *)

(** [Layout::from_size_align(size, 16)] refuses sizes that do not fit [isize] when rounded up. *)
Definition layout_ok (size : Z) : bool := size <=? 2 ^ 63 - 16.
Definition alloc_stack (size : Z) s : Z * Sched W :=
  if layout_ok size then let '(base, w) := heap_alloc size (world s) in (base, with_world w s) else (0, s).
Definition dealloc_stack (base size : Z) s : Sched W :=
  if (base =? 0) || (size =? 0) then s else if layout_ok size then with_world (heap_dealloc base size (world s)) s else s.

Definition take_task_id s : Z * Sched W := (next_task_id (ctr s), with_next_id (u64_add (next_task_id (ctr s)) 1) s).

(** The fields all constructors set. *)
Definition place (base size : Z) (c : nat) (t : Task) : Task :=
  {| t_id := t_id t; priority := priority t; parent_pid := parent_pid t; exit_code := exit_code t; cgroup := cgroup t; run := run (with_cpu c t);
     stack := {| stack_alloc := base; stack_size := size; kernel_rsp_top := u64_add base size |};
     heap := heap t; cred := cred t; ns := ns t; sig := sig t; name := name t; vma := vma t; cwd := cwd t |}.

Definition with_parent (p : Z) (t : Task) : Task :=
  {| t_id := t_id t; priority := priority t; parent_pid := p; exit_code := exit_code t; cgroup := cgroup t; run := run t; stack := stack t;
     heap := heap t; cred := cred t; ns := ns t; sig := sig t; name := name t; vma := vma t; cwd := cwd t |}.
Definition with_group (g : Z) (t : Task) : Task :=
  {| t_id := t_id t; priority := priority t; parent_pid := parent_pid t; exit_code := exit_code t; cgroup := g; run := run t; stack := stack t;
     heap := heap t; cred := cred t; ns := ns t; sig := sig t; name := name t; vma := vma t; cwd := cwd t |}.
Definition with_ns_ids (n : NsIds) (t : Task) : Task :=
  {| t_id := t_id t; priority := priority t; parent_pid := parent_pid t; exit_code := exit_code t; cgroup := cgroup t; run := run t; stack := stack t;
     heap := heap t; cred := cred t; ns := n; sig := sig t; name := name t; vma := vma t; cwd := cwd t |}.
Definition with_spaces (v : Z) (t : Task) s : Task * Sched W :=
  let '(view, w) := build_user_view v (world s) in (with_user_cr3 (default v view) (with_cr3 v t), with_world w s).

(** The end of the constructors: join the group, take a slot, count the task. *)
Definition publish (t : Task) s : bool * Sched W :=
  let '(ok, w) := attach_task (cgroup t) (t_id t) (world s) in
  let s := with_world w s in
  if negb ok then (false, dealloc_stack (stack_alloc (stack t)) (stack_size (stack t)) s)
  else
    match find_free (arr s) with
    | Some (i, a) => (true, add_task_count 1 (with_arr (set_slot i (Some t) a) s))
    | None => (false, dealloc_stack (stack_alloc (stack t)) (stack_size (stack t)) s)
    end.

Definition create_task_named (c : nat) (entry size : Z) (nm : bytes) s : Z * Sched W :=
  if negb (stack_size_is_valid size) then (0, s)
  else
    let '(base, s) := alloc_stack size s in
    if base =? 0 then (0, s)
    else
      let '(tid, s) := take_task_id s in
      let f := frame_base (u64_add base size) in
      let s := with_mem (clear_words base f (store_words f (kernel_frame entry f) (mem s))) s in
      let t := place base size c (new_task tid f nm) in
      let t := with_heap {| heap_brk := DEFAULT_HEAP_BRK; heap_floor := DEFAULT_HEAP_BRK |} t in
      let t := with_group (current_cgroup c s) t in
      let '(ok, s) := publish t s in
      if ok then (tid, change_cpu c (add_cpu_tasks 1) s) else (0, s).
Definition create_task (c : nat) (entry size : Z) : Sched W -> Z * Sched W := create_task_named c entry size [].

Definition valid_entry (entry : Z) : bool := (0x1000 <=? entry) && (entry <? 0x0000800000000000).

(** ["user"] *)
Definition USER_NAME : bytes := [117; 115; 101; 114].

Definition user_stack_top (given : Z) s : Z * Sched W :=
  if given =? 0 then
    let '(slide, st) := get_random_page_aligned 0 0x20000000 (prng_state (ctr s)) in
    let top := saturating_sub 0x7FFFFFFFF000 slide in
    (if top <? 0x1000 then 0x7FFFFFFFF000 else top, with_prng st s)
  else (given, s).
Definition heap_start (given : Z) s : Z * Sched W :=
  if negb (given =? 0) then (given, s)
  else let '(v, st) := get_random_page_aligned 0x600000000000 0x600000200000 (prng_state (ctr s)) in (v, with_prng st s).

Definition create_user_task (c : nat) (entry size ursp cr3v heap_base : Z) s : Z * Sched W :=
  if negb (valid_entry entry) then (0, s)
  else if negb (stack_size_is_valid size) then (0, s)
  else
    let '(base, s) := alloc_stack size s in
    if base =? 0 then (0, s)
    else
      let '(tid, s) := take_task_id s in
      let f := frame_base (u64_add base size) in
      let '(ursp, s) := user_stack_top ursp s in
      let '(brk, s) := heap_start heap_base s in
      let sp := u64_sub f FRAME_BYTES in
      let s := with_mem (store_words sp (user_frame entry ursp) (store_words f (replicate (Z.to_nat (STACK_GUARD / 8)) 0) (mem s))) s in
      let t := place base size c (new_task tid sp USER_NAME) in
      let t := with_user_rsp ursp t in
      let '(t, s) := with_spaces cr3v t s in
      let t := with_heap {| heap_brk := brk; heap_floor := brk |} t in
      let t := with_parent (from_option t_id 0 (slot (current_task_index c s) (arr s))) t in
      let t := with_group (current_cgroup c s) t in
      let '(ok, s) := publish t s in
      if ok then (tid, change_cpu c (add_cpu_tasks 1) s) else (0, s).

(** A namespace of a kind when its flag is set; [None] when there is no room for one. *)
Definition fresh_ns (flags flag : Z) (create : NsSys -> option Z * NsSys) (old : Z) s : option Z * Sched W :=
  if Z.land flags flag =? 0 then (Some old, s) else let '(o, n) := create (nss s) in (o, with_nss n s).
Definition fresh_mnt_ns (flags old : Z) s : option Z * Sched W :=
  if Z.land flags CLONE_NEWNS =? 0 then (Some old, s)
  else
    match mnt_create (nss s) with
    | (None, n) => (None, with_nss n s)
    | (Some i, n) =>
        let '(ok, w) := create_mnt_ns i (world s) in
        (if ok then Some i else None, with_world w (with_nss n s))
    end.

(** [o ;; k]: the rest of a function that returns early on [None]. *)
Definition or_fail (r : option Z * Sched W) (k : Z -> Sched W -> option NsIds * Sched W) : option NsIds * Sched W :=
  match r with (Some i, s) => k i s | (None, s) => (None, s) end.

Definition fresh_namespaces (flags : Z) (n : NsIds) s : option NsIds * Sched W :=
  or_fail (fresh_ns flags CLONE_NEWUTS uts_create (uts_ns n) s) (fun u s =>
  or_fail (fresh_ns flags CLONE_NEWPID pid_create (pid_ns n) s) (fun p s =>
  or_fail (fresh_mnt_ns flags (mnt_ns n) s) (fun m s =>
  or_fail (fresh_ns flags CLONE_NEWNET net_create (net_ns n) s) (fun nt s =>
  or_fail (fresh_ns flags CLONE_NEWUSER user_create (user_ns n) s) (fun us s =>
  or_fail (fresh_ns flags CLONE_NEWIPC ipc_create (ipc_ns n) s) (fun i s =>
  (Some {| uts_ns := u; pid_ns := p; mnt_ns := m; net_ns := nt; user_ns := us; ipc_ns := i |}, s))))))).

(** What a child inherits: the credentials and capabilities, but not the filter of system calls. *)
Definition inherit (parent : Cred) (own : Cred) : Cred :=
  {| uid := uid parent; gid := gid parent; euid := euid parent; egid := egid parent; no_new_privs := no_new_privs parent;
     seccomp_mode := seccomp_mode own; seccomp_allowed := seccomp_allowed own; caps := caps parent |}.

(** [from_utf8(name).unwrap_or] of the empty string *)
Definition as_text (n : bytes) : bytes := match from_utf8 n with Some _ => n | None => [] end.

Definition clone_task (c : nat) (flags size entry cr3v ursp brk : Z) s : Z * Sched W :=
  if negb (stack_size_is_valid size) then (0, s)
  else
    match current_task c s with
    | None => (0, s)
    | Some parent =>
        if negb (valid_entry entry) then (0, s)
        else
          let '(base, s) := alloc_stack size s in
          if base =? 0 then (0, s)
          else
            let '(tid, s) := take_task_id s in
            match fresh_namespaces flags (ns parent) s with
            | (None, s) => (0, s)
            | (Some n, s) =>
                let sp := u64_sub (frame_base (u64_add base size)) FRAME_BYTES in
                let s := with_mem (store_words sp (user_frame entry ursp) (mem s)) s in
                let t := place base size c (new_task tid sp (as_text (name parent))) in
                let t := with_user_rsp ursp t in
                let '(t, s) := with_spaces cr3v t s in
                let t := with_heap {| heap_brk := brk; heap_floor := brk |} t in
                let t := with_cred (inherit (cred parent) (cred t)) t in
                let t := with_group (cgroup parent) (with_ns_ids n (with_parent (t_id parent) t)) in
                let '(ok, s) := publish t s in
                if negb ok then (0, s)
                else
                  let s := if pid_ns n =? NS_ROOT then s else with_nss (with_pids (register_task (pid_ns n) tid (pid_table (nss s))).2 (nss s)) s in
                  (tid, change_cpu c (add_cpu_tasks 1) s)
            end
    end.

(** *** The end of tasks *)

(** Where [exit_current_task] stops before it yields. *)
Definition mark_exit (c : nat) (code : Z) (t : Task) s : Sched W :=
  let a := change_slot (current_of c s) (fun t => with_exit_code code (with_state Terminated t)) (arr s) in
  let s := with_world (detach_task (t_id t) (world s)) (with_arr a s) in
  let s := with_notify (Z.lor (Z.lor (Z.shiftl 1 63) (Z.shiftl (Z.land code 0xFFFF) 32)) (Z.land (t_id t) 0xFFFFFFFF)) s in
  let s := with_zombies (push_zombie {| child_pid := t_id t; z_parent := parent_pid t; z_code := code |} (zombies s)).2 s in
  signal_deliver (parent_pid t) SIGCHLD s.

(** The code never returns to the task: where [yield_now] does, it halts until interrupts take the CPU away. *)
Definition exit_current_task (c : nat) (code sp : Z) (frame : list Z) s : Outcome * Sched W :=
  yield_now c sp frame (match current_task c s with Some t => mark_exit c code t s | None => s end).
Definition user_fault_kill (c : nat) : Z -> list Z -> Sched W -> Outcome * Sched W := exit_current_task c (Z.of_nat SIGSEGV).

(** [-1i64 as u64] *)
Definition any_child (pid : Z) : bool := (pid =? U64_MAX) || (pid =? 0).
Definition wait_for_child (parent pid : Z) s : option (Z * Z) * Sched W :=
  let '(r, z) := if any_child pid then find_any_child parent (zombies s) else find_by_child pid (zombies s) in
  ((fun r => (child_pid r, z_code r)) <$> r, with_zombies z s).

Definition check_child_exit_notify s : option (Z * Z) * Sched W :=
  let v := child_exit_notify (ctr s) in
  (if negb (Z.land v (Z.shiftl 1 63) =? 0) then Some (Z.land v 0xFFFFFFFF, Z.land (Z.shiftr v 32) 0xFFFF) else None, with_notify 0 s).

Definition reap_zombies_for_parent (parent : Z) s : Sched W := with_zombies (reap_all_for_parent parent (zombies s)) s.

(** *** Releasing tasks *)

Definition leave_ns (t : Task) s : Sched W :=
  if pid_ns (ns t) =? 0 then s else with_nss (with_pids (unregister_task (pid_ns (ns t)) (t_id t) (pid_table (nss s))) (nss s)) s.
Definition free_view (t : Task) s : Sched W :=
  if negb (cr3 (run t) =? 0) && negb (user_cr3 (run t) =? 0) && negb (user_cr3 (run t) =? cr3 (run t)) then with_world (destroy_user_view (user_cr3 (run t)) (world s)) s else s.
Definition set_cpu_cr3 (v : Z) (p : PerCpu) : PerCpu :=
  {| current := current p; cpu_tasks := cpu_tasks p; pc_user_rsp := pc_user_rsp p; pc_kernel_rsp := pc_kernel_rsp p; pc_tss := pc_tss p; pc_cr3 := v |}.
Definition free_space (c : nat) (t : Task) s : Sched W :=
  if cr3 (run t) =? 0 then s
  else
    let '(now, w) := destroy_address_space (cr3 (run t)) (from_option pc_cr3 0 (cpus s !! c)) (world s) in
    change_cpu c (set_cpu_cr3 now) (with_world w s).
Definition free_stack (t : Task) s : Sched W :=
  if negb (stack_alloc (stack t) =? 0) && (0 <? stack_size (stack t)) && layout_ok (stack_size (stack t))
  then with_world (heap_dealloc (stack_alloc (stack t)) (stack_size (stack t)) (world s)) s else s.

Definition clear_slot (i : nat) (a : TaskArray) : TaskArray := set_slot i None (mark_freed i a).

Definition reapable (tid : Z) (o : option Task) : bool := match o with Some t => (t_id t =? tid) && bool_decide (state (run t) = Terminated) | None => false end.
Definition reap_task (c : nat) (tid : Z) s : Sched W :=
  match find_index (reapable tid) (tasks (arr s)) with
  | None => s
  | Some i =>
      match slot i (arr s) with
      | None => s
      | Some t =>
          let s := leave_ns t s in
          let s := with_world (detach_task tid (world s)) s in
          let s := with_arr (clear_slot i (arr s)) s in
          let s := add_task_count (-1) (change_cpu (cpu (run t)) (add_cpu_tasks (-1)) s) in
          free_stack t (free_space c t (free_view t s))
      end
  end.

Definition killable (tid : Z) (o : option Task) : bool := match o with Some t => (t_id t =? tid) && is_active t | None => false end.
(** The two branches of the code, by whether the task is [Running], do the same. *)
Definition kill_task (c : nat) (tid : Z) s : bool * Sched W :=
  if tid =? 0 then (false, s)
  else if has_tid tid (slot (current_of c s) (arr s)) then (false, s)
  else
    match find_index (killable tid) (tasks (arr s)) with
    | None => (false, s)
    | Some i =>
        match slot i (arr s) with
        | None => (false, s)
        | Some t =>
            let s := leave_ns t s in
            let s := with_world (detach_task tid (world s)) s in
            let s := with_arr (clear_slot i (arr s)) s in
            let s := change_cpu (cpu (run t)) (add_cpu_tasks (-1)) s in
            (true, add_task_count (-1) (free_space c t (free_view t (free_stack t s))))
        end
    end.

(** *** Start *)

Definition IDLE_STACK : Z := 65536.
(** ["idle"] *)
Definition IDLE_NAME : bytes := [105; 100; 108; 101].

(** The entry of the idle task is the address of [idle]. *)
Definition init_sched (c : nat) (idle : Z) s : Sched W :=
  let '(base, s) := alloc_stack IDLE_STACK s in
  let f := frame_base (u64_add base IDLE_STACK) in
  let s := with_mem (clear_words base f (store_words f (kernel_frame idle f) (mem s))) s in
  let t := with_cr3 (cr3_of c s) (place base IDLE_STACK 0 (new_task 0 f IDLE_NAME)) in
  with_task_count 1 (with_arr (set_slot 0 (Some t) (arr s)) s).

(** The statics; all CPUs start on the kernel's page tables. *)
Definition boot_cpu (cr3v : Z) (n : nat) : PerCpu :=
  {| current := 0; cpu_tasks := if (n =? 0)%nat then 1 else 0; pc_user_rsp := 0; pc_kernel_rsp := 0; pc_tss := 0; pc_cr3 := cr3v |}.
Definition boot_sched (cr3v : Z) (n : NsSys) (w : W) : Sched W :=
  {| arr := new_array; zombies := new_zombies; cpus := map (boot_cpu cr3v) (seq 0 MAX_CPUS);
     ctr := {| task_count := 0; next_task_id := 1; sys_ticks := 0; child_exit_notify := 0; prng_state := 0 |};
     cr3_slots := (0, 0); mem := ∅; nss := n; world := w |}.

End sched.
