(* ===== verification/Signal.v ===== *)
(** Delivery of signals: the frames of [crates/zenus-sched/src/signal.rs] and the calls of [scheduler.rs] that build and restore them.

    A user program's memory is the words of the address space in use ([words]), with a test of which pages are mapped. *)

From S2P Require Import Vma Ns Prelude Bytes Task Sched.

(** ** Frames *)

Record SignalFrame := {
  f_rip : Z; f_rflags : Z; f_rsp : Z;
  f_rax : Z; f_rbx : Z; f_rcx : Z; f_rdx : Z; f_rsi : Z; f_rdi : Z; f_rbp : Z;
  f_r8 : Z; f_r9 : Z; f_r10 : Z; f_r11 : Z; f_r12 : Z; f_r13 : Z; f_r14 : Z; f_r15 : Z;
  f_signal : Z; f_handler : Z; f_restorer : Z;
}.

(** [size_of::<SignalFrame>()] *)
Definition SIGNAL_FRAME_BYTES : Z := 21 * 8.

(** The struct is [repr(C)]: its fields are 21 words in order. *)
Definition frame_words (f : SignalFrame) : list Z :=
  [f_rip f; f_rflags f; f_rsp f; f_rax f; f_rbx f; f_rcx f; f_rdx f; f_rsi f; f_rdi f; f_rbp f; f_r8 f; f_r9 f; f_r10 f; f_r11 f; f_r12 f; f_r13 f; f_r14 f; f_r15 f;
   f_signal f; f_handler f; f_restorer f].
Definition read_frame (m : words) (addr : Z) : SignalFrame :=
  let w i := load_word m (addr + 8 * i) in
  {| f_rip := w 0; f_rflags := w 1; f_rsp := w 2; f_rax := w 3; f_rbx := w 4; f_rcx := w 5; f_rdx := w 6; f_rsi := w 7; f_rdi := w 8; f_rbp := w 9;
     f_r8 := w 10; f_r9 := w 11; f_r10 := w 12; f_r11 := w 13; f_r12 := w 14; f_r13 := w 15; f_r14 := w 16; f_r15 := w 17;
     f_signal := w 18; f_handler := w 19; f_restorer := w 20 |}.

Definition signal_frame (t : Task) (n : nat) (a : SignalAction) (ursp urip uflags : Z) : SignalFrame :=
  let c := saved_context (sig t) in
  {| f_rip := urip; f_rflags := uflags; f_rsp := ursp;
     f_rax := c_rax c; f_rbx := c_rbx c; f_rcx := c_rcx c; f_rdx := c_rdx c; f_rsi := c_rsi c; f_rdi := c_rdi c; f_rbp := c_rbp c;
     f_r8 := c_r8 c; f_r9 := c_r9 c; f_r10 := c_r10 c; f_r11 := c_r11 c; f_r12 := c_r12 c; f_r13 := c_r13 c; f_r14 := c_r14 c; f_r15 := c_r15 c;
     f_signal := Z.of_nat n; f_handler := handler_fn a; f_restorer := restorer a |}.

Section signals.
(** Whether an address translates in the page tables in use ([virt_to_phys_raw]). *)
Context (mapped : Z -> bool).

(** The index is that of a pending signal; past the array the code panics, here it answers [None] too. *)
Definition setup_signal_frame (n : nat) (ursp urip uflags : Z) (t : Task) (user : words) : option (Z * Task * words) :=
  a ← signal_actions (sig t) !! n;
  if handler_fn a =? 0 then None
  else
    let new_rsp := Z.land (u64_sub ursp SIGNAL_FRAME_BYTES) (u64_not 0xF) in
    if negb (mapped new_rsp) then None
    else Some (new_rsp, clear_signal n t, store_words new_rsp (frame_words (signal_frame t n a ursp urip uflags)) user).

Definition restore_signal_frame (ursp : Z) (user : words) : option (Z * SavedUserContext) :=
  if negb (mapped ursp) then None
  else
    let f := read_frame user ursp in
    Some (f_rsp f,
      {| c_rax := f_rax f; c_rbx := f_rbx f; c_rcx := f_rcx f; c_rdx := f_rdx f; c_rsi := f_rsi f; c_rdi := f_rdi f; c_rbp := f_rbp f; c_rsp := f_rsp f;
         c_r8 := f_r8 f; c_r9 := f_r9 f; c_r10 := f_r10 f; c_r11 := f_r11 f; c_r12 := f_r12 f; c_r13 := f_r13 f; c_r14 := f_r14 f; c_r15 := f_r15 f;
         c_rflags := f_rflags f; c_rip := f_rip f; c_valid := true |}).

(** ** The calls of the scheduler *)

Context {W : Type} `{!SchedEnv W}.
Implicit Types s : Sched W.

(** What a handler starts with: its stack pointer, its address and the flags without TF. *)
Definition deliver_to (ursp urip uflags : Z) (t : Task) (user : words) : option (Z * Z * Z * Task * words) :=
  match check_pending t with
  | None => None
  | Some (n, _) =>
      '(new_rsp, t', user) ← setup_signal_frame n ursp urip uflags t user;
      a ← signal_actions (sig t') !! n;
      Some (new_rsp, handler_fn a, Z.land uflags (u64_not 0x100), t', user)
  end.

(** The task found, and the task it becomes. *)
Definition put_task (tid : Z) (t : Task) s : Sched W := on_task tid (fun _ => t) s.

Definition check_and_deliver_signal (c : nat) (ursp urip uflags : Z) (user : words) s : option (Z * Z * Z) * words * Sched W :=
  let tid := current_task_id c s in
  match get_task tid s ≫= fun t => deliver_to ursp urip uflags t user with
  | Some (new_rsp, handler, flags, t, user) => (Some (new_rsp, handler, flags), user, put_task tid t s)
  | None => (None, user, s)
  end.

Definition set_user_rsp (v : Z) (p : PerCpu) : PerCpu :=
  {| current := current p; cpu_tasks := cpu_tasks p; pc_user_rsp := v; pc_kernel_rsp := pc_kernel_rsp p; pc_tss := pc_tss p; pc_cr3 := pc_cr3 p |}.

(** [krsp] is the address of the saved flags on the kernel stack; the saved instruction pointer is above them. *)
Definition check_signal_for_sysret (c : nat) (krsp : Z) (user : words) s : bool * words * Sched W :=
  let tid := current_task_id c s in
  let flags := load_word (mem s) krsp in
  let rip := load_word (mem s) (krsp + 8) in
  match get_task tid s ≫= fun t => deliver_to (user_rsp_of c s) rip flags t user with
  | Some (new_rsp, handler, flags, t, user) =>
      let s := put_task tid t s in
      (true, user, change_cpu c (set_user_rsp new_rsp) (with_mem (store_words krsp [flags; handler] (mem s)) s))
  | None => (false, user, s)
  end.

Definition with_context (x : SavedUserContext) (t : Task) : Task :=
  with_sig {| pending_signals := pending_signals (sig t); signal_mask := signal_mask (sig t); signal_actions := signal_actions (sig t); saved_context := x |} t.

Definition rt_sigreturn_restore (c : nat) (ursp : Z) (user : words) s : option (Z * Z * Z) * Sched W :=
  match restore_signal_frame ursp user with
  | None => (None, s)
  | Some (r, x) =>
      let tid := current_task_id c s in
      match get_task tid s with
      | None => (None, s)
      | Some _ => (Some (r, c_rip x, c_rflags x), on_task tid (with_context x) s)
      end
  end.

End signals.
