(* ===== verification/TaskCalls.v ===== *)
(** System calls about tasks: signals and futexes of [crates/zenus-syscall/src/syscall.rs].

    An answer is a 64-bit number; errors are small negative numbers ([err]). *)

From S2P Require Import Vma Ns Prelude Bytes Text Task Sched Signal.

Definition err (n : Z) : Z := U64 - n.

Definition USER_SPACE_LIMIT : Z := 0x0000800000000000.
Definition validate_user_range (ptr len : Z) : bool :=
  if (ptr =? 0) || (ptr <? 0x1000) then false
  else match checked_add ptr len with Some e => e <=? USER_SPACE_LIMIT | None => false end.

Section calls.
Context {W : Type} `{!SchedEnv W}.
Implicit Types s : Sched W.

(** ** Signals *)

Definition deliver_signal_to (tid : Z) (n : nat) s : Z * Sched W :=
  if (n =? SIGKILL)%nat then (0, signal_force_kill tid (signal_deliver tid n s))
  else if (n =? SIGSTOP)%nat then (0, signal_deliver tid n s)
  else if (n =? SIGCONT)%nat then (0, task_set_state tid Ready (signal_deliver tid n (signal_clear tid n (signal_clear tid SIGSTOP s))))
  else (0, signal_deliver tid n s).

(** The tasks of [list_tasks] and their users. *)
Definition task_list s : list (Z * Z) := omap (fun o => (fun t => (t_id t, uid (cred t))) <$> o) (tasks (arr s)).

(** To every task the caller may signal, with the number of them. *)
Definition signal_all (u : Z) (cp : Caps.CapSet) (n : nat) s : nat * Sched W :=
  foldl (fun r p => if Caps.may_kill u cp p.2 then (S r.1, (deliver_signal_to p.1 n r.2).2) else r) (0%nat, s) (task_list s).

Definition sys_kill (c : nat) (pid signal : Z) s : Z * Sched W :=
  if (signal =? 0) || (64 <=? signal) then (err 22, s)
  else
    let n := Z.to_nat signal in
    let u := current_cred uid c s in
    let cp := current_caps c s in
    if pid =? 0 then deliver_signal_to (current_task_id c s) n s
    else if pid =? err 1 then let '(k, s) := signal_all u cp n s in (if (0 <? k)%nat then 0 else err 3, s)
    else
      match get_task_id_by_pid pid s with
      | None => (err 3, s)
      | Some tid => if negb (Caps.may_kill u cp (default u (get_task_uid tid s))) then (err 1, s) else deliver_signal_to tid n s
      end.

Definition sys_tgkill (c : nat) (tid signal : Z) s : Z * Sched W :=
  if (signal =? 0) || (64 <=? signal) then (err 1, s)
  else
    let n := Z.to_nat signal in
    match (if negb (tid =? 0) then get_task_id_by_pid tid s else Some (current_task_id c s)) with
    | Some i => (0, if (n =? SIGKILL)%nat then signal_force_kill i (signal_deliver i n s) else signal_deliver i n s)
    | None => (err 1, s)
    end.

(** [mapped] is the test of page tables, and [user] the memory of the user. *)
Definition sys_rt_sigreturn (mapped : Z -> bool) (c : nat) (user : words) s : Z * Sched W :=
  match rt_sigreturn_restore mapped c (user_rsp_of c s) user s with
  | (Some (restored_rsp, _, _), s) => (0xDEADBEEF, change_cpu c (set_user_rsp restored_rsp) s)
  | (None, s) => (err 1, s)
  end.

(** The mask of [rt_sigprocmask]; [None] for an unknown request. *)
Definition new_mask (how set old : Z) : option Z :=
  let clear m := Z.land (Z.land m (u64_not (sig_bit SIGKILL))) (u64_not (sig_bit SIGSTOP)) in
  if how =? 0 then Some (clear (Z.lor old set))
  else if how =? 1 then Some (clear (Z.land old (u64_not set)))
  else if how =? 2 then Some (clear set)
  else None.

End calls.

(** ** Futexes *)

Record FutexWaiter := { w_task : Z; w_valid : bool }.
Record FutexBucket := { fb_addr : Z; waiters : list FutexWaiter; fb_count : nat }.
Definition FutexTable : Type := list FutexBucket.

Definition new_futexes : FutexTable := replicate 64 {| fb_addr := 0; waiters := replicate 8 {| w_task := 0; w_valid := false |}; fb_count := 0 |}.

Definition futex_hash (addr : Z) : nat := Z.to_nat (Z.shiftr addr 3 mod 64).
Definition owns (b : FutexBucket) (addr : Z) : bool := fb_addr b =? addr.

(** [user_val] is the word the code reads at [addr]. *)
Definition futex_wait (addr val user_val tid : Z) (f : FutexTable) : bool * FutexTable :=
  if negb (user_val =? val) then (false, f)
  else
    match f !! futex_hash addr with
    | None => (false, f)
    | Some b =>
        if (0 <? fb_count b)%nat && negb (owns b addr) then (false, f)
        else if (fb_count b <? 8)%nat then
          (true, <[futex_hash addr := {| fb_addr := addr; waiters := <[fb_count b := {| w_task := tid; w_valid := true |}]> (waiters b); fb_count := fb_count b + 1 |}]> f)
        else (false, f)
    end.

Section futexes.
Context {W : Type} `{!SchedEnv W}.
Implicit Types s : Sched W.

(** The loop over the waiters: those left, the number woken and the scheduler. *)
Fixpoint wake_loop (ws : list FutexWaiter) (count woken : Z) s : list FutexWaiter * Z * Sched W :=
  match ws with
  | [] => ([], woken, s)
  | w :: ws =>
      if w_valid w && negb (w_task w =? 0) then
        let s := task_set_state (w_task w) Ready s in
        let w' := {| w_task := w_task w; w_valid := false |} in
        if count <=? woken + 1 then (w' :: ws, woken + 1, s)
        else let '(l, n, s) := wake_loop ws count (woken + 1) s in (w' :: l, n, s)
      else let '(l, n, s) := wake_loop ws count woken s in (w :: l, n, s)
  end.

(** The valid waiters move to the front of the array; what was there behind them stays. *)
Definition compact (used rest : list FutexWaiter) : list FutexWaiter * nat :=
  let v := List.filter w_valid used in (v ++ drop (length v) used ++ rest, length v).

Definition futex_wake (addr count : Z) (f : FutexTable) s : Z * FutexTable * Sched W :=
  match f !! futex_hash addr with
  | None => (0, f, s)
  | Some b =>
      if negb (owns b addr) then (0, f, s)
      else
        let '(used, n, s) := wake_loop (take (fb_count b) (waiters b)) count 0 s in
        let '(ws, k) := compact used (drop (fb_count b) (waiters b)) in
        (n, <[futex_hash addr := {| fb_addr := fb_addr b; waiters := ws; fb_count := k |}]> f, s)
  end.

(** [sp] and [frame] are the context saved when the call yields. *)
Definition sys_futex (c : nat) (addr op val user_val sp : Z) (frame : list Z) (f : FutexTable) s : Z * Outcome * FutexTable * Sched W :=
  if negb (validate_user_range addr 4) then (err 1, Returns, f, s)
  else
  let tid := current_task_id c s in
  if Z.land op 0xF =? 0 then
    let '(ok, f) := futex_wait addr (val mod U32) user_val tid f in
    if ok then let '(o, s) := yield_now c sp frame (task_set_state tid Sleeping s) in (0, o, f, s) else (err 1, Returns, f, s)
  else if Z.land op 0xF =? 1 then let '(n, f, s) := futex_wake addr (val mod U32) f s in (n, Returns, f, s)
  else (err 1, Returns, f, s).

End futexes.
