(* ===== verification/SchedProofs.v ===== *)
(** Proofs about the scheduler: slots, the choice of the next task, memory, and the invariant its steps keep. *)

From S2P Require Import Vma Ns Prelude Bytes Text Task Sched.

(** ** Slots *)

Lemma slot_set i j o a : (i < length (tasks a))%nat -> slot j (set_slot i o a) = if decide (j = i) then o else slot j a.
Proof.
  intros Hi. unfold slot, set_slot. cbn [tasks]. destruct (decide (j = i)) as [->|Hne]; [by rewrite list_lookup_insert_eq|by rewrite list_lookup_insert_ne].
Qed.

Lemma slot_lt i a t : slot i a = Some t -> (i < length (tasks a))%nat.
Proof. unfold slot. destruct (tasks a !! i) eqn:E; [|done]. intros _. by eapply lookup_lt_Some. Qed.

Lemma slot_change i j f a : slot j (change_slot i f a) = if decide (j = i) then f <$> slot i a else slot j a.
Proof.
  unfold change_slot. destruct (slot i a) as [t|] eqn:E.
  - rewrite slot_set by (by eapply slot_lt). by destruct (decide (j = i)).
  - destruct (decide (j = i)) as [->|]; [by rewrite E|done].
Qed.

Lemma set_slot_length i o a : length (tasks (set_slot i o a)) = length (tasks a).
Proof. unfold set_slot. cbn. apply length_insert. Qed.
Lemma change_slot_length i f a : length (tasks (change_slot i f a)) = length (tasks a).
Proof. unfold change_slot. destruct (slot i a); [apply set_slot_length|done]. Qed.
Lemma change_slot_next i f a : next_free (change_slot i f a) = next_free a.
Proof. unfold change_slot. by destruct (slot i a). Qed.

Lemma find_slot_Some tid a i : find_slot tid a = Some i -> exists t, slot i a = Some t /\ t_id t = tid.
Proof.
  unfold find_slot. intros [(o & Ho & Hp) _]%find_index_Some. destruct o as [t|]; [|done]. exists t. unfold slot. rewrite Ho. cbn in Hp |- *. split; [done|lia].
Qed.

Lemma find_slot_None tid a i t : find_slot tid a = None -> slot i a = Some t -> t_id t <> tid.
Proof.
  unfold find_slot, slot. intros Hn%find_index_None Hs. destruct (tasks a !! i) as [o|] eqn:E; [|done]. cbn in Hs. subst o.
  eapply Forall_lookup_1 in Hn; [|exact E]. cbn in Hn. lia.
Qed.

Lemma slot_change_task tid f a j : slot j (change_task tid f a) = if decide (find_slot tid a = Some j) then f <$> slot j a else slot j a.
Proof.
  unfold change_task. destruct (find_slot tid a) as [i|]; [|by rewrite decide_False]. rewrite slot_change. destruct (decide (j = i)) as [->|Hne].
  - by rewrite decide_True.
  - rewrite decide_False; [done|]. intros [= ->]. done.
Qed.

Lemma change_task_length tid f a : length (tasks (change_task tid f a)) = length (tasks a).
Proof. unfold change_task. destruct (find_slot tid a); [apply change_slot_length|done]. Qed.

Lemma slot_clear i j a : slot j (clear_slot i a) = None \/ slot j (clear_slot i a) = slot j a.
Proof.
  assert (tasks (mark_freed i a) = tasks a) as Em by (unfold mark_freed; by destruct (_ <? _)%nat). unfold clear_slot, slot, set_slot. cbn [tasks]. rewrite Em.
  destruct (decide (j = i)) as [->|Hne]; [|right; by rewrite list_lookup_insert_ne]. destruct (decide (i < length (tasks a))%nat) as [Hl|Hl].
  - left. by rewrite list_lookup_insert_eq.
  - right. by rewrite list_insert_ge by lia.
Qed.

(** *** Counting tasks *)

Definition live_count (a : TaskArray) : nat := length (List.filter (fun o => negb (is_free o)) (tasks a)).

Lemma filter_insert_count {A} (p : A -> bool) (l : list A) i x y : l !! i = Some x ->
  (length (List.filter p (<[i := y]> l)) + (if p x then 1 else 0) = length (List.filter p l) + (if p y then 1 else 0))%nat.
Proof.
  revert i. induction l as [|z l IH]; intros [|i] H; cbn in *; [done|done|injection H as ->; destruct (p x), (p y); cbn; lia|].
  specialize (IH i H). destruct (p z); cbn; [f_equal; exact IH|exact IH].
Qed.

Lemma live_set i o a : (i < length (tasks a))%nat ->
  (live_count (set_slot i o a) + (if is_free (slot i a) then 0 else 1) = live_count a + (if is_free o then 0 else 1))%nat.
Proof.
  intros Hi. destruct (lookup_lt_is_Some_2 _ _ Hi) as [x Hx]. pose proof (filter_insert_count (fun o => negb (is_free o)) (tasks a) i x o Hx) as H.
  unfold live_count, set_slot, slot. cbn [tasks]. rewrite Hx. change (mjoin (Some x)) with x. destruct x, o; cbn [is_free negb] in *; lia.
Qed.

Lemma live_change i f a : live_count (change_slot i f a) = live_count a.
Proof.
  unfold change_slot. destruct (slot i a) as [t|] eqn:E; [|done]. pose proof (live_set i (Some (f t)) a ltac:(by eapply slot_lt)) as H. rewrite E in H. cbn [is_free] in H. lia.
Qed.

Lemma live_change_task tid f a : live_count (change_task tid f a) = live_count a.
Proof. unfold change_task. destruct (find_slot tid a); [apply live_change|done]. Qed.

Lemma live_bound a : (live_count a <= length (tasks a))%nat.
Proof. apply List.filter_length_le. Qed.

Lemma live_two a i j : i <> j -> is_Some (slot i a) -> is_Some (slot j a) -> (2 <= live_count a)%nat.
Proof.
  intros Hij [t Ht] [u Hu]. pose proof (slot_lt _ _ _ Ht). pose proof (slot_lt _ _ _ Hu).
  pose proof (live_set i None a ltac:(done)) as H1. rewrite Ht in H1. pose proof (live_set j None (set_slot i None a)) as H2.
  rewrite set_slot_length, slot_set, decide_False, Hu in H2 by done. specialize (H2 ltac:(done)). cbn [is_free] in H1, H2. lia.
Qed.

(** *** A free slot *)

Lemma find_free_Some a i a' : (next_free a <= length (tasks a))%nat -> find_free a = Some (i, a') ->
  tasks a' = tasks a /\ (next_free a' <= length (tasks a))%nat /\ (i < length (tasks a))%nat /\ slot i a = None.
Proof.
  intros Hn. unfold find_free. destruct (find_index is_free (drop _ _)) as [k|] eqn:E.
  - intros [= <- <-]. cbn. apply find_index_Some in E as [(o & Ho & Hp) _]. rewrite lookup_drop in Ho. pose proof (lookup_lt_Some _ _ _ Ho).
    split; [done|]. split; [lia|]. split; [done|]. unfold slot. rewrite Ho. by destruct o.
  - destruct (find_index is_free (take _ _)) as [k|] eqn:E'; [|done]. intros [= <- <-]. cbn. apply find_index_Some in E' as [(o & Ho & Hp) _].
    apply lookup_take_Some in Ho as [Ho Hk]. pose proof (lookup_lt_Some _ _ _ Ho). split; [done|]. split; [lia|]. split; [done|]. unfold slot. rewrite Ho. by destruct o.
Qed.

Lemma find_free_None a : find_free a = None -> Forall (fun o => is_Some o) (tasks a).
Proof.
  unfold find_free. destruct (find_index is_free (drop _ _)) eqn:E; [done|]. destruct (find_index is_free (take _ _)) eqn:E'; [done|]. intros _.
  apply find_index_None in E, E'. rewrite <-(take_drop (next_free a) (tasks a)). apply Forall_app. split; eapply List.Forall_impl; [|done| |done]; by intros [t|].
Qed.

(** ** The choice of the next task *)

Lemma find_seq_Some (p : nat -> bool) n : forall k i, List.find p (seq k n) = Some i -> (k <= i < k + n)%nat /\ p i = true /\ forall j, (k <= j < i)%nat -> p j = false.
Proof.
  induction n as [|n IH]; intros k i; cbn; [done|]. destruct (p k) eqn:E.
  - intros [= <-]. split; [lia|]. split; [done|]. intros j Hj. lia.
  - intros (H1 & H2 & H3)%IH. split; [lia|]. split; [done|]. intros j Hj. destruct (decide (j = k)) as [->|]; [done|]. apply H3. lia.
Qed.

Lemma find_seq_None (p : nat -> bool) k n j : List.find p (seq k n) = None -> (k <= j < k + n)%nat -> p j = false.
Proof. intros H Hj. eapply List.find_none; [exact H|]. apply in_seq. lia. Qed.

(** How many turns a task in slot [i] is away from the current one, in the order of the slots from 1 on. *)
Definition turns (cur i : nat) : nat := if (cur <? i)%nat then i - cur else i + 127 - cur.

Lemma next_ready_nearest a cur c i : (cur < MAX_TASKS)%nat -> (1 <= i < MAX_TASKS)%nat -> i <> cur -> runs_on c (slot i a) = true ->
  let next := find_next_ready a cur c in
  (1 <= next < MAX_TASKS)%nat /\ next <> cur /\ runs_on c (slot next a) = true /\ (next = i \/ turns next i < turns cur i)%nat.
Proof.
  intros Hc Hi Hne Hr. unfold find_next_ready. cbv zeta. unfold turns. change MAX_TASKS with 128%nat in *.
  destruct (scan (runs_on c) (cur + 1) 128 a) as [k|] eqn:E1; unfold scan in E1.
  - apply find_seq_Some in E1 as (H1 & H2 & H3). split; [lia|]. split; [lia|]. split; [done|]. destruct (decide (k = i)) as [|Hk]; [by left|right].
    destruct (Nat.ltb_spec k i), (Nat.ltb_spec cur i); try lia. destruct (decide (i < k)%nat); [|lia]. rewrite (H3 i) in Hr by lia. done.
  - assert (i < cur)%nat as Hlt. { destruct (decide (cur < i)%nat); [|lia]. rewrite (find_seq_None _ _ _ i E1) in Hr by lia. done. }
    rewrite (proj2 (Nat.ltb_lt 1 cur)) by lia. destruct (scan (runs_on c) 1 cur a) as [k|] eqn:E2; unfold scan in E2.
    + apply find_seq_Some in E2 as (H1 & H2 & H3). split; [lia|]. split; [lia|]. split; [done|]. destruct (decide (k = i)) as [|Hk]; [by left|right].
      destruct (Nat.ltb_spec k i), (Nat.ltb_spec cur i); try lia. destruct (decide (i < k)%nat); [|lia]. rewrite (H3 i) in Hr by lia. done.
    + rewrite (find_seq_None _ _ _ i E2) in Hr by lia. done.
Qed.

(** The choice is a task that can run, or the current one. *)
Lemma next_ready_runs a cur c : (cur < MAX_TASKS)%nat -> find_next_ready a cur c <> cur -> (find_next_ready a cur c < MAX_TASKS)%nat /\ runs (slot (find_next_ready a cur c) a) = true.
Proof.
  intros Hc. assert (forall i, runs_on c (slot i a) = true -> runs (slot i a) = true) as Hr.
  { intros i. unfold runs_on, runs. destruct (slot i a); [|done]. by intros []%andb_true_iff. }
  unfold find_next_ready. destruct (scan (runs_on c) (cur + 1) MAX_TASKS a) as [k|] eqn:E1; unfold scan in E1.
  { apply find_seq_Some in E1 as (H1 & H2 & _). intros _. split; [lia|by apply Hr]. }
  destruct (if (1 <? cur)%nat then scan (runs_on c) 1 cur a else None) as [k|] eqn:E2.
  { destruct (Nat.ltb_spec 1 cur); [|done]. unfold scan in E2. apply find_seq_Some in E2 as (H1 & H2 & _). intros _. split; [lia|by apply Hr]. }
  destruct (List.find _ (seq 1 _)) as [k|] eqn:E3.
  { apply find_seq_Some in E3 as (H1 & [_ H2]%andb_true_iff & _). intros _. split; [unfold MAX_TASKS in *; lia|done]. }
  destruct (runs_on c (slot 0 a)) eqn:E4; [|done]. intros _. split; [unfold MAX_TASKS; lia|by apply Hr].
Qed.

(** ** Memory *)

Lemma store_words_out ws : forall addr m a, a < addr \/ addr + 8 * Z.of_nat (length ws) <= a -> store_words addr ws m !! a = m !! a.
Proof.
  induction ws as [|w ws IH]; intros addr m a Ha; [done|]. cbn [store_words length] in *. rewrite IH by lia. apply lookup_insert_ne. lia.
Qed.

Lemma store_words_in ws : forall addr m k w, ws !! k = Some w -> store_words addr ws m !! (addr + 8 * Z.of_nat k) = Some w.
Proof.
  induction ws as [|x ws IH]; intros addr m [|k] w Hk; cbn [store_words lookup list_lookup] in *; [done|done| |].
  - injection Hk as ->. rewrite store_words_out by lia. replace (addr + 8 * Z.of_nat 0) with addr by lia. apply lookup_insert_eq.
  - replace (addr + 8 * Z.of_nat (S k)) with (addr + 8 + 8 * Z.of_nat k) by lia. by apply IH.
Qed.

Lemma load_store_words addr ws m : load_words (store_words addr ws m) addr (length ws) = ws.
Proof.
  unfold load_words. apply list_eq. intros k. rewrite list_lookup_fmap. destruct (decide (k < length ws)%nat) as [Hk|Hk].
  - rewrite lookup_seq_lt by done. destruct (lookup_lt_is_Some_2 ws k Hk) as [w Hw]. cbn. unfold load_word. by rewrite Hw, (store_words_in ws addr m k w Hw).
  - rewrite (lookup_ge_None_2 (seq _ _)) by (rewrite length_seq; lia). by rewrite lookup_ge_None_2 by lia.
Qed.

(** Two memories that agree on a range read the same words in it. *)
Lemma load_words_ext m m' addr n : (forall a, addr <= a < addr + 8 * Z.of_nat n -> m' !! a = m !! a) -> load_words m' addr n = load_words m addr n.
Proof.
  intros H. unfold load_words. apply map_ext_in. intros i [_ Hi]%in_seq. unfold load_word. by rewrite H by lia.
Qed.

Lemma resumable_ext m m' sp : (forall a, sp <= a < sp + 160 -> m' !! a = m !! a) -> resumable m' sp = resumable m sp.
Proof. intros H. unfold resumable, frame_cs, load_word. by rewrite H by lia. Qed.

Lemma clear_words_out addr limit m a : addr <= limit -> (limit - addr) mod 8 = 0 -> a < addr \/ limit <= a -> clear_words addr limit m !! a = m !! a.
Proof.
  intros Hl Hm Ha. unfold clear_words. apply store_words_out. rewrite length_replicate, Z2Nat.id by (apply Z.div_pos; lia).
  pose proof (Z.div_mod (limit - addr) 8 ltac:(lia)). rewrite Hm in *. replace (limit - addr + 7) with (7 + (limit - addr) / 8 * 8) by lia. rewrite Z.div_add by lia. change (7 / 8) with 0. lia.
Qed.

(** ** Environments *)

Definition apart (r r' : Z * Z) : Prop := r.1 + r.2 <= r'.1 \/ r'.1 + r'.2 <= r.1.

(** What the scheduler relies on: the heap hands out ranges apart from those that are in use ([owned]), among which is the stack
    the kernel booted on. *)
Class EnvLaws (W : Type) `{!SchedEnv W} := {
  owned : W -> list (Z * Z);
  boot_stack : Z * Z;
  boot_owned w : boot_stack ∈ owned w;
  alloc_owned size w base w' : 0 < size -> heap_alloc size w = (base, w') -> owned w ⊆ owned w' /\
    (base <> 0 -> 0 < base /\ base mod 16 = 0 /\ base + size < U64 /\ (base, size) ∈ owned w' /\ Forall (apart (base, size)) (owned w));
  dealloc_owned base size w r : r ∈ owned w -> r <> (base, size) -> r ∈ owned (heap_dealloc base size w);
  build_owned v w : owned w ⊆ owned (build_user_view v w).2;
  view_owned v w : owned w ⊆ owned (destroy_user_view v w);
  space_owned v now w : owned w ⊆ owned (destroy_address_space v now w).2;
  mnt_owned i w : owned w ⊆ owned (create_mnt_ns i w).2;
  attach_owned g t w : owned w ⊆ owned (attach_task g t w).2;
  detach_owned t w : owned w ⊆ owned (detach_task t w);
}.

#[export] Hint Resolve build_owned view_owned space_owned mnt_owned attach_owned detach_owned : zenus.

(** ** The invariant *)

Section invariant.
Context (boot : Z * Z).
Implicit Types (a : TaskArray) (m : words) (own : list (Z * Z)) (t : Task).

Definition stack_range t : Z * Z := (stack_alloc (stack t), stack_size (stack t)).
(** Where the context of a task may be saved: on its stack, and for the idle task on the stack the kernel booted on. *)
Definition home (i : nat) t : list (Z * Z) := stack_range t :: (if (i =? 0)%nat then [boot] else []).

Definition inside (sp : Z) (r : Z * Z) : Prop := r.1 + 256 <= sp /\ sp + 160 <= r.1 + r.2.

Record good_stack t : Prop := {
  g_base : 0 < stack_alloc (stack t);
  g_align : stack_alloc (stack t) mod 8 = 0;
  g_size : MIN_TASK_STACK <= stack_size (stack t);
  g_size_align : stack_size (stack t) mod 8 = 0;
  g_top : stack_alloc (stack t) + stack_size (stack t) < U64;
  g_kernel : kernel_rsp_top (stack t) = stack_alloc (stack t) + stack_size (stack t);
}.

Record Inv a (cur : nat) (n nid : Z) m own : Prop := {
  inv_len : length (tasks a) = MAX_TASKS;
  inv_free : (next_free a <= MAX_TASKS)%nat;
  inv_cur : is_Some (slot cur a);
  inv_ids i j t u : slot i a = Some t -> slot j a = Some u -> t_id t = t_id u -> i = j;
  inv_bound i t : slot i a = Some t -> 0 <= t_id t < nid;
  inv_count : n = Z.of_nat (live_count a);
  inv_running i t : slot i a = Some t -> state (run t) = Running -> i = cur;
  inv_cpu i t : slot i a = Some t -> cpu (run t) = BSP_CPU_ID;
  inv_stack i t : slot i a = Some t -> good_stack t /\ stack_range t ∈ own /\ apart (stack_range t) boot;
  inv_apart i j t u : slot i a = Some t -> slot j a = Some u -> i <> j -> apart (stack_range t) (stack_range u);
  inv_frame i t : slot i a = Some t -> i <> cur ->
    rsp (run t) mod 8 = 0 /\ Exists (inside (rsp (run t))) (home i t) /\ resumable m (rsp (run t)) = true;
}.

Lemma inv_cur_lt a cur n nid m own : Inv a cur n nid m own -> (cur < MAX_TASKS)%nat.
Proof. intros H. destruct (inv_cur _ _ _ _ _ _ H) as [t Ht]. rewrite <-(inv_len _ _ _ _ _ _ H). by eapply slot_lt. Qed.

(** The contexts of two tasks are never in the same place. *)
Lemma homes_apart a cur n nid m own i j t u r r' : Inv a cur n nid m own -> slot i a = Some t -> slot j a = Some u -> i <> j ->
  r ∈ home i t -> r' ∈ home j u -> apart r r'.
Proof.
  intros H Hi Hj Hij Hr Hr'. pose proof (inv_apart _ _ _ _ _ _ H i j t u Hi Hj Hij) as H1.
  destruct (inv_stack _ _ _ _ _ _ H i t Hi) as (_ & _ & H2). destruct (inv_stack _ _ _ _ _ _ H j u Hj) as (_ & _ & H3).
  unfold home in Hr, Hr'. apply elem_of_cons in Hr as [->|Hr], Hr' as [->|Hr'].
  - done.
  - destruct (Nat.eqb_spec j 0); [|by apply elem_of_nil in Hr']. apply list_elem_of_singleton in Hr'. by subst.
  - destruct (Nat.eqb_spec i 0); [|by apply elem_of_nil in Hr]. apply list_elem_of_singleton in Hr. subst. unfold apart in *. lia.
  - destruct (Nat.eqb_spec i 0), (Nat.eqb_spec j 0); try (by apply elem_of_nil in Hr); try (by apply elem_of_nil in Hr'). lia.
Qed.

Lemma Inv_own a cur n nid m own own' : own ⊆ own' -> Inv a cur n nid m own -> Inv a cur n nid m own'.
Proof.
  intros Hs [H1 H2 H3 H4 H5 H6 H7 H8 H9 H10 H11]. split; try done. intros i t Ht. destruct (H9 i t Ht) as (? & ? & ?). split; [done|]. split; [by apply Hs|done].
Qed.

Lemma Inv_own_live a cur n nid m own own' : (forall i t, slot i a = Some t -> stack_range t ∈ own') -> Inv a cur n nid m own -> Inv a cur n nid m own'.
Proof.
  intros Hs [H1 H2 H3 H4 H5 H6 H7 H8 H9 H10 H11]. split; try done. intros i t Ht. destruct (H9 i t Ht) as (? & ? & ?). split; [done|]. split; [by eapply Hs|done].
Qed.

Lemma Inv_nid a cur n nid nid' m own : nid <= nid' -> Inv a cur n nid m own -> Inv a cur n nid' m own.
Proof.
  intros Hn [H1 H2 H3 H4 H5 H6 H7 H8 H9 H10 H11]. split; try done. intros i t Ht. pose proof (H5 i t Ht). lia.
Qed.

(** A range apart from the stacks of all tasks. *)
Definition fresh_range (r : Z * Z) a : Prop := apart r boot /\ forall i t, slot i a = Some t -> apart r (stack_range t).

Lemma Inv_mem a cur n nid m m' own : (forall i t x r, slot i a = Some t -> i <> cur -> r ∈ home i t -> r.1 <= x < r.1 + r.2 -> m' !! x = m !! x) ->
  Inv a cur n nid m own -> Inv a cur n nid m' own.
Proof.
  intros Hm [H1 H2 H3 H4 H5 H6 H7 H8 H9 H10 H11]. split; try done. intros i t Ht Hc. destruct (H11 i t Ht Hc) as (Hal & He & Hr). split; [done|]. split; [done|].
  rewrite <-Hr. apply resumable_ext. apply Exists_exists in He as (r & Hin & Hx). intros x Hxx. unfold inside in Hx. eapply Hm; [done|done|done|lia].
Qed.

(** Writes of the running task to its own stack. *)
Lemma Inv_write a cur n nid m own t r addr ws : Inv a cur n nid m own -> slot cur a = Some t -> r ∈ home cur t ->
  r.1 <= addr -> addr + 8 * Z.of_nat (length ws) <= r.1 + r.2 -> Inv a cur n nid (store_words addr ws m) own.
Proof.
  intros H Ht Hr H1 H2. eapply Inv_mem; [|exact H]. intros i u x r' Hu Hi Hr' Hx. apply store_words_out.
  pose proof (homes_apart _ _ _ _ _ _ cur i t u r r' H Ht Hu ltac:(done) Hr Hr') as Ha. unfold apart in Ha. lia.
Qed.

(** Writes to a stack no task has yet. *)
Lemma Inv_fresh_mem a cur n nid m m' own r : Inv a cur n nid m own -> fresh_range r a -> (forall x, x < r.1 \/ r.1 + r.2 <= x -> m' !! x = m !! x) -> Inv a cur n nid m' own.
Proof.
  intros H [Hb Hf] Hm. eapply Inv_mem; [|exact H]. intros i t x r' Ht _ Hr' Hx. apply Hm. unfold home in Hr'. apply elem_of_cons in Hr' as [->|Hr'].
  - pose proof (Hf i t Ht) as Ha. unfold apart in Ha. lia.
  - destruct (Nat.eqb_spec i 0); [|by apply elem_of_nil in Hr']. apply list_elem_of_singleton in Hr'. subst r'. unfold apart in Hb. lia.
Qed.

(** Changes of a task that leave its identity, its stack and its saved context alone. *)
Definition harmless (f : Task -> Task) : Prop := forall t,
  t_id (f t) = t_id t /\ stack (f t) = stack t /\ rsp (run (f t)) = rsp (run t) /\ cpu (run (f t)) = cpu (run t) /\ user_rsp (run (f t)) = user_rsp (run t) /\
  (state (run (f t)) = Running -> state (run t) = Running).

Lemma Inv_update a cur n nid m own tid f : harmless f -> Inv a cur n nid m own -> Inv (change_task tid f a) cur n nid m own.
Proof.
  intros Hf H. assert (forall j t, slot j (change_task tid f a) = Some t -> exists u, slot j a = Some u /\ t_id t = t_id u /\ stack t = stack u /\
    rsp (run t) = rsp (run u) /\ cpu (run t) = cpu (run u) /\ (state (run t) = Running -> state (run u) = Running)) as Hs.
  { intros j t. rewrite slot_change_task. case_decide; [|by exists t]. intros (u & -> & ->)%fmap_Some. exists u. split; [done|]. destruct (Hf u) as (?&?&?&?&?&?). done. }
  destruct H as [H1 H2 H3 H4 H5 H6 H7 H8 H9 H10 H11]. split.
  - by rewrite change_task_length.
  - unfold change_task. destruct (find_slot tid a); [by rewrite change_slot_next|done].
  - destruct H3 as [t Ht]. rewrite slot_change_task, Ht. case_decide; by eexists.
  - intros i j t u (t' & Ht & Et & _)%Hs (u' & Hu & Eu & _)%Hs E. eapply H4; [exact Ht|exact Hu|congruence].
  - intros i t (u & Hu & -> & _)%Hs. by eapply H5.
  - by rewrite live_change_task.
  - intros i t (u & Hu & _ & _ & _ & _ & E)%Hs Hr. eapply H7; [exact Hu|by apply E].
  - intros i t (u & Hu & _ & _ & _ & -> & _)%Hs. by eapply H8.
  - intros i t (u & Hu & _ & E & _)%Hs. destruct (H9 i u Hu) as ([] & G2 & G3). unfold stack_range in *. rewrite E. split; [|done]. split; by rewrite E.
  - intros i j t u (t' & Ht & _ & Et & _)%Hs (u' & Hu & _ & Eu & _)%Hs Hij. unfold stack_range. rewrite Et, Eu. by eapply H10.
  - intros i t (u & Hu & _ & E & Er & _)%Hs Hc. rewrite Er. unfold home, stack_range. rewrite E. by eapply H11.
Qed.

(** *** Switches *)

Definition switched (cur next : nat) (sp raw ur : Z) a : TaskArray :=
  change_slot next resume (change_slot cur (suspend sp raw ur) (migrate_task_to_cpu next BSP_CPU_ID a)).

Lemma slot_switched cur next sp raw ur a t u j : cur <> next -> slot cur a = Some t -> slot next a = Some u ->
  slot j (switched cur next sp raw ur a) =
    if decide (j = next) then Some (resume (with_cpu BSP_CPU_ID u)) else if decide (j = cur) then Some (suspend sp raw ur t) else slot j a.
Proof.
  intros Hne Ht Hu. unfold switched, migrate_task_to_cpu. rewrite !slot_change. destruct (decide (j = next)) as [->|H1].
  - rewrite decide_False by done. by rewrite decide_True, Hu by done.
  - destruct (decide (j = cur)) as [->|H2]; [|done]. by rewrite decide_False, Ht by done.
Qed.

Lemma suspend_state sp raw ur t : state (run (suspend sp raw ur t)) <> Running.
Proof. unfold suspend. cbn. by destruct (state (run t)). Qed.

Lemma Inv_switch a cur next n nid m own t u sp raw ur r : Inv a cur n nid m own -> cur <> next -> slot cur a = Some t -> slot next a = Some u ->
  r ∈ home cur t -> inside sp r -> sp mod 8 = 0 -> resumable m sp = true -> Inv (switched cur next sp raw ur a) next n nid m own.
Proof.
  intros H Hne Ht Hu Hr Hsp Hal Hres. pose proof (fun j => slot_switched cur next sp raw ur a t u j Hne Ht Hu) as Hs.
  assert (forall j x, slot j (switched cur next sp raw ur a) = Some x -> exists y, slot j a = Some y /\ t_id x = t_id y /\ stack x = stack y /\
    (state (run x) = Running -> j = next) /\ cpu (run x) = BSP_CPU_ID) as Hb.
  { intros j x. rewrite Hs. destruct (decide (j = next)) as [->|H1]; [intros [= <-]; by exists u|]. destruct (decide (j = cur)) as [->|H2].
    - intros [= <-]. exists t. split; [done|]. split; [done|]. split; [done|]. split; [by intros []%suspend_state|]. exact (inv_cpu _ _ _ _ _ _ H cur t Ht).
    - intros Hx. exists x. split; [done|]. split; [done|]. split; [done|]. split; [|by apply (inv_cpu _ _ _ _ _ _ H j)].
      intros Hrun. by destruct (H2 (inv_running _ _ _ _ _ _ H j x Hx Hrun)). }
  destruct H as [H1 H2 H3 H4 H5 H6 H7 H8 H9 H10 H11]. split.
  - unfold switched, migrate_task_to_cpu. by rewrite !change_slot_length.
  - unfold switched, migrate_task_to_cpu. by rewrite !change_slot_next.
  - rewrite Hs, decide_True by done. by eexists.
  - intros i j x y (x' & Hx & Ex & _)%Hb (y' & Hy & Ey & _)%Hb E. eapply H4; [exact Hx|exact Hy|congruence].
  - intros i x (x' & Hx & -> & _)%Hb. by eapply H5.
  - unfold switched, migrate_task_to_cpu. by rewrite !live_change.
  - intros i x (x' & Hx & _ & _ & E & _)%Hb. done.
  - intros i x (x' & Hx & _ & _ & _ & ->)%Hb. done.
  - intros i x (x' & Hx & _ & E & _)%Hb. destruct (H9 i x' Hx) as ([] & G2 & G3). unfold stack_range in *. rewrite E. split; [|done]. split; by rewrite E.
  - intros i j x y (x' & Hx & _ & Ex & _)%Hb (y' & Hy & _ & Ey & _)%Hb Hij. unfold stack_range. rewrite Ex, Ey. by eapply H10.
  - intros i x Hx Hi. rewrite Hs, decide_False in Hx by done. destruct (decide (i = cur)) as [->|Hc]; [|by eapply H11].
    injection Hx as <-. split; [done|]. split; [|done]. apply Exists_exists. by exists r.
Qed.

(** The saved stack pointer of a suspended task passes the test of the switch. *)
Lemma Inv_not_bad a cur n nid m own i t : Inv a cur n nid m own -> slot i a = Some t -> i <> cur -> i <> 0%nat -> bad_stack (with_cpu BSP_CPU_ID t) = false.
Proof.
  intros H Ht Hc H0. destruct (inv_frame _ _ _ _ _ _ H i t Ht Hc) as (_ & He & _). destruct (inv_stack _ _ _ _ _ _ H i t Ht) as ([] & _ & _).
  unfold home in He. rewrite (proj2 (Nat.eqb_neq _ _)) in He by done. apply Exists_cons in He as [[Hlo Hhi]|He%Exists_nil]; [|done]. unfold stack_range in Hlo, Hhi. cbn [fst snd] in Hlo, Hhi.
  unfold bad_stack. cbn [with_cpu with_run stack run rsp]. unfold MIN_TASK_STACK, STACK_GUARD in *. rewrite !u64_add_small by lia.
  rewrite (proj2 (Z.ltb_ge (rsp (run t)) _)), (proj2 (Z.leb_gt _ (rsp (run t)))) by lia. apply andb_false_r.
Qed.

(** *** New and removed tasks *)

Lemma Inv_add a a' cur n nid nid' m own i t : Inv a cur n nid m own -> find_free a = Some (i, a') -> t_id t = nid -> nid < nid' -> 0 <= nid ->
  state (run t) = Ready -> cpu (run t) = BSP_CPU_ID -> good_stack t -> stack_range t ∈ own -> apart (stack_range t) boot ->
  (forall j u, slot j a = Some u -> apart (stack_range t) (stack_range u)) ->
  rsp (run t) mod 8 = 0 -> inside (rsp (run t)) (stack_range t) -> resumable m (rsp (run t)) = true ->
  Inv (set_slot i (Some t) a') cur (n + 1) nid' m own.
Proof.
  intros H Hf Hid Hnid Hnid0 Hst Hcpu Hgood Hown Hboot Hap Hal Hin Hres. destruct H as [H1 H2 H3 H4 H5 H6 H7 H8 H9 H10 H11].
  destruct (find_free_Some a i a' ltac:(lia) Hf) as (E1 & E2 & E3 & E4).
  assert (forall j, slot j (set_slot i (Some t) a') = if decide (j = i) then Some t else slot j a) as Hs.
  { intros j. rewrite slot_set by (by rewrite E1). unfold slot. by rewrite E1. }
  assert (cur <> i) as Hci by (intros ->; rewrite E4 in H3; by destruct H3). split.
  - rewrite set_slot_length, E1. done.
  - cbn. lia.
  - by rewrite Hs, decide_False by done.
  - intros j k x y. rewrite !Hs. repeat case_decide; subst; intros Hx Hy Exy; try done.
    + injection Hx as <-. pose proof (H5 _ _ Hy). lia.
    + injection Hy as <-. pose proof (H5 _ _ Hx). lia.
    + by eapply H4.
  - intros j x. rewrite Hs. case_decide; [intros [= <-]; lia|]. intros Hx. pose proof (H5 _ _ Hx). lia.
  - pose proof (live_set i (Some t) a' ltac:(by rewrite E1)) as Hl. unfold live_count, slot in *. rewrite E1 in Hl. rewrite E4 in Hl. cbn [is_free] in Hl. lia.
  - intros j x. rewrite Hs. case_decide; [intros [= <-]; congruence|]. by eauto.
  - intros j x. rewrite Hs. case_decide; [intros [= <-]; congruence|]. by eauto.
  - intros j x. rewrite Hs. case_decide; [by intros [= <-]|]. by eauto.
  - intros j k x y. rewrite !Hs. repeat case_decide; subst; intros Hx Hy Hjk; try done.
    + injection Hx as <-. by eapply Hap.
    + injection Hy as <-. pose proof (Hap _ _ Hx). unfold apart in *. lia.
    + by eapply H10.
  - intros j x. rewrite Hs. case_decide; [intros [= <-] _|by eauto]. split; [done|]. split; [|done]. by apply Exists_cons_hd.
Qed.

Lemma Inv_remove a cur n nid m own own' i t : Inv a cur n nid m own -> slot i a = Some t -> i <> cur ->
  (forall r, r ∈ own -> r <> stack_range t -> r ∈ own') -> Inv (clear_slot i a) cur (n - 1) nid m own'.
Proof.
  intros H Ht Hi Hown. pose proof (slot_lt _ _ _ Ht) as Hlt.
  assert (tasks (mark_freed i a) = tasks a) as Em by (unfold mark_freed; by destruct (_ <? _)%nat).
  assert (forall j, slot j (clear_slot i a) = if decide (j = i) then None else slot j a) as Hs.
  { intros j. unfold clear_slot. rewrite slot_set by (by rewrite Em). unfold slot. by rewrite Em. }
  assert (forall j x, slot j (clear_slot i a) = Some x -> j <> i /\ slot j a = Some x) as Hb by (intros j x; rewrite Hs; by case_decide).
  pose proof (inv_stack _ _ _ _ _ _ H i t Ht) as ([] & _ & _).
  destruct H as [H1 H2 H3 H4 H5 H6 H7 H8 H9 H10 H11]. split.
  - unfold clear_slot. by rewrite set_slot_length, Em.
  - unfold clear_slot, mark_freed. destruct (Nat.ltb_spec i (next_free a)); cbn; lia.
  - by rewrite Hs, decide_False by done.
  - intros j k x y [_ Hx]%Hb [_ Hy]%Hb. by eapply H4.
  - intros j x [_ Hx]%Hb. by eapply H5.
  - pose proof (live_set i None (mark_freed i a) ltac:(by rewrite Em)) as Hl. unfold live_count, clear_slot, slot in *. rewrite Em in Hl. rewrite Ht in Hl. cbn [is_free] in Hl. lia.
  - intros j x [_ Hx]%Hb. by eapply H7.
  - intros j x [_ Hx]%Hb. by eapply H8.
  - intros j x [Hj Hx]%Hb. destruct (H9 j x Hx) as (G1 & G2 & G3). split; [done|]. split; [|done]. apply Hown; [done|]. intros E.
    pose proof (H10 j i x t Hx Ht Hj) as Ha. rewrite E in Ha. unfold apart, stack_range, MIN_TASK_STACK, STACK_GUARD in *. cbn in Ha. lia.
  - intros j k x y [_ Hx]%Hb [_ Hy]%Hb. by eapply H10.
  - intros j x [_ Hx]%Hb. by eapply H11.
Qed.

End invariant.

(** ** States *)

Section states.
Context {W : Type} `{!SchedEnv W} `{!EnvLaws W}.
Implicit Types s : Sched W.

Definition sched_ok s : Prop :=
  length (cpus s) = MAX_CPUS /\ Inv boot_stack (arr s) (current_of BSP_CPU_ID s) (task_count (ctr s)) (next_task_id (ctr s)) (mem s) (owned (world s)).

(** A context that is saved on the running task's stack. *)
Definition context_ok (sp : Z) (frame : list Z) s : Prop :=
  exists t, current_task BSP_CPU_ID s = Some t /\ Exists (inside sp) (home boot_stack (current_of BSP_CPU_ID s) t) /\
  sp mod 8 = 0 /\ length frame = 20%nat /\ (frame !! 16%nat = Some 0x08 \/ frame !! 16%nat = Some 0x23).

(** States with the same tasks, current task and memory, and at least the same ranges in use. *)
Definition same_tasks s s' : Prop :=
  arr s' = arr s /\ current_of BSP_CPU_ID s' = current_of BSP_CPU_ID s /\ length (cpus s') = length (cpus s) /\
  task_count (ctr s') = task_count (ctr s) /\ next_task_id (ctr s') = next_task_id (ctr s) /\ mem s' = mem s /\ owned (world s) ⊆ owned (world s').

Lemma same_refl s : same_tasks s s.
Proof. by repeat split. Qed.
Lemma same_trans s1 s2 s3 : same_tasks s1 s2 -> same_tasks s2 s3 -> same_tasks s1 s3.
Proof. unfold same_tasks. intros (?&?&?&?&?&?&?) (?&?&?&?&?&?&?). repeat split; try congruence. by etrans. Qed.
Lemma same_ok s s' : same_tasks s s' -> sched_ok s -> sched_ok s'.
Proof.
  intros (E1 & E2 & E3 & E4 & E5 & E6 & E7) [H1 H2]. split; [by rewrite E3|]. rewrite E1, E2, E4, E5, E6. by eapply Inv_own.
Qed.

Lemma current_task_slot s : sched_ok s -> exists t, current_task BSP_CPU_ID s = Some t.
Proof. intros [_ H]. apply (inv_cur _ _ _ _ _ _ _ H). Qed.

Lemma frame_resumable sp frame m : length frame = 20%nat -> frame !! 16%nat = Some 0x08 \/ frame !! 16%nat = Some 0x23 -> resumable (store_words sp frame m) sp = true.
Proof.
  intros _ Hf. unfold resumable, frame_cs, load_word. replace (sp + 128) with (sp + 8 * Z.of_nat 16) by lia.
  destruct Hf as [Hf|Hf]; by rewrite (store_words_in frame sp m 16 _ Hf).
Qed.

Lemma store_context_ok sp frame s : sched_ok s -> context_ok sp frame s -> sched_ok (with_mem (store_words sp frame (mem s)) s).
Proof.
  intros [H1 H2] (t & Ht & (r & Hr & Hsp)%Exists_exists & _ & Hl & _). split; [done|]. unfold inside in Hsp. eapply (Inv_write _ _ _ _ _ _ _ t r); [exact H2|exact Ht|exact Hr|lia|]. rewrite Hl. lia.
Qed.

(** On the CPU that schedules, moving a task to it changes nothing. *)
Lemma with_cpu_id s i t : sched_ok s -> slot i (arr s) = Some t -> with_cpu BSP_CPU_ID t = t.
Proof. intros [_ H] E. pose proof (inv_cpu _ _ _ _ _ _ _ H i t E) as Hc. destruct t as [????? []]; cbn in Hc |- *; by subst. Qed.

Lemma migrate_id s i : sched_ok s -> migrate_task_to_cpu i BSP_CPU_ID (arr s) = arr s.
Proof.
  intros H. unfold migrate_task_to_cpu, change_slot. destruct (slot i (arr s)) as [t|] eqn:E; [|done]. rewrite (with_cpu_id s i t H E).
  unfold set_slot, slot in *. destruct (arr s) as [l n]. cbn in *. f_equal. apply list_insert_id. destruct (l !! i) as [o|]; [|done]. cbn in E. by subst.
Qed.

Lemma current_of_enter c f s : (c < length (cpus s))%nat -> current_of c (change_cpu c f s) = from_option (fun p => current (f p)) 0%nat (cpus s !! c).
Proof.
  intros Hc. unfold current_of, change_cpu. cbn [cpus with_cpus]. rewrite list_lookup_alter_eq. by destruct (cpus s !! c).
Qed.

Lemma cpus_enter c f s : length (cpus (change_cpu c f s)) = length (cpus s).
Proof. unfold change_cpu. cbn. apply length_alter. Qed.

(** A switch from the running task to one that can run. *)
Lemma switch_ok s next t u sp : sched_ok s -> current_task BSP_CPU_ID s = Some t -> slot next (arr s) = Some u -> current_of BSP_CPU_ID s <> next ->
  Exists (inside sp) (home boot_stack (current_of BSP_CPU_ID s) t) -> sp mod 8 = 0 -> resumable (mem s) sp = true ->
  let r := switch BSP_CPU_ID (current_of BSP_CPU_ID s) next u sp s in
  r.1 = Resumes (rsp (run u)) /\ current_of BSP_CPU_ID r.2 = next /\ sched_ok r.2 /\ mem r.2 = mem s /\ resumable (mem s) (rsp (run u)) = true /\
  arr r.2 = switched (current_of BSP_CPU_ID s) next sp (cr3_of BSP_CPU_ID s) (user_rsp_of BSP_CPU_ID s) (arr s).
Proof.
  intros H Ht Hu Hne (r & Hr & Hsp)%Exists_exists Hal Hres. pose proof H as [H1 H2]. cbv zeta. unfold switch. cbn [fst snd].
  assert (current_of BSP_CPU_ID (with_slots (cr3 (run u), user_cr3 (run u)) (change_cpu BSP_CPU_ID (enter next u (cr3_of BSP_CPU_ID s))
    (with_arr (change_slot next resume (change_slot (current_of BSP_CPU_ID s) (suspend sp (cr3_of BSP_CPU_ID s) (user_rsp_of BSP_CPU_ID s)) (arr s))) s))) = next) as Hcur.
  { etrans; [apply current_of_enter; cbn; rewrite H1; unfold MAX_CPUS, BSP_CPU_ID; lia|]. cbn [cpus with_arr]. destruct (lookup_lt_is_Some_2 (cpus s) BSP_CPU_ID) as [p ->]; [rewrite H1; unfold MAX_CPUS, BSP_CPU_ID; lia|done]. }
  split; [done|]. split; [exact Hcur|].
  assert (switched (current_of BSP_CPU_ID s) next sp (cr3_of BSP_CPU_ID s) (user_rsp_of BSP_CPU_ID s) (arr s) =
    change_slot next resume (change_slot (current_of BSP_CPU_ID s) (suspend sp (cr3_of BSP_CPU_ID s) (user_rsp_of BSP_CPU_ID s)) (arr s))) as Ea.
  { unfold switched. by rewrite migrate_id. }
  split; [|split; [done|]; split; [|by rewrite Ea]].
  - split; [cbn; rewrite length_alter; done|]. rewrite Hcur. cbn [arr with_slots change_cpu with_cpus with_arr ctr mem world]. rewrite <-Ea. by eapply Inv_switch.
  - by destruct (inv_frame _ _ _ _ _ _ _ H2 next u Hu ltac:(done)) as (_ & _ & ?).
Qed.

Lemma with_arr_id s : with_arr (arr s) s = s.
Proof. by destruct s. Qed.

Lemma same_ticks n s : same_tasks s (with_ticks_count n s).
Proof. by repeat split. Qed.

(** The task that follows the running one can be switched to. *)
Lemma next_ok s : sched_ok s -> let next := find_next_ready (arr s) (current_of BSP_CPU_ID s) BSP_CPU_ID in
  next <> current_of BSP_CPU_ID s -> (next < MAX_TASKS)%nat /\ exists u, slot next (arr s) = Some u /\ is_active u = true /\ (next <> 0%nat -> bad_stack u = false).
Proof.
  intros H next Hne. pose proof H as [_ Hi]. destruct (next_ready_runs (arr s) _ BSP_CPU_ID (inv_cur_lt _ _ _ _ _ _ _ Hi) Hne) as [Hn Hr]. split; [done|].
  fold next in Hr. unfold runs in Hr. destruct (slot next (arr s)) as [u|] eqn:Eu; [|done]. exists u. split; [done|]. split; [done|]. intros H0.
  rewrite <-(with_cpu_id s next u H Eu). exact (Inv_not_bad _ _ _ _ _ _ _ _ u Hi Eu Hne H0).
Qed.

(** What a tick does: nothing, or a switch to the next task that can run. *)
Lemma tick_cases s sp busy : sched_ok s ->
  let next := find_next_ready (arr s) (current_of BSP_CPU_ID s) BSP_CPU_ID in
  let s1 := with_ticks_count (u64_add (sys_ticks (ctr s)) 1) s in
  schedule_tick BSP_CPU_ID sp busy s = (Returns, s1) /\ (busy = true \/ next = current_of BSP_CPU_ID s \/ task_count (ctr s) <= 1) \/
  exists u, next <> current_of BSP_CPU_ID s /\ slot next (arr s) = Some u /\ is_active u = true /\
    schedule_tick BSP_CPU_ID sp busy s = switch BSP_CPU_ID (current_of BSP_CPU_ID s1) next u sp s1.
Proof.
  intros H. unfold schedule_tick. cbv zeta. set (s1 := with_ticks_count (u64_add (sys_ticks (ctr s)) 1) s).
  pose proof (same_ok _ _ (same_ticks (u64_add (sys_ticks (ctr s)) 1) s) H) as H1. fold s1 in H1. change (arr s) with (arr s1). change (current_of BSP_CPU_ID s) with (current_of BSP_CPU_ID s1).
  change (task_count (ctr s)) with (task_count (ctr s1)). clearbody s1. clear H. change (MAX_CPUS <=? BSP_CPU_ID)%nat with false. change (negb (BSP_CPU_ID =? BSP_CPU_ID)%nat) with false. cbn [negb].
  destruct (Z.leb_spec (task_count (ctr s1)) 1); [left; auto|]. destruct busy; [left; auto|]. pose proof H1 as [_ Hi]. pose proof (inv_cur_lt _ _ _ _ _ _ _ Hi) as Hlt.
  rewrite (proj2 (Nat.leb_gt MAX_TASKS (current_of BSP_CPU_ID s1))) by done. destruct (current_task_slot s1 H1) as [t Ht]. unfold current_task in Ht. rewrite Ht.
  set (next := find_next_ready (arr s1) (current_of BSP_CPU_ID s1) BSP_CPU_ID). destruct (Nat.eqb_spec next (current_of BSP_CPU_ID s1)) as [E|Hne]; [left; auto|].
  destruct (next_ok s1 H1 Hne) as (Hn & u & Eu & Hact & Hbad). fold next in Hn, Eu, Hbad. rewrite (proj2 (Nat.leb_gt MAX_TASKS next)) by done. rewrite Eu, migrate_id, with_arr_id, Eu by done.
  right. exists u. split; [done|]. split; [done|]. split; [done|]. destruct (Nat.eqb_spec next 0) as [|H0]; [done|]. by rewrite Hbad.
Qed.

(** What yielding does: it returns, or saves the context and switches. *)
Lemma yield_cases s sp frame : sched_ok s ->
  let next := find_next_ready (arr s) (current_of BSP_CPU_ID s) BSP_CPU_ID in
  (yield_now BSP_CPU_ID sp frame s = (Waits, s) /\ (next = current_of BSP_CPU_ID s \/ task_count (ctr s) <= 1)) \/
  (yield_now BSP_CPU_ID sp frame s = (Returns, s) /\ next = 0%nat) \/
  exists u, next <> current_of BSP_CPU_ID s /\ slot next (arr s) = Some u /\ is_active u = true /\
    let r := switch BSP_CPU_ID (current_of BSP_CPU_ID s) next u sp s in
    yield_now BSP_CPU_ID sp frame s = (r.1, with_mem (store_words sp frame (mem r.2)) r.2).
Proof.
  intros H. unfold yield_now. cbv zeta. change (MAX_CPUS <=? BSP_CPU_ID)%nat with false.
  destruct (Z.leb_spec (task_count (ctr s)) 1); [left; auto|]. destruct (current_task_slot s H) as [t Ht]. unfold current_task in Ht. rewrite Ht.
  set (next := find_next_ready (arr s) (current_of BSP_CPU_ID s) BSP_CPU_ID). destruct (Nat.eqb_spec next (current_of BSP_CPU_ID s)) as [E|Hne]; [left; auto|].
  destruct (next_ok s H Hne) as (Hn & u & Eu & Hact & Hbad). fold next in Hn, Eu, Hbad. rewrite Eu, migrate_id, with_arr_id, Eu by done. right.
  destruct (bad_stack u) eqn:Eb.
  - left. split; [done|]. destruct (decide (next = 0%nat)) as [|Hn0]; [done|]. by specialize (Hbad Hn0).
  - right. exists u. split; [done|]. split; [done|]. split; [done|]. by destruct (switch BSP_CPU_ID _ next u sp s).
Qed.

(** Where the CPU goes on is a frame it can restore. *)
Definition goes_on (o : Outcome) s : Prop := match o with Resumes sp => resumable (mem s) sp = true | _ => True end.

Lemma context_bits sp frame s : context_ok sp frame s -> resumable (store_words sp frame (mem s)) sp = true.
Proof. intros (t & _ & _ & _ & Hl & Hf). by apply frame_resumable. Qed.

(** The interrupt saves the context, then the tick runs. *)
Lemma tick_ok s sp frame busy : sched_ok s -> context_ok sp frame s ->
  let r := schedule_tick BSP_CPU_ID sp busy (with_mem (store_words sp frame (mem s)) s) in sched_ok r.2 /\ goes_on r.1 r.2.
Proof.
  intros H Hc. pose proof (store_context_ok sp frame s H Hc) as H1. pose proof (context_bits sp frame s Hc) as Hres. destruct Hc as (t & Ht & Hin & Hal & _). cbv zeta.
  set (s1 := with_mem (store_words sp frame (mem s)) s) in *. change (store_words sp frame (mem s)) with (mem s1) in Hres.
  destruct (tick_cases s1 sp busy H1) as [[-> _]|(u & Hne & Hu & _ & ->)]; [by split|].
  edestruct (switch_ok (with_ticks_count (u64_add (sys_ticks (ctr s1)) 1) s1)) as (E1 & _ & E2 & E3 & E4 & _);
    [exact H1|exact Ht|exact Hu|by apply not_eq_sym|exact Hin|exact Hal|exact Hres|]. split; [exact E2|]. rewrite E1. unfold goes_on. rewrite E3. exact E4.
Qed.

Lemma yield_ok s sp frame : sched_ok s -> context_ok sp frame s -> let r := yield_now BSP_CPU_ID sp frame s in sched_ok r.2 /\ goes_on r.1 r.2.
Proof.
  intros H Hc. destruct (yield_cases s sp frame H) as [[-> _]|[[-> _]|(u & Hne & Hu & _ & ->)]]; [by split|by split|].
  pose proof (store_context_ok sp frame s H Hc) as H1. pose proof (context_bits sp frame s Hc) as Hres. destruct Hc as (t & Ht & Hin & Hal & _). cbv zeta.
  set (s1 := with_mem (store_words sp frame (mem s)) s) in *. change (store_words sp frame (mem s)) with (mem s1) in Hres.
  edestruct (switch_ok s1) as (E1 & _ & E2 & E3 & E4 & _); [exact H1|exact Ht|exact Hu|by apply not_eq_sym|exact Hin|exact Hal|exact Hres|].
  (* storing the frame before or after the switch is the same *)
  change (with_mem (store_words sp frame (mem (switch BSP_CPU_ID (current_of BSP_CPU_ID s) (find_next_ready (arr s) (current_of BSP_CPU_ID s) BSP_CPU_ID) u sp s).2))
    (switch BSP_CPU_ID (current_of BSP_CPU_ID s) (find_next_ready (arr s) (current_of BSP_CPU_ID s) BSP_CPU_ID) u sp s).2)
    with (switch BSP_CPU_ID (current_of BSP_CPU_ID s1) (find_next_ready (arr s) (current_of BSP_CPU_ID s) BSP_CPU_ID) u sp s1).2. split; [exact E2|].
  cbn [fst switch]. unfold goes_on. cbn [snd]. rewrite E3. exact E4.
Qed.

(** *** Changes of tasks *)

Lemma on_task_ok tid f s : harmless f -> sched_ok s -> sched_ok (on_task tid f s).
Proof. intros Hf [H1 H2]. split; [done|]. by apply Inv_update. Qed.

Lemma on_task_current tid f s : harmless f -> match current_task BSP_CPU_ID s with
  | Some t => exists t', current_task BSP_CPU_ID (on_task tid f s) = Some t' /\ t_id t' = t_id t /\ stack t' = stack t
  | None => current_task BSP_CPU_ID (on_task tid f s) = None end.
Proof.
  intros Hf. unfold current_task. change (current_of BSP_CPU_ID (on_task tid f s)) with (current_of BSP_CPU_ID s). unfold on_task. cbn [arr with_arr]. rewrite slot_change_task.
  destruct (slot _ (arr s)) as [t|]; case_decide; cbn; try done; [|by exists t]. eexists. split; [done|]. destruct (Hf t) as (? & ? & _). done.
Qed.

Lemma context_on_task sp frame tid f s : harmless f -> context_ok sp frame s -> context_ok sp frame (on_task tid f s).
Proof.
  intros Hf (t & Ht & Hin & Hrest). pose proof (on_task_current tid f s Hf) as Hc. rewrite Ht in Hc. destruct Hc as (t' & Ht' & _ & Es). exists t'. split; [done|].
  unfold home, stack_range. by rewrite Es.
Qed.

Lemma same_change_cpu c f s : (forall p, current (f p) = current p) -> same_tasks s (change_cpu c f s).
Proof.
  intros Hf. split; [done|]. split; [|split; [apply cpus_enter|by repeat split]]. unfold current_of, change_cpu. cbn [cpus with_cpus].
  destruct (decide (c = BSP_CPU_ID)) as [->|Hne]; [rewrite list_lookup_alter_eq|by rewrite list_lookup_alter_ne]. destruct (cpus s !! BSP_CPU_ID) as [p|]; [|done]. cbn. apply Hf.
Qed.

(** The slot of the running task, found by its number. *)
Lemma find_current s t : sched_ok s -> current_task BSP_CPU_ID s = Some t -> find_slot (t_id t) (arr s) = Some (current_of BSP_CPU_ID s).
Proof.
  intros [_ H] Ht. destruct (find_slot (t_id t) (arr s)) as [i|] eqn:E.
  - apply find_slot_Some in E as (u & Hu & E). f_equal. by eapply (inv_ids _ _ _ _ _ _ _ H).
  - by destruct (find_slot_None _ _ _ _ E Ht).
Qed.

(** *** Creation *)

(** The tasks there were and their saved contexts are kept, and so is the running task. *)
Record grows s s' : Prop := {
  gr_ok : sched_ok s';
  gr_current : current_of BSP_CPU_ID s' = current_of BSP_CPU_ID s;
  gr_slots i t : slot i (arr s) = Some t -> slot i (arr s') = Some t;
  gr_frames i t : slot i (arr s) = Some t -> i <> current_of BSP_CPU_ID s -> load_words (mem s') (rsp (run t)) 20 = load_words (mem s) (rsp (run t)) 20;
}.

Lemma grows_same s s' : sched_ok s -> same_tasks s s' -> grows s s'.
Proof. intros H Hs. split; [by eapply same_ok|apply Hs|..]; destruct Hs as (E1 & _ & _ & _ & _ & E6 & _); intros i t; rewrite ?E1, ?E6; done. Qed.

Lemma grows_then s s1 s2 : grows s s1 -> same_tasks s1 s2 -> grows s s2.
Proof.
  intros [G1 G2 G3 G4] Hs. pose proof (same_ok _ _ Hs G1) as Hok. destruct Hs as (E1 & E2 & _ & _ & _ & E6 & _). split; [done|by rewrite E2|intros i t; rewrite E1; apply G3|intros i t; rewrite E6; apply G4].
Qed.

(** Contexts of tasks survive writes to a fresh range. *)
Lemma frames_fresh s m r i t : sched_ok s -> fresh_range boot_stack r (arr s) -> (forall x, x < r.1 \/ r.1 + r.2 <= x -> m !! x = mem s !! x) ->
  slot i (arr s) = Some t -> i <> current_of BSP_CPU_ID s -> load_words m (rsp (run t)) 20 = load_words (mem s) (rsp (run t)) 20.
Proof.
  intros [_ H] [Hb Hf] Hm Ht Hi. apply load_words_ext. intros x Hx. apply Hm. destruct (inv_frame _ _ _ _ _ _ _ H i t Ht Hi) as (_ & (r' & Hr' & Hin)%Exists_exists & _).
  unfold inside in Hin. unfold home in Hr'. apply elem_of_cons in Hr' as [->|Hr'].
  - pose proof (Hf i t Ht) as Ha. unfold apart in Ha. lia.
  - destruct (Nat.eqb_spec i 0); [|by apply elem_of_nil in Hr']. apply list_elem_of_singleton in Hr'. subst r'. unfold apart in Hb. lia.
Qed.

Record new_ok s t : Prop := {
  n_cpus : length (cpus s) = MAX_CPUS;
  n_inv : Inv boot_stack (arr s) (current_of BSP_CPU_ID s) (task_count (ctr s)) (t_id t) (mem s) (owned (world s));
  n_next : next_task_id (ctr s) = t_id t + 1;
  n_id : 0 <= t_id t;
  n_state : state (run t) = Ready;
  n_cpu : cpu (run t) = BSP_CPU_ID;
  n_stack : good_stack t;
  n_owned : stack_range t ∈ owned (world s);
  n_fresh : fresh_range boot_stack (stack_range t) (arr s);
  n_rsp : rsp (run t) mod 8 = 0 /\ inside (rsp (run t)) (stack_range t) /\ resumable (mem s) (rsp (run t)) = true;
}.

Lemma range_nonempty t r : good_stack t -> apart r (stack_range t) -> 0 < r.2 -> r <> stack_range t.
Proof. intros [] Ha Hr ->. unfold apart, stack_range, MIN_TASK_STACK, STACK_GUARD in *. cbn in *. lia. Qed.

(** Giving back a stack no task has. *)
Lemma dealloc_fresh a cur n nid m (w w' : W) base size : Inv boot_stack a cur n nid m (owned w) -> fresh_range boot_stack (base, size) a -> 0 < size ->
  (w' = w \/ w' = heap_dealloc base size w) -> Inv boot_stack a cur n nid m (owned w').
Proof.
  intros H [_ Hf] Hs Hw. eapply Inv_own_live; [|exact H]. intros i t Ht. destruct (inv_stack _ _ _ _ _ _ _ H i t Ht) as (G & Ho & _). destruct Hw as [->| ->]; [done|].
  apply dealloc_owned; [done|]. apply not_eq_sym, (range_nonempty t (base, size)); [done|by eapply Hf|done].
Qed.

Lemma count_small a cur n nid m own : Inv boot_stack a cur n nid m own -> 0 <= n <= 128.
Proof.
  intros H. pose proof (live_bound a) as Hb. rewrite (inv_len _ _ _ _ _ _ _ H) in Hb. rewrite (inv_count _ _ _ _ _ _ _ H). unfold MAX_TASKS in Hb. lia.
Qed.

Lemma publish_ok s t : new_ok s t -> sched_ok (publish t s).2 /\ current_of BSP_CPU_ID (publish t s).2 = current_of BSP_CPU_ID s /\
  mem (publish t s).2 = mem s /\ forall i u, slot i (arr s) = Some u -> slot i (arr (publish t s).2) = Some u.
Proof.
  intros [H1 H2 H3 H4 H5 H6 H7 H8 H9 (H10 & H11 & H12)]. pose proof (count_small _ _ _ _ _ _ H2) as Hc. unfold publish. destruct (attach_task (cgroup t) (t_id t) (world s)) as [ok w] eqn:Ea.
  assert (owned (world s) ⊆ owned w) as Hw by (pose proof (attach_owned (cgroup t) (t_id t) (world s)) as Hx; by rewrite Ea in Hx).
  pose proof (Inv_own _ _ _ _ _ _ _ _ Hw H2) as H2'.
  assert (forall s', s' = dealloc_stack (stack_alloc (stack t)) (stack_size (stack t)) (with_world w s) -> sched_ok s' /\ current_of BSP_CPU_ID s' = current_of BSP_CPU_ID s /\ mem s' = mem s /\ forall i u, slot i (arr s) = Some u -> slot i (arr s') = Some u) as Hfail.
  { intros s' ->. unfold dealloc_stack. destruct H7. unfold MIN_TASK_STACK, STACK_GUARD in *.
    assert (forall w', w' = w \/ w' = heap_dealloc (stack_alloc (stack t)) (stack_size (stack t)) w -> sched_ok (with_world w' (with_world w s))) as Hd.
    { intros w' Hw'. split; [done|]. cbn. rewrite H3. eapply Inv_nid; [|eapply dealloc_fresh; [exact H2'|exact H9|lia|done]]. lia. }
    repeat case_if; split; try done; [exact (Hd w ltac:(auto))|exact (Hd _ ltac:(auto))|exact (Hd w ltac:(auto))]. }
  destruct ok; cbn [negb]; [|by apply Hfail]. cbn [arr with_world]. destruct (find_free (arr s)) as [[i a']|] eqn:Ef; [|by apply Hfail]. cbn [snd]. split; [|split; [done|]; split; [done|]; intros j u Hu; destruct (find_free_Some (arr s) i a') as (F1 & _ & F3 & F4); [by rewrite (inv_len _ _ _ _ _ _ _ H2); apply H2|done|];
    cbn [arr add_task_count with_task_count with_ctr with_arr]; rewrite slot_set by (by rewrite F1); rewrite decide_False by (intros ->; congruence); unfold slot in *; by rewrite F1]. split; [done|].
  cbn [arr add_task_count with_task_count with_ctr with_arr with_world ctr task_count next_task_id mem world]. pose proof (inv_count _ _ _ _ _ _ _ H2) as Hn.
  rewrite Z.mod_small by (unfold U32; lia). rewrite H3. destruct H9 as [F1 F2].
  change (current_of BSP_CPU_ID _) with (current_of BSP_CPU_ID s). eapply Inv_add; try done; [lia|by apply Hw].
Qed.

(** A stack of a valid size from the heap. *)
Lemma alloc_stack_ok size s : sched_ok s -> stack_size_is_valid size = true ->
  let r := alloc_stack size s in
  same_tasks s r.2 /\ (r.1 <> 0 -> 0 < r.1 /\ r.1 mod 16 = 0 /\ r.1 + size < U64 /\ (r.1, size) ∈ owned (world r.2) /\ fresh_range boot_stack (r.1, size) (arr s)).
Proof.
  intros [_ H] Hv. cbv zeta. unfold alloc_stack. unfold stack_size_is_valid, MIN_TASK_STACK, STACK_GUARD in Hv. bsplit. destruct (layout_ok size); [|cbn; split; [apply same_refl|done]].
  destruct (heap_alloc size (world s)) as [base w] eqn:E. destruct (alloc_owned size (world s) base w ltac:(lia) E) as [Ho Hn]. cbn [fst snd]. split; [by repeat split|].
  intros Hb. destruct (Hn Hb) as (? & ? & ? & ? & Hall). split; [done|]. split; [done|]. split; [done|]. split; [done|]. rewrite Forall_forall in Hall.
  split; [apply Hall, boot_owned|]. intros i t Ht. apply Hall. by destruct (inv_stack _ _ _ _ _ _ _ H i t Ht) as (_ & ? & _).
Qed.

(** The state just before a new task is published: the stack is taken and its memory written, nothing else of the tasks has changed. *)
Definition staged (base size tid : Z) s s' : Prop :=
  arr s' = arr s /\ current_of BSP_CPU_ID s' = current_of BSP_CPU_ID s /\ length (cpus s') = length (cpus s) /\ task_count (ctr s') = task_count (ctr s) /\
  tid = next_task_id (ctr s) /\ next_task_id (ctr s') = tid + 1 /\ (forall x, x < base \/ base + size <= x -> mem s' !! x = mem s !! x) /\
  owned (world s) ⊆ owned (world s') /\ (base, size) ∈ owned (world s').

Lemma staged_publish base size tid s s' t : sched_ok s -> staged base size tid s s' -> fresh_range boot_stack (base, size) (arr s) ->
  t_id t = tid -> state (run t) = Ready -> cpu (run t) = BSP_CPU_ID -> stack_range t = (base, size) -> good_stack t ->
  rsp (run t) mod 8 = 0 -> inside (rsp (run t)) (base, size) -> resumable (mem s') (rsp (run t)) = true -> 0 <= tid ->
  grows s (publish t s').2.
Proof.
  intros H. pose proof H as [H1 H2]. intros (E1 & E2 & E3 & E4 & E5 & E6 & E7 & E8 & E9) Hf Hid Hst Hcpu Hr Hg Hal Hin Hres H0. destruct (publish_ok s' t) as (P1 & P2 & P3 & P4).
  2:{ split; [done|congruence|intros i u Hu; apply P4; by rewrite E1|]. intros i u. rewrite P3. by apply (frames_fresh s (mem s') (base, size)). }
  split; try done; try congruence.
  - rewrite E1, E2, E4, Hid, E5. eapply Inv_own; [exact E8|]. eapply Inv_fresh_mem; [exact H2|exact Hf|exact E7].
  - split; [done|]. by rewrite Hr.
Qed.

Lemma mod8_16 base : base mod 16 = 0 -> base mod 8 = 0.
Proof. intros H. pose proof (Z.div_mod base 16 ltac:(lia)). rewrite H in *. replace base with (2 * (base / 16) * 8) by lia. apply Z.mod_mul. lia. Qed.

Lemma place_good base size c t : 0 < base -> base mod 16 = 0 -> base + size < U64 -> size mod 8 = 0 -> MIN_TASK_STACK <= size -> good_stack (place base size c t).
Proof.
  intros H1 H2 H3 H4 H5. unfold MIN_TASK_STACK, STACK_GUARD in *. split; cbn [place stack stack_alloc stack_size kernel_rsp_top]; try done.
  - by apply mod8_16.
  - apply u64_add_small. lia.
Qed.

(** The frame area of a stack. *)
Lemma frame_base_eq base size : 0 < base -> base + size < U64 -> MIN_TASK_STACK <= size -> frame_base (u64_add base size) = base + size - STACK_GUARD.
Proof. intros H1 H2 H3. unfold MIN_TASK_STACK, STACK_GUARD, frame_base in *. rewrite u64_add_small by lia. apply u64_sub_small. unfold STACK_GUARD. lia. Qed.


Lemma good_stack_ext t u : stack t = stack u -> good_stack u -> good_stack t.
Proof. intros E []. split; by rewrite E. Qed.

Lemma staged_same base size tid s s1 s2 : staged base size tid s s1 -> same_tasks s1 s2 -> staged base size tid s s2.
Proof.
  intros (E1 & E2 & E3 & E4 & E5 & E6 & E7 & E8 & E9) (F1 & F2 & F3 & F4 & F5 & F6 & F7). unfold staged. rewrite F1, F2, F3, F4, F5, F6.
  repeat split; try done; [by etrans|by apply F7].
Qed.

Lemma staged_write base size tid s s1 m : staged base size tid s s1 -> (forall x, x < base \/ base + size <= x -> m !! x = mem s1 !! x) -> staged base size tid s (with_mem m s1).
Proof.
  intros (E1 & E2 & E3 & E4 & E5 & E6 & E7 & E8 & E9) Hm. repeat split; try done. intros x Hx. cbn. rewrite Hm by done. by apply E7.
Qed.

(** What the constructors do first. *)
Record begun (base size : Z) s s1 : Prop := {
  bg_base : 0 < base;
  bg_align : base mod 8 = 0;
  bg_top : base + size < U64;
  bg_min : MIN_TASK_STACK <= size;
  bg_fresh : fresh_range boot_stack (base, size) (arr s);
  bg_good c t : good_stack (place base size c t);
  bg_frame : frame_base (u64_add base size) = base + size - STACK_GUARD;
  bg_staged : staged base size (next_task_id (ctr s1)) s (take_task_id s1).2;
  bg_id : next_task_id (ctr s1) = next_task_id (ctr s);
}.

Lemma create_begin_ok size s : sched_ok s -> stack_size_is_valid size = true -> size mod 8 = 0 -> 0 <= next_task_id (ctr s) < U64 - 1 ->
  let r := alloc_stack size s in same_tasks s r.2 /\ (r.1 <> 0 -> begun r.1 size s r.2).
Proof.
  intros H Ev Hs8 Hid. pose proof (alloc_stack_ok size s H Ev) as Ha. cbv zeta in *. destruct (alloc_stack size s) as [base s1]. cbn [fst snd] in *. destruct Ha as [Hsame Hfr]. split; [done|].
  intros Hb. destruct (Hfr Hb) as (B1 & B2 & B3 & B4 & B5). assert (MIN_TASK_STACK <= size) as Hmin by (unfold stack_size_is_valid in Ev; by bsplit).
  destruct Hsame as (S1 & S2 & S3 & S4 & S5 & S6 & S7). split; try done; [by apply mod8_16|intros; by apply place_good|by apply frame_base_eq|].
  unfold staged, take_task_id. cbn [snd with_next_id with_ctr arr cpus ctr mem world task_count next_task_id]. split; [done|]. split; [done|]. split; [done|]. split; [done|]. split; [done|]. rewrite S5.
  split; [apply u64_add_small; lia|]. by rewrite S6.
Qed.

(** And last. *)
Lemma finish_ok base size s s1 s2 t sp rest : sched_ok s -> begun base size s s1 -> staged base size (next_task_id (ctr s1)) s s2 -> 0 <= next_task_id (ctr s) ->
  t_id t = next_task_id (ctr s1) -> state (run t) = Ready -> cpu (run t) = BSP_CPU_ID -> stack t = {| stack_alloc := base; stack_size := size; kernel_rsp_top := u64_add base size |} ->
  rsp (run t) = sp -> sp mod 8 = 0 -> inside sp (base, size) -> resumable (mem s2) sp = true -> (forall s, same_tasks s (rest s)) ->
  let r := publish t s2 in
  let s3 := if r.1 then rest r.2 else r.2 in grows s s3.
Proof.
  intros H Hb Hst H0 Hid Hstate Hcpu Hstk <- Hal Hin Hres Hrest. cbv zeta. destruct Hb.
  assert (grows s (publish t s2).2) as P.
  { apply (staged_publish base size _ s s2 t H Hst); try done.
  - unfold stack_range. by rewrite Hstk.
  - eapply (good_stack_ext t (place base size BSP_CPU_ID t)); [exact Hstk|done].
  - lia. }
  destruct (publish t s2) as [[] s3]; cbn [fst snd] in *; [|done]. by eapply grows_then.
Qed.

Lemma create_task_named_ok entry size nm s : sched_ok s -> size mod 8 = 0 -> 0 <= next_task_id (ctr s) < U64 - 1 ->
  grows s (create_task_named BSP_CPU_ID entry size nm s).2.
Proof.
  intros H Hs8 Hid. cbv zeta. unfold create_task_named. destruct (stack_size_is_valid size) eqn:Ev; cbn [negb]; [|by apply grows_same; [|apply same_refl]].
  pose proof (create_begin_ok size s H Ev Hs8 Hid) as Ha. cbv zeta in Ha. destruct (alloc_stack size s) as [base s1]. cbn [fst snd] in Ha. destruct Ha as [Hsame Hbg].
  destruct (Z.eqb_spec base 0) as [|Hb]; [by apply grows_same|]. specialize (Hbg Hb). destruct (take_task_id s1) as [tid s2] eqn:Et. injection Et as <- <-.
  pose proof Hbg as [B1 B2 B3 B4 _ _ B7 B8 _]. rewrite B7. set (f := base + size - STACK_GUARD). set (s2 := with_next_id _ s1).
  assert (f mod 8 = 0) as Hf8 by (unfold f, STACK_GUARD; rewrite Zminus_mod, Zplus_mod, B2, Hs8; done).
  assert ((f - base) mod 8 = 0) as Hc8 by (rewrite Zminus_mod, Hf8, B2; done). unfold MIN_TASK_STACK, STACK_GUARD in B4.
  assert (base + 4096 <= f <= base + size - 32768) as Hf by (unfold f, STACK_GUARD; lia).
  set (m := clear_words base f (store_words f (kernel_frame entry f) (mem s2))).
  assert (resumable m f = true) as Hres.
  { unfold m. rewrite (resumable_ext (store_words f (kernel_frame entry f) (mem s2))) by (intros x Hx; apply clear_words_out; lia). apply frame_resumable; [done|by left]. }
  set (t := with_group _ _). assert (staged base size (next_task_id (ctr s1)) s (with_mem m s2)) as Hst.
  { eapply staged_write; [exact B8|]. intros x Hx. unfold m. rewrite clear_words_out by lia. apply store_words_out. cbn [length kernel_frame app replicate]. lia. }
  pose proof (finish_ok base size s s1 (with_mem m s2) t f (change_cpu BSP_CPU_ID (add_cpu_tasks 1)) H Hbg Hst ltac:(lia) eq_refl eq_refl eq_refl eq_refl eq_refl Hf8 ltac:(split; cbn; lia) Hres
    ltac:(intros; by apply same_change_cpu)) as P. cbv zeta in P. by destruct (publish t (with_mem m s2)) as [[] s3].
Qed.

(** The frame of a task that starts in user mode is below the area of the interrupts. *)
Lemma user_area base size s s1 : begun base size s s1 -> size mod 8 = 0 ->
  let sp := u64_sub (frame_base (u64_add base size)) FRAME_BYTES in
  sp mod 8 = 0 /\ inside sp (base, size) /\ sp = base + size - STACK_GUARD - FRAME_BYTES.
Proof.
  intros [B1 B2 B3 B4 _ _ B7 _ _] Hs8. cbv zeta. rewrite B7. unfold MIN_TASK_STACK, STACK_GUARD, FRAME_BYTES in *. rewrite u64_sub_small by lia.
  split; [|split; [split; cbn; lia|done]]. rewrite Zminus_mod, (Zminus_mod (base + size)), Zplus_mod, B2, Hs8. done.
Qed.

Lemma same_with_spaces v t s : same_tasks s (with_spaces v t s).2 /\ exists u, (with_spaces v t s).1 = with_user_cr3 u (with_cr3 v t).
Proof.
  unfold with_spaces. pose proof (build_owned v (world s)) as Hb. destruct (build_user_view v (world s)) as [view w]. split; [by repeat split|by eexists].
Qed.

Lemma same_user_stack_top u s : same_tasks s (user_stack_top u s).2.
Proof. unfold user_stack_top. destruct (u =? 0); [|apply same_refl]. destruct (get_random_page_aligned _ _ _). by repeat split. Qed.
Lemma same_heap_start u s : same_tasks s (heap_start u s).2.
Proof. unfold heap_start. destruct (negb (u =? 0)); [apply same_refl|]. destruct (get_random_page_aligned _ _ _). by repeat split. Qed.

Lemma create_user_task_ok entry size ursp cr3v brk s : sched_ok s -> size mod 8 = 0 -> 0 <= next_task_id (ctr s) < U64 - 1 ->
  grows s (create_user_task BSP_CPU_ID entry size ursp cr3v brk s).2.
Proof.
  intros H Hs8 Hid. cbv zeta. unfold create_user_task. destruct (valid_entry entry); cbn [negb]; [|by apply grows_same; [|apply same_refl]]. destruct (stack_size_is_valid size) eqn:Ev; cbn [negb]; [|by apply grows_same; [|apply same_refl]].
  pose proof (create_begin_ok size s H Ev Hs8 Hid) as Ha. cbv zeta in Ha. destruct (alloc_stack size s) as [base s1]. cbn [fst snd] in Ha. destruct Ha as [Hsame Hbg].
  destruct (Z.eqb_spec base 0) as [|Hb]; [by apply grows_same|]. specialize (Hbg Hb). pose proof (bg_staged _ _ _ _ Hbg) as Hst. destruct (take_task_id s1) as [tid s2] eqn:Et.
  injection Et as <- _. cbn [snd] in Hst. pose proof (same_user_stack_top ursp s2) as Hu. destruct (user_stack_top ursp s2) as [ursp' s3]. pose proof (same_heap_start brk s3) as Hh.
  destruct (heap_start brk s3) as [brk' s4]. cbn [snd] in Hu, Hh. apply (staged_same _ _ _ _ _ s3) in Hst; [|done]. apply (staged_same _ _ _ _ _ s4) in Hst; [|done].
  destruct (user_area base size s s1 Hbg Hs8) as (A1 & A2 & A3). pose proof Hbg as [B1 B2 B3 B4 _ _ B7 _ _]. set (sp := u64_sub _ FRAME_BYTES) in *. rewrite B7 in *. set (m := store_words sp _ _).
  assert (forall x, x < base \/ base + size <= x -> m !! x = mem s4 !! x) as Hm.
  { intros x Hx. unfold m, MIN_TASK_STACK, STACK_GUARD, FRAME_BYTES in *. rewrite !store_words_out; [done|rewrite length_replicate; change (Z.of_nat (Z.to_nat _)) with 4096; lia|cbn [length user_frame app replicate]; lia]. }
  pose proof (frame_resumable sp (user_frame entry ursp') (store_words (base + size - STACK_GUARD) (replicate (Z.to_nat (STACK_GUARD / 8)) 0) (mem s4)) eq_refl ltac:(by right)) as Hres. fold m in Hres.
  apply (staged_write _ _ _ _ _ m) in Hst; [|exact Hm].
  match goal with |- context [with_spaces cr3v ?t ?x] => pose proof (same_with_spaces cr3v t x) as [Hsp [view Ev']]; destruct (with_spaces cr3v t x) as [t5 s5] end.
  cbn [fst snd] in Hsp, Ev'. subst t5. apply (staged_same _ _ _ _ _ s5) in Hst; [|done]. set (t := with_group _ _).
  assert (resumable (mem s5) sp = true) as Hres5 by (destruct Hsp as (_ & _ & _ & _ & _ & -> & _); exact Hres).
  pose proof (finish_ok base size s s1 s5 t sp (change_cpu BSP_CPU_ID (add_cpu_tasks 1)) H Hbg Hst ltac:(lia) eq_refl eq_refl eq_refl eq_refl eq_refl A1 A2 Hres5 ltac:(intros; by apply same_change_cpu)) as P.
  cbv zeta in P. by destruct (publish t s5) as [[] s6].
Qed.

(** *** Clones *)

Lemma same_fresh_ns flags flag create old s : same_tasks s (fresh_ns flags flag create old s).2.
Proof. unfold fresh_ns. destruct (_ =? 0); [apply same_refl|]. destruct (create (nss s)). by repeat split. Qed.

Lemma same_fresh_mnt flags old s : same_tasks s (fresh_mnt_ns flags old s).2.
Proof.
  unfold fresh_mnt_ns. destruct (_ =? 0); [apply same_refl|]. destruct (mnt_create (nss s)) as [[i|] n]; [|by repeat split].
  pose proof (mnt_owned i (world s)) as Hm. destruct (create_mnt_ns i (world s)) as [ok w]. by repeat split.
Qed.

Lemma same_or_fail r k s : same_tasks s r.2 -> (forall i s1, same_tasks s s1 -> same_tasks s (k i s1).2) -> same_tasks s (or_fail r k).2.
Proof. destruct r as [[i|] s1]; intros H1 H2; cbn in *; [by apply H2|done]. Qed.

Lemma same_namespaces flags n s : same_tasks s (fresh_namespaces flags n s).2.
Proof.
  unfold fresh_namespaces. repeat (apply same_or_fail; [|intros ? ? ?]); first
    [apply same_refl | apply same_fresh_ns | apply same_fresh_mnt | eapply same_trans; [eassumption|apply same_fresh_ns] | eapply same_trans; [eassumption|apply same_fresh_mnt] | assumption].
Qed.

Lemma clone_task_ok flags size entry cr3v ursp brk s : sched_ok s -> size mod 8 = 0 -> 0 <= next_task_id (ctr s) < U64 - 1 ->
  grows s (clone_task BSP_CPU_ID flags size entry cr3v ursp brk s).2.
Proof.
  intros H Hs8 Hid. cbv zeta. unfold clone_task. destruct (stack_size_is_valid size) eqn:Ev; cbn [negb]; [|by apply grows_same; [|apply same_refl]]. destruct (current_task BSP_CPU_ID s) as [parent|]; [|by apply grows_same; [|apply same_refl]].
  destruct (valid_entry entry); cbn [negb]; [|by apply grows_same; [|apply same_refl]].
  pose proof (create_begin_ok size s H Ev Hs8 Hid) as Ha. cbv zeta in Ha. destruct (alloc_stack size s) as [base s1]. cbn [fst snd] in Ha. destruct Ha as [Hsame Hbg].
  destruct (Z.eqb_spec base 0) as [|Hb]; [by apply grows_same|]. specialize (Hbg Hb). pose proof (bg_staged _ _ _ _ Hbg) as Hst. destruct (take_task_id s1) as [tid s2] eqn:Et.
  injection Et as <- Es2. cbn [snd] in Hst. pose proof (same_namespaces flags (ns parent) s2) as Hn. destruct (fresh_namespaces flags (ns parent) s2) as [[n|] s3]; cbn [snd] in Hn |- *.
  2:{ pose proof (staged_same _ _ _ _ _ _ Hst Hn) as (E1 & E2 & E3 & E4 & _ & E6 & _ & E8 & _). pose proof H as [H1 H2].
      assert (mem s3 = mem s) as E7 by (destruct Hn as (_ & _ & _ & _ & _ & -> & _); subst s2; apply Hsame). split; [|done|by rewrite E1|by rewrite E7].
      split; [by rewrite E3|]. rewrite E1, E2, E4, E6, E7. rewrite (bg_id _ _ _ _ Hbg). eapply Inv_nid, Inv_own; [|exact E8|exact H2]. lia. }
  apply (staged_same _ _ _ _ _ s3) in Hst; [|done].
  destruct (user_area base size s s1 Hbg Hs8) as (A1 & A2 & A3). pose proof Hbg as [B1 B2 B3 B4 _ _ B7 _ _]. set (sp := u64_sub _ FRAME_BYTES) in *. set (m := store_words sp _ _).
  pose proof (frame_resumable sp (user_frame entry ursp) (mem s3) eq_refl ltac:(by right)) as Hres. fold m in Hres.
  apply (staged_write _ _ _ _ _ m) in Hst.
  2:{ intros x Hx. unfold m, MIN_TASK_STACK, STACK_GUARD, FRAME_BYTES in *. apply store_words_out. cbn [length user_frame app replicate]. lia. }
  match goal with |- context [with_spaces cr3v ?t ?x] => pose proof (same_with_spaces cr3v t x) as [Hsp [view Ev']]; destruct (with_spaces cr3v t x) as [t5 s5] end.
  cbn [fst snd] in Hsp, Ev'. subst t5. apply (staged_same _ _ _ _ _ s5) in Hst; [|done]. set (t := with_group _ _).
  assert (resumable (mem s5) sp = true) as Hres5 by (destruct Hsp as (_ & _ & _ & _ & _ & -> & _); exact Hres).
  set (rest := fun s => change_cpu BSP_CPU_ID (add_cpu_tasks 1) (if pid_ns n =? NS_ROOT then s else with_nss (with_pids (register_task (pid_ns n) (next_task_id (ctr s1)) (pid_table (nss s))).2 (nss s)) s)).
  pose proof (finish_ok base size s s1 s5 t sp rest H Hbg Hst ltac:(lia) eq_refl eq_refl eq_refl eq_refl eq_refl A1 A2 Hres5) as P. cbv zeta in P.
  destruct (publish t s5) as [[] s6]; cbn [negb fst snd] in *; apply P; intros s7; (eapply same_trans; [|by apply same_change_cpu]); by destruct (_ =? _).
Qed.

(** *** The end of tasks *)

(** As [same_tasks], where the range [r] may have been given back. *)
Definition drops (r : Z * Z) s s' : Prop :=
  arr s' = arr s /\ current_of BSP_CPU_ID s' = current_of BSP_CPU_ID s /\ length (cpus s') = length (cpus s) /\
  task_count (ctr s') = task_count (ctr s) /\ next_task_id (ctr s') = next_task_id (ctr s) /\ mem s' = mem s /\
  forall x, x ∈ owned (world s) -> x <> r -> x ∈ owned (world s').

Lemma drops_same r s s' : same_tasks s s' -> drops r s s'.
Proof. intros (?&?&?&?&?&?&Ho). repeat split; try done. intros x Hx _. by apply Ho. Qed.
Lemma drops_trans r s1 s2 s3 : drops r s1 s2 -> drops r s2 s3 -> drops r s1 s3.
Proof. intros (?&?&?&?&?&?&Ho) (?&?&?&?&?&?&Ho'). repeat split; try congruence. auto. Qed.

Lemma same_world w s : owned (world s) ⊆ owned w -> same_tasks s (with_world w s).
Proof. by repeat split. Qed.
Lemma same_nss n s : same_tasks s (with_nss n s).
Proof. by repeat split. Qed.

Lemma same_leave_ns t s : same_tasks s (leave_ns t s).
Proof. unfold leave_ns. destruct (_ =? _); [apply same_refl|apply same_nss]. Qed.
Lemma same_free_view t s : same_tasks s (free_view t s).
Proof. unfold free_view. case_if; [|apply same_refl]. apply same_world, view_owned. Qed.
Lemma same_free_space c t s : same_tasks s (free_space c t s).
Proof.
  unfold free_space. destruct (_ =? _); [apply same_refl|]. pose proof (space_owned (cr3 (run t)) (from_option pc_cr3 0 (cpus s !! c)) (world s)) as Ho.
  destruct (destroy_address_space _ _ _) as [now w]. eapply same_trans; [by apply same_world|]. by apply same_change_cpu.
Qed.
Lemma drops_free_stack t s : drops (stack_range t) s (free_stack t s).
Proof. unfold free_stack. case_if; [|apply drops_same, same_refl]. repeat split. intros x Hx Hne. by apply dealloc_owned. Qed.

(** At most one task is gone. *)
Record removes s s' : Prop := {
  rm_ok : sched_ok s';
  rm_current : current_of BSP_CPU_ID s' = current_of BSP_CPU_ID s;
  rm_mem : mem s' = mem s;
  rm_slots j : slot j (arr s') = None \/ slot j (arr s') = slot j (arr s);
}.

Lemma removes_none s : sched_ok s -> removes s s.
Proof. intros H. split; auto. Qed.

Lemma removes_from s s1 s' : same_tasks s s1 -> removes s1 s' -> removes s s'.
Proof. intros (E1 & E2 & _ & _ & _ & E6 & _) [R1 R2 R3 R4]. split; [done|congruence|congruence|]. intros j. rewrite <-E1. apply R4. Qed.

Lemma remove_ok i t s s' : sched_ok s -> slot i (arr s) = Some t -> i <> current_of BSP_CPU_ID s ->
  drops (stack_range t) (add_task_count (-1) (with_arr (clear_slot i (arr s)) s)) s' -> removes s s'.
Proof.
  intros [H1 H2] Ht Hi (E1 & E2 & E3 & E4 & E5 & E6 & E7). split; [|exact E2|exact E6|intros j; rewrite E1; apply slot_clear]. split; [by rewrite E3|]. rewrite E1, E2, E4, E5, E6. pose proof (count_small _ _ _ _ _ _ H2) as Hc.
  pose proof (live_two (arr s) i (current_of BSP_CPU_ID s) Hi ltac:(by exists t) (inv_cur _ _ _ _ _ _ _ H2)) as Hl. rewrite (inv_count _ _ _ _ _ _ _ H2) in Hc.
  cbn [arr add_task_count with_task_count with_ctr with_arr ctr task_count next_task_id mem]. rewrite (inv_count _ _ _ _ _ _ _ H2). rewrite Z.mod_small by (unfold U32; lia).
  rewrite <-(inv_count _ _ _ _ _ _ _ H2). eapply Inv_remove; [exact H2|exact Ht|exact Hi|exact E7].
Qed.

Lemma reap_task_ok tid s : sched_ok s -> current_task_id BSP_CPU_ID s <> tid ->
  removes s (reap_task BSP_CPU_ID tid s).
Proof.
  intros H Hne. unfold reap_task. destruct (find_index (reapable tid) (tasks (arr s))) as [i|] eqn:E; [|by apply removes_none]. destruct (slot i (arr s)) as [t|] eqn:Et; [|by apply removes_none].
  apply find_index_Some in E as [(o & Ho & Hp) _]. unfold slot in Et. rewrite Ho in Et. cbn in Et. subst o. cbn in Hp. apply andb_true_iff in Hp as [Hid%Z.eqb_eq _].
  assert (slot i (arr s) = Some t) as Ht by (unfold slot; by rewrite Ho).
  assert (i <> current_of BSP_CPU_ID s) as Hi by (intros ->; apply Hne; unfold current_task_id, current_task; by rewrite Ht).
  pose proof (same_trans _ _ _ (same_leave_ns t s) (same_world _ (leave_ns t s) (detach_owned tid (world (leave_ns t s))))) as Hs1. set (s1 := with_world _ (leave_ns t s)) in *.
  pose proof (same_ok _ _ Hs1 H) as H1. apply (removes_from _ _ _ Hs1). destruct Hs1 as (E1 & E2 & _). apply (remove_ok i t s1); [done|by rewrite E1|by rewrite E2|].
  eapply drops_trans; [|apply drops_free_stack]. eapply drops_trans; [|apply drops_same, same_free_space]. eapply drops_trans; [|apply drops_same, same_free_view].
  pose proof (same_change_cpu (cpu (run t)) (add_cpu_tasks (-1)) (with_arr (clear_slot i (arr s1)) s1) ltac:(done)) as (F1 & F2 & F3 & F4 & F5 & F6 & F7). by repeat split.
Qed.

Lemma kill_task_ok tid s : sched_ok s -> removes s (kill_task BSP_CPU_ID tid s).2.
Proof.
  intros H. unfold kill_task. destruct (tid =? 0); [by apply removes_none|]. destruct (has_tid tid (slot (current_of BSP_CPU_ID s) (arr s))) eqn:Ec; [by apply removes_none|].
  destruct (find_index (killable tid) (tasks (arr s))) as [i|] eqn:E; [|by apply removes_none]. destruct (slot i (arr s)) as [t|] eqn:Et; [|by apply removes_none]. cbn [snd].
  apply find_index_Some in E as [(o & Ho & Hp) _]. unfold slot in Et. rewrite Ho in Et. cbn in Et. subst o. cbn in Hp. apply andb_true_iff in Hp as [Hid _].
  assert (slot i (arr s) = Some t) as Ht by (unfold slot; by rewrite Ho).
  assert (i <> current_of BSP_CPU_ID s) as Hi by (intros ->; rewrite Ht in Ec; cbn in Ec; congruence).
  pose proof (same_trans _ _ _ (same_leave_ns t s) (same_world _ (leave_ns t s) (detach_owned tid (world (leave_ns t s))))) as Hs1. set (s1 := with_world _ (leave_ns t s)) in *.
  pose proof (same_ok _ _ Hs1 H) as H1. apply (removes_from _ _ _ Hs1). destruct Hs1 as (E1 & E2 & _). apply (remove_ok i t s1); [done|by rewrite E1|by rewrite E2|].
  set (s2 := change_cpu _ _ _). assert (drops (stack_range t) s2 (free_space BSP_CPU_ID t (free_view t (free_stack t s2)))) as D.
  { eapply drops_trans; [apply drops_free_stack|]. eapply drops_trans; apply drops_same; [apply same_free_view|apply same_free_space]. }
  pose proof (same_change_cpu (cpu (run t)) (add_cpu_tasks (-1)) (with_arr (clear_slot i (arr s1)) s1) ltac:(done)) as (F1 & F2 & F3 & F4 & F5 & F6 & F7). fold s2 in F1, F2, F3, F4, F5, F6, F7.
  destruct D as (G1 & G2 & G3 & G4 & G5 & G6 & G7). repeat split.
  - etrans; [exact G1|exact F1].
  - etrans; [exact G2|exact F2].
  - etrans; [exact G3|exact F3].
  - cbn [add_task_count with_task_count with_ctr ctr task_count]. by rewrite G4, F4.
  - etrans; [exact G5|exact F5].
  - etrans; [exact G6|exact F6].
  - intros x Hx Hx'. by apply G7; [apply F7|].
Qed.

End states.
