(* ===== verification/SchedMain.v ===== *)
(** The theorems about the scheduler: every sequence of calls keeps its tables well-formed, saved contexts survive, and tasks that can run do run. *)

From S2P Require Import Vma Ns Prelude Bytes Text Task Sched SchedProofs.

Section calls.
Context {W : Type} `{!SchedEnv W} `{!EnvLaws W}.
Implicit Types s : Sched W.

(** ** Calls

    What happens on the CPU that schedules: interrupts of the timer, calls of the running task, and its writes to its own stack. *)

Inductive Call : Type :=
  | Tick (sp : Z) (frame : list Z) (busy : bool)
  | Yield (sp : Z) (frame : list Z)
  | Exit (code sp : Z) (frame : list Z)
  | Spawn (entry size : Z) (nm : bytes)
  | SpawnUser (entry size ursp cr3v brk : Z)
  | Clone (flags size entry cr3v ursp brk : Z)
  | Reap (tid : Z)
  | Kill (tid : Z)
  | Change (tid : Z) (f : Task -> Task)
  | ChangeCr3 (tid v : Z)
  | WaitFor (parent pid : Z)
  | Notified
  | ReapZombies (parent : Z)
  | WriteStack (addr v : Z).

Definition exec (k : Call) s : Outcome * Sched W :=
  match k with
  | Tick sp frame busy => schedule_tick BSP_CPU_ID sp busy (with_mem (store_words sp frame (mem s)) s)
  | Yield sp frame => yield_now BSP_CPU_ID sp frame s
  | Exit code sp frame => exit_current_task BSP_CPU_ID code sp frame s
  | Spawn entry size nm => (Returns, (create_task_named BSP_CPU_ID entry size nm s).2)
  | SpawnUser entry size ursp cr3v brk => (Returns, (create_user_task BSP_CPU_ID entry size ursp cr3v brk s).2)
  | Clone flags size entry cr3v ursp brk => (Returns, (clone_task BSP_CPU_ID flags size entry cr3v ursp brk s).2)
  | Reap tid => (Returns, reap_task BSP_CPU_ID tid s)
  | Kill tid => (Returns, (kill_task BSP_CPU_ID tid s).2)
  | Change tid f => (Returns, on_task tid f s)
  | ChangeCr3 tid v => (Returns, set_task_cr3 tid v s)
  | WaitFor parent pid => (Returns, (wait_for_child parent pid s).2)
  | Notified => (Returns, (check_child_exit_notify s).2)
  | ReapZombies parent => (Returns, reap_zombies_for_parent parent s)
  | WriteStack addr v => (Returns, with_mem (<[addr := v]> (mem s)) s)
  end.

(** When a call can happen: contexts are saved on the stack of the running task, which writes to no other stack; stacks have whole
    words; tasks are not reaped while they run, and the numbers of tasks do not wrap. *)
Definition allowed (k : Call) s : Prop :=
  match k with
  | Tick sp frame _ | Yield sp frame | Exit _ sp frame => context_ok sp frame s
  | Spawn _ size _ | SpawnUser _ size _ _ _ | Clone _ size _ _ _ _ => size mod 8 = 0 /\ next_task_id (ctr s) < U64 - 1
  | Reap tid => current_task_id BSP_CPU_ID s <> tid
  | Change _ f => harmless f
  | WriteStack addr _ => exists t, current_task BSP_CPU_ID s = Some t /\ Exists (fun r => r.1 <= addr /\ addr + 8 <= r.1 + r.2) (home boot_stack (current_of BSP_CPU_ID s) t)
  | _ => True
  end.

Lemma next_id_pos s : sched_ok s -> 0 <= next_task_id (ctr s).
Proof. intros [_ H]. destruct (inv_cur _ _ _ _ _ _ _ H) as [t Ht]. pose proof (inv_bound _ _ _ _ _ _ _ H _ _ Ht). lia. Qed.

(** ** Setters of the scheduler are harmless *)

Lemma harmless_deliver n : harmless (fun t => wake (deliver_signal n t)).
Proof. intros t. unfold wake. destruct (state (run (deliver_signal n t))) eqn:E; cbn in *; repeat split; congruence. Qed.
Lemma harmless_state st : st <> Running -> harmless (with_state st).
Proof. intros H t. cbn. repeat split. congruence. Qed.
Lemma harmless_exit code : harmless (fun t => with_exit_code code (with_state Terminated t)).
Proof. intros t. cbn. repeat split. congruence. Qed.
Lemma harmless_caps v : harmless (fun t => let c := cred t in with_cred {| uid := uid c; gid := gid c; euid := euid c; egid := egid c; no_new_privs := no_new_privs c; seccomp_mode := seccomp_mode c; seccomp_allowed := seccomp_allowed c; caps := v |} t).
Proof. by intros t. Qed.
Lemma harmless_spaces v view : harmless (fun t => with_user_cr3 view (with_cr3 v t)).
Proof. by intros t. Qed.

(** ** What calls keep of suspended tasks *)

Definition same_context s s' (t t' : Task) : Prop :=
  t_id t' = t_id t /\ rsp (run t') = rsp (run t) /\ user_rsp (run t') = user_rsp (run t) /\ stack t' = stack t /\
  load_words (mem s') (rsp (run t)) 20 = load_words (mem s) (rsp (run t)) 20.

Definition keeps s s' : Prop := forall i t, slot i (arr s) = Some t -> i <> current_of BSP_CPU_ID s -> i <> current_of BSP_CPU_ID s' ->
  slot i (arr s') = None \/ exists t', slot i (arr s') = Some t' /\ same_context s s' t t'.

Lemma keeps_grows s s' : grows s s' -> keeps s s'.
Proof. intros [_ _ G3 G4] i t Ht Hi _. right. exists t. split; [by apply G3|]. repeat split. by eapply G4. Qed.

Lemma keeps_same s s' : sched_ok s -> same_tasks s s' -> keeps s s'.
Proof. intros H Hs. by apply keeps_grows, grows_same. Qed.

(** Writes to the running task's stack spare the contexts of the others. *)
Lemma frames_write s t r addr ws i u : sched_ok s -> current_task BSP_CPU_ID s = Some t -> r ∈ home boot_stack (current_of BSP_CPU_ID s) t ->
  r.1 <= addr -> addr + 8 * Z.of_nat (length ws) <= r.1 + r.2 -> slot i (arr s) = Some u -> i <> current_of BSP_CPU_ID s ->
  load_words (store_words addr ws (mem s)) (rsp (run u)) 20 = load_words (mem s) (rsp (run u)) 20.
Proof.
  intros [_ H] Ht Hr H1 H2 Hu Hi. destruct (inv_frame _ _ _ _ _ _ _ H i u Hu Hi) as (_ & (r' & Hr' & Hin)%Exists_exists & _).
  apply load_words_ext. intros x Hx. apply store_words_out. unfold inside in Hin.
  pose proof (homes_apart _ _ _ _ _ _ _ _ i t u r r' H Ht Hu ltac:(done) Hr Hr') as Ha. unfold apart in Ha. lia.
Qed.

Lemma frames_context s sp frame i u : sched_ok s -> context_ok sp frame s -> slot i (arr s) = Some u -> i <> current_of BSP_CPU_ID s ->
  load_words (store_words sp frame (mem s)) (rsp (run u)) 20 = load_words (mem s) (rsp (run u)) 20.
Proof.
  intros H (t & Ht & (r & Hr & Hin)%Exists_exists & _ & Hl & _) Hu Hi. unfold inside in Hin. eapply frames_write; [exact H|exact Ht|exact Hr|lia| |exact Hu|exact Hi]. rewrite Hl. lia.
Qed.

(** A switch changes two tasks. *)
Lemma keeps_switch s s' cur next sp raw ur t u : cur = current_of BSP_CPU_ID s -> slot cur (arr s) = Some t -> slot next (arr s) = Some u -> cur <> next ->
  arr s' = switched cur next sp raw ur (arr s) ->
  (forall i x, slot i (arr s) = Some x -> i <> cur -> load_words (mem s') (rsp (run x)) 20 = load_words (mem s) (rsp (run x)) 20) ->
  current_of BSP_CPU_ID s' = next -> keeps s s'.
Proof.
  intros -> Ht Hu Hne Ha Hm Hc i x Hx Hi Hi'. right. exists x. rewrite Ha. rewrite (slot_switched _ _ _ _ _ _ t u i Hne Ht Hu), !decide_False by congruence.
  split; [done|]. repeat split. by apply (Hm i).
Qed.

Lemma tick_keeps s sp frame busy : sched_ok s -> context_ok sp frame s -> keeps s (exec (Tick sp frame busy) s).2.
Proof.
  intros H Hc. pose proof (store_context_ok sp frame s H Hc) as H1. pose proof (context_bits sp frame s Hc) as Hres. pose proof (fun i u => frames_context s sp frame i u H Hc) as Hfr.
  destruct Hc as (t & Ht & Hin & Hal & _). cbn [exec]. set (s1 := with_mem (store_words sp frame (mem s)) s) in *.
  destruct (tick_cases s1 sp busy H1) as [[-> _]|(u & Hne & Hu & _ & ->)].
  - intros i x Hx Hi _. right. exists x. split; [done|]. repeat split. by apply (Hfr i).
  - edestruct (switch_ok (with_ticks_count (u64_add (sys_ticks (ctr s1)) 1) s1)) as (_ & E1 & _ & E3 & _ & E5);
      [exact H1|exact Ht|exact Hu|by apply not_eq_sym|exact Hin|exact Hal|exact Hres|].
    eapply keeps_switch; [done|exact Ht|exact Hu|by apply not_eq_sym|exact E5| |exact E1]. intros i x Hx Hi. rewrite E3. by apply (Hfr i).
Qed.

Lemma yield_keeps s sp frame : sched_ok s -> context_ok sp frame s -> keeps s (yield_now BSP_CPU_ID sp frame s).2.
Proof.
  intros H Hc. pose proof (store_context_ok sp frame s H Hc) as H1. pose proof (context_bits sp frame s Hc) as Hres. pose proof (fun i u => frames_context s sp frame i u H Hc) as Hfr.
  destruct (yield_cases s sp frame H) as [[-> _]|[[-> _]|(u & Hne & Hu & _ & ->)]]; [by apply keeps_same; [|apply same_refl]..|].
  destruct Hc as (t & Ht & Hin & Hal & _). set (s1 := with_mem (store_words sp frame (mem s)) s) in *.
  edestruct (switch_ok s1) as (_ & E1 & _ & E3 & _ & E5); [exact H1|exact Ht|exact Hu|by apply not_eq_sym|exact Hin|exact Hal|exact Hres|].
  eapply keeps_switch; [done|exact Ht|exact Hu|by apply not_eq_sym|exact E5| |exact E1]. intros i x Hx Hi. by apply (Hfr i).
Qed.

(** *** The end of the running task *)

Lemma mark_exit_on_task s t code : sched_ok s -> current_task BSP_CPU_ID s = Some t ->
  exists s1, same_tasks (on_task (t_id t) (fun t => with_exit_code code (with_state Terminated t)) s) s1 /\ mark_exit BSP_CPU_ID code t s = signal_deliver (parent_pid t) SIGCHLD s1.
Proof.
  intros H Ht. unfold mark_exit. eexists. split; [|done]. pose proof (find_current s t H Ht) as Hf. unfold on_task, change_task. rewrite Hf. repeat split. apply detach_owned.
Qed.

Lemma context_same sp frame s s' : same_tasks s s' -> context_ok sp frame s -> context_ok sp frame s'.
Proof. intros (E1 & E2 & _) (t & Ht & Hrest). exists t. unfold current_task in *. by rewrite E1, E2. Qed.

Lemma mark_exit_ok s t code sp frame : sched_ok s -> current_task BSP_CPU_ID s = Some t -> context_ok sp frame s ->
  let s' := mark_exit BSP_CPU_ID code t s in sched_ok s' /\ context_ok sp frame s' /\ current_of BSP_CPU_ID s' = current_of BSP_CPU_ID s.
Proof.
  intros H Ht Hc. destruct (mark_exit_on_task s t code H Ht) as (s1 & Hs & ->). pose proof (harmless_exit code) as Hh. pose proof (harmless_deliver SIGCHLD) as Hd.
  pose proof (same_ok _ _ Hs (on_task_ok (t_id t) _ s Hh H)) as H1. pose proof (context_same _ _ _ _ Hs (context_on_task sp frame (t_id t) _ s Hh Hc)) as Hc1.
  split; [by apply on_task_ok|]. split; [by apply context_on_task|]. apply (proj1 (proj2 Hs)).
Qed.

(** Changes of tasks compose with what follows. *)
Lemma keeps_on_task tid f s s' : harmless f -> keeps (on_task tid f s) s' -> keeps s s'.
Proof.
  intros Hf Hk i t Ht Hi Hi'. destruct (Hk i (if decide (find_slot tid (arr s) = Some i) then f t else t)) as [Hn|(t' & Ht' & K1 & K2 & K3 & K4 & K5)]; [|done|done|by left|].
  - unfold on_task. cbn [arr with_arr]. rewrite slot_change_task, Ht. by case_decide.
  - right. exists t'. split; [done|]. case_decide; [|by repeat split]. destruct (Hf t) as (F1 & F2 & F3 & F4 & F5 & _). rewrite F3 in *. repeat split; try congruence. exact K5.
Qed.

Lemma keeps_from_same s s1 s' : same_tasks s s1 -> keeps s1 s' -> keeps s s'.
Proof.
  intros (E1 & E2 & _ & _ & _ & E6 & _) Hk i t Ht Hi Hi'. destruct (Hk i t) as [Hn|(t' & Ht' & K)]; [by rewrite E1|by rewrite E2|done|by left|]. right. exists t'. split; [done|].
  unfold same_context in *. by rewrite <-E6.
Qed.

Lemma exit_ok s code sp frame : sched_ok s -> context_ok sp frame s ->
  let r := exit_current_task BSP_CPU_ID code sp frame s in sched_ok r.2 /\ goes_on r.1 r.2 /\ keeps s r.2.
Proof.
  intros H Hc. unfold exit_current_task. destruct (current_task_slot s H) as [t Ht]. rewrite Ht. destruct (mark_exit_ok s t code sp frame H Ht Hc) as (H1 & Hc1 & _).
  destruct (yield_ok _ sp frame H1 Hc1) as [H2 H3]. split; [done|]. split; [done|]. pose proof (yield_keeps _ sp frame H1 Hc1) as Hk. revert Hk.
  destruct (mark_exit_on_task s t code H Ht) as (s1 & Hs & ->). intros Hk. apply keeps_on_task in Hk; [|apply harmless_deliver]. eapply keeps_from_same in Hk; [|exact Hs].
  eapply keeps_on_task; [apply (harmless_exit code)|exact Hk].
Qed.

(** *** Removal *)

Lemma keeps_removes s s' : removes s s' -> keeps s s'.
Proof. intros [_ _ Em Hs] j t Ht _ _. destruct (Hs j) as [Hn|He]; [by left|right]. exists t. rewrite He. split; [done|]. repeat split. by rewrite Em. Qed.

Lemma set_view_ok tid v s : sched_ok s -> sched_ok (set_view tid v s) /\ keeps s (set_view tid v s).
Proof.
  intros H. unfold set_view. destruct (get_task tid s); [|split; [done|by apply keeps_same; [|apply same_refl]]]. pose proof (build_owned v (world s)) as Hb.
  destruct (build_user_view v (world s)) as [view w]. pose proof (same_world w s Hb) as Hs. pose proof (same_ok _ _ Hs H) as H1. split; [by apply on_task_ok; [apply harmless_spaces|]|].
  eapply keeps_from_same; [exact Hs|]. eapply keeps_on_task; [apply (harmless_spaces v (default v view))|]. apply keeps_same; [by apply on_task_ok; [apply harmless_spaces|]|apply same_refl].
Qed.

Lemma set_task_cr3_ok tid v s : sched_ok s -> sched_ok (set_task_cr3 tid v s) /\ keeps s (set_task_cr3 tid v s).
Proof.
  intros H. unfold set_task_cr3. destruct (get_task tid s) as [t|]; [|split; [done|by apply keeps_same; [|apply same_refl]]]. case_if; [|by apply set_view_ok].
  pose proof (same_world _ s (view_owned (user_cr3 (run t)) (world s))) as Hs. destruct (set_view_ok tid v _ (same_ok _ _ Hs H)) as [K1 K2]. split; [done|]. by eapply keeps_from_same.
Qed.

(** ** Every call *)

Lemma exec_ok k s : sched_ok s -> allowed k s -> sched_ok (exec k s).2 /\ goes_on (exec k s).1 (exec k s).2 /\ keeps s (exec k s).2.
Proof.
  intros H Ha. assert (forall s', same_tasks s s' -> sched_ok s' /\ True /\ keeps s s') as Hsame by (intros s' Hs; split; [by eapply same_ok|]; split; [done|by apply keeps_same]).
  assert (forall s', grows s s' -> sched_ok s' /\ True /\ keeps s s') as Hgrows by (intros s' Hg; split; [apply Hg|]; split; [done|by apply keeps_grows]).
  assert (forall s', removes s s' -> sched_ok s' /\ True /\ keeps s s') as Hrem by (intros s' Hg; split; [apply Hg|]; split; [done|by apply keeps_removes]).
  pose proof (next_id_pos s H) as Hn. destruct k; cbn [exec allowed fst snd] in *; unfold goes_on at 1.
  - destruct (tick_ok s sp frame busy H Ha) as [H1 H2]. split; [done|]. split; [done|]. by apply tick_keeps.
  - destruct (yield_ok s sp frame H Ha) as [H1 H2]. split; [done|]. split; [done|]. by apply yield_keeps.
  - by apply exit_ok.
  - apply Hgrows, create_task_named_ok; [done|apply Ha|lia].
  - apply Hgrows, create_user_task_ok; [done|apply Ha|lia].
  - apply Hgrows, clone_task_ok; [done|apply Ha|lia].
  - by apply Hrem, reap_task_ok.
  - by apply Hrem, kill_task_ok.
  - split; [by apply on_task_ok|]. split; [done|]. apply (keeps_on_task tid f); [done|]. apply keeps_same; [by apply on_task_ok|apply same_refl].
  - destruct (set_task_cr3_ok tid v s H). done.
  - apply Hsame. unfold wait_for_child. destruct (if any_child pid then _ else _). by repeat split.
  - apply Hsame. by repeat split.
  - apply Hsame. by repeat split.
  - destruct Ha as (t & Ht & (r & Hr & H1 & H2)%Exists_exists). split; [|split; [done|]].
    + split; [apply H|]. cbn. destruct H as [_ H]. apply (Inv_write _ _ _ _ _ _ _ t r addr [v] H Ht Hr); cbn; lia.
    + intros i x Hx Hi _. right. exists x. split; [done|]. repeat split. apply (frames_write s t r addr [v] i x H Ht Hr); try done; cbn; lia.
Qed.

(** *** The start *)

Definition booted (cr3v idle : Z) (n : NsSys) (w : W) : Sched W := init_sched BSP_CPU_ID idle (boot_sched cr3v n w).

Lemma slot_boot i : slot i new_array = None.
Proof. unfold slot, new_array. cbn [tasks]. destruct (replicate MAX_TASKS None !! i) as [o|] eqn:E; [|done]. apply lookup_replicate in E as [-> _]. done. Qed.

Lemma live_boot : live_count new_array = 0%nat.
Proof. done. Qed.

Lemma booted_ok cr3v idle n w : (heap_alloc IDLE_STACK w).1 <> 0 -> sched_ok (booted cr3v idle n w).
Proof.
  intros Hb. unfold booted, init_sched, alloc_stack. change (layout_ok IDLE_STACK) with true. cbn [world boot_sched].
  destruct (heap_alloc IDLE_STACK w) as [base w'] eqn:E. cbn [fst] in Hb. destruct (alloc_owned IDLE_STACK w base w' ltac:(done) E) as [_ Hn]. destruct (Hn Hb) as (B1 & B2 & B3 & B4 & B5).
  set (t := with_cr3 _ _). split; [done|]. cbn [arr with_task_count with_ctr with_arr ctr task_count next_task_id mem world with_mem with_world boot_sched].
  change (current_of BSP_CPU_ID _) with 0%nat.
  assert (forall j, slot j (set_slot 0 (Some t) new_array) = if decide (j = 0%nat) then Some t else None) as Hs by (intros j; rewrite slot_set by (unfold MAX_TASKS; cbn; lia); by rewrite slot_boot).
  assert (forall j u, slot j (set_slot 0 (Some t) new_array) = Some u -> j = 0%nat /\ u = t) as Hu by (intros j u; rewrite Hs; case_decide; [by intros [= <-]|done]).
  assert (good_stack t) as Hg by (eapply (good_stack_ext t (place base IDLE_STACK 0 t)); [done|by apply place_good]).
  split.
  - done.
  - cbn. lia.
  - rewrite Hs, decide_True by done. by eexists.
  - intros i j x y [-> _]%Hu [-> _]%Hu. done.
  - intros i x [_ ->]%Hu. cbn. lia.
  - done.
  - intros i x [-> _]%Hu. done.
  - intros i x [_ ->]%Hu. done.
  - intros i x [_ ->]%Hu. split; [done|]. split; [done|]. rewrite Forall_forall in B5. apply B5, boot_owned.
  - intros i j x y [-> _]%Hu [-> _]%Hu. done.
  - intros i x [-> _]%Hu. done.
Qed.

Inductive reachable : Sched W -> Prop :=
  | reach_boot cr3v idle n w : (heap_alloc IDLE_STACK w).1 <> 0 -> reachable (booted cr3v idle n w)
  | reach_call k s : reachable s -> allowed k s -> reachable (exec k s).2.

Lemma reachable_ok s : reachable s -> sched_ok s.
Proof. induction 1; [by apply booted_ok|by apply exec_ok]. Qed.

(** ** Sequences of calls *)

Definition exec_all (ks : list Call) s : Sched W := foldl (fun s k => (exec k s).2) s ks.

(** [P] holds before each call, each of which can happen, and after the last. *)
Fixpoint along (P : Sched W -> Prop) (ks : list Call) s : Prop :=
  P s /\ match ks with [] => True | k :: ks => allowed k s /\ along P ks (exec k s).2 end.

Lemma along_end P ks s : along P ks s -> P (exec_all ks s).
Proof. revert s. induction ks as [|k ks IH]; intros s; cbn; [by intros []|]. intros (_ & _ & H). by apply IH. Qed.

Lemma along_ok P ks s : sched_ok s -> along P ks s -> sched_ok (exec_all ks s).
Proof. revert s. induction ks as [|k ks IH]; intros s H; cbn; [done|]. intros (_ & Ha & Hal). apply IH; [by apply exec_ok|done]. Qed.

(** *** Going back to a task *)

Definition switches (k : Call) : bool := match k with Tick _ _ _ | Yield _ _ | Exit _ _ _ => true | _ => false end.

Lemma exec_current k s : sched_ok s -> allowed k s -> switches k = false -> current_of BSP_CPU_ID (exec k s).2 = current_of BSP_CPU_ID s.
Proof.
  intros H Ha Hk. pose proof (next_id_pos s H) as Hn. destruct k; cbn [exec allowed switches snd] in *; try done.
  - eapply gr_current, create_task_named_ok; [done|apply Ha|lia].
  - eapply gr_current, create_user_task_ok; [done|apply Ha|lia].
  - eapply gr_current, clone_task_ok; [done|apply Ha|lia].
  - by apply rm_current, reap_task_ok.
  - by apply rm_current, kill_task_ok.
  - unfold set_task_cr3, set_view. destruct (get_task tid s); [|done]. case_if; repeat (destruct (get_task _ _)); try done; by destruct (build_user_view v _).
  - unfold wait_for_child. by destruct (if any_child pid then _ else _).
Qed.

Lemma user_rsp_enter next u raw s : (BSP_CPU_ID < length (cpus s))%nat -> user_rsp_of BSP_CPU_ID (change_cpu BSP_CPU_ID (enter next u raw) s) = user_rsp (run u).
Proof.
  intros Hl. unfold user_rsp_of, change_cpu. cbn [cpus with_cpus]. rewrite list_lookup_alter_eq. by destruct (lookup_lt_is_Some_2 _ _ Hl) as [p ->].
Qed.

(** What the CPU finds when it goes on with a task. *)
Definition continues (k : Call) s (t : Task) : Prop :=
  (exec k s).1 = Resumes (rsp (run t)) /\ load_words (mem (exec k s).2) (rsp (run t)) 20 = load_words (mem s) (rsp (run t)) 20 /\
  user_rsp_of BSP_CPU_ID (exec k s).2 = user_rsp (run t).

Lemma tick_continues s sp frame busy i t : sched_ok s -> context_ok sp frame s -> i <> current_of BSP_CPU_ID s -> slot i (arr s) = Some t ->
  current_of BSP_CPU_ID (exec (Tick sp frame busy) s).2 = i -> continues (Tick sp frame busy) s t.
Proof.
  intros H Hc Hi Ht. pose proof (store_context_ok sp frame s H Hc) as H1. pose proof (frames_context s sp frame i t H Hc Ht Hi) as Hfr.
  pose proof (context_bits sp frame s Hc) as Hres. destruct Hc as (x & Hx & Hin & Hal & _).
  unfold continues. cbn [exec]. set (s1 := with_mem (store_words sp frame (mem s)) s) in *.
  destruct (tick_cases s1 sp busy H1) as [[-> _]|(u & Hne & Hu & _ & ->)]; [cbn; intros <-; by destruct Hi|].
  edestruct (switch_ok (with_ticks_count (u64_add (sys_ticks (ctr s1)) 1) s1)) as (E0 & E1 & _ & E3 & _ & E5);
    [exact H1|exact Hx|exact Hu|by apply not_eq_sym|exact Hin|exact Hal|exact Hres|]. rewrite E0, E1, E3. intros Ei. rewrite Ei in Hu. change (arr s1) with (arr s) in Hu. rewrite Ht in Hu. injection Hu as <-.
  split; [done|]. split; [exact Hfr|]. apply user_rsp_enter. cbn. destruct H as [-> _]. unfold MAX_CPUS, BSP_CPU_ID. lia.
Qed.

Lemma yield_continues s sp frame i t : sched_ok s -> context_ok sp frame s -> i <> current_of BSP_CPU_ID s -> slot i (arr s) = Some t ->
  current_of BSP_CPU_ID (exec (Yield sp frame) s).2 = i -> continues (Yield sp frame) s t.
Proof.
  intros H Hc Hi Ht. pose proof (frames_context s sp frame i t H Hc Ht Hi) as Hfr. unfold continues. cbn [exec].
  destruct (yield_cases s sp frame H) as [[-> _]|[[-> _]|(u & Hne & Hu & _ & ->)]]; [intros <-; by destruct Hi..|]. intros Ei.
  pose proof (store_context_ok sp frame s H Hc) as H1. pose proof (context_bits sp frame s Hc) as Hres. destruct Hc as (x & Hx & Hin & Hal & _).
  edestruct (switch_ok (with_mem (store_words sp frame (mem s)) s)) as (E0 & E1 & _); [exact H1|exact Hx|exact Hu|by apply not_eq_sym|exact Hin|exact Hal|exact Hres|].
  assert (find_next_ready (arr s) (current_of BSP_CPU_ID s) BSP_CPU_ID = i) as En by (etrans; [symmetry; exact E1|exact Ei]). rewrite En in *. rewrite Ht in Hu. injection Hu as <-.
  split; [done|]. split; [exact Hfr|]. apply user_rsp_enter. cbn. destruct H as [-> _]. unfold MAX_CPUS, BSP_CPU_ID. lia.
Qed.

(** The other tasks, after the running one is marked as gone. *)
Lemma mark_exit_others s t code i u : sched_ok s -> current_task BSP_CPU_ID s = Some t -> i <> current_of BSP_CPU_ID s -> slot i (arr s) = Some u ->
  exists u', slot i (arr (mark_exit BSP_CPU_ID code t s)) = Some u' /\ rsp (run u') = rsp (run u) /\ user_rsp (run u') = user_rsp (run u) /\
    cpu (run u') = cpu (run u) /\ (is_active u = true -> is_active u' = true) /\ mem (mark_exit BSP_CPU_ID code t s) = mem s.
Proof.
  intros H Ht Hi Hu. destruct (mark_exit_on_task s t code H Ht) as (s1 & (E1 & _ & _ & _ & _ & E6 & _) & ->). unfold signal_deliver, on_task. cbn [arr with_arr mem]. rewrite slot_change_task, E1.
  assert (slot i (arr (on_task (t_id t) (fun t => with_exit_code code (with_state Terminated t)) s)) = Some u) as Hs.
  { unfold on_task. cbn [arr with_arr]. rewrite slot_change_task, decide_False; [done|]. rewrite (find_current s t H Ht). congruence. }
  rewrite Hs. case_decide; [|by exists u]. eexists. split; [done|]. destruct (harmless_deliver SIGCHLD u) as (_ & _ & F3 & F4 & F5 & _). repeat split; try done.
  unfold is_active, wake. cbn. destruct (state (run u)) eqn:Es; cbn; rewrite ?Es; done.
Qed.

Lemma exec_continues k s i t : sched_ok s -> allowed k s -> i <> current_of BSP_CPU_ID s -> slot i (arr s) = Some t ->
  current_of BSP_CPU_ID (exec k s).2 = i -> continues k s t.
Proof.
  intros H Ha Hi Ht Hc. destruct (switches k) eqn:Ek; [|by rewrite (exec_current k s H Ha Ek) in Hc].
  destruct k; try done; [by eapply tick_continues|by eapply yield_continues|]. cbn [allowed] in Ha. destruct (current_task_slot s H) as [x Hx].
  destruct (mark_exit_ok s x code sp frame H Hx Ha) as (H1 & Hc1 & Hcur). destruct (mark_exit_others s x code i t H Hx Hi Ht) as (u & Hu & E1 & E2 & _ & _ & E5).
  unfold continues. cbn [exec] in *. unfold exit_current_task in *. rewrite Hx in *.
  destruct (yield_continues (mark_exit BSP_CPU_ID code x s) sp frame i u H1 Hc1 ltac:(by rewrite Hcur) Hu Hc) as (C1 & C2 & C3). cbn [exec] in *. by rewrite E1, E2, E5 in *.
Qed.

(** A task that stays and is not run keeps its context. *)
Definition stays (i : nat) (tid : Z) s : Prop := i <> current_of BSP_CPU_ID s /\ exists t, slot i (arr s) = Some t /\ t_id t = tid.

Lemma along_context ks i : forall s t, sched_ok s -> slot i (arr s) = Some t -> along (stays i (t_id t)) ks s ->
  exists t', slot i (arr (exec_all ks s)) = Some t' /\ same_context s (exec_all ks s) t t'.
Proof.
  induction ks as [|k ks IH]; intros s t H Ht Hal; [by exists t|]. destruct Hal as ([Hi _] & Ha & Hal). destruct (exec_ok k s H Ha) as (H1 & _ & Hk).
  assert (stays i (t_id t) (exec k s).2) as [Hi' (u & Hu & _)] by (destruct ks; apply Hal). destruct (Hk i t Ht Hi Hi') as [Hn|(t1 & Ht1 & K1 & K2 & K3 & K4 & K5)]; [by rewrite Hn in Hu|].
  rewrite <-K1 in Hal. destruct (IH (exec k s).2 t1 H1 Ht1 Hal) as (t' & Ht' & L1 & L2 & L3 & L4 & L5). exists t'. split; [done|].
  rewrite K2 in L5. repeat split; try congruence. etrans; [exact L5|exact K5].
Qed.

(** *** Turns *)

Definition runnable (i : nat) s : Prop := (1 <= i < MAX_TASKS)%nat /\ exists t, slot i (arr s) = Some t /\ is_active t = true.

Lemma runs_on_active s i t : sched_ok s -> slot i (arr s) = Some t -> is_active t = true -> runs_on BSP_CPU_ID (slot i (arr s)) = true.
Proof. intros [_ H] Ht Ha. rewrite Ht. cbn. rewrite Ha, (inv_cpu _ _ _ _ _ _ _ H i t Ht). done. Qed.

Lemma yield_turn s sp frame i : sched_ok s -> context_ok sp frame s -> runnable i s -> i <> current_of BSP_CPU_ID s ->
  let cur' := current_of BSP_CPU_ID (yield_now BSP_CPU_ID sp frame s).2 in cur' = i \/ (turns cur' i <= turns (current_of BSP_CPU_ID s) i)%nat.
Proof.
  intros H Hc (Hi & t & Ht & Hact) Hne. pose proof H as [_ Hinv]. pose proof (inv_cur_lt _ _ _ _ _ _ _ Hinv) as Hlt.
  destruct (next_ready_nearest (arr s) (current_of BSP_CPU_ID s) BSP_CPU_ID i Hlt Hi Hne (runs_on_active s i t H Ht Hact)) as (N1 & N2 & _ & N4).
  destruct (yield_cases s sp frame H) as [[-> _]|[[-> _]|(u & _ & Hu & _ & ->)]]; [right; done..|].
  pose proof (store_context_ok sp frame s H Hc) as H1. pose proof (context_bits sp frame s Hc) as Hres. destruct Hc as (x & Hx & Hin & Hal & _).
  edestruct (switch_ok (with_mem (store_words sp frame (mem s)) s)) as (_ & E1 & _); [exact H1|exact Hx|exact Hu|by apply not_eq_sym|exact Hin|exact Hal|exact Hres|].
  match goal with |- let cur' := ?c in _ => assert (c = find_next_ready (arr s) (current_of BSP_CPU_ID s) BSP_CPU_ID) as Ec by exact E1 end. cbv zeta. rewrite Ec.
  destruct N4; [by left|right; lia].
Qed.

Lemma tick_turn s sp frame i : sched_ok s -> context_ok sp frame s -> runnable i s -> i <> current_of BSP_CPU_ID s ->
  let cur' := current_of BSP_CPU_ID (exec (Tick sp frame false) s).2 in cur' = i \/ (turns cur' i < turns (current_of BSP_CPU_ID s) i)%nat.
Proof.
  intros H Hc (Hi & t & Ht & Hact) Hne. pose proof H as [_ Hinv]. pose proof (inv_cur_lt _ _ _ _ _ _ _ Hinv) as Hlt.
  destruct (next_ready_nearest (arr s) (current_of BSP_CPU_ID s) BSP_CPU_ID i Hlt Hi Hne (runs_on_active s i t H Ht Hact)) as (N1 & N2 & _ & N4).
  pose proof (store_context_ok sp frame s H Hc) as H1. pose proof (context_bits sp frame s Hc) as Hres. destruct Hc as (x & Hx & Hin & Hal & _).
  cbn [exec]. set (s1 := with_mem (store_words sp frame (mem s)) s) in *. destruct (tick_cases s1 sp false H1) as [[_ [Hb|[Hn|Hcnt]]]|(u & _ & Hu & _ & ->)]; [done|by destruct (N2 Hn)| |].
  - pose proof (live_two (arr s) i (current_of BSP_CPU_ID s) Hne ltac:(by exists t) (inv_cur _ _ _ _ _ _ _ Hinv)) as Hl. pose proof (inv_count _ _ _ _ _ _ _ Hinv) as Hk.
    change (ctr s1) with (ctr s) in Hcnt. lia.
  - edestruct (switch_ok (with_ticks_count (u64_add (sys_ticks (ctr s1)) 1) s1)) as (_ & E1 & _);
      [exact H1|exact Hx|exact Hu|by apply not_eq_sym|exact Hin|exact Hal|exact Hres|]. cbv zeta. rewrite E1. exact N4.
Qed.

Lemma busy_tick_turn s sp frame : sched_ok s -> context_ok sp frame s -> current_of BSP_CPU_ID (exec (Tick sp frame true) s).2 = current_of BSP_CPU_ID s.
Proof.
  intros H Hc. cbn [exec]. set (s1 := with_mem (store_words sp frame (mem s)) s). pose proof (store_context_ok sp frame s H Hc) as H1. fold s1 in H1.
  unfold schedule_tick. change (MAX_CPUS <=? BSP_CPU_ID)%nat with false. change (negb (BSP_CPU_ID =? BSP_CPU_ID)%nat) with false. by destruct (_ <=? 1).
Qed.

Lemma exec_turn k s i : sched_ok s -> allowed k s -> runnable i s -> i <> current_of BSP_CPU_ID s ->
  let cur' := current_of BSP_CPU_ID (exec k s).2 in cur' = i \/ (turns cur' i <= turns (current_of BSP_CPU_ID s) i)%nat.
Proof.
  intros H Ha Hr Hne. destruct (switches k) eqn:Ek; [|right; by rewrite (exec_current k s H Ha Ek)]. destruct k; try done; cbn [allowed] in Ha.
  - destruct busy; [right; by rewrite busy_tick_turn|]. destruct (tick_turn s sp frame i H Ha Hr Hne); [by left|right; lia].
  - by apply yield_turn.
  - destruct (current_task_slot s H) as [x Hx]. destruct (mark_exit_ok s x code sp frame H Hx Ha) as (H1 & Hc1 & Hcur). destruct Hr as (Hi & t & Ht & Hact).
    destruct (mark_exit_others s x code i t H Hx Hne Ht) as (u & Hu & _ & _ & _ & E4 & _). cbn [exec]. unfold exit_current_task. rewrite Hx, <-Hcur. apply yield_turn; [done|done| |by rewrite Hcur].
    split; [done|]. exists u. auto.
Qed.

(** Ticks that find the lock of the array free. *)
Definition is_turn (k : Call) : bool := match k with Tick _ _ busy => negb busy | _ => false end.

Lemma fair_run ks i : forall s, sched_ok s -> along (runnable i) ks s -> i <> current_of BSP_CPU_ID s ->
  (turns (current_of BSP_CPU_ID s) i <= length (List.filter is_turn ks))%nat -> exists n, current_of BSP_CPU_ID (exec_all (take n ks) s) = i.
Proof.
  induction ks as [|k ks IH]; intros s H Hal Hne Hc.
  - exfalso. cbn in Hc. destruct Hal as [[Hi _] _]. pose proof H as [_ Hinv]. pose proof (inv_cur_lt _ _ _ _ _ _ _ Hinv). unfold turns, MAX_TASKS in *. destruct (_ <? _)%nat eqn:E; bsplit; lia.
  - destruct Hal as (Hr & Ha & Hal). destruct (decide (current_of BSP_CPU_ID (exec k s).2 = i)) as [Hd|Hd]; [by exists 1%nat|].
    destruct (IH (exec k s).2) as [n Hn]; [by apply exec_ok|done|by apply not_eq_sym| |by exists (S n)].
    cbn [List.filter] in Hc. destruct (is_turn k) eqn:Ek.
    + destruct k; try done. destruct busy; [done|]. destruct (tick_turn s sp frame i H Ha Hr Hne) as [|Hlt]; [done|]. cbn [length] in Hc. lia.
    + destruct (exec_turn k s i H Ha Hr Hne) as [|Hle]; [done|]. lia.
Qed.

End calls.

(** ** An instance

    A heap that hands out memory above everything in use, and address spaces and groups that do nothing. *)

Module Demo.

Definition top_of (l : list (Z * Z)) : Z := foldr (fun r m => Z.max (r.1 + r.2) m) 16 l.
Definition BOOT : Z * Z := (0x1000, 0x4000).

#[export] Instance demo_env : SchedEnv (list (Z * Z)) := {
  heap_alloc size w := let base := (top_of (BOOT :: w) / 16 + 1) * 16 in if base + size <? U64 then (base, (base, size) :: w) else (0, w);
  heap_dealloc base size w := List.filter (fun r => negb ((r.1 =? base) && (r.2 =? size))) w;
  build_user_view _ w := (None, w);
  destroy_user_view _ w := w;
  destroy_address_space _ now w := (now, w);
  create_mnt_ns _ w := (true, w);
  attach_task _ _ w := (true, w);
  detach_task _ w := w;
}.

Lemma top_of_max l r : r ∈ l -> r.1 + r.2 <= top_of l.
Proof. induction l as [|x l IH]; [by intros ?%elem_of_nil|]. change (top_of (x :: l)) with (Z.max (x.1 + x.2) (top_of l)). intros [->|Hr]%elem_of_cons; [lia|]. specialize (IH Hr). lia. Qed.
Lemma top_of_pos l : 16 <= top_of l.
Proof. induction l as [|x l IH]; [done|]. change (top_of (x :: l)) with (Z.max (x.1 + x.2) (top_of l)). lia. Qed.

#[export] Instance demo_laws : EnvLaws (list (Z * Z)).
Proof.
  refine {| owned w := BOOT :: w; boot_stack := BOOT |}; try done.
  - intros w. by left.
  - intros size w base w' Hs E. cbn [heap_alloc demo_env] in E. pose proof (top_of_pos (BOOT :: w)) as Hp. pose proof (top_of_max (BOOT :: w)) as Hm. set (top := top_of (BOOT :: w)) in *.
    pose proof (Z.div_mod top 16 ltac:(lia)). pose proof (Z.mod_pos_bound top 16 ltac:(lia)). pose proof (Z.div_pos top 16 ltac:(lia) ltac:(lia)).
    destruct (Z.ltb_spec ((top / 16 + 1) * 16 + size) U64); injection E as <- <-; [|split; done]. split; [set_solver|]. intros _. split; [lia|]. split; [apply Z.mod_mul; lia|]. split; [done|]. split; [set_solver|].
    apply Forall_forall. intros r Hr. specialize (Hm r Hr). right. cbn [fst]. lia.
  - intros base size w r Hr Hne. cbn [heap_dealloc demo_env]. apply elem_of_cons in Hr as [->|Hr]; [by left|right]. apply elem_of_filter_b. split; [done|].
    destruct (Z.eqb_spec r.1 base), (Z.eqb_spec r.2 size); cbn; try done. destruct Hne. destruct r. cbn in *. congruence.
Defined.

(** The kernel after boot with two tasks. *)
Definition IDLE : Z := 0xffffffff80001000.
Definition ENTRY : Z := 0xffffffff80002000.
Definition demo_boot : Sched (list (Z * Z)) := booted 0x2000 IDLE boot_ns [].
Definition demo_two : Sched (list (Z * Z)) := (exec (Spawn ENTRY 65536 []) (exec (Spawn ENTRY 65536 []) demo_boot).2).2.

Lemma demo_two_reachable : reachable demo_two.
Proof. do 2 (apply reach_call; [|by vm_compute]). by apply reach_boot. Qed.

Lemma demo_slots : is_Some (slot 1 (arr demo_two)) /\ is_Some (slot 2 (arr demo_two)).
Proof. split; apply (bool_decide_unpack _); vm_compute; exact I. Qed.

(** A place for the context of the running task, and a context. *)
Definition demo_sp {W} `{!SchedEnv W} (s : Sched W) : Z := from_option (fun t => kernel_rsp_top (stack t) - 1024) 0 (current_task BSP_CPU_ID s).
Definition demo_frame (x : Z) : list Z := replicate 15 x ++ [ENTRY; 0x08; 0x202; 0; 0x10].
Definition demo_tick (s : Sched (list (Z * Z))) : Call := Tick (demo_sp s) (demo_frame 7) false.

Definition insideb (sp : Z) (r : Z * Z) : bool := (r.1 + 256 <=? sp) && (sp + 160 <=? r.1 + r.2).
Definition context_okb (sp : Z) (frame : list Z) (s : Sched (list (Z * Z))) : bool :=
  match current_task BSP_CPU_ID s with
  | Some t => existsb (insideb sp) (home BOOT (current_of BSP_CPU_ID s) t) && (sp mod 8 =? 0) && (length frame =? 20)%nat && bool_decide (frame !! 16%nat = Some 0x08)
  | None => false
  end.
Lemma context_okb_ok sp frame s : context_okb sp frame s = true -> context_ok sp frame s.
Proof.
  unfold context_okb, context_ok. destruct (current_task BSP_CPU_ID s) as [t|]; [|done]. intros [[[H1 H2%Z.eqb_eq]%andb_true_iff H3%Nat.eqb_eq]%andb_true_iff H4%bool_decide_eq_true]%andb_true_iff.
  exists t. split; [done|]. split; [|by auto]. apply List.existsb_exists in H1 as (r & Hr & [Ha%Z.leb_le Hb%Z.leb_le]%andb_true_iff). apply Exists_exists. exists r. split; [by apply list_elem_of_In|done].
Qed.

(** Sequences of ticks and writes can be checked by computation. *)
Definition allowedb (k : Call) (s : Sched (list (Z * Z))) : bool :=
  match k with
  | Tick sp frame _ => context_okb sp frame s
  | WriteStack addr _ => match current_task BSP_CPU_ID s with Some t => (stack_alloc (stack t) <=? addr) && (addr + 8 <=? stack_alloc (stack t) + stack_size (stack t)) | None => false end
  | _ => false
  end.
Fixpoint alongb (p : Sched (list (Z * Z)) -> bool) (ks : list Call) (s : Sched (list (Z * Z))) : bool :=
  p s && match ks with [] => true | k :: ks => allowedb k s && alongb p ks (exec k s).2 end.
Lemma allowedb_ok k s : allowedb k s = true -> allowed k s.
Proof.
  destruct k; cbn [allowedb allowed]; try done; [apply context_okb_ok|]. destruct (current_task BSP_CPU_ID s) as [t|]; [|done]. intros [H1%Z.leb_le H2%Z.leb_le]%andb_true_iff.
  exists t. split; [done|]. by apply Exists_cons_hd.
Qed.
Lemma alongb_ok (P : Sched (list (Z * Z)) -> Prop) p ks : (forall s, p s = true -> P s) -> forall s, alongb p ks s = true -> along P ks s.
Proof.
  intros Hp. induction ks as [|k ks IH]; intros s; cbn [alongb along]; intros [H1 H2]%andb_true_iff; [by auto|]. apply andb_true_iff in H2 as [H2 H3]. split; [by apply Hp|]. split; [by apply allowedb_ok|by apply IH].
Qed.

Definition runnableb (i : nat) (s : Sched (list (Z * Z))) : bool := (1 <=? i)%nat && (i <? MAX_TASKS)%nat && from_option is_active false (slot i (arr s)).
Lemma runnableb_ok i s : runnableb i s = true -> runnable i s.
Proof.
  unfold runnableb. intros [[H1%Nat.leb_le H2%Nat.ltb_lt]%andb_true_iff H3]%andb_true_iff. split; [done|]. destruct (slot i (arr s)) as [t|]; [by exists t|done].
Qed.
Definition staysb (i : nat) (tid : Z) (s : Sched (list (Z * Z))) : bool := negb (i =? current_of BSP_CPU_ID s)%nat && has_tid tid (slot i (arr s)).
Lemma staysb_ok i tid s : staysb i tid s = true -> stays i tid s.
Proof.
  unfold staysb. intros [H1%negb_true_iff%Nat.eqb_neq H2]%andb_true_iff. split; [done|]. destruct (slot i (arr s)) as [t|]; [|done]. exists t. split; [done|]. cbn in H2. lia.
Qed.

(** From the idle task to task 1, to task 2, which writes to its stack, and back to task 1. *)
Definition demo_one : Sched (list (Z * Z)) := (exec (demo_tick demo_two) demo_two).2.
Definition demo_frame_one : list Z := replicate 15 9 ++ [ENTRY + 64; 0x08; 0x202; demo_sp demo_one + 160; 0x10].
Definition demo_next : Sched (list (Z * Z)) := (exec (Tick (demo_sp demo_one) demo_frame_one false) demo_one).2.
Definition demo_write : Call := WriteStack (demo_sp demo_next) 5.

Lemma demo_next_reachable : reachable demo_next.
Proof. do 2 (apply reach_call; [|apply allowedb_ok; by vm_compute]). apply demo_two_reachable. Qed.

Lemma demo_next_slot : exists t, slot 1 (arr demo_next) = Some t /\ t_id t = 1 /\ rsp (run t) = demo_sp demo_one.
Proof.
  assert (from_option (fun t => (t_id t =? 1) && (rsp (run t) =? demo_sp demo_one)) false (slot 1 (arr demo_next)) = true) as H by (by vm_compute).
  destruct (slot 1 (arr demo_next)) as [t|]; [|discriminate H]. exists t. apply andb_true_iff in H as [H1 H2]. exact (conj eq_refl (conj (proj1 (Z.eqb_eq _ _) H1) (proj1 (Z.eqb_eq _ _) H2))).
Qed.

End Demo.

Import Demo.

Module SchedMain.

(** C4: The scheduler keeps its tables in order.  After boot and any sequence of ticks, yields, exits, creations, clones, kills, reaps and
    changes of tasks, at most the current task is running, no two tasks have the same number, the counter of tasks is their
    number, and the stacks of tasks are apart.  Whenever a call switches, the CPU goes on with a saved frame whose code selector
    is that of ring 0 or ring 3, so that it is never parked as corrupt.  This relies on the heap handing out memory not in use, and on contexts being
    saved on the stack of the task they belong to. *)
Theorem sched_calls_safe {W} `{!SchedEnv W} `{!EnvLaws W} (s : Sched W) (k : Call) : reachable s -> allowed k s ->
  (forall i t, slot i (arr s) = Some t -> state (run t) = Running -> i = current_of BSP_CPU_ID s) /\
  (forall i j t u, slot i (arr s) = Some t -> slot j (arr s) = Some u -> t_id t = t_id u -> i = j) /\
  task_count (ctr s) = Z.of_nat (live_count (arr s)) /\
  (forall i j t u, slot i (arr s) = Some t -> slot j (arr s) = Some u -> i <> j -> apart (stack_range t) (stack_range u)) /\
  goes_on (exec k s).1 (exec k s).2.
Proof.
  intros Hr Ha. pose proof (reachable_ok s Hr) as H. pose proof (exec_ok k s H Ha) as (_ & Hg & _). destruct H as [_ H].
  split; [apply (inv_running _ _ _ _ _ _ _ H)|]. split; [apply (inv_ids _ _ _ _ _ _ _ H)|]. split; [apply (inv_count _ _ _ _ _ _ _ H)|]. split; [apply (inv_apart _ _ _ _ _ _ _ H)|done].
Qed.

Lemma sched_calls_safe_witness : exists t u, slot 1 (arr demo_two) = Some t /\ slot 2 (arr demo_two) = Some u /\ apart (stack_range t) (stack_range u) /\
  goes_on (exec (demo_tick demo_two) demo_two).1 (exec (demo_tick demo_two) demo_two).2.
Proof.
  assert (allowed (demo_tick demo_two) demo_two) as Ha by (apply context_okb_ok; by vm_compute).
  destruct (sched_calls_safe demo_two (demo_tick demo_two) demo_two_reachable Ha) as (_ & _ & _ & H4 & H5).
  destruct demo_slots as [[t Ht] [u Hu]]. exists t, u. exact (conj Ht (conj Hu (conj (H4 1%nat 2%nat t u Ht Hu (Nat.neq_succ_diag_r 1)) H5))).
Defined.

(** C5: A task goes on where it was suspended.  While a suspended task is not chosen, no sequence of calls, of writes of other tasks to
    their stacks, of creations and removals changes its saved context: when a call at last switches to it, the CPU restores the 20
    words that were saved, registers, instruction pointer, selectors, flags and stack pointer, and the user stack pointer
    the task had. *)
Theorem context_restored {W} `{!SchedEnv W} `{!EnvLaws W} (s : Sched W) (ks : list Call) (k : Call) (i : nat) (t : Task) :
  reachable s -> slot i (arr s) = Some t -> along (stays i (t_id t)) ks s -> allowed k (exec_all ks s) -> current_of BSP_CPU_ID (exec k (exec_all ks s)).2 = i ->
  (exec k (exec_all ks s)).1 = Resumes (rsp (run t)) /\
  load_words (mem (exec k (exec_all ks s)).2) (rsp (run t)) 20 = load_words (mem s) (rsp (run t)) 20 /\
  user_rsp_of BSP_CPU_ID (exec k (exec_all ks s)).2 = user_rsp (run t).
Proof.
  intros Hr Ht Hal Ha Hc. pose proof (reachable_ok s Hr) as H. destruct (along_context ks i s t H Ht Hal) as (t' & Ht' & _ & E2 & E3 & _ & E5).
  destruct (along_end _ ks s Hal) as [Hi _]. destruct (exec_continues k _ i t' (along_ok _ ks s H Hal) Ha Hi Ht' Hc) as (C1 & C2 & C3).
  rewrite E2 in *. split; [done|]. split; [by rewrite C2|by rewrite C3].
Qed.

Lemma context_restored_witness :
  (exec (demo_tick demo_next) (exec_all [demo_write] demo_next)).1 = Resumes (demo_sp demo_one) /\
  load_words (mem (exec (demo_tick demo_next) (exec_all [demo_write] demo_next)).2) (demo_sp demo_one) 20 = demo_frame_one.
Proof.
  destruct demo_next_slot as (t & Ht & Hid & Hsp).
  destruct (context_restored demo_next [demo_write] (demo_tick demo_next) 1 t demo_next_reachable Ht) as (H1 & H2 & _).
  - rewrite Hid. apply (alongb_ok _ _ _ (staysb_ok 1 1)). by vm_compute.
  - apply allowedb_ok. by vm_compute.
  - by vm_compute.
  - rewrite Hsp in H1, H2. split; [exact H1|]. etrans; [exact H2|]. by vm_compute.
Defined.

(** C6: Round robin.  A task that can run is chosen before the timer has interrupted more often than the task is slots away from the
    current one, whatever the other tasks do in between, yield, exit, create, kill or signal each other; at most 127 ticks
    that find the lock of the task array free are needed. *)
Theorem sched_fair {W} `{!SchedEnv W} `{!EnvLaws W} (s : Sched W) (ks : list Call) (i : nat) :
  reachable s -> along (runnable i) ks s -> (turns (current_of BSP_CPU_ID s) i <= length (List.filter is_turn ks))%nat ->
  (turns (current_of BSP_CPU_ID s) i <= 127)%nat /\ exists n, current_of BSP_CPU_ID (exec_all (take n ks) s) = i.
Proof.
  intros Hr Hal Hc. pose proof (reachable_ok s Hr) as H. split.
  - pose proof H as [_ Hinv]. pose proof (inv_cur_lt _ _ _ _ _ _ _ Hinv). assert (runnable i s) as [Hi _] by (destruct ks; apply Hal). unfold turns, MAX_TASKS in *. destruct (_ <? _)%nat eqn:E; bsplit; lia.
  - destruct (decide (i = current_of BSP_CPU_ID s)) as [->|Hne]; [by exists 0%nat|]. by apply fair_run.
Qed.

Lemma sched_fair_witness : exists n, current_of BSP_CPU_ID (exec_all (take n [demo_tick demo_two; demo_tick demo_one]) demo_two) = 2%nat.
Proof.
  apply (sched_fair demo_two [demo_tick demo_two; demo_tick demo_one] 2 demo_two_reachable); [|by vm_compute].
  apply (alongb_ok _ _ _ (runnableb_ok 2)). by vm_compute.
Defined.

End SchedMain.
