(* ===== verification/SchedLife.v ===== *)
(** The life of tasks: what a clone inherits, what an exit leaves for the parent, and where blocking and killing tasks fails. *)

From S2P Require Import Vma Ns Prelude Bytes Text Task Sched SchedProofs SchedMain Signal TaskCalls.

(** ** Zombies *)

Lemma take_snoc_insert {A} (l : list A) n x : (n < length l)%nat -> take (n + 1) (<[n := x]> l) = take n l ++ [x].
Proof. intros Hn. rewrite Nat.add_1_r, (take_S_r _ _ x) by (by apply list_lookup_insert_eq). by rewrite take_insert_ge by lia. Qed.

Lemma find_index_snoc {A} (p : A -> bool) l x : Forall (fun y => p y = false) l -> p x = true -> find_index p (l ++ [x]) = Some (length l).
Proof.
  intros Hl Hx. apply find_index_Some. split.
  - exists x. split; [|done]. by rewrite lookup_app_r, Nat.sub_diag by lia.
  - intros j y Hj Hy. rewrite lookup_app_l in Hy by done. by eapply Forall_lookup_1 in Hl.
Qed.

(** A record that was pushed is found by its pid, once. *)
Lemma zombie_found z r : length (records z) = MAX_ZOMBIES -> (z_count z < MAX_ZOMBIES)%nat ->
  Forall (fun o => zombie_with (fun x => child_pid x =? child_pid r) o = false) (take (z_count z) (records z)) ->
  let z1 := (push_zombie r z).2 in
  (find_by_child (child_pid r) z1).1 = Some r /\ (find_by_child (child_pid r) (find_by_child (child_pid r) z1).2).1 = None.
Proof.
  intros Hl Hc Hn. cbv zeta. unfold push_zombie. rewrite (proj2 (Nat.leb_gt _ _)) by done. cbn [snd]. unfold find_by_child, find_zombie. cbn [z_count records].
  rewrite take_snoc_insert by lia. rewrite (find_index_snoc _ _ (Some r) Hn) by (cbn; by rewrite Z.eqb_refl). rewrite length_take, Hl, Nat.min_l by lia. cbn [fst snd].
  split; [by rewrite list_lookup_insert_eq by lia|]. unfold take_zombie. cbn [z_count records]. rewrite Nat.add_sub, Nat.ltb_irrefl. rewrite !take_insert_ge by lia.
  by rewrite (proj2 (find_index_None _ _) Hn).
Qed.

Section zombies.
Context {W : Type} `{!SchedEnv W}.
Implicit Types s : Sched W.

Lemma zombies_yield c sp frame s : zombies (yield_now c sp frame s).2 = zombies s.
Proof. unfold yield_now. repeat case_match; simplify_eq; try done; by unfold switch in *; simplify_eq. Qed.
Lemma zombies_tick c sp busy s : zombies (schedule_tick c sp busy s).2 = zombies s.
Proof. unfold schedule_tick. repeat case_match; simplify_eq; done. Qed.
Lemma zombies_alloc size s : zombies (alloc_stack size s).2 = zombies s.
Proof. unfold alloc_stack. repeat case_match; simplify_eq; done. Qed.
Lemma zombies_publish t s : zombies (publish t s).2 = zombies s.
Proof. unfold publish, dealloc_stack. repeat case_match; simplify_eq; done. Qed.
Lemma zombies_view tid v s : zombies (set_view tid v s) = zombies s.
Proof. unfold set_view. repeat case_match; simplify_eq; done. Qed.
Lemma zombies_cr3 tid v s : zombies (set_task_cr3 tid v s) = zombies s.
Proof. unfold set_task_cr3. repeat case_match; by rewrite ?zombies_view. Qed.

Lemma zombies_or_fail z r k : zombies r.2 = z -> (forall i s, zombies s = z -> zombies (k i s).2 = z) -> zombies (@or_fail W r k).2 = z.
Proof. destruct r as [[i|] s]; cbn; [|done]. intros H Hk. by apply Hk. Qed.
Lemma zombies_namespaces flags n s : zombies (fresh_namespaces flags n s).2 = zombies s.
Proof.
  assert (forall flag create old s, zombies (fresh_ns flags flag create old s).2 = zombies s) as Hn by (intros ??? s'; unfold fresh_ns; case_if; [done|by destruct (create (nss s'))]).
  assert (forall old s, zombies (fresh_mnt_ns flags old s).2 = zombies s) as Hm by (intros ? s'; unfold fresh_mnt_ns; repeat case_match; simplify_eq; done).
  unfold fresh_namespaces. repeat (apply zombies_or_fail; [by rewrite ?Hn, ?Hm|intros ? s' <-]; clear s; rename s' into s). done.
Qed.

Lemma zombies_create c entry size nm s : zombies (create_task_named c entry size nm s).2 = zombies s.
Proof.
  unfold create_task_named. case_if; [done|]. pose proof (zombies_alloc size s) as Ha. destruct (alloc_stack size s) as [base s1]. cbn [snd] in Ha. case_if; [done|]. cbn [take_task_id].
  rewrite <-Ha. clear. match goal with |- context [publish ?t ?s] => pose proof (zombies_publish t s) as Hp; destruct (publish t s) as [[] s2] end; exact Hp.
Qed.
Lemma zombies_create_user c entry size ursp v brk s : zombies (create_user_task c entry size ursp v brk s).2 = zombies s.
Proof.
  unfold create_user_task. case_if; [done|]. case_if; [done|]. pose proof (zombies_alloc size s) as Ha. destruct (alloc_stack size s) as [base s1]. cbn [snd] in Ha. case_if; [done|].
  cbn [take_task_id]. set (s2 := with_next_id _ s1). change (zombies s1) with (zombies s2) in Ha. clearbody s2. destruct (user_stack_top ursp s2) as [x s3] eqn:E3. apply (f_equal snd) in E3; cbn [snd] in E3.
  assert (zombies s3 = zombies s2) as Hb by (subst s3; unfold user_stack_top; repeat case_match; simplify_eq; done). clear E3.
  destruct (heap_start brk s3) as [y s4] eqn:E4. apply (f_equal snd) in E4; cbn [snd] in E4. assert (zombies s4 = zombies s3) as Hc by (subst s4; unfold heap_start; repeat case_match; simplify_eq; done). clear E4.
  unfold with_spaces. destruct (build_user_view _ _) as [w w']. rewrite <-Ha, <-Hb, <-Hc. clear.
  match goal with |- context [publish ?t ?s] => pose proof (zombies_publish t s) as Hp; destruct (publish t s) as [[] s5] end; exact Hp.
Qed.
Lemma zombies_clone c flags size entry v ursp brk s : zombies (clone_task c flags size entry v ursp brk s).2 = zombies s.
Proof.
  unfold clone_task. case_if; [done|]. destruct (current_task c s) as [p|]; [|done]. case_if; [done|]. pose proof (zombies_alloc size s) as Ha. destruct (alloc_stack size s) as [base s1].
  cbn [snd] in Ha. case_if; [done|]. cbn [take_task_id]. match goal with |- context [fresh_namespaces ?f ?n ?s] => pose proof (zombies_namespaces f n s) as Hn; destruct (fresh_namespaces f n s) as [[n'|] s2] end; [|by rewrite <-Ha].
  rewrite <-Ha. change (zombies s1) with (zombies (with_next_id (u64_add (next_task_id (ctr s1)) 1) s1)). rewrite <-Hn. clear.
  unfold with_spaces. destruct (build_user_view _ _). match goal with |- context [publish ?t ?s] => pose proof (zombies_publish t s) as Hp; destruct (publish t s) as [[] s3] end; [|exact Hp].
  cbn [negb]. case_if; exact Hp.
Qed.

Lemma zombies_leave c t s : zombies (free_stack t (free_space c t (free_view t s))) = zombies s /\ zombies (free_space c t (free_view t (free_stack t s))) = zombies s /\ zombies (leave_ns t s) = zombies s.
Proof. unfold free_stack, free_space, free_view, leave_ns. repeat split; repeat case_match; simplify_eq; done. Qed.
Lemma zombies_reap c tid s : zombies (reap_task c tid s) = zombies s.
Proof. unfold reap_task. repeat case_match; try done. rewrite (proj1 (zombies_leave _ _ _)). cbn. apply (zombies_leave c). Qed.
Lemma zombies_kill c tid s : zombies (kill_task c tid s).2 = zombies s.
Proof. unfold kill_task. repeat case_match; try done. cbn. rewrite (proj1 (proj2 (zombies_leave _ _ _))). cbn. apply (zombies_leave c). Qed.

Definition exit_record (code : Z) (t : Task) : ZombieRecord := {| child_pid := t_id t; z_parent := parent_pid t; z_code := code |}.

Lemma zombies_exit c code sp frame s t : current_task c s = Some t -> zombies (exit_current_task c code sp frame s).2 = (push_zombie (exit_record code t) (zombies s)).2.
Proof. intros Ht. unfold exit_current_task. by rewrite zombies_yield, Ht. Qed.

End zombies.

(** *** The list has 64 places *)

Definition zombies_wf (z : ZombieList) : Prop := length (records z) = MAX_ZOMBIES /\ (z_count z <= MAX_ZOMBIES)%nat.

Lemma swap_length {A} i j (l : list A) : length (swap i j l) = length l.
Proof. unfold swap. destruct (l !! i), (l !! j); rewrite ?length_insert; done. Qed.
Lemma push_wf r z : zombies_wf z -> zombies_wf (push_zombie r z).2.
Proof. intros [H1 H2]. unfold push_zombie. destruct (Nat.leb_spec MAX_ZOMBIES (z_count z)); [done|]. split; cbn; [by rewrite length_insert|lia]. Qed.
Lemma take_zombie_wf i z : zombies_wf z -> zombies_wf (take_zombie i z).
Proof. intros [H1 H2]. split; cbn; [case_if; by rewrite ?swap_length, length_insert|lia]. Qed.
Lemma find_zombie_wf p z : zombies_wf z -> zombies_wf (find_zombie p z).2.
Proof. intros H. unfold find_zombie. destruct (find_index _ _); [by apply take_zombie_wf|done]. Qed.
Lemma reap_loop_wf n p : forall i z, zombies_wf z -> zombies_wf (reap_loop n p i z).
Proof. induction n as [|n IH]; intros i z H; cbn; [done|]. case_if; [done|]. case_if; apply IH; [by apply take_zombie_wf|done]. Qed.

Section life.
Context {W : Type} `{!SchedEnv W} `{!EnvLaws W}.
Implicit Types s : Sched W.

Lemma exec_zombies k s : zombies_wf (zombies s) -> zombies_wf (zombies (exec k s).2).
Proof.
  intros H. destruct k; cbn [exec snd]; rewrite ?zombies_tick, ?zombies_yield, ?zombies_create, ?zombies_create_user, ?zombies_clone, ?zombies_reap, ?zombies_kill, ?zombies_cr3; try exact H.
  - destruct (current_task BSP_CPU_ID s) as [t|] eqn:Ht; [rewrite (zombies_exit _ _ _ _ _ t Ht); by apply push_wf|]. unfold exit_current_task. by rewrite zombies_yield, Ht.
  - unfold wait_for_child, find_any_child, find_by_child. destruct (any_child pid); match goal with |- context [find_zombie ?p ?z] => pose proof (find_zombie_wf p z H) as Hf; destruct (find_zombie p z) end; exact Hf.
  - by apply reap_loop_wf.
Qed.

Lemma reachable_zombies s : reachable s -> zombies_wf (zombies s).
Proof.
  induction 1 as [cr3v idle n w _|k s _ IH _]; [|by apply exec_zombies]. unfold booted, init_sched. pose proof (zombies_alloc IDLE_STACK (boot_sched cr3v n w)) as Ha.
  destruct (alloc_stack IDLE_STACK _) as [base s1]. cbn in Ha |- *. rewrite Ha. split; [done|cbn; lia].
Qed.

(** ** Exits *)

(** No record of a task. *)
Definition unreported (tid : Z) (z : ZombieList) : Prop := Forall (fun o => zombie_with (fun x => child_pid x =? tid) o = false) (take (z_count z) (records z)).

Lemma wait_found s code t p s' : zombies_wf (zombies s) -> (z_count (zombies s) < MAX_ZOMBIES)%nat -> unreported (t_id t) (zombies s) -> any_child (t_id t) = false ->
  zombies s' = (push_zombie (exit_record code t) (zombies s)).2 ->
  (wait_for_child p (t_id t) s').1 = Some (t_id t, code) /\ (wait_for_child p (t_id t) (wait_for_child p (t_id t) s').2).1 = None.
Proof.
  intros [Hl _] Hc Hu Ha Hz. unfold wait_for_child. rewrite Ha, Hz. pose proof (zombie_found (zombies s) (exit_record code t) Hl Hc Hu) as [F1 F2]. cbn [child_pid exit_record] in F1, F2.
  destruct (find_by_child (t_id t) _) as [r z]. cbn in F1, F2 |- *. subst r. split; [done|]. destruct (find_by_child (t_id t) z) as [r z']. cbn in F2 |- *. by subst r.
Qed.

(** What a yield does to the task that ran: its context is saved, and its state is [Ready] unless the task has ended. *)
Lemma yield_current sp frame s t : sched_ok s -> context_ok sp frame s -> current_task BSP_CPU_ID s = Some t ->
  slot (current_of BSP_CPU_ID s) (arr (yield_now BSP_CPU_ID sp frame s).2) = Some t \/
  slot (current_of BSP_CPU_ID s) (arr (yield_now BSP_CPU_ID sp frame s).2) = Some (suspend sp (cr3_of BSP_CPU_ID s) (user_rsp_of BSP_CPU_ID s) t).
Proof.
  intros H Hc Ht. destruct (yield_cases s sp frame H) as [[-> _]|[[-> _]|(u & Hne & Hu & _ & ->)]]; [by left..|right].
  pose proof (store_context_ok sp frame s H Hc) as H1. pose proof (context_bits sp frame s Hc) as Hres. destruct Hc as (x & Hx & Hin & Hal & _).
  edestruct (switch_ok (with_mem (store_words sp frame (mem s)) s)) as (_ & _ & _ & _ & _ & E5); [exact H1|exact Hx|exact Hu|by apply not_eq_sym|exact Hin|exact Hal|exact Hres|].
  etrans; [exact (f_equal (slot _) E5)|]. etrans; [eapply (slot_switched _ _ _ _ _ _ t u); [by apply not_eq_sym|exact Ht|exact Hu]|].
  cbn [current_of]. by rewrite decide_False, decide_True by (try done; by apply not_eq_sym).
Qed.

Lemma find_unique s j u : sched_ok s -> slot j (arr s) = Some u -> find_slot (t_id u) (arr s) = Some j.
Proof.
  intros [_ H] Hu. destruct (find_slot (t_id u) (arr s)) as [i|] eqn:E; [|by destruct (find_slot_None _ _ _ _ E Hu)].
  apply find_slot_Some in E as (x & Hx & E). f_equal. by eapply (inv_ids _ _ _ _ _ _ _ H).
Qed.

Lemma slot_on_task s tid f j u : sched_ok s -> slot j (arr s) = Some u -> slot j (arr (on_task tid f s)) = Some (if decide (t_id u = tid) then f u else u).
Proof.
  intros H Hu. unfold on_task. cbn [arr with_arr]. rewrite slot_change_task, Hu. destruct (decide (t_id u = tid)) as [<-|Hne].
  - by rewrite (find_unique s j u H Hu), decide_True.
  - rewrite decide_False; [done|]. intros (x & Hx & Ex)%find_slot_Some. congruence.
Qed.

Definition ended (code : Z) (t : Task) : Task := with_exit_code code (with_state Terminated t).

Lemma slot_mark_exit s t code j u : sched_ok s -> current_task BSP_CPU_ID s = Some t -> slot j (arr s) = Some u ->
  let v := if decide (t_id u = t_id t) then ended code u else u in
  slot j (arr (mark_exit BSP_CPU_ID code t s)) = Some (if decide (t_id v = parent_pid t) then wake (deliver_signal SIGCHLD v) else v).
Proof.
  intros H Ht Hu. destruct (mark_exit_on_task s t code H Ht) as (s1 & Hs & ->). pose proof (on_task_ok (t_id t) _ s (harmless_exit code) H) as H1. pose proof (same_ok _ _ Hs H1) as H2.
  pose proof (slot_on_task s (t_id t) (ended code) j u H Hu) as Hv. unfold ended in Hv. rewrite <-(proj1 Hs) in Hv. exact (slot_on_task s1 (parent_pid t) (fun t => wake (deliver_signal SIGCHLD t)) j _ H2 Hv).
Qed.

Lemma yield_slots sp frame s j u : sched_ok s -> context_ok sp frame s -> slot j (arr s) = Some u ->
  exists u', slot j (arr (yield_now BSP_CPU_ID sp frame s).2) = Some u' /\ sig u' = sig u /\ exit_code u' = exit_code u /\ t_id u' = t_id u.
Proof.
  intros H Hc Hj. destruct (yield_cases s sp frame H) as [[-> _]|[[-> _]|(x & Hne & Hx & _ & ->)]]; [by exists u..|].
  pose proof (store_context_ok sp frame s H Hc) as H1. pose proof (context_bits sp frame s Hc) as Hres. destruct Hc as (t & Ht & Hin & Hal & _).
  edestruct (switch_ok (with_mem (store_words sp frame (mem s)) s)) as (_ & _ & _ & _ & _ & E5); [exact H1|exact Ht|exact Hx|by apply not_eq_sym|exact Hin|exact Hal|exact Hres|].
  pose proof (slot_switched _ _ sp (cr3_of BSP_CPU_ID s) (user_rsp_of BSP_CPU_ID s) (arr s) t x j (not_eq_sym Hne) Ht Hx) as Es. pose proof (eq_trans (f_equal (slot j) E5) Es) as E. clear E5 Es.
  destruct (decide (j = find_next_ready (arr s) (current_of BSP_CPU_ID s) BSP_CPU_ID)) as [->|_].
  - eexists. split; [exact E|]. rewrite Hx in Hj. by injection Hj as <-.
  - destruct (decide (j = current_of BSP_CPU_ID s)) as [->|_]; [|by exists u; split; [exact (eq_trans E Hj)|]].
    eexists. split; [exact E|]. change (slot (current_of BSP_CPU_ID s) (arr s) = Some t) in Ht. rewrite Ht in Hj. by injection Hj as <-.
Qed.

(** ** Sleeping *)

(** Only other tasks count when the next one is chosen. *)
Lemma find_ext {A} (p q : A -> bool) l : Forall (fun x => p x = q x) l -> List.find p l = List.find q l.
Proof. induction 1 as [|x l Hx _ IH]; cbn; [done|]. rewrite Hx. by destruct (q x). Qed.

Lemma next_ready_others a b cur c : (forall j, j <> cur -> slot j a = slot j b) -> find_next_ready b cur c <> cur -> find_next_ready a cur c = find_next_ready b cur c.
Proof.
  intros Hs. assert (forall p from to, ((to <= cur) \/ cur < from)%nat -> scan p from to a = scan p from to b) as Hscan.
  { intros p from to Hc. apply find_ext, Forall_forall. intros i [Hi1 Hi2]%elem_of_seq. rewrite Hs by lia. done. }
  unfold find_next_ready. rewrite (Hscan _ (cur + 1)%nat) by lia. destruct (scan _ (cur + 1) _ b); [done|]. rewrite (Hscan _ 1%nat cur) by lia.
  destruct (if (1 <? cur)%nat then _ else _); [done|]. rewrite (find_ext (fun i => negb (i =? cur)%nat && runs (slot i a)) (fun i => negb (i =? cur)%nat && runs (slot i b))).
  2:{ apply Forall_forall. intros i _. destruct (Nat.eqb_spec i cur); [done|]. by rewrite Hs. }
  destruct (List.find _ _); [done|]. destruct cur; [intros Hne; by destruct (runs_on c (slot 0 b))|]. by rewrite (Hs 0%nat).
Qed.

Lemma change_slot_twice i f g a : change_slot i f (change_slot i g a) = change_slot i (fun t => f (g t)) a.
Proof.
  unfold change_slot. destruct (slot i a) as [t|] eqn:E; [|by rewrite E]. rewrite slot_set by (by eapply slot_lt). rewrite decide_True by done. unfold set_slot. cbn. by rewrite list_insert_insert_eq.
Qed.

Lemma change_slot_ext i f g a : (forall t, slot i a = Some t -> f t = g t) -> change_slot i f a = change_slot i g a.
Proof. intros H. unfold change_slot. destruct (slot i a) as [t|]; [|done]. by rewrite H. Qed.

(** With another task to run, a yield switches. *)
Lemma yield_switches s sp frame i : sched_ok s -> runnable i s -> i <> current_of BSP_CPU_ID s ->
  let next := find_next_ready (arr s) (current_of BSP_CPU_ID s) BSP_CPU_ID in
  next <> current_of BSP_CPU_ID s /\ exists u, slot next (arr s) = Some u /\ let r := switch BSP_CPU_ID (current_of BSP_CPU_ID s) next u sp s in
  yield_now BSP_CPU_ID sp frame s = (r.1, with_mem (store_words sp frame (mem r.2)) r.2).
Proof.
  intros H (Hi & x & Hx & Hact) Hne. pose proof H as [_ Hv].
  destruct (next_ready_nearest (arr s) (current_of BSP_CPU_ID s) BSP_CPU_ID i) as (N1 & N2 & _); [by eapply inv_cur_lt|done|done|by eapply runs_on_active|]. split; [done|].
  destruct (yield_cases s sp frame H) as [[_ [E|E]]|[[_ E]|(u & _ & Hu & _ & E)]]; [done| |lia|by exists u].
  pose proof (live_two (arr s) i (current_of BSP_CPU_ID s) Hne ltac:(by exists x) (inv_cur _ _ _ _ _ _ _ Hv)). pose proof (inv_count _ _ _ _ _ _ _ Hv). lia.
Qed.

(** Yielding to another task after falling asleep is yielding. *)
Lemma yield_asleep s t sp frame i : sched_ok s -> current_task BSP_CPU_ID s = Some t -> state (run t) <> Terminated -> runnable i s -> i <> current_of BSP_CPU_ID s ->
  yield_now BSP_CPU_ID sp frame (task_set_state (t_id t) Sleeping s) = yield_now BSP_CPU_ID sp frame s.
Proof.
  intros H Ht Hst Hr Hne. pose proof (on_task_ok (t_id t) _ s (harmless_state Sleeping ltac:(done)) H) as H1. pose proof (find_current s t H Ht) as Hf.
  set (s1 := task_set_state (t_id t) Sleeping s). fold (task_set_state (W:=W) (t_id t) Sleeping s) in H1. fold s1 in H1.
  assert (arr s1 = change_slot (current_of BSP_CPU_ID s) (with_state Sleeping) (arr s)) as Ea by (cbn; unfold change_task; by rewrite Hf).
  assert (forall j, j <> current_of BSP_CPU_ID s -> slot j (arr s1) = slot j (arr s)) as Hs by (intros j Hj; by rewrite Ea, slot_change, decide_False).
  destruct (yield_switches s sp frame i H Hr Hne) as (N2 & u & Hu & ->). destruct Hr as (Hi & x & Hx & Hact).
  destruct (yield_switches s1 sp frame i H1) as (_ & v & Hv & ->); [|done|]. { split; [done|]. exists x. by rewrite Hs. }
  change (current_of BSP_CPU_ID s1) with (current_of BSP_CPU_ID s) in *. rewrite (next_ready_others (arr s1) (arr s) _ _ Hs N2) in *. rewrite Hs, Hu in Hv by done. injection Hv as <-.
  unfold switch. rewrite Ea, change_slot_twice. rewrite (change_slot_ext (current_of BSP_CPU_ID s) (fun t => suspend sp (cr3_of BSP_CPU_ID s1) (user_rsp_of BSP_CPU_ID s1) (with_state Sleeping t)) (suspend sp (cr3_of BSP_CPU_ID s) (user_rsp_of BSP_CPU_ID s))); [done|].
  intros t' Ht'. change (slot (current_of BSP_CPU_ID s) (arr s) = Some t) in Ht. rewrite Ht in Ht'. injection Ht' as <-. unfold suspend. cbn. by destruct (state (run t)).
Qed.

(** ** Clones *)

Lemma load_stored sp ws m : load_words (store_words sp ws m) sp (length ws) = ws.
Proof.
  apply list_eq. intros i. unfold load_words. rewrite list_lookup_fmap. destruct (decide (i < length ws)%nat) as [Hi|Hi].
  - destruct (lookup_lt_is_Some_2 ws i Hi) as [w Hw]. rewrite lookup_seq_lt by done. cbn. unfold load_word. by rewrite (store_words_in ws sp m i w Hw), Hw.
  - rewrite lookup_seq_ge, lookup_ge_None_2 by lia. done.
Qed.

Lemma publish_slot t s s' : length (tasks (arr s)) = MAX_TASKS -> (next_free (arr s) <= MAX_TASKS)%nat -> publish t s = (true, s') ->
  mem s' = mem s /\ exists i, slot i (arr s) = None /\ slot i (arr s') = Some t.
Proof.
  intros Hl Hn. unfold publish. destruct (attach_task _ _ _) as [[] w]; cbn [negb]; [|done]. cbn [arr with_world]. destruct (find_free (arr s)) as [[i a]|] eqn:E; [|done]. intros [= <-]. split; [done|].
  destruct (find_free_Some (arr s) i a) as (F1 & _ & F3 & F4); [by rewrite Hl|done|]. exists i. split; [done|]. cbn [arr add_task_count with_task_count with_ctr with_arr]. by rewrite slot_set, decide_True by (by rewrite ?F1).
Qed.

Lemma namespaces_kept n s : fresh_namespaces 0 n s = (Some n, s).
Proof. by destruct n. Qed.

(** The task a clone makes of its parent. *)
Definition clone_of (p : Task) (n : NsIds) (tid sp base size entry v uv ursp brk : Z) : Task :=
  let t := with_user_rsp ursp (place base size BSP_CPU_ID (new_task tid sp (as_text (name p)))) in
  let t := with_heap {| heap_brk := brk; heap_floor := brk |} (with_user_cr3 uv (with_cr3 v t)) in
  with_group (cgroup p) (with_ns_ids n (with_parent (t_id p) (with_cred (inherit (cred p) (cred t)) t))).

Lemma clone_child flags size entry v ursp brk s p tid s' : sched_ok s -> current_task BSP_CPU_ID s = Some p ->
  clone_task BSP_CPU_ID flags size entry v ursp brk s = (tid, s') -> tid <> 0 ->
  tid = next_task_id (ctr s) /\ exists i n sp base uv, slot i (arr s) = None /\ slot i (arr s') = Some (clone_of p n tid sp base size entry v uv ursp brk) /\
    load_words (mem s') sp 20 = user_frame entry ursp /\ (flags = 0 -> n = ns p).
Proof.
  intros H Hp. unfold clone_task. destruct (stack_size_is_valid size); cbn [negb]; [|by intros [= <- <-]]. rewrite Hp. destruct (valid_entry entry); cbn [negb]; [|by intros [= <- <-]].
  destruct (alloc_stack size s) as [base s1] eqn:Ea. assert (arr s1 = arr s /\ ctr s1 = ctr s) as [A1 A2] by (revert Ea; unfold alloc_stack; repeat case_match; intros; simplify_eq; done).
  destruct (base =? 0); [by intros [= <- <-]|]. cbn [take_task_id]. set (s2 := with_next_id _ s1). pose proof (same_namespaces flags (ns p) s2) as Hn. pose proof (namespaces_kept (ns p) s2) as Hk.
  destruct (fresh_namespaces flags (ns p) s2) as [[n|] s3] eqn:Ef; [|by intros [= <- <-]]. assert (flags = 0 -> n = ns p) as Hf by (intros ->; rewrite Hk in Ef; congruence). clear Hk Ef.
  destruct Hn as (N1 & _). cbn [snd] in N1. change (arr s2) with (arr s1) in N1. clearbody s2.
  unfold with_spaces. destruct (build_user_view _ _) as [view w]. rewrite A2.
  match goal with |- context [publish ?t ?x] => pose proof (publish_slot t x) as Hpub; destruct (publish t x) as [[] s4] end; cbn [negb]; [|by intros [= <- <-]].
  destruct H as [_ Hi]. destruct (Hpub s4) as (M & i & I1 & I2); [cbn; rewrite N1, A1; apply Hi|cbn; rewrite N1, A1; apply Hi|done|]. clear Hpub.
  set (sp := u64_sub (frame_base (u64_add base size)) FRAME_BYTES) in *. intros E _.
  assert (tid = next_task_id (ctr s) /\ arr s' = arr s4 /\ mem s' = mem s4) as (-> & B1 & B2) by (revert E; case_if; intros [= <- <-]; done). split; [done|].
  exists i, n, sp, base, (default v view). split; [by rewrite <-A1, <-N1|]. split; [by rewrite B1|]. split; [|done]. rewrite B2, M. apply load_stored.
Qed.

(** ** Signals *)

Lemma on_task_other s tid f i t : slot i (arr s) = Some t -> t_id t <> tid -> slot i (arr (on_task tid f s)) = Some t.
Proof. intros Ht Hne. unfold on_task. cbn [arr with_arr]. rewrite slot_change_task, decide_False; [done|]. intros (u & Hu & <-)%find_slot_Some. congruence. Qed.

Lemma deliver_other s tid n i t : slot i (arr s) = Some t -> t_id t <> tid -> slot i (arr (deliver_signal_to tid n s).2) = Some t.
Proof. intros Ht Hne. unfold deliver_signal_to. repeat case_if; cbn [snd]; repeat (apply on_task_other; [|done]); done. Qed.

Lemma get_slot s i t : sched_ok s -> slot i (arr s) = Some t -> get_task (t_id t) s = Some t.
Proof. intros H Ht. unfold get_task, find_task. by rewrite (find_unique s i t H Ht). Qed.

Lemma get_current s t : sched_ok s -> current_task BSP_CPU_ID s = Some t -> current_task_id BSP_CPU_ID s = t_id t /\ get_task (t_id t) s = Some t.
Proof. intros H Ht. split; [unfold current_task_id; by rewrite Ht|by eapply get_slot]. Qed.

(** The tasks a signal to all goes to are ones the caller may signal. *)
Lemma signal_all_other s u cp n i t : slot i (arr s) = Some t -> Forall (fun p => p.1 = t_id t -> Caps.may_kill u cp p.2 = false) (task_list s) ->
  slot i (arr (signal_all u cp n s).2) = Some t.
Proof.
  intros Ht Hl. unfold signal_all. assert (forall l k s, slot i (arr s) = Some t -> Forall (fun p => p.1 = t_id t -> Caps.may_kill u cp p.2 = false) l ->
    slot i (arr (foldl (fun r p => if Caps.may_kill u cp p.2 then (S r.1, (deliver_signal_to p.1 n r.2).2) else r) (k, s) l).2) = Some t) as Hf; [|by apply Hf].
  clear s Ht Hl. induction l as [|p l IH]; intros k s Ht; [done|]. intros [Hp Hl]%Forall_cons. cbn [foldl fst snd]. destruct (Caps.may_kill u cp p.2) eqn:E; [|by apply IH].
  apply IH; [|done]. apply deliver_other; [done|]. intros Hd. by discriminate Hp.
Qed.

Lemma task_list_uid s i t : sched_ok s -> slot i (arr s) = Some t -> Forall (fun p => p.1 = t_id t -> p.2 = uid (cred t)) (task_list s).
Proof.
  intros [_ H] Ht. apply Forall_forall. intros p (o & Ho & Hp)%list_elem_of_omap. apply fmap_Some in Hp as (x & -> & ->). apply list_elem_of_lookup in Ho as [j Hj]. cbn. intros Hid.
  assert (slot j (arr s) = Some x) as Hx by (unfold slot; by rewrite Hj). assert (j = i) as -> by (by eapply (inv_ids _ _ _ _ _ _ _ H)). congruence.
Qed.

Lemma read_stored user sp f : load_words user sp 21 = frame_words f -> read_frame user sp = f.
Proof. unfold load_words, frame_words, read_frame. destruct f. cbn. intros [= <- <- <- <- <- <- <- <- <- <- <- <- <- <- <- <- <- <- <- <- <-]. done. Qed.

Lemma user_rsp_set v s : (BSP_CPU_ID < length (cpus s))%nat -> user_rsp_of BSP_CPU_ID (change_cpu BSP_CPU_ID (set_user_rsp v) s) = v.
Proof. intros Hl. unfold user_rsp_of, change_cpu. cbn [cpus with_cpus]. rewrite list_lookup_alter_eq. by destruct (lookup_lt_is_Some_2 _ _ Hl) as [p ->]. Qed.

(** What a delivered signal has done. *)
Lemma deliver_to_inv mapped ursp urip uflags t user sp h fl t' user' : deliver_to mapped ursp urip uflags t user = Some (sp, h, fl, t', user') ->
  exists n a, next_signal t = Some n /\ signal_actions (sig t) !! n = Some a /\ handler_fn a <> 0 /\ h = handler_fn a /\ mapped sp = true /\
    t' = clear_signal n t /\ user' = store_words sp (frame_words (signal_frame t n a ursp urip uflags)) user /\ sp = Z.land (u64_sub ursp SIGNAL_FRAME_BYTES) (u64_not 0xF).
Proof.
  unfold deliver_to, check_pending, next_signal. destruct (unmasked t =? 0); [done|]. destruct (SIG_MAX <=? _)%nat; [done|]. set (n := trailing_zeros (unmasked t)).
  unfold setup_signal_frame, mbind, option_bind. destruct (signal_actions (sig t) !! n) as [a|] eqn:Ea; [|done]. rewrite Ea. destruct (Z.eqb_spec (handler_fn a) 0); [done|].
  destruct (mapped _) eqn:Em; [|done]. cbn [negb]. change (signal_actions (sig (clear_signal n t))) with (signal_actions (sig t)). rewrite Ea.
  remember (Z.land (u64_sub ursp SIGNAL_FRAME_BYTES) (u64_not 0xF)) as x eqn:Ex. remember (store_words x _ user) as y eqn:Ey. remember (clear_signal n t) as z eqn:Ez.
  intros E. injection E as <- <- _ <- <-. by exists n, a.
Qed.

End life.

(** ** Instances *)

Import Demo.

Module LifeDemo.

Lemma demo_one_reachable : reachable demo_one.
Proof. apply reach_call; [apply demo_two_reachable|]. apply allowedb_ok. by vm_compute. Qed.

Lemma demo_one_current : exists t, current_task BSP_CPU_ID demo_one = Some t /\ t_id t = 1 /\ state (run t) = Running /\ parent_pid t = 0.
Proof.
  assert (from_option (fun t => (t_id t =? 1) && bool_decide (state (run t) = Running) && (parent_pid t =? 0)) false (current_task BSP_CPU_ID demo_one) = true) as H by (by vm_compute).
  destruct (current_task BSP_CPU_ID demo_one) as [t|]; [|discriminate H]. exists t. apply andb_true_iff in H as [[H1 H2%bool_decide_eq_true]%andb_true_iff H3].
  exact (conj eq_refl (conj (proj1 (Z.eqb_eq _ _) H1) (conj H2 (proj1 (Z.eqb_eq _ _) H3)))).
Qed.

Lemma demo_one_context : context_ok (demo_sp demo_one) (demo_frame 7) demo_one.
Proof. apply context_okb_ok. by vm_compute. Qed.

Definition demo_exit : Sched (list (Z * Z)) := (exec (Exit 3 (demo_sp demo_one) (demo_frame 7)) demo_one).2.

(** Task 1 without capabilities, as user 1000; task 2 is root's. *)
Definition demote (t : Task) : Task :=
  with_cred {| uid := 1000; gid := 1000; euid := 1000; egid := 1000; no_new_privs := false; seccomp_mode := 0; seccomp_allowed := []; caps := Caps.none |} t.
Definition demo_user : Sched (list (Z * Z)) := (exec (Change 1 demote) demo_one).2.
Lemma demo_user_reachable : reachable demo_user.
Proof. apply reach_call; [apply demo_one_reachable|]. by intros t. Qed.
Lemma demo_user_root : exists t, slot 2 (arr demo_user) = Some t /\ t_id t = 2 /\ uid (cred t) = 0.
Proof.
  assert (from_option (fun t => (t_id t =? 2) && (uid (cred t) =? 0)) false (slot 2 (arr demo_user)) = true) as H by (by vm_compute).
  destruct (slot 2 (arr demo_user)) as [t|]; [|discriminate H]. exists t. apply andb_true_iff in H as [H1 H2].
  exact (conj eq_refl (conj (proj1 (Z.eqb_eq _ _) H1) (proj1 (Z.eqb_eq _ _) H2))).
Qed.

(** Task 1 with a handler of SIGUSR1 at 0x401000, and the signal pending. *)
Definition handled (t : Task) : Task := deliver_signal 10 (with_sig
  {| pending_signals := 0; signal_mask := 0; signal_actions := <[10%nat := {| handler_fn := 0x401000; sa_flags := 0; restorer := 0x402000; sa_mask := [0; 0] |}]> (replicate SIG_MAX new_action);
     saved_context := new_context |} t).
Definition demo_signal : Sched (list (Z * Z)) := change_cpu BSP_CPU_ID (set_user_rsp 0x7fff0000) (exec (Change 1 handled) demo_one).2.
Definition demo_handler : bool * words * Sched (list (Z * Z)) := check_signal_for_sysret (fun _ => true) BSP_CPU_ID (demo_sp demo_one) ∅ demo_signal.

Lemma demo_handler_def : demo_handler = check_signal_for_sysret (fun _ => true) BSP_CPU_ID (demo_sp demo_one) ∅ demo_signal.
Proof. unfold demo_handler. reflexivity. Qed.
Lemma triple_true {A B} (x : bool * A * B) : x.1.1 = true -> x = (true, x.1.2, x.2).
Proof. destruct x as [[[] a] b]; [done|discriminate]. Qed.

End LifeDemo.

Import LifeDemo.

Module SchedLife.

(** C28: The end of a task is reported.  When the running task exits and the list of zombies has room, a wait for it by its number answers its number and
    its exit code, once; its slot says that it has ended with this code, and every task with the number of its parent
    has SIGCHLD pending. *)
Theorem exit_reported {W} `{!SchedEnv W} `{!EnvLaws W} (s : Sched W) (t : Task) (code sp : Z) (frame : list Z) (p : Z) :
  reachable s -> context_ok sp frame s -> current_task BSP_CPU_ID s = Some t ->
  (z_count (zombies s) < MAX_ZOMBIES)%nat -> unreported (t_id t) (zombies s) -> any_child (t_id t) = false ->
  let s' := (exec (Exit code sp frame) s).2 in
  (wait_for_child p (t_id t) s').1 = Some (t_id t, code) /\
  (wait_for_child p (t_id t) (wait_for_child p (t_id t) s').2).1 = None /\
  (exists t', slot (current_of BSP_CPU_ID s) (arr s') = Some t' /\ state (run t') = Terminated /\ exit_code t' = code) /\
  (forall j u, slot j (arr s) = Some u -> t_id u = parent_pid t -> exists u', slot j (arr s') = Some u' /\ Z.testbit (pending_signals (sig u')) 17 = true).
Proof.
  intros Hr Hc Ht Hroom Hu Ha s'. pose proof (reachable_ok s Hr) as H. destruct (mark_exit_ok s t code sp frame H Ht Hc) as (H1 & Hc1 & Ecur).
  destruct (wait_found s code t p s' (reachable_zombies s Hr) Hroom Hu Ha (zombies_exit _ code sp frame s t Ht)) as [W1 W2]. split; [done|]. split; [done|].
  assert (s' = (yield_now BSP_CPU_ID sp frame (mark_exit BSP_CPU_ID code t s)).2) as -> by (unfold s'; cbn [exec]; unfold exit_current_task; by rewrite Ht). split.
  - pose proof (slot_mark_exit s t code _ t H Ht Ht) as Hs. cbv zeta in Hs. rewrite (decide_True (P := t_id t = t_id t)) in Hs by done. rewrite <-Ecur in Hs |- *. set (v := if decide _ then _ else _) in Hs.
    assert (state (run v) = Terminated /\ exit_code v = code) as [V1 V2] by (unfold v; destruct (decide _); done).
    destruct (yield_current sp frame _ v H1 Hc1 Hs) as [E|E]; (eexists; split; [exact E|]); [done|]. cbn. by rewrite V1.
  - intros j u Hj Hp. pose proof (slot_mark_exit s t code j u H Ht Hj) as Hs. cbv zeta in Hs. set (v := if decide (t_id u = t_id t) then _ else _) in Hs.
    assert (t_id v = parent_pid t) as Hv by (unfold v; destruct (decide (t_id u = t_id t)); exact Hp). rewrite decide_True in Hs by exact Hv. destruct (yield_slots sp frame _ j _ H1 Hc1 Hs) as (u' & Hu' & Es & _). exists u'. split; [done|]. rewrite Es.
    replace (sig (wake (deliver_signal SIGCHLD v))) with (sig (deliver_signal SIGCHLD v)) by (unfold wake; by destruct (state _)). cbn [deliver_signal with_pending with_sig sig pending_signals].
    rewrite Z.lor_spec. apply orb_true_r.
Qed.

Lemma exit_reported_witness : (wait_for_child 0 1 demo_exit).1 = Some (1, 3).
Proof.
  destruct demo_one_current as (t & Ht & Hid & _ & _).
  destruct (exit_reported demo_one t 3 (demo_sp demo_one) (demo_frame 7) 0 demo_one_reachable demo_one_context Ht) as (H1 & _); rewrite ?Hid.
  - apply Nat.ltb_lt. by vm_compute.
  - by vm_compute.
  - by vm_compute.
  - rewrite Hid in H1. exact H1.
Defined.

(** C27: What a clone inherits.  When a clone succeeds the child has the next number, is in a slot that was free, ready to run from
    its entry in ring 3 on the given stack with all other registers zero; it has its parent's users, groups, capabilities, the bit that forbids new
    privileges and the control group, and with no flags the namespaces; its parent is the caller.  It does not have its parent's filter of
    system calls, its regions of memory, its working directory or its handlers of signals. *)
Theorem clone_inherits {W} `{!SchedEnv W} `{!EnvLaws W} (s s' : Sched W) (p : Task) (flags size entry v ursp brk tid : Z) :
  reachable s -> current_task BSP_CPU_ID s = Some p -> clone_task BSP_CPU_ID flags size entry v ursp brk s = (tid, s') -> tid <> 0 ->
  tid = next_task_id (ctr s) /\
  exists i t, slot i (arr s) = None /\ slot i (arr s') = Some t /\ t_id t = tid /\ parent_pid t = t_id p /\ state (run t) = Ready /\
    load_words (mem s') (rsp (run t)) 20 = replicate 15 0 ++ [entry; 0x23; 0x202; ursp; 0x1b] /\
    (uid (cred t), gid (cred t), euid (cred t), egid (cred t), no_new_privs (cred t), caps (cred t)) = (uid (cred p), gid (cred p), euid (cred p), egid (cred p), no_new_privs (cred p), caps (cred p)) /\
    cgroup t = cgroup p /\ (flags = 0 -> ns t = ns p) /\
    seccomp_mode (cred t) = 0 /\ vma t = VmaTable.new /\ cwd t = 47 :: replicate 255 0 /\ signal_actions (sig t) = replicate SIG_MAX new_action.
Proof.
  intros Hr Hp E Hne. destruct (clone_child flags size entry v ursp brk s p tid s' (reachable_ok s Hr) Hp E Hne) as (-> & i & n & sp & base & uv & H1 & H2 & H3 & H4). split; [done|].
  eexists i, _. split; [exact H1|]. split; [exact H2|]. split; [done|]. split; [done|]. split; [done|]. split; [exact H3|]. by repeat (split; [first [exact H4|done]|]).
Qed.

Lemma clone_inherits_witness : exists i t, slot i (arr (clone_task BSP_CPU_ID 0 65536 0x400000 0x3000 0x7fff0000 0x600000 demo_user).2) = Some t /\ t_id t = 3 /\ uid (cred t) = 1000 /\ caps (cred t) = Caps.none.
Proof.
  assert (from_option (fun t => (uid (cred t) =? 1000) && (caps (cred t) =? 0)) false (current_task BSP_CPU_ID demo_user) = true) as Hc by (by vm_compute).
  destruct (current_task BSP_CPU_ID demo_user) as [p|] eqn:Hp; [|discriminate Hc]. apply andb_true_iff in Hc as [Hu Hk].
  assert ((clone_task BSP_CPU_ID 0 65536 0x400000 0x3000 0x7fff0000 0x600000 demo_user).1 = 3) as Ht by (by vm_compute).
  destruct (clone_inherits demo_user (clone_task BSP_CPU_ID 0 65536 0x400000 0x3000 0x7fff0000 0x600000 demo_user).2 p 0 65536 0x400000 0x3000 0x7fff0000 0x600000 3 demo_user_reachable Hp) as (_ & i & t & _ & H2 & H3 & _ & _ & _ & H7 & _).
  - rewrite <-Ht. apply surjective_pairing.
  - discriminate.
  - injection H7 as E1 _ _ _ _ E6. exists i, t. exact (conj H2 (conj H3 (conj (eq_trans E1 (proj1 (Z.eqb_eq _ _) Hu)) (eq_trans E6 (proj1 (Z.eqb_eq _ _) Hk))))).
Defined.

(** C39: Waiting for a futex does not wait.  While another task can run, a wait that is queued does exactly what a yield does: the switch makes the
    sleeping task ready again, so that it goes on at its next turn although nothing has woken it, and its entry in the queue
    stays. *)
Theorem futex_wait_is_yield {W} `{!SchedEnv W} `{!EnvLaws W} (s : Sched W) (t : Task) (i : nat) (addr val user_val sp : Z) (frame : list Z) (f f' : FutexTable) :
  reachable s -> context_ok sp frame s -> current_task BSP_CPU_ID s = Some t -> state (run t) <> Terminated -> runnable i s -> i <> current_of BSP_CPU_ID s ->
  validate_user_range addr 4 = true -> futex_wait addr (val mod U32) user_val (t_id t) f = (true, f') ->
  let r := yield_now BSP_CPU_ID sp frame s in
  sys_futex BSP_CPU_ID addr 0 val user_val sp frame f s = (0, r.1, f', r.2) /\
  exists t', slot (current_of BSP_CPU_ID s) (arr r.2) = Some t' /\ (is_active t = true -> is_active t' = true).
Proof.
  intros Hr Hc Ht Hst Hi Hne Hv Hf. pose proof (reachable_ok s Hr) as H. cbv zeta. split.
  - unfold sys_futex. rewrite Hv. cbn [negb]. change (Z.land 0 0xF =? 0) with true. cbn iota. rewrite (proj1 (get_current s t H Ht)), Hf, (yield_asleep s t sp frame i H Ht Hst Hi Hne).
    by destruct (yield_now BSP_CPU_ID sp frame s).
  - destruct (yield_current sp frame s t H Hc Ht) as [E|E]; (eexists; split; [exact E|]); [done|]. intros _. unfold is_active, suspend. cbn. by destruct (state (run t)).
Qed.

Lemma futex_wait_is_yield_witness :
  let r := yield_now BSP_CPU_ID (demo_sp demo_one) (demo_frame 7) demo_one in
  sys_futex BSP_CPU_ID 0x5000 0 7 7 (demo_sp demo_one) (demo_frame 7) new_futexes demo_one = (0, r.1, (futex_wait 0x5000 7 7 1 new_futexes).2, r.2).
Proof.
  destruct demo_one_current as (t & Ht & Hid & Hs & _).
  refine (proj1 (futex_wait_is_yield demo_one t 2 0x5000 7 7 (demo_sp demo_one) (demo_frame 7) new_futexes _ demo_one_reachable demo_one_context Ht _ _ _ eq_refl _)).
  - rewrite Hs. discriminate.
  - apply runnableb_ok. by vm_compute.
  - apply Nat.eqb_neq. by vm_compute.
  - rewrite Hid. by vm_compute.
Defined.

(** C30: Delivery of a signal and return from its handler.  A call that returns to a task with a signal that has a handler goes to the handler of
    the lowest one, which is no longer pending, on a stack with a frame of the interrupted context.  When the handler calls [rt_sigreturn] with the frame
    as it was, whatever else has changed, the user stack pointer is the one the signal found, and the context of the
    interrupted code is the task's saved context.  The frame on the kernel stack through which the call returns stays as it
    is, so the task does not go on at the interrupted instruction but after the call. *)
Theorem signal_roundtrip {W} `{!SchedEnv W} (mapped : Z -> bool) (krsp : Z) (user user' user2 : words) (s s' s2 : Sched W) (t t2 : Task) :
  get_task (current_task_id BSP_CPU_ID s) s = Some t -> check_signal_for_sysret mapped BSP_CPU_ID krsp user s = (true, user', s') -> (BSP_CPU_ID < length (cpus s))%nat ->
  user_rsp_of BSP_CPU_ID s2 = user_rsp_of BSP_CPU_ID s' -> load_words user2 (user_rsp_of BSP_CPU_ID s') 21 = load_words user' (user_rsp_of BSP_CPU_ID s') 21 ->
  get_task (current_task_id BSP_CPU_ID s2) s2 = Some t2 -> (BSP_CPU_ID < length (cpus s2))%nat ->
  let rip := load_word (mem s) (krsp + 8) in
  let rflags := load_word (mem s) krsp in
  let c := saved_context (sig t) in
  let r := sys_rt_sigreturn mapped BSP_CPU_ID user2 s2 in
  (exists n a, next_signal t = Some n /\ signal_actions (sig t) !! n = Some a /\ handler_fn a <> 0 /\ load_word (mem s') (krsp + 8) = handler_fn a /\
    load_words user' (user_rsp_of BSP_CPU_ID s') 21 = frame_words (signal_frame t n a (user_rsp_of BSP_CPU_ID s) rip rflags)) /\
  r.1 = 0xDEADBEEF /\ user_rsp_of BSP_CPU_ID r.2 = user_rsp_of BSP_CPU_ID s /\ mem r.2 = mem s2 /\
  arr r.2 = arr (on_task (current_task_id BSP_CPU_ID s2) (with_context
    {| c_rax := c_rax c; c_rbx := c_rbx c; c_rcx := c_rcx c; c_rdx := c_rdx c; c_rsi := c_rsi c; c_rdi := c_rdi c; c_rbp := c_rbp c; c_rsp := user_rsp_of BSP_CPU_ID s;
       c_r8 := c_r8 c; c_r9 := c_r9 c; c_r10 := c_r10 c; c_r11 := c_r11 c; c_r12 := c_r12 c; c_r13 := c_r13 c; c_r14 := c_r14 c; c_r15 := c_r15 c;
       c_rflags := rflags; c_rip := rip; c_valid := true |}) s2).
Proof.
  intros Ht E Hl Hu Hw Ht2 Hl2. cbv zeta. unfold check_signal_for_sysret in E. rewrite Ht in E. cbn [mbind option_bind] in E.
  destruct (deliver_to _ _ _ _ _ _) as [[[[[sp h] fl] t'] us]|] eqn:Ed; [|discriminate E]. apply deliver_to_inv in Ed as (n & a & D1 & D2 & D3 & D4 & D5 & _ & D7 & _).
  assert (us = user') as <- by congruence. apply (f_equal snd) in E. cbn [snd] in E.
  assert (user_rsp_of BSP_CPU_ID s' = sp) as Esp by (rewrite <-E; apply user_rsp_set; exact Hl). rewrite Esp in *.
  assert (load_words us sp 21 = frame_words (signal_frame t n a (user_rsp_of BSP_CPU_ID s) (load_word (mem s) (krsp + 8)) (load_word (mem s) krsp))) as Hf.
  { rewrite D7. apply (load_stored sp (frame_words (signal_frame t n a (user_rsp_of BSP_CPU_ID s) (load_word (mem s) (krsp + 8)) (load_word (mem s) krsp)))). }
  split.
  - exists n, a. repeat (split; [done|]). split; [|exact Hf]. rewrite <-E. subst h. cbn [mem change_cpu with_cpus with_mem]. unfold load_word.
    replace (krsp + 8) with (krsp + 8 * Z.of_nat 1) by lia. by rewrite (store_words_in [fl; handler_fn a] krsp _ 1 (handler_fn a)).
  - unfold sys_rt_sigreturn, rt_sigreturn_restore, restore_signal_frame. rewrite Hu, D5. cbn [negb]. rewrite (read_stored _ _ _ (eq_trans Hw Hf)), Ht2. cbn [fst snd].
    split; [done|]. split; [|done]. by apply user_rsp_set.
Qed.

Lemma signal_roundtrip_witness :
  let r := sys_rt_sigreturn (fun _ => true) BSP_CPU_ID demo_handler.1.2 demo_handler.2 in r.1 = 0xDEADBEEF /\ user_rsp_of BSP_CPU_ID r.2 = 0x7fff0000 /\ mem r.2 = mem demo_handler.2.
Proof.
  assert (bool_decide (is_Some (get_task (current_task_id BSP_CPU_ID demo_signal) demo_signal)) = true) as [t Ht]%bool_decide_eq_true by (by vm_compute).
  assert (bool_decide (is_Some (get_task (current_task_id BSP_CPU_ID demo_handler.2) demo_handler.2)) = true) as [t2 Ht2]%bool_decide_eq_true by (by vm_compute).
  assert (demo_handler.1.1 = true) as Hd by (by vm_compute).
  destruct (signal_roundtrip (fun _ => true) (demo_sp demo_one) ∅ demo_handler.1.2 demo_handler.1.2 demo_signal demo_handler.2 demo_handler.2 t t2 Ht) as (_ & H1 & H2 & H3 & _).
  - exact (eq_trans (eq_sym demo_handler_def) (triple_true demo_handler Hd)).
  - apply Nat.ltb_lt. by vm_compute.
  - reflexivity.
  - reflexivity.
  - exact Ht2.
  - apply Nat.ltb_lt. by vm_compute.
  - split; [exact H1|]. split; [|exact H3]. etrans; [exact H2|]. by vm_compute.
Defined.

(** C29: Signals need permission.  Whatever number a call of [kill] is given, a task that belongs to another user is left as it is when the caller has not the
    capability to signal it; named directly it makes the call fail with EPERM, for every valid signal. *)
Theorem kill_permission {W} `{!SchedEnv W} `{!EnvLaws W} (s : Sched W) (pid signal : Z) (i : nat) (t : Task) :
  reachable s -> slot i (arr s) = Some t -> Caps.may_kill (current_cred uid BSP_CPU_ID s) (current_caps BSP_CPU_ID s) (uid (cred t)) = false ->
  slot i (arr (sys_kill BSP_CPU_ID pid signal s).2) = Some t /\
  (pid = t_id t -> pid <> 0 -> pid <> err 1 -> 0 < signal < 64 -> (sys_kill BSP_CPU_ID pid signal s).1 = err 1).
Proof.
  intros Hr Ht Hk. pose proof (reachable_ok s Hr) as H. destruct (current_task_slot s H) as [me Hme]. destruct (get_current s me H Hme) as [Hid _]. split.
  - unfold sys_kill. case_if; [done|]. destruct (pid =? 0).
    { apply deliver_other; [done|]. rewrite Hid. intros E. assert (t = me) as ->. { destruct H as [_ Hv]. assert (i = current_of BSP_CPU_ID s) as -> by (by eapply (inv_ids _ _ _ _ _ _ _ Hv)). unfold current_task in Hme. congruence. }
      unfold current_cred in Hk. rewrite Hme in Hk. unfold Caps.may_kill in Hk. cbn in Hk. by rewrite Z.eqb_refl in Hk. }
    destruct (pid =? err 1).
    { pose proof (signal_all_other s (current_cred uid BSP_CPU_ID s) (current_caps BSP_CPU_ID s) (Z.to_nat signal) i t Ht) as Hs. destruct (signal_all _ _ _ _) as [k s']. apply Hs.
      eapply List.Forall_impl; [|exact (task_list_uid s i t H Ht)]. cbn. intros p Hp E. by rewrite (Hp E). }
    unfold get_task_id_by_pid, get_task_uid. destruct (get_task pid s) as [u|] eqn:Eu; [|done]. cbn [fmap option_fmap option_map].
    assert (exists j, slot j (arr s) = Some u) as [j Hj] by (unfold get_task, find_task in Eu; destruct (find_slot pid (arr s)) as [j|]; [by exists j|done]). rewrite (get_slot s j u H Hj). cbn [fmap option_fmap option_map default].
    match goal with |- context [negb ?b] => destruct b eqn:Em end; cbn [negb]; [|done]. apply deliver_other; [done|]. intros E. destruct H as [_ Hv]. assert (i = j) as -> by (by eapply (inv_ids _ _ _ _ _ _ _ Hv)). assert (u = t) as -> by congruence. cbn [from_option id] in Em. unfold id in Em. congruence.
  - intros -> H0 H1 Hs. unfold sys_kill. rewrite (proj2 (Z.eqb_neq signal 0)), (proj2 (Z.leb_gt 64 signal)) by lia. cbn [orb]. rewrite (proj2 (Z.eqb_neq _ _) H0), (proj2 (Z.eqb_neq _ _) H1).
    unfold get_task_id_by_pid, get_task_uid. rewrite (get_slot s i t H Ht). cbn [fmap option_fmap option_map]. rewrite (get_slot s i t H Ht). cbn [from_option fmap option_fmap option_map]. unfold id. by rewrite Hk.
Qed.

Lemma kill_permission_witness : (sys_kill BSP_CPU_ID 2 9 demo_user).1 = err 1.
Proof.
  destruct demo_user_root as (t & Ht & Hid & Hu).
  refine (proj2 (kill_permission demo_user 2 9 2 t demo_user_reachable Ht _) (eq_sym Hid) _ _ _); [rewrite Hu; by vm_compute|discriminate|discriminate|split; reflexivity].
Defined.

(** [tgkill] asks for no permission: it ends any task. *)
Theorem tgkill_unchecked {W} `{!SchedEnv W} `{!EnvLaws W} (s : Sched W) (i : nat) (t : Task) : reachable s -> slot i (arr s) = Some t -> t_id t <> 0 ->
  (sys_tgkill BSP_CPU_ID (t_id t) 9 s).1 = 0 /\ exists t', slot i (arr (sys_tgkill BSP_CPU_ID (t_id t) 9 s).2) = Some t' /\ t_id t' = t_id t /\ state (run t') = Terminated.
Proof.
  intros Hr Ht H0. pose proof (reachable_ok s Hr) as H. unfold sys_tgkill. rewrite (proj2 (Z.eqb_neq _ _) H0). cbn [negb]. unfold get_task_id_by_pid. rewrite (get_slot s i t H Ht). cbn -[signal_force_kill signal_deliver].
  split; [done|]. pose proof (on_task_ok (t_id t) _ s (harmless_deliver 9) H) as H1. pose proof (slot_on_task s (t_id t) (fun t => wake (deliver_signal 9 t)) i t H Ht) as H2. rewrite decide_True in H2 by done.
  pose proof (slot_on_task _ (t_id t) (fun t => with_exit_code (9 * 256) (with_state Terminated t)) i _ H1 H2) as H3. rewrite decide_True in H3 by apply (harmless_deliver 9). eexists. split; [exact H3|].
  split; [apply (harmless_deliver 9)|done].
Qed.

(** A task that has ended runs again after SIGCONT. *)
Theorem continue_revives {W} `{!SchedEnv W} `{!EnvLaws W} (s : Sched W) (i : nat) (t : Task) : reachable s -> slot i (arr s) = Some t -> (1 <= i < MAX_TASKS)%nat -> state (run t) = Terminated ->
  reachable (deliver_signal_to (t_id t) SIGCONT s).2 /\ runnable i (deliver_signal_to (t_id t) SIGCONT s).2.
Proof.
  intros Hr Ht Hi Hst. assert (forall s f, harmless f -> reachable s -> reachable (on_task (t_id t) f s)) as Hc by (intros s0 f Hf Hs; by apply (reach_call (Change (t_id t) f))).
  assert (forall n, harmless (clear_signal n)) as Hcl by (intros n; by intros x). cbn [deliver_signal_to snd]. change (deliver_signal_to (t_id t) SIGCONT s).2 with (task_set_state (t_id t) Ready (signal_deliver (t_id t) SIGCONT (signal_clear (t_id t) SIGCONT (signal_clear (t_id t) SIGSTOP s)))).
  set (s1 := signal_deliver (t_id t) SIGCONT (signal_clear (t_id t) SIGCONT (signal_clear (t_id t) SIGSTOP s))).
  assert (reachable s1) as H1 by (apply Hc; [apply harmless_deliver|]; apply Hc; [apply Hcl|]; by apply Hc). split; [apply Hc; [by apply harmless_state|done]|].
  assert (exists u, slot i (arr s1) = Some u /\ t_id u = t_id t) as (u & Hu & Hid).
  { assert (forall s f x, harmless f -> reachable s -> slot i (arr s) = Some x -> t_id x = t_id t -> exists y, slot i (arr (on_task (t_id t) f s)) = Some y /\ t_id y = t_id t) as Hstep.
    { intros s0 f x Hf Hs Hx Hid. eexists. split; [apply (slot_on_task s0 (t_id t) f i x (reachable_ok s0 Hs) Hx)|]. rewrite decide_True by done. by rewrite (proj1 (Hf x)). }
    destruct (Hstep s (clear_signal SIGSTOP) t (Hcl _) Hr Ht eq_refl) as (y & Hy & Iy). destruct (Hstep _ (clear_signal SIGCONT) y (Hcl _) (Hc _ _ (Hcl _) Hr) Hy Iy) as (z & Hz & Iz).
    apply (Hstep _ _ z (harmless_deliver SIGCONT)); [|done|done]. by apply Hc, Hc. }
  split; [done|]. eexists. split; [apply (slot_on_task s1 (t_id t) (with_state Ready) i u (reachable_ok _ H1) Hu)|]. by rewrite decide_True.
Qed.

(** A task that SIGKILL has ended is not reported to a wait. *)
Theorem sigkill_unreported {W} `{!SchedEnv W} (s : Sched W) (tid p : Z) : any_child tid = false -> unreported tid (zombies s) -> (wait_for_child p tid (deliver_signal_to tid SIGKILL s).2).1 = None.
Proof. intros Ha Hu. unfold wait_for_child. rewrite Ha. unfold find_by_child, find_zombie. cbn [zombies deliver_signal_to snd signal_force_kill signal_deliver on_task with_arr]. change (zombies (deliver_signal_to tid SIGKILL s).2) with (zombies s). by rewrite (proj2 (find_index_None _ _) Hu). Qed.

(** A signal with no handler is not delivered, not acted on, and keeps those with higher numbers back. *)
Theorem unhandled_blocks {W} `{!SchedEnv W} (mapped : Z -> bool) (krsp : Z) (user : words) (s : Sched W) (t : Task) (n : nat) (a : SignalAction) :
  get_task (current_task_id BSP_CPU_ID s) s = Some t -> next_signal t = Some n -> signal_actions (sig t) !! n = Some a -> handler_fn a = 0 ->
  check_signal_for_sysret mapped BSP_CPU_ID krsp user s = (false, user, s).
Proof.
  intros Ht Hn Ha Hh. unfold check_signal_for_sysret. rewrite Ht. cbn [mbind option_bind]. destruct (deliver_to _ _ _ _ _ _) as [[[[[sp h] fl] t'] us]|] eqn:Ed; [|done].
  apply deliver_to_inv in Ed as (m & b & D1 & D2 & D3 & _). congruence.
Qed.

End SchedLife.
